(* ===== verification/_CoqProject ===== *)
-Q . S2P
Prelude.v
Bytes.v
CStrings.v
NetUtils.v
Commands.v
SleepLoop.v
Json.v
JsonUtf8.v
JsonDtoa.v
JsonDtoaProps.v
JsonDtoaRound.v
JsonDump.v
JsonDumpProps.v
JsonLexer.v
JsonLexerProps.v
JsonLexerTotal.v
JsonParser.v
JsonParserProps.v
JsonRoundTrip.v
JsonText.v
JsonErrors.v
ClassifierKey.v
ClassifierParse.v
ClassifierTables.v
ClassifierInvariant.v
ClassifierLookup.v
ClassifierUpdate.v
ClassifierProps.v
LockManager.v
KeyedFailureLog.v
EventSystem.v
SFlowTypes.v
SFlowProps.v
FlowDiff.v
SFlowParser.v
SFlowWire.v
SFlowIngest.v
IngestPool.v
IngestPoolProps.v
FlowRates.v
FlowRatesProps.v
PathWalk.v
FlowDispatch.v
FlowDispatchProps.v
GraphTypes.v
Topology.v
TopologyProps.v
TopologyPaths.v
TopologyFlows.v
TopologyBfs.v
TopologyRename.v
TopologyReports.v
TopologyInterface.v
PortMapping.v
RateLoop.v
IntentTypes.v
Routing.v
PathFetch.v
TopologyRun.v
FlowTableCache.v
DevicePoll.v
DevicePower.v
DeviceReports.v
DeviceRun.v
HttpRouter.v
Applications.v
ShellArgs.v
JsonShell.v
History.v
DeviceQuery.v
HttpSession.v
HttpProps.v
HttpServer.v
JsonHttp.v
NetworkQueries.v
IntentAgent.v
IntentTranslator.v
IntentProps.v
ProcessStart.v
