(* ===== verification/Prelude.v ===== *)
(** * NDTwin-Kernel: verification library

    NDTwin-Kernel keeps a digital twin of a network of programmable switches.  It receives sFlow
    datagrams from the switches, polls their flow tables, combines both with the configured
    topology, and serves and changes the network state over an HTTP interface.  This library
    models the parts of the C++ sources that carry that logic as executable Rocq functions and
    step relations, and proves what makes them correct.  Paths below are relative to src/.

    ** The program and the files that model it

    - Shared vocabulary.  This file: exceptions as values ([outcome], [run]), machine widths
      ([u8] .. [u64], [i32], [i64], [fits]), tactics, hint databases and generic lemmas.  [Bytes]:
      big-endian encodings and byte-wise masking.  [CStrings]: the C library text functions the
      sources parse with.  [NetUtils] (include/utils/Utils.hpp): the texts of addresses, dpids,
      ports and query parameters.  [Commands] (the same header): running a command, its reports, and
      the words a POSIX shell makes of a command line; [ShellArgs] applies it to the curl commands of
      the routing strategies and the simulation manager.  [SleepLoop]: the worker loops that sleep in
      slices and end with a flag.  [Json]: [nlohmann::json] values and accessors.

    - JSON texts (libs/nlohmann/json.hpp).  [JsonUtf8]: the decoding table of the serializer and the
      byte ranges of the lexer, shown to accept the same texts.  [JsonDtoa]: the printing of doubles
      (Grisu2 with its cached powers) and a correctly rounding [strtod]; [JsonDtoaProps] and
      [JsonDtoaRound] show that a printed double reads back exactly.  [JsonDump]: escaping through
      the string buffer under every error handler, integers, and [dump]; [JsonDumpProps].
      [JsonLexer]: the lexer, state by state; [JsonLexerProps] and [JsonLexerTotal].  [JsonParser]:
      the parser loop with its stack of open containers, the DOM builder, whose references into the
      value are paths, and the messages of errors; [JsonParserProps].  [JsonRoundTrip] and [JsonText]
      put dump and parse together; [JsonErrors] is about the text of a parse error.  [JsonShell] and
      [JsonHttp] join the library to the requests for the control planes and to the HTTP session.

    - Flow-table classifier (src/ndt_core/collection/Classifier.cpp).  [ClassifierKey] packs keys
      and masks into bytes and fingerprints rules; [ClassifierParse] turns a polled JSON entry
      into a rule; [ClassifierTables] has the mask-grouped tables, the mark-and-sweep update of a
      poll and the pruned lookup.  [ClassifierInvariant], [ClassifierLookup] and
      [ClassifierUpdate] hold the representation invariant, the lookup specification and the
      effect of polls; [ClassifierProps] states the properties.

    - sFlow ingest and flow accounting (include/common_types/SFlowType.hpp and
      src/ndt_core/collection/FlowLinkUsageCollector.cpp).  [SFlowTypes]: keys, hops, sliding
      window, counters, rates.  [SFlowParser]: [handlePacket] with everything it changes.
      [SFlowWire]: an encoder that follows the protocol's layout, as specification of the parser.
      [FlowDiff]: [getFlowTableDiff].  [FlowRates]: one pass of the rate loop, of the immediate
      estimate, of the credit drains and of the idle purge, the JSON reports and the path table.
      [IngestPool] and [IngestPoolProps]: the receive thread, the bounded queues, the workers and the
      two ways of stopping them, in single steps.  [PortMapping]: the reading of the interface table
      and the choice made at the first lookup.  [RateLoop]: the rate loop around [FlowRates].
      [PathFetch]: the fetch of the destination paths and its schedule.  [SFlowProps], [SFlowIngest]
      and [FlowRatesProps] state the properties.

    - Topology (include/common_types/GraphTypes.hpp and
      src/ndt_core/collection/TopologyAndFlowMonitor.cpp).  [GraphTypes]: vertices, edges, the
      graph container and IEEE doubles.  [Topology]: loading the static file, finders, discovery
      from control-plane replies, flags, administrative disabling, link rates, the flows of an
      edge and the depth-first path search.  [TopologyBfs]: the breadth-first search that computes
      the rules and paths towards a host.  [TopologyRename]: renaming a device in the graph and in
      its file.  [TopologyReports]: the JSON forms of the graph.  [NetworkQueries]: the link, path
      and topology queries of the intent translator.  [TopologyRun]: the thread that loads the file
      and polls the control plane.  [TopologyProps], [TopologyPaths] and [TopologyFlows] state further
      properties.

    - Path walk (FlowLinkUsageCollector.cpp, [calFlowPathByQueried]).  [PathWalk] traces each
      flow through the topology with the classifier's answers and the failure log.

    - Flow dispatcher (FlowJob.hpp, FlowDispatcher.cpp).  [FlowDispatch] models batches and the
      per-switch worker threads as a step relation; [FlowDispatchProps] has the properties.

    - Routing (HttpRoutingStrategyBase.cpp, P4RoutingStrategy.cpp, FlowRoutingManager.cpp,
      Controller.cpp).  [Routing]: results, requests to the two control planes, the choice of the
      plane by the kind of switch, and the sender of the dispatcher.

    - Devices (DeviceConfigurationAndPowerManager.cpp, OVSPowerStrategy.cpp, P4PowerStrategy.cpp,
      SSHHelper.hpp).  [FlowTableCache]: the served flow tables and their update by requests.
      [DevicePoll]: the polls that refresh them.  [DevicePower]: liveness ticks and power
      switching.  [DeviceQuery]: the power state.  [DeviceReports]: power, CPU, memory and
      temperature reports and the smart-plug table.  [DeviceRun]: what is read at the start, the
      liveness loop, and the two workers with their sleeps.

    - HTTP interface (HttpSession.cpp).  [HttpRouter]: the chain of routes.  [HttpSession]: the
      state of the whole kernel, every handler, and [buildResponse] with its catch clauses.
      [HttpProps]: the properties.  [HttpServer] (ControllerAndOtherEventHandler.cpp and the read and
      write loop of HttpSession.cpp): connections, the accept loop and the stop, as a machine whose
      steps are the completions of asynchronous operations.  [Applications] (ApplicationManager.cpp,
      SimulationRequestManager.cpp) and [History] (HistoricalDataManager.cpp) model two components
      only the handlers use.

    - Intents (src/ndt_core/intent_translator).  [IntentTypes] (LLMResponseTypes.hpp): replies and
      tasks with their JSON forms.  [IntentAgent] (LLMAgent.cpp): the sessions with the
      language-model service.  [IntentTranslator] (IntentTranslator.cpp): every task on the kernel,
      and an intent as a whole.  [IntentProps]: the properties.

    - Process start (main.cpp, utils/Logger.cpp).  [ProcessStart]: the command lines, the choice of
      mode and topology, and the threads of the components from start to the end of the process.

    - [LockManager] (LockManager.hpp), [KeyedFailureLog] (KeyedFailureLog.hpp) and [EventSystem]
      (EventBus.hpp, RequestParser.hpp): small components other parts rely on.

    Components meet as in the code.  The collector calls the topology monitor: the class
    [TopologyMonitor] of [SFlowParser] is what it may do to it, and the class [WalkGraph] of
    [PathWalk] is what the path walk reads of the graph; the theorems of those files hold for every
    instance.  [TopologyInterface] makes the modelled topology an instance of both and states what
    follows for the composed program.  The path walk uses the classifier's [lookup_] and
    [knowsSwitch] and the failure log's [record] and [endPass].  The sender of the dispatcher is the
    routing manager, which reads the topology's kind index.  The [Kernel] of [HttpSession] holds
    the state of all components; the handlers and the tasks of an intent are functions on it that
    call the operations above.

    The class [JsonText] of [Routing] prints and parses JSON texts: the components are proved for every
    instance, and [JsonHttp] makes the modelled library one.  Code outside the repository is a
    parameter: [Shell] and [Machine] run commands, [NfsHost] is the file system and the shell as the application
    manager uses them, [Service] is the language-model service; appending to a file, the replies of the
    control planes, [std::hash] and the messages of exceptions are arguments.  What a socket, a poll or
    a ping answers is part of the step or tick that asks.

    ** How state and effects correspond

    A struct is a record and an enum an inductive type, with the names of the source.  A hash
    map or [std::map] is a [gmap]; where the visiting order is observable, a [std::map] is visited
    in key order and a hash map in an arbitrary fixed order.  Pointers into a container are the
    keys of what they point to.  Unsigned arithmetic wraps at its width.  A function that can
    throw returns an [outcome]; one that has already changed state when it throws is a [run],
    which returns the state and the outcome.  A critical section is one atomic update.  Clocks
    are arbitrary readings, passed in.  A [double] is a [spec_float] of the Standard Library at
    binary64; the result of an out-of-range cast to an integer, which C++ leaves undefined, is a
    parameter.  [front()] of an empty vector, also undefined, matches nothing.  Logging and hash
    functors are left out.

    ** What the theorems show

    - Classifier: every update keeps the representation invariant, also one ended by an
      exception; a completed poll leaves exactly the polled rules; lookup answers with a matching
      rule of the highest priority; the packed byte comparison means the field-wise match.  A poll
      ended by an exception leaves a stale subtable order, with which lookup can answer wrongly.
    - Ingest: decoding inverts the wire encoding; a datagram adds to each flow and interface
      exactly the bytes of its packets; the loop makes progress for any input; counter reports
      give the left bandwidth.  A non-first fragment hides the rest of its datagram.
    - Rates: the window sum is exact; periodic rates average over the hops that saw traffic and
      decay to zero; drains zero exactly the credits with a known other side; the purge, top-k and
      path-table operations do what they say.  The drain intervals of the rate loop tile the time, and
      its reports of lost samples are exact.  The immediate rate also counts stale hops.
    - Worker pool: in every interleaving each datagram is accepted, counted as dropped or in hand, each
      worker takes its queue in order, and a stopped pool whose workers are awake drains.  A stop can
      miss a worker that is about to sleep, and two threads can join the same worker.
    - Ports and paths: a printed interface table is read back exactly; the paths are replaced by a
      usable reply and kept otherwise, fetched exactly when due.
    - Topology: any file loads to a well-formed graph, also when it stops at a malformed entry; a
      switch report raises exactly the switches it names; an administrative disable outlasts polls,
      link events and telemetry; the path search returns exactly the loop-free routes; an edge
      lists exactly its recent flows and its published use never exceeds its capacity.  With the
      topology behind the collector, traced paths are chains of its edges, and a drain zeroes
      exactly the interfaces some edge enters.  The breadth-first search gives shortest routes and
      rules that descend towards the destination.  A rename survives a reload of the file, and a
      client that reads the graph report back sees exactly what is usable.  The congested links are
      ranked.  A run of the monitor keeps the loaded network and asks only the control plane that owns
      the switches.  Enabling a switch also re-enables its links to a neighbour that is still disabled.
    - Texts: addresses survive printing and parsing.
    - JSON: what is dumped parses back to the same value, every double included; what was parsed can
      always be dumped, and then nothing changes any more; parsing ends on every text; escaping stays
      in its buffer under every error handler; [dump] throws exactly on texts that are not UTF-8.
    - Path walk: a path is produced exactly when forwarding by the highest-priority rules reaches
      a host, and is that route; a pass updates only paths.
    - Dispatcher: in every interleaving delivery is FIFO per switch without loss or duplication,
      and a stopped dispatcher drains in a bounded number of steps.
    - Routing: the result of a request is told exactly from what curl prints, and with the
      dispatcher every accepted job reaches the control plane of its switch exactly once, in order.
    - Devices: the served tables follow the requests and the polls; a power request changes the twin
      exactly when it reports success, a liveness tick follows its evidence, a run of ticks judges all
      switches at once, the workers end with the stop, a power cycle restores the ports, and simulated
      reports stay in their ranges.  A start before the topology is loaded blinds the liveness loop to
      bmv2 switches.  Flows named as the control planes name
      them share one identity in the cache.
    - HTTP: routing does not depend on the order of the chain; reads change nothing; a flow batch is
      refused without effect or queued; link reports mark both directions; the lock endpoints refine
      the leases.  On every connection the responses follow the requests, the stop of the server ends,
      and nothing ends the process but an error message that cannot be written as JSON.
      Over the modelled JSON library a malformed ASCII body is answered 400, and a body that starts
      with a character that is not ASCII ends the process.
    - Commands: curl gets the intended arguments exactly when the text has no single quote, which is
      when no string of the dumped value has one.
    - Process start: flags are honoured, and a headless start with a missing choice is refused.  The
      orderly shutdown ends in [std::terminate].
    - Intents: an accepted reply is well typed and survives writing; a conversation continues where
      it stopped; tasks are performed in order; flow and administrative tasks act on exactly the
      switch they name and report what happened, queries change nothing.  Some tasks report success
      for work that was not done.
    - Locks refine an abstract lease specification and exclude each other; the failure log warns
      exactly after its hold-off and alternates warnings and recoveries; an emit calls the
      handlers of its snapshot and terminates when events do not cycle.

    ** Bounds and fuel

    [sampleLoop] recurses on the sample count, which the parser bounds by the datagram's words
    ([sample_loop_bounded] shows that more iterations change nothing).  [walkHops] has the code's
    own bound of 100 hops.  [dfs] takes the number of vertices as fuel, which is enough because the
    vertices on the current path are distinct; [all_paths_exact] includes that.  The loop
    of the breadth-first search takes as fuel the number of vertices, each of which enters the queue
    once; [bfs_paths_shortest] includes that.  [refreshPathsLoop] and [sleepingWorker] take the second
    of the stop as fuel, since every round takes a second at least; [refresh_schedule] and
    [tables_worker_schedule] include that.  [askAgent] counts the code's own five tries.  [emit]
    takes the nesting depth as fuel, and [emit_terminates] gives a sufficient depth; without fuel it
    returns nothing, never a wrong state.  The loops of the JSON lexer take the length of the input as
    fuel and the parser loop one more than that ([parseFuel]); [json_parse_terminates] shows that it is
    enough.  The loops of Grisu2 take bounds that follow from the widths of their operands, and
    [grisu2_digit_gen_spec] includes that they suffice.  All other recursions are structural.  [datagram_ingested] is stated for up to 2^20 samples, far above
    what a UDP datagram can hold.

    ** What is not modelled

    The concurrency of the components is that of their critical sections: a completion handler, a
    tick and an iteration of a worker are one step, except in the dispatcher and in the worker pool,
    whose threads are interleaved step by step.  Sockets and the I/O context are libraries.  Logging is
    left out but for the reports that have a state of their own; so are the functions that only log
    (logGraph, printAllPathMap), the sinks of the logger, the HTTPS client and the formatting of
    times.  Restarting a stopped dispatcher or server is left out (the program starts them once).  Of
    the intent translator, the negotiation with the validation agent and the prompt helpers, which the
    program does not call.  Of the JSON library, the binary formats, pointers and patches, callbacks,
    parsing without exceptions, values of the binary and discarded kinds, infinities and the sign of a
    zero.  spdlog and its bundled fmt.  The P4 proxy, the tools and the tests are written in other languages or
    test this code. *)

From Stdlib Require Export ZArith Lia Bool Btauto.
From stdpp Require Export base sorting numbers gmap strings pretty list.

Declare Scope ndt_scope.
Delimit Scope ndt_scope with ndt.
Global Open Scope Z_scope.
Open Scope ndt_scope.

(** * Exceptions and fallible computations *)

(** The exception classes the C++ sources throw or let through. *)
Inductive exn :=
  | InvalidArgument
  | OutOfRange
  | RuntimeError
  | JsonTypeError
  | JsonOutOfRange
  | JsonParseError
  | TruncatedDatagram (requestedWord availableWords : Z).

#[export] Instance exn_eq_dec : EqDecision exn.
Proof. solve_decision. Defined.

(** A C++ expression either yields a value or throws. *)
Inductive outcome (A : Type) :=
  | Ret (a : A)
  | Throw (e : exn).
Arguments Ret {A} a.
Arguments Throw {A} e.

#[export] Instance outcome_eq_dec {A} `{!EqDecision A} : EqDecision (outcome A).
Proof. solve_decision. Defined.

Definition obind {A B} (c : outcome A) (k : A -> outcome B) : outcome B :=
  match c with Ret a => k a | Throw e => Throw e end.

Lemma obind_ret {A B} (c : outcome A) (k : A -> outcome B) b :
  obind c k = Ret b -> exists a, c = Ret a /\ k a = Ret b.
Proof. destruct c; simpl; naive_solver. Qed.

Definition omap_out {A B} (f : A -> B) (c : outcome A) : outcome B :=
  obind c (fun a => Ret (f a)).

Definition is_ret {A} (c : outcome A) : bool :=
  match c with Ret _ => true | Throw _ => false end.

(** [catch c d]: a try block whose handler yields [d]. *)
Definition catch {A} (c : outcome A) (d : A) : A :=
  match c with Ret a => a | Throw _ => d end.

Notation "'let!' x := c 'in' k" := (obind c (fun x => k))
  (at level 10, x pattern, c at level 100, k at level 200) : ndt_scope.

(** State-passing code that may throw: the state reached before the throw survives it. *)
Definition run (S A : Type) : Type := S -> S * outcome A.

(** * Machine-width integers *)

Definition u8 (z : Z) : Z := z mod 2 ^ 8.
Definition u16 (z : Z) : Z := z mod 2 ^ 16.
Definition u32 (z : Z) : Z := z mod 2 ^ 32.
Definition u64 (z : Z) : Z := z mod 2 ^ 64.
Definition i32 (z : Z) : Z := (z + 2 ^ 31) mod 2 ^ 32 - 2 ^ 31.
Definition i64 (z : Z) : Z := (z + 2 ^ 63) mod 2 ^ 64 - 2 ^ 63.

(** [fits w v]: [v] is a value of the unsigned type of [w] bits. *)
Definition fits (w v : Z) : Prop := 0 <= v < 2 ^ w.

Lemma u8_range z : 0 <= u8 z < 2 ^ 8.
Proof. by apply Z.mod_pos_bound. Qed.
Lemma u16_range z : 0 <= u16 z < 2 ^ 16.
Proof. by apply Z.mod_pos_bound. Qed.
Lemma u32_range z : 0 <= u32 z < 2 ^ 32.
Proof. by apply Z.mod_pos_bound. Qed.
Lemma u64_range z : 0 <= u64 z < 2 ^ 64.
Proof. by apply Z.mod_pos_bound. Qed.

Lemma fits_u16 z : fits 16 (u16 z).
Proof. apply u16_range. Qed.
Lemma fits_u8 z : fits 8 (u8 z).
Proof. apply u8_range. Qed.
Lemma fits_u32 z : fits 32 (u32 z).
Proof. apply u32_range. Qed.
Lemma fits_u64 z : fits 64 (u64 z).
Proof. apply u64_range. Qed.
Lemma fits_0 w : 0 <= w -> fits w 0.
Proof. intros. split; [lia|]. apply Z.pow_pos_nonneg; lia. Qed.

Lemma fits_land w a b : fits w a -> fits w b -> fits w (Z.land a b).
Proof.
  unfold fits. intros [Ha1 Ha2] [Hb1 Hb2].
  destruct (decide (0 <= w)); [|rewrite Z.pow_neg_r in * by lia; lia].
  assert (0 <= Z.land a b) by (apply Z.land_nonneg; auto). split; [done|].
  rewrite <- (Z.mod_small a (2 ^ w)), <- Z.land_ones by lia.
  rewrite <- Z.land_assoc, (Z.land_comm _ b), Z.land_assoc, Z.land_ones by lia.
  apply Z.mod_pos_bound, Z.pow_pos_nonneg; lia.
Qed.

Lemma u32_id z : 0 <= z < 2 ^ 32 -> u32 z = z.
Proof. apply Z.mod_small. Qed.
Lemma u64_id z : 0 <= z < 2 ^ 64 -> u64 z = z.
Proof. apply Z.mod_small. Qed.
Lemma i32_id z : - 2 ^ 31 <= z < 2 ^ 31 -> i32 z = z.
Proof. intros. unfold i32. rewrite Z.mod_small; lia. Qed.

(** * Development-wide automation *)

Create HintDb ndt.
#[export] Hint Resolve u8_range u16_range u32_range u64_range : ndt.
#[export] Hint Resolve fits_u8 fits_u16 fits_u32 fits_u64 fits_land : ndt.

(** Case-splits every [match]/[if] of the goal and simplifies the equations. *)
Ltac split_cases := repeat (case_match || case_decide || case_bool_decide); simplify_eq/=.

(** Destructs a disjunction or conjunction hypothesis tree and closes by hypotheses. *)
Ltac crush := repeat (split_cases; destruct_and?; destruct_or?); try done; try lia; eauto with ndt.

(** The first [k] elements of a list sorted by a total order: as many as there are, in order, and none
    left out comes before one taken. *)
Lemma take_sorted_maximal {A} (R : relation A) `{!RelDecision R} `{!Transitive R} (k : nat) (l : list A) :
  Total R ->
  exists rest, l ≡ₚ take k (merge_sort R l) ++ rest /\ StronglySorted R (take k (merge_sort R l)) /\
    length (take k (merge_sort R l)) = Nat.min k (length l) /\
    forall x y, x ∈ take k (merge_sort R l) -> y ∈ rest -> R x y.
Proof.
  intros Ht. set (s := merge_sort R l).
  assert (StronglySorted R s) as Hs by (apply StronglySorted_merge_sort; apply _ || done).
  assert (s ≡ₚ l) as Hp by apply merge_sort_Permutation.
  exists (drop k s). rewrite take_drop, length_take, <- Hp. split_and!; [done| |done|];
    rewrite <- (take_drop k s) in Hs.
  - by apply StronglySorted_app_1_l in Hs.
  - intros x y Hx Hy. by eapply (StronglySorted_app_1_elem_of R).
Qed.
