(* ===== verification/Bytes.v ===== *)
(** Byte sequences: the fixed-width encodings the kernel stores multi-byte fields in
    ([htonl]/[htons] + [memcpy], host-order [reinterpret_cast]), and the lemmas that relate
    byte-wise masking with masking of whole fields. *)

From S2P Require Import Prelude.

(** [be_bytes n v]: the [n] low-order bytes of [v], most significant first. *)
Fixpoint be_bytes (n : nat) (v : Z) : list Z :=
  match n with
  | O => []
  | S n' => Z.land (Z.shiftr v (8 * Z.of_nat n')) 255 :: be_bytes n' v
  end.

(** [le_bytes n v]: the same bytes in the memory order of a little-endian host. *)
Definition le_bytes (n : nat) (v : Z) : list Z := rev (be_bytes n v).

(** Reads a big-endian byte sequence back. *)
Definition be_value (bs : list Z) : Z := foldl (fun acc b => acc * 256 + b) 0 bs.

(** [memcpy(out + off, bs, |bs|)] inside a fixed-size array. *)
Definition write_at (off : nat) (bs out : list Z) : list Z := list_inserts off bs out.

Definition is_byte (b : Z) : Prop := 0 <= b < 256.

Lemma length_be_bytes n v : length (be_bytes n v) = n.
Proof. induction n; simpl; congruence. Qed.

Lemma land_255_range v : is_byte (Z.land v 255).
Proof.
  unfold is_byte. change 255 with (Z.ones 8).
  rewrite Z.land_ones by lia. by apply Z.mod_pos_bound.
Qed.

Lemma be_bytes_is_byte n v : Forall is_byte (be_bytes n v).
Proof. induction n; simpl; constructor; auto using land_255_range. Qed.

Lemma be_byte_div n v : Z.land (Z.shiftr v (8 * Z.of_nat n)) 255 = (v / 256 ^ Z.of_nat n) mod 256.
Proof.
  change 255 with (Z.ones 8). rewrite Z.land_ones, Z.shiftr_div_pow2 by lia.
  rewrite Z.pow_mul_r by lia. done.
Qed.

Lemma be_value_app bs1 bs2 :
  be_value (bs1 ++ bs2) = be_value bs1 * 256 ^ Z.of_nat (length bs2) + be_value bs2.
Proof.
  induction bs2 as [|b bs2 IH] using rev_ind; [rewrite app_nil_r; unfold be_value; simpl; lia|].
  rewrite app_assoc. unfold be_value in *. rewrite !foldl_app in *; simpl in *.
  rewrite IH, length_app, Nat2Z.inj_add, Z.pow_add_r by lia. simpl. lia.
Qed.

Lemma be_value_be_bytes n v : be_value (be_bytes n v) = v mod 256 ^ Z.of_nat n.
Proof.
  induction n as [|n IH]; [unfold be_value; simpl; rewrite Z.mod_1_r; done|].
  cbn [be_bytes]. change (?b :: ?l) with ([b] ++ l).
  rewrite be_value_app, length_be_bytes, IH, be_byte_div.
  unfold be_value; cbn [foldl].
  rewrite Nat2Z.inj_succ, Z.pow_succ_r by lia.
  rewrite (Z.mul_comm 256), Z.rem_mul_r by (try apply Z.pow_pos_nonneg; lia). lia.
Qed.

Lemma be_bytes_inj n v w :
  0 <= v < 256 ^ Z.of_nat n -> 0 <= w < 256 ^ Z.of_nat n ->
  be_bytes n v = be_bytes n w -> v = w.
Proof.
  intros Hv Hw H%(f_equal be_value). rewrite !be_value_be_bytes, !Z.mod_small in H; done.
Qed.

Lemma zip_land_be_bytes n v w :
  zip_with Z.land (be_bytes n v) (be_bytes n w) = be_bytes n (Z.land v w).
Proof.
  induction n as [|n IH]; simpl; [done|]. f_equal; [|done].
  rewrite Z.shiftr_land.
  generalize (Z.shiftr v (8 * Z.of_nat n)), (Z.shiftr w (8 * Z.of_nat n)). intros a b.
  apply Z.bits_inj'. intros i Hi. rewrite !Z.land_spec. btauto.
Qed.

Lemma be_bytes_0 n : be_bytes n 0 = replicate n 0.
Proof. induction n as [|n IH]; cbn [be_bytes replicate]; [done|]. by rewrite Z.shiftr_0_l, IH. Qed.

Lemma be_bytes_bits_inj n v w :
  be_bytes n v = be_bytes n w <-> v mod 256 ^ Z.of_nat n = w mod 256 ^ Z.of_nat n.
Proof.
  split; [intros H%(f_equal be_value); by rewrite !be_value_be_bytes in H|].
  revert v w. induction n as [|n IH]; intros v w H; simpl; [done|].
  rewrite Nat2Z.inj_succ, Z.pow_succ_r, Z.mul_comm, !Z.rem_mul_r in H
    by (try apply Z.pow_pos_nonneg; lia).
  pose proof (Z.pow_pos_nonneg 256 (Z.of_nat n) ltac:(lia) ltac:(lia)) as Hp.
  pose proof (Z.mod_pos_bound v _ Hp). pose proof (Z.mod_pos_bound w _ Hp).
  assert (v mod 256 ^ Z.of_nat n = w mod 256 ^ Z.of_nat n
          /\ (v / 256 ^ Z.of_nat n) mod 256 = (w / 256 ^ Z.of_nat n) mod 256) as [Hlo Hhi].
  { destruct (Z.div_mod_unique (256 ^ Z.of_nat n) ((v / 256 ^ Z.of_nat n) mod 256)
                ((w / 256 ^ Z.of_nat n) mod 256) (v mod 256 ^ Z.of_nat n)
                (w mod 256 ^ Z.of_nat n)); try lia. }
  rewrite !be_byte_div, Hhi. f_equal. by apply IH.
Qed.

Lemma length_write_at off bs out : length (write_at off bs out) = length out.
Proof. apply length_inserts. Qed.

(** [ntohl]/[htonl] on a little-endian host: the four bytes in reverse order. *)
Definition bswap32 (v : Z) : Z := be_value (le_bytes 4 v).

Lemma lor_shiftl_low a b n : 0 <= n -> 0 <= b < 2 ^ n -> Z.lor (Z.shiftl a n) b = a * 2 ^ n + b.
Proof.
  intros Hn Hb. rewrite <- Z.shiftl_mul_pow2 by done.
  pose proof (Z.add_lor_land (Z.shiftl a n) b) as H.
  assert (Z.land (Z.shiftl a n) b = 0) as H0; [|lia].
  apply Z.bits_inj'. intros i Hi. rewrite Z.land_spec, Z.bits_0, Z.shiftl_spec by done.
  destruct (decide (i < n)); [by rewrite Z.testbit_neg_r by lia|].
  rewrite <- (Z.mod_small b (2 ^ n)) by done. by rewrite Z.mod_pow2_bits_high, andb_false_r by lia.
Qed.
