(* ===== verification/CStrings.v ===== *)
(** The C and C++ library text functions the kernel parses its inputs with: [std::string]
    searching, [isspace]/[isdigit]/[toupper], the [strto*]/[sto*]/[from_chars] families and
    [inet_pton].  They are modelled on the C locale and a 64-bit [unsigned long]. *)

From S2P Require Import Prelude Bytes.
From Stdlib Require Import Ascii.
Local Open Scope string_scope.

Definition code (c : ascii) : Z := Z.of_N (N_of_ascii c).

Definition is_space (c : ascii) : bool :=
  let n := code c in bool_decide (n = 32) || (bool_decide (9 <= n) && bool_decide (n <= 13)).

Definition is_digit (c : ascii) : bool :=
  let n := code c in bool_decide (48 <= n) && bool_decide (n <= 57).

(** The value of a digit in bases up to 16. *)
Definition digit_val (c : ascii) : option Z :=
  let n := code c in
  if bool_decide (48 <= n <= 57) then Some (n - 48)
  else if bool_decide (97 <= n <= 102) then Some (n - 87)
  else if bool_decide (65 <= n <= 70) then Some (n - 55)
  else None.

Definition is_digit_in (base : Z) (c : ascii) : bool :=
  match digit_val c with Some d => bool_decide (d < base) | None => false end.

Definition is_xdigit (c : ascii) : bool := is_digit_in 16 c.

Definition to_upper_char (c : ascii) : ascii :=
  let n := code c in
  if bool_decide (97 <= n <= 122) then ascii_of_N (Z.to_N (n - 32)) else c.

Fixpoint map_string (f : ascii -> ascii) (s : string) : string :=
  match s with EmptyString => EmptyString | String c s' => String (f c) (map_string f s') end.

Fixpoint all_chars (p : ascii -> bool) (s : string) : bool :=
  match s with EmptyString => true | String c s' => p c && all_chars p s' end.

(** What a C function sees of a [std::string]: up to the first NUL. *)
Fixpoint c_str (s : string) : string :=
  match s with
  | EmptyString => EmptyString
  | String c s' => if bool_decide (code c = 0) then EmptyString else String c (c_str s')
  end.

(** [s.find(c)] together with the two [substr]s around the hit. *)
Fixpoint split_at_char (c : ascii) (s : string) : option (string * string) :=
  match s with
  | EmptyString => None
  | String d s' =>
      if bool_decide (d = c) then Some (EmptyString, s')
      else match split_at_char c s' with
           | Some (l, r) => Some (String d l, r)
           | None => None
           end
  end.

(** The text after the first occurrence of [pat]. *)
Fixpoint afterText (pat s : string) : option string :=
  if String.prefix pat s then Some (String.substring (String.length pat) (String.length s - String.length pat) s)
  else match s with EmptyString => None | String _ s => afterText pat s end.

Fixpoint drop_spaces (s : string) : string :=
  match s with
  | String c s' => if is_space c then drop_spaces s' else s
  | EmptyString => EmptyString
  end.

Fixpoint rev_string_onto (s acc : string) : string :=
  match s with EmptyString => acc | String c s' => rev_string_onto s' (String c acc) end.

Definition rev_string (s : string) : string := rev_string_onto s EmptyString.

Definition drop_spaces_end (s : string) : string := rev_string (drop_spaces (rev_string s)).

(** Digits of [base] from the front: accumulated value, number of digits, remaining text. *)
Fixpoint scan_digits (base : Z) (s : string) (acc : Z) (n : nat) : Z * nat * string :=
  match s with
  | String c s' =>
      match digit_val c with
      | Some d => if bool_decide (d < base) then scan_digits base s' (acc * base + d) (S n)
                  else (acc, n, s)
      | None => (acc, n, s)
      end
  | EmptyString => (acc, n, s)
  end.

(** What [strtol] and its relatives recognise: white space, a sign, for base 16 an optional
    [0x] that is followed by a digit, then digits.  [None] when no digit was found. *)
Record scanned := Scanned { sc_neg : bool; sc_mag : Z; sc_rest : string }.

Definition strip_0x (base : Z) (s : string) : string :=
  match s with
  | String z (String x (String d s')) =>
      if bool_decide (base = 16) && bool_decide (code z = 48)
         && (bool_decide (code x = 120) || bool_decide (code x = 88)) && is_xdigit d
      then String d s' else s
  | _ => s
  end.

Definition strto_scan (base : Z) (s : string) : option scanned :=
  let s1 := drop_spaces s in
  let '(neg, s2) :=
    match s1 with
    | String c s' => if bool_decide (code c = 45) then (true, s')
                     else if bool_decide (code c = 43) then (false, s') else (false, s1)
    | EmptyString => (false, s1)
    end in
  let '(v, n, rest) := scan_digits base (strip_0x base s2) 0 0 in
  if bool_decide (n = 0%nat) then None else Some (Scanned neg v rest).

(** [std::stoull] (and [std::stoul]: [unsigned long] has 64 bits), with the unparsed rest. *)
Definition stoull_rest (base : Z) (s : string) : outcome (Z * string) :=
  match strto_scan base (c_str s) with
  | None => Throw InvalidArgument
  | Some r => if bool_decide (2 ^ 64 <= sc_mag r) then Throw OutOfRange
              else Ret (if sc_neg r then u64 (- sc_mag r) else sc_mag r, sc_rest r)
  end.

Definition stoull (base : Z) (s : string) : outcome Z := omap_out fst (stoull_rest base s).

(** [std::stoi]. *)
Definition stoi (s : string) : outcome Z :=
  match strto_scan 10 (c_str s) with
  | None => Throw InvalidArgument
  | Some r => let v := if sc_neg r then - sc_mag r else sc_mag r in
              if bool_decide (- 2 ^ 31 <= v < 2 ^ 31) then Ret v else Throw OutOfRange
  end.

(** [std::from_chars] into an unsigned type of [w] bits over the whole range, accepted only
    when everything is consumed. *)
Definition from_chars_all (w base : Z) (s : string) : option Z :=
  let '(v, n, rest) := scan_digits base s 0 0 in
  if bool_decide (n = 0%nat) then None
  else if bool_decide (2 ^ w <= v) then None
  else match rest with EmptyString => Some v | _ => None end.

(** [inet_pton(AF_INET, ...)]: four decimal octets without leading zeros, as bytes in network
    order. [cur] is the octet being read, [None] before its first digit. *)
Fixpoint inet_pton_go (s : string) (done_octets : list Z) (cur : option Z) : option (list Z) :=
  match s with
  | EmptyString =>
      match cur with
      | Some v => let os := (done_octets ++ [v])%list in
                  if bool_decide (length os = 4%nat) then Some os else None
      | None => None
      end
  | String c s' =>
      if is_digit c then
        let d := code c - 48 in
        match cur with
        | None => if bool_decide (length done_octets < 4)%nat
                  then inet_pton_go s' done_octets (Some d) else None
        | Some v => if bool_decide (v = 0) then None
                    else if bool_decide (255 < v * 10 + d) then None
                    else inet_pton_go s' done_octets (Some (v * 10 + d))
        end
      else if bool_decide (code c = 46) then
        match cur with
        | Some v => if bool_decide (length done_octets = 3%nat) then None
                    else inet_pton_go s' (done_octets ++ [v])%list None
        | None => None
        end
      else None
  end.

Definition inet_pton (s : string) : option (list Z) := inet_pton_go (c_str s) [] None.

(** The octets as an [in_addr::s_addr] on a little-endian host. *)
Definition s_addr (octets : list Z) : Z := be_value (rev octets).

Definition std_to_string (z : Z) : string := pretty z.

Lemma prefix_nil s : String.prefix "" s = true.
Proof. by destruct s. Qed.

Lemma prefix_cons c d s t : String.prefix (String c s) (String d t) = bool_decide (c = d) && String.prefix s t.
Proof. cbn. destruct (ascii_dec c d); [rewrite bool_decide_true by done|rewrite bool_decide_false by done]; done. Qed.

Lemma prefix_refl s : String.prefix s s = true.
Proof. induction s as [|c s IH]; [done|]. by rewrite prefix_cons, bool_decide_true, IH. Qed.

Lemma inet_pton_go_octets s done cur os :
  inet_pton_go s done cur = Some os ->
  Forall is_byte done -> (forall v, cur = Some v -> is_byte v) ->
  length os = 4%nat /\ Forall is_byte os.
Proof.
  revert done cur. induction s as [|c s IH]; simpl; intros done cur Hgo Hd Hc.
  - destruct cur; [|done]. case_bool_decide; simplify_eq. split; [done|].
    apply Forall_app; eauto.
  - destruct (is_digit c) eqn:Hdig.
    + unfold is_digit in Hdig. apply andb_prop in Hdig as [H1%bool_decide_eq_true H2%bool_decide_eq_true].
      destruct cur as [v|]; repeat case_bool_decide; try done; eapply IH; eauto;
        intros ? [= <-]; unfold is_byte in *; [specialize (Hc v eq_refl)|]; lia.
    + case_bool_decide; [|done]. destruct cur as [v|]; [|done]. case_bool_decide; [done|].
      eapply IH; eauto; [|done]. apply Forall_app; eauto.
Qed.

Lemma inet_pton_octets s os : inet_pton s = Some os -> length os = 4%nat /\ Forall is_byte os.
Proof. intros H. eapply inet_pton_go_octets; eauto. done. Qed.

Lemma scan_digits_bound base s acc n v m rest :
  2 <= base -> scan_digits base s acc n = (v, m, rest) -> 0 <= acc -> 0 <= v.
Proof.
  intros Hb. revert acc n. induction s as [|c s IH]; simpl; intros acc n Hs Ha; [by simplify_eq|].
  destruct (digit_val c) as [d|] eqn:Hd; [|by simplify_eq].
  case_bool_decide; [|by simplify_eq]. eapply IH; [done|].
  unfold digit_val in Hd. repeat case_bool_decide; simplify_eq; nia.
Qed.

Lemma strto_scan_mag base s r : 2 <= base -> strto_scan base s = Some r -> 0 <= sc_mag r.
Proof.
  unfold strto_scan. intros Hb H.
  destruct (match drop_spaces s with EmptyString => _ | String _ _ => _ end) as [neg s2].
  destruct (scan_digits base (strip_0x base s2) 0 0) as [[v n] rest] eqn:E.
  case_bool_decide; simplify_eq. simpl. eapply scan_digits_bound; eauto. lia.
Qed.

(** Whatever [stoull] returns fits 64 bits. *)
Lemma stoull_range base s v : 2 <= base -> stoull base s = Ret v -> 0 <= v < 2 ^ 64.
Proof.
  unfold stoull, stoull_rest, omap_out. intros Hb H.
  destruct (strto_scan base (c_str s)) as [r|] eqn:E; [|done]. simpl in H.
  pose proof (strto_scan_mag _ _ _ Hb E).
  case_bool_decide; [done|]. simpl in H. destruct (sc_neg r); simplify_eq; [apply u64_range|lia].
Qed.

(** * Decimal texts: [std::to_string] read back *)

Lemma digit_char (d : N) : (d < 10)%N ->
  is_digit (pretty_N_char d) = true /\ digit_val (pretty_N_char d) = Some (Z.of_N d).
Proof.
  intros. assert (d = 0 \/ d = 1 \/ d = 2 \/ d = 3 \/ d = 4 \/ d = 5 \/ d = 6 \/ d = 7 \/ d = 8 \/ d = 9)%N
    as Hd by lia. by destruct_or! Hd; subst.
Qed.

Lemma pretty_N_go_scan x s : (0 < x)%N ->
  exists k, scan_digits 10 (pretty_N_go x s) 0 0 = scan_digits 10 s (Z.of_N x) (S k).
Proof.
  revert s. induction (N.lt_wf_0 x) as [x _ IH]. intros s Hx.
  rewrite pretty_N_go_step by done.
  destruct (digit_char (x `mod` 10)%N) as [_ Hd]; [by apply N.mod_lt|].
  assert (Z.of_N x = Z.of_N (x `div` 10) * 10 + Z.of_N (x `mod` 10)) as Hdm
    by (rewrite (N.div_mod x 10) at 1 by done; lia).
  pose proof (N.mod_lt x 10 ltac:(done)).
  destruct (decide (x `div` 10 = 0)%N) as [E|E].
  - rewrite E in *. rewrite pretty_N_go_0. exists 0%nat. cbn [scan_digits]. rewrite Hd.
    rewrite bool_decide_true by lia. f_equal; lia.
  - destruct (IH (x `div` 10)%N (N.div_lt x 10 Hx eq_refl)
                (String (pretty_N_char (x `mod` 10)) s) ltac:(lia)) as [k ->].
    exists (S k). cbn [scan_digits]. rewrite Hd, bool_decide_true by lia. f_equal; lia.
Qed.

Lemma pretty_N_go_digits x s : all_chars is_digit (pretty_N_go x s) = all_chars is_digit s.
Proof.
  revert s. induction (N.lt_wf_0 x) as [x _ IH]. intros s.
  destruct (decide (0 < x)%N) as [Hx|]; [|by assert (x = 0%N) as -> by lia].
  rewrite pretty_N_go_step by done. rewrite IH by (by apply N.div_lt). simpl.
  destruct (digit_char (x `mod` 10)%N) as [-> _]; [by apply N.mod_lt|done].
Qed.

(** What scanning a decimal text finds: all of it is digits and denotes the number. *)
Lemma to_string_scan n : 0 <= n ->
  exists k, scan_digits 10 (std_to_string n) 0 0 = (n, S k, EmptyString) /\
            all_chars is_digit (std_to_string n) = true.
Proof.
  intros Hn. unfold std_to_string. destruct n as [|p|p]; [by exists 0%nat| |lia].
  change (pretty (Z.pos p)) with (pretty (N.pos p)). unfold pretty, pretty_N. rewrite decide_False by done.
  destruct (pretty_N_go_scan (N.pos p) "" ltac:(done)) as [k ->].
  exists k. split; [done|]. by rewrite pretty_N_go_digits.
Qed.

Lemma c_str_digits s : all_chars is_digit s = true -> c_str s = s.
Proof.
  induction s as [|c s IH]; simpl; [done|]. intros [Hc Hs]%andb_prop. rewrite IH by done.
  unfold is_digit in Hc. apply andb_prop in Hc as [H1%bool_decide_eq_true _].
  by rewrite bool_decide_false by lia.
Qed.

Lemma strto_scan_digits s v k rest :
  all_chars is_digit s = true -> scan_digits 10 s 0 0 = (v, S k, rest) ->
  strto_scan 10 s = Some (Scanned false v rest).
Proof.
  intros Hall Hs. destruct s as [|c s]; [done|]. simpl in Hall. apply andb_prop in Hall as [Hc Hall].
  unfold is_digit in Hc. apply andb_prop in Hc as [H1%bool_decide_eq_true H2%bool_decide_eq_true].
  unfold strto_scan. cbn [drop_spaces]. unfold is_space.
  rewrite !(bool_decide_false (code c = _)), (bool_decide_false (code c <= 13)), andb_false_r by lia.
  cbn -[scan_digits strip_0x].
  rewrite (bool_decide_false (code c = 45)), (bool_decide_false (code c = 43)) by lia.
  replace (strip_0x 10 (String c s)) with (String c s); [by rewrite Hs|].
  unfold strip_0x. destruct s as [|x [|d s]]; [done..|]. by rewrite (bool_decide_false (10 = 16)).
Qed.

Lemma strto_scan_to_string n : 0 <= n ->
  strto_scan 10 (c_str (std_to_string n)) = Some (Scanned false n EmptyString).
Proof.
  intros Hn. destruct (to_string_scan n Hn) as (k & Hs & Hd). rewrite c_str_digits by done.
  by eapply strto_scan_digits.
Qed.

(** [std::stoi(std::to_string(n))]. *)
Lemma stoi_to_string n : 0 <= n ->
  stoi (std_to_string n) = if bool_decide (n < 2 ^ 31) then Ret n else Throw OutOfRange.
Proof.
  intros Hn. unfold stoi. rewrite strto_scan_to_string by done. cbn [sc_neg sc_mag].
  repeat case_bool_decide; done || lia.
Qed.

(** [std::stoull(std::to_string(n))] with what it leaves unread. *)
Lemma stoull_to_string n : 0 <= n ->
  stoull_rest 10 (std_to_string n) = if bool_decide (n < 2 ^ 64) then Ret (n, EmptyString) else Throw OutOfRange.
Proof.
  intros Hn. unfold stoull_rest. rewrite strto_scan_to_string by done. cbn [sc_neg sc_mag sc_rest].
  repeat case_bool_decide; done || lia.
Qed.

Lemma split_at_char_app c l r :
  all_chars (fun d => negb (bool_decide (d = c))) l = true ->
  split_at_char c (l +:+ String c r) = Some (l, r).
Proof.
  induction l as [|d l IH]; simpl; intros H.
  - by rewrite bool_decide_true.
  - apply andb_prop in H as [Hd Hl]. apply negb_true_iff in Hd. rewrite Hd, IH by done. done.
Qed.
