(* ===== verification/NetUtils.v ===== *)
(** Address and request texts (include/utils/Utils.hpp): IPv4 and MAC addresses, numeric
    identifiers, netmasks and query parameters.

    The throwing and the optional parsers are modelled with the C library functions they call.
    [inet_aton] follows its documentation: one to four numbers in C notation separated by dots, the
    last one filling the remaining bytes, ended by the end of the text or white space. *)

From S2P Require Import Prelude Bytes CStrings.
From Stdlib Require Import Ascii.
Local Open Scope string_scope.
Local Open Scope list_scope.
Local Open Scope Z_scope.

(** Where the program runs. *)
Inductive DeploymentMode := MININET | TESTBED.

#[export] Instance DeploymentMode_eq_dec : EqDecision DeploymentMode.
Proof. solve_decision. Defined.

(** * IPv4 addresses *)

(** Dotted form of an address in network order. *)
Definition ipToString (ip : Z) : string :=
  match le_bytes 4 ip with
  | [a; b; c; d] =>
      std_to_string a +:+ "." +:+ std_to_string b +:+ "." +:+ std_to_string c +:+ "." +:+ std_to_string d
  | _ => ""
  end.

(** The base [strtoul] chooses for base 0. *)
Definition auto_base (s : string) : Z :=
  match s with
  | String z s' =>
      if bool_decide (code z = 48) then
        match s' with
        | String x (String d _) =>
            if (bool_decide (code x = 120) || bool_decide (code x = 88)) && is_xdigit d then 16 else 8
        | _ => 8
        end
      else 10
  | EmptyString => 10
  end.

(** The last number of an address fills the bytes that are still free. *)
Definition inet_aton_end (val : Z) (octets : list Z) : option Z :=
  let free := (4 - length octets)%nat in
  if bool_decide (256 ^ Z.of_nat free <= val) then None
  else Some (s_addr (octets ++ be_bytes free val)).

(** [inet_aton] from the start of a number; [octets] are the bytes already read and at most [n]
    further dots may follow. *)
Fixpoint inet_aton_go (n : nat) (s : string) (octets : list Z) : option Z :=
  match s with
  | EmptyString => None
  | String c _ =>
      if negb (is_digit c) then None
      else
        let '(val, _, rest) := scan_digits (auto_base s) (strip_0x (auto_base s) s) 0 0 in
        if bool_decide (2 ^ 32 <= val) then None
        else
          match rest with
          | EmptyString => inet_aton_end val octets
          | String d rest' =>
              if bool_decide (code d = 46) then
                match n with
                | O => None
                | S n => if bool_decide (255 < val) then None else inet_aton_go n rest' (octets ++ [val])
                end
              else if is_space d then inet_aton_end val octets else None
          end
  end.

Definition inet_aton (s : string) : option Z := inet_aton_go 3 (c_str s) [].

Definition ipStringToUint32 (ipStr : string) : outcome Z :=
  match inet_aton ipStr with Some ip => Ret ip | None => Throw InvalidArgument end.

Definition tryIpStringToUint32 (ipStr : string) : option Z :=
  if bool_decide (ipStr = "") then None else inet_aton ipStr.

Fixpoint ipStringVecToUint32Vec (ipStringVec : list string) : outcome (list Z) :=
  match ipStringVec with
  | [] => Ret []
  | s :: l => let! ip := ipStringToUint32 s in let! ips := ipStringVecToUint32Vec l in Ret (ip :: ips)
  end.

(** * Numeric identifiers *)

(** [std::stoull] on the whole text, or nothing. *)
Definition stoull_all (base : Z) (text : string) : option Z :=
  match stoull_rest base text with Ret (v, EmptyString) => Some v | _ => None end.

Definition tryParseUint64 (text : string) : option Z :=
  if bool_decide (text = "") then None
  else if negb (all_chars is_digit text) then None else stoull_all 10 text.

Definition tryParseHexUint64 (text : string) : option Z :=
  if bool_decide (text = "") then None
  else if negb (all_chars is_xdigit text) then None else stoull_all 16 text.

(** Any text [std::stoul] rejects becomes port 0; the result is narrowed to 32 bits. *)
Definition portStringToUint (portStr : string) : Z :=
  match stoull 16 portStr with Ret v => u32 v | Throw _ => 0 end.

(** * MAC addresses *)

Definition macSeparator (mac : string) (at_ : nat) : bool :=
  match String.get at_ mac with
  | Some c => bool_decide (c = ":"%char) || bool_decide (c = "-"%char)
  | None => false
  end.

(** The loop over the six fields; [i] is the next field. *)
Fixpoint macFields (n i : nat) (mac : string) (result : Z) : option Z :=
  match n with
  | O => Some result
  | S n =>
      let at_ := (i * 3)%nat in
      if bool_decide (0 < i)%nat && negb (macSeparator mac (at_ - 1)) then None
      else
        match from_chars_all 8 16 (String.substring at_ 2 mac) with
        | Some byte => macFields n (S i) mac (Z.lor (u64 (Z.shiftl result 8)) byte)
        | None => None
        end
  end.

Definition tryMacToUint64 (mac : string) : option Z :=
  if bool_decide (String.length mac = 17%nat) then macFields 6 0 mac 0 else None.

Definition macToUint64 (mac : string) : outcome Z :=
  match tryMacToUint64 mac with Some v => Ret v | None => Throw InvalidArgument end.

Definition hexDigit (d : Z) : ascii :=
  ascii_of_N (Z.to_N (if bool_decide (d < 10) then 48 + d else 87 + d)).

(** Two lower-case hexadecimal digits, zero filled. *)
Definition hex2 (byte : Z) : string := String (hexDigit (byte / 16)) (String (hexDigit (byte mod 16)) "").

Definition macToString (mac : Z) : string :=
  String.concat ":" ((fun i => hex2 (Z.land (Z.shiftr mac (i * 8)) 0xFF)) <$> [5; 4; 3; 2; 1; 0]).

(** * Netmasks *)

Definition prefixToMaskHost (p : Z) : Z :=
  if bool_decide (p = 0) then 0
  else if bool_decide (p = 32) then 0xFFFFFFFF else u32 (u32 (Z.shiftl 1 p) - 1).

(** Number of set bits of a 32-bit word. *)
Definition popcount (mask : Z) : Z :=
  Z.of_nat (length (filter (fun i => Z.testbit mask (Z.of_nat i) = true) (seq 0 32))).

Definition maskToPrefixHost (mask : Z) : outcome Z :=
  if bool_decide (mask = 0) then Ret 0
  else
    let p := u8 (popcount mask) in
    let expected := if bool_decide (p = 32) then 0xFFFFFFFF else u32 (u32 (Z.shiftl 1 p) - 1) in
    if bool_decide (mask = expected) then Ret p else Throw RuntimeError.

(** * Query parameters *)

(** The part of a target from after its first [c]; [None] without one. *)
Definition afterChar (c : ascii) (s : string) : option string := snd <$> split_at_char c s.

(** The text up to the first [c], or all of it. *)
Definition uptoChar (c : ascii) (s : string) : string :=
  match split_at_char c s with Some (l, _) => l | None => s end.

(** The loop over the pairs; every round drops at least one character. *)
Fixpoint queryLoop (n : nat) (target key : string) : string :=
  match n with
  | O => ""
  | S n =>
      if bool_decide (target = "") then ""
      else
        match split_at_char "=" target with
        | None => ""
        | Some (k, rest) =>
            if bool_decide (k = key) then uptoChar "&" rest
            else match afterChar "&" target with
                 | None => ""
                 | Some target' => queryLoop n target' key
                 end
        end
  end.

Definition queryParam (target key : string) : string :=
  match afterChar "?" target with
  | None => ""
  | Some target' => queryLoop (S (String.length target')) target' key
  end.

(** * Texts of addresses *)

Lemma all_chars_app p s1 s2 : all_chars p (s1 +:+ s2) = all_chars p s1 && all_chars p s2.
Proof. induction s1 as [|c s1 IH]; [done|]. simpl. by rewrite IH, andb_assoc. Qed.

Lemma all_chars_impl (p q : ascii -> bool) s :
  (forall c, p c = true -> q c = true) -> all_chars p s = true -> all_chars q s = true.
Proof. intros H. induction s as [|c s IH]; [done|]. cbn. intros [Hc Hs]%andb_prop. by rewrite H, IH. Qed.

Definition nonNul (c : ascii) : bool := negb (bool_decide (code c = 0)).

Lemma c_str_id s : all_chars nonNul s = true -> c_str s = s.
Proof.
  induction s as [|c s IH]; [done|]. cbn. intros [Hc Hs]%andb_prop. unfold nonNul in Hc.
  destruct (bool_decide (code c = 0)); [done|]. by rewrite IH.
Qed.

Lemma digits_nonNul s : all_chars is_digit s = true -> all_chars nonNul s = true.
Proof.
  apply all_chars_impl. intros c [H _]%andb_prop. unfold nonNul. apply bool_decide_eq_true in H.
  rewrite bool_decide_false; [done|lia].
Qed.

Lemma scan_digits_app base s r acc n v m :
  scan_digits base s acc n = (v, m, EmptyString) -> scan_digits base (s +:+ r) acc n = scan_digits base r v m.
Proof.
  revert acc n. induction s as [|c s IH]; simpl; intros acc n H; [by simplify_eq|].
  destruct (digit_val c) as [d|]; [|done]. case_bool_decide; [by apply IH|done].
Qed.

(** The decimal text of a byte: digits, and a leading zero only for zero itself. *)
Definition byteText (b : Z) : bool :=
  match std_to_string b with
  | String z s' => is_digit z && (negb (bool_decide (code z = 48)) || (bool_decide (s' = "") && bool_decide (b = 0)))
  | EmptyString => false
  end.

Lemma byteText_ok b : is_byte b -> byteText b = true.
Proof.
  intros [H0 H1]. assert (forallb (fun n => byteText (Z.of_nat n)) (seq 0 256) = true) as H by by vm_compute.
  rewrite forallb_forall in H. specialize (H (Z.to_nat b)). rewrite Z2Nat.id in H by lia.
  apply H, in_seq. lia.
Qed.

(** What may follow a number of an address. *)
Definition ends_octet (r : string) : Prop := r = "" \/ exists r', r = String "." r'.

Lemma inet_aton_number b r : is_byte b -> ends_octet r ->
  let s := std_to_string b +:+ r in
  (exists c s', s = String c s' /\ is_digit c = true) /\
  exists k, scan_digits (auto_base s) (strip_0x (auto_base s) s) 0 0 = (b, k, r).
Proof.
  intros Hb Hr s. pose proof (byteText_ok b Hb) as Ht. destruct Hb as [Hb0 Hb1].
  destruct (to_string_scan b Hb0) as (k & Hk & _). unfold s, byteText in *.
  assert (forall base v m, scan_digits base r v m = (v, m, r)) as Hstop.
  { intros. destruct Hr as [->|[r' ->]]; done. }
  destruct (std_to_string b) as [|z s'] eqn:Es; [done|]. apply andb_prop in Ht as [Hz Ht].
  split; [by exists z, (s' +:+ r)|]. change (String z s' +:+ r) with (String z (s' +:+ r)). apply orb_prop in Ht as [Ht|Ht].
  - apply negb_true_iff in Ht. exists (S k).
    replace (auto_base (String z (s' +:+ r))) with 10 by (cbn; by rewrite Ht).
    replace (strip_0x 10 (String z (s' +:+ r))) with (String z s' +:+ r).
    2:{ change (String z s' +:+ r) with (String z (s' +:+ r)). unfold strip_0x.
        by destruct (s' +:+ r) as [|? [|? ?]]. }
    rewrite (scan_digits_app _ _ _ _ _ _ _ Hk). apply Hstop.
  - apply andb_prop in Ht as [->%bool_decide_eq_true ->%bool_decide_eq_true]. clear Hk.
    injection Es as <-. exists 1%nat. destruct Hr as [->|[r' ->]]; [done|].
    by destruct r'.
Qed.

Lemma append_assoc_s (a b c : string) : (a +:+ b) +:+ c = a +:+ (b +:+ c).
Proof. induction a as [|x a IH]; [done|]. change (String x ((a +:+ b) +:+ c) = String x (a +:+ (b +:+ c))). by rewrite IH. Qed.

Lemma inet_aton_step n b r os : is_byte b ->
  inet_aton_go (S n) (std_to_string b +:+ "." +:+ r) os = inet_aton_go n r (os ++ [b]).
Proof.
  intros Hb. change ("." +:+ r) with (String "." r). destruct (inet_aton_number b (String "." r) Hb) as ((c & s' & Es & Hc) & k & Hk).
  { right. by exists r. }
  rewrite Es in *. cbn [inet_aton_go]. rewrite Hc. cbn [negb]. rewrite Hk. destruct Hb.
  rewrite bool_decide_false by lia. rewrite (bool_decide_true (code "." = 46)) by done.
  by rewrite bool_decide_false by lia.
Qed.

Lemma inet_aton_last n b os : is_byte b ->
  inet_aton_go n (std_to_string b) os = inet_aton_end b os.
Proof.
  intros Hb. destruct (inet_aton_number b "" Hb) as ((c & s' & Es & Hc) & k & Hk); [by left|].
  assert (std_to_string b +:+ "" = std_to_string b) as Ea.
  { generalize (std_to_string b). intros s. induction s as [|x s IH]; [done|]. change (String x (s +:+ "") = String x s). by rewrite IH. }
  rewrite Ea in *. rewrite Es in *. destruct n; cbn [inet_aton_go]; rewrite Hc; cbn [negb]; rewrite Hk; destruct Hb;
    by rewrite bool_decide_false by lia.
Qed.

Lemma dotted_nonNul a : 0 <= a -> all_chars nonNul (std_to_string a) = true.
Proof. intros Ha. destruct (to_string_scan a Ha) as (k & _ & Hd). by apply digits_nonNul. Qed.

Lemma inet_aton_ipToString ip : fits 32 ip -> inet_aton (ipToString ip) = Some ip.
Proof.
  intros Hip. unfold inet_aton, ipToString. pose proof (be_bytes_is_byte 4 ip) as Hb.
  pose proof (be_value_be_bytes 4 ip) as Hv. unfold le_bytes. cbn [be_bytes rev app] in *.
  set (a := Z.land (Z.shiftr ip (8 * Z.of_nat 3)) 255) in *. set (b := Z.land (Z.shiftr ip (8 * Z.of_nat 2)) 255) in *.
  set (c := Z.land (Z.shiftr ip (8 * Z.of_nat 1)) 255) in *. set (d := Z.land (Z.shiftr ip (8 * Z.of_nat 0)) 255) in *.
  inversion_clear Hb as [|? ? Ha Hb']. inversion_clear Hb' as [|? ? Hb Hc']. inversion_clear Hc' as [|? ? Hc Hd'].
  inversion_clear Hd' as [|? ? Hd _].
  rewrite c_str_id by (rewrite !all_chars_app, !dotted_nonNul by apply Ha || apply Hb || apply Hc || apply Hd; done).
  rewrite !inet_aton_step, inet_aton_last by done.
  unfold inet_aton_end. cbn [length app Nat.sub]. rewrite bool_decide_false by (destruct Ha; lia). f_equal.
  cbn [be_bytes app]. replace (Z.land (Z.shiftr a (8 * Z.of_nat 0)) 255) with a.
  2:{ rewrite Z.shiftr_0_r. change 255 with (Z.ones 8). rewrite Z.land_ones by done. symmetry. by apply Z.mod_small. }
  unfold s_addr. cbn [rev app]. rewrite Hv. by apply Z.mod_small.
Qed.

Lemma from_chars_hex2 b : is_byte b -> from_chars_all 8 16 (hex2 b) = Some b.
Proof.
  intros [H0 H1].
  assert (forallb (fun n => bool_decide (from_chars_all 8 16 (hex2 (Z.of_nat n)) = Some (Z.of_nat n))) (seq 0 256) = true)
    as H by by vm_compute.
  rewrite forallb_forall in H. specialize (H (Z.to_nat b)). rewrite Z2Nat.id in H by lia.
  apply bool_decide_eq_true in H; [done|]. apply in_seq. lia.
Qed.

Lemma lor_byte r b : 0 <= r < 2 ^ 56 -> is_byte b -> Z.lor (u64 (Z.shiftl r 8)) b = r * 256 + b.
Proof.
  intros Hr [Hb0 Hb1]. rewrite u64_id by (rewrite Z.shiftl_mul_pow2 by lia; lia). by apply (lor_shiftl_low r b 8).
Qed.

Lemma macFields_step n i s r x :
  String.substring (i * 3) 2 s = hex2 x -> i = 0%nat \/ macSeparator s (i * 3 - 1) = true ->
  is_byte x -> 0 <= r < 2 ^ 56 -> macFields (S n) i s r = macFields n (S i) s (r * 256 + x).
Proof.
  intros Hs Hsep Hx Hr. cbn [macFields]. rewrite Hs, from_chars_hex2, lor_byte by done.
  destruct Hsep as [->|Hsep]; [done|]. by rewrite Hsep, andb_false_r.
Qed.

Lemma tryMacToUint64_macToString m : fits 48 m -> tryMacToUint64 (macToString m) = Some m.
Proof.
  intros Hm. pose proof (be_bytes_is_byte 6 m) as Hb. pose proof (be_value_be_bytes 6 m) as Hv.
  unfold macToString. cbn [be_bytes fmap list_fmap] in *.
  set (a := Z.land (Z.shiftr m (5 * 8)) 255). set (b := Z.land (Z.shiftr m (4 * 8)) 255).
  set (c := Z.land (Z.shiftr m (3 * 8)) 255). set (d := Z.land (Z.shiftr m (2 * 8)) 255).
  set (e := Z.land (Z.shiftr m (1 * 8)) 255). set (f := Z.land (Z.shiftr m (0 * 8)) 255).
  change (Forall is_byte [a; b; c; d; e; f]) in Hb. change (be_value [a; b; c; d; e; f] = m mod 256 ^ 6) in Hv.
  clearbody a b c d e f. rewrite !Forall_cons in Hb. destruct Hb as (Ha & Hb & Hc & Hd & He & Hf & _).
  unfold tryMacToUint64. rewrite bool_decide_true by done. unfold is_byte in *.
  rewrite (macFields_step _ _ _ _ a), (macFields_step _ _ _ _ b), (macFields_step _ _ _ _ c), (macFields_step _ _ _ _ d),
    (macFields_step _ _ _ _ e), (macFields_step _ _ _ _ f); try reflexivity; try (by right); try (by left);
    unfold is_byte; try lia.
  cbn [macFields]. f_equal. change (be_value [a; b; c; d; e; f] = m). rewrite Hv. by apply Z.mod_small.
Qed.

(** Addresses survive their texts.  Printing an IPv4 address (in network order) or a 48-bit MAC
    address and parsing the text gives the address back, with the throwing parsers as with the
    optional ones. *)
Theorem address_text_roundtrip :
  (forall ip, fits 32 ip -> tryIpStringToUint32 (ipToString ip) = Some ip /\ ipStringToUint32 (ipToString ip) = Ret ip) /\
  (forall m, fits 48 m -> tryMacToUint64 (macToString m) = Some m /\ macToUint64 (macToString m) = Ret m).
Proof.
  split.
  - intros ip H. unfold tryIpStringToUint32, ipStringToUint32. rewrite inet_aton_ipToString by done.
    split; [|done]. rewrite bool_decide_false; [done|]. intros E.
    pose proof (inet_aton_ipToString ip H) as Hp. by rewrite E in Hp.
  - intros m H. unfold macToUint64. by rewrite tryMacToUint64_macToString.
Qed.
