(* ===== verification/Commands.v ===== *)
(** Shell commands and their outcome (include/utils/Utils.hpp: commandToolName, describeCommandStatus,
    execCommand; LLMAgent::shellEscapeSingleQuotes).

    What a command prints and how it ends are arguments; [strerror] is the C library's table of error
    texts.  Wait statuses are decoded with the macros of <sys/wait.h>. *)

From Stdlib Require Import Ascii.
From S2P Require Import Prelude CStrings NetUtils.
Local Open Scope string_scope.
Local Open Scope list_scope.
Local Open Scope Z_scope.

(** * Reading the output *)

Definition newlineChar : ascii := ascii_of_nat 10.

(** The lines [fgets] yields with a buffer of [size + 1] bytes; [room] is what the current one can
    still take. *)
Fixpoint fgetsFrom (size : nat) (s cur : string) (room : nat) : list string :=
  match s with
  | EmptyString => if bool_decide (cur = "") then [] else [cur]
  | String c s =>
      let cur := cur +:+ String c EmptyString in
      if bool_decide (c = newlineChar) || bool_decide (room <= 1)%nat then cur :: fgetsFrom size s "" size
      else fgetsFrom size s cur (pred room)
  end.
Definition fgetsLines (size : nat) (output : string) : list string := fgetsFrom size output "" size.

(** * Describing how a command ended *)

Definition isSpaceOrTab (c : ascii) : bool := bool_decide (code c = 32) || bool_decide (code c = 9).

(** The characters before the first space or tab, and what follows from there, if there is one. *)
Fixpoint firstToken (s : string) : string * option string :=
  match s with
  | EmptyString => ("", None)
  | String c s' => if isSpaceOrTab c then ("", Some s) else let '(t, r) := firstToken s' in (String c t, r)
  end.

(** [token.substr(find_last_of('/') + 1)]. *)
Fixpoint baseName (s cur : string) : string :=
  match s with
  | EmptyString => cur
  | String c s => if bool_decide (c = "/"%char) then baseName s s else baseName s cur
  end.

Definition startsWithDash (s : string) : bool := match s with String c _ => bool_decide (c = "-"%char) | _ => false end.

Fixpoint toolNameHops (hops : nat) (command : string) : string :=
  match hops with
  | O => ""
  | S hops =>
      let '(token, rest) := firstToken (drop_spaces command) in
      if bool_decide (token = "") then ""
      else
        let name := baseName token token in
        if negb (bool_decide (name = "sudo")) && negb (startsWithDash name) then name
        else match rest with None => "" | Some rest => toolNameHops hops rest end
  end.

Definition commandToolName (command : string) : string := toolNameHops 4 command.

Definition WTERMSIG (status : Z) : Z := Z.land status 0x7f.
Definition WIFEXITED (status : Z) : bool := bool_decide (WTERMSIG status = 0).
Definition WEXITSTATUS (status : Z) : Z := Z.shiftr (Z.land status 0xff00) 8.
(** [((signed char) ((status & 0x7f) + 1) >> 1) > 0]. *)
Definition WIFSIGNALED (status : Z) : bool := bool_decide (0 < WTERMSIG status) && bool_decide (WTERMSIG status < 0x7f).

Section Describe.
Context (strerror : Z -> string).

(** [errno_] is the value of errno when the function runs. *)
Definition describeCommandStatus (errno_ status : Z) (command : string) (savedErrno : Z) : string :=
  if bool_decide (status = -1) then
    "could not be reaped: " +:+ strerror (if bool_decide (0 <= savedErrno) then savedErrno else errno_)
  else if WIFSIGNALED status then "killed by signal " +:+ std_to_string (WTERMSIG status)
  else if WIFEXITED status then
    let exitCode := WEXITSTATUS status in
    let tool := commandToolName command in
    if bool_decide (exitCode = 127) then
      if bool_decide (tool = "") then "exit code 127 (command not found)"
      else "exit code 127 (command not found -- is " +:+ tool +:+ " installed?)"
    else if bool_decide (exitCode = 1) && bool_decide (is_Some (afterText "sudo" command)) then
      "exit code 1 (" +:+ (if bool_decide (tool = "") then "the command" else tool) +:+
      " refused; a sudo password prompt does this on a process with no controlling " +:+ "terminal)"
    else "exit code " +:+ std_to_string exitCode
  else "unrecognised wait status " +:+ std_to_string status.

(** [popen] and [pclose]: nothing when the command cannot be run, else its output, its wait status
    and errno.  The result and what is written to the error stream. *)
Definition execCommandOn (opened : option (string * Z * Z)) (cmd : string) : outcome (string * string) :=
  match opened with
  | None => Throw RuntimeError
  | Some (output, rc, errno_) =>
      Ret (String.concat "" (c_str <$> fgetsLines 255 output),
           if bool_decide (rc = 0) then ""
           else "Command failed (" +:+ describeCommandStatus errno_ rc cmd errno_ +:+ "): " +:+ cmd +:+ String newlineChar "")
  end.

End Describe.

(** * Quoting *)

Definition quoteChar : ascii := ascii_of_nat 39.

Fixpoint shellEscapeSingleQuotes (str : string) : string :=
  match str with
  | EmptyString => ""
  | String c s =>
      if bool_decide (c = quoteChar)
      then String quoteChar (String "\" (String quoteChar (String quoteChar (shellEscapeSingleQuotes s))))
      else String c (shellEscapeSingleQuotes s)
  end.


(** * What the shell makes of a command line *)

Definition doubleQuote : ascii := ascii_of_nat 34.
Definition backslash : ascii := ascii_of_nat 92.

(** Characters that mean themselves outside quotes. *)
Definition isPlain (c : ascii) : bool :=
  let n := code c in
  bool_decide (48 <= n <= 57) || bool_decide (65 <= n <= 90) || bool_decide (97 <= n <= 122) ||
  bool_decide (n = 45) || bool_decide (n = 46) || bool_decide (n = 47) || bool_decide (n = 58) || bool_decide (n = 95).

(** What [$], a backquote or a backslash does between double quotes is left out. *)
Definition isLiteralInDouble (c : ascii) : bool :=
  negb (bool_decide (c = doubleQuote) || bool_decide (code c = 36) || bool_decide (code c = 96) || bool_decide (c = backslash)).

Inductive Quoting := Unquoted | InSingle | InDouble.

Definition snocChar (cur : option string) (c : ascii) : option string := Some (default "" cur +:+ String c "").
Definition pushWord (cur : option string) (words : list string) : list string := option_list cur ++ words.

(** The words of a simple command by the quoting rules of POSIX; nothing when it is not one (an operator
    of the shell, an expansion, a quote left open). *)
Fixpoint shWords (st : Quoting) (cur : option string) (s : string) : option (list string) :=
  match s with
  | EmptyString => match st with Unquoted => Some (option_list cur) | _ => None end
  | String c s =>
      match st with
      | InSingle => if bool_decide (c = quoteChar) then shWords Unquoted cur s else shWords InSingle (snocChar cur c) s
      | InDouble =>
          if bool_decide (c = doubleQuote) then shWords Unquoted cur s
          else if isLiteralInDouble c then shWords InDouble (snocChar cur c) s else None
      | Unquoted =>
          if isSpaceOrTab c then pushWord cur <$> shWords Unquoted None s
          else if bool_decide (c = quoteChar) then shWords InSingle (Some (default "" cur)) s
          else if bool_decide (c = doubleQuote) then shWords InDouble (Some (default "" cur)) s
          else if bool_decide (c = backslash) then
            match s with
            | String d s' => if bool_decide (d = newlineChar) then None else shWords Unquoted (snocChar cur d) s'
            | EmptyString => None
            end
          else if isPlain c then shWords Unquoted (snocChar cur c) s else None
      end
  end.

Definition argv (command : string) : option (list string) := shWords Unquoted None command.

(** * Properties *)

Lemma append_nil_s (a : string) : a +:+ "" = a.
Proof. induction a as [|c a IH]; [done|]. change (String c (a +:+ "") = String c a). by rewrite IH. Qed.

Lemma fgetsFrom_concat size s cur room : String.concat "" (fgetsFrom size s cur room) = cur +:+ s.
Proof.
  assert (forall x l, String.concat "" (x :: l) = x +:+ String.concat "" l) as Hc.
  { intros x [|y l]; [|done]. change (x = x +:+ ""). by rewrite append_nil_s. }
  revert cur room. induction s as [|c s IH]; intros cur room; cbn [fgetsFrom].
  - case_bool_decide; subst; [done|]. cbn. by rewrite append_nil_s.
  - case_match; [rewrite Hc|]; rewrite IH, ?append_assoc_s; done.
Qed.

Lemma fgetsFrom_chars (p : ascii -> bool) size s cur room :
  all_chars p (cur +:+ s) = true -> Forall (fun l => all_chars p l = true) (fgetsFrom size s cur room).
Proof.
  revert cur room. induction s as [|c s IH]; intros cur room H; cbn [fgetsFrom].
  - case_bool_decide; constructor; [|done]. by rewrite append_nil_s in H.
  - change (String c s) with (String c "" +:+ s) in H. rewrite <- append_assoc_s in H. case_match; [|by apply IH].
    rewrite all_chars_app in H. apply andb_prop in H as [H1 H2]. constructor; [done|]. by apply IH.
Qed.

(** The output of a command comes back whole, however long its lines, when it holds no NUL. *)
Lemma execCommand_output strerror output rc errno_ cmd :
  all_chars nonNul output = true ->
  exists log, execCommandOn strerror (Some (output, rc, errno_)) cmd = Ret (output, log) /\ (rc = 0 -> log = "").
Proof.
  intros H. assert (String.concat "" (c_str <$> fgetsLines 255 output) = output) as Ho.
  { rewrite <- (fgetsFrom_concat 255 output "" 255) at 2. f_equal.
    apply (fgetsFrom_chars nonNul 255 output "" 255) in H. unfold fgetsLines.
    induction H as [|l ls Hl _ IH]; [done|]. cbn. by rewrite c_str_id, IH. }
  cbn. rewrite Ho. eexists. split; [done|]. by intros ->.
Qed.

Lemma append_snoc cur c s : cur +:+ String c s = (cur +:+ String c "") +:+ s.
Proof. by rewrite append_assoc_s. Qed.

Lemma shWords_quote cur t :
  shWords InSingle (Some cur) (String quoteChar (String backslash (String quoteChar (String quoteChar t)))) =
  shWords InSingle (Some (cur +:+ String quoteChar "")) t.
Proof. done. Qed.
Lemma shWords_close cur t : shWords InSingle cur (String quoteChar t) = shWords Unquoted cur t.
Proof. done. Qed.

(** Between single quotes every character but the quote stands for itself. *)
Lemma shWords_literal (s cur rest : string) :
  all_chars (fun c => negb (bool_decide (c = quoteChar))) s = true ->
  shWords InSingle (Some cur) (s +:+ String quoteChar rest) = shWords Unquoted (Some (cur +:+ s)) rest.
Proof.
  revert cur. induction s as [|c s IH]; intros cur H.
  - rewrite append_nil_s. apply shWords_close.
  - cbn [all_chars] in H. apply andb_prop in H as [Hc Hs].
    change (String c s +:+ String quoteChar rest) with (String c (s +:+ String quoteChar rest)). cbn [shWords].
    destruct (bool_decide (c = quoteChar)); [done|]. unfold snocChar. cbn [default]. rewrite IH by done. by rewrite (append_snoc cur c s).
Qed.

Lemma shWords_escaped s cur rest :
  shWords InSingle (Some cur) (shellEscapeSingleQuotes s +:+ String quoteChar rest) = shWords Unquoted (Some (cur +:+ s)) rest.
Proof.
  revert cur. induction s as [|c s IH]; intros cur.
  - rewrite append_nil_s. apply shWords_close.
  - rewrite (append_snoc cur c s). cbn [shellEscapeSingleQuotes]. case_bool_decide as Hc.
    + subst c. etransitivity; [|apply IH]. apply shWords_quote.
    + change (String c ?x +:+ String quoteChar rest) with (String c (x +:+ String quoteChar rest)). cbn [shWords].
      rewrite bool_decide_false by done. apply IH.
Qed.

(** Outside quotes, a run of plain characters joins the current word. *)
Lemma shWords_plain (s : string) cur rest :
  all_chars isPlain s = true -> s <> "" ->
  shWords Unquoted cur (s +:+ rest) = shWords Unquoted (Some (default "" cur +:+ s)) rest.
Proof.
  revert cur. induction s as [|c s IH]; [done|]. intros cur H _. cbn [all_chars] in H. apply andb_prop in H as [Hc Hs].
  change (String c s +:+ rest) with (String c (s +:+ rest)). cbn [shWords].
  assert (isSpaceOrTab c = false /\ bool_decide (c = quoteChar) = false /\ bool_decide (c = doubleQuote) = false /\
          bool_decide (c = backslash) = false) as (-> & -> & -> & ->).
  { clear -Hc. unfold isSpaceOrTab. destruct c as [[] [] [] [] [] [] [] []]; by vm_compute in Hc |- *. }
  rewrite Hc. unfold snocChar. rewrite (append_snoc _ c s). destruct s as [|d s]; [by rewrite append_nil_s|].
  by rewrite IH.
Qed.

(** A quoted word made by [shellEscapeSingleQuotes] reaches the command as the text it was made from,
    whatever that text is. *)
Lemma escaped_word_is_text s : argv (String quoteChar (shellEscapeSingleQuotes s +:+ String quoteChar "")) = Some [s].
Proof.
  transitivity (shWords InSingle (Some "") (shellEscapeSingleQuotes s +:+ String quoteChar "")); [done|].
  by rewrite shWords_escaped.
Qed.

(** The argument of an option of sudo is taken for the tool. *)
Lemma sudo_option_argument_named : commandToolName "sudo -u root ovs-vsctl list-br" = "root".
Proof. by vm_compute. Qed.
