(* ===== verification/SleepLoop.v ===== *)
(** The loops that end with a stop flag (the same shape in TopologyAndFlowMonitor.cpp, FlowLinkUsageCollector.cpp,
    DeviceConfigurationAndPowerManager.cpp and HistoricalDataManager.cpp): a sleep sliced into seconds that
    looks at the flag before each, and a worker that repeats an iteration and such a sleep.

    Time is counted in seconds from the start of the thread; [stopAt] is the second in which m_running turns
    false. *)

From S2P Require Import Prelude.
Local Open Scope nat_scope.

Section Sleep.
Context (stopAt : nat).

Definition running (t : nat) : bool := bool_decide (t < stopAt)%nat.

(** The sliced sleep. *)
Fixpoint sleepSeconds (interval t : nat) : nat :=
  match interval with
  | O => t
  | Datatypes.S interval => if running t then sleepSeconds interval (Datatypes.S t) else t
  end.

Lemma sleepSeconds_running interval t :
  running (sleepSeconds interval t) = true -> sleepSeconds interval t = (t + interval)%nat /\ (t + interval < stopAt)%nat.
Proof.
  revert t. induction interval as [|n IH]; intros t; cbn [sleepSeconds].
  - unfold running. intros H%bool_decide_eq_true. lia.
  - destruct (running t) eqn:E; intros Hr; [apply IH in Hr; lia|congruence].
Qed.

Lemma sleepSeconds_stopped interval t : running (sleepSeconds interval t) = false -> (stopAt <= t + interval)%nat.
Proof.
  revert t. induction interval as [|n IH]; intros t; cbn [sleepSeconds].
  - unfold running. intros H%bool_decide_eq_false. lia.
  - destruct (running t) eqn:E; intros Hr; [apply IH in Hr; lia|]. apply bool_decide_eq_false in Hr. lia.
Qed.

Lemma sleepSeconds_exact n t : sleepSeconds n t = Nat.max t (Nat.min stopAt (t + n)).
Proof.
  revert t. induction n as [|n IH]; intros t; cbn [sleepSeconds]; [lia|]. unfold running. case_bool_decide; [rewrite IH; lia|lia].
Qed.
End Sleep.

Section Worker.
(** How many seconds the iteration that begins at second [t] takes, and what it does. *)
Context (stopAt interval : nat) {S : Type} (duration : nat -> nat) (iterate : nat -> S -> S).

(** The seconds at which iterations begin, the second in which the thread ends, and the final state. *)
Fixpoint sleepingWorker (fuel t : nat) (s : S) : option (list nat * nat * S) :=
  match fuel with
  | O => None
  | Datatypes.S fuel =>
      if running stopAt t then
        let s := iterate t s in
        r ← sleepingWorker fuel (sleepSeconds stopAt interval (t + duration t)) s;
        let '(times, end_, s') := r in Some (t :: times, end_, s')
      else Some ([], t, s)
  end.

(** The schedule of a worker from second [t] on. *)
Record scheduled (t : nat) (times : list nat) (end_ : nat) : Prop := {
  sc_first : if decide (t < stopAt)%nat then head times = Some t else times = [];
  sc_before : Forall (fun a => a < stopAt)%nat times;
  sc_next : forall i a b, times !! i = Some a -> times !! (1 + i)%nat = Some b -> b = (a + duration a + interval)%nat;
  sc_end : end_ = Nat.max stopAt (match last times with Some a => a + duration a | None => t end)
}.

Lemma scheduled_cons t times end_ :
  (t < stopAt)%nat -> scheduled (Nat.max (t + duration t) (Nat.min stopAt (t + duration t + interval))) times end_ ->
  scheduled t (t :: times) end_.
Proof.
  intros Ht [H1 H2 H3 H4]. split.
  - by rewrite decide_True.
  - by constructor.
  - intros [|i] a b; cbn; [|apply H3]. intros [= <-] Hb. destruct times as [|x times]; [done|]. injection Hb as ->.
    case_decide; [|done]. injection H1 as ->. lia.
  - subst end_. destruct times as [|x times]; [case_decide; [done|]; cbn; lia|].
    rewrite last_cons_cons. destruct (last (x :: times)) eqn:El; [done|]. by apply last_None in El.
Qed.

Lemma sleepingWorker_scheduled fuel t s :
  (0 < interval)%nat -> (stopAt - t < fuel)%nat ->
  exists times end_, sleepingWorker fuel t s = Some (times, end_, foldl (fun s t => iterate t s) s times) /\ scheduled t times end_.
Proof.
  revert t s. induction fuel as [|fuel IH]; intros t s Hi Hf; [lia|]. cbn [sleepingWorker]. unfold running. case_bool_decide as Ht.
  - rewrite sleepSeconds_exact. destruct (IH (Nat.max (t + duration t) (Nat.min stopAt (t + duration t + interval)))%nat (iterate t s))
      as (times & end_ & -> & Hs); [done|lia|].
    exists (t :: times), end_. split; [done|]. by apply scheduled_cons.
  - exists [], t. split; [done|]. split; [by rewrite decide_False|constructor|done|cbn; lia].
Qed.
End Worker.

