(* ===== verification/Json.v ===== *)
(** JSON values as [nlohmann::json] stores them, and the accessors the kernel uses.

    The numeric storage class (unsigned, signed, floating) is part of the value because
    [is_number_unsigned] and [is_number_integer] observe it. An object is an association list
    with the first binding of a key being the one [find] returns. *)

From S2P Require Import Prelude.
#[local] Set Warnings "-register-all".

Inductive json :=
  | JNull
  | JBool (b : bool)
  | JUnsigned (n : Z)
  | JInteger (z : Z)
  | JFloat (mantissa exponent : Z)
  | JString (s : string)
  | JArray (l : list json)
  | JObject (l : list (string * json)).

Definition is_null (j : json) : bool := match j with JNull => true | _ => false end.
Definition is_boolean (j : json) : bool := match j with JBool _ => true | _ => false end.
Definition is_string (j : json) : bool := match j with JString _ => true | _ => false end.
Definition is_array (j : json) : bool := match j with JArray _ => true | _ => false end.
Definition is_object (j : json) : bool := match j with JObject _ => true | _ => false end.
Definition is_number_unsigned (j : json) : bool := match j with JUnsigned _ => true | _ => false end.
Definition is_number_integer (j : json) : bool :=
  match j with JUnsigned _ | JInteger _ => true | _ => false end.

Fixpoint assoc {A} (k : string) (l : list (string * A)) : option A :=
  match l with
  | [] => None
  | (k', v) :: l' => if bool_decide (k = k') then Some v else assoc k l'
  end.

(** [j.find(k)]: absent on anything that is not an object. *)
Definition jfind (j : json) (k : string) : option json :=
  match j with JObject l => assoc k l | _ => None end.

Definition contains (j : json) (k : string) : bool := bool_decide (is_Some (jfind j k)).

(** [j.at(k)]: 304 on a non-object, 403 on a missing key. *)
Definition jat (j : json) (k : string) : outcome json :=
  match j with
  | JObject l => match assoc k l with Some v => Ret v | None => Throw JsonOutOfRange end
  | _ => Throw JsonTypeError
  end.

(** [j.size()]. *)
Definition jsize (j : json) : nat :=
  match j with JNull => 0 | JArray l => length l | JObject l => length l | _ => 1 end.

Definition trunc_float (m e : Z) : Z :=
  if bool_decide (0 <= e) then m * 2 ^ e else Z.quot m (2 ^ (- e)).

(** [get<uint64_t>]/[get<int64_t>] (the library's own integer types) reject booleans. *)
Definition get_u64 (j : json) : outcome Z :=
  match j with
  | JUnsigned n => Ret (u64 n)
  | JInteger z => Ret (u64 z)
  | JFloat m e => Ret (u64 (trunc_float m e))
  | _ => Throw JsonTypeError
  end.

Definition get_i64 (j : json) : outcome Z :=
  match j with
  | JUnsigned n => Ret (i64 n)
  | JInteger z => Ret (i64 z)
  | JFloat m e => Ret (i64 (trunc_float m e))
  | _ => Throw JsonTypeError
  end.

(** Every other arithmetic type is narrowed with [static_cast] and accepts booleans. *)
Definition get_arith (narrow : Z -> Z) (j : json) : outcome Z :=
  match j with
  | JUnsigned n => Ret (narrow n)
  | JInteger z => Ret (narrow z)
  | JFloat m e => Ret (narrow (trunc_float m e))
  | JBool b => Ret (if b then 1 else 0)
  | _ => Throw JsonTypeError
  end.

Definition get_u32 : json -> outcome Z := get_arith u32.
Definition get_i32 : json -> outcome Z := get_arith i32.

Definition get_string (j : json) : outcome string :=
  match j with JString s => Ret s | _ => Throw JsonTypeError end.

(** [j.value(k, d)]. *)
Definition jvalue {A} (get : json -> outcome A) (j : json) (k : string) (d : A) : outcome A :=
  match j with
  | JObject l => match assoc k l with Some v => get v | None => Ret d end
  | _ => Throw JsonTypeError
  end.

(** Range-for over a value: the elements of an array, the values of an object, a scalar itself. *)
Definition jiter (j : json) : list json :=
  match j with JNull => [] | JArray l => l | JObject l => snd <$> l | j => [j] end.

Definition jelems (j : json) : list json := match j with JArray l => l | _ => [] end.

(** [get<std::vector<T>>]. *)
Fixpoint get_all {A} (get : json -> outcome A) (l : list json) : outcome (list A) :=
  match l with
  | [] => Ret []
  | j :: l => let! a := get j in let! r := get_all get l in Ret (a :: r)
  end.

Definition get_vec {A} (get : json -> outcome A) (j : json) : outcome (list A) :=
  match j with JArray l => get_all get l | _ => Throw JsonTypeError end.

Definition jfield {A} (get : json -> outcome A) (j : json) (k : string) : outcome A :=
  let! v := jat j k in get v.

(** [j[k]] on a mutable value: a missing key reads as null. *)
Definition jindex (j : json) (k : string) : outcome json :=
  match j with
  | JObject l => Ret (default JNull (assoc k l))
  | JNull => Ret JNull
  | _ => Throw JsonTypeError
  end.

(** [j[0]] on a mutable value; what it reads of an array that has a first element. *)
Definition jfirst (j : json) : outcome json :=
  match j with JArray (x :: _) => Ret x | JArray [] => Ret JNull | JNull => Ret JNull | _ => Throw JsonTypeError end.

Definition jempty (j : json) : bool :=
  match j with JNull => true | JArray [] => true | JObject [] => true | _ => false end.

(** [j[k] = v] on the bindings of an object. *)
Fixpoint assocSet {A} (k : string) (v : A) (l : list (string * A)) : list (string * A) :=
  match l with
  | [] => [(k, v)]
  | (k', v') :: l => if bool_decide (k = k') then (k, v) :: l else (k', v') :: assocSet k v l
  end.

Definition setSlot (k : string) (v flows : json) : json :=
  match flows with
  | JObject l => JObject (assocSet k v l)
  | _ => JObject [(k, v)]
  end.

(** An array or object with other element values. *)
Definition withElems (v : json) (l : list json) : json :=
  match v with
  | JArray _ => JArray l
  | JObject kv => JObject (zip kv.*1 l)
  | v => v
  end.

(** Decides the comparisons of literal keys in the goal. *)
Ltac keys :=
  cbn; repeat (match goal with
  | |- context [bool_decide (?a = ?b)] =>
      first [rewrite (bool_decide_true (a = b)) by reflexivity | rewrite (bool_decide_false (a = b)) by discriminate]
  end; cbn).

Lemma contains_jat j k : contains j k = true <-> exists v, jat j k = Ret v.
Proof.
  unfold contains, jfind, jat. rewrite bool_decide_eq_true.
  destruct j as [| | | | | | |l]; try (split; intros [? ?]; done).
  unfold is_Some. destruct (assoc k l); naive_solver.
Qed.

Lemma get_u64_range j v : get_u64 j = Ret v -> 0 <= v < 2 ^ 64.
Proof. destruct j; simpl; intros; simplify_eq; apply u64_range. Qed.

Lemma assocSet_same {A} k (v : A) l : assoc k (assocSet k v l) = Some v.
Proof.
  induction l as [|[k' v'] l IH]; cbn; [by rewrite bool_decide_true|].
  case_bool_decide; cbn; [by rewrite bool_decide_true|]. by rewrite bool_decide_false.
Qed.

Lemma assocSet_other {A} k k' (v : A) l : k' <> k -> assoc k' (assocSet k v l) = assoc k' l.
Proof.
  intros Hne. induction l as [|[k2 v2] l IH]; cbn; [by rewrite bool_decide_false|].
  case_bool_decide; subst; cbn; [by rewrite !(bool_decide_false (k' = k2))|]. by rewrite IH.
Qed.

Lemma get_all_encode {A} (enc : A -> json) (dec : json -> outcome A) l :
  Forall (fun a => dec (enc a) = Ret a) l -> get_all dec (enc <$> l) = Ret l.
Proof. induction 1 as [|a l Ha _ IH]; cbn; [done|]. by rewrite Ha; cbn; rewrite IH. Qed.

(** [p] holds of everything [get] accepts. *)
Lemma get_all_forall {A} (get : json -> outcome A) (p : A -> Prop) l r :
  (forall j a, get j = Ret a -> p a) -> get_all get l = Ret r -> Forall p r.
Proof.
  intros Hp. revert r. induction l as [|j l IH]; intros r; cbn; [intros; simplify_eq; constructor|].
  intros (a & Ha & (r' & Hr & E)%obind_ret)%obind_ret. simplify_eq. constructor; [by eapply Hp|by apply IH].
Qed.

Lemma get_i32_range j v : get_i32 j = Ret v -> - 2 ^ 31 <= v < 2 ^ 31.
Proof.
  assert (forall z, - 2 ^ 31 <= i32 z < 2 ^ 31) as H.
  { intros z. unfold i32. pose proof (Z.mod_pos_bound (z + 2 ^ 31) (2 ^ 32)). lia. }
  destruct j as [|[]| | | | | |]; unfold get_i32; simpl; intros; simplify_eq; try apply H; lia.
Qed.

Lemma get_u16_range j v : get_arith u16 j = Ret v -> fits 16 v.
Proof. destruct j as [|[]| | | | | |]; simpl; intros; simplify_eq; try apply fits_u16; split; lia. Qed.
