(* ===== verification/JsonUtf8.v ===== *)
(** UTF-8 as the JSON library reads it: the table-driven decoder of the serializer, the byte
    ranges of the lexer and the encoding of [\u] escapes (src/libs/nlohmann/json.hpp).

    A text is a list of bytes here; [bytesOf] and [stringOf] go between it and [std::string].
    The two recognisers of the library are shown to agree: the serializer's automaton ends in
    its accepting state exactly on the texts the lexer's ranges accept. *)

From S2P Require Import Prelude Bytes CStrings.
From Stdlib Require Import Ascii.

(** * Bytes and strings *)

Fixpoint bytesOf (s : string) : list Z :=
  match s with EmptyString => [] | String c s => code c :: bytesOf s end.

(** [static_cast<char>] keeps the low eight bits. *)
Definition charOf (b : Z) : ascii := ascii_of_N (Z.to_N (b mod 256)).

Fixpoint stringOf (l : list Z) : string :=
  match l with [] => EmptyString | b :: l => String (charOf b) (stringOf l) end.

Lemma code_byte c : is_byte (code c).
Proof. unfold code, is_byte. pose proof (N_ascii_bounded c). lia. Qed.

Lemma charOf_code c : charOf (code c) = c.
Proof.
  unfold charOf. pose proof (code_byte c) as Hc. rewrite Z.mod_small by exact Hc.
  unfold code. by rewrite N2Z.id, ascii_N_embedding.
Qed.

Lemma code_charOf b : is_byte b -> code (charOf b) = b.
Proof.
  intros Hb. unfold charOf, code. rewrite Z.mod_small by exact Hb. unfold is_byte in Hb.
  rewrite N_ascii_embedding; lia.
Qed.

Lemma bytesOf_bytes s : Forall is_byte (bytesOf s).
Proof. induction s as [|c s IH]; cbn; constructor; [apply code_byte|done]. Qed.

Lemma stringOf_bytesOf s : stringOf (bytesOf s) = s.
Proof. induction s as [|c s IH]; cbn; [done|]. by rewrite charOf_code, IH. Qed.

Lemma bytesOf_stringOf l : Forall is_byte l -> bytesOf (stringOf l) = l.
Proof. induction 1 as [|b l Hb _ IH]; cbn; [done|]. by rewrite code_charOf, IH. Qed.

Lemma bytesOf_inj s t : bytesOf s = bytesOf t -> s = t.
Proof. intros E. by rewrite <- (stringOf_bytesOf s), E, stringOf_bytesOf. Qed.

Lemma bytesOf_app s t : bytesOf (s +:+ t) = bytesOf s ++ bytesOf t.
Proof. induction s as [|c s IH]; [done|]. change (String c s +:+ t) with (String c (s +:+ t)). cbn. by rewrite IH. Qed.

Lemma stringOf_app l k : stringOf (l ++ k) = stringOf l +:+ stringOf k.
Proof. induction l as [|b l IH]; cbn; [done|]. by rewrite IH. Qed.

(** * The serializer's automaton *)

Definition UTF8_ACCEPT : Z := 0.
Definition UTF8_REJECT : Z := 1.

Definition utf8d : list Z := [
  0;0;0;0;0;0;0;0;0;0;0;0;0;0;0;0;0;0;0;0;0;0;0;0;0;0;0;0;0;0;0;0;
  0;0;0;0;0;0;0;0;0;0;0;0;0;0;0;0;0;0;0;0;0;0;0;0;0;0;0;0;0;0;0;0;
  0;0;0;0;0;0;0;0;0;0;0;0;0;0;0;0;0;0;0;0;0;0;0;0;0;0;0;0;0;0;0;0;
  0;0;0;0;0;0;0;0;0;0;0;0;0;0;0;0;0;0;0;0;0;0;0;0;0;0;0;0;0;0;0;0;
  1;1;1;1;1;1;1;1;1;1;1;1;1;1;1;1;9;9;9;9;9;9;9;9;9;9;9;9;9;9;9;9;
  7;7;7;7;7;7;7;7;7;7;7;7;7;7;7;7;7;7;7;7;7;7;7;7;7;7;7;7;7;7;7;7;
  8;8;2;2;2;2;2;2;2;2;2;2;2;2;2;2;2;2;2;2;2;2;2;2;2;2;2;2;2;2;2;2;
  0xA;0x3;0x3;0x3;0x3;0x3;0x3;0x3;0x3;0x3;0x3;0x3;0x3;0x4;0x3;0x3;
  0xB;0x6;0x6;0x6;0x5;0x8;0x8;0x8;0x8;0x8;0x8;0x8;0x8;0x8;0x8;0x8;
  0x0;0x1;0x2;0x3;0x5;0x8;0x7;0x1;0x1;0x1;0x4;0x6;0x1;0x1;0x1;0x1;
  1;1;1;1;1;1;1;1;1;1;1;1;1;1;1;1;1;0;1;1;1;1;1;0;1;0;1;1;1;1;1;1;
  1;2;1;1;1;1;1;2;1;2;1;1;1;1;1;1;1;1;1;1;1;1;1;2;1;1;1;1;1;1;1;1;
  1;2;1;1;1;1;1;1;1;2;1;1;1;1;1;1;1;1;1;1;1;1;1;3;1;3;1;1;1;1;1;1;
  1;3;1;1;1;1;1;3;1;3;1;1;1;1;1;1;1;3;1;1;1;1;1;1;1;1;1;1;1;1;1;1].

Definition utf8At (i : Z) : Z := nth (Z.to_nat i) utf8d 0.

(** The new state and code point after one more byte. *)
Definition decode (state codep byte : Z) : Z * Z :=
  let type := utf8At byte in
  let codep := if bool_decide (state <> UTF8_ACCEPT) then u32 (Z.lor (Z.land byte 0x3f) (Z.shiftl codep 6))
               else Z.land (Z.shiftr 0xFF type) byte in
  (utf8At (256 + state * 16 + type), codep).

Definition decodeState (state byte : Z) : Z := utf8At (256 + state * 16 + utf8At byte).

#[global] Arguments utf8At : simpl never.
#[global] Arguments decode : simpl never.
#[global] Arguments decodeState : simpl never.

(** The state after a whole text. *)
Definition decodeRun (state : Z) (l : list Z) : Z := foldl decodeState state l.

(** * The lexer's ranges *)

(** The ranges [scan_string] requires of the bytes after a lead byte; [None] on a byte that
    starts no character. *)
Definition followRanges (b : Z) : option (list (Z * Z)) :=
  if bool_decide (0 <= b <= 0x7F) then Some []
  else if bool_decide (0xC2 <= b <= 0xDF) then Some [(0x80, 0xBF)]
  else if bool_decide (b = 0xE0) then Some [(0xA0, 0xBF); (0x80, 0xBF)]
  else if bool_decide (0xE1 <= b <= 0xEC) || bool_decide (0xEE <= b <= 0xEF) then Some [(0x80, 0xBF); (0x80, 0xBF)]
  else if bool_decide (b = 0xED) then Some [(0x80, 0x9F); (0x80, 0xBF)]
  else if bool_decide (b = 0xF0) then Some [(0x90, 0xBF); (0x80, 0xBF); (0x80, 0xBF)]
  else if bool_decide (0xF1 <= b <= 0xF3) then Some [(0x80, 0xBF); (0x80, 0xBF); (0x80, 0xBF)]
  else if bool_decide (b = 0xF4) then Some [(0x80, 0x8F); (0x80, 0xBF); (0x80, 0xBF)]
  else None.

Definition inRange (r : Z * Z) (b : Z) : bool := bool_decide (r.1 <= b) && bool_decide (b <= r.2).

(** What is left of [l] after bytes in the given ranges. *)
Fixpoint afterRanges (rs : list (Z * Z)) (l : list Z) : option (list Z) :=
  match rs, l with
  | [], _ => Some l
  | r :: rs, b :: l => if inRange r b then afterRanges rs l else None
  | _ :: _, [] => None
  end.

(** A character is a lead byte and bytes in its ranges; a text is a list of characters. *)
Definition utf8Char (c : list Z) : Prop :=
  exists b cs rs, c = b :: cs /\ followRanges b = Some rs /\ Forall2 inRange rs cs.

Inductive utf8 : list Z -> Prop :=
  | utf8_nil : utf8 []
  | utf8_cons c l : utf8Char c -> utf8 l -> utf8 (c ++ l).

Create HintDb utf8.
#[export] Hint Constructors utf8 : utf8.

(** * Finite checks *)

Definition allBytes : list Z := seqZ 0 256.

Lemma allBytes_spec b : is_byte b -> b ∈ allBytes.
Proof. intros Hb. apply elem_of_seqZ. exact Hb. Qed.

(** A decidable fact of every byte is checked by evaluation. *)
Lemma every_byte (p : Z -> bool) : forallb p allBytes = true -> forall b, is_byte b -> p b = true.
Proof. intros H b Hb%allBytes_spec. eapply forallb_forall in H; [exact H|]. by apply list_elem_of_In. Qed.

(** * The automaton and the ranges agree *)

(** What each state still waits for. *)
Definition rangesOf (state : Z) : list (Z * Z) :=
  if bool_decide (state = 2) then [(0x80, 0xBF)]
  else if bool_decide (state = 3) then [(0x80, 0xBF); (0x80, 0xBF)]
  else if bool_decide (state = 4) then [(0xA0, 0xBF); (0x80, 0xBF)]
  else if bool_decide (state = 5) then [(0x80, 0x9F); (0x80, 0xBF)]
  else if bool_decide (state = 6) then [(0x90, 0xBF); (0x80, 0xBF); (0x80, 0xBF)]
  else if bool_decide (state = 7) then [(0x80, 0xBF); (0x80, 0xBF); (0x80, 0xBF)]
  else if bool_decide (state = 8) then [(0x80, 0x8F); (0x80, 0xBF); (0x80, 0xBF)]
  else [].

(** The states other than [UTF8_REJECT]. *)
Definition live (s : Z) : Prop := s = 0 \/ 2 <= s <= 8.

Lemma live_elem s : live s -> s ∈ [0; 2; 3; 4; 5; 6; 7; 8].
Proof.
  intros H. assert (s = 0 \/ s = 2 \/ s = 3 \/ s = 4 \/ s = 5 \/ s = 6 \/ s = 7 \/ s = 8) as E by (unfold live in H; lia).
  destruct E as [-> | [-> | [-> | [-> | [-> | [-> | [-> | ->]]]]]]]; apply list_elem_of_In; cbn; tauto.
Qed.

#[export] Instance live_dec s : Decision (live s) := ltac:(unfold live; apply _).

Lemma every_step (p : Z -> Z -> bool) :
  forallb (fun s => forallb (p s) allBytes) [0; 2; 3; 4; 5; 6; 7; 8] = true ->
  forall s b, live s -> is_byte b -> p s b = true.
Proof.
  intros H s b Hs%live_elem Hb. rewrite forallb_forall in H.
  apply (every_byte (p s)); [|done]. apply H. by apply list_elem_of_In.
Qed.

Lemma decode_lead b : is_byte b ->
  match followRanges b with
  | Some rs => live (decodeState 0 b) /\ rangesOf (decodeState 0 b) = rs
  | None => decodeState 0 b = UTF8_REJECT
  end.
Proof.
  intros Hb.
  pose proof (every_byte (fun b => match followRanges b with
    | Some rs => bool_decide (live (decodeState 0 b) /\ rangesOf (decodeState 0 b) = rs)
    | None => bool_decide (decodeState 0 b = UTF8_REJECT) end) ltac:(by vm_compute) b Hb) as H.
  cbv beta in H. destruct (followRanges b); by apply bool_decide_eq_true in H.
Qed.

Lemma decode_follow s b : live s -> is_byte b ->
  match rangesOf s with
  | r :: rs => if inRange r b then live (decodeState s b) /\ rangesOf (decodeState s b) = rs
               else decodeState s b = UTF8_REJECT
  | [] => s = UTF8_ACCEPT
  end.
Proof.
  intros Hs Hb.
  pose proof (every_step (fun s b => match rangesOf s with
    | r :: rs => if inRange r b then bool_decide (live (decodeState s b) /\ rangesOf (decodeState s b) = rs)
                 else bool_decide (decodeState s b = UTF8_REJECT)
    | [] => bool_decide (s = UTF8_ACCEPT) end) ltac:(by vm_compute) s b Hs Hb) as H.
  cbv beta in H. destruct (rangesOf s); [|destruct (inRange _ b)]; by apply bool_decide_eq_true in H.
Qed.

Lemma decode_reject b : is_byte b -> decodeState UTF8_REJECT b = UTF8_REJECT.
Proof.
  intros Hb. pose proof (every_byte (fun b => bool_decide (decodeState 1 b = 1)) ltac:(by vm_compute) b Hb) as H.
  cbv beta in H. by apply bool_decide_eq_true in H.
Qed.

Lemma decodeRun_cons s b l : decodeRun s (b :: l) = decodeRun (decodeState s b) l.
Proof. done. Qed.

Lemma run_reject l : Forall is_byte l -> decodeRun UTF8_REJECT l = UTF8_REJECT.
Proof. induction 1 as [|b l Hb _ IH]; [done|]. by rewrite decodeRun_cons, decode_reject. Qed.

Lemma live_done s : live s -> rangesOf s = [] -> s = UTF8_ACCEPT.
Proof.
  intros Hs E. pose proof (decode_follow s 0 Hs ltac:(unfold is_byte; lia)) as H. by rewrite E in H.
Qed.

(** From a live state the automaton accepts what continues with the awaited bytes. *)
Lemma run_ranges rs s l : live s -> rangesOf s = rs -> Forall is_byte l ->
  decodeRun s l = UTF8_ACCEPT <->
  exists c l', l = c ++ l' /\ Forall2 inRange rs c /\ decodeRun UTF8_ACCEPT l' = UTF8_ACCEPT.
Proof.
  revert s l. induction rs as [|r rs IH]; intros s l Hs E Hl.
  - rewrite (live_done s Hs E). split; [intros H; exists [], l; auto|].
    intros (c & l' & -> & Hc & H). by inversion Hc; subst.
  - destruct Hl as [|b l Hb Hl].
    + split; [intros Es; change (s = 0) in Es; by subst s|].
      intros (c & l' & El & Hc & _). inversion Hc; subst. discriminate.
    + pose proof (decode_follow s b Hs Hb) as D. rewrite E in D. rewrite decodeRun_cons. destruct (inRange r b) eqn:Hr.
      * destruct D as [D1 D2]. rewrite (IH _ l D1 D2 Hl). split.
        -- intros (c & l' & -> & Hc & H). exists (b :: c), l'. split; [done|]. split; [|done]. constructor; [by rewrite Hr|done].
        -- intros (c & l' & El & Hc & H). destruct c as [|x c]; [by inversion Hc|]. apply Forall2_cons in Hc as [_ Hc]. injection El as -> ->. by exists c, l'; auto.
      * rewrite D, run_reject by done. split; [discriminate|].
        intros (c & l' & El & Hc & _). destruct c as [|x c]; [by inversion Hc|]. apply Forall2_cons in Hc as [Hx _]. injection El as -> _. by rewrite Hr in Hx.
Qed.

Lemma run_lead b l : is_byte b -> Forall is_byte l ->
  decodeRun UTF8_ACCEPT (b :: l) = UTF8_ACCEPT <->
  exists rs c l', followRanges b = Some rs /\ l = c ++ l' /\ Forall2 inRange rs c /\ decodeRun UTF8_ACCEPT l' = UTF8_ACCEPT.
Proof.
  intros Hb Hl. rewrite decodeRun_cons. change (decodeState UTF8_ACCEPT b) with (decodeState 0 b). pose proof (decode_lead b Hb) as D.
  destruct (followRanges b) as [rs|].
  - destruct D as [D1 D2]. rewrite (run_ranges rs) by done. naive_solver.
  - rewrite D, run_reject by done. naive_solver.
Qed.

Lemma inRange_byte r b : 0 <= r.1 -> r.2 < 256 -> inRange r b = true -> is_byte b.
Proof. unfold inRange, is_byte. rewrite andb_true_iff, !bool_decide_eq_true. lia. Qed.

Lemma followRanges_byte b rs : followRanges b = Some rs -> is_byte b /\ Forall (fun r => 0x80 <= r.1 /\ r.2 <= 0xBF) rs.
Proof.
  unfold followRanges, is_byte. repeat (case_bool_decide; cbn [orb]); intros; simplify_eq;
  (split; [lia|repeat constructor; cbn; lia]).
Qed.

Lemma utf8Char_bytes c : utf8Char c -> Forall is_byte c.
Proof.
  intros (b & cs & rs & -> & [Hb Hrs]%followRanges_byte & Hcs). constructor; [done|].
  revert Hrs. induction Hcs as [|r x rs cs Hr _ IH]; intros Hrs; [constructor|].
  apply Forall_cons in Hrs as [Hr' Hrs]. constructor; [|by apply IH].
  apply (inRange_byte r); [lia..|]. by destruct (inRange r x).
Qed.

Lemma utf8_bytes l : utf8 l -> Forall is_byte l.
Proof. induction 1; [constructor|]. apply Forall_app; eauto using utf8Char_bytes. Qed.

(** The automaton accepts exactly the texts the lexer's ranges describe. *)
Lemma decode_accepts_utf8 l : Forall is_byte l -> decodeRun UTF8_ACCEPT l = UTF8_ACCEPT <-> utf8 l.
Proof.
  intros Hl. split.
  - remember (length l) as n eqn:En. revert l Hl En.
    induction (lt_wf n) as [n _ IH]. intros [|b l] Hl En; [constructor|].
    apply Forall_cons in Hl as [Hb Hl].
    intros (rs & c & l' & Hf & -> & Hc & H)%run_lead; [|done..].
    apply Forall_app in Hl as [_ Hl']. rewrite app_comm_cons. constructor; [by exists b, c, rs|].
    apply (IH (length l')); [cbn in En; rewrite length_app in En; lia|done..].
  - induction 1 as [|c l (b & cs & rs & -> & Hf & Hcs) Hu IH]; [done|]. cbn [app] in *.
    apply Forall_cons in Hl as [Hb Hl]. apply run_lead; [done..|].
    apply Forall_app in Hl as [_ Hl']. exists rs, cs, l. auto.
Qed.

#[export] Instance utf8_dec l : Decision (utf8 l).
Proof.
  destruct (decide (Forall is_byte l)) as [Hl|Hl].
  - destruct (decide (decodeRun UTF8_ACCEPT l = UTF8_ACCEPT)) as [H|H]; [left|right]; by rewrite <- decode_accepts_utf8.
  - right. intros Hu%utf8_bytes. done.
Defined.

Lemma utf8_app l k : utf8 l -> utf8 k -> utf8 (l ++ k).
Proof. induction 1 as [|c l Hc _ IH]; intros Hk; [done|]. rewrite <- app_assoc. auto with utf8. Qed.

Lemma utf8Char_ascii b : 0 <= b <= 0x7F -> utf8Char [b].
Proof. intros Hb. exists b, [], []. repeat split; [|constructor]. unfold followRanges. by rewrite bool_decide_true. Qed.

Lemma utf8_ascii l : Forall (fun b => 0 <= b <= 0x7F) l -> utf8 l.
Proof. induction 1; [constructor|]. apply (utf8_cons [x]); auto using utf8Char_ascii. Qed.

#[export] Hint Resolve utf8_app utf8Char_ascii : utf8.

(** * Code points *)

(** Unicode scalar values. *)
Definition scalar (cp : Z) : Prop := 0 <= cp <= 0x10FFFF /\ ~ (0xD800 <= cp <= 0xDFFF).

(** [scan_string] translating a code point into bytes. *)
Definition encodeCodepoint (cp : Z) : list Z :=
  if bool_decide (cp < 0x80) then [cp]
  else if bool_decide (cp <= 0x7FF) then
    [Z.lor 0xC0 (Z.shiftr cp 6); Z.lor 0x80 (Z.land cp 0x3F)]
  else if bool_decide (cp <= 0xFFFF) then
    [Z.lor 0xE0 (Z.shiftr cp 12); Z.lor 0x80 (Z.land (Z.shiftr cp 6) 0x3F); Z.lor 0x80 (Z.land cp 0x3F)]
  else
    [Z.lor 0xF0 (Z.shiftr cp 18); Z.lor 0x80 (Z.land (Z.shiftr cp 12) 0x3F);
     Z.lor 0x80 (Z.land (Z.shiftr cp 6) 0x3F); Z.lor 0x80 (Z.land cp 0x3F)].

(** [decode] over several bytes. *)
Definition decodeAll (st : Z * Z) (l : list Z) : Z * Z := foldl (fun '(s, cp) b => decode s cp b) st l.

Lemma lor_low h n l : 0 <= n -> 0 <= l < 2 ^ n -> Z.lor (h * 2 ^ n) l = h * 2 ^ n + l.
Proof. intros. by rewrite <- lor_shiftl_low, Z.shiftl_mul_pow2. Qed.

Lemma cont_byte v : Z.lor 0x80 (Z.land v 0x3F) = 0x80 + v mod 64.
Proof.
  change 0x3F with (Z.ones 6). rewrite Z.land_ones by done. change 0x80 with (2 * 2 ^ 6) at 1.
  rewrite lor_low; [done|done|]. apply Z.mod_pos_bound. lia.
Qed.

(** The encoding with the bit operations as arithmetic. *)
Lemma encodeCodepoint_arith cp : 0 <= cp <= 0x10FFFF ->
  encodeCodepoint cp =
    if bool_decide (cp < 0x80) then [cp]
    else if bool_decide (cp <= 0x7FF) then [0xC0 + cp / 64; 0x80 + cp mod 64]
    else if bool_decide (cp <= 0xFFFF) then [0xE0 + cp / 4096; 0x80 + cp / 64 mod 64; 0x80 + cp mod 64]
    else [0xF0 + cp / 262144; 0x80 + cp / 4096 mod 64; 0x80 + cp / 64 mod 64; 0x80 + cp mod 64].
Proof.
  intros Hcp. unfold encodeCodepoint. rewrite !cont_byte, !Z.shiftr_div_pow2 by lia.
  change (2 ^ 6) with 64. change (2 ^ 12) with 4096. change (2 ^ 18) with 262144.
  repeat case_bool_decide; [done| | |].
  - change 0xC0 with (6 * 2 ^ 5) at 1. rewrite lor_low; [done|lia|]. split; [apply Z.div_pos; lia|apply Z.div_lt_upper_bound; lia].
  - change 0xE0 with (14 * 2 ^ 4) at 1. rewrite lor_low; [done|lia|]. split; [apply Z.div_pos; lia|apply Z.div_lt_upper_bound; lia].
  - change 0xF0 with (30 * 2 ^ 3) at 1. rewrite lor_low; [done|lia|]. split; [apply Z.div_pos; lia|apply Z.div_lt_upper_bound; lia].
Qed.

(** The decoder on a continuation byte. *)
Lemma decode_cont s cp b : s <> UTF8_ACCEPT -> 0 <= cp < 2 ^ 26 -> 0x80 <= b <= 0xBF ->
  (decode s cp b).2 = cp * 64 + (b - 0x80).
Proof.
  intros Hs Hcp Hb. unfold decode. rewrite bool_decide_true by done. cbn [snd].
  change 0x3f with (Z.ones 6). rewrite Z.land_ones, Z.lor_comm, lor_shiftl_low by (try apply Z.mod_pos_bound; lia).
  assert (b mod 2 ^ 6 = b - 0x80) as -> by (symmetry; apply (Z.mod_unique_pos _ _ 2); lia).
  unfold u32. rewrite Z.mod_small; lia.
Qed.

Lemma inRange_spec r b : inRange r b = true <-> r.1 <= b <= r.2.
Proof. unfold inRange. rewrite andb_true_iff, !bool_decide_eq_true. tauto. Qed.

Lemma decode_state s cp b : (decode s cp b).1 = decodeState s b.
Proof. done. Qed.

(** Continuation bytes read one after the other: the state waits for fewer, the code point grows. *)
Lemma decodeAll_cont rs s cp c : live s -> rangesOf s = rs -> Forall (fun r => 0x80 <= r.1 /\ r.2 <= 0xBF) rs ->
  Forall2 inRange rs c -> 0 <= cp -> (cp + 1) * 64 ^ Z.of_nat (length rs) <= 2 ^ 26 ->
  decodeAll (s, cp) c = (UTF8_ACCEPT, foldl (fun cp b => cp * 64 + (b - 0x80)) cp c).
Proof.
  intros Hs E Hrs Hc. revert s cp Hs E Hrs. induction Hc as [|r b rs c Hr _ IH]; intros s cp Hs E Hrs Hcp Hle.
  - cbn. by rewrite (live_done s).
  - apply Forall_cons in Hrs as [Hr' Hrs]. apply Is_true_true in Hr as Hr2. pose proof Hr2 as Hr3.
    rewrite inRange_spec in Hr3.
    pose proof (decode_follow s b Hs ltac:(unfold is_byte; lia)) as D. rewrite E, Hr2 in D. destruct D as [D1 D2].
    change (decodeAll (s, cp) (b :: c)) with (decodeAll (decode s cp b) c).
    rewrite (surjective_pairing (decode s cp b)), decode_state.
    assert (s <> UTF8_ACCEPT) as Hne by (intros ->; discriminate E).
    rewrite length_cons, Nat2Z.inj_succ, Z.pow_succ_r in Hle by lia.
    assert (0 < 64 ^ Z.of_nat (length rs)) by (apply Z.pow_pos_nonneg; lia).
    rewrite decode_cont by (try done; nia). apply IH; [done..|lia|nia].
Qed.

(** The bits a lead byte contributes. *)
Definition leadValue (b : Z) : Z :=
  if bool_decide (b < 0x80) then b else if bool_decide (b < 0xE0) then b - 0xC0
  else if bool_decide (b < 0xF0) then b - 0xE0 else b - 0xF0.

Lemma decode_lead_value x b rs : is_byte b -> followRanges b = Some rs -> (decode UTF8_ACCEPT x b).2 = leadValue b.
Proof.
  intros Hb E.
  pose proof (every_byte (fun b => match followRanges b with
    | Some _ => bool_decide (Z.land (Z.shiftr 0xFF (utf8At b)) b = leadValue b) | None => true end)
    ltac:(by vm_compute) b Hb) as H.
  cbv beta in H. rewrite E in H. by apply bool_decide_eq_true in H.
Qed.

(** The code point of a character's bytes. *)
Definition charValue (c : list Z) : Z :=
  match c with [] => 0 | b :: c => foldl (fun cp b => cp * 64 + (b - 0x80)) (leadValue b) c end.

Lemma decode_char x c : utf8Char c -> decodeAll (UTF8_ACCEPT, x) c = (UTF8_ACCEPT, charValue c).
Proof.
  intros (b & cs & rs & -> & E & Hcs). destruct (followRanges_byte b rs E) as [Hb Hrs].
  change (decodeAll (UTF8_ACCEPT, x) (b :: cs)) with (decodeAll (decode UTF8_ACCEPT x b) cs).
  rewrite (surjective_pairing (decode UTF8_ACCEPT x b)), decode_state, (decode_lead_value x b rs) by done.
  pose proof (decode_lead b Hb) as D. rewrite E in D. destruct D as [D1 D2].
  assert (0 <= leadValue b /\ (leadValue b + 1) * 64 ^ Z.of_nat (length rs) <= 2 ^ 26) as [??].
  { clear - E. unfold followRanges in E. unfold leadValue.
    repeat (case_bool_decide; cbn [orb] in E); simplify_eq; cbn; lia. }
  by rewrite (decodeAll_cont rs).
Qed.

Ltac divmod := Z.div_mod_to_equations; lia.

Lemma charValue_encode c : utf8Char c -> scalar (charValue c) /\ c = encodeCodepoint (charValue c).
Proof.
  intros (b & cs & rs & -> & E & Hcs). unfold followRanges in E. unfold scalar.
  cbn [charValue]. unfold leadValue.
  repeat (case_bool_decide; cbn [orb] in E); simplify_eq; try lia;
  repeat match goal with
  | H : Forall2 _ _ _ |- _ => inversion H; subst; clear H
  | H : Is_true (inRange _ _) |- _ => apply Is_true_true, inRange_spec in H; cbn [fst snd] in H
  end; cbn [foldl];
  (split; [lia|]); rewrite encodeCodepoint_arith by lia;
  repeat (case_bool_decide; try lia); repeat (f_equal; try divmod).
Qed.

Ltac ranges :=
  unfold followRanges;
  repeat (first [rewrite (bool_decide_true (_ <= _ <= _)) by lia | rewrite (bool_decide_false (_ <= _ <= _)) by lia
                |rewrite (bool_decide_true (_ = _)) by lia | rewrite (bool_decide_false (_ = _)) by lia]; cbn [orb]);
  try reflexivity.

Ltac in_ranges := repeat (constructor; [apply Is_true_true, inRange_spec; cbn [fst snd]; lia|]); try constructor.

Lemma encodeCodepoint_char cp : scalar cp -> utf8Char (encodeCodepoint cp).
Proof.
  intros [Hcp Hs]. rewrite encodeCodepoint_arith by done.
  assert (0 <= cp mod 64 < 64 /\ 0 <= cp / 64 mod 64 < 64 /\ 0 <= cp / 4096 mod 64 < 64) as (H1 & H2 & H3)
    by (repeat split; apply Z.mod_pos_bound; lia).
  repeat case_bool_decide.
  - apply utf8Char_ascii. lia.
  - assert (2 <= cp / 64 < 32) by divmod. eexists _, _, [(0x80, 0xBF)]. split; [done|]. split; [ranges|in_ranges].
  - assert (cp / 4096 = 0 /\ 32 <= cp / 64 mod 64 \/ cp / 4096 = 13 /\ cp / 64 mod 64 < 32 \/
            1 <= cp / 4096 < 16 /\ cp / 4096 <> 13) as [[-> ?] | [[-> ?] | [? ?]]] by divmod.
    + eexists _, _, [(0xA0, 0xBF); (0x80, 0xBF)]. split; [done|]. split; [ranges|in_ranges].
    + eexists _, _, [(0x80, 0x9F); (0x80, 0xBF)]. split; [done|]. split; [ranges|in_ranges].
    + eexists _, _, [(0x80, 0xBF); (0x80, 0xBF)]. split; [done|]. split; [|in_ranges].
      unfold followRanges. repeat (case_bool_decide; cbn [orb]; try lia); done.
  - assert (cp / 262144 = 0 /\ 16 <= cp / 4096 mod 64 \/ cp / 262144 = 4 /\ cp / 4096 mod 64 < 16 \/
            1 <= cp / 262144 < 4) as [[-> ?] | [[-> ?] | ?]] by divmod.
    + eexists _, _, [(0x90, 0xBF); (0x80, 0xBF); (0x80, 0xBF)]. split; [done|]. split; [ranges|in_ranges].
    + eexists _, _, [(0x80, 0x8F); (0x80, 0xBF); (0x80, 0xBF)]. split; [done|]. split; [ranges|in_ranges].
    + eexists _, _, [(0x80, 0xBF); (0x80, 0xBF); (0x80, 0xBF)]. split; [done|]. split; [|in_ranges].
      unfold followRanges. repeat (case_bool_decide; cbn [orb]; try lia); done.
Qed.
