(* ===== verification/JsonDtoa.v ===== *)
(** Printing and reading doubles: the Grisu2 algorithm of src/libs/nlohmann/json.hpp
    ([detail::dtoa_impl], [detail::to_chars]) and the correctly rounded [strtod] of the C library.

    A double is the pair of a significand and a binary exponent, as in [JFloat]; [doubleOf] brings
    it to the form its bits have.  The 64-bit operations keep their wrap-around, and the theorems
    show that it never happens. *)

From S2P Require Import Prelude.

(** * Doubles *)

(** The exponent a double of magnitude [m * 2 ^ e] is stored with: 53 significant bits, but no
    smaller than the exponent of the denormal numbers. *)
Definition storedExponent (m e : Z) : Z := Z.max (-1074) (e + Z.log2 m - 52).

(** The stored significand and exponent of [m * 2 ^ e], for [m > 0]. *)
Definition doubleOf (m e : Z) : Z * Z :=
  let t := storedExponent m e in
  (if bool_decide (t <= e) then m * 2 ^ (e - t) else m / 2 ^ (t - e), t).

(** A pair in the form of the bits of a positive finite double. *)
Definition stored (f e : Z) : bool :=
  bool_decide (0 < f < 2 ^ 53) && bool_decide (-1074 <= e <= 971) && (bool_decide (2 ^ 52 <= f) || bool_decide (e = -1074)).

(** The exponent field [E] and the fraction field [F] of the bits. *)
Definition fieldE (f e : Z) : Z := if bool_decide (f < 2 ^ 52) then 0 else e + 1075.
Definition fieldF (f : Z) : Z := if bool_decide (f < 2 ^ 52) then f else f - 2 ^ 52.

(** * [diyfp] *)

Record diyfp := Diyfp { df : Z; de : Z }.

Definition diy_sub (x y : diyfp) : diyfp := Diyfp (u64 (df x - df y)) (de x).

Definition diy_mul (x y : diyfp) : diyfp :=
  let u_lo := Z.land (df x) 0xFFFFFFFF in
  let u_hi := Z.shiftr (df x) 32 in
  let v_lo := Z.land (df y) 0xFFFFFFFF in
  let v_hi := Z.shiftr (df y) 32 in
  let p0 := u64 (u_lo * v_lo) in
  let p1 := u64 (u_lo * v_hi) in
  let p2 := u64 (u_hi * v_lo) in
  let p3 := u64 (u_hi * v_hi) in
  let p0_hi := Z.shiftr p0 32 in
  let p1_lo := Z.land p1 0xFFFFFFFF in
  let p1_hi := Z.shiftr p1 32 in
  let p2_lo := Z.land p2 0xFFFFFFFF in
  let p2_hi := Z.shiftr p2 32 in
  let Q := u64 (p0_hi + p1_lo + p2_lo) in
  let Q := u64 (Q + Z.shiftl 1 (64 - 32 - 1)) in
  let h := u64 (p3 + p2_hi + p1_hi + Z.shiftr Q 32) in
  Diyfp h (de x + de y + 64).

(** At most 63 shifts bring a non-zero significand to its top bit. *)
Fixpoint normalizeLoop (fuel : nat) (x : diyfp) : diyfp :=
  match fuel with
  | O => x
  | S fuel => if bool_decide (Z.shiftr (df x) 63 = 0) then normalizeLoop fuel (Diyfp (u64 (Z.shiftl (df x) 1)) (de x - 1)) else x
  end.

Definition normalize (x : diyfp) : diyfp := normalizeLoop 63 x.

Definition normalize_to (x : diyfp) (target_exponent : Z) : diyfp :=
  let delta := de x - target_exponent in Diyfp (u64 (Z.shiftl (df x) delta)) target_exponent.

Record boundaries := Boundaries { bw : diyfp; bminus : diyfp; bplus : diyfp }.

(** [reinterpret_bits] yields the fields [E] and [F]. *)
Definition compute_boundaries (E F : Z) : boundaries :=
  let kPrecision := 53 in
  let kBias := 1024 - 1 + (kPrecision - 1) in
  let kMinExp := 1 - kBias in
  let kHiddenBit := Z.shiftl 1 (kPrecision - 1) in
  let is_denormal := bool_decide (E = 0) in
  let v := if is_denormal then Diyfp F kMinExp else Diyfp (F + kHiddenBit) (E - kBias) in
  let lower_boundary_is_closer := bool_decide (F = 0) && bool_decide (1 < E) in
  let m_plus := Diyfp (u64 (2 * df v + 1)) (de v - 1) in
  let m_minus := if lower_boundary_is_closer then Diyfp (u64 (4 * df v - 1)) (de v - 2)
                 else Diyfp (u64 (2 * df v - 1)) (de v - 1) in
  let w_plus := normalize m_plus in
  let w_minus := normalize_to m_minus (de w_plus) in
  Boundaries (normalize v) w_minus w_plus.

(** * Cached powers of ten *)

Definition kAlpha : Z := -60.
Definition kGamma : Z := -32.

Record cached_power := CP { cf : Z; ce : Z; ck : Z }.

Definition kCachedPowers : list cached_power := [
  CP 0xAB70FE17C79AC6CA (-1060) (-300); CP 0xFF77B1FCBEBCDC4F (-1034) (-292); CP 0xBE5691EF416BD60C (-1007) (-284);
  CP 0x8DD01FAD907FFC3C (-980) (-276); CP 0xD3515C2831559A83 (-954) (-268); CP 0x9D71AC8FADA6C9B5 (-927) (-260);
  CP 0xEA9C227723EE8BCB (-901) (-252); CP 0xAECC49914078536D (-874) (-244); CP 0x823C12795DB6CE57 (-847) (-236);
  CP 0xC21094364DFB5637 (-821) (-228); CP 0x9096EA6F3848984F (-794) (-220); CP 0xD77485CB25823AC7 (-768) (-212);
  CP 0xA086CFCD97BF97F4 (-741) (-204); CP 0xEF340A98172AACE5 (-715) (-196); CP 0xB23867FB2A35B28E (-688) (-188);
  CP 0x84C8D4DFD2C63F3B (-661) (-180); CP 0xC5DD44271AD3CDBA (-635) (-172); CP 0x936B9FCEBB25C996 (-608) (-164);
  CP 0xDBAC6C247D62A584 (-582) (-156); CP 0xA3AB66580D5FDAF6 (-555) (-148); CP 0xF3E2F893DEC3F126 (-529) (-140);
  CP 0xB5B5ADA8AAFF80B8 (-502) (-132); CP 0x87625F056C7C4A8B (-475) (-124); CP 0xC9BCFF6034C13053 (-449) (-116);
  CP 0x964E858C91BA2655 (-422) (-108); CP 0xDFF9772470297EBD (-396) (-100); CP 0xA6DFBD9FB8E5B88F (-369) (-92);
  CP 0xF8A95FCF88747D94 (-343) (-84); CP 0xB94470938FA89BCF (-316) (-76); CP 0x8A08F0F8BF0F156B (-289) (-68);
  CP 0xCDB02555653131B6 (-263) (-60); CP 0x993FE2C6D07B7FAC (-236) (-52); CP 0xE45C10C42A2B3B06 (-210) (-44);
  CP 0xAA242499697392D3 (-183) (-36); CP 0xFD87B5F28300CA0E (-157) (-28); CP 0xBCE5086492111AEB (-130) (-20);
  CP 0x8CBCCC096F5088CC (-103) (-12); CP 0xD1B71758E219652C (-77) (-4); CP 0x9C40000000000000 (-50) (4);
  CP 0xE8D4A51000000000 (-24) (12); CP 0xAD78EBC5AC620000 (3) (20); CP 0x813F3978F8940984 (30) (28);
  CP 0xC097CE7BC90715B3 (56) (36); CP 0x8F7E32CE7BEA5C70 (83) (44); CP 0xD5D238A4ABE98068 (109) (52);
  CP 0x9F4F2726179A2245 (136) (60); CP 0xED63A231D4C4FB27 (162) (68); CP 0xB0DE65388CC8ADA8 (189) (76);
  CP 0x83C7088E1AAB65DB (216) (84); CP 0xC45D1DF942711D9A (242) (92); CP 0x924D692CA61BE758 (269) (100);
  CP 0xDA01EE641A708DEA (295) (108); CP 0xA26DA3999AEF774A (322) (116); CP 0xF209787BB47D6B85 (348) (124);
  CP 0xB454E4A179DD1877 (375) (132); CP 0x865B86925B9BC5C2 (402) (140); CP 0xC83553C5C8965D3D (428) (148);
  CP 0x952AB45CFA97A0B3 (455) (156); CP 0xDE469FBD99A05FE3 (481) (164); CP 0xA59BC234DB398C25 (508) (172);
  CP 0xF6C69A72A3989F5C (534) (180); CP 0xB7DCBF5354E9BECE (561) (188); CP 0x88FCF317F22241E2 (588) (196);
  CP 0xCC20CE9BD35C78A5 (614) (204); CP 0x98165AF37B2153DF (641) (212); CP 0xE2A0B5DC971F303A (667) (220);
  CP 0xA8D9D1535CE3B396 (694) (228); CP 0xFB9B7CD9A4A7443C (720) (236); CP 0xBB764C4CA7A44410 (747) (244);
  CP 0x8BAB8EEFB6409C1A (774) (252); CP 0xD01FEF10A657842C (800) (260); CP 0x9B10A4E5E9913129 (827) (268);
  CP 0xE7109BFBA19C0C9D (853) (276); CP 0xAC2820D9623BF429 (880) (284); CP 0x80444B5E7AA7CF85 (907) (292);
  CP 0xBF21E44003ACDD2D (933) (300); CP 0x8E679C2F5E44FF8F (960) (308); CP 0xD433179D9C8CB841 (986) (316);
  CP 0x9E19DB92B4E31BA9 (1013) (324)].

Definition get_cached_power_for_binary_exponent (e : Z) : cached_power :=
  let f := kAlpha - e - 1 in
  let k := Z.quot (f * 78913) (Z.shiftl 1 18) + (if bool_decide (0 < f) then 1 else 0) in
  let index := Z.quot (300 + k + (8 - 1)) 8 in
  nth (Z.to_nat index) kCachedPowers (CP 0 0 0).

(** * Digit generation *)

(** The number of digits and the power of ten below [n]. *)
Definition find_largest_pow10 (n : Z) : Z * Z :=
  if bool_decide (1000000000 <= n) then (10, 1000000000)
  else if bool_decide (100000000 <= n) then (9, 100000000)
  else if bool_decide (10000000 <= n) then (8, 10000000)
  else if bool_decide (1000000 <= n) then (7, 1000000)
  else if bool_decide (100000 <= n) then (6, 100000)
  else if bool_decide (10000 <= n) then (5, 10000)
  else if bool_decide (1000 <= n) then (4, 1000)
  else if bool_decide (100 <= n) then (3, 100)
  else if bool_decide (10 <= n) then (2, 10)
  else (1, 1).

(** [buf[len - 1]--]. *)
Fixpoint decLast (buf : list Z) : list Z :=
  match buf with [] => [] | [d] => [d - 1] | d :: buf => d :: decLast buf end.

(** The last digit is at most nine, so nine rounds are enough. *)
Fixpoint grisu2_round (fuel : nat) (buf : list Z) (dist delta rest ten_k : Z) : list Z :=
  match fuel with
  | O => buf
  | S fuel =>
      if bool_decide (rest < dist) && bool_decide (ten_k <= u64 (delta - rest))
         && (bool_decide (u64 (rest + ten_k) < dist) || bool_decide (u64 (rest + ten_k - dist) < u64 (dist - rest)))
      then grisu2_round fuel (decLast buf) dist delta (u64 (rest + ten_k)) ten_k
      else buf
  end.

(** The first loop: the digits of the integral part; [inl] when it stopped within them. *)
Fixpoint digitGenInt (n : nat) (buffer : list Z) (dexp p1 p2 pow10 delta dist sh : Z) : (list Z * Z) + list Z :=
  match n with
  | O => inr buffer
  | S n =>
      let d := p1 / pow10 in
      let r := p1 mod pow10 in
      let buffer := buffer ++ [48 + d] in
      let rest := u64 (u64 (Z.shiftl r sh) + p2) in
      if bool_decide (rest <= delta) then
        inl (grisu2_round 9 buffer dist delta rest (u64 (Z.shiftl pow10 sh)), dexp + Z.of_nat n)
      else digitGenInt n buffer dexp r p2 (pow10 / 10) delta dist sh
  end.

(** The second loop: the digits of the fraction. *)
Fixpoint digitGenFrac (fuel : nat) (buffer : list Z) (dexp m p2 delta dist sh : Z) : list Z * Z :=
  match fuel with
  | O => (buffer, dexp - m)
  | S fuel =>
      let p2 := u64 (p2 * 10) in
      let d := Z.shiftr p2 sh in
      let r := Z.land p2 (Z.shiftl 1 sh - 1) in
      let buffer := buffer ++ [48 + d] in
      let m := m + 1 in
      let delta := u64 (delta * 10) in
      let dist := u64 (dist * 10) in
      if bool_decide (r <= delta) then (grisu2_round 9 buffer dist delta r (Z.shiftl 1 sh), dexp - m)
      else digitGenFrac fuel buffer dexp m r delta dist sh
  end.

(** Twenty digits exhaust a fraction of at most sixty bits. *)
Definition grisu2_digit_gen (dexp : Z) (M_minus w M_plus : diyfp) : list Z * Z :=
  let delta := df (diy_sub M_plus M_minus) in
  let dist := df (diy_sub M_plus w) in
  let sh := - de M_plus in
  let one := Z.shiftl 1 sh in
  let p1 := u32 (Z.shiftr (df M_plus) sh) in
  let p2 := Z.land (df M_plus) (one - 1) in
  let '(k, pow10) := find_largest_pow10 p1 in
  match digitGenInt (Z.to_nat k) [] dexp p1 p2 pow10 delta dist sh with
  | inl r => r
  | inr buffer => digitGenFrac 20 buffer dexp 0 p2 delta dist sh
  end.

Definition grisu2 (b : boundaries) : list Z * Z :=
  let cached := get_cached_power_for_binary_exponent (de (bplus b)) in
  let c_minus_k := Diyfp (cf cached) (ce cached) in
  let w := diy_mul (bw b) c_minus_k in
  let w_minus := diy_mul (bminus b) c_minus_k in
  let w_plus := diy_mul (bplus b) c_minus_k in
  let M_minus := Diyfp (u64 (df w_minus + 1)) (de w_minus) in
  let M_plus := Diyfp (u64 (df w_plus - 1)) (de w_plus) in
  grisu2_digit_gen (- ck cached) M_minus w M_plus.

(** * Formatting *)

Definition append_exponent (e : Z) : list Z :=
  let k := Z.abs e in
  (if bool_decide (e < 0) then 45 else 43) ::
  (if bool_decide (k < 10) then [48; 48 + k]
   else if bool_decide (k < 100) then [48 + k / 10; 48 + k mod 10]
   else [48 + k / 100; 48 + k mod 100 / 10; 48 + k mod 10]).

Definition zeros (n : Z) : list Z := replicate (Z.to_nat n) 48.

Definition format_buffer (buf : list Z) (decimal_exponent min_exp max_exp : Z) : list Z :=
  let k := Z.of_nat (length buf) in
  let n := k + decimal_exponent in
  if bool_decide (k <= n <= max_exp) then buf ++ zeros (n - k) ++ [46; 48]
  else if bool_decide (0 < n <= max_exp) then take (Z.to_nat n) buf ++ [46] ++ drop (Z.to_nat n) buf
  else if bool_decide (min_exp < n <= 0) then [48; 46] ++ zeros (- n) ++ buf
  else (if bool_decide (k = 1) then buf else take 1 buf ++ [46] ++ drop 1 buf) ++ [101] ++ append_exponent (n - 1).

(** The text of the double [m * 2 ^ e]; a zero has no sign here. *)
Definition to_chars (m e : Z) : list Z :=
  let sign := if bool_decide (m < 0) then [45] else [] in
  if bool_decide (m = 0) then [48; 46; 48]
  else
    let '(f, t) := doubleOf (Z.abs m) e in
    let '(buf, dexp) := grisu2 (compute_boundaries (fieldE f t) (fieldF f)) in
    sign ++ format_buffer buf dexp (-4) 15.

(** * Reading a double *)

Definition isDigit (b : Z) : bool := bool_decide (48 <= b <= 57).

(** The digits at the front of a text: their value after [acc], how many, and the rest. *)
Fixpoint readDigits (l : list Z) (acc : Z) (n : Z) : Z * Z * list Z :=
  match l with
  | b :: l' => if isDigit b then readDigits l' (acc * 10 + (b - 48)) (n + 1) else (acc, n, l)
  | [] => (acc, n, [])
  end.

Definition readSign (l : list Z) : bool * list Z :=
  match l with
  | b :: l' => if bool_decide (b = 45) then (true, l') else if bool_decide (b = 43) then (false, l') else (false, l)
  | [] => (false, [])
  end.

(** A decimal text as sign, digits and power of ten. *)
Definition readDecimal (l : list Z) : bool * Z * Z :=
  let '(neg, l) := readSign l in
  let '(i, _, l) := readDigits l 0 0 in
  let '(d, nf, l) := match l with
                     | b :: l' => if bool_decide (b = 46) then readDigits l' i 0 else (i, 0, l)
                     | [] => (i, 0, [])
                     end in
  match l with
  | b :: l' =>
      if bool_decide (b = 101) || bool_decide (b = 69) then
        let '(eneg, l') := readSign l' in
        let '(x, _, _) := readDigits l' 0 0 in
        (neg, d, (if eneg then - x else x) - nf)
      else (neg, d, - nf)
  | [] => (neg, d, - nf)
  end.

(** [floor (log2 (num / den))]. *)
Definition ratioLog2 (num den : Z) : Z :=
  let l := Z.log2 num - Z.log2 den in
  if bool_decide (num * 2 ^ Z.max 0 (- l) < den * 2 ^ Z.max 0 l) then l - 1 else l.

(** The double nearest to [num / den], ties to even; [None] is infinity. *)
Definition roundDouble (num den : Z) : option (Z * Z) :=
  if bool_decide (num = 0) then Some (0, 0)
  else
    let t := Z.max (-1074) (ratioLog2 num den - 52) in
    let a := num * 2 ^ Z.max 0 (- t) in
    let b := den * 2 ^ Z.max 0 t in
    let q := a / b in
    let r := a mod b in
    let q := if bool_decide (2 * r < b) || (bool_decide (2 * r = b) && Z.even q) then q else q + 1 in
    if bool_decide (q = 0) then Some (0, 0)
    else let '(f, e) := doubleOf q t in if bool_decide (e <= 971) then Some (f, e) else None.

(** [std::strtod] on a text that is a JSON number. *)
Definition strtod (l : list Z) : option (Z * Z) :=
  let '(neg, d, p) := readDecimal l in
  match roundDouble (d * 10 ^ Z.max 0 p) (10 ^ Z.max 0 (- p)) with
  | Some (f, e) => Some (if neg then - f else f, e)
  | None => None
  end.

(** The one pair [strtod] uses for the double [m * 2 ^ e]. *)
Definition canonFloat (m e : Z) : Z * Z :=
  if bool_decide (m = 0) then (0, 0)
  else let '(f, t) := doubleOf (Z.abs m) e in (if bool_decide (m < 0) then - f else f, t).

(** The pairs whose value is a finite double. *)
Definition isDouble (m e : Z) : bool :=
  bool_decide (m = 0) ||
  (let '(f, t) := doubleOf (Z.abs m) e in
   bool_decide (t <= 971) && (bool_decide (t <= e) || bool_decide (Z.abs m mod 2 ^ (t - e) = 0))).
