(* ===== verification/JsonDtoaProps.v ===== *)
(** Grisu2 is correct: the digits it prints of a double read back as that double.

    The 64-bit arithmetic never wraps; the cached powers of ten are within half a unit of the
    powers they stand for; the generated decimal lies strictly between the midpoints to the
    neighbouring doubles; and correct rounding of any decimal strictly between them yields the
    double.  Inequalities between decimal and binary powers are stated over the real numbers. *)

From S2P Require Import Prelude Bytes JsonDtoa.

(** * [diyfp] arithmetic *)

Lemma u64_small z : 0 <= z < 2 ^ 64 -> u64 z = z.
Proof. apply u64_id. Qed.

Lemma land_mask z n : 0 <= n -> Z.land z (2 ^ n - 1) = z mod 2 ^ n.
Proof. intros Hn. rewrite <- Z.land_ones by done. by rewrite Z.ones_equiv, Z.sub_1_r. Qed.

(** The product rounded to its upper 64 bits. *)
Lemma diy_mul_spec x y : 0 <= df x < 2 ^ 64 -> 0 <= df y < 2 ^ 64 ->
  df (diy_mul x y) = (df x * df y + 2 ^ 63) / 2 ^ 64 /\ de (diy_mul x y) = de x + de y + 64.
Proof.
  intros Hx Hy. split; [|done]. unfold diy_mul. cbn [df].
  rewrite !(land_mask _ 32), !Z.shiftr_div_pow2 by lia.
  change (Z.shiftl 1 (64 - 32 - 1)) with (2 ^ 31).
  set (X := df x) in *. set (Y := df y) in *.
  pose proof (Z.div_mod X (2 ^ 32) ltac:(lia)) as EX. pose proof (Z.mod_pos_bound X (2 ^ 32) ltac:(lia)) as BX.
  pose proof (Z.div_mod Y (2 ^ 32) ltac:(lia)) as EY. pose proof (Z.mod_pos_bound Y (2 ^ 32) ltac:(lia)) as BY.
  set (a := X mod 2 ^ 32) in *. set (b := X / 2 ^ 32) in *. set (c := Y mod 2 ^ 32) in *. set (d := Y / 2 ^ 32) in *.
  assert (0 <= b < 2 ^ 32) as Bb by lia. assert (0 <= d < 2 ^ 32) as Bd by lia.
  assert (forall u v, 0 <= u < 2 ^ 32 -> 0 <= v < 2 ^ 32 -> 0 <= u * v <= (2 ^ 32 - 1) * (2 ^ 32 - 1)) as Hm by (intros; nia).
  pose proof (Hm a c BX BY). pose proof (Hm a d BX Bd). pose proof (Hm b c Bb BY). pose proof (Hm b d Bb Bd).
  rewrite (u64_small (a * c)), (u64_small (a * d)), (u64_small (b * c)), (u64_small (b * d)) by lia.
  pose proof (Z.div_mod (a * c) (2 ^ 32) ltac:(lia)) as E0. pose proof (Z.mod_pos_bound (a * c) (2 ^ 32) ltac:(lia)) as B0.
  pose proof (Z.div_mod (a * d) (2 ^ 32) ltac:(lia)) as E1. pose proof (Z.mod_pos_bound (a * d) (2 ^ 32) ltac:(lia)) as B1.
  pose proof (Z.div_mod (b * c) (2 ^ 32) ltac:(lia)) as E2. pose proof (Z.mod_pos_bound (b * c) (2 ^ 32) ltac:(lia)) as B2.
  set (p0l := (a * c) mod 2 ^ 32) in *. set (p0h := a * c / 2 ^ 32) in *.
  set (p1l := (a * d) mod 2 ^ 32) in *. set (p1h := a * d / 2 ^ 32) in *.
  set (p2l := (b * c) mod 2 ^ 32) in *. set (p2h := b * c / 2 ^ 32) in *.
  rewrite (u64_small (p0h + p1l + p2l)) by lia. rewrite (u64_small (p0h + p1l + p2l + 2 ^ 31)) by lia.
  set (Q := p0h + p1l + p2l + 2 ^ 31) in *.
  pose proof (Z.div_mod Q (2 ^ 32) ltac:(lia)) as EQ. pose proof (Z.mod_pos_bound Q (2 ^ 32) ltac:(lia)) as BQ.
  assert (X * Y + 2 ^ 63 = (b * d + p2h + p1h + Q / 2 ^ 32) * 2 ^ 64 + (Q mod 2 ^ 32 * 2 ^ 32 + p0l)) as EXY.
  { rewrite EX, EY. unfold Q in *. nia. }
  assert ((X * Y + 2 ^ 63) / 2 ^ 64 = b * d + p2h + p1h + Q / 2 ^ 32) as ->.
  { symmetry. apply (Z.div_unique_pos _ _ _ (Q mod 2 ^ 32 * 2 ^ 32 + p0l)); [lia|]. lia. }
  apply u64_small. lia.
Qed.

Lemma normalizeLoop_spec fuel x : 0 < df x -> 2 ^ 64 <= df x * 2 ^ Z.of_nat (S fuel) -> df x < 2 ^ 64 ->
  exists s, 0 <= s /\ df (normalizeLoop fuel x) = df x * 2 ^ s /\ de (normalizeLoop fuel x) = de x - s /\
            2 ^ 63 <= df (normalizeLoop fuel x) < 2 ^ 64.
Proof.
  revert x. induction fuel as [|fuel IH]; intros x Hx Hf Hlt.
  - exists 0. cbn in *. rewrite Z.pow_0_r. repeat split; lia.
  - cbn [normalizeLoop]. rewrite Z.shiftr_div_pow2 by lia. case_bool_decide as H.
    + assert (df x < 2 ^ 63) as Hs by (apply Z.div_small_iff in H; lia).
      assert (u64 (Z.shiftl (df x) 1) = df x * 2) as E.
      { rewrite Z.shiftl_mul_pow2 by lia. rewrite u64_small; lia. }
      edestruct (IH (Diyfp (u64 (Z.shiftl (df x) 1)) (de x - 1))) as (s & Hs0 & H1 & H2 & H3);
        cbn [df de]; [lia| |lia|].
      { rewrite E. rewrite Nat2Z.inj_succ, Z.pow_succ_r in Hf by lia. lia. }
      exists (s + 1). cbn [df de] in H1, H2. rewrite H1, H2, E in *. rewrite Z.pow_add_r, Z.pow_1_r by lia.
      repeat split; try lia; ring.
    + exists 0. rewrite Z.pow_0_r. assert (~ df x < 2 ^ 63) by (intros ?; apply H, Z.div_small; lia). lia.
Qed.

Lemma normalize_spec x : 0 < df x < 2 ^ 64 ->
  exists s, 0 <= s /\ df (normalize x) = df x * 2 ^ s /\ de (normalize x) = de x - s /\ 2 ^ 63 <= df (normalize x) < 2 ^ 64.
Proof. intros Hx. apply normalizeLoop_spec; [lia| |lia]. change (2 ^ Z.of_nat 64) with (2 ^ 64). lia. Qed.

(** Normalisation by a given amount. *)
Lemma normalize_at x s : 0 < df x -> 0 <= s -> 2 ^ 63 <= df x * 2 ^ s < 2 ^ 64 -> normalize x = Diyfp (df x * 2 ^ s) (de x - s).
Proof.
  intros Hx Hs H. destruct (normalize_spec x) as (s' & Hs' & E1 & E2 & Hr).
  { split; [done|]. assert (1 <= 2 ^ s) by (apply Z.lt_pred_le, Z.pow_pos_nonneg; lia). nia. }
  assert (s' = s) as ->.
  { rewrite E1 in Hr. destruct (Z.lt_trichotomy s s') as [L | [-> | L]]; [|done|].
    - assert (2 ^ s' = 2 ^ s * 2 ^ (s' - s)) as E by (rewrite <- Z.pow_add_r by lia; f_equal; lia).
      assert (2 <= 2 ^ (s' - s)) by (change 2 with (2 ^ 1) at 1; apply Z.pow_le_mono_r; lia). nia.
    - assert (2 ^ s = 2 ^ s' * 2 ^ (s - s')) as E by (rewrite <- Z.pow_add_r by lia; f_equal; lia).
      assert (2 <= 2 ^ (s - s')) by (change 2 with (2 ^ 1) at 1; apply Z.pow_le_mono_r; lia). nia. }
  destruct (normalize x). cbn in *. by subst.
Qed.

(** * The boundaries of a double *)

(** Whether the predecessor is nearer than the successor. *)
Definition closer (f e : Z) : bool := bool_decide (f = 2 ^ 52) && bool_decide (-1074 < e).

Lemma stored_spec f e : stored f e = true <->
  0 < f < 2 ^ 53 /\ -1074 <= e <= 971 /\ (2 ^ 52 <= f \/ e = -1074).
Proof. unfold stored. rewrite !andb_true_iff, orb_true_iff, !bool_decide_eq_true. tauto. Qed.

Lemma log2_scaled f s : 0 < f -> Z.log2 f + s = 63 -> 0 <= s -> 2 ^ 63 <= f * 2 ^ s < 2 ^ 64.
Proof.
  intros Hf E Hs. pose proof (Z.log2_spec f Hf) as [L U]. pose proof (Z.log2_nonneg f).
  assert (2 ^ 63 = 2 ^ Z.log2 f * 2 ^ s) as -> by (rewrite <- Z.pow_add_r by lia; f_equal; lia).
  assert (2 ^ 64 = 2 ^ Z.succ (Z.log2 f) * 2 ^ s) as -> by (rewrite <- Z.pow_add_r by lia; f_equal; lia).
  assert (0 < 2 ^ s) by (apply Z.pow_pos_nonneg; lia). nia.
Qed.

(** [compute_boundaries] with the decoded value and the choice of the lower boundary given. *)
Lemma compute_boundaries_of E F v c :
  (if bool_decide (E = 0) then Diyfp F (-1074) else Diyfp (F + 2 ^ 52) (E - 1075)) = v ->
  bool_decide (F = 0) && bool_decide (1 < E) = c ->
  compute_boundaries E F =
    let w_plus := normalize (Diyfp (u64 (2 * df v + 1)) (de v - 1)) in
    Boundaries (normalize v)
      (normalize_to (if c then Diyfp (u64 (4 * df v - 1)) (de v - 2) else Diyfp (u64 (2 * df v - 1)) (de v - 1)) (de w_plus)) w_plus.
Proof. by intros <- <-. Qed.

(** The boundaries share the exponent of the normalised successor midpoint. *)
Lemma boundaries_spec f e : stored f e = true ->
  exists s, 10 <= s <= 62 /\ 2 ^ 63 <= 2 * f * 2 ^ s /\ (2 * f + 1) * 2 ^ s < 2 ^ 64 /\
  compute_boundaries (fieldE f e) (fieldF f) =
    Boundaries (Diyfp (2 * f * 2 ^ s) (e - 1 - s))
               (Diyfp (if closer f e then (4 * f - 1) * 2 ^ (s - 1) else (2 * f - 1) * 2 ^ s) (e - 1 - s))
               (Diyfp ((2 * f + 1) * 2 ^ s) (e - 1 - s)).
Proof.
  intros (Hf & He & Hn)%stored_spec.
  assert (Z.log2 f <= 52) as L1 by (apply Z.lt_succ_r; apply Z.log2_lt_pow2; lia).
  pose proof (Z.log2_nonneg f) as L0.
  set (s := 62 - Z.log2 f).
  assert (2 ^ 63 <= (2 * f + 1) * 2 ^ s < 2 ^ 64) as B1.
  { apply log2_scaled; [lia| |lia]. rewrite Z.log2_succ_double by lia. lia. }
  assert (2 ^ 63 <= f * 2 ^ (s + 1) < 2 ^ 64) as B2 by (apply log2_scaled; lia).
  assert (2 ^ (s + 1) = 2 * 2 ^ s) as E2 by (rewrite Z.pow_add_r by lia; lia).
  exists s. split; [lia|]. split; [lia|]. split; [lia|].
  rewrite (compute_boundaries_of _ _ (Diyfp f e) (closer f e)); unfold fieldE, fieldF.
  2: { destruct (decide (f < 2 ^ 52)).
       - rewrite !(bool_decide_true (f < 2 ^ 52)) by done. rewrite bool_decide_true by done. f_equal; lia.
       - rewrite !(bool_decide_false (f < 2 ^ 52)) by done. rewrite bool_decide_false by lia. f_equal; lia. }
  2: { unfold closer. destruct (decide (f < 2 ^ 52)).
       - rewrite !(bool_decide_true (f < 2 ^ 52)) by done.
         rewrite (bool_decide_false (f = 0)), (bool_decide_false (f = 2 ^ 52)) by lia. done.
       - rewrite !(bool_decide_false (f < 2 ^ 52)) by done. f_equal; apply bool_decide_ext; lia. }
  cbn [df de]. rewrite (u64_small (2 * f + 1)), (u64_small (4 * f - 1)), (u64_small (2 * f - 1)) by lia.
  rewrite (normalize_at (Diyfp (2 * f + 1) (e - 1)) s) by (cbn [df]; lia).
  rewrite (normalize_at (Diyfp f e) (s + 1)) by (cbn [df]; lia).
  unfold normalize_to. cbn [df de]. f_equal.
  - f_equal; [rewrite E2; ring|lia].
  - destruct (closer f e) eqn:Ec; cbn [df de]; f_equal.
    + replace (e - 2 - (e - 1 - s)) with (s - 1) by lia. rewrite Z.shiftl_mul_pow2 by lia. apply u64_small.
      assert (2 ^ s = 2 * 2 ^ (s - 1)) by (rewrite <- Z.pow_succ_r by lia; f_equal; lia). nia.
    + replace (e - 1 - (e - 1 - s)) with s by lia. rewrite Z.shiftl_mul_pow2 by lia. apply u64_small. nia.
Qed.

(** * The cached powers *)

(** [cf * 2 ^ ce] is within half a unit of [10 ^ ck], and normalised. *)
Definition powerClose (c : cached_power) : bool :=
  let two_pos := 2 ^ Z.max 0 (ce c) in
  let two_neg := 2 ^ Z.max 0 (- ce c) in
  let ten_pos := 10 ^ Z.max 0 (ck c) in
  let ten_neg := 10 ^ Z.max 0 (- ck c) in
  bool_decide (Z.abs (2 * cf c * two_pos * ten_neg - 2 * ten_pos * two_neg) <= two_pos * ten_neg) &&
  bool_decide (2 ^ 63 <= cf c < 2 ^ 64).

Lemma kCachedPowers_close : Forall (fun c => powerClose c = true) kCachedPowers.
Proof. apply (bool_decide_unpack _). by vm_compute. Qed.

Lemma cached_power_checked :
  forallb (fun e => let c := get_cached_power_for_binary_exponent e in
    bool_decide (kAlpha <= ce c + e + 64 <= kGamma /\ -300 <= ck c <= 324) && bool_decide (cf c <> 0)) (seqZ (-1137) 2098) = true.
Proof. by vm_compute. Qed.

Lemma cached_power_spec e : -1137 <= e <= 960 ->
  let c := get_cached_power_for_binary_exponent e in
  (kAlpha <= ce c + e + 64 <= kGamma /\ -300 <= ck c <= 324) /\ powerClose c = true.
Proof.
  intros He. pose proof cached_power_checked as H. rewrite forallb_forall in H.
  specialize (H e ltac:(apply list_elem_of_In, elem_of_seqZ; lia)). cbv zeta in *.
  rewrite andb_true_iff, !bool_decide_eq_true in H. destruct H as [H1 H2]. split; [exact H1|].
  unfold get_cached_power_for_binary_exponent in *. cbv zeta in *.
  match goal with |- context [nth ?i _ _] => destruct (nth_in_or_default i kCachedPowers (CP 0 0 0)) as [Hin|Hd] end; [|by rewrite Hd in H2].
  apply (proj1 (Forall_forall _ kCachedPowers) kCachedPowers_close). by apply list_elem_of_In.
Qed.

(** * Digit generation *)

Definition digitsValue (buf : list Z) : Z := foldl (fun a d => a * 10 + (d - 48)) 0 buf.

Lemma digitsValue_snoc buf d : digitsValue (buf ++ [d]) = digitsValue buf * 10 + (d - 48).
Proof. unfold digitsValue. by rewrite foldl_app. Qed.

Lemma decLast_snoc buf d : decLast (buf ++ [d]) = buf ++ [d - 1].
Proof.
  induction buf as [|x buf IH]; [done|]. cbn [app decLast]. rewrite IH. by destruct buf.
Qed.

(** The loop of [grisu2_round] has nothing more to do. *)
Definition roundDone (dist delta rest ten_k : Z) : Prop :=
  ~ (rest < dist /\ ten_k <= delta - rest /\ (rest + ten_k < dist \/ rest + ten_k - dist < dist - rest)).

(** The last digit is lowered a number of times less than its value, which never takes the
    decimal below the lower bound. *)
Lemma grisu2_round_spec fuel b x dist delta rest ten_k :
  0 <= rest <= delta -> 0 <= dist -> delta < 2 ^ 64 -> 0 < ten_k -> dist < 2 ^ 64 ->
  delta < rest + (x - 48) * ten_k -> x - 48 <= Z.of_nat fuel ->
  exists j, 0 <= j < x - 48 /\ rest + j * ten_k <= delta /\
    grisu2_round fuel (b ++ [x]) dist delta rest ten_k = b ++ [x - j] /\
    roundDone dist delta (rest + j * ten_k) ten_k.
Proof.
  revert x rest. induction fuel as [|fuel IH]; intros x rest Hr Hd0 Hd Ht Hdi Hlt Hf; [nia|].
  cbn [grisu2_round]. rewrite (u64_small (delta - rest)) by lia.
  destruct (decide (rest < dist /\ ten_k <= delta - rest)) as [[C1 C2]|C].
  - rewrite (bool_decide_true (rest < dist)), (bool_decide_true (ten_k <= _)) by done. cbn [andb].
    rewrite (u64_small (rest + ten_k)), (u64_small (dist - rest)) by lia.
    match goal with |- context [if ?c then _ else _] => destruct c eqn:C3 end.
    + rewrite decLast_snoc. destruct (IH (x - 1) (rest + ten_k)) as (j & Hj & H1 & H2 & H3); [nia..|].
      exists (j + 1). rewrite H2. replace (rest + (j + 1) * ten_k) with (rest + ten_k + j * ten_k) by lia.
      repeat split; try nia; [do 2 f_equal; lia|exact H3].
    + exists 0. rewrite Z.sub_0_r, Z.mul_0_l, Z.add_0_r. repeat split; try nia.
      intros (_ & _ & H). apply orb_false_iff in C3 as [C3 C4]. rewrite bool_decide_eq_false in C3, C4.
      destruct H as [H|H]; [lia|]. rewrite u64_small in C4 by lia. lia.
  - exists 0. rewrite Z.sub_0_r, Z.mul_0_l, Z.add_0_r. repeat split; try nia.
    + destruct (decide (rest < dist)); [rewrite (bool_decide_false (ten_k <= _)) by tauto|rewrite (bool_decide_false (rest < dist)) by tauto];
      by rewrite ?andb_false_r.
    + intros (? & ? & _). tauto.
Qed.

(** A non-empty list of decimal digits without leading zero. *)
Definition decimalDigits (buf : list Z) : Prop :=
  Forall (fun d => 48 <= d <= 57) buf /\ exists d l, buf = d :: l /\ 49 <= d.

Lemma decimalDigits_snoc buf d : decimalDigits buf -> 48 <= d <= 57 -> decimalDigits (buf ++ [d]).
Proof.
  intros (Hb & x & l & -> & Hx) Hd. split; [apply Forall_app; auto|]. by exists x, (l ++ [d]).
Qed.

(** Lowering the last digit, short of zero. *)
Lemma decimalDigits_lower buf d j : decimalDigits (buf ++ [d]) -> 0 <= j < d - 48 -> decimalDigits (buf ++ [d - j]).
Proof.
  intros ([Hb Hd]%Forall_app & x & l & E & Hx) Hj. apply Forall_cons in Hd as [Hd _]. split.
  - apply Forall_app. split; [done|]. constructor; [lia|done].
  - destruct buf as [|y buf]; cbn in E; simplify_eq; [by exists (x - j), []; split; [done|lia]|].
    by exists x, (buf ++ [d - j]).
Qed.

(** What the digits generated so far must satisfy before the next one. *)
Definition pendingDigits (B : list Z) (more : Prop) : Prop := B = [] /\ more \/ decimalDigits B.

Lemma pending_snoc B d (more : Prop) : pendingDigits B more -> (more -> 1 <= d) -> 0 <= d <= 9 -> decimalDigits (B ++ [48 + d]).
Proof.
  intros [[-> Hm] | HB] H Hd; [|apply decimalDigits_snoc; [done|lia]].
  apply H in Hm. split; [repeat constructor; lia|]. exists (48 + d), []. split; [done|lia].
Qed.

(** The digits of the integral part: either the loop stops with a decimal between the bounds, or
    they are all written and the fraction is left. *)
Lemma digitGenInt_spec n B dexp p1 p2 pow10 delta dist sh Mp :
  0 <= sh -> Mp = (digitsValue B * 10 ^ Z.of_nat n + p1) * 2 ^ sh + p2 -> 0 <= digitsValue B -> Mp < 2 ^ 64 ->
  0 <= p1 < 10 ^ Z.of_nat n -> 0 <= p2 < 2 ^ sh -> 0 <= delta -> delta < p1 * 2 ^ sh + p2 ->
  0 <= dist < 2 ^ 64 -> (n <> 0%nat -> pow10 = 10 ^ (Z.of_nat n - 1)) -> pow10 * 2 ^ sh < 2 ^ 64 ->
  pendingDigits B (n <> 0%nat /\ pow10 <= p1) ->
  match digitGenInt n B dexp p1 p2 pow10 delta dist sh with
  | inl (buf, x) => exists k, x = dexp + Z.of_nat k /\ (k < n)%nat /\ decimalDigits buf /\ (length buf <= length B + n)%nat /\
      Mp - delta <= digitsValue buf * 10 ^ Z.of_nat k * 2 ^ sh <= Mp
  | inr buf => Mp = digitsValue buf * 2 ^ sh + p2 /\ delta < p2 /\ decimalDigits buf /\ (length buf <= length B + n)%nat /\
      0 <= digitsValue buf
  end.
Proof.
  intros Hsh. revert B p1 pow10. induction n as [|n IH]; intros B p1 pow10 EM HB HM Hp1 Hp2 Hd Hdel Hdi Hpow Hpw HP.
  - cbn. change (10 ^ Z.of_nat 0) with 1 in *. assert (p1 = 0) as -> by lia.
    destruct HP as [[-> [? _]] | HP]; [done|]. split; [lia|]. split; [lia|]. split; [done|]. lia.
  - cbn [digitGenInt].
    assert (pow10 = 10 ^ Z.of_nat n) as -> by (rewrite Hpow by done; f_equal; lia).
    rewrite Nat2Z.inj_succ, Z.pow_succ_r in * by lia.
    assert (0 < 10 ^ Z.of_nat n) as H10 by (apply Z.pow_pos_nonneg; lia).
    assert (0 < 2 ^ sh) as H2 by (apply Z.pow_pos_nonneg; lia).
    set (P := 10 ^ Z.of_nat n) in *. set (T := 2 ^ sh) in *.
    pose proof (Z.div_mod p1 P ltac:(lia)) as Edm. pose proof (Z.mod_pos_bound p1 P H10) as Bm.
    set (d := p1 / P) in *. set (r := p1 mod P) in *.
    assert (0 <= d <= 9) as Hd9 by nia.
    assert (decimalDigits (B ++ [48 + d])) as HB'.
    { eapply pending_snoc; [exact HP| |done]. cbv beta. intros [_ ?]. nia. }
    rewrite !Z.shiftl_mul_pow2 by lia. fold T.
    rewrite (u64_small (r * T)), (u64_small (r * T + p2)), (u64_small (P * T)) by nia.
    case_bool_decide as Hstop.
    + destruct (grisu2_round_spec 9 B (48 + d) dist delta (r * T + p2) (P * T)) as (j & Hj & H1 & H2' & _); [nia..|].
      rewrite H2'. exists n. split; [done|]. split; [lia|].
      split; [by apply decimalDigits_lower|]. split; [rewrite length_app; cbn; lia|].
      rewrite digitsValue_snoc. fold P. fold T. nia.
    + assert (P <> 0) by lia.
      specialize (IH (B ++ [48 + d]) r (P / 10)). rewrite digitsValue_snoc, length_app in IH.
      replace (length B + S n)%nat with (length B + length [(48 + d)%Z] + n)%nat by (cbn; lia).
      assert (n <> 0%nat -> P / 10 = 10 ^ (Z.of_nat n - 1)) as HPn.
      { intros Hn. unfold P. replace (Z.of_nat n) with (Z.succ (Z.of_nat n - 1)) at 1 by lia.
        rewrite Z.pow_succ_r, Z.mul_comm by lia. apply Z.div_mul. lia. }
      assert (P / 10 <= P) by (apply Z.div_le_upper_bound; lia).
      match type of IH with _ -> _ -> _ -> _ -> _ -> _ -> _ -> _ -> _ -> _ -> _ -> ?G => assert G as R end.
      { assert ((digitsValue B * 10 + (48 + d - 48)) * P + r = digitsValue B * (10 * P) + p1) as E by lia.
        apply IH; [by rewrite E|lia|done|done|done|done|lia|done|done| |by right].
        apply (Z.le_lt_trans _ (P * T)); [apply Z.mul_le_mono_nonneg_r; lia|done]. }
      destruct (digitGenInt n (B ++ [48 + d]) dexp r p2 (P / 10) delta dist sh) as [[buf x]|buf].
      * destruct R as (k & ? & ? & R). exists k. split; [done|]. split; [lia|done].
      * done.
Qed.

(** The digits of the fraction: the loop stops, with a decimal between the bounds. *)
Lemma digitGenFrac_spec fuel B dexp m p2 delta dist sh Mp delta0 :
  0 <= sh <= 60 -> 0 <= m -> Mp * 10 ^ m = digitsValue B * 2 ^ sh + p2 -> delta = delta0 * 10 ^ m ->
  0 <= delta < p2 -> p2 < 2 ^ sh -> 2 ^ sh <= delta * 10 ^ Z.of_nat fuel -> 0 <= dist <= delta -> decimalDigits B ->
  exists k buf, digitGenFrac fuel B dexp m p2 delta dist sh = (buf, dexp - k) /\ m < k <= m + Z.of_nat fuel /\ decimalDigits buf /\
    Z.of_nat (length buf) <= Z.of_nat (length B) + Z.of_nat fuel /\ (Mp - delta0) * 10 ^ k <= digitsValue buf * 2 ^ sh <= Mp * 10 ^ k.
Proof.
  intros Hsh. revert B m p2 delta dist. induction fuel as [|fuel IH]; intros B m p2 delta dist Hm EM Ed Hd Hp2 Hf Hdi HB.
  { change (10 ^ Z.of_nat 0) with 1 in Hf. lia. }
  assert (0 < 2 ^ sh <= 2 ^ 60) as HT by (split; [apply Z.pow_pos_nonneg|apply Z.pow_le_mono_r]; lia).
  cbn [digitGenFrac].
  rewrite !Z.shiftl_1_l, land_mask, Z.shiftr_div_pow2 by lia.
  set (T := 2 ^ sh) in *.
  rewrite (u64_small (p2 * 10)), (u64_small (delta * 10)), (u64_small (dist * 10)) by lia.
  pose proof (Z.div_mod (p2 * 10) T ltac:(lia)) as Edm. pose proof (Z.mod_pos_bound (p2 * 10) T ltac:(lia)) as Bm.
  set (d := p2 * 10 / T) in *. set (r := (p2 * 10) mod T) in *.
  assert (0 <= d <= 9) as Hd9 by nia.
  assert (decimalDigits (B ++ [48 + d])) as HB' by (apply decimalDigits_snoc; [done|lia]).
  assert (10 ^ (m + 1) = 10 ^ m * 10) as E10 by (rewrite Z.pow_add_r by lia; lia).
  assert (Mp * 10 ^ (m + 1) = (digitsValue B * 10 + d) * T + r) as EM' by (rewrite E10; lia).
  assert (delta * 10 = delta0 * 10 ^ (m + 1)) as Ed' by (rewrite E10; lia).
  case_bool_decide as Hstop.
  - destruct (grisu2_round_spec 9 B (48 + d) (dist * 10) (delta * 10) r T) as (j & Hj & H1 & H2 & _); [lia..|].
    exists (m + 1), (B ++ [48 + d - j]). rewrite H2. split; [done|]. split; [lia|].
    split; [by apply decimalDigits_lower|]. split; [rewrite length_app; cbn; lia|].
    rewrite digitsValue_snoc. rewrite Z.mul_sub_distr_r. rewrite <- Ed', EM'.
    replace ((digitsValue B * 10 + (48 + d - j - 48)) * T) with ((digitsValue B * 10 + d) * T - j * T) by ring. lia.
  - rewrite Nat2Z.inj_succ, Z.pow_succ_r in Hf by lia.
    destruct (IH (B ++ [48 + d]) (m + 1) r (delta * 10) (dist * 10)) as (k & buf & E & Hk & Hb & Hl & HV).
    + lia.
    + rewrite digitsValue_snoc, EM'. f_equal. f_equal. lia.
    + done.
    + lia.
    + lia.
    + lia.
    + lia.
    + done.
    + exists k, buf. rewrite length_app in Hl. cbn in Hl. split; [done|]. split; [lia|]. split; [done|]. split; [lia|done].
Qed.

Lemma find_largest_pow10_spec n : 0 < n < 2 ^ 32 ->
  exists k, find_largest_pow10 n = (Z.of_nat (S k), 10 ^ Z.of_nat k) /\ (k < 10)%nat /\ 10 ^ Z.of_nat k <= n < 10 ^ Z.of_nat (S k).
Proof.
  intros Hn. unfold find_largest_pow10.
  repeat (case_bool_decide; [match goal with |- exists k, (?d, _) = _ /\ _ =>
    let n := eval vm_compute in (Z.to_nat (d - 1)) in exists n end; split; [done|]; split; [lia|]; cbn; lia|]).
  exists 0%nat. split; [done|]. split; [lia|]. cbn. lia.
Qed.

(** The generated decimal lies between the bounds; [K] is its power of ten relative to [dexp]. *)
Lemma grisu2_digit_gen_spec dexp Mm w Mp :
  -60 <= de Mp <= -32 -> 0 < df Mm < df Mp -> df Mm <= df w <= df Mp -> 2 ^ (- de Mp) <= df Mp < 2 ^ 64 ->
  exists buf K, grisu2_digit_gen dexp Mm w Mp = (buf, dexp + K) /\ decimalDigits buf /\ (length buf <= 30)%nat /\ -20 <= K <= 9 /\
    df Mm * 10 ^ Z.max 0 (- K) <= digitsValue buf * 10 ^ Z.max 0 K * 2 ^ (- de Mp) <= df Mp * 10 ^ Z.max 0 (- K).
Proof.
  intros He Hmm Hw HMp. unfold grisu2_digit_gen, diy_sub. cbn [df].
  rewrite (u64_small (df Mp - df Mm)), (u64_small (df Mp - df w)) by lia.
  set (sh := - de Mp) in *. rewrite Z.shiftl_1_l, land_mask, Z.shiftr_div_pow2 by lia.
  assert (2 ^ 32 <= 2 ^ sh <= 2 ^ 60) as HT by (split; apply Z.pow_le_mono_r; lia).
  pose proof (Z.div_mod (df Mp) (2 ^ sh) ltac:(lia)) as Edm. pose proof (Z.mod_pos_bound (df Mp) (2 ^ sh) ltac:(lia)) as Bm.
  assert (0 < df Mp / 2 ^ sh < 2 ^ 32) as Hp1 by nia.
  rewrite u32_id by lia.
  set (p1 := df Mp / 2 ^ sh) in *. set (p2 := df Mp mod 2 ^ sh) in *.
  destruct (find_largest_pow10_spec p1 Hp1) as (k & -> & Hk & Hp10). rewrite Nat2Z.id.
  pose proof (digitGenInt_spec (S k) [] dexp p1 p2 (10 ^ Z.of_nat k) (df Mp - df Mm) (df Mp - df w) sh (df Mp)) as R.
  change (digitsValue []) with 0 in R. rewrite Z.mul_0_l, Z.add_0_l in R.
  destruct (digitGenInt (S k) [] dexp p1 p2 (10 ^ Z.of_nat k) (df Mp - df Mm) (df Mp - df w) sh) as [[buf x]|buf].
  - destruct R as (n & -> & Hn & Hb & Hl & HV); [lia..| | | |].
    + intros _. f_equal. lia.
    + nia.
    + left. split; [done|]. split; [done|lia].
    + exists buf, (Z.of_nat n). rewrite Z.max_l, Z.max_r, Z.pow_0_r by lia. cbn in Hl.
      split; [done|]. split; [done|]. split; [lia|]. split; [lia|]. lia.
  - destruct R as (EM & Hd & Hb & Hl & Hv); [lia..| | | |].
    + intros _. f_equal. lia.
    + nia.
    + left. split; [done|]. split; [done|lia].
    + cbn in Hl.
      destruct (digitGenFrac_spec 20 buf dexp 0 p2 (df Mp - df Mm) (df Mp - df w) sh (df Mp) (df Mp - df Mm))
        as (n & buf' & E & Hn & Hb' & Hl' & HV); [lia..|done|].
      exists buf', (- n). rewrite E, Z.max_r, Z.max_l, Z.opp_involutive, Z.pow_0_r by lia.
      split; [f_equal; lia|]. split; [done|]. split; [lia|]. split; [lia|].
      rewrite Z.mul_1_r. replace (df Mp - (df Mp - df Mm)) with (df Mm) in HV by lia. done.
Qed.
