(* ===== verification/JsonDtoaRound.v ===== *)
(** Grisu2 and [strtod] together: the decimal that is printed reads back as the same double.

    The inequalities that mix powers of two and ten are stated over the real numbers; [pw] is an
    integer power with any exponent. *)

From S2P Require Import Prelude Bytes JsonDtoa JsonDtoaProps.
From Stdlib Require Import Reals Lra.

(** * Powers over the reals *)

Definition pw (b n : Z) : R := powerRZ (IZR b) n.

Lemma pw_pos b n : 0 < b -> (0 < pw b n)%R.
Proof. intros Hb. apply powerRZ_lt. by apply IZR_lt. Qed.

Lemma pw_add b n m : 0 < b -> pw b (n + m) = (pw b n * pw b m)%R.
Proof. intros Hb. apply powerRZ_add. apply not_0_IZR. lia. Qed.

Lemma pw_IZR b n : 0 <= n -> IZR (b ^ n) = pw b n.
Proof.
  intros Hn. rewrite <- (Z2Nat.id n) by done. unfold pw. by rewrite <- pow_powerRZ, pow_IZR.
Qed.

Lemma pw_0 b : pw b 0 = 1%R.
Proof. done. Qed.

(** A power with the two signs of its exponent apart. *)
Lemma pw_split b n : 0 < b -> IZR (b ^ Z.max 0 n) = (IZR (b ^ Z.max 0 (- n)) * pw b n)%R.
Proof.
  intros Hb. rewrite !pw_IZR, <- pw_add by lia. f_equal. lia.
Qed.

Lemma pw_lt b n m : 1 < b -> n < m -> (pw b n < pw b m)%R.
Proof.
  intros Hb Hnm. replace m with (n + (m - n)) by lia. rewrite pw_add by lia.
  assert (1 < pw b (m - n))%R as H.
  { rewrite <- pw_IZR by lia. apply IZR_lt. apply Z.pow_gt_1; lia. }
  pose proof (pw_pos b n ltac:(lia)). nra.
Qed.

Lemma pw_le b n m : 1 < b -> n <= m -> (pw b n <= pw b m)%R.
Proof. intros Hb Hnm. destruct (decide (n = m)) as [->|]; [lra|]. left. apply pw_lt; lia. Qed.

Lemma pw_log_unique b n m x : 1 < b -> (pw b n <= x < pw b (n + 1))%R -> (pw b m <= x < pw b (m + 1))%R -> n = m.
Proof.
  intros Hb Hn Hm. destruct (Z.lt_trichotomy n m) as [L | [-> | L]]; [|done|]; exfalso.
  - pose proof (pw_le b (n + 1) m Hb ltac:(lia)). lra.
  - pose proof (pw_le b (m + 1) n Hb ltac:(lia)). lra.
Qed.

(** * The midpoints around a double *)

Definition lowMid (f e : Z) : R :=
  if closer f e then (IZR (4 * f - 1) * pw 2 (e - 2))%R else (IZR (2 * f - 1) * pw 2 (e - 1))%R.
Definition highMid (f e : Z) : R := (IZR (2 * f + 1) * pw 2 (e - 1))%R.

(** * The scaled boundaries are inside *)

Lemma powerClose_spec c : powerClose c = true ->
  2 ^ 63 <= cf c < 2 ^ 64 /\ (Rabs (IZR (cf c) * pw 2 (ce c) - pw 10 (ck c)) <= pw 2 (ce c) / 2)%R.
Proof.
  unfold powerClose. rewrite andb_true_iff, !bool_decide_eq_true. intros [H Hc]. split; [done|].
  apply IZR_le in H. rewrite abs_IZR, minus_IZR, !mult_IZR in H.
  rewrite (pw_split 2 (ce c)), (pw_split 10 (ck c)) in H by lia.
  set (a := IZR (2 ^ Z.max 0 (- ce c))) in *. set (b := IZR (10 ^ Z.max 0 (- ck c))) in *.
  assert (0 < a)%R as Ha by (apply IZR_lt, Z.pow_pos_nonneg; lia).
  assert (0 < b)%R as Hb by (apply IZR_lt, Z.pow_pos_nonneg; lia).
  set (t := pw 2 (ce c)) in *. set (p := pw 10 (ck c)) in *. set (x := IZR (cf c)) in *.
  assert (0 < a * b)%R as Hab by nra.
  replace (2 * x * (a * t) * b - 2 * (b * p) * a)%R with (2 * (a * b) * (x * t - p))%R in H by ring.
  rewrite !Rabs_mult in H. rewrite (Rabs_pos_eq 2), (Rabs_pos_eq a), (Rabs_pos_eq b) in H by lra.
  set (r := Rabs (x * t - p)) in *. nra.
Qed.

(** The rounded product of a significand with a cached power is off by less than one unit. *)
Lemma scaled_error m c e : 0 <= m < 2 ^ 64 -> powerClose c = true ->
  let w := df (diy_mul (Diyfp m e) (Diyfp (cf c) (ce c))) in
  let u := pw 2 (e + ce c + 64) in
  (Rabs (IZR w * u - IZR m * pw 2 e * pw 10 (ck c)) < u)%R.
Proof.
  intros Hm Hc. destruct (powerClose_spec c Hc) as [Hcf Herr]. cbv zeta.
  destruct (diy_mul_spec (Diyfp m e) (Diyfp (cf c) (ce c))) as [-> _]; [cbn; lia..|]. cbn [df].
  pose proof (Z.div_mod (m * cf c + 2 ^ 63) (2 ^ 64) ltac:(lia)) as E.
  pose proof (Z.mod_pos_bound (m * cf c + 2 ^ 63) (2 ^ 64) ltac:(lia)) as B.
  set (w := (m * cf c + 2 ^ 63) / 2 ^ 64) in *. set (r := (m * cf c + 2 ^ 63) mod 2 ^ 64) in *.
  assert (2 * Z.abs (w * 2 ^ 64 - m * cf c) <= 2 ^ 64) as HZ by lia.
  apply IZR_le in HZ. rewrite mult_IZR, abs_IZR, minus_IZR, !mult_IZR in HZ.
  rewrite !pw_add by lia. rewrite <- (pw_IZR 2 64) by lia.
  set (T := IZR (2 ^ 64)) in *. assert (0 < T)%R as HT by (apply IZR_lt; lia).
  assert (0 <= IZR m < T)%R as HmR by (split; [apply IZR_le|apply IZR_lt]; lia).
  set (x := IZR m) in *. set (y := IZR (cf c)) in *. set (z := IZR w) in *.
  pose proof (pw_pos 2 e ltac:(lia)) as P1. pose proof (pw_pos 2 (ce c) ltac:(lia)) as P2.
  set (a := pw 2 e) in *. set (b := pw 2 (ce c)) in *. set (p := pw 10 (ck c)) in *.
  replace (z * (a * b * T) - x * a * p)%R with (a * b * (z * T - x * y) + x * a * (y * b - p))%R by ring.
  eapply Rle_lt_trans; [apply Rabs_triang|].
  rewrite !Rabs_mult, (Rabs_pos_eq a), (Rabs_pos_eq b), (Rabs_pos_eq x) by lra.
  set (q := Rabs (z * T - x * y)) in *. set (s := Rabs (y * b - p)) in *.
  assert (a * b * q <= a * b * (T / 2))%R by (apply Rmult_le_compat_l; [nra|lra]).
  assert (0 <= s)%R as Hs by apply Rabs_pos.
  assert (x * a * s <= x * a * (b / 2))%R by (apply Rmult_le_compat_l; [nra|lra]).
  assert (a * b * x < a * b * T)%R by (apply Rmult_lt_compat_l; [nra|lra]).
  lra.
Qed.

(** The decimal of [grisu2_digit_gen], in units of the exponent of its bounds. *)
Lemma digit_gen_real dexp Mm w Mp e :
  de Mp = e -> -60 <= e <= -32 -> 0 < df Mm < df Mp -> df Mm <= df w <= df Mp -> 2 ^ (- e) <= df Mp < 2 ^ 64 ->
  exists buf K, grisu2_digit_gen dexp Mm w Mp = (buf, dexp + K) /\ decimalDigits buf /\ (length buf <= 30)%nat /\ -20 <= K <= 9 /\
    (IZR (df Mm) * pw 2 e <= IZR (digitsValue buf) * pw 10 K <= IZR (df Mp) * pw 2 e)%R.
Proof.
  intros <- He Hm Hw Hp.
  destruct (grisu2_digit_gen_spec dexp Mm w Mp) as (buf & K & E & Hb & Hl & HK & H1 & H2); [done..|].
  exists buf, K. do 4 (split; [done|]).
  apply IZR_le in H1, H2. rewrite !mult_IZR in H1, H2. rewrite (pw_split 10 K) in H1, H2 by lia.
  rewrite (pw_IZR 2 (- de Mp)) in H1, H2 by lia.
  set (t := IZR (10 ^ Z.max 0 (- K))) in *. assert (0 < t)%R as Ht by (apply IZR_lt, Z.pow_pos_nonneg; lia).
  assert (pw 2 (- de Mp) * pw 2 (de Mp) = 1)%R as Einv by (rewrite <- pw_add, Z.add_opp_diag_l by lia; apply pw_0).
  pose proof (pw_pos 2 (de Mp) ltac:(lia)) as P1. pose proof (pw_pos 2 (- de Mp) ltac:(lia)) as P2.
  set (u := pw 2 (de Mp)) in *. set (v := pw 2 (- de Mp)) in *.
  set (D := (IZR (digitsValue buf) * pw 10 K)%R) in *.
  replace (IZR (digitsValue buf) * (t * pw 10 K) * v)%R with (t * (D * v))%R in H1, H2 by (unfold D; ring).
  assert (IZR (df Mm) <= D * v)%R as H1' by (apply (Rmult_le_reg_l t); lra).
  assert (D * v <= IZR (df Mp))%R as H2' by (apply (Rmult_le_reg_l t); lra).
  assert (D = D * v * u)%R as -> by (rewrite Rmult_assoc, Einv; ring).
  split; apply Rmult_le_compat_r; lra.
Qed.

(** Products of two significands that differ by at least [d], with a normalised power. *)
Lemma mul_gap m n c e : 0 <= m -> n < 2 ^ 64 -> m + 2 ^ 9 <= n -> 2 ^ 63 <= cf c < 2 ^ 64 ->
  df (diy_mul (Diyfp m e) (Diyfp (cf c) (ce c))) + 2 ^ 7 <= df (diy_mul (Diyfp n e) (Diyfp (cf c) (ce c))).
Proof.
  intros Hm Hn Hd Hc.
  destruct (diy_mul_spec (Diyfp m e) (Diyfp (cf c) (ce c))) as [-> _]; [cbn; lia..|].
  destruct (diy_mul_spec (Diyfp n e) (Diyfp (cf c) (ce c))) as [-> _]; [cbn; lia..|]. cbn [df].
  assert (m * cf c + 2 ^ 7 * 2 ^ 64 <= n * cf c) as H by nia.
  rewrite <- Z.div_add by lia. apply Z.div_le_mono; lia.
Qed.

(** The decimal Grisu2 prints lies strictly between the midpoints around the double. *)
Lemma grisu2_between f e : stored f e = true ->
  exists buf X, grisu2 (compute_boundaries (fieldE f e) (fieldF f)) = (buf, X) /\ decimalDigits buf /\ (length buf <= 30)%nat /\
    -400 <= X <= 400 /\ (lowMid f e < IZR (digitsValue buf) * pw 10 X < highMid f e)%R.
Proof.
  intros Hst. destruct (boundaries_spec f e Hst) as (s & Hs & B1 & B2 & ->).
  apply stored_spec in Hst as (Hf & He & _).
  unfold grisu2. cbn [bplus bminus bw de df].
  set (e' := e - 1 - s). set (mm := if closer f e then (4 * f - 1) * 2 ^ (s - 1) else (2 * f - 1) * 2 ^ s).
  destruct (cached_power_spec e') as [[Hce Hck] Hpc]; [lia|]. unfold kAlpha, kGamma in Hce.
  set (c := get_cached_power_for_binary_exponent e') in *.
  destruct (powerClose_spec c Hpc) as [Hcf _].
  assert (2 ^ s = 2 * 2 ^ (s - 1)) as Es by (rewrite <- Z.pow_succ_r by lia; f_equal; lia).
  assert (2 ^ 9 <= 2 ^ (s - 1)) as H9 by (apply Z.pow_le_mono_r; lia).
  assert (0 <= mm /\ mm + 2 ^ 9 <= 2 * f * 2 ^ s) as [Hmm Hgap] by (unfold mm; destruct (closer f e); nia).
  assert (lowMid f e = IZR mm * pw 2 e')%R as ->.
  { unfold lowMid, mm, e'. destruct (closer f e); rewrite (mult_IZR _ (2 ^ _)), pw_IZR, Rmult_assoc, <- pw_add by lia;
    f_equal; f_equal; lia. }
  assert (highMid f e = IZR ((2 * f + 1) * 2 ^ s) * pw 2 e')%R as ->.
  { unfold highMid, e'. rewrite (mult_IZR _ (2 ^ _)), pw_IZR, Rmult_assoc, <- pw_add by lia. f_equal; f_equal; lia. }
  set (mp := (2 * f + 1) * 2 ^ s) in *. set (v := 2 * f * 2 ^ s) in *.
  assert (v + 2 ^ 9 <= mp) as Hgap' by (unfold v, mp; nia).
  pose proof (mul_gap mm v c e' ltac:(lia) ltac:(lia) ltac:(lia) Hcf) as G1.
  pose proof (mul_gap v mp c e' ltac:(lia) ltac:(lia) ltac:(lia) Hcf) as G2.
  pose proof (scaled_error mm c e' ltac:(lia) Hpc) as R1. pose proof (scaled_error mp c e' ltac:(lia) Hpc) as R2.
  cbv zeta in R1, R2. set (X := pw 2 (e' + ce c + 64)) in *.
  assert (2 ^ 61 <= df (diy_mul (Diyfp mp e') (Diyfp (cf c) (ce c))) < 2 ^ 64 /\
          0 <= df (diy_mul (Diyfp mm e') (Diyfp (cf c) (ce c)))) as [Hwp Hwm].
  { destruct (diy_mul_spec (Diyfp mp e') (Diyfp (cf c) (ce c))) as [-> _]; [cbn [df]; lia..|].
    destruct (diy_mul_spec (Diyfp mm e') (Diyfp (cf c) (ce c))) as [-> _]; [cbn [df]; lia..|]. cbn [df].
    assert (2 ^ 63 * 2 ^ 63 <= mp * cf c) by (apply Z.mul_le_mono_nonneg; lia).
    assert (mp * cf c <= (2 ^ 64 - 1) * (2 ^ 64 - 1)) by (apply Z.mul_le_mono_nonneg; lia).
    assert (0 <= mm * cf c) by (apply Z.mul_nonneg_nonneg; lia).
    split; [split; [apply Z.div_le_lower_bound|apply Z.div_lt_upper_bound]; lia|apply Z.div_pos; lia]. }
  change (de (diy_mul (Diyfp mp e') (Diyfp (cf c) (ce c)))) with (e' + ce c + 64).
  set (wm := df (diy_mul (Diyfp mm e') _)) in *. set (w := df (diy_mul (Diyfp v e') _)) in *.
  set (wp := df (diy_mul (Diyfp mp e') _)) in *.
  rewrite (u64_small (wm + 1)), (u64_small (wp - 1)) by lia.
  match goal with |- context [grisu2_digit_gen ?d ?a ?b ?m] =>
    destruct (digit_gen_real d a b m (e' + ce c + 64)) as (buf & K & E & Hb & Hl & HK & HV) end; cbn [df de]; [done|lia..| |].
  { split; [|lia]. transitivity (2 ^ 60); [apply Z.pow_le_mono_r; lia|lia]. }
  cbn [df] in HV. rewrite plus_IZR, minus_IZR in HV.
  exists buf, (- ck c + K). split; [exact E|]. split; [done|]. split; [done|]. split; [lia|].
  rewrite pw_add by lia. fold X in HV.
  assert (pw 10 (- ck c) * pw 10 (ck c) = 1)%R as Einv by (rewrite <- pw_add, Z.add_opp_diag_l by lia; apply pw_0).
  pose proof (pw_pos 10 (- ck c) ltac:(lia)) as P1. pose proof (pw_pos 10 (ck c) ltac:(lia)) as P2.
  set (t := pw 10 (- ck c)) in *. set (p := pw 10 (ck c)) in *. set (D := IZR (digitsValue buf)) in *. set (q := pw 10 K) in *.
  apply Rabs_def2 in R1 as [R1 R1']. apply Rabs_def2 in R2 as [R2 R2'].
  set (a := (IZR mm * pw 2 e')%R) in *. set (b := (IZR mp * pw 2 e')%R) in *.
  replace (D * (t * q))%R with (t * (D * q))%R by ring.
  assert (a = t * (a * p))%R as -> by (replace (t * (a * p))%R with (a * (t * p))%R by ring; rewrite Einv; ring).
  assert (b = t * (b * p))%R as -> by (replace (t * (b * p))%R with (b * (t * p))%R by ring; rewrite Einv; ring).
  split; apply Rmult_lt_compat_l; lra.
Qed.

(** * Correct rounding *)

Lemma pw_log2 z : 0 < z -> (pw 2 (Z.log2 z) <= IZR z < pw 2 (Z.log2 z + 1))%R.
Proof.
  intros Hz. pose proof (Z.log2_spec z Hz) as [L U]. pose proof (Z.log2_nonneg z).
  rewrite <- !pw_IZR by lia. split; [by apply IZR_le|by apply IZR_lt].
Qed.

(** Comparing [num / den] with a power of two over the integers. *)
Lemma ratio_lt_pw num den n : 0 < den ->
  num * 2 ^ Z.max 0 (- n) < den * 2 ^ Z.max 0 n <-> (IZR num < IZR den * pw 2 n)%R.
Proof.
  intros Hd. assert (0 < IZR (2 ^ Z.max 0 (- n)))%R as Ht by (apply IZR_lt, Z.pow_pos_nonneg; lia). split.
  - intros H%IZR_lt. rewrite !mult_IZR, (pw_split 2 n) in H by lia.
    apply (Rmult_lt_reg_l (IZR (2 ^ Z.max 0 (- n)))); lra.
  - intros H. apply lt_IZR. rewrite !mult_IZR, (pw_split 2 n) by lia.
    replace (IZR den * (IZR (2 ^ Z.max 0 (- n)) * pw 2 n))%R with ((IZR den * pw 2 n) * IZR (2 ^ Z.max 0 (- n)))%R by ring.
    by apply Rmult_lt_compat_r.
Qed.

Lemma pw2_succ n : pw 2 (n + 1) = (2 * pw 2 n)%R.
Proof. rewrite pw_add by lia. change (pw 2 1) with (powerRZ 2 1). rewrite powerRZ_1. ring. Qed.

Lemma ratioLog2_spec num den : 0 < num -> 0 < den ->
  (IZR den * pw 2 (ratioLog2 num den) <= IZR num < IZR den * pw 2 (ratioLog2 num den + 1))%R.
Proof.
  intros Hn Hd. unfold ratioLog2. set (l := Z.log2 num - Z.log2 den).
  destruct (pw_log2 num Hn) as [N1 N2]. destruct (pw_log2 den Hd) as [D1 D2].
  pose proof (pw_pos 2 (Z.log2 den) ltac:(lia)) as P. pose proof (pw_pos 2 l ltac:(lia)) as P'.
  assert (pw 2 (Z.log2 num) = pw 2 (Z.log2 den) * pw 2 l)%R as E by (rewrite <- pw_add by lia; f_equal; lia).
  rewrite pw2_succ in N2, D2. pose proof (pw2_succ (l - 1)) as E1. rewrite Z.sub_add in E1.
  case_bool_decide as H.
  - apply ratio_lt_pw in H; [|done]. rewrite Z.sub_add. split; [nra|done].
  - rewrite ratio_lt_pw in H by done. apply Rnot_lt_le in H. rewrite pw2_succ. split; [done|nra].
Qed.

(** Rounding at exponent [t]: the nearest integer multiple of [2 ^ t], when there is only one. *)
Lemma round_at num den t q : 0 < den -> 0 <= num ->
  (IZR (2 * q - 1) * pw 2 t < 2 * (IZR num / IZR den) < IZR (2 * q + 1) * pw 2 t)%R ->
  let a := num * 2 ^ Z.max 0 (- t) in
  let b := den * 2 ^ Z.max 0 t in
  (if bool_decide (2 * (a mod b) < b) || (bool_decide (2 * (a mod b) = b) && Z.even (a / b)) then a / b else a / b + 1) = q.
Proof.
  intros Hd Hn H a b.
  assert (0 < 2 ^ Z.max 0 t) as H2 by (apply Z.pow_pos_nonneg; lia). assert (0 < b) as Hb by (unfold b; nia).
  assert ((2 * q - 1) * b < 2 * a < (2 * q + 1) * b) as [L U].
  { assert (0 < IZR den)%R as HdR by (by apply IZR_lt).
    assert (0 < IZR (2 ^ Z.max 0 (- t)))%R as HtR by (apply IZR_lt, Z.pow_pos_nonneg; lia).
    assert (IZR b = IZR den * (IZR (2 ^ Z.max 0 (- t)) * pw 2 t))%R as Eb by (unfold b; by rewrite mult_IZR, (pw_split 2 t) by lia).
    set (r := (IZR num / IZR den)%R) in *. assert (IZR num = r * IZR den)%R as Er by (unfold r; field; lra).
    assert (IZR a = r * IZR den * IZR (2 ^ Z.max 0 (- t)))%R as Ea by (unfold a; by rewrite mult_IZR, Er).
    set (u := IZR (2 ^ Z.max 0 (- t))) in *.
    assert (0 < IZR den * u)%R as Hu by nra.
    split; apply lt_IZR; rewrite !(mult_IZR _ b), !(mult_IZR 2 a), Ea, Eb.
    - replace (IZR (2 * q - 1) * (IZR den * (u * pw 2 t)))%R with ((IZR den * u) * (IZR (2 * q - 1) * pw 2 t))%R by ring.
      replace (2 * (r * IZR den * u))%R with ((IZR den * u) * (2 * r))%R by ring. apply Rmult_lt_compat_l; lra.
    - replace (IZR (2 * q + 1) * (IZR den * (u * pw 2 t)))%R with ((IZR den * u) * (IZR (2 * q + 1) * pw 2 t))%R by ring.
      replace (2 * (r * IZR den * u))%R with ((IZR den * u) * (2 * r))%R by ring. apply Rmult_lt_compat_l; lra. }
  clear H. pose proof (Z.div_mod a b ltac:(lia)) as E. pose proof (Z.mod_pos_bound a b Hb) as B.
  set (x := a / b) in *. set (r := a mod b) in *.
  destruct (decide (2 * r < b)) as [C|C].
  - rewrite bool_decide_true by done. cbn [orb]. assert (2 * q - 1 < 2 * x + 1 /\ 2 * x < 2 * q + 1) by nia. lia.
  - destruct (decide (2 * r = b)) as [C'|C'].
    + exfalso. assert (2 * a = (2 * x + 1) * b) by lia. assert (2 * q - 1 < 2 * x + 1 < 2 * q + 1) by nia. lia.
    + rewrite (bool_decide_false (2 * r < b)), (bool_decide_false (2 * r = b)) by done. cbn [orb andb].
      assert (2 * q - 1 < 2 * x + 2 /\ 2 * x + 1 < 2 * q + 1) by nia. lia.
Qed.

(** A stored pair is its own stored form. *)
Lemma doubleOf_stored f e : stored f e = true -> doubleOf f e = (f, e).
Proof.
  intros (Hf & He & Hn)%stored_spec. unfold doubleOf, storedExponent.
  assert (Z.log2 f <= 52) by (apply Z.lt_succ_r, Z.log2_lt_pow2; lia).
  assert (Z.max (-1074) (e + Z.log2 f - 52) = e) as ->.
  { destruct Hn as [Hn | ->]; [|lia]. assert (52 <= Z.log2 f) by (by apply Z.log2_le_pow2; lia). lia. }
  rewrite bool_decide_true by lia. by rewrite Z.sub_diag, Z.pow_0_r, Z.mul_1_r.
Qed.

(** Twice a number between the midpoints, at the exponent of the double. *)
Lemma between_doubled f e x : 0 < f -> (lowMid f e < x < highMid f e)%R ->
  (IZR (2 * f - 1) * pw 2 e < 2 * x < IZR (2 * f + 1) * pw 2 e)%R.
Proof.
  intros Hf [L U]. pose proof (pw2_succ (e - 1)) as E. rewrite Z.sub_add in E. pose proof (pw2_succ (e - 2)) as E2.
  replace (e - 2 + 1) with (e - 1) in E2 by lia. pose proof (pw_pos 2 (e - 2) ltac:(lia)). apply IZR_lt in Hf.
  unfold lowMid in L. unfold highMid in U. split; [|nra].
  destruct (closer f e); rewrite minus_IZR, mult_IZR in *; nra.
Qed.

Lemma pw2_scale k n : 0 <= k -> (IZR (2 ^ k) * pw 2 n = pw 2 (k + n))%R.
Proof. intros Hk. by rewrite pw_IZR, <- pw_add by lia. Qed.

(** The exponent at which a number between the midpoints is rounded, and what it is rounded to. *)
Lemma between_exponent f e x L : stored f e = true -> (lowMid f e < x < highMid f e)%R -> (pw 2 L <= x < pw 2 (L + 1))%R ->
  Z.max (-1074) (L - 52) = e \/
  Z.max (-1074) (L - 52) = e - 1 /\ f = 2 ^ 52 /\ -1074 < e /\
    (IZR (2 * 2 ^ 53 - 1) * pw 2 (e - 1) < 2 * x < IZR (2 * 2 ^ 53 + 1) * pw 2 (e - 1))%R.
Proof.
  intros (Hf & He & Hnorm)%stored_spec Hx HL. pose proof (between_doubled f e x ltac:(lia) Hx) as [X1 X2].
  pose proof (pw_pos 2 e ltac:(lia)) as P.
  assert (x < pw 2 (53 + e))%R as XU.
  { rewrite <- pw2_scale by lia. assert (2 * f + 1 <= 2 * 2 ^ 53) as H%IZR_le by lia.
    rewrite (mult_IZR 2 (2 ^ 53)) in H. nra. }
  assert (L <= e + 52) as LU.
  { apply Z.nlt_ge. intros Hlt. pose proof (pw_le 2 (53 + e) L ltac:(lia) ltac:(lia)). lra. }
  destruct (decide (e = -1074)) as [-> | Hne]; [left; lia|]. destruct Hnorm as [Hnorm | ?]; [|done].
  destruct (Rle_lt_dec (pw 2 (52 + e)) x) as [XL | XL].
  - left. assert (L = 52 + e) as ->; [|lia]. apply (pw_log_unique 2 _ _ x); [lia|done|].
    split; [done|]. replace (52 + e + 1) with (53 + e) by lia. done.
  - right.
    assert (f = 2 ^ 52) as ->.
    { apply Z.le_antisymm; [|done]. apply Z.nlt_ge. intros Hlt.
      rewrite <- pw2_scale in XL by lia. assert (2 * 2 ^ 52 <= 2 * f - 1) as H%IZR_le by lia.
      rewrite (mult_IZR 2 (2 ^ 52)) in H. nra. }
    destruct Hx as [HL' _]. unfold lowMid, closer in HL'. rewrite !bool_decide_true in HL' by lia. cbn [andb] in HL'.
    pose proof (pw2_succ (e - 1)) as E. rewrite Z.sub_add in E. pose proof (pw2_succ (e - 2)) as E2.
    replace (e - 2 + 1) with (e - 1) in E2 by lia. pose proof (pw_pos 2 (e - 2) ltac:(lia)) as P2.
    rewrite <- pw2_scale in XL by lia.
    change (2 * 2 ^ 53 - 1) with (4 * 2 ^ 52 - 1). change (2 * 2 ^ 53 + 1) with (4 * 2 ^ 52 + 1).
    rewrite minus_IZR, plus_IZR, mult_IZR in *. set (T := IZR (2 ^ 52)) in *.
    assert (1 < T)%R as HT by (apply IZR_lt; lia).
    assert (L = 51 + e) as ->.
    { apply (pw_log_unique 2 _ _ x); [lia|done|]. replace (51 + e + 1) with (52 + e) by lia.
      rewrite <- (pw2_scale 52) by lia. fold T. split; [|nra].
      replace (51 + e) with (52 + (e - 1)) by lia. rewrite <- (pw2_scale 52) by lia. fold T. nra. }
    split; [lia|]. split; [done|]. split; [lia|]. nra.
Qed.

(** Correct rounding of a number strictly between the midpoints around a double is that double. *)
Lemma roundDouble_between f e num den : stored f e = true -> 0 < num -> 0 < den ->
  (lowMid f e < IZR num / IZR den < highMid f e)%R -> roundDouble num den = Some (f, e).
Proof.
  intros Hst Hn Hd Hx. pose proof Hst as (Hf & He & Hnorm)%stored_spec. unfold roundDouble.
  rewrite (bool_decide_false (num = 0)) by lia.
  assert (0 < IZR den)%R as HdR by (by apply IZR_lt).
  assert (IZR num = IZR den * (IZR num / IZR den))%R as Ex by (field; lra).
  pose proof (ratioLog2_spec num den Hn Hd) as [LL LU]. rewrite Ex in LL, LU.
  apply (Rmult_le_reg_l _ _ _ HdR) in LL. apply (Rmult_lt_reg_l _ _ _ HdR) in LU.
  destruct (between_exponent f e _ _ Hst Hx (conj LL LU)) as [-> | (-> & -> & He' & Hx')].
  - pose proof (round_at num den e f Hd ltac:(lia) (between_doubled f e _ ltac:(lia) Hx)) as E. cbv zeta in E |- *.
    rewrite E, (bool_decide_false (f = 0)), doubleOf_stored by (done || lia). by rewrite bool_decide_true by lia.
  - pose proof (round_at num den (e - 1) (2 ^ 53) Hd ltac:(lia) Hx') as E. cbv zeta in E |- *.
    rewrite E, (bool_decide_false (2 ^ 53 = 0)) by done. unfold doubleOf, storedExponent.
    change (Z.log2 (2 ^ 53)) with 53. replace (Z.max (-1074) (e - 1 + 53 - 52)) with e by lia.
    rewrite (bool_decide_false (e <= e - 1)) by lia. replace (e - (e - 1)) with 1 by lia.
    by rewrite bool_decide_true by lia.
Qed.

(** * Number texts *)

(** The parts of a JSON number: sign, integral digits, fraction digits, exponent with its sign. *)
Definition fracText (fd : list Z) : list Z := match fd with [] => [] | _ => 46 :: fd end.
Definition expText (ex : option (bool * list Z)) : list Z :=
  match ex with None => [] | Some (neg, xd) => 101 :: (if neg then 45 else 43) :: xd end.
Definition numText (neg : bool) (i fd : list Z) (ex : option (bool * list Z)) : list Z :=
  (if neg then [45] else []) ++ i ++ fracText fd ++ expText ex.

Definition expValue (ex : option (bool * list Z)) : Z :=
  match ex with None => 0 | Some (neg, xd) => if neg then - digitsValue xd else digitsValue xd end.

Definition allDigits (l : list Z) : Prop := Forall (fun d => 48 <= d <= 57) l.

(** The grammar of a printed double: no leading zero, digits where digits are due, and a fraction
    or an exponent. *)
Record floatParts (i fd : list Z) (ex : option (bool * list Z)) : Prop := {
  fp_int : i = [48] \/ decimalDigits i;
  fp_frac : allDigits fd;
  fp_exp : match ex with None => True | Some (_, xd) => allDigits xd /\ xd <> [] end;
  fp_float : fd <> [] \/ ex <> None
}.

Lemma isDigit_spec b : isDigit b = true <-> 48 <= b <= 57.
Proof. apply bool_decide_eq_true. Qed.

Lemma readDigits_app ds rest acc n : allDigits ds -> match rest with [] => True | b :: _ => isDigit b = false end ->
  readDigits (ds ++ rest) acc n = (foldl (fun a d => a * 10 + (d - 48)) acc ds, n + Z.of_nat (length ds), rest).
Proof.
  intros Hds Hr. revert acc n. induction Hds as [|d ds Hd _ IH]; intros acc n.
  - destruct rest as [|b rest]; cbn; [f_equal; f_equal; lia|]. rewrite Hr. f_equal; f_equal; lia.
  - cbn. rewrite (proj2 (isDigit_spec d)) by done. rewrite IH. f_equal. f_equal. lia.
Qed.

Lemma decimalDigits_all l : decimalDigits l -> allDigits l.
Proof. by intros []. Qed.

Lemma intPart_all i : i = [48] \/ decimalDigits i -> allDigits i /\ i <> [].
Proof.
  intros [-> | (H & d & l & -> & _)]; [|done]. split; [|done]. constructor; [lia|done].
Qed.

Lemma notDigit_expText ex : match expText ex with [] => True | b :: _ => isDigit b = false end.
Proof. by destruct ex as [[]|]. Qed.

Lemma readSign_digits b l : 48 <= b <= 57 -> readSign (b :: l) = (false, b :: l).
Proof. intros Hb. cbn. by rewrite !bool_decide_false by lia. Qed.

(** A number text, with or without fraction and exponent, is read as its digits and power of ten. *)
Lemma readDecimal_parts neg i fd ex : i = [48] \/ decimalDigits i -> allDigits fd ->
  match ex with None => True | Some (_, xd) => allDigits xd /\ xd <> [] end ->
  readDecimal (numText neg i fd ex) = (neg, digitsValue (i ++ fd), expValue ex - Z.of_nat (length fd)).
Proof.
  intros Hi Hf Hx. apply intPart_all in Hi as [Hi Hne]. unfold readDecimal, numText.
  assert (readSign ((if neg then [45] else []) ++ i ++ fracText fd ++ expText ex) = (neg, i ++ fracText fd ++ expText ex)) as ->.
  { destruct neg; [done|]. destruct i as [|b i]; [done|]. apply Forall_cons in Hi as [Hb _]. by apply readSign_digits. }
  rewrite readDigits_app; [|done|by destruct fd; [apply notDigit_expText|]].
  assert ((match fracText fd ++ expText ex with
           | b :: l' => if bool_decide (b = 46) then readDigits l' (foldl (fun a d => a * 10 + (d - 48)) 0 i) 0
                        else (foldl (fun a d => a * 10 + (d - 48)) 0 i, 0, fracText fd ++ expText ex)
           | [] => (foldl (fun a d => a * 10 + (d - 48)) 0 i, 0, [])
           end) = (digitsValue (i ++ fd), Z.of_nat (length fd), expText ex)) as ->.
  { unfold digitsValue. rewrite foldl_app. destruct fd as [|d fd].
    - destruct ex as [[]|]; done.
    - cbn [fracText app]. rewrite bool_decide_true by done. rewrite app_comm_cons.
      rewrite readDigits_app; [done|done|apply notDigit_expText]. }
  destruct ex as [[xneg xd]|]; [|done]. destruct Hx as [Hx Hxne]. cbn [expText].
  rewrite (bool_decide_true (101 = 101)) by done. cbn [orb].
  assert (readSign ((if xneg then 45 else 43) :: xd) = (xneg, xd)) as -> by (by destruct xneg).
  rewrite <- (app_nil_r xd), readDigits_app by done. cbn [expValue]. by rewrite app_nil_r.
Qed.

Lemma readDecimal_numText neg i fd ex : floatParts i fd ex ->
  readDecimal (numText neg i fd ex) = (neg, digitsValue (i ++ fd), expValue ex - Z.of_nat (length fd)).
Proof. intros [Hi Hf Hx _]. by apply readDecimal_parts. Qed.

(** * Formatting reads back *)

Lemma append_exponent_spec e : -1000 < e < 1000 ->
  exists neg xd, 101 :: append_exponent e = expText (Some (neg, xd)) /\ allDigits xd /\ xd <> [] /\ expValue (Some (neg, xd)) = e.
Proof.
  intros He. unfold append_exponent. set (k := Z.abs e).
  set (xd := if bool_decide (k < 10) then _ else _).
  exists (bool_decide (e < 0)), xd. cbn [expText expValue].
  assert (allDigits xd /\ xd <> [] /\ digitsValue xd = k) as (H1 & H2 & H3).
  { unfold xd, allDigits. assert (0 <= k < 1000) as Hk by lia.
    pose proof (Z.mod_pos_bound k 10 ltac:(lia)). pose proof (Z.mod_pos_bound k 100 ltac:(lia)).
    pose proof (Z.div_mod k 10 ltac:(lia)). pose proof (Z.div_mod k 100 ltac:(lia)).
    pose proof (Z.div_mod (k mod 100) 10 ltac:(lia)) as E.
    replace (k mod 100 mod 10) with (k mod 10) in E by (rewrite (Znumtheory.Zmod_div_mod 10 100 k); [done|lia|lia|by exists 10]).
    repeat case_bool_decide; unfold digitsValue; cbn [foldl]; repeat split; try done; try lia;
    repeat constructor; lia. }
  split; [by case_bool_decide|]. split; [done|]. split; [done|]. rewrite H3. case_bool_decide; lia.
Qed.

Lemma digitsValue_app l k : digitsValue (l ++ k) = digitsValue l * 10 ^ Z.of_nat (length k) + digitsValue k.
Proof.
  induction k as [|d k IH] using rev_ind; [rewrite app_nil_r; cbn; lia|].
  rewrite app_assoc, !digitsValue_snoc, IH, length_app, Nat2Z.inj_add, Z.pow_add_r by lia. cbn. lia.
Qed.

Lemma digitsValue_zeros n : digitsValue (replicate n 48) = 0.
Proof. induction n as [|n IH]; [done|]. by cbn. Qed.

Lemma zeros_all n : allDigits (zeros n).
Proof. apply Forall_replicate. lia. Qed.

Lemma fracText_nonempty fd : fd <> [] -> fracText fd = 46 :: fd.
Proof. by destruct fd. Qed.

(** The formatted text consists of the parts of a number, and its value is that of the digits. *)
Lemma format_buffer_text buf X : decimalDigits buf -> (length buf <= 30)%nat -> -400 <= X <= 400 ->
  exists i fd ex z, format_buffer buf X (-4) 15 = i ++ fracText fd ++ expText ex /\ floatParts i fd ex /\ 0 <= z /\
    digitsValue (i ++ fd) = digitsValue buf * 10 ^ z /\ expValue ex - Z.of_nat (length fd) = X - z.
Proof.
  intros Hbuf Hlen HX. pose proof (decimalDigits_all _ Hbuf) as Hall. pose proof Hbuf as (_ & d & l & Ebuf & Hd).
  unfold format_buffer. set (k := Z.of_nat (length buf)). assert (1 <= k <= 30) as Hk by (unfold k; subst buf; cbn [length] in *; lia).
  repeat case_bool_decide.
  - exists (buf ++ zeros (k + X - k)), [48], None, (X + 1). cbn [fracText expText expValue].
    split; [by rewrite <- !app_assoc|]. split; [split; try done|].
    + right. split; [apply Forall_app; split; [done|apply zeros_all]|]. exists d, (l ++ zeros (k + X - k)). by rewrite Ebuf.
    + constructor; [lia|done].
    + by left.
    + split; [lia|]. unfold zeros. rewrite !digitsValue_app, digitsValue_zeros, length_replicate.
      cbn [length]. rewrite Z.pow_add_r by lia. replace (Z.of_nat (Z.to_nat (k + X - k))) with X by lia.
      change (10 ^ Z.of_nat 1) with 10. change (10 ^ 1) with 10. change (digitsValue [48]) with 0. cbn [expValue]. lia.
  - exists (take (Z.to_nat (k + X)) buf), (drop (Z.to_nat (k + X)) buf), None, 0.
    assert (drop (Z.to_nat (k + X)) buf <> []) as Hne.
    { intros E%(f_equal length). rewrite length_drop in E. cbn in E. lia. }
    split; [by rewrite fracText_nonempty, app_nil_r|]. split; [split; try done|].
    + right. split; [by apply Forall_take|]. subst buf. replace (Z.to_nat (k + X)) with (S (Z.to_nat (k + X - 1))) by lia.
      by exists d, (take (Z.to_nat (k + X - 1)) l).
    + by apply Forall_drop.
    + by left.
    + split; [lia|]. rewrite take_drop. split; [lia|]. rewrite length_drop. cbn [expValue]. lia.
  - exists [48], (zeros (- (k + X)) ++ buf), None, 0.
    split; [|split; [split; try done|]].
    + rewrite fracText_nonempty, app_nil_r; [done|]. subst buf. by destruct (zeros _).
    + by left.
    + apply Forall_app. split; [apply zeros_all|done].
    + left. subst buf. by destruct (zeros _).
    + split; [lia|]. unfold zeros. rewrite !digitsValue_app, length_app, digitsValue_zeros, length_replicate.
      cbn [expValue]. change (digitsValue [48]) with 0. lia.
  - destruct (append_exponent_spec (k + X - 1)) as (neg & xd & E & Hx & Hxne & Hv); [lia|].
    exists buf, [], (Some (neg, xd)), 0. rewrite <- E.
    split; [done|]. split; [split; try done|].
    + by right.
    + constructor.
    + by right.
    + split; [lia|]. rewrite app_nil_r. split; [lia|]. rewrite Hv. cbn [length]. lia.
  - destruct (append_exponent_spec (k + X - 1)) as (neg & xd & E & Hx & Hxne & Hv); [lia|].
    exists (take 1 buf), (drop 1 buf), (Some (neg, xd)), 0.
    assert (drop 1 buf <> []) as Hne.
    { intros E'%(f_equal length). rewrite length_drop in E'. cbn in E'. lia. }
    rewrite <- E. split; [by rewrite fracText_nonempty, <- !app_assoc|]. split; [split; try done|].
    + right. subst buf. apply Forall_cons in Hall as [? _]. split; [by constructor|by exists d, []].
    + by apply Forall_drop.
    + by left.
    + split; [lia|]. rewrite take_drop. split; [lia|]. rewrite Hv, length_drop. lia.
Qed.

(** * Every double reads back *)

Lemma doubleOf_isDouble m e : m <> 0 -> isDouble m e = true ->
  let '(f, t) := doubleOf (Z.abs m) e in stored f t = true.
Proof.
  intros Hm. unfold isDouble. rewrite (bool_decide_false (m = 0)) by done. cbn [orb].
  unfold doubleOf. set (a := Z.abs m). set (t := storedExponent a e). assert (0 < a) as Ha by lia.
  rewrite andb_true_iff, orb_true_iff, !bool_decide_eq_true. intros [Ht Hex].
  pose proof (Z.log2_nonneg a) as Hl. apply stored_spec.
  set (f := if bool_decide (t <= e) then _ else _).
  assert (0 < f /\ Z.log2 f = Z.log2 a + e - t) as [Hf Elog].
  { unfold f. case_bool_decide as C.
    - split; [apply Z.mul_pos_pos; [done|apply Z.pow_pos_nonneg; lia]|]. rewrite Z.log2_mul_pow2 by lia. lia.
    - destruct Hex as [Hex|Hex]; [lia|].
      assert (0 < 2 ^ (t - e)) as H2 by (apply Z.pow_pos_nonneg; lia).
      pose proof (Z.div_mod a (2 ^ (t - e)) ltac:(lia)) as E. rewrite Hex, Z.add_0_r in E.
      set (q := a / 2 ^ (t - e)) in *. assert (0 < q) by nia. split; [done|].
      rewrite E, Z.mul_comm, Z.log2_mul_pow2 by lia. lia. }
  pose proof (Z.log2_spec f Hf) as [L U].
  assert (t = Z.max (-1074) (e + Z.log2 a - 52)) as Et by done.
  split; [|split; [lia|]].
  - split; [done|]. eapply Z.lt_le_trans; [exact U|]. apply Z.pow_le_mono_r; lia.
  - destruct (decide (t = -1074)) as [|Hne]; [by right|]. left. assert (Z.log2 f = 52) as E by lia. by rewrite E in L.
Qed.

Lemma digitsValue_pos buf : decimalDigits buf -> 0 < digitsValue buf.
Proof.
  intros (Ha & d & l & -> & Hd). apply Forall_cons in Ha as [_ Hl].
  induction l as [|x l IH] using rev_ind; [cbn; lia|].
  apply Forall_app in Hl as [Hl Hx]. apply Forall_cons in Hx as [Hx _].
  rewrite app_comm_cons, digitsValue_snoc. specialize (IH Hl). lia.
Qed.

(** What [to_chars] prints of a positive stored double. *)
Lemma grisu2_text f e : stored f e = true ->
  exists buf X i fd ex, grisu2 (compute_boundaries (fieldE f e) (fieldF f)) = (buf, X) /\
    format_buffer buf X (-4) 15 = i ++ fracText fd ++ expText ex /\ floatParts i fd ex /\
    let p := expValue ex - Z.of_nat (length fd) in
    roundDouble (digitsValue (i ++ fd) * 10 ^ Z.max 0 p) (10 ^ Z.max 0 (- p)) = Some (f, e).
Proof.
  intros Hst. destruct (grisu2_between f e Hst) as (buf & X & E & Hb & Hl & HX & Hbt).
  destruct (format_buffer_text buf X Hb Hl HX) as (i & fd & ex & z & Ef & Hp & Hz & Ev & Ex).
  exists buf, X, i, fd, ex. do 3 (split; [done|]). cbv zeta. rewrite Ev, Ex.
  pose proof (digitsValue_pos buf Hb) as Hpos.
  assert (0 < 10 ^ z) by (apply Z.pow_pos_nonneg; lia).
  assert (0 < 10 ^ Z.max 0 (X - z)) by (apply Z.pow_pos_nonneg; lia).
  assert (0 < 10 ^ Z.max 0 (- (X - z))) as Hden by (apply Z.pow_pos_nonneg; lia).
  apply roundDouble_between; [done|nia|done|].
  assert (IZR (digitsValue buf * 10 ^ z * 10 ^ Z.max 0 (X - z)) / IZR (10 ^ Z.max 0 (- (X - z))) =
          IZR (digitsValue buf) * pw 10 X)%R as ->; [|done].
  rewrite !mult_IZR, (pw_split 10 (X - z)), (pw_IZR 10 z) by lia. apply IZR_lt in Hden.
  replace (pw 10 X) with (pw 10 z * pw 10 (X - z))%R by (rewrite <- pw_add by lia; f_equal; lia). field. lra.
Qed.

(** The printed text of a double: a JSON number with a fraction or an exponent, which [strtod]
    reads back as the same double. *)
Lemma to_chars_text m e : isDouble m e = true ->
  exists i fd ex, to_chars m e = numText (bool_decide (m < 0)) i fd ex /\ floatParts i fd ex /\
    strtod (to_chars m e) = Some (canonFloat m e).
Proof.
  intros HD. destruct (decide (m = 0)) as [->|Hm].
  - exists [48], [48], None. split; [done|]. split; [|done]. split; [by left| |done|by left].
    constructor; [lia|done].
  - pose proof (doubleOf_isDouble m e Hm HD) as Hst. unfold to_chars, canonFloat.
    rewrite (bool_decide_false (m = 0)) by done. destruct (doubleOf (Z.abs m) e) as [f t].
    destruct (grisu2_text f t Hst) as (buf & X & i & fd & ex & E & Ef & Hp & Hr). rewrite E, Ef.
    exists i, fd, ex. assert ((if bool_decide (m < 0) then [45] else []) ++ i ++ fracText fd ++ expText ex =
      numText (bool_decide (m < 0)) i fd ex) as -> by done.
    split; [done|]. split; [done|]. unfold strtod. rewrite readDecimal_numText by done. cbv zeta in Hr.
    by rewrite Hr.
Qed.

(** The stored form has the same value. *)
Lemma canonFloat_value m e : isDouble m e = true ->
  (IZR (canonFloat m e).1 * pw 2 (canonFloat m e).2 = IZR m * pw 2 e)%R.
Proof.
  intros HD. unfold canonFloat. case_bool_decide as Hm; [subst m; cbn [fst]; ring|].
  unfold isDouble in HD. rewrite (bool_decide_false (m = 0)) in HD by done. cbn [orb] in HD. unfold doubleOf in *.
  set (t := storedExponent (Z.abs m) e) in *.
  rewrite andb_true_iff, orb_true_iff, !bool_decide_eq_true in HD. destruct HD as [_ Hex]. cbn [fst snd].
  set (f := if bool_decide (t <= e) then _ else _).
  assert (IZR f * pw 2 t = IZR (Z.abs m) * pw 2 e)%R as E.
  { unfold f. case_bool_decide as C.
    - rewrite mult_IZR, pw_IZR, Rmult_assoc, <- pw_add by lia. f_equal. f_equal. lia.
    - destruct Hex as [Hex|Hex]; [lia|].
      assert (0 < 2 ^ (t - e)) as H2 by (apply Z.pow_pos_nonneg; lia).
      pose proof (Z.div_mod (Z.abs m) (2 ^ (t - e)) ltac:(lia)) as Ed. rewrite Hex, Z.add_0_r in Ed.
      rewrite Ed at 2. rewrite mult_IZR, pw_IZR by lia. 
      replace (pw 2 t) with (pw 2 (t - e) * pw 2 e)%R by (rewrite <- pw_add by lia; f_equal; lia). ring. }
  destruct (bool_decide (m < 0)) eqn:Hs; [apply bool_decide_eq_true in Hs|apply bool_decide_eq_false in Hs].
  - rewrite Z.abs_neq, opp_IZR in E by lia. rewrite opp_IZR. lra.
  - by rewrite Z.abs_eq in E by lia.
Qed.

(** C7: the text Grisu2 prints of a finite double is read back by a correctly rounding [strtod] as
    a double of exactly the same value. *)
Theorem to_chars_reads_back m e : isDouble m e = true ->
  exists f t, strtod (to_chars m e) = Some (f, t) /\ (IZR f * pw 2 t = IZR m * pw 2 e)%R.
Proof.
  intros H. destruct (to_chars_text m e H) as (i & fd & ex & _ & _ & E).
  exists (canonFloat m e).1, (canonFloat m e).2. rewrite E, <- surjective_pairing. split; [done|by apply canonFloat_value].
Qed.

(** One tenth, whose nearest double has 55 binary places. *)
Lemma to_chars_reads_back_witness :
  isDouble 3602879701896397 (-55) = true /\ exists f t, strtod (to_chars 3602879701896397 (-55)) = Some (f, t) /\
    (IZR f * pw 2 t = IZR 3602879701896397 * pw 2 (-55))%R.
Proof. split; [done|]. by apply (to_chars_reads_back 3602879701896397 (-55)). Defined.

(** * What [strtod] returns *)

Lemma readDigits_nonneg l acc n : 0 <= acc -> 0 <= (readDigits l acc n).1.1.
Proof.
  revert acc n. induction l as [|b l IH]; intros acc n Ha; [done|]. cbn [readDigits].
  destruct (isDigit b) eqn:E; [|done]. apply IH. apply isDigit_spec in E. lia.
Qed.

Lemma readDecimal_nonneg l : 0 <= (readDecimal l).1.2.
Proof.
  unfold readDecimal. destruct (readSign l) as [neg l1].
  pose proof (readDigits_nonneg l1 0 0 ltac:(lia)) as H1. destruct (readDigits l1 0 0) as [[i n1] l2]. cbn [fst] in H1.
  assert (exists d nf l3, (match l2 with [] => (i, 0, []) | b :: l' => if bool_decide (b = 46) then readDigits l' i 0 else (i, 0, l2) end) = (d, nf, l3) /\ 0 <= d)
    as (d & nf & l3 & -> & Hd).
  { destruct l2 as [|b l']; [by eexists _, _, _|]. case_bool_decide; [|by eexists _, _, _].
    pose proof (readDigits_nonneg l' i 0 H1) as H2. destruct (readDigits l' i 0) as [[x y] z]. by eexists _, _, _. }
  destruct l3 as [|b l3]; [done|]. destruct (_ || _); [|done].
  destruct (readSign l3) as [eneg l4]. by destruct (readDigits l4 0 0) as [[x y] z].
Qed.

(** The quotient that is rounded has at most 53 bits, and all of them unless it is denormal. *)
Lemma round_quotient num den t q : 0 < num -> 0 < den -> t = Z.max (-1074) (ratioLog2 num den - 52) ->
  let a := num * 2 ^ Z.max 0 (- t) in
  let b := den * 2 ^ Z.max 0 t in
  q = a / b \/ q = a / b + 1 -> 0 <= q <= 2 ^ 53 /\ (-1074 < t -> 2 ^ 52 <= q).
Proof.
  intros Hn Hd Et a b Hq. pose proof (ratioLog2_spec num den Hn Hd) as [LL LU]. set (L := ratioLog2 num den) in *.
  assert (0 < 2 ^ Z.max 0 t) as H2 by (apply Z.pow_pos_nonneg; lia). assert (0 < b) as Hb by (unfold b; nia).
  assert (0 < 2 ^ Z.max 0 (- t)) as H2' by (apply Z.pow_pos_nonneg; lia). assert (0 < a) as Ha by (unfold a; nia).
  assert (IZR b = IZR den * (IZR (2 ^ Z.max 0 (- t)) * pw 2 t))%R as Eb by (unfold b; by rewrite mult_IZR, (pw_split 2 t) by lia).
  assert (IZR a = IZR num * IZR (2 ^ Z.max 0 (- t)))%R as Ea by (unfold a; by rewrite mult_IZR).
  apply IZR_lt in Hd as HdR. apply IZR_lt in H2' as H2R. set (u := IZR (2 ^ Z.max 0 (- t))) in *.
  assert (a < 2 ^ 53 * b) as HU.
  { apply lt_IZR. rewrite mult_IZR, Ea, Eb.
    assert (pw 2 (L + 1) <= IZR (2 ^ 53) * pw 2 t)%R as Hp by (rewrite pw2_scale by lia; apply pw_le; lia).
    pose proof (pw_pos 2 t ltac:(lia)). 
    apply (Rlt_le_trans _ (IZR den * pw 2 (L + 1) * u)); [apply Rmult_lt_compat_r; [done|exact LU]|].
    replace (IZR (2 ^ 53) * (IZR den * (u * pw 2 t)))%R with (IZR den * (IZR (2 ^ 53) * pw 2 t) * u)%R by ring.
    apply Rmult_le_compat_r; [lra|]. apply Rmult_le_compat_l; [lra|done]. }
  assert (a / b < 2 ^ 53) as Hqb by (apply Z.div_lt_upper_bound; lia).
  assert (0 <= a / b) by (apply Z.div_pos; lia).
  split; [lia|]. intros Ht. assert (t = L - 52) as -> by lia.
  assert (2 ^ 52 <= a / b); [|lia]. apply Z.div_le_lower_bound; [done|]. apply le_IZR. rewrite (mult_IZR b), Ea, Eb.
  replace (pw 2 L) with (IZR (2 ^ 52) * pw 2 (L - 52))%R in LL by (rewrite pw2_scale by lia; f_equal; lia).
  replace (IZR den * (u * pw 2 (L - 52)) * IZR (2 ^ 52))%R with (IZR den * (IZR (2 ^ 52) * pw 2 (L - 52)) * u)%R by ring.
  apply Rmult_le_compat_r; [lra|exact LL].
Qed.

Lemma roundDouble_stored num den f e : 0 <= num -> 0 < den -> roundDouble num den = Some (f, e) ->
  (f = 0 /\ e = 0) \/ stored f e = true.
Proof.
  intros Hn Hd. unfold roundDouble. case_bool_decide; [intros; simplify_eq; by left|].
  set (t := Z.max (-1074) (ratioLog2 num den - 52)). set (a := num * _). set (b := den * _).
  set (q := if _ || _ then a / b else a / b + 1).
  destruct (round_quotient num den t q) as [Hq Hq']; [lia|done|done|unfold q; destruct (_ || _); auto|].
  clearbody q. case_bool_decide; [intros; simplify_eq; by left|]. unfold doubleOf.
  case_bool_decide as He; [|done]. intros E. right.
  assert (0 < q) as Hq0 by lia. unfold storedExponent in *.
  destruct (decide (q = 2 ^ 53)) as [->|Hne].
  - change (Z.log2 (2 ^ 53)) with 53 in *. replace (Z.max (-1074) (t + 53 - 52)) with (t + 1) in * by lia.
    rewrite bool_decide_false in E by lia. replace (t + 1 - t) with 1 in E by lia. change (2 ^ 53 / 2 ^ 1) with (2 ^ 52) in E.
    injection E as <- <-. apply stored_spec. split; [lia|]. split; [lia|]. left. lia.
  - assert (Z.log2 q <= 52) by (apply Z.lt_succ_r, Z.log2_lt_pow2; lia).
    assert (Z.max (-1074) (t + Z.log2 q - 52) = t) as Et.
    { destruct (decide (t = -1074)) as [->|]; [lia|]. assert (52 <= Z.log2 q) by (apply Z.log2_le_pow2; lia). lia. }
    rewrite Et in *. rewrite bool_decide_true, Z.sub_diag, Z.pow_0_r, Z.mul_1_r in E by lia. injection E as <- <-.
    apply stored_spec. split; [lia|]. split; [lia|]. destruct (decide (t = -1074)); [by right|]. left. lia.
Qed.

(** A double that was read is in the stored form. *)
Lemma strtod_canonical l m e : strtod l = Some (m, e) -> isDouble m e = true /\ canonFloat m e = (m, e).
Proof.
  unfold strtod. pose proof (readDecimal_nonneg l) as Hd. destruct (readDecimal l) as [[neg d] p]. cbn [fst snd] in Hd.
  destruct (roundDouble _ _) as [[f t]|] eqn:E; [|done]. intros H. injection H as <- <-.
  apply roundDouble_stored in E; [| |apply Z.pow_pos_nonneg; lia].
  2: { apply Z.mul_nonneg_nonneg; [done|]. apply Z.pow_nonneg. lia. }
  destruct E as [[-> ->] | E]; [by destruct neg|].
  pose proof (doubleOf_stored f t E) as Ed. apply stored_spec in E as (Hf & He & _).
  assert (forall s, s = f \/ s = - f -> Z.abs s = f /\ s <> 0) as Hs by lia.
  unfold isDouble, canonFloat. destruct (Hs (if neg then - f else f)) as [Ea Hne]; [destruct neg; auto|].
  rewrite Ea, (bool_decide_false (_ = 0)) by done. cbn [orb]. rewrite Ed.
  rewrite !bool_decide_true by lia. split; [done|]. destruct neg; [by rewrite bool_decide_true by lia|by rewrite bool_decide_false by lia].
Qed.
