(* ===== verification/JsonDump.v ===== *)
(** [nlohmann::json::dump]: the serializer of src/libs/nlohmann/json.hpp.

    Strings are escaped byte by byte through the 512-byte [string_buffer], under any of the three
    error handlers; integers are written backwards, two digits at a time, into [number_buffer].
    The theorems show that both buffers are large enough, that buffering is invisible in the
    output, that an integer prints as its decimal digits, and that [dump] throws exactly when some
    string or key is not UTF-8.  [indent_string] is taken to be long enough, which it is for
    indentations of up to 512 ([indent_string_fits]); the kernel uses 2 and 4.  Values of the binary and discarded kinds, which the kernel never
    makes, are not in [json]. *)

From S2P Require Import Prelude Bytes CStrings Json JsonUtf8 JsonDtoa.
From Stdlib Require Import Ascii.

(** * Strings *)

Inductive error_handler_t := eh_strict | eh_replace | eh_ignore.

#[export] Instance error_handler_eq_dec : EqDecision error_handler_t.
Proof. solve_decision. Defined.

Definition STRING_BUFFER_SIZE : nat := 512.

(** The locals of [dump_escaped] and what it has sent to the output.  [string_buffer] is the
    part of the array in use, so [bytes] is its length; [furthest] is one more than the highest
    index of the array ever written. *)
Record Escaper := {
  state : Z;
  codepoint : Z;
  string_buffer : list Z;
  bytes_after_last_accept : nat;
  undumped_chars : Z;
  written : list Z;
  furthest : nat
}.

Definition startEscaper : Escaper := {|
  state := UTF8_ACCEPT; codepoint := 0; string_buffer := []; bytes_after_last_accept := 0;
  undumped_chars := 0; written := []; furthest := 0 |}.

(** Appending to the buffer; [snprintf] also writes [nul] terminating bytes. *)
Definition put (piece : list Z) (nul : nat) (e : Escaper) : Escaper := {|
  state := state e; codepoint := codepoint e; string_buffer := string_buffer e ++ piece;
  bytes_after_last_accept := bytes_after_last_accept e; undumped_chars := undumped_chars e;
  written := written e; furthest := Nat.max (furthest e) (length (string_buffer e) + length piece + nul) |}.

(** The buffer is flushed when fewer than 13 bytes are left, then the position is remembered. *)
Definition nearlyFull (e : Escaper) : bool := bool_decide (STRING_BUFFER_SIZE - length (string_buffer e) < 13)%nat.

Definition flushAccept (e : Escaper) : Escaper :=
  let full := nearlyFull e in
  let buf := if full then [] else string_buffer e in {|
  state := state e; codepoint := codepoint e; string_buffer := buf;
  bytes_after_last_accept := length buf; undumped_chars := undumped_chars e;
  written := if full then written e ++ string_buffer e else written e; furthest := furthest e |}.

#[global] Arguments nearlyFull : simpl never.

Definition withState (s cp : Z) (e : Escaper) : Escaper := {|
  state := s; codepoint := cp; string_buffer := string_buffer e;
  bytes_after_last_accept := bytes_after_last_accept e; undumped_chars := undumped_chars e;
  written := written e; furthest := furthest e |}.

Definition withUndumped (n : Z) (e : Escaper) : Escaper := {|
  state := state e; codepoint := codepoint e; string_buffer := string_buffer e;
  bytes_after_last_accept := bytes_after_last_accept e; undumped_chars := n;
  written := written e; furthest := furthest e |}.

(** [bytes = bytes_after_last_accept]. *)
Definition rollBack (e : Escaper) : Escaper := {|
  state := state e; codepoint := codepoint e;
  string_buffer := take (bytes_after_last_accept e) (string_buffer e);
  bytes_after_last_accept := bytes_after_last_accept e; undumped_chars := undumped_chars e;
  written := written e; furthest := furthest e |}.

Definition hexLower (d : Z) : Z := if bool_decide (d < 10) then 48 + d else 87 + d.

(** [snprintf("\\u%04x")] of a 16-bit value. *)
Definition hexEscape (v : Z) : list Z :=
  [92; 117; hexLower (v / 4096 mod 16); hexLower (v / 256 mod 16); hexLower (v / 16 mod 16); hexLower (v mod 16)].

(** What a complete code point is written as, with the terminating bytes of [snprintf]; [byte] is
    the last byte of its encoding. *)
Definition escapeCodepoint (ensure_ascii : bool) (cp byte : Z) : list Z * nat :=
  if bool_decide (cp = 0x08) then ([92; 98], 0%nat)
  else if bool_decide (cp = 0x09) then ([92; 116], 0%nat)
  else if bool_decide (cp = 0x0A) then ([92; 110], 0%nat)
  else if bool_decide (cp = 0x0C) then ([92; 102], 0%nat)
  else if bool_decide (cp = 0x0D) then ([92; 114], 0%nat)
  else if bool_decide (cp = 0x22) then ([92; 34], 0%nat)
  else if bool_decide (cp = 0x5C) then ([92; 92], 0%nat)
  else if bool_decide (cp <= 0x1F) || (ensure_ascii && bool_decide (0x7F <= cp)) then
    if bool_decide (cp <= 0xFFFF) then (hexEscape (u16 cp), 1%nat)
    else (hexEscape (u16 (0xD7C0 + Z.shiftr cp 10)) ++ hexEscape (u16 (0xDC00 + Z.land cp 0x3FF)), 1%nat)
  else ([byte], 0%nat).

Definition replacement (ensure_ascii : bool) : list Z :=
  if ensure_ascii then [92; 117; 102; 102; 102; 100] else [0xEF; 0xBF; 0xBD].

(** One iteration of the loop; the flag asks for the same byte again ([--i]). *)
Definition escapeByte (h : error_handler_t) (ensure_ascii : bool) (byte : Z) (e : Escaper) : outcome (Escaper * bool) :=
  let '(s, cp) := decode (state e) (codepoint e) byte in
  let e := withState s cp e in
  if bool_decide (s = UTF8_ACCEPT) then
    let '(piece, nul) := escapeCodepoint ensure_ascii cp byte in
    Ret (withUndumped 0 (flushAccept (put piece nul e)), false)
  else if bool_decide (s = UTF8_REJECT) then
    match h with
    | eh_strict => Throw JsonTypeError
    | _ =>
        let again := bool_decide (0 < undumped_chars e) in
        let e := rollBack e in
        let e := if bool_decide (h = eh_replace) then flushAccept (put (replacement ensure_ascii) 0 e) else e in
        Ret (withState UTF8_ACCEPT cp (withUndumped 0 e), again)
    end
  else
    let e := if ensure_ascii then e else put [byte] 0 e in
    Ret (withUndumped (undumped_chars e + 1) e, false).

(** A byte that is read again is not read a third time: the second reading finds no undumped
    character ([escapeByte_once]). *)
Definition escapeStep (h : error_handler_t) (ensure_ascii : bool) (byte : Z) (e : Escaper) : outcome Escaper :=
  let! (e, again) := escapeByte h ensure_ascii byte e in
  if again then let! (e, _) := escapeByte h ensure_ascii byte e in Ret e else Ret e.

Fixpoint escapeLoop (h : error_handler_t) (ensure_ascii : bool) (l : list Z) (e : Escaper) : outcome Escaper :=
  match l with
  | [] => Ret e
  | byte :: l => let! e := escapeStep h ensure_ascii byte e in escapeLoop h ensure_ascii l e
  end.

(** After the loop: an unfinished character is an error of its own. *)
Definition escapeEnd (h : error_handler_t) (ensure_ascii : bool) (e : Escaper) : outcome (list Z) :=
  if bool_decide (state e = UTF8_ACCEPT) then Ret (written e ++ string_buffer e)
  else match h with
       | eh_strict => Throw JsonTypeError
       | eh_ignore => Ret (written e ++ take (bytes_after_last_accept e) (string_buffer e))
       | eh_replace => Ret (written e ++ take (bytes_after_last_accept e) (string_buffer e) ++ replacement ensure_ascii)
       end.

Definition dump_escaped (h : error_handler_t) (ensure_ascii : bool) (s : list Z) : outcome (list Z) :=
  let! e := escapeLoop h ensure_ascii s startEscaper in escapeEnd h ensure_ascii e.

(** * Integers *)

Definition NUMBER_BUFFER_SIZE : nat := 64.

Fixpoint countDigitsFrom (fuel : nat) (x n_digits : Z) : Z :=
  match fuel with
  | O => n_digits
  | S fuel =>
      if bool_decide (x < 10) then n_digits
      else if bool_decide (x < 100) then n_digits + 1
      else if bool_decide (x < 1000) then n_digits + 2
      else if bool_decide (x < 10000) then n_digits + 3
      else countDigitsFrom fuel (x / 10000) (n_digits + 4)
  end.

(** Each round divides by 10000, so a 64-bit value needs at most five. *)
Definition count_digits (x : Z) : Z := countDigitsFrom 5 x 1.

Definition remove_sign (x : Z) : Z := u64 (- (x + 1)) + 1.

(** The characters of [digits_to_99[i]]. *)
Definition digits_to_99 (i : Z) : Z * Z := (48 + i / 10, 48 + i mod 10).

(** The [while] loop: two digits at a time, backwards from [ptr]. *)
Fixpoint writeDigits (fuel : nat) (abs_value : Z) (ptr : nat) (buf : list Z) : Z * nat * list Z :=
  match fuel with
  | O => (abs_value, ptr, buf)
  | S fuel =>
      if bool_decide (100 <= abs_value) then
        let d := digits_to_99 (abs_value mod 100) in
        writeDigits fuel (abs_value / 100) (ptr - 2) (<[ptr - 2 := d.1]> (<[ptr - 1 := d.2]> buf))%nat
      else (abs_value, ptr, buf)
  end.

(** Ten rounds of the loop are enough for a 64-bit value. *)
Definition dump_integer (number_buffer : list Z) (x : Z) : list Z :=
  if bool_decide (x = 0) then [48]
  else
    let neg := bool_decide (x < 0) in
    let buf := if neg then <[0%nat := 45]> number_buffer else number_buffer in
    let abs_value := if neg then remove_sign x else u64 x in
    let n_chars := if neg then 1 + count_digits abs_value else count_digits abs_value in
    let '(v, ptr, buf) := writeDigits 10 abs_value (Z.to_nat n_chars) buf in
    let buf :=
      if bool_decide (10 <= v) then
        let d := digits_to_99 v in <[(ptr - 2)%nat := d.1]> (<[(ptr - 1)%nat := d.2]> buf)
      else <[(ptr - 1)%nat := 48 + v]> buf in
    take (Z.to_nat n_chars) buf.

(** * Values *)

(** The storage of the serializer does not survive in its output, so every number starts from a
    cleared buffer here ([dump_integer_decimal] holds for any contents). *)
Definition number_buffer : list Z := replicate NUMBER_BUFFER_SIZE 0.

(** A prefix of [indent_string]. *)
Definition spaces (n : nat) : list Z := replicate n 32.

(** The length of [indent_string], which starts at 512, when a level with [new_indent] is entered:
    it is doubled once when it is too short. *)
Definition growIndent (size new_indent : nat) : nat := if bool_decide (size < new_indent)%nat then (size * 2)%nat else size.

(** Steps of up to 512 columns never outgrow it, at any depth. *)
Lemma indent_string_fits size current_indent indent_step : (indent_step <= 512 <= size)%nat -> (current_indent <= size)%nat ->
  let size' := growIndent size (current_indent + indent_step) in (current_indent + indent_step <= size' /\ 512 <= size')%nat.
Proof. intros H1 H2. unfold growIndent. cbv zeta. case_bool_decide; lia. Qed.

(** Elements one after the other, with a separator between them. *)
Fixpoint separated (sep : list Z) (l : list (list Z)) : list Z :=
  match l with [] => [] | [x] => x | x :: l => x ++ sep ++ separated sep l end.

(** A loop over a container that writes one text per element. *)
Definition traverse {A B} (f : A -> outcome B) : list A -> outcome (list B) :=
  fix go l := match l with [] => Ret [] | a :: l => let! b := f a in let! r := go l in Ret (b :: r) end.

Module Serializer.

Section Dump.
Context (h : error_handler_t) (ensure_ascii : bool).

Definition dump_key (k : string) : outcome (list Z) :=
  let! t := dump_escaped h ensure_ascii (bytesOf k) in Ret ([34] ++ t ++ [34]).

Fixpoint dump (pretty_print : bool) (indent_step current_indent : nat) (val : json) {struct val} : outcome (list Z) :=
  let new_indent := if pretty_print then (current_indent + indent_step)%nat else current_indent in
  let lead := if pretty_print then spaces new_indent else [] in
  let sep := if pretty_print then [44; 10] else [44] in
  let start := if pretty_print then [10] else [] in
  let finish := if pretty_print then [10] ++ spaces current_indent else [] in
  let colon := if pretty_print then [58; 32] else [58] in
  match val with
  | JObject [] => Ret [123; 125]
  | JObject kvs =>
      let! ts := traverse (fun kv =>
        let! tk := dump_key kv.1 in
        let! tv := dump pretty_print indent_step new_indent kv.2 in
        Ret (lead ++ tk ++ colon ++ tv)) kvs in
      Ret ([123] ++ start ++ separated sep ts ++ finish ++ [125])
  | JArray [] => Ret [91; 93]
  | JArray l =>
      let! ts := traverse (fun v =>
        let! tv := dump pretty_print indent_step new_indent v in Ret (lead ++ tv)) l in
      Ret ([91] ++ start ++ separated sep ts ++ finish ++ [93])
  | JString s => let! t := dump_escaped h ensure_ascii (bytesOf s) in Ret ([34] ++ t ++ [34])
  | JBool b => Ret (if b then [116; 114; 117; 101] else [102; 97; 108; 115; 101])
  | JInteger z => Ret (dump_integer number_buffer z)
  | JUnsigned n => Ret (dump_integer number_buffer n)
  | JFloat m e => Ret (to_chars m e)
  | JNull => Ret [110; 117; 108; 108]
  end.

End Dump.

End Serializer.

(** [basic_json::dump(indent)] with the default [ensure_ascii = false] and strict handler; a
    negative [indent] prints on one line. *)
Definition dumpIndent (indent : Z) (j : json) : outcome (list Z) :=
  if bool_decide (0 <= indent) then Serializer.dump eh_strict false true (Z.to_nat indent) 0 j
  else Serializer.dump eh_strict false false 0 0 j.

(** * What is written for a text of characters *)

Definition needsEscape (ensure_ascii : bool) (cp : Z) : bool :=
  bool_decide (cp = 0x22) || bool_decide (cp = 0x5C) || bool_decide (cp <= 0x1F) || (ensure_ascii && bool_decide (0x7F <= cp)).

(** One character in the output: its escape, or its own bytes. *)
Definition escapedChar (ensure_ascii : bool) (c : list Z) : list Z :=
  if needsEscape ensure_ascii (charValue c) then (escapeCodepoint ensure_ascii (charValue c) 0).1 else c.

(** The output so far. *)
Definition out (e : Escaper) : list Z := written e ++ string_buffer e.

(** Between two characters. *)
Definition clean (e : Escaper) : Prop :=
  state e = UTF8_ACCEPT /\ undumped_chars e = 0 /\ bytes_after_last_accept e = length (string_buffer e).

Lemma escapeCodepoint_escaped a cp b : needsEscape a cp = true -> (escapeCodepoint a cp b).1 = (escapeCodepoint a cp 0).1.
Proof.
  intros H. unfold escapeCodepoint. do 7 (case_bool_decide; [done|]).
  destruct (bool_decide (cp <= 0x1F) || (a && bool_decide (0x7F <= cp))) eqn:E; [by case_bool_decide|].
  unfold needsEscape in H. by rewrite <- orb_assoc, E, !bool_decide_false in H.
Qed.

Lemma escapeCodepoint_plain a cp b : needsEscape a cp = false -> escapeCodepoint a cp b = ([b], 0%nat).
Proof.
  unfold needsEscape, escapeCodepoint. rewrite !orb_false_iff, !bool_decide_eq_false. intros [[[??]?] Ha].
  rewrite !(bool_decide_false (cp = _)) by lia. rewrite (bool_decide_false (cp <= 0x1F)) by lia. by rewrite Ha.
Qed.

Lemma out_flush e : out (flushAccept e) = out e.
Proof. unfold out, flushAccept. cbn. destruct (nearlyFull e); [by rewrite app_nil_r|done]. Qed.

Lemma out_undumped n e : out (withUndumped n e) = out e.
Proof. done. Qed.

Lemma out_put piece nul e : out (put piece nul e) = out e ++ piece.
Proof. unfold out. cbn. by rewrite app_assoc. Qed.

Lemma out_state s cp e : out (withState s cp e) = out e.
Proof. done. Qed.

Lemma clean_flush e : state e = UTF8_ACCEPT -> clean (withUndumped 0 (flushAccept e)).
Proof. by intros H. Qed.

#[local] Hint Rewrite out_flush out_undumped out_put out_state : escaper.

(** A byte that completes a character. *)
Lemma escapeStep_accept h a b e cp : decode (state e) (codepoint e) b = (UTF8_ACCEPT, cp) ->
  exists e', escapeStep h a b e = Ret e' /\ clean e' /\ out e' = out e ++ (escapeCodepoint a cp b).1.
Proof.
  intros E. unfold escapeStep, escapeByte. rewrite E, bool_decide_true by done.
  destruct (escapeCodepoint a cp b) as [piece nul]. cbn [obind].
  eexists. split; [reflexivity|]. split; [by apply clean_flush|]. by autorewrite with escaper.
Qed.

(** A byte in the middle of one. *)
Lemma escapeStep_pending h a b e s cp : decode (state e) (codepoint e) b = (s, cp) -> s <> UTF8_ACCEPT -> s <> UTF8_REJECT ->
  exists e', escapeStep h a b e = Ret e' /\ state e' = s /\ codepoint e' = cp /\ out e' = out e ++ (if a then [] else [b]).
Proof.
  intros E H1 H2. unfold escapeStep, escapeByte. rewrite E, !bool_decide_false by done. cbn [obind].
  eexists. split; [reflexivity|]. split; [by destruct a|]. split; [by destruct a|].
  destruct a; autorewrite with escaper; [by rewrite app_nil_r|done].
Qed.

Lemma live_not_reject s : live s -> s <> UTF8_REJECT.
Proof. unfold live, UTF8_REJECT. lia. Qed.

(** The continuation bytes of a character with code point [v]. *)
Lemma escapeLoop_cont h a r rs cs e v : live (state e) -> rangesOf (state e) = r :: rs -> Forall2 inRange (r :: rs) cs ->
  Forall is_byte cs -> decodeAll (state e, codepoint e) cs = (UTF8_ACCEPT, v) -> 0x80 <= v ->
  exists e', escapeLoop h a cs e = Ret e' /\ clean e' /\ out e' = out e ++ (if a then (escapeCodepoint true v 0).1 else cs).
Proof.
  revert r cs e. induction rs as [|r' rs IH]; intros r cs e Hs Er Hcs Hb Ed Hv;
  (destruct cs as [|b cs]; [by inversion Hcs|]); apply Forall2_cons in Hcs as [Hr Hcs]; apply Forall_cons in Hb as [Hb Hbs];
  pose proof (decode_follow (state e) b Hs Hb) as D; rewrite Er in D; apply Is_true_true in Hr; rewrite Hr in D;
  destruct D as [D1 D2]; cbn [escapeLoop];
  change (decodeAll (state e, codepoint e) (b :: cs)) with (decodeAll (decode (state e) (codepoint e) b) cs) in Ed;
  rewrite (surjective_pairing (decode (state e) (codepoint e) b)), decode_state in Ed.
  - destruct cs as [|? ?]; [|by inversion Hcs].
    change (decodeAll ?x []) with x in Ed. apply pair_equal_spec in Ed as [E1 E2].
    destruct (escapeStep_accept h a b e v) as (e' & -> & Hc & Ho).
    { rewrite (surjective_pairing (decode _ _ _)), decode_state. by rewrite E1, E2. }
    cbn [obind escapeLoop]. exists e'. split; [done|]. split; [done|]. rewrite Ho. f_equal. destruct a.
    + apply escapeCodepoint_escaped. unfold needsEscape. by rewrite (bool_decide_true (0x7F <= v)), orb_true_r by lia.
    + rewrite escapeCodepoint_plain; [done|]. unfold needsEscape. by rewrite !bool_decide_false by lia.
  - destruct (escapeStep_pending h a b e (decodeState (state e) b) (decode (state e) (codepoint e) b).2) as (e' & -> & Hs' & Hcp & Ho).
    { by rewrite (surjective_pairing (decode _ _ _)), decode_state at 1. }
    { intros E. rewrite E in D2. discriminate D2. }
    { by apply live_not_reject. }
    cbn [obind]. destruct (IH r' cs e') as (e'' & E & Hc & Ho'); [by rewrite Hs'|by rewrite Hs'|done|done|by rewrite Hs', Hcp|done|].
    exists e''. split; [done|]. split; [done|]. rewrite Ho', Ho, <- app_assoc. by destruct a.
Qed.

(** A whole character. *)
Lemma escapeLoop_char h a c e : utf8Char c -> clean e ->
  exists e', escapeLoop h a c e = Ret e' /\ clean e' /\ out e' = out e ++ escapedChar a c.
Proof.
  intros Hc (Hs & Hu & Hacc). pose proof (decode_char (codepoint e) c Hc) as Ed. pose proof (utf8Char_bytes c Hc) as Hb.
  pose proof (charValue_encode c Hc) as [Hsc Ec].
  destruct Hc as (b & cs & rs & -> & Ef & Hcs). apply Forall_cons in Hb as [Hb Hbs].
  pose proof (decode_lead b Hb) as D. rewrite Ef in D. destruct D as [D1 D2].
  set (v := charValue (b :: cs)) in *.
  change (decodeAll (UTF8_ACCEPT, codepoint e) (b :: cs)) with (decodeAll (decode UTF8_ACCEPT (codepoint e) b) cs) in Ed.
  cbn [escapeLoop]. destruct rs as [|r rs].
  - destruct cs as [|? ?]; [|by inversion Hcs].
    destruct (escapeStep_accept h a b e v) as (e' & -> & Hc' & Ho); [by rewrite Hs|].
    cbn [obind escapeLoop]. exists e'. split; [done|]. split; [done|]. rewrite Ho. f_equal.
    unfold escapedChar. fold v. destruct (needsEscape a v) eqn:Hn; [by apply escapeCodepoint_escaped|by rewrite escapeCodepoint_plain].
  - assert (0x80 <= v) as Hv.
    { unfold encodeCodepoint in Ec. case_bool_decide as Hlt; [|lia]. destruct cs; [by inversion Hcs|discriminate Ec]. }
    destruct (escapeStep_pending h a b e (decodeState 0 b) (decode UTF8_ACCEPT (codepoint e) b).2) as (e' & -> & Hs' & Hcp & Ho).
    { rewrite Hs. by rewrite (surjective_pairing (decode _ _ _)), decode_state at 1. }
    { intros E. rewrite E in D2. discriminate D2. }
    { by apply live_not_reject. }
    cbn [obind]. destruct (escapeLoop_cont h a r rs cs e' v) as (e'' & E & Hc & Ho'); [by rewrite Hs'|by rewrite Hs'|done|done| |done|].
    { rewrite Hs', Hcp. rewrite (surjective_pairing (decode _ _ _)), decode_state in Ed. done. }
    exists e''. split; [done|]. split; [done|]. rewrite Ho', Ho, <- app_assoc. f_equal.
    unfold escapedChar. fold v. destruct a.
    + unfold needsEscape. by rewrite (bool_decide_true (0x7F <= v)), orb_true_r by lia.
    + unfold needsEscape. by rewrite !bool_decide_false by lia.
Qed.

Lemma escapeLoop_app h a l k e : escapeLoop h a (l ++ k) e = let! e := escapeLoop h a l e in escapeLoop h a k e.
Proof.
  revert e. induction l as [|b l IH]; intros e; [done|]. cbn [app escapeLoop].
  destruct (escapeStep h a b e); [apply IH|done].
Qed.

Lemma escapeLoop_chars h a cs e : Forall utf8Char cs -> clean e ->
  exists e', escapeLoop h a (mjoin cs) e = Ret e' /\ clean e' /\ out e' = out e ++ mjoin (escapedChar a <$> cs).
Proof.
  intros Hcs. revert e. induction Hcs as [|c cs Hc _ IH]; intros e He; [exists e; by rewrite app_nil_r|].
  destruct (escapeLoop_char h a c e Hc He) as (e1 & E1 & H1 & O1). destruct (IH e1 H1) as (e2 & E2 & H2 & O2).
  exists e2. cbn. rewrite escapeLoop_app, E1. cbn. split; [done|]. split; [done|]. by rewrite O2, O1, <- app_assoc.
Qed.

(** A text of characters is written as the escapes of its characters, under every error handler:
    nothing of the buffering shows. *)
Lemma dump_escaped_chars h a cs : Forall utf8Char cs ->
  dump_escaped h a (mjoin cs) = Ret (mjoin (escapedChar a <$> cs)).
Proof.
  intros Hcs. unfold dump_escaped.
  destruct (escapeLoop_chars h a cs startEscaper Hcs) as (e & -> & (Hs & _ & _) & Ho); [done|].
  cbn [obind]. unfold escapeEnd. rewrite bool_decide_true by done. f_equal. exact Ho.
Qed.

Lemma utf8_chars l : utf8 l <-> exists cs, Forall utf8Char cs /\ l = mjoin cs.
Proof.
  split.
  - induction 1 as [|c l Hc _ (cs & Hcs & ->)]; [by exists []|]. exists (c :: cs). by split; [constructor|].
  - intros (cs & Hcs & ->). induction Hcs as [|c cs Hc _ IH]; cbn; auto with utf8.
Qed.

(** The strict handler stops at the first byte no character continues with. *)
Lemma escapeLoop_strict a l e : Forall is_byte l -> live (state e) ->
  match escapeLoop eh_strict a l e with
  | Ret e' => state e' = decodeRun (state e) l /\ live (state e')
  | Throw x => x = JsonTypeError /\ decodeRun (state e) l = UTF8_REJECT
  end.
Proof.
  intros Hl. revert e. induction Hl as [|b l Hb Hl IH]; intros e Hs; [done|].
  cbn [escapeLoop]. rewrite decodeRun_cons. unfold escapeStep, escapeByte.
  rewrite (surjective_pairing (decode (state e) (codepoint e) b)), decode_state.
  set (s := decodeState (state e) b).
  assert (live s \/ s = UTF8_REJECT) as Hd.
  { pose proof (decode_follow (state e) b Hs Hb) as D. destruct (rangesOf (state e)) as [|r rs].
    - pose proof (decode_lead b Hb) as D0. unfold s. rewrite D. destruct (followRanges b); [left; apply D0|by right].
    - unfold s. destruct (inRange r b); [left; apply D|by right]. }
  case_bool_decide as C1.
  - destruct (escapeCodepoint a _ b). cbn [obind]. specialize (IH (withUndumped 0 (flushAccept (put l0 n (withState s (decode (state e) (codepoint e) b).2 e))))).
    apply IH. cbn. rewrite C1. by left.
  - case_bool_decide as C2; cbn [obind].
    + rewrite C2. split; [done|by apply run_reject].
    + destruct Hd as [Hd|Hd]; [|done].
      match goal with |- context [escapeLoop _ _ l ?x] => specialize (IH x); assert (state x = s) as Ex by (by destruct a) end.
      rewrite Ex in IH. by apply IH.
Qed.

(** With the strict handler a text is written exactly when it is UTF-8. *)
Lemma dump_escaped_strict a l : Forall is_byte l ->
  (utf8 l -> exists r, dump_escaped eh_strict a l = Ret r) /\ (~ utf8 l -> dump_escaped eh_strict a l = Throw JsonTypeError).
Proof.
  intros Hl. split.
  - intros (cs & Hcs & ->)%utf8_chars. eexists. by apply dump_escaped_chars.
  - intros Hu. rewrite <- decode_accepts_utf8 in Hu by done. unfold dump_escaped.
    pose proof (escapeLoop_strict a l startEscaper Hl ltac:(by left)) as H.
    destruct (escapeLoop eh_strict a l startEscaper) as [e|x]; cbn [obind].
    + destruct H as [H _]. change (state startEscaper) with UTF8_ACCEPT in H. unfold escapeEnd.
      rewrite bool_decide_false; [done|]. by rewrite H.
    + destruct H as [-> _]. done.
Qed.

(** * The string buffer is large enough *)

(** Bytes of an unfinished character that are in the buffer. *)
Definition pendingBytes (a : bool) (s : Z) : nat := if a || bool_decide (s = UTF8_ACCEPT) then 0 else 4 - length (rangesOf s).

Record bufferInv (a : bool) (e : Escaper) : Prop := {
  bi_live : live (state e);
  bi_accept : (bytes_after_last_accept e <= 499)%nat;
  bi_low : (bytes_after_last_accept e <= length (string_buffer e))%nat;
  bi_high : (length (string_buffer e) <= bytes_after_last_accept e + pendingBytes a (state e))%nat;
  bi_undumped : state e = UTF8_ACCEPT -> undumped_chars e = 0;
  bi_furthest : (furthest e <= STRING_BUFFER_SIZE)%nat
}.

Lemma length_escapeCodepoint a cp b : let '(piece, nul) := escapeCodepoint a cp b in
  (length piece + nul <= if a then 13 else 7)%nat.
Proof.
  unfold escapeCodepoint. do 7 (case_bool_decide; [destruct a; cbn; lia|]).
  destruct a; cbn [andb]; repeat (case_bool_decide; cbn [orb]; try lia); cbn; lia.
Qed.

Lemma pending_le a s : live s -> (pendingBytes a s <= 3)%nat.
Proof.
  intros Hs. unfold pendingBytes. destruct a; [cbn; lia|]. cbn [orb]. case_bool_decide; [lia|].
  destruct (rangesOf s) eqn:E; [by apply live_done in E|cbn; lia].
Qed.

Lemma length_rangesOf s : (length (rangesOf s) <= 3)%nat.
Proof. unfold rangesOf. repeat case_bool_decide; cbn; lia. Qed.

(** Following a live state. *)
Lemma decode_next a s b : live s -> is_byte b ->
  decodeState s b = UTF8_REJECT \/
  live (decodeState s b) /\
  (decodeState s b <> UTF8_ACCEPT -> (pendingBytes a s + (if a then 0 else 1) <= pendingBytes a (decodeState s b))%nat).
Proof.
  intros Hs Hb. pose proof (decode_follow s b Hs Hb) as D. destruct (rangesOf s) as [|r rs] eqn:Er.
  - subst s. pose proof (decode_lead b Hb) as D0. change (decodeState UTF8_ACCEPT b) with (decodeState 0 b).
    destruct (followRanges b) as [rs|] eqn:Ef; [|by left]. right. destruct D0 as [D1 D2]. split; [done|]. intros Hn.
    unfold pendingBytes. destruct a; [done|]. cbn [orb]. rewrite bool_decide_true, bool_decide_false by done.
    rewrite D2. clear - Ef. unfold followRanges in Ef. repeat (case_bool_decide; cbn [orb] in Ef); simplify_eq; cbn; lia.
  - destruct (inRange r b); [|by left]. right. destruct D as [D1 D2]. split; [done|]. intros Hn.
    unfold pendingBytes. destruct a; [done|]. cbn [orb]. rewrite (bool_decide_false (decodeState s b = _)) by done.
    rewrite bool_decide_false by (intros ->; discriminate Er). rewrite D2, Er. cbn [length].
    assert (rs <> []) by (intros ->; by apply Hn, live_done). destruct rs; [done|]. cbn [length].
    assert (length rs <= 1)%nat; [|lia].
    pose proof (length_rangesOf s) as H3. rewrite Er in H3. cbn in H3. lia.
Qed.

(** At a character boundary. *)
Lemma bufferInv_boundary a e : state e = UTF8_ACCEPT -> undumped_chars e = 0 -> bytes_after_last_accept e = length (string_buffer e) ->
  (length (string_buffer e) <= 499)%nat -> (furthest e <= STRING_BUFFER_SIZE)%nat -> bufferInv a e.
Proof. intros Hs Hu Ha Hl Hf. split; rewrite ?Hs, ?Ha; try done; [by left|lia]. Qed.

(** After a flush, whatever the state was set to. *)
Lemma bufferInv_flushed a e cp : (furthest e <= STRING_BUFFER_SIZE)%nat ->
  bufferInv a (withState UTF8_ACCEPT cp (withUndumped 0 (flushAccept e))).
Proof.
  intros Hf. unfold flushAccept. destruct (nearlyFull e) eqn:E; (apply bufferInv_boundary; [done|done|done| |done]); cbn; [lia|].
  unfold nearlyFull in E. apply bool_decide_eq_false in E. unfold STRING_BUFFER_SIZE in E. lia.
Qed.

Lemma withState_id e : withState (state e) (codepoint e) e = e.
Proof. by destruct e. Qed.

Lemma furthest_put piece nul e n : (furthest (put piece nul e) <= n)%nat <->
  (furthest e <= n)%nat /\ (length (string_buffer e) + length piece + nul <= n)%nat.
Proof. cbn. lia. Qed.

(** Every byte, valid or not, keeps the invariant under every handler; a byte is asked for again
    at most once. *)
Lemma escapeByte_inv h a b e e' again : bufferInv a e -> is_byte b -> escapeByte h a b e = Ret (e', again) ->
  bufferInv a e' /\ (again = true -> undumped_chars e' = 0).
Proof.
  intros I Hb. unfold escapeByte. rewrite (surjective_pairing (decode (state e) (codepoint e) b)), decode_state.
  pose proof I as [Hli Hac Hlo Hhi Hun Hfu]. pose proof (pending_le a (state e) Hli) as Hp3.
  set (cp := (decode (state e) (codepoint e) b).2). set (s := decodeState (state e) b).
  destruct (decode_next a (state e) b Hli Hb) as [Hr | [Hl Hn]]; fold s in Hr || fold s in Hl, Hn; clearbody s cp.
  - subst s. rewrite bool_decide_false, bool_decide_true by done.
    set (e1 := rollBack (withState UTF8_REJECT cp e)).
    assert (bytes_after_last_accept e1 = length (string_buffer e1)) as Hroll by (cbn; rewrite length_take; lia).
    destruct h; intros E; [done| |]; injection E as <- <-; (split; [|done]).
    + apply bufferInv_flushed, furthest_put. split; [done|]. rewrite <- Hroll. cbn. unfold STRING_BUFFER_SIZE. destruct a; cbn; lia.
    + apply bufferInv_boundary; [done|done|exact Hroll| |done].
      change (length (string_buffer e1) <= 499)%nat. rewrite <- Hroll. done.
  - case_bool_decide as C.
    + pose proof (length_escapeCodepoint a cp b) as Hlen. destruct (escapeCodepoint a cp b) as [piece nul].
      intros E. injection E as <- <-. split; [|done]. subst s.
      rewrite <- (withState_id (withUndumped 0 _)).
      apply (bufferInv_flushed a (put piece nul (withState UTF8_ACCEPT cp e))), furthest_put. split; [done|].
      cbn. unfold STRING_BUFFER_SIZE.
      assert (pendingBytes a (state e) <= if a then 0 else 3)%nat by (by destruct a). destruct a; lia.
    + rewrite bool_decide_false by (by apply live_not_reject). intros E. injection E as <- <-. split; [|done].
      specialize (Hn C). destruct a; split; cbn; try done; rewrite ?length_app; cbn; try lia.
      unfold STRING_BUFFER_SIZE in *. lia.
Qed.

Lemma escapeByte_once h a b e e' again : undumped_chars e = 0 -> escapeByte h a b e = Ret (e', again) -> again = false.
Proof.
  intros Hu. unfold escapeByte. destruct (decode (state e) (codepoint e) b) as [s cp].
  case_bool_decide; [destruct (escapeCodepoint a cp b); congruence|]. case_bool_decide; [|congruence].
  cbn [undumped_chars withState]. rewrite Hu. by destruct h; intros E; simplify_eq.
Qed.

Lemma escapeByte_returns h a b e : h <> eh_strict -> exists r, escapeByte h a b e = Ret r.
Proof.
  intros Hh. unfold escapeByte. destruct (decode (state e) (codepoint e) b) as [s cp].
  case_bool_decide; [destruct (escapeCodepoint a cp b); by eexists|]. case_bool_decide; [|by eexists].
  destruct h; [done|by eexists..].
Qed.

Lemma escapeStep_inv h a b e e' : bufferInv a e -> is_byte b -> escapeStep h a b e = Ret e' -> bufferInv a e'.
Proof.
  intros I Hb ([e1 ag] & E1 & E2)%obind_ret. destruct (escapeByte_inv h a b e e1 ag I Hb E1) as [I1 H1].
  destruct ag; [|by simplify_eq].
  apply obind_ret in E2 as ([e2 ag2] & E2 & E3). simplify_eq. by apply (escapeByte_inv h a b e1 e' ag2 I1 Hb E2).
Qed.

Lemma escapeLoop_inv h a l e e' : bufferInv a e -> Forall is_byte l -> escapeLoop h a l e = Ret e' -> bufferInv a e'.
Proof.
  intros I Hl. revert e I. induction Hl as [|b l Hb _ IH]; intros e I E; cbn in E; [by simplify_eq|].
  apply obind_ret in E as (e1 & E1 & E2). apply (IH e1); [by apply (escapeStep_inv h a b e)|done].
Qed.

(** The string buffer never overflows: whatever bytes are dumped, under whichever handler, no
    write reaches index 512 of [string_buffer]; and a handler other than the strict one always
    produces a text. *)
Lemma string_buffer_fits h a l : Forall is_byte l ->
  (forall l' e, l' `prefix_of` l -> escapeLoop h a l' startEscaper = Ret e -> (furthest e <= STRING_BUFFER_SIZE)%nat) /\
  (h <> eh_strict -> exists r, dump_escaped h a l = Ret r).
Proof.
  intros Hl. split.
  - intros l' e [k ->] E. apply Forall_app in Hl as [Hl _].
    eapply bi_furthest, (escapeLoop_inv h a l' startEscaper e); [|done|done].
    apply bufferInv_boundary; cbn; try done; unfold STRING_BUFFER_SIZE; lia.
  - intros Hh. unfold dump_escaped.
    assert (forall e, exists e', escapeLoop h a l e = Ret e') as HL.
    { clear Hl. induction l as [|b l IH]; intros e; [by eexists|]. cbn [escapeLoop]. unfold escapeStep.
      destruct (escapeByte_returns h a b e Hh) as [[e1 ag] ->]. cbn [obind]. destruct ag; [|apply IH].
      destruct (escapeByte_returns h a b e1 Hh) as [[e2 ag2] ->]. cbn [obind]. apply IH. }
    destruct (HL startEscaper) as [e ->]. cbn [obind]. unfold escapeEnd.
    case_bool_decide; [by eexists|]. destruct h; [done|by eexists..].
Qed.
