(* ===== verification/JsonDumpProps.v ===== *)
(** Printed numbers, and which values can be dumped. *)

From S2P Require Import Prelude Bytes CStrings Json JsonUtf8 JsonDtoa JsonDtoaProps JsonDtoaRound JsonDump.
From Stdlib Require Import Ascii.

(** * Counting and writing digits *)

(** [x] has [n] decimal digits. *)
Definition hasDigits (x : Z) (n : nat) : Prop := (1 <= n)%nat /\ 10 ^ (Z.of_nat n - 1) <= x < 10 ^ Z.of_nat n.

Lemma countDigitsFrom_spec fuel x n : 0 < x < 10000 ^ Z.of_nat fuel ->
  exists k, countDigitsFrom fuel x n = n + Z.of_nat k /\ hasDigits x (S k).
Proof.
  revert x n. induction fuel as [|fuel IH]; intros x n Hx; [change (10000 ^ Z.of_nat 0) with 1 in Hx; lia|].
  cbn [countDigitsFrom]. unfold hasDigits.
  case_bool_decide; [exists 0%nat; cbn; lia|]. case_bool_decide; [exists 1%nat; cbn; lia|].
  case_bool_decide; [exists 2%nat; cbn; lia|]. case_bool_decide; [exists 3%nat; cbn; lia|].
  rewrite Nat2Z.inj_succ, Z.pow_succ_r in Hx by lia.
  assert (0 < x / 10000) as Hq by (apply Z.div_str_pos; lia).
  destruct (IH (x / 10000) (n + 4)) as (k & E & _ & Hk); [split; [lia|apply Z.div_lt_upper_bound; lia]|].
  exists (k + 4)%nat. split; [lia|]. split; [lia|].
  replace (Z.of_nat (S (k + 4)) - 1) with (Z.of_nat (S k) - 1 + 4) by lia.
  replace (Z.of_nat (S (k + 4))) with (Z.of_nat (S k) + 4) by lia. rewrite !Z.pow_add_r by lia.
  change (10 ^ 4) with 10000. pose proof (Z.div_mod x 10000 ltac:(lia)). pose proof (Z.mod_pos_bound x 10000 ltac:(lia)). nia.
Qed.

Lemma count_digits_spec x : 0 < x < 2 ^ 64 -> exists k, count_digits x = Z.of_nat k /\ hasDigits x k.
Proof.
  intros Hx. destruct (countDigitsFrom_spec 5 x 1) as (k & E & H); [change (10000 ^ Z.of_nat 5) with (10 ^ 20); lia|].
  exists (S k). unfold count_digits. rewrite E. split; [lia|done].
Qed.

Lemma insert_at {A} (l k : list A) x y i : i = length l -> <[i:=y]> (l ++ x :: k) = l ++ y :: k.
Proof. intros ->. by rewrite insert_app_r_alt, Nat.sub_diag by lia. Qed.

(** A list with at least two elements ends in two. *)
Lemma split_two {A} (l : list A) : (2 <= length l)%nat -> exists k x y, l = k ++ [x; y].
Proof.
  intros H. exists (take (length l - 2) l).
  destruct (drop (length l - 2) l) as [|x [|y [|z t]]] eqn:E;
  pose proof (f_equal length E) as El; rewrite length_drop in El; cbn in El; try lia.
  exists x, y. by rewrite <- E, take_drop.
Qed.

(** Two digits written before the ones that are there. *)
Lemma write_two (P J D S : list Z) x y d1 d2 n : n = length (P ++ J ++ [x; y]) ->
  <[(n - 2)%nat := d1]> (<[(n - 1)%nat := d2]> (P ++ (J ++ [x; y]) ++ D ++ S)) = P ++ J ++ (d1 :: d2 :: D) ++ S.
Proof.
  intros ->. rewrite !length_app. cbn [length].
  replace (P ++ (J ++ [x; y]) ++ D ++ S) with ((P ++ J ++ [x]) ++ y :: D ++ S) by (by rewrite <- !app_assoc).
  rewrite (insert_at (P ++ J ++ [x])) by (rewrite !length_app; cbn; lia).
  replace ((P ++ J ++ [x]) ++ d2 :: D ++ S) with ((P ++ J) ++ x :: d2 :: D ++ S) by (by rewrite <- !app_assoc).
  rewrite (insert_at (P ++ J)) by (rewrite !length_app; cbn; lia). by rewrite <- !app_assoc.
Qed.

Lemma digits_to_99_spec i : 0 <= i < 100 ->
  48 <= (digits_to_99 i).1 <= 57 /\ 48 <= (digits_to_99 i).2 <= 57 /\ ((digits_to_99 i).1 - 48) * 10 + ((digits_to_99 i).2 - 48) = i.
Proof. intros Hi. unfold digits_to_99. cbn. Z.div_mod_to_equations. lia. Qed.

Lemma digitsValue_cons d l : digitsValue (d :: l) = (d - 48) * 10 ^ Z.of_nat (length l) + digitsValue l.
Proof. change (d :: l) with ([d] ++ l). rewrite digitsValue_app. f_equal. Qed.

(** The loop moves two digits at a time from the number to the front of those written. *)
Lemma writeDigits_spec fuel v (P J D S : list Z) :
  hasDigits v (length J) -> v < 100 ^ (Z.of_nat fuel + 1) -> allDigits D ->
  exists v' J' D', writeDigits fuel v (length (P ++ J)) (P ++ J ++ D ++ S) = (v', length (P ++ J'), P ++ J' ++ D' ++ S) /\
    v' < 100 /\ hasDigits v' (length J') /\ allDigits D' /\
    v' * 10 ^ Z.of_nat (length D') + digitsValue D' = v * 10 ^ Z.of_nat (length D) + digitsValue D /\
    (length J' + length D' = length J + length D)%nat.
Proof.
  revert v J D. induction fuel as [|fuel IH]; intros v J D HJ Hv HD.
  { exists v, J, D. split; [done|]. cbn in Hv. split; [lia|]. do 2 (split; [done|]). lia. }
  cbn [writeDigits]. case_bool_decide as Hlt.
  2: { exists v, J, D. split; [done|]. split; [lia|]. do 2 (split; [done|]). lia. }
  destruct HJ as [HJ1 HJ2].
  assert (3 <= length J)%nat as HJ3.
  { apply Nat.nlt_ge. intros Hc. assert (10 ^ Z.of_nat (length J) <= 10 ^ 2) by (apply Z.pow_le_mono_r; lia). lia. }
  destruct (split_two J ltac:(lia)) as (J0 & x & y & ->). rewrite length_app in *. cbn [length] in *.
  rewrite write_two by (by rewrite !length_app).
  pose proof (Z.div_mod v 100 ltac:(lia)) as Ev. pose proof (Z.mod_pos_bound v 100 ltac:(lia)) as Bv.
  destruct (digits_to_99_spec (v mod 100) Bv) as (R1 & R2 & R3).
  set (d1 := (digits_to_99 (v mod 100)).1) in *. set (d2 := (digits_to_99 (v mod 100)).2) in *.
  destruct (IH (v / 100) J0 (d1 :: d2 :: D)) as (v' & J' & D' & E & H1 & H2 & H3 & H4 & H5).
  - split; [lia|].
    replace (Z.of_nat (length J0 + 2) - 1) with (Z.of_nat (length J0) - 1 + 2) in HJ2 by lia.
    replace (Z.of_nat (length J0 + 2)) with (Z.of_nat (length J0) + 2) in HJ2 by lia.
    rewrite !Z.pow_add_r in HJ2 by lia. change (10 ^ 2) with 100 in HJ2. lia.
  - apply Z.div_lt_upper_bound; [lia|]. rewrite Nat2Z.inj_succ in Hv.
    replace (Z.succ (Z.of_nat fuel) + 1) with (Z.succ (Z.of_nat fuel + 1)) in Hv by lia. rewrite Z.pow_succ_r in Hv by lia. lia.
  - repeat constructor; done || lia.
  - exists v', J', D'. split; [rewrite <- E; f_equal; rewrite !length_app; cbn [length]; lia|]. do 3 (split; [done|]). cbn [length] in H4, H5. split; [|rewrite length_app; cbn [length]; lia].
    rewrite H4, !digitsValue_cons. cbn [length]. rewrite !Nat2Z.inj_succ, !Z.pow_succ_r by lia.
    set (X := 10 ^ Z.of_nat (length D)). set (q := v / 100) in *.
    assert (v * X = (100 * q + ((d1 - 48) * 10 + (d2 - 48))) * X) as -> by (f_equal; lia). ring.
Qed.

Lemma remove_sign_spec x : - 2 ^ 63 <= x < 0 -> remove_sign x = - x.
Proof. intros Hx. unfold remove_sign. rewrite u64_id; lia. Qed.

Lemma hasDigits_bound x n m : hasDigits x n -> x < 10 ^ Z.of_nat m -> (n <= m)%nat.
Proof.
  intros [Hn [HL _]] HU. apply Nat.nlt_ge. intros Hlt.
  assert (10 ^ Z.of_nat m <= 10 ^ (Z.of_nat n - 1)) by (apply Z.pow_le_mono_r; lia). lia.
Qed.

(** The digits of a positive 64-bit value, written after the prefix [P] of the buffer. *)
Lemma writeNumber (P J S : list Z) v k : 0 < v < 2 ^ 64 -> hasDigits v k -> length J = k ->
  exists ds, decimalDigits ds /\ digitsValue ds = v /\ length ds = k /\
    (let '(w, ptr, buf) := writeDigits 10 v (length P + k) (P ++ J ++ S) in
     if bool_decide (10 <= w) then <[(ptr - 2)%nat := (digits_to_99 w).1]> (<[(ptr - 1)%nat := (digits_to_99 w).2]> buf)
     else <[(ptr - 1)%nat := 48 + w]> buf) = P ++ ds ++ S.
Proof.
  intros Hv Hk HJ.
  destruct (writeDigits_spec 10 v P J [] S) as (w & J' & D' & E & H1 & H2 & H3 & H4 & H5).
  { by rewrite HJ. } { change (100 ^ (Z.of_nat 10 + 1)) with (10 ^ 22). lia. } { constructor. }
  rewrite length_app, HJ in E. cbn [app] in E. rewrite E. cbn [length] in H4, H5. change (digitsValue []) with 0 in H4.
  change (10 ^ Z.of_nat 0) with 1 in H4. destruct H2 as [HJ1 HJ2]. case_bool_decide as C.
  - assert (length J' = 2%nat) as L2.
    { assert (length J' <= 2)%nat by (apply (hasDigits_bound w); [done|change (10 ^ Z.of_nat 2) with 100; lia]).
      destruct (decide (length J' = 1%nat)) as [L|]; [rewrite L in HJ2; cbn in HJ2; lia|lia]. }
    destruct J' as [|x [|y [|? ?]]]; try done.
    destruct (digits_to_99_spec w ltac:(lia)) as (R1 & R2 & R3).
    exists ((digits_to_99 w).1 :: (digits_to_99 w).2 :: D'). split; [|split; [|split]].
    + split; [constructor; [lia|]; constructor; [lia|done]|]. eexists _, _. split; [done|]. lia.
    + rewrite !digitsValue_cons. cbn [length]. rewrite Nat2Z.inj_succ, Z.pow_succ_r by lia.
      replace v with (w * 10 ^ Z.of_nat (length D') + digitsValue D') by lia.
      replace w with (((digits_to_99 w).1 - 48) * 10 + ((digits_to_99 w).2 - 48)) at 3 by done. ring.
    + cbn [length] in *. lia.
    + by rewrite (write_two P [] D' S x y).
  - assert (length J' = 1%nat) as L1.
    { assert (length J' <= 1)%nat; [|lia]. apply (hasDigits_bound w); [done|]. change (10 ^ Z.of_nat 1) with 10. lia. }
    destruct J' as [|x [|? ?]]; try done. rewrite L1 in HJ2. change (10 ^ (Z.of_nat 1 - 1)) with 1 in HJ2.
    exists ((48 + w) :: D'). split; [|split; [|split]].
    + split; [constructor; [lia|done]|]. eexists _, _. split; [done|]. lia.
    + rewrite digitsValue_cons. lia.
    + cbn [length] in *. lia.
    + rewrite length_app. cbn [length app]. by rewrite insert_at by lia.
Qed.

Definition integerText (x : Z) (ds : list Z) : list Z := (if bool_decide (x < 0) then [45] else []) ++ ds.

(** An integer prints as its sign and its decimal digits, whatever the buffer held before. *)
Lemma dump_integer_decimal nb x : length nb = NUMBER_BUFFER_SIZE -> - 2 ^ 63 <= x < 2 ^ 64 ->
  exists ds, dump_integer nb x = integerText x ds /\ (ds = [48] \/ decimalDigits ds) /\ digitsValue ds = Z.abs x.
Proof.
  intros Hnb Hx. unfold dump_integer. case_bool_decide as H0; [subst x; exists [48]; auto|].
  set (P := if bool_decide (x < 0) then [45] else []).
  set (v := if bool_decide (x < 0) then remove_sign x else u64 x).
  assert (v = Z.abs x) as Ev.
  { unfold v. case_bool_decide; [rewrite remove_sign_spec by lia|rewrite u64_id by lia]; lia. }
  destruct (count_digits_spec v) as (k & Ek & Hk); [lia|].
  assert (k <= 20)%nat as Hk20 by (apply (hasDigits_bound v); [done|change (10 ^ Z.of_nat 20) with (10 ^ 20); lia]).
  destruct (writeNumber P (take k (drop (length P) nb)) (drop (length P + k) nb) v k) as (ds & Hds & Hv & Hl & E); [lia|done| |].
  { rewrite length_take, length_drop, Hnb. unfold NUMBER_BUFFER_SIZE, P. destruct (bool_decide _); cbn; lia. }
  exists ds. split; [|split; [by right|by rewrite Hv, Ev]].
  assert (Z.to_nat (if bool_decide (x < 0) then 1 + count_digits v else count_digits v) = (length P + k)%nat) as ->.
  { rewrite Ek. unfold P. destruct (bool_decide _); cbn; lia. }
  assert ((if bool_decide (x < 0) then <[0%nat := 45]> nb else nb) = P ++ take k (drop (length P) nb) ++ drop (length P + k) nb) as ->.
  { rewrite <- (drop_drop nb k (length P)), take_drop. unfold P. destruct (bool_decide _); [|done]. by destruct nb. }
  destruct (writeDigits 10 v (length P + k) _) as [[w ptr] buf]. unfold integerText. fold P.
  rewrite E. rewrite app_assoc, <- Hl, <- length_app. apply take_app_length.
Qed.

(** * Printed integers are decimal texts *)

Lemma decimal_bounds ds : decimalDigits ds -> hasDigits (digitsValue ds) (length ds).
Proof.
  intros (Ha & d & l & -> & Hd). apply Forall_cons in Ha as [Hd' Hl]. split; [cbn; lia|].
  rewrite digitsValue_cons. cbn [length]. rewrite Nat2Z.inj_succ, Z.pow_succ_r by lia.
  replace (Z.succ (Z.of_nat (length l)) - 1) with (Z.of_nat (length l)) by lia.
  assert (0 <= digitsValue l < 10 ^ Z.of_nat (length l)) as H; [|nia].
  clear Hd Hd'. induction Hl as [|x l Hx _ IH]; [cbn; lia|].
  rewrite digitsValue_cons. cbn [length]. rewrite Nat2Z.inj_succ, Z.pow_succ_r by lia. nia.
Qed.

Lemma digits_same_length l k : allDigits l -> allDigits k -> length l = length k -> digitsValue l = digitsValue k -> l = k.
Proof.
  intros Hl. revert k. induction l as [|x l IH] using rev_ind; intros k Hk El Ev.
  { by destruct k. }
  destruct k as [|y k _] using rev_ind; [rewrite length_app in El; cbn in El; lia|].
  rewrite !length_app in El. cbn in El. rewrite !digitsValue_snoc in Ev.
  apply Forall_app in Hl as [Hl [Hx _]%Forall_cons]. apply Forall_app in Hk as [Hk [Hy _]%Forall_cons].
  assert (x = y) as <- by lia. f_equal. apply IH; [done|done|lia|lia].
Qed.

(** A number has one decimal text. *)
Lemma decimal_unique l k : decimalDigits l -> decimalDigits k -> digitsValue l = digitsValue k -> l = k.
Proof.
  intros Hl Hk E. apply digits_same_length; [by apply decimalDigits_all..| |done].
  pose proof (decimal_bounds l Hl) as Bl. pose proof (decimal_bounds k Hk) as Bk. rewrite E in Bl.
  apply Nat.le_antisymm; [apply (hasDigits_bound (digitsValue k)); [done|apply Bk]|apply (hasDigits_bound (digitsValue k)); [done|apply Bl]].
Qed.

Lemma pretty_N_code (d : N) : (d < 10)%N -> code (pretty_N_char d) = 48 + Z.of_N d.
Proof.
  intros. assert (d = 0 \/ d = 1 \/ d = 2 \/ d = 3 \/ d = 4 \/ d = 5 \/ d = 6 \/ d = 7 \/ d = 8 \/ d = 9)%N
    as Hd by lia. by destruct_or! Hd; subst.
Qed.

Lemma pretty_N_go_bytes x s : (0 < x)%N ->
  exists ds, bytesOf (pretty_N_go x s) = ds ++ bytesOf s /\ decimalDigits ds /\ digitsValue ds = Z.of_N x.
Proof.
  revert s. induction (N.lt_wf_0 x) as [x _ IH]. intros s Hx. rewrite pretty_N_go_step by done.
  pose proof (N.mod_lt x 10 ltac:(done)) as Hm.
  assert (Z.of_N x = Z.of_N (x `div` 10) * 10 + Z.of_N (x `mod` 10)) as Hdm by (rewrite (N.div_mod x 10) at 1 by done; lia).
  set (r := (x `mod` 10)%N) in *. clearbody r.
  destruct (decide (x `div` 10 = 0)%N) as [E|E].
  - rewrite E in *. rewrite pretty_N_go_0. exists [48 + Z.of_N r]. cbn [bytesOf app]. rewrite pretty_N_code by done.
    split; [done|]. split; [split; [constructor; [lia|done]|]|unfold digitsValue; cbn [foldl]; lia].
    eexists _, _. split; [done|]. lia.
  - destruct (IH (x `div` 10)%N (N.div_lt x 10 Hx eq_refl) (String (pretty_N_char r) s) ltac:(lia)) as (ds & E1 & E2 & E3).
    exists (ds ++ [48 + Z.of_N r]). rewrite E1, <- app_assoc. cbn [bytesOf app]. rewrite pretty_N_code by done.
    split; [done|]. split; [apply decimalDigits_snoc; [exact E2|lia]|]. rewrite digitsValue_snoc. lia.
Qed.

Lemma pretty_bytes x : exists ds, bytesOf (std_to_string x) = integerText x ds /\ (ds = [48] /\ x = 0 \/ decimalDigits ds) /\ digitsValue ds = Z.abs x.
Proof.
  unfold std_to_string, integerText. destruct x as [|p|p].
  - exists [48]. by split; [|split; [left|]].
  - change (pretty (Z.pos p)) with (pretty_N_go (N.pos p) ""). destruct (pretty_N_go_bytes (N.pos p) "" ltac:(done)) as (ds & -> & H1 & H2).
    exists ds. cbn [bytesOf]. rewrite app_nil_r. split; [done|]. split; [by right|]. by rewrite H2.
  - change (pretty (Z.neg p)) with (String "-" (pretty_N_go (N.pos p) "")). cbn [bytesOf].
    destruct (pretty_N_go_bytes (N.pos p) "" ltac:(done)) as (ds & -> & H1 & H2).
    exists ds. cbn [bytesOf]. rewrite app_nil_r. split; [done|]. split; [by right|]. by rewrite H2.
Qed.

(** A 64-bit integer prints as [std::to_string] prints it, whatever the buffer held before: the
    digit count is right, so every position of the result is written, and the most negative
    value is printed too. *)
Lemma dump_integer_to_string nb x : length nb = NUMBER_BUFFER_SIZE -> - 2 ^ 63 <= x < 2 ^ 64 ->
  stringOf (dump_integer nb x) = std_to_string x.
Proof.
  intros Hnb Hx. rewrite <- (stringOf_bytesOf (std_to_string x)). f_equal.
  destruct (decide (x = 0)) as [->|H0]; [done|].
  destruct (dump_integer_decimal nb x Hnb Hx) as (ds & -> & H1 & H2). destruct (pretty_bytes x) as (ks & -> & H3 & H4).
  f_equal. destruct H1 as [-> | H1]; [cbn in H2; lia|]. destruct H3 as [[-> ?] | H3]; [done|].
  apply decimal_unique; [done|done|lia].
Qed.

(** * Which values can be dumped *)

(** Induction over a value with the elements of its containers. *)
Definition json_nested_ind (P : json -> Prop)
    (Hnull : P JNull) (Hbool : forall b, P (JBool b)) (Huns : forall n, P (JUnsigned n)) (Hint : forall z, P (JInteger z))
    (Hflt : forall m e, P (JFloat m e)) (Hstr : forall s, P (JString s))
    (Harr : forall l, Forall P l -> P (JArray l)) (Hobj : forall l, Forall (fun kv => P kv.2) l -> P (JObject l)) :
    forall j, P j :=
  fix ind j := match j with
  | JNull => Hnull | JBool b => Hbool b | JUnsigned n => Huns n | JInteger z => Hint z
  | JFloat m e => Hflt m e | JString s => Hstr s
  | JArray l => Harr l ((fix go l : Forall P l :=
      match l with [] => List.Forall_nil _ | x :: l => List.Forall_cons _ _ _ (ind x) (go l) end) l)
  | JObject l => Hobj l ((fix go l : Forall (fun kv => P kv.2) l :=
      match l with [] => List.Forall_nil _ | x :: l => List.Forall_cons _ _ _ (ind x.2) (go l) end) l)
  end.

(** Every string and every key is UTF-8. *)
Fixpoint utf8Value (j : json) : bool :=
  match j with
  | JString s => bool_decide (utf8 (bytesOf s))
  | JArray l => forallb utf8Value l
  | JObject l => forallb (fun kv => bool_decide (utf8 (bytesOf kv.1)) && utf8Value kv.2) l
  | _ => true
  end.

(** A loop returns when every element does, and throws what the elements throw. *)
Lemma traverse_throws {A B} (f : A -> outcome B) (p : A -> bool) e l :
  Forall (fun a => if p a then exists b, f a = Ret b else f a = Throw e) l ->
  if forallb p l then exists r, traverse f l = Ret r else traverse f l = Throw e.
Proof.
  induction 1 as [|a l Ha _ IH]; cbn; [by eexists|]. destruct (p a); cbn.
  - destruct Ha as [b ->]. cbn. destruct (forallb p l); [destruct IH as [r ->]; by eexists|by rewrite IH].
  - by rewrite Ha.
Qed.

Lemma dump_escaped_throws a s : if bool_decide (utf8 (bytesOf s)) then exists t, dump_escaped eh_strict a (bytesOf s) = Ret t
  else dump_escaped eh_strict a (bytesOf s) = Throw JsonTypeError.
Proof. destruct (dump_escaped_strict a (bytesOf s) (bytesOf_bytes s)) as [H1 H2]. case_bool_decide; auto. Qed.

(** The strict serializer returns a text when all strings and keys are UTF-8, and throws
    [type_error] 316 otherwise. *)
Lemma dump_throws a pp st cur j :
  if utf8Value j then exists t, Serializer.dump eh_strict a pp st cur j = Ret t
  else Serializer.dump eh_strict a pp st cur j = Throw JsonTypeError.
Proof.
  revert cur. induction j as [| | | | |s|l IH|l IH] using json_nested_ind; intros cur; try by eexists.
  - cbn. pose proof (dump_escaped_throws a s) as H. destruct (bool_decide _); [destruct H as [t ->]; by eexists|by rewrite H].
  - destruct l as [|x l]; [by eexists|]. cbn [Serializer.dump utf8Value].
    set (cur' := if pp then _ else _).
    assert (Forall (fun v => if utf8Value v then exists t, (let! tv := Serializer.dump eh_strict a pp st cur' v in Ret ((if pp then spaces cur' else []) ++ tv)) = Ret t
      else (let! tv := Serializer.dump eh_strict a pp st cur' v in Ret ((if pp then spaces cur' else []) ++ tv)) = Throw JsonTypeError) (x :: l)) as H.
    { eapply Forall_impl; [exact IH|]. intros v Hv. specialize (Hv cur').
      destruct (utf8Value v); [destruct Hv as [t ->]; by eexists|by rewrite Hv]. }
    apply traverse_throws in H. destruct (forallb utf8Value (x :: l)); [destruct H as [r ->]; by eexists|by rewrite H].
  - destruct l as [|x l]; [by eexists|]. cbn [Serializer.dump utf8Value].
    match goal with |- context [traverse ?f] => set (g := f) end.
    assert (Forall (fun kv => if bool_decide (utf8 (bytesOf kv.1)) && utf8Value kv.2 then exists t, g kv = Ret t else g kv = Throw JsonTypeError) (x :: l)) as H.
    { eapply Forall_impl; [exact IH|]. intros [k v] Hv. unfold g, Serializer.dump_key. cbn [fst snd] in *.
      pose proof (dump_escaped_throws a k) as Hk. destruct (bool_decide (utf8 (bytesOf k))); cbn [andb]; [|by rewrite Hk].
      destruct Hk as [tk ->]. cbn [obind]. specialize (Hv (if pp then cur + st else cur)%nat).
      destruct (utf8Value v); [destruct Hv as [t ->]; by eexists|by rewrite Hv]. }
    apply (traverse_throws g (fun kv => bool_decide (utf8 (bytesOf kv.1)) && utf8Value kv.2)) in H.
    destruct (forallb _ (x :: l)); [destruct H as [r ->]; by eexists|by rewrite H].
Qed.
