(* ===== verification/JsonLexer.v ===== *)
(** The lexer of [nlohmann::json] (src/libs/nlohmann/json.hpp, class [lexer]).

    The input is the list of bytes still to come; [unget] marks the current character to be read
    again, as the code does.  Positions, the raw token and the error message are kept because the
    text of a parse error is built from them.  Loops run on fuel; [uninitialized], which the code
    never returns, marks its end, and [JsonLexerProps.v] shows that it is never reached. *)

From S2P Require Import Prelude Bytes CStrings JsonUtf8 JsonDtoa.
From Stdlib Require Import Ascii.
Local Open Scope string_scope.

Inductive token_type :=
  | uninitialized | literal_true | literal_false | literal_null | value_string
  | value_unsigned | value_integer | value_float
  | begin_array | begin_object | end_array | end_object | name_separator | value_separator
  | parse_error | end_of_input | literal_or_value.

#[export] Instance token_type_eq_dec : EqDecision token_type.
Proof. solve_decision. Defined.

Definition token_type_name (t : token_type) : string :=
  match t with
  | uninitialized => "<uninitialized>"
  | literal_true => "true literal"
  | literal_false => "false literal"
  | literal_null => "null literal"
  | value_string => "string literal"
  | value_unsigned | value_integer | value_float => "number literal"
  | begin_array => "'['"
  | begin_object => "'{'"
  | end_array => "']'"
  | end_object => "'}'"
  | name_separator => "':'"
  | value_separator => "','"
  | parse_error => "<parse error>"
  | end_of_input => "end of input"
  | literal_or_value => "'[', '{', or a literal"
  end.

(** [char_traits<char>::eof()]. *)
Definition EOF : Z := -1.

Record position_t := { chars_read_total : Z; chars_read_current_line : Z; lines_read : Z }.

Record Lexer := {
  ia : list Z;
  ignore_comments : bool;
  current : Z;
  next_unget : bool;
  position : position_t;
  token_string : list Z;
  token_buffer : list Z;
  error_message : string;
  lex_integer : Z;
  lex_unsigned : Z;
  lex_float : option (Z * Z)
}.

Definition startLexer (ignore : bool) (input : list Z) : Lexer := {|
  ia := input; ignore_comments := ignore; current := EOF; next_unget := false;
  position := {| chars_read_total := 0; chars_read_current_line := 0; lines_read := 0 |};
  token_string := []; token_buffer := []; error_message := "";
  lex_integer := 0; lex_unsigned := 0; lex_float := Some (0, 0) |}.

(** * Input *)

Definition reset (lx : Lexer) : Lexer := {|
  ia := ia lx; ignore_comments := ignore_comments lx; current := current lx; next_unget := next_unget lx;
  position := position lx; token_string := [current lx]; token_buffer := []; error_message := error_message lx;
  lex_integer := lex_integer lx; lex_unsigned := lex_unsigned lx; lex_float := lex_float lx |}.

(** The next character of the input adapter. *)
Definition get_character (input : list Z) : Z * list Z :=
  match input with [] => (EOF, []) | b :: input => (b, input) end.

(** [get()]; the character read is [current] of the result. *)
Definition get (lx : Lexer) : Lexer :=
  let p := position lx in
  let '(c, input) := if next_unget lx then (current lx, ia lx) else get_character (ia lx) in {|
  ia := input; ignore_comments := ignore_comments lx; current := c; next_unget := false;
  position := if bool_decide (c = 10)
    then {| chars_read_total := chars_read_total p + 1; chars_read_current_line := 0; lines_read := lines_read p + 1 |}
    else {| chars_read_total := chars_read_total p + 1; chars_read_current_line := chars_read_current_line p + 1; lines_read := lines_read p |};
  token_string := if bool_decide (c = EOF) then token_string lx else (token_string lx ++ [c])%list;
  token_buffer := token_buffer lx; error_message := error_message lx;
  lex_integer := lex_integer lx; lex_unsigned := lex_unsigned lx; lex_float := lex_float lx |}.

(** [token_string.pop_back()]. *)
Definition pop_back (l : list Z) : list Z := take (length l - 1) l.

Definition unget (lx : Lexer) : Lexer :=
  let p := position lx in {|
  ia := ia lx; ignore_comments := ignore_comments lx; current := current lx; next_unget := true;
  position := {|
    chars_read_total := chars_read_total p - 1;
    chars_read_current_line := if bool_decide (chars_read_current_line p = 0) then 0 else chars_read_current_line p - 1;
    lines_read := if bool_decide (chars_read_current_line p = 0)
                  then (if bool_decide (0 < lines_read p) then lines_read p - 1 else lines_read p) else lines_read p |};
  token_string := if bool_decide (current lx = EOF) then token_string lx else pop_back (token_string lx);
  token_buffer := token_buffer lx; error_message := error_message lx;
  lex_integer := lex_integer lx; lex_unsigned := lex_unsigned lx; lex_float := lex_float lx |}.

Definition add (c : Z) (lx : Lexer) : Lexer := {|
  ia := ia lx; ignore_comments := ignore_comments lx; current := current lx; next_unget := next_unget lx;
  position := position lx; token_string := token_string lx; token_buffer := (token_buffer lx ++ [c])%list;
  error_message := error_message lx;
  lex_integer := lex_integer lx; lex_unsigned := lex_unsigned lx; lex_float := lex_float lx |}.

(** [error_message = msg; return token_type::parse_error]. *)
Definition fail (msg : string) (lx : Lexer) : Lexer * token_type :=
  ({| ia := ia lx; ignore_comments := ignore_comments lx; current := current lx; next_unget := next_unget lx;
      position := position lx; token_string := token_string lx; token_buffer := token_buffer lx; error_message := msg;
      lex_integer := lex_integer lx; lex_unsigned := lex_unsigned lx; lex_float := lex_float lx |}, parse_error).

Definition withNumber (i u : Z) (f : option (Z * Z)) (lx : Lexer) : Lexer := {|
  ia := ia lx; ignore_comments := ignore_comments lx; current := current lx; next_unget := next_unget lx;
  position := position lx; token_string := token_string lx; token_buffer := token_buffer lx;
  error_message := error_message lx; lex_integer := i; lex_unsigned := u; lex_float := f |}.

(** * Strings *)

(** A hexadecimal digit; [None] on any other character. *)
Definition hexDigit (c : Z) : option Z :=
  if bool_decide (48 <= c <= 57) then Some (c - 0x30)
  else if bool_decide (65 <= c <= 70) then Some (c - 0x37)
  else if bool_decide (97 <= c <= 102) then Some (c - 0x57)
  else None.

Fixpoint codepointFrom (factors : list Z) (cp : Z) (lx : Lexer) : Lexer * Z :=
  match factors with
  | [] => (lx, cp)
  | factor :: factors =>
      let lx := get lx in
      match hexDigit (current lx) with
      | Some d => codepointFrom factors (cp + Z.shiftl d factor) lx
      | None => (lx, -1)
      end
  end.

Definition get_codepoint (lx : Lexer) : Lexer * Z := codepointFrom [12; 8; 4; 0] 0 lx.

Fixpoint rangesLoop (ranges : list (Z * Z)) (lx : Lexer) : Lexer * bool :=
  match ranges with
  | [] => (lx, true)
  | r :: ranges =>
      let lx := get lx in
      if inRange r (current lx) then rangesLoop ranges (add (current lx) lx)
      else ((fail "invalid string: ill-formed UTF-8 byte" lx).1, false)
  end.

Definition next_byte_in_range (ranges : list (Z * Z)) (lx : Lexer) : Lexer * bool :=
  rangesLoop ranges (add (current lx) lx).

(** The bytes of an escape other than [\u]. *)
Definition simpleEscape (c : Z) : option Z :=
  if bool_decide (c = 34) then Some 34
  else if bool_decide (c = 92) then Some 92
  else if bool_decide (c = 47) then Some 47
  else if bool_decide (c = 98) then Some 8
  else if bool_decide (c = 102) then Some 12
  else if bool_decide (c = 110) then Some 10
  else if bool_decide (c = 114) then Some 13
  else if bool_decide (c = 116) then Some 9
  else None.

Definition addAll (l : list Z) (lx : Lexer) : Lexer := foldl (fun lx c => add c lx) lx l.

(** After [\u]: one code unit, or two that form a surrogate pair. *)
Definition unicodeEscape (lx : Lexer) : Lexer * token_type :=
  let '(lx, codepoint1) := get_codepoint lx in
  if bool_decide (codepoint1 = -1) then fail "invalid string: '\u' must be followed by 4 hex digits" lx
  else if bool_decide (0xD800 <= codepoint1 <= 0xDBFF) then
    let lx := get lx in
    let '(lx, isPair) := if bool_decide (current lx = 92) then let lx := get lx in (lx, bool_decide (current lx = 117)) else (lx, false) in
    if isPair then
      let '(lx, codepoint2) := get_codepoint lx in
      if bool_decide (codepoint2 = -1) then fail "invalid string: '\u' must be followed by 4 hex digits" lx
      else if bool_decide (0xDC00 <= codepoint2 <= 0xDFFF) then
        let codepoint := u32 (u32 (Z.shiftl codepoint1 10) + codepoint2 - 0x35FDC00) in
        (addAll (encodeCodepoint codepoint) lx, value_string)
      else fail "invalid string: surrogate U+D800..U+DBFF must be followed by U+DC00..U+DFFF" lx
    else fail "invalid string: surrogate U+D800..U+DBFF must be followed by U+DC00..U+DFFF" lx
  else if bool_decide (0xDC00 <= codepoint1 <= 0xDFFF) then
    fail "invalid string: surrogate U+DC00..U+DFFF must follow U+D800..U+DBFF" lx
  else (addAll (encodeCodepoint codepoint1) lx, value_string).

Definition controlNames : list (string * string) := [
  ("0000 (NUL)", "0000"); ("0001 (SOH)", "0001"); ("0002 (STX)", "0002"); ("0003 (ETX)", "0003");
  ("0004 (EOT)", "0004"); ("0005 (ENQ)", "0005"); ("0006 (ACK)", "0006"); ("0007 (BEL)", "0007");
  ("0008 (BS)", "0008 or \b"); ("0009 (HT)", "0009 or \t"); ("000A (LF)", "000A or \n"); ("000B (VT)", "000B");
  ("000C (FF)", "000C or \f"); ("000D (CR)", "000D or \r"); ("000E (SO)", "000E"); ("000F (SI)", "000F");
  ("0010 (DLE)", "0010"); ("0011 (DC1)", "0011"); ("0012 (DC2)", "0012"); ("0013 (DC3)", "0013");
  ("0014 (DC4)", "0014"); ("0015 (NAK)", "0015"); ("0016 (SYN)", "0016"); ("0017 (ETB)", "0017");
  ("0018 (CAN)", "0018"); ("0019 (EM)", "0019"); ("001A (SUB)", "001A"); ("001B (ESC)", "001B");
  ("001C (FS)", "001C"); ("001D (GS)", "001D"); ("001E (RS)", "001E"); ("001F (US)", "001F")].

Definition controlMessage (c : Z) : string :=
  let '(name, esc) := nth (Z.to_nat c) controlNames ("", "") in
  "invalid string: control character U+" +:+ name +:+ " must be escaped to \u" +:+ esc.

Fixpoint scanStringLoop (fuel : nat) (lx : Lexer) : Lexer * token_type :=
  match fuel with
  | O => (lx, uninitialized)
  | S fuel =>
      let lx := get lx in
      let c := current lx in
      if bool_decide (c = EOF) then fail "invalid string: missing closing quote" lx
      else if bool_decide (c = 34) then (lx, value_string)
      else if bool_decide (c = 92) then
        let lx := get lx in
        match simpleEscape (current lx) with
        | Some b => scanStringLoop fuel (add b lx)
        | None =>
            if bool_decide (current lx = 117) then
              let '(lx, t) := unicodeEscape lx in
              if bool_decide (t = parse_error) then (lx, t) else scanStringLoop fuel lx
            else fail "invalid string: forbidden character after backslash" lx
        end
      else if bool_decide (0 <= c <= 0x1F) then fail (controlMessage c) lx
      else match followRanges c with
           | Some [] => scanStringLoop fuel (add c lx)
           | Some ranges =>
               let '(lx, ok) := next_byte_in_range ranges lx in
               if ok then scanStringLoop fuel lx else (lx, parse_error)
           | None => fail "invalid string: ill-formed UTF-8 byte" lx
           end
  end.

Definition scan_string (lx : Lexer) : Lexer * token_type :=
  let lx := reset lx in scanStringLoop (S (length (ia lx))) lx.

(** * Comments *)

Fixpoint lineComment (fuel : nat) (lx : Lexer) : Lexer * token_type :=
  match fuel with
  | O => (lx, uninitialized)
  | S fuel =>
      let lx := get lx in
      if bool_decide (current lx = 10) || bool_decide (current lx = 13) || bool_decide (current lx = EOF) || bool_decide (current lx = 0)
      then (lx, literal_true) else lineComment fuel lx
  end.

Fixpoint blockComment (fuel : nat) (lx : Lexer) : Lexer * token_type :=
  match fuel with
  | O => (lx, uninitialized)
  | S fuel =>
      let lx := get lx in
      if bool_decide (current lx = EOF) || bool_decide (current lx = 0) then fail "invalid comment; missing closing '*/'" lx
      else if bool_decide (current lx = 42) then
        let lx := get lx in
        if bool_decide (current lx = 47) then (lx, literal_true) else blockComment fuel (unget lx)
      else blockComment fuel lx
  end.

(** [scan_comment()]: [literal_true] for success, [parse_error] with the message otherwise. *)
Definition scan_comment (lx : Lexer) : Lexer * token_type :=
  let lx := get lx in
  if bool_decide (current lx = 47) then lineComment (S (length (ia lx))) lx
  else if bool_decide (current lx = 42) then blockComment (S (length (ia lx))) lx
  else fail "invalid comment; expecting '/' or '*' after '/'" lx.

(** * Numbers *)

(** The labels of [scan_number]. *)
Inductive NumState := scan_number_minus | scan_number_zero | scan_number_any1 | scan_number_decimal1 | scan_number_decimal2
  | scan_number_exponent | scan_number_sign | scan_number_any2.

(** Where a character leads: on to a label after adding it, to [scan_number_done], or to an error. *)
Inductive NumNext := Goto (st : NumState) | NumDone | NumError (msg : string).

Definition numStep (st : NumState) (c : Z) : NumNext :=
  match st with
  | scan_number_minus =>
      if bool_decide (c = 48) then Goto scan_number_zero
      else if bool_decide (49 <= c <= 57) then Goto scan_number_any1
      else NumError "invalid number; expected digit after '-'"
  | scan_number_zero =>
      if bool_decide (c = 46) then Goto scan_number_decimal1
      else if bool_decide (c = 101) || bool_decide (c = 69) then Goto scan_number_exponent else NumDone
  | scan_number_any1 =>
      if isDigit c then Goto scan_number_any1
      else if bool_decide (c = 46) then Goto scan_number_decimal1
      else if bool_decide (c = 101) || bool_decide (c = 69) then Goto scan_number_exponent else NumDone
  | scan_number_decimal1 =>
      if isDigit c then Goto scan_number_decimal2 else NumError "invalid number; expected digit after '.'"
  | scan_number_decimal2 =>
      if isDigit c then Goto scan_number_decimal2
      else if bool_decide (c = 101) || bool_decide (c = 69) then Goto scan_number_exponent else NumDone
  | scan_number_exponent =>
      if bool_decide (c = 43) || bool_decide (c = 45) then Goto scan_number_sign
      else if isDigit c then Goto scan_number_any2
      else NumError "invalid number; expected '+', '-', or digit after exponent"
  | scan_number_sign =>
      if isDigit c then Goto scan_number_any2 else NumError "invalid number; expected digit after exponent sign"
  | scan_number_any2 => if isDigit c then Goto scan_number_any2 else NumDone
  end.

(** [number_type] is changed on entry to some labels. *)
Definition typeAt (st : NumState) (t : token_type) : token_type :=
  match st with
  | scan_number_minus => value_integer
  | scan_number_decimal1 | scan_number_exponent => value_float
  | _ => t
  end.

(** From a label to [scan_number_done], with the type of the number, or to an error. *)
Fixpoint scanNumberLoop (fuel : nat) (st : NumState) (number_type : token_type) (lx : Lexer) : Lexer * token_type :=
  match fuel with
  | O => (lx, uninitialized)
  | S fuel =>
      let number_type := typeAt st number_type in
      let lx := get lx in
      match numStep st (current lx) with
      | Goto st => scanNumberLoop fuel st number_type (add (current lx) lx)
      | NumDone => (lx, number_type)
      | NumError msg => fail msg lx
      end
  end.

(** [scan_number_done]: integers that fit are integers, everything else goes through [strtod]. *)
Definition convertNumber (number_type : token_type) (lx : Lexer) : Lexer * token_type :=
  let '(neg, d, _) := readDecimal (token_buffer lx) in
  if bool_decide (number_type = value_unsigned) && bool_decide (d < 2 ^ 64) then
    (withNumber (lex_integer lx) d (lex_float lx) lx, value_unsigned)
  else if bool_decide (number_type = value_integer) && bool_decide (- 2 ^ 63 <= - d) then
    (withNumber (- d) (lex_unsigned lx) (lex_float lx) lx, value_integer)
  else (withNumber (lex_integer lx) (lex_unsigned lx) (strtod (token_buffer lx)) lx, value_float).

(** The state after the first character. *)
Definition numStart (c : Z) : NumState :=
  if bool_decide (c = 45) then scan_number_minus else if bool_decide (c = 48) then scan_number_zero else scan_number_any1.

Definition scan_number (lx : Lexer) : Lexer * token_type :=
  let lx := reset lx in
  let '(lx, t) := scanNumberLoop (S (length (ia lx))) (numStart (current lx)) value_unsigned (add (current lx) lx) in
  if bool_decide (t = parse_error) || bool_decide (t = uninitialized) then (lx, t) else convertNumber t (unget lx).

(** * Tokens *)

Fixpoint scan_literal (text : list Z) (t : token_type) (lx : Lexer) : Lexer * token_type :=
  match text with
  | [] => (lx, t)
  | c :: text =>
      let lx := get lx in
      if bool_decide (current lx = c) then scan_literal text t lx else fail "invalid literal" lx
  end.

Definition skip_bom (lx : Lexer) : Lexer * bool :=
  let lx := get lx in
  if bool_decide (current lx = 0xEF) then
    let lx := get lx in
    if bool_decide (current lx = 0xBB) then let lx := get lx in (lx, bool_decide (current lx = 0xBF)) else (lx, false)
  else (unget lx, true).

Definition isBlank (c : Z) : bool := bool_decide (c = 32) || bool_decide (c = 9) || bool_decide (c = 10) || bool_decide (c = 13).

Fixpoint skipWhitespaceLoop (fuel : nat) (lx : Lexer) : Lexer :=
  match fuel with
  | O => lx
  | S fuel => let lx := get lx in if isBlank (current lx) then skipWhitespaceLoop fuel lx else lx
  end.

(** One character may be pending from [unget], and the end of the input is one more. *)
Definition skip_whitespace (lx : Lexer) : Lexer := skipWhitespaceLoop (S (S (length (ia lx)))) lx.

Fixpoint skipComments (fuel : nat) (lx : Lexer) : Lexer * token_type :=
  match fuel with
  | O => (lx, uninitialized)
  | S fuel =>
      if ignore_comments lx && bool_decide (current lx = 47) then
        let '(lx, t) := scan_comment lx in
        if bool_decide (t = literal_true) then skipComments fuel (skip_whitespace lx) else (lx, t)
      else (lx, literal_true)
  end.

Definition scanToken (lx : Lexer) : Lexer * token_type :=
  let c := current lx in
  if bool_decide (c = 91) then (lx, begin_array)
  else if bool_decide (c = 93) then (lx, end_array)
  else if bool_decide (c = 123) then (lx, begin_object)
  else if bool_decide (c = 125) then (lx, end_object)
  else if bool_decide (c = 58) then (lx, name_separator)
  else if bool_decide (c = 44) then (lx, value_separator)
  else if bool_decide (c = 116) then scan_literal [114; 117; 101] literal_true lx
  else if bool_decide (c = 102) then scan_literal [97; 108; 115; 101] literal_false lx
  else if bool_decide (c = 110) then scan_literal [117; 108; 108] literal_null lx
  else if bool_decide (c = 34) then scan_string lx
  else if bool_decide (c = 45) || isDigit c then scan_number lx
  else if bool_decide (c = 0) || bool_decide (c = EOF) then (lx, end_of_input)
  else fail "invalid literal" lx.

Definition scan (lx : Lexer) : Lexer * token_type :=
  let '(lx, ok) := if bool_decide (chars_read_total (position lx) = 0) then skip_bom lx else (lx, true) in
  if ok then
    let '(lx, t) := let lx := skip_whitespace lx in skipComments (S (length (ia lx))) lx in
    if bool_decide (t = literal_true) then scanToken lx else (lx, t)
  else fail "invalid BOM; must be 0xEF 0xBB 0xBF if given" lx.

(** The raw token for error messages, control characters escaped. *)
Definition hexUpper (d : Z) : Z := if bool_decide (d < 10) then 48 + d else 55 + d.

Definition shownByte (c : Z) : list Z :=
  if bool_decide (c <= 0x1F) then ([60; 85; 43; 48; 48; hexUpper (c / 16); hexUpper (c mod 16); 62])%list else [c].

Definition get_token_string (lx : Lexer) : list Z := mjoin (shownByte <$> token_string lx).
