(* ===== verification/JsonLexerProps.v ===== *)
(** What the lexer reads: tokens of printed texts, termination, and the strings and numbers it can
    return.

    [input] is the text still to be read, a character that was put back included; the lemmas
    describe a scan by the input before and after it. *)

From S2P Require Import Prelude Bytes CStrings JsonUtf8 JsonDtoa JsonDtoaProps JsonDtoaRound JsonDump JsonDumpProps JsonLexer.
From Stdlib Require Import Ascii.

(** * The input *)

Definition input (lx : Lexer) : list Z :=
  if next_unget lx then (if bool_decide (current lx = EOF) then [] else current lx :: ia lx) else ia lx.

Definition pos (lx : Lexer) : Z := chars_read_total (position lx).

(** A character put back is a byte, or the end of an exhausted input. *)
Record wfLexer (lx : Lexer) : Prop := {
  wl_bytes : Forall is_byte (ia lx);
  wl_unget : next_unget lx = true -> (current lx = EOF /\ ia lx = []) \/ is_byte (current lx);
  wl_pos : 0 <= pos lx
}.

Lemma byte_not_eof b : is_byte b -> b <> EOF.
Proof. unfold is_byte, EOF. lia. Qed.

Lemma input_bytes lx : wfLexer lx -> Forall is_byte (input lx).
Proof.
  intros [Hb Hu _]. unfold input. destruct (next_unget lx); [|done].
  destruct (Hu eq_refl) as [[-> _] | Hc]; [by rewrite bool_decide_true|]. rewrite bool_decide_false by (by apply byte_not_eof).
  by constructor.
Qed.

(** The state after reading one character. *)
Record readOne (lx lx' : Lexer) (c : Z) (r : list Z) : Prop := {
  ro_current : current lx' = c;
  ro_ia : ia lx' = r;
  ro_unget : next_unget lx' = false;
  ro_buffer : token_buffer lx' = token_buffer lx;
  ro_pos : pos lx' = pos lx + 1;
  ro_ignore : ignore_comments lx' = ignore_comments lx;
  ro_wf : wfLexer lx'
}.

Lemma get_reads lx : wfLexer lx ->
  match input lx with
  | [] => readOne lx (get lx) EOF []
  | c :: r => readOne lx (get lx) c r
  end.
Proof.
  intros [Hb Hu Hp]. unfold input, get.
  assert (forall c q, chars_read_total (if bool_decide (c = 10)
    then {| chars_read_total := chars_read_total q + 1; chars_read_current_line := 0; lines_read := lines_read q + 1 |}
    else {| chars_read_total := chars_read_total q + 1; chars_read_current_line := chars_read_current_line q + 1; lines_read := lines_read q |})
    = chars_read_total q + 1) as HP by (intros; by case_bool_decide).
  destruct (next_unget lx) eqn:En.
  - destruct (Hu eq_refl) as [[Hc Hi] | Hc].
    + rewrite Hc, Hi, bool_decide_true by done. split; try done. split; [done|done|]. unfold pos in *. cbn [position]. rewrite HP. lia.
    + rewrite bool_decide_false by (by apply byte_not_eof). split; try done; unfold pos; cbn [position]; [apply HP|].
      split; cbn; [done|done|]. unfold pos in *. cbn [position]. rewrite HP. lia.
  - destruct (ia lx) as [|c r] eqn:Ei; cbn [get_character].
    + split; try done. split; [done|done|unfold pos in *; cbn [position]; rewrite HP; lia].
    + split; try done; [apply HP|]. apply Forall_cons in Hb as [_ Hb].
      split; cbn; [done|done|unfold pos in *; cbn [position]; rewrite HP; lia].
Qed.

Lemma get_cons lx c r : wfLexer lx -> input lx = c :: r -> readOne lx (get lx) c r.
Proof. intros Hw E. pose proof (get_reads lx Hw) as H. by rewrite E in H. Qed.

Lemma get_nil lx : wfLexer lx -> input lx = [] -> readOne lx (get lx) EOF [].
Proof. intros Hw E. pose proof (get_reads lx Hw) as H. by rewrite E in H. Qed.

Lemma readOne_input lx lx' c r : readOne lx lx' c r -> input lx' = r.
Proof. intros []. unfold input. by rewrite ro_unget0. Qed.

(** Adding to the token leaves the input alone. *)
Lemma add_input c lx : input (add c lx) = input lx.
Proof. done. Qed.

Lemma wf_add c lx : wfLexer lx -> wfLexer (add c lx).
Proof. by intros []. Qed.

Lemma wf_reset lx : wfLexer lx -> wfLexer (reset lx).
Proof. by intros []. Qed.

Lemma addAll_spec l lx : token_buffer (addAll l lx) = token_buffer lx ++ l /\ input (addAll l lx) = input lx /\
  pos (addAll l lx) = pos lx /\ ignore_comments (addAll l lx) = ignore_comments lx /\ next_unget (addAll l lx) = next_unget lx /\
  ia (addAll l lx) = ia lx /\ (wfLexer lx -> wfLexer (addAll l lx)).
Proof.
  revert lx. induction l as [|c l IH]; intros lx; [by rewrite app_nil_r|].
  change (addAll (c :: l) lx) with (addAll l (add c lx)).
  destruct (IH (add c lx)) as (-> & -> & -> & -> & -> & -> & H). cbn [token_buffer add]. rewrite <- app_assoc.
  do 6 (split; [done|]). intros Hw. by apply H, wf_add.
Qed.

(** * White space *)

Fixpoint dropBlank (l : list Z) : list Z :=
  match l with c :: l' => if isBlank c then dropBlank l' else l | [] => [] end.

(** The lexer stands on a character, its input the rest. *)
Record standing (lx : Lexer) (c : Z) (r : list Z) : Prop := {
  st_current : current lx = c;
  st_ia : ia lx = r;
  st_unget : next_unget lx = false;
  st_pos : 0 < pos lx;
  st_ignore : ignore_comments lx = false;
  st_wf : wfLexer lx
}.

Lemma skipWhitespaceLoop_spec fuel lx : wfLexer lx -> ignore_comments lx = false -> (length (input lx) < fuel)%nat ->
  match dropBlank (input lx) with
  | [] => standing (skipWhitespaceLoop fuel lx) EOF []
  | c :: r => standing (skipWhitespaceLoop fuel lx) c r
  end.
Proof.
  revert lx. induction fuel as [|fuel IH]; intros lx Hw Hi Hf; [lia|]. cbn [skipWhitespaceLoop].
  destruct (input lx) as [|c r] eqn:E.
  - destruct (get_nil lx Hw E) as [H1 H2 H3 H4 H5 H6 H7]. cbn [dropBlank]. rewrite H1. cbn [isBlank]. 
    replace (isBlank EOF) with false by done. split; try done; [rewrite H5; destruct Hw; lia|by rewrite H6].
  - pose proof (get_cons lx c r Hw E) as HR. pose proof HR as [H1 H2 H3 H4 H5 H6 H7]. cbn [dropBlank]. rewrite H1.
    destruct (isBlank c).
    + pose proof (IH (get lx) H7 ltac:(by rewrite H6)) as R. rewrite (readOne_input _ _ _ _ HR) in R. apply R. cbn in Hf. lia.
    + split; try done; [rewrite H5; destruct Hw; lia|by rewrite H6].
Qed.

Lemma input_length lx : (length (input lx) <= S (length (ia lx)))%nat.
Proof. unfold input. destruct (next_unget lx); [case_bool_decide; cbn; lia|lia]. Qed.

Lemma skip_whitespace_spec lx : wfLexer lx -> ignore_comments lx = false ->
  match dropBlank (input lx) with
  | [] => standing (skip_whitespace lx) EOF []
  | c :: r => standing (skip_whitespace lx) c r
  end.
Proof.
  intros Hw Hi. apply skipWhitespaceLoop_spec; [done|done|]. pose proof (input_length lx). lia.
Qed.

(** Putting a character back that was just read. *)
Lemma unget_input lx lx' c r : readOne lx lx' c r -> 0 <= pos lx -> is_byte c \/ (c = EOF /\ r = []) ->
  input (unget lx') = (if bool_decide (c = EOF) then [] else c :: r) /\ wfLexer (unget lx') /\ pos (unget lx') = pos lx /\
  ignore_comments (unget lx') = ignore_comments lx /\ token_buffer (unget lx') = token_buffer lx.
Proof.
  intros [H1 H2 H3 H4 H5 H6 [W1 W2 W3]] Hp Hc. split; [by unfold input; cbn; rewrite H1, H2|].
  split; [|repeat split; try done; unfold pos in *; cbn; lia].
  split; [by cbn|cbn; intros _; rewrite H1, H2; tauto|unfold pos in *; cbn; lia].
Qed.

(** Texts that do not start like a byte order mark. *)
Definition noBom (l : list Z) : Prop := match l with c :: _ => c <> 0xEF | [] => True end.

(** A scan: white space is skipped and the token read from the first other character. *)
Lemma scan_standing lx : wfLexer lx -> ignore_comments lx = false -> (pos lx = 0 -> noBom (input lx)) ->
  exists lx', scan lx = scanToken lx' /\
    match dropBlank (input lx) with [] => standing lx' EOF [] | c :: r => standing lx' c r end.
Proof.
  intros Hw Hi Hb. unfold scan.
  assert (exists lx1, (if bool_decide (chars_read_total (position lx) = 0) then skip_bom lx else (lx, true)) = (lx1, true) /\
    input lx1 = input lx /\ wfLexer lx1 /\ ignore_comments lx1 = false) as (lx1 & -> & E1 & W1 & I1).
  { case_bool_decide as Hp; [|by exists lx]. specialize (Hb Hp). unfold skip_bom.
    pose proof (get_reads lx Hw) as R. destruct (input lx) as [|c r] eqn:Ein.
    - destruct (unget_input _ _ _ _ R (wl_pos _ Hw)) as (U1 & U2 & U3 & U4 & _); [by right|].
      rewrite (ro_current _ _ _ _ R), bool_decide_false by done. exists (unget (get lx)). rewrite U1, U4. done.
    - pose proof (input_bytes lx Hw) as Hbs. rewrite Ein in Hbs. apply Forall_cons in Hbs as [Hc _].
      destruct (unget_input _ _ _ _ R (wl_pos _ Hw)) as (U1 & U2 & U3 & U4 & _); [by left|].
      rewrite (ro_current _ _ _ _ R), bool_decide_false by done. exists (unget (get lx)).
      rewrite U1, U4, bool_decide_false by (by apply byte_not_eof). done. }
  pose proof (skip_whitespace_spec lx1 W1 I1) as R. rewrite E1 in R.
  exists (skip_whitespace lx1).
  assert (ignore_comments (skip_whitespace lx1) = false) as I2 by (destruct (dropBlank (input lx)); apply R).
  split; [|exact R]. cbn [skipComments]. rewrite I2. cbn [andb]. by rewrite bool_decide_true.
Qed.

(** * Literals *)

Lemma scan_literal_spec text t lx r : wfLexer lx -> input lx = text ++ r ->
  exists lx', scan_literal text t lx = (lx', t) /\ input lx' = r /\ wfLexer lx' /\ pos lx <= pos lx' /\
    ignore_comments lx' = ignore_comments lx.
Proof.
  revert lx. induction text as [|c text IH]; intros lx Hw E; [by exists lx|]. cbn [scan_literal].
  pose proof (get_cons lx c (text ++ r) Hw E) as R. rewrite (ro_current _ _ _ _ R), bool_decide_true by done.
  destruct (IH (get lx) (ro_wf _ _ _ _ R) (readOne_input _ _ _ _ R)) as (lx' & E' & H1 & H2 & H3 & H4).
  exists lx'. split; [done|]. split; [done|]. split; [done|]. destruct R as [_ _ _ _ R5 R6 _]. rewrite H4, R6. split; [lia|done].
Qed.

(** What a scan leaves: the token and the rest of the input. *)
Record scanned (lx : Lexer) (r : list Z) : Prop := {
  sc_input : input lx = r;
  sc_wf : wfLexer lx;
  sc_pos : 0 < pos lx;
  sc_ignore : ignore_comments lx = false
}.

Lemma standing_scanned lx c r : standing lx c r -> scanned lx r.
Proof. intros []. split; try done. unfold input. by rewrite st_unget0. Qed.

(** The one-character tokens. *)
Definition punctuation (c : Z) : option token_type :=
  if bool_decide (c = 91) then Some begin_array else if bool_decide (c = 93) then Some end_array
  else if bool_decide (c = 123) then Some begin_object else if bool_decide (c = 125) then Some end_object
  else if bool_decide (c = 58) then Some name_separator else if bool_decide (c = 44) then Some value_separator else None.

Lemma scanToken_punctuation lx c r t : standing lx c r -> punctuation c = Some t -> scanToken lx = (lx, t).
Proof.
  intros [E _ _ _ _ _] H. unfold scanToken, punctuation in *. rewrite E.
  repeat (case_bool_decide; [by simplify_eq|]). done.
Qed.

(** * Strings that were printed *)

(** Inside a token: the input to come and the token so far. *)
Record inToken (lx : Lexer) (r buf : list Z) : Prop := {
  it_ia : ia lx = r;
  it_unget : next_unget lx = false;
  it_buffer : token_buffer lx = buf;
  it_pos : 0 < pos lx;
  it_ignore : ignore_comments lx = false;
  it_wf : wfLexer lx
}.

Lemma inToken_input lx r buf : inToken lx r buf -> input lx = r.
Proof. intros []. unfold input. by rewrite it_unget0. Qed.

Lemma inToken_get lx c r buf : inToken lx (c :: r) buf -> current (get lx) = c /\ inToken (get lx) r buf.
Proof.
  intros H. pose proof (inToken_input _ _ _ H) as E. destruct H as [H1 H2 H3 H4 H5 H6].
  destruct (get_cons lx c r H6 E) as [R1 R2 R3 R4 R5 R6 R7]. split; [done|].
  split; try done; [by rewrite R4|lia|by rewrite R6].
Qed.

Lemma inToken_add lx c r buf : inToken lx r buf -> inToken (add c lx) r (buf ++ [c]).
Proof. intros [H1 H2 H3 H4 H5 H6]. split; try done; [by cbn; rewrite H3|by apply wf_add]. Qed.

Lemma inToken_addAll lx l r buf : inToken lx r buf -> inToken (addAll l lx) r (buf ++ l).
Proof.
  intros [H1 H2 H3 H4 H5 H6]. destruct (addAll_spec l lx) as (A1 & A2 & A3 & A4 & A5 & A6 & A7).
  split; [by rewrite A6|by rewrite A5|by rewrite A1, H3|by rewrite A3|by rewrite A4|auto].
Qed.

Lemma inToken_scanned lx r buf : inToken lx r buf -> scanned lx r.
Proof. intros H. pose proof (inToken_input _ _ _ H) as E. by destruct H. Qed.

Lemma hexDigit_lower d : 0 <= d < 16 -> hexDigit (hexLower d) = Some d.
Proof.
  intros Hd. unfold hexLower. case_bool_decide; unfold hexDigit.
  - rewrite bool_decide_true by lia. f_equal. lia.
  - rewrite (bool_decide_false (48 <= _ <= _)), (bool_decide_false (65 <= _ <= _)), bool_decide_true by lia. f_equal. lia.
Qed.

Lemma codepoint_step lx d factors cp r buf factor : 0 <= d < 16 -> inToken lx (hexLower d :: r) buf ->
  exists lx', codepointFrom (factor :: factors) cp lx = codepointFrom factors (cp + Z.shiftl d factor) lx' /\ inToken lx' r buf.
Proof.
  intros Hd H. destruct (inToken_get _ _ _ _ H) as [E H']. exists (get lx). cbn [codepointFrom]. by rewrite E, hexDigit_lower.
Qed.

(** The four digits of a [\u] escape give its code unit back. *)
Lemma get_codepoint_hex lx v r buf : 0 <= v < 65536 ->
  inToken lx (hexLower (v / 4096 mod 16) :: hexLower (v / 256 mod 16) :: hexLower (v / 16 mod 16) :: hexLower (v mod 16) :: r) buf ->
  exists lx', get_codepoint lx = (lx', v) /\ inToken lx' r buf.
Proof.
  intros Hv H. unfold get_codepoint.
  assert (forall z, 0 <= z mod 16 < 16) as Hm by (intros; apply Z.mod_pos_bound; lia).
  destruct (codepoint_step lx _ [8; 4; 0] 0 _ _ 12 (Hm _) H) as (lx1 & -> & H1).
  destruct (codepoint_step lx1 _ [4; 0] (0 + Z.shiftl (v / 4096 mod 16) 12) _ _ 8 (Hm _) H1) as (lx2 & -> & H2).
  destruct (codepoint_step lx2 _ [0] (0 + Z.shiftl (v / 4096 mod 16) 12 + Z.shiftl (v / 256 mod 16) 8) _ _ 4 (Hm _) H2) as (lx3 & -> & H3).
  match goal with |- context [codepointFrom _ ?cp lx3] => destruct (codepoint_step lx3 _ [] cp _ _ 0 (Hm _) H3) as (lx4 & -> & H4) end.
  exists lx4. split; [|done]. cbn [codepointFrom]. f_equal. rewrite !Z.shiftl_mul_pow2 by lia.
  change (2 ^ 12) with 4096. change (2 ^ 8) with 256. change (2 ^ 4) with 16. change (2 ^ 0) with 1.
  Z.div_mod_to_equations. lia.
Qed.

Lemma rangesLoop_spec rs cs lx r buf : Forall2 inRange rs cs -> inToken lx (cs ++ r) buf ->
  exists lx', rangesLoop rs lx = (lx', true) /\ inToken lx' r (buf ++ cs).
Proof.
  intros Hcs. revert lx buf. induction Hcs as [|rg c rs cs Hc _ IH]; intros lx buf H; [exists lx; by rewrite app_nil_r|].
  cbn [rangesLoop]. destruct (inToken_get _ _ _ _ H) as [E H']. rewrite E. apply Is_true_true in Hc. rewrite Hc.
  destruct (IH (add c (get lx)) (buf ++ [c])) as (lx' & E' & H2); [by apply inToken_add|].
  exists lx'. split; [done|]. by rewrite <- app_assoc in H2.
Qed.

(** An escape of two characters. *)
Lemma scanString_simple fuel x v lx r buf : simpleEscape x = Some v -> inToken lx (92 :: x :: r) buf ->
  exists lx', scanStringLoop (S fuel) lx = scanStringLoop fuel lx' /\ inToken lx' r (buf ++ [v]).
Proof.
  intros Hx H. destruct (inToken_get _ _ _ _ H) as [E1 H1]. destruct (inToken_get _ _ _ _ H1) as [E2 H2].
  cbn [scanStringLoop]. rewrite E1, E2, Hx. rewrite (bool_decide_false (92 = EOF)), (bool_decide_false (92 = 34)), (bool_decide_true (92 = 92)) by done.
  eexists. split; [reflexivity|]. by apply inToken_add.
Qed.

(** A [\u] escape of a code unit that is not half of a surrogate pair. *)
Lemma scanString_unicode fuel v lx r buf : 0 <= v < 0xD800 -> inToken lx (hexEscape v ++ r) buf ->
  exists lx', scanStringLoop (S fuel) lx = scanStringLoop fuel lx' /\ inToken lx' r (buf ++ encodeCodepoint v).
Proof.
  intros Hv H. unfold hexEscape in H. cbn [app] in H.
  destruct (inToken_get _ _ _ _ H) as [E1 H1]. destruct (inToken_get _ _ _ _ H1) as [E2 H2].
  destruct (get_codepoint_hex (get (get lx)) v r buf ltac:(lia) H2) as (lx' & E3 & H3).
  cbn [scanStringLoop]. rewrite E1, E2. rewrite (bool_decide_false (92 = EOF)), (bool_decide_false (92 = 34)), (bool_decide_true (92 = 92)) by done.
  change (simpleEscape 117) with (@None Z). rewrite (bool_decide_true (117 = 117)) by done. unfold unicodeEscape. rewrite E3.
  rewrite (bool_decide_false (v = -1)), (bool_decide_false (0xD800 <= v <= 0xDBFF)), (bool_decide_false (0xDC00 <= v <= 0xDFFF)) by lia.
  rewrite bool_decide_false by done. eexists. split; [reflexivity|]. by apply inToken_addAll.
Qed.

Lemma encodeCodepoint_ascii v : v < 0x80 -> encodeCodepoint v = [v].
Proof. intros. unfold encodeCodepoint. by rewrite bool_decide_true. Qed.

(** One printed character is one turn of the loop. *)
Lemma scanString_char fuel c lx r buf : utf8Char c -> inToken lx (escapedChar false c ++ r) buf ->
  exists lx', scanStringLoop (S fuel) lx = scanStringLoop fuel lx' /\ inToken lx' r (buf ++ c).
Proof.
  intros Hc H. pose proof (charValue_encode c Hc) as [[Hsc _] Ec]. unfold escapedChar in H.
  set (v := charValue c) in *. destruct (needsEscape false v) eqn:Hn.
  - assert (v < 0x80) as Hv by (unfold needsEscape in Hn; rewrite !orb_true_iff, !bool_decide_eq_true in Hn; cbn in Hn; naive_solver lia).
    rewrite Ec, encodeCodepoint_ascii by done. unfold escapeCodepoint in H.
    do 7 (case_bool_decide; [match goal with E : v = _ |- _ => rewrite E end; by eapply scanString_simple; [|exact H]|]).
    unfold needsEscape in Hn. rewrite !(bool_decide_false (v = _)) in Hn by done. cbn [orb andb] in Hn.
    rewrite orb_false_r, bool_decide_eq_true in Hn. rewrite (bool_decide_true (v <= 0x1F)), (bool_decide_true (v <= 0xFFFF)) in H by lia.
    cbn [orb fst] in H. unfold u16 in H. rewrite Z.mod_small in H by lia.
    rewrite <- (encodeCodepoint_ascii v) by done. apply scanString_unicode; [lia|exact H].
  - destruct Hc as (b & cs & rs & -> & Ef & Hcs). destruct (followRanges_byte b rs Ef) as [Hb _].
    assert (b <> EOF /\ b <> 34 /\ b <> 92 /\ ~ (0 <= b <= 0x1F)) as (N1 & N2 & N3 & N4).
    { split; [by apply byte_not_eof|]. unfold needsEscape in Hn. rewrite !orb_false_iff, !bool_decide_eq_false in Hn.
      assert (0x20 <= b < 0x80 -> v = b) as Hvb.
      { intros Hlt. unfold followRanges in Ef. rewrite bool_decide_true in Ef by lia. simplify_eq.
        inversion Hcs; subst. unfold v. cbn. unfold leadValue. rewrite bool_decide_true by lia. done. }
      assert (0 <= b <= 0x1F -> v = b) as Hvb'.
      { intros Hlt. unfold followRanges in Ef. rewrite bool_decide_true in Ef by lia. simplify_eq.
        inversion Hcs; subst. unfold v. cbn. unfold leadValue. rewrite bool_decide_true by lia. done. }
      unfold is_byte in Hb. lia. }
    change ((b :: cs) ++ r) with (b :: cs ++ r) in H. destruct (inToken_get _ _ _ _ H) as [E H']. cbn [scanStringLoop].
    rewrite E, (bool_decide_false (b = EOF)), (bool_decide_false (b = 34)), (bool_decide_false (b = 92)), (bool_decide_false (0 <= b <= 0x1F)), Ef by done.
    destruct rs as [|rg rs].
    + destruct cs; [|by inversion Hcs]. eexists. split; [reflexivity|]. by apply inToken_add.
    + unfold next_byte_in_range. rewrite E.
      destruct (rangesLoop_spec (rg :: rs) cs (add b (get lx)) r (buf ++ [b]) Hcs) as (lx' & -> & H2); [by apply inToken_add|].
      exists lx'. split; [done|]. by rewrite <- app_assoc in H2.
Qed.

Lemma scanString_chars cs fuel lx r buf : Forall utf8Char cs -> (length cs < fuel)%nat ->
  inToken lx (mjoin (escapedChar false <$> cs) ++ 34 :: r) buf ->
  exists lx', scanStringLoop fuel lx = (lx', value_string) /\ inToken lx' r (buf ++ mjoin cs).
Proof.
  intros Hcs. revert fuel lx buf. induction Hcs as [|c cs Hc _ IH]; intros fuel lx buf Hf H; (destruct fuel as [|fuel]; [cbn in Hf; lia|]).
  - cbn in H. destruct (inToken_get _ _ _ _ H) as [E H']. cbn [scanStringLoop].
    rewrite E, (bool_decide_false (34 = EOF)), bool_decide_true by done. exists (get lx). by rewrite app_nil_r.
  - cbn [fmap list_fmap mjoin list_join] in H. rewrite <- app_assoc in H.
    destruct (scanString_char fuel c lx _ buf Hc H) as (lx1 & -> & H1).
    destruct (IH fuel lx1 (buf ++ c)) as (lx2 & -> & H2); [cbn in Hf; lia|exact H1|].
    exists lx2. split; [done|]. by rewrite <- app_assoc in H2.
Qed.

Lemma escapedChar_nonempty c : utf8Char c -> (1 <= length (escapedChar false c))%nat.
Proof.
  intros (b & cs & rs & -> & _ & _). unfold escapedChar. destruct (needsEscape _ _); [|cbn; lia].
  unfold escapeCodepoint. repeat (case_bool_decide; [cbn; lia|]). destruct (_ || _); [case_bool_decide|]; cbn; lia.
Qed.

Lemma length_escaped cs : Forall utf8Char cs -> (length cs <= length (mjoin (escapedChar false <$> cs)))%nat.
Proof.
  induction 1 as [|c cs Hc _ IH]; [done|].
  change (mjoin (escapedChar false <$> c :: cs)) with (escapedChar false c ++ mjoin (escapedChar false <$> cs)).
  rewrite length_app, length_cons. pose proof (escapedChar_nonempty c Hc). lia.
Qed.

(** A printed string is read back. *)
Lemma scan_string_printed cs lx r : Forall utf8Char cs -> standing lx 34 (mjoin (escapedChar false <$> cs) ++ 34 :: r) ->
  exists lx', scan_string lx = (lx', value_string) /\ token_buffer lx' = mjoin cs /\ scanned lx' r.
Proof.
  intros Hcs [H1 H2 H3 H4 H5 H6]. unfold scan_string.
  destruct (scanString_chars cs (S (length (ia (reset lx)))) (reset lx) r [] Hcs) as (lx' & E & H).
  - cbn [ia reset]. rewrite H2, length_app. pose proof (length_escaped cs Hcs). lia.
  - split; try done. by apply wf_reset.
  - exists lx'. split; [exact E|]. split; [apply H|by eapply inToken_scanned].
Qed.

(** * Numbers *)

(** The labels a number text passes through, with the type of the number. *)
Fixpoint numRun (st : NumState) (t : token_type) (l : list Z) : option (NumState * token_type) :=
  match l with
  | [] => Some (st, t)
  | c :: l => match numStep st c with Goto st' => numRun st' (typeAt st t) l | _ => None end
  end.

Lemma numRun_app st t l k : numRun st t (l ++ k) = match numRun st t l with Some (st', t') => numRun st' t' k | None => None end.
Proof. revert st t. induction l as [|c l IH]; intros st t; [done|]. cbn. by destruct (numStep st c). Qed.

(** The character after a number. *)
Definition ahead (r : list Z) : Z := match r with [] => EOF | c :: _ => c end.

Lemma get_ahead lx r buf : inToken lx r buf -> readOne lx (get lx) (ahead r) (tail r).
Proof.
  intros H. pose proof (inToken_input _ _ _ H) as E. destruct H. destruct r; cbn; [by apply get_nil|by apply get_cons].
Qed.

Lemma scanNumberLoop_run fuel st t l lx r buf st' t' : numRun st t l = Some (st', t') -> numStep st' (ahead r) = NumDone ->
  (length l < fuel)%nat -> inToken lx (l ++ r) buf ->
  exists lx0, scanNumberLoop fuel st t lx = (get lx0, typeAt st' t') /\ inToken lx0 r (buf ++ l).
Proof.
  revert fuel st t lx buf. induction l as [|c l IH]; intros fuel st t lx buf HR HD Hf H; (destruct fuel as [|fuel]; [lia|]).
  - cbn in HR. simplify_eq. cbn [app] in H. cbn [scanNumberLoop]. rewrite (ro_current _ _ _ _ (get_ahead _ _ _ H)), HD.
    exists lx. by rewrite app_nil_r.
  - cbn [scanNumberLoop]. destruct (inToken_get _ _ _ _ H) as [E H']. rewrite E. cbn [numRun] in HR.
    destruct (numStep st c) as [st1| |]; [|done..].
    destruct (IH fuel st1 (typeAt st t) (add c (get lx)) (buf ++ [c]) HR HD) as (lx0 & E0 & H0); [cbn in Hf; lia|by apply inToken_add|].
    exists lx0. split; [done|]. by rewrite <- app_assoc in H0.
Qed.

(** A number token: its characters are read up to the one after it, which is put back. *)
Lemma scan_number_run c l lx r st t : numRun (numStart c) value_unsigned l = Some (st, t) -> numStep st (ahead r) = NumDone ->
  typeAt st t <> parse_error -> typeAt st t <> uninitialized -> standing lx c (l ++ r) ->
  exists lx', scan_number lx = convertNumber (typeAt st t) lx' /\ token_buffer lx' = c :: l /\ scanned lx' r.
Proof.
  intros HR HD Hn1 Hn2 [S1 S2 S3 S4 S5 S6]. unfold scan_number.
  assert (inToken (add (current (reset lx)) (reset lx)) (l ++ r) [c]) as H0.
  { split; try done; [cbn; by rewrite S1|]. by apply wf_add, wf_reset. }
  change (current (reset lx)) with (current lx) in *. rewrite S1 in *.
  destruct (scanNumberLoop_run (S (length (ia (reset lx)))) _ _ _ (add c (reset lx)) _ [c] _ _ HR HD) as (lx0 & -> & H1);
    [cbn [ia reset]; rewrite S2, length_app; lia|done|].
  rewrite !bool_decide_false by done. cbn [orb].
  pose proof (get_ahead _ _ _ H1) as R. pose proof (inToken_input _ _ _ H1) as Ein.
  destruct H1 as [T1 T2 T3 T4 T5 T6]. pose proof (input_bytes lx0 T6) as Hbs. rewrite Ein in Hbs.
  destruct (unget_input _ _ _ _ R) as (U1 & U2 & U3 & U4 & U5); [lia| |].
  { destruct r as [|x r]; [by right|]. apply Forall_cons in Hbs as [? _]. by left. }
  exists (unget (get lx0)). split; [done|]. split; [by rewrite U5, T3|].
  split; [|done|lia|by rewrite U4]. rewrite U1. destruct r as [|x r]; cbn [ahead tail]; [by rewrite bool_decide_true|].
  apply Forall_cons in Hbs as [Hx _]. by rewrite bool_decide_false by (by apply byte_not_eof).
Qed.

(** Digits keep a state that loops on them. *)
Lemma numRun_digits st t l : (forall c, isDigit c = true -> numStep st c = Goto st) -> typeAt st t = t -> allDigits l ->
  numRun st t l = Some (st, t).
Proof.
  intros Hs Ht Hl. induction Hl as [|c l Hc _ IH]; [done|]. cbn [numRun].
  rewrite Hs by (by apply isDigit_spec). by rewrite Ht.
Qed.

Definition intState (i : list Z) : NumState := if bool_decide (i = [48]) then scan_number_zero else scan_number_any1.

(** The integral part, from the start or after a minus sign. *)
Lemma numRun_int i t : t = value_unsigned \/ t = value_integer -> i = [48] \/ decimalDigits i ->
  exists c l, i = c :: l /\ numRun (numStart c) t l = Some (intState i, t) /\
    numRun scan_number_minus t i = Some (intState i, value_integer) /\ 48 <= c <= 57.
Proof.
  intros Ht [-> | (Ha & c & l & -> & Hc)].
  - exists 48, []. by destruct Ht as [-> | ->].
  - exists c, l. apply Forall_cons in Ha as [Hc' Hl].
    assert (intState (c :: l) = scan_number_any1) as ->.
    { unfold intState. rewrite bool_decide_false; [done|]. intros E. simplify_eq. lia. }
    assert (numRun scan_number_any1 t l = Some (scan_number_any1, t)) as E by (apply numRun_digits; [by intros d Hd; cbn; rewrite Hd|done|done]).
    assert (numRun scan_number_any1 value_integer l = Some (scan_number_any1, value_integer)) as E' by (apply numRun_digits; [by intros d Hd; cbn; rewrite Hd|done|done]).
    split; [done|]. split; [|split; [|done]].
    + unfold numStart. by rewrite !bool_decide_false by lia.
    + cbn [numRun numStep]. by rewrite bool_decide_false, bool_decide_true by lia.
Qed.

(** The character after a number ends it. *)
Definition delimited (r : list Z) : Prop := isDigit (ahead r) = false /\ ahead r <> 46 /\ ahead r <> 101 /\ ahead r <> 69.

Lemma intState_done i r : delimited r -> numStep (intState i) (ahead r) = NumDone.
Proof.
  intros (H1 & H2 & H3 & H4). unfold intState. case_bool_decide; cbn; rewrite ?H1; by rewrite !bool_decide_false by done.
Qed.

Lemma typeAt_int i t : typeAt (intState i) t = t.
Proof. unfold intState. by case_bool_decide. Qed.

Lemma scanned_withNumber i u f lx r : scanned lx r -> scanned (withNumber i u f lx) r.
Proof. intros [? [] ? ?]. by split. Qed.

(** A natural number that fits 64 bits. *)
Lemma scan_number_unsigned ds c l lx r : ds = c :: l -> ds = [48] \/ decimalDigits ds -> digitsValue ds < 2 ^ 64 -> delimited r ->
  standing lx c (l ++ r) ->
  exists lx', scan_number lx = (lx', value_unsigned) /\ lex_unsigned lx' = digitsValue ds /\ scanned lx' r.
Proof.
  intros Eds Hds Hlt Hd Hst. destruct (numRun_int ds value_unsigned) as (c' & l' & E & HR & _); [by left|done|].
  assert (c' = c /\ l' = l) as [-> ->] by (rewrite E in Eds; by simplify_eq).
  destruct (scan_number_run c l lx r _ _ HR (intState_done ds r Hd)) as (lx' & E1 & E2 & E3); rewrite ?typeAt_int; try done.
  rewrite E1, typeAt_int. unfold convertNumber. rewrite E2, <- Eds.
  pose proof (readDecimal_parts false ds [] None Hds ltac:(constructor) I) as Rd. unfold numText in Rd. cbn [fracText expText app] in Rd.
  rewrite !app_nil_r in Rd. rewrite Rd.
  rewrite (bool_decide_true (_ = _)), (bool_decide_true (_ < _)) by done. cbn [andb].
  eexists. split; [reflexivity|]. split; [done|]. by apply scanned_withNumber.
Qed.

(** A negative number that fits 64 bits. *)
Lemma scan_number_integer ds lx r : ds = [48] \/ decimalDigits ds -> digitsValue ds <= 2 ^ 63 -> delimited r ->
  standing lx 45 (ds ++ r) ->
  exists lx', scan_number lx = (lx', value_integer) /\ lex_integer lx' = - digitsValue ds /\ scanned lx' r.
Proof.
  intros Hds Hlt Hd Hst. destruct (numRun_int ds value_unsigned) as (_ & _ & _ & _ & HR & _); [by left|done|].
  destruct (scan_number_run 45 ds lx r _ _ HR (intState_done ds r Hd)) as (lx' & E1 & E2 & E3); rewrite ?typeAt_int; try done.
  rewrite E1, typeAt_int. unfold convertNumber. rewrite E2.
  pose proof (readDecimal_parts true ds [] None Hds ltac:(constructor) I) as Rd. unfold numText in Rd. cbn [fracText expText app] in Rd.
  rewrite !app_nil_r in Rd. rewrite Rd.
  rewrite (bool_decide_false (value_integer = value_unsigned)), (bool_decide_true (value_integer = value_integer)), (bool_decide_true (_ <= _)) by (done || lia).
  cbn [andb]. eexists. split; [reflexivity|]. split; [done|]. by apply scanned_withNumber.
Qed.

(** Fraction and exponent after the integral part. *)
Lemma numRun_float i fd ex t : floatParts i fd ex -> t = value_unsigned \/ t = value_integer ->
  exists st, numRun (intState i) t (fracText fd ++ expText ex) = Some (st, value_float) /\ typeAt st value_float = value_float /\
    forall r, delimited r -> numStep st (ahead r) = NumDone.
Proof.
  intros [_ Hf Hx Hfl] Ht.
  assert (forall st t, st = intState i \/ st = scan_number_decimal2 -> t = value_unsigned \/ t = value_integer \/ t = value_float ->
    match ex with None => True | Some (_, xd) => allDigits xd /\ xd <> [] end -> ex <> None ->
    exists st', numRun st t (expText ex) = Some (st', value_float) /\ typeAt st' value_float = value_float /\
      forall r, delimited r -> numStep st' (ahead r) = NumDone) as Hexp.
  { clear. intros st t Hst Ht Hx Hne. destruct ex as [[neg xd]|]; [|done]. destruct Hx as [Hx Hxne]. cbn [expText numRun].
    assert (numStep st 101 = Goto scan_number_exponent) as ->.
    { destruct Hst as [-> | ->]; [|done]. unfold intState. by case_bool_decide. }
    cbn [numRun]. assert (numStep scan_number_exponent (if neg then 45 else 43) = Goto scan_number_sign) as -> by (by destruct neg).
    destruct xd as [|d xd]; [done|]. apply Forall_cons in Hx as [Hd Hx]. cbn [numRun numStep]. rewrite (proj2 (isDigit_spec d)) by done.
    exists scan_number_any2. cbn [typeAt]. split; [apply numRun_digits; [by intros c Hc; cbn; rewrite Hc|done|done]|].
    split; [done|]. intros r (H1 & _). cbn. by rewrite H1. }
  destruct fd as [|d fd].
  - cbn [fracText app]. destruct Hfl as [?|Hne]; [done|]. destruct (Hexp (intState i) t) as (st & ?); [by left|tauto|done|done|by exists st].
  - cbn [fracText app numRun].
    assert (numStep (intState i) 46 = Goto scan_number_decimal1) as -> by (unfold intState; by case_bool_decide).
    apply Forall_cons in Hf as [Hd Hf]. cbn [numRun numStep]. rewrite (proj2 (isDigit_spec d)) by done.
    cbn [typeAt]. rewrite numRun_app, numRun_digits; [|by intros c Hc; cbn; rewrite Hc|done|done].
    destruct ex as [x|].
    + destruct (Hexp scan_number_decimal2 value_float) as (st & ?); [by right|tauto|done|done|by exists st].
    + exists scan_number_decimal2. split; [done|]. split; [done|]. intros r (H1 & H2 & H3 & H4). cbn. rewrite H1.
      by rewrite !bool_decide_false by done.
Qed.

(** A number with a fraction or an exponent. *)
Lemma scan_number_float neg i fd ex c l lx r : floatParts i fd ex -> numText neg i fd ex = c :: l -> delimited r ->
  standing lx c (l ++ r) ->
  exists lx', scan_number lx = (lx', value_float) /\ lex_float lx' = strtod (c :: l) /\ scanned lx' r.
Proof.
  intros Hp Et Hd Hst.
  assert (exists st, numRun (numStart c) value_unsigned l = Some (st, value_float) /\ typeAt st value_float = value_float /\
    forall r, delimited r -> numStep st (ahead r) = NumDone) as (st & HR & Ht & HD).
  { destruct (numRun_int i value_unsigned) as (c' & l' & E & H1 & H2 & _); [by left|apply Hp|]. unfold numText in Et. destruct neg.
    - cbn [app] in Et. simplify_eq. destruct (numRun_float (c' :: l') fd ex value_integer Hp) as (st & E1 & E2 & E3); [by right|].
      exists st. split; [|done]. change (numStart 45) with scan_number_minus. by rewrite numRun_app, H2.
    - cbn [app] in Et. rewrite E in Et. cbn [app] in Et. simplify_eq.
      destruct (numRun_float (c :: l') fd ex value_unsigned Hp) as (st & E1 & E2 & E3); [by left|].
      exists st. split; [|done]. by rewrite numRun_app, H1. }
  destruct (scan_number_run c l lx r st value_float HR (HD r Hd)) as (lx' & E1 & E2 & E3); rewrite ?Ht; try done.
  rewrite E1, Ht. unfold convertNumber. rewrite E2. destruct (readDecimal (c :: l)) as [[??]?].
  rewrite !(bool_decide_false (value_float = _)) by done. cbn [andb].
  eexists. split; [reflexivity|]. split; [done|]. by apply scanned_withNumber.
Qed.
