(* ===== verification/JsonLexerTotal.v ===== *)
(** The lexer on arbitrary input: it always terminates, every token but the end of the input and
    an error consumes input, a string token is UTF-8 and an integer token fits its type. *)

From S2P Require Import Prelude Bytes CStrings JsonUtf8 JsonDtoa JsonDtoaProps JsonDtoaRound JsonDump JsonLexer JsonLexerProps.
From Stdlib Require Import Ascii.

(** * Reading *)

(** A lexer from which a character has been read and not put back, later than [lx]. *)
Record later (lx lx' : Lexer) : Prop := {
  la_wf : wfLexer lx';
  la_unget : next_unget lx' = false;
  la_input : (length (ia lx') <= length (input lx))%nat;
  la_pos : pos lx <= pos lx';
  la_ignore : ignore_comments lx' = ignore_comments lx
}.

Lemma later_input lx lx' : later lx lx' -> input lx' = ia lx'.
Proof. intros []. unfold input. by rewrite la_unget0. Qed.

Lemma later_trans lx lx1 lx2 : later lx lx1 -> later lx1 lx2 -> later lx lx2.
Proof.
  intros H1 H2. pose proof (later_input _ _ H1) as E. destruct H1, H2. split; try done; [rewrite E in *; lia|lia|congruence].
Qed.

Lemma later_get lx : wfLexer lx -> later lx (get lx).
Proof.
  intros Hw. pose proof (get_reads lx Hw) as R. destruct (input lx) as [|c r] eqn:E; destruct R as [R1 R2 R3 R4 R5 R6 R7];
  (split; [done|done|rewrite R2, E; cbn; lia|lia|done]).
Qed.

(** Reading a character that is not the end of the input consumes it. *)
Lemma get_consumes lx : wfLexer lx -> current (get lx) <> EOF -> (length (ia (get lx)) < length (input lx))%nat /\ is_byte (current (get lx)).
Proof.
  intros Hw Hne. pose proof (get_reads lx Hw) as R. pose proof (input_bytes lx Hw) as Hb.
  destruct (input lx) as [|c r] eqn:E; destruct R as [R1 R2 R3 R4 R5 R6 R7]; [done|].
  apply Forall_cons in Hb as [Hc _]. rewrite R2, R1. split; [cbn; lia|done].
Qed.

Lemma later_refl lx : wfLexer lx -> next_unget lx = false -> later lx lx.
Proof. intros Hw Hu. split; [done|done|unfold input; by rewrite Hu|lia|done]. Qed.

Lemma later_same lx lx' lx2 : later lx lx' -> ia lx2 = ia lx' -> next_unget lx2 = next_unget lx' -> current lx2 = current lx' ->
  position lx2 = position lx' -> ignore_comments lx2 = ignore_comments lx' -> later lx lx2.
Proof.
  intros [[W1 W2 W3] L2 L3 L4 L5] E1 E2 E3 E4 E5. split; [split|..]; unfold pos in *; rewrite ?E1, ?E2, ?E3, ?E4, ?E5; try done.
Qed.

Lemma later_add lx lx' c : later lx lx' -> later lx (add c lx').
Proof. intros H. by eapply later_same. Qed.

Lemma later_fail lx lx' msg : later lx lx' -> later lx (fail msg lx').1.
Proof. intros H. by eapply later_same. Qed.

Lemma later_addAll lx lx' l : later lx lx' -> later lx (addAll l lx').
Proof. revert lx'. induction l as [|c l IH]; intros lx' H; [done|]. apply (IH (add c lx')), later_add, H. Qed.

Create HintDb lexer.
#[export] Hint Resolve later_add later_fail later_addAll later_get later_refl la_wf : lexer.

Lemma later_next lx lx' : later lx lx' -> later lx (get lx').
Proof. intros H. eapply later_trans; [exact H|]. apply later_get, H. Qed.
#[export] Hint Resolve later_next : lexer.

(** * Strings *)

Lemma get_buffer lx : token_buffer (get lx) = token_buffer lx.
Proof. unfold get. by destruct (if next_unget lx then _ else _). Qed.

Lemma codepointFrom_later factors cp lx0 lx : later lx0 lx -> later lx0 (codepointFrom factors cp lx).1 /\
  token_buffer (codepointFrom factors cp lx).1 = token_buffer lx.
Proof.
  revert cp lx. induction factors as [|x factors IH]; intros cp lx H; [done|]. cbn [codepointFrom].
  destruct (hexDigit (current (get lx))); [|cbn; split; [auto with lexer|apply get_buffer]].
  rewrite <- (get_buffer lx). apply IH. auto with lexer.
Qed.

Lemma hexDigit_range c d : hexDigit c = Some d -> 0 <= d < 16.
Proof. unfold hexDigit. repeat case_bool_decide; intros; simplify_eq; lia. Qed.

Lemma codepointFrom_step f fs cp lx : (codepointFrom (f :: fs) cp lx).2 = -1 \/
  exists d lx', 0 <= d < 16 /\ codepointFrom (f :: fs) cp lx = codepointFrom fs (cp + Z.shiftl d f) lx'.
Proof.
  cbn [codepointFrom]. destruct (hexDigit (current (get lx))) as [d|] eqn:E; [|by left].
  right. exists d, (get lx). by apply hexDigit_range in E.
Qed.

Lemma get_codepoint_range lx : let cp := (get_codepoint lx).2 in cp = -1 \/ 0 <= cp < 65536.
Proof.
  cbv zeta. unfold get_codepoint.
  destruct (codepointFrom_step 12 [8; 4; 0] 0 lx) as [?|(d1 & l1 & R1 & ->)]; [by left|].
  destruct (codepointFrom_step 8 [4; 0] (0 + Z.shiftl d1 12) l1) as [?|(d2 & l2 & R2 & ->)]; [by left|].
  destruct (codepointFrom_step 4 [0] (0 + Z.shiftl d1 12 + Z.shiftl d2 8) l2) as [?|(d3 & l3 & R3 & ->)]; [by left|].
  destruct (codepointFrom_step 0 [] (0 + Z.shiftl d1 12 + Z.shiftl d2 8 + Z.shiftl d3 4) l3) as [?|(d4 & l4 & R4 & ->)]; [by left|].
  right. cbn [codepointFrom snd]. rewrite !Z.shiftl_mul_pow2 by lia.
  change (2 ^ 12) with 4096. change (2 ^ 8) with 256. change (2 ^ 4) with 16. change (2 ^ 0) with 1. lia.
Qed.

(** A surrogate pair gives a code point beyond the basic plane. *)
Lemma surrogate_scalar a b : 0xD800 <= a <= 0xDBFF -> 0xDC00 <= b <= 0xDFFF ->
  scalar (u32 (u32 (Z.shiftl a 10) + b - 0x35FDC00)).
Proof.
  intros Ha Hb. rewrite Z.shiftl_mul_pow2 by lia. change (2 ^ 10) with 1024. rewrite (u32_id (a * 1024)) by lia.
  rewrite u32_id by lia. unfold scalar. lia.
Qed.

Lemma unicodeEscape_later lx0 lx : later lx0 lx ->
  let '(lx', t) := unicodeEscape lx in later lx0 lx' /\
    (t = parse_error \/ t = value_string /\ exists cp, scalar cp /\ token_buffer lx' = token_buffer lx ++ encodeCodepoint cp).
Proof.
  intros H. unfold unicodeEscape.
  pose proof (codepointFrom_later [12; 8; 4; 0] 0 lx0 lx H) as [H1 B1]. pose proof (get_codepoint_range lx) as R1.
  fold (get_codepoint lx) in H1, B1. destruct (get_codepoint lx) as [lx1 cp1]. cbn [fst snd] in *.
  case_bool_decide; [split; [by apply later_fail|by left]|].
  case_bool_decide as Hhi.
  - assert (exists lx2 p, (if bool_decide (current (get lx1) = 92) then (get (get lx1), bool_decide (current (get (get lx1)) = 117)) else (get lx1, false)) = (lx2, p)
      /\ later lx0 lx2 /\ token_buffer lx2 = token_buffer lx1) as (lx2 & p & -> & H2 & B2).
    { case_bool_decide; eexists _, _; (split; [reflexivity|]); rewrite ?get_buffer; auto with lexer. }
    destruct p; [|split; [by apply later_fail|by left]].
    pose proof (codepointFrom_later [12; 8; 4; 0] 0 lx0 lx2 H2) as [H3 B3]. fold (get_codepoint lx2) in H3, B3.
    destruct (get_codepoint lx2) as [lx3 cp2]. cbn [fst] in *.
    case_bool_decide; [split; [by apply later_fail|by left]|].
    case_bool_decide as Hlo; [|split; [by apply later_fail|by left]].
    split; [by apply later_addAll|]. right. split; [done|]. eexists. split; [by apply surrogate_scalar|].
    destruct (addAll_spec (encodeCodepoint (u32 (u32 (Z.shiftl cp1 10) + cp2 - 0x35FDC00))) lx3) as [-> _]. congruence.
  - case_bool_decide as Hlo; [split; [by apply later_fail|by left]|].
    split; [by apply later_addAll|]. right. split; [done|]. exists cp1. split; [unfold scalar; lia|].
    destruct (addAll_spec (encodeCodepoint cp1) lx1) as [-> _]. congruence.
Qed.

Lemma rangesLoop_later rs lx0 lx : later lx0 lx -> let '(lx', ok) := rangesLoop rs lx in later lx0 lx' /\
  (ok = true -> exists cs, Forall2 inRange rs cs /\ token_buffer lx' = token_buffer lx ++ cs).
Proof.
  revert lx. induction rs as [|r rs IH]; intros lx H; cbn [rangesLoop].
  - split; [done|]. intros _. exists []. by rewrite app_nil_r.
  - destruct (inRange r (current (get lx))) eqn:E.
    + specialize (IH (add (current (get lx)) (get lx)) ltac:(auto with lexer)).
      destruct (rangesLoop rs _) as [lx' ok]. destruct IH as [H1 H2]. split; [done|]. intros Hok. destruct (H2 Hok) as (cs & Hcs & Eb).
      exists (current (get lx) :: cs). split; [constructor; [by rewrite E|done]|]. rewrite Eb. cbn [token_buffer add].
      by rewrite get_buffer, <- app_assoc.
    + split; [auto with lexer|done].
Qed.

Lemma utf8_snoc l c : utf8 l -> utf8Char c -> utf8 (l ++ c).
Proof. intros Hl Hc. apply utf8_app; [done|]. rewrite <- (app_nil_r c). by constructor; [|constructor]. Qed.

Lemma simpleEscape_ascii c b : simpleEscape c = Some b -> 0 <= b <= 0x7F.
Proof. unfold simpleEscape. repeat case_bool_decide; intros; simplify_eq; lia. Qed.

Lemma followRanges_ascii c : followRanges c = Some [] -> 0 <= c <= 0x7F.
Proof. unfold followRanges. repeat (case_bool_decide; cbn [orb]); intros; simplify_eq; done. Qed.

(** A string token ends within the fuel, and what it holds is UTF-8. *)
Lemma scanStringLoop_total fuel lx0 lx : later lx0 lx -> (length (ia lx) < fuel)%nat -> utf8 (token_buffer lx) ->
  let '(lx', t) := scanStringLoop fuel lx in
  later lx0 lx' /\ (t = parse_error \/ t = value_string /\ utf8 (token_buffer lx')).
Proof.
  revert lx. induction fuel as [|fuel IH]; intros lx H Hf Hu; [lia|]. cbn [scanStringLoop].
  assert (later lx0 (get lx)) as H1 by auto with lexer. pose proof (get_buffer lx) as B1.
  case_bool_decide as Ceof; [split; [by apply later_fail|by left]|].
  destruct (get_consumes lx (la_wf _ _ H) Ceof) as [Hc1 _]. rewrite (later_input _ _ H) in Hc1.
  case_bool_decide; [split; [done|right; split; [done|by rewrite B1]]|].
  case_bool_decide as Cesc.
  - assert (later lx0 (get (get lx))) as H2 by auto with lexer. pose proof (get_buffer (get lx)) as B2.
    assert (length (ia (get (get lx))) <= length (ia (get lx)))%nat as Hc2.
    { pose proof (later_get (get lx) (la_wf _ _ H1)) as L. pose proof (la_input _ _ L) as Li. by rewrite (later_input _ _ H1) in Li. }
    destruct (simpleEscape (current (get (get lx)))) as [b|] eqn:Es.
    + apply IH; [by apply later_add|cbn; lia|]. cbn [token_buffer add]. rewrite B2, B1.
      apply utf8_snoc; [done|]. by eapply utf8Char_ascii, simpleEscape_ascii.
    + case_bool_decide; [|split; [by apply later_fail|by left]].
      pose proof (unicodeEscape_later (get (get lx)) (get (get lx)) ltac:(apply later_refl; [apply H2|apply H2])) as U.
      destruct (unicodeEscape (get (get lx))) as [lx3 t]. destruct U as [U1 U2].
      assert (later lx0 lx3) as L3 by (by eapply later_trans).
      case_bool_decide as Ct; [split; [done|by left]|].
      destruct U2 as [?|(_ & cp & Hs & B3)]; [done|]. apply IH; [done| |].
      * pose proof (la_input _ _ U1) as Li. rewrite (later_input _ _ H2) in Li. lia.
      * rewrite B3, B2, B1. apply utf8_snoc; [done|]. by apply encodeCodepoint_char.
  - case_bool_decide; [split; [by apply later_fail|by left]|].
    destruct (followRanges (current (get lx))) as [[|rg rs]|] eqn:Ef.
    + apply IH; [by apply later_add|cbn; lia|]. cbn [token_buffer add]. rewrite B1.
      apply utf8_snoc; [done|]. by apply utf8Char_ascii, followRanges_ascii.
    + unfold next_byte_in_range.
      pose proof (rangesLoop_later (rg :: rs) (get lx) (add (current (get lx)) (get lx))
        ltac:(apply later_add, later_refl; [apply H1|apply H1])) as R.
      destruct (rangesLoop (rg :: rs) _) as [lx2 ok]. destruct R as [R1 R2].
      assert (later lx0 lx2) as L2 by (by eapply later_trans). destruct ok; [|split; [done|by left]].
      destruct (R2 eq_refl) as (cs & Hcs & B2). apply IH; [done| |].
      * pose proof (la_input _ _ R1) as Li. rewrite (later_input _ _ H1) in Li. lia.
      * rewrite B2. cbn [token_buffer add]. rewrite B1, <- app_assoc. apply utf8_snoc; [done|]. by exists (current (get lx)), cs, (rg :: rs).
    + split; [by apply later_fail|by left].
Qed.

(** * Numbers *)

Lemma typeAt_number st t : t = value_unsigned \/ t = value_integer \/ t = value_float ->
  typeAt st t = value_unsigned \/ typeAt st t = value_integer \/ typeAt st t = value_float.
Proof. destruct st; cbn; tauto. Qed.

Definition numberToken (t : token_type) : Prop := t = value_unsigned \/ t = value_integer \/ t = value_float.

(** The number automaton stops within the fuel, having read one character too many. *)
Lemma scanNumberLoop_total fuel st t lx0 lx : later lx0 lx -> (length (ia lx) < fuel)%nat -> numberToken t ->
  let '(lx', t') := scanNumberLoop fuel st t lx in
  later lx0 lx' /\ (t' = parse_error \/ numberToken t' /\ exists lx1, later lx0 lx1 /\ lx' = get lx1).
Proof.
  revert st t lx. induction fuel as [|fuel IH]; intros st t lx H Hf Ht; [lia|]. cbn [scanNumberLoop].
  assert (later lx0 (get lx)) as H1 by auto with lexer.
  destruct (numStep st (current (get lx))) as [st'| |msg] eqn:Es.
  - assert (current (get lx) <> EOF) as Hne.
    { intros E. rewrite E in Es. destruct st; vm_compute in Es; congruence. }
    destruct (get_consumes lx (la_wf _ _ H) Hne) as [Hc _]. rewrite (later_input _ _ H) in Hc.
    apply IH; [by apply later_add|cbn; lia|by apply typeAt_number].
  - split; [done|]. right. split; [by apply typeAt_number|]. by exists lx.
  - split; [by apply later_fail|by left].
Qed.

(** What a number token carries. *)
Definition numberValue (lx : Lexer) (t : token_type) : Prop :=
  match t with
  | value_unsigned => 0 <= lex_unsigned lx < 2 ^ 64
  | value_integer => - 2 ^ 63 <= lex_integer lx <= 0
  | value_float => forall m e, lex_float lx = Some (m, e) -> isDouble m e = true /\ canonFloat m e = (m, e)
  | _ => False
  end.

Lemma convertNumber_total t lx : numberToken t ->
  let '(lx', t') := convertNumber t lx in numberToken t' /\ numberValue lx' t' /\ input lx' = input lx /\ pos lx' = pos lx /\
    ignore_comments lx' = ignore_comments lx /\ (wfLexer lx -> wfLexer lx').
Proof.
  intros Ht. unfold convertNumber. pose proof (readDecimal_nonneg (token_buffer lx)) as Hd.
  destruct (readDecimal (token_buffer lx)) as [[neg d] p]. cbn [fst snd] in Hd.
  destruct (bool_decide (t = value_unsigned) && bool_decide (d < 2 ^ 64)) eqn:E1.
  { apply andb_true_iff in E1 as [_ E1%bool_decide_eq_true]. split; [by left|]. split; [cbn; lia|].
    do 3 (split; [done|]). by intros []. }
  destruct (bool_decide (t = value_integer) && bool_decide (- 2 ^ 63 <= - d)) eqn:E2.
  { apply andb_true_iff in E2 as [_ E2%bool_decide_eq_true]. split; [right; by left|]. split; [cbn; lia|].
    do 3 (split; [done|]). by intros []. }
  split; [by right; right|]. split; [by intros m e E; apply strtod_canonical in E|]. do 3 (split; [done|]). by intros [].
Qed.

(** What a scan of a token leaves behind, from a lexer standing on a character. *)
Record tokenDone (lx lx' : Lexer) : Prop := {
  td_wf : wfLexer lx';
  td_input : (length (input lx') <= length (ia lx))%nat;
  td_pos : 0 < pos lx';
  td_ignore : ignore_comments lx' = ignore_comments lx
}.

Lemma later_tokenDone lx lx' : next_unget lx = false -> 0 < pos lx -> later lx lx' -> tokenDone lx lx'.
Proof.
  intros Hu Hp H. pose proof (later_input _ _ H) as E. destruct H as [L1 L2 L3 L4 L5]. split; [done| |lia|done].
  rewrite E. unfold input in L3. by rewrite Hu in L3.
Qed.

Lemma scan_number_total lx : wfLexer lx -> next_unget lx = false -> 0 < pos lx ->
  let '(lx', t) := scan_number lx in tokenDone lx lx' /\ (t = parse_error \/ numberToken t /\ numberValue lx' t).
Proof.
  intros Hw Hu Hp. unfold scan_number.
  assert (later lx (add (current (reset lx)) (reset lx))) as H0.
  { eapply later_same; [by apply later_refl|done..]. }
  pose proof (scanNumberLoop_total (S (length (ia (reset lx)))) (numStart (current (reset lx))) value_unsigned lx _ H0 ltac:(cbn; lia) ltac:(by left)) as R.
  destruct (scanNumberLoop _ _ _ _) as [lx1 t]. destruct R as [L1 HR].
  destruct HR as [-> | (Ht & lx2 & L2 & ->)].
  { cbn. split; [by apply later_tokenDone|by left]. }
  rewrite !bool_decide_false by (by destruct Ht as [-> | [-> | ->]]). cbn [orb].
  pose proof (get_reads lx2 (la_wf _ _ L2)) as R. pose proof (input_bytes lx2 (la_wf _ _ L2)) as Hbs.
  assert (exists c r, readOne lx2 (get lx2) c r /\ (is_byte c \/ c = EOF /\ r = []) /\
    (length (if bool_decide (c = EOF) then [] else c :: r) <= length (input lx2))%nat) as (c & r & Hr & Hc & Hlen).
  { destruct (input lx2) as [|c r]; [exists EOF, []; split; [done|]; split; [by right|]; by rewrite bool_decide_true|]. apply Forall_cons in Hbs as [Hb _].
    exists c, r. split; [done|]. split; [by left|]. case_bool_decide; cbn; lia. }
  destruct (unget_input _ _ _ _ Hr (wl_pos _ (la_wf _ _ L2)) Hc) as (U1 & U2 & U3 & U4 & _).
  pose proof (convertNumber_total t (unget (get lx2)) Ht) as C. destruct (convertNumber t (unget (get lx2))) as [lx3 t3].
  destruct C as (C1 & C2 & C3 & C4 & C5 & C6). split; [|by right].
  pose proof (later_input _ _ L2) as E2. pose proof (la_input _ _ L2) as Li. destruct L2 as [W2 N2 _ P2 I2].
  split; [by apply C6| |lia|congruence]. rewrite C3, U1.
  unfold input in Li at 1. rewrite Hu in Li. rewrite E2 in Hlen. lia.
Qed.

Lemma scan_literal_total text t lx0 lx : later lx0 lx -> let '(lx', t') := scan_literal text t lx in later lx0 lx' /\ (t' = parse_error \/ t' = t).
Proof.
  revert lx. induction text as [|c text IH]; intros lx H; cbn [scan_literal]; [split; [done|by right]|].
  case_bool_decide; [apply IH; auto with lexer|]. split; [by apply later_fail, later_next|by left].
Qed.

(** * Tokens *)

(** What each token carries. *)
Definition tokenValue (lx : Lexer) (t : token_type) : Prop :=
  match t with
  | value_string => utf8 (token_buffer lx)
  | value_unsigned | value_integer | value_float => numberValue lx t
  | uninitialized | literal_or_value => False
  | _ => True
  end.

Lemma scanToken_total lx : wfLexer lx -> next_unget lx = false -> 0 < pos lx ->
  let '(lx', t) := scanToken lx in tokenDone lx lx' /\ tokenValue lx' t.
Proof.
  intros Hw Hu Hp. assert (later lx lx) as H0 by (by apply later_refl).
  assert (tokenDone lx lx) as D0 by (by apply later_tokenDone). unfold scanToken.
  assert (forall a b, tokenValue (scan_literal a b lx).1 b -> (scan_literal a b lx).2 = parse_error \/ (scan_literal a b lx).2 = b ->
    let '(lx', t) := scan_literal a b lx in tokenDone lx lx' /\ tokenValue lx' t) as HL.
  { intros a b Hv Ht. pose proof (scan_literal_total a b lx lx H0) as R. destruct (scan_literal a b lx) as [lx' t'].
    cbn [fst snd] in *.
    destruct R as [R _]. split; [by apply later_tokenDone|]. by destruct Ht as [-> | ->]. }
  assert (forall a b, (scan_literal a b lx).2 = parse_error \/ (scan_literal a b lx).2 = b) as HT.
  { intros a b. pose proof (scan_literal_total a b lx lx H0) as R. by destruct (scan_literal a b lx), R. }
  do 6 (case_bool_decide; [by split|]). do 3 (case_bool_decide; [by apply HL|]). clear HL HT.
  case_bool_decide.
  { unfold scan_string. assert (later lx (reset lx)) as L1 by (by eapply later_same).
    pose proof (scanStringLoop_total (S (length (ia (reset lx)))) lx (reset lx) L1 ltac:(cbn; lia) ltac:(constructor)) as R.
    destruct (scanStringLoop _ _) as [lx' t]. destruct R as [R HR]. split; [by apply later_tokenDone|].
    by destruct HR as [-> | [-> ?]]. }
  destruct (bool_decide (current lx = 45) || isDigit (current lx)).
  { pose proof (scan_number_total lx Hw Hu Hp) as R. destruct (scan_number lx) as [lx' t]. destruct R as [R HR]. split; [done|].
    destruct HR as [-> | [Ht Hv]]; [done|]. by destruct Ht as [-> | [-> | ->]]. }
  destruct (_ || _); [by split|]. split; [by apply later_tokenDone, later_fail|done].
Qed.

(** A token that is neither the end of the input nor an error. *)
Definition proper (t : token_type) : bool := bool_decide (t <> end_of_input) && bool_decide (t <> parse_error).

Lemma scanToken_eof lx : current lx = EOF -> scanToken lx = (lx, end_of_input).
Proof. intros E. unfold scanToken. rewrite E. done. Qed.

Lemma length_dropBlank l : (length (dropBlank l) <= length l)%nat.
Proof. induction l as [|c l IH]; [done|]. cbn [dropBlank]. destruct (isBlank c); cbn; lia. Qed.

Lemma skip_bom_total lx : wfLexer lx ->
  let '(lx', ok) := skip_bom lx in wfLexer lx' /\ ignore_comments lx' = ignore_comments lx /\
    (length (input lx') <= length (input lx))%nat /\ (ok = false -> 0 < pos lx').
Proof.
  intros Hw. unfold skip_bom. pose proof (later_get lx Hw) as H1. pose proof (get_reads lx Hw) as R.
  assert (exists c r, readOne lx (get lx) c r /\ (is_byte c \/ c = EOF /\ r = []) /\
    (length (if bool_decide (c = EOF) then [] else c :: r) <= length (input lx))%nat) as (c & r & Hr & Hc & Hlen).
  { pose proof (input_bytes lx Hw) as Hbs. destruct (input lx) as [|c r]; [exists EOF, []; split; [done|]; split; [by right|]; by rewrite bool_decide_true|].
    apply Forall_cons in Hbs as [Hb _]. exists c, r. split; [done|]. split; [by left|]. case_bool_decide; cbn; lia. }
  assert (forall lx', later (get lx) lx' -> wfLexer lx' /\ ignore_comments lx' = ignore_comments lx /\
    (length (input lx') <= length (input lx))%nat /\ 0 < pos lx') as HL.
  { intros lx' L. assert (later lx lx') as L' by (by eapply later_trans). rewrite (later_input _ _ L'). destruct L, L'.
    pose proof (ro_pos _ _ _ _ Hr). pose proof (wl_pos _ Hw). split; [done|]. split; [done|]. split; [done|lia]. }
  assert (later (get lx) (get lx)) as L0 by (apply later_refl; apply H1).
  destruct (bool_decide (current (get lx) = 0xEF)).
  - destruct (bool_decide (current (get (get lx)) = 0xBB)).
    + destruct (HL (get (get (get lx)))) as (A1 & A2 & A3 & A4); [auto with lexer|]. by split; [|split; [|split]].
    + destruct (HL (get (get lx))) as (A1 & A2 & A3 & A4); [auto with lexer|]. by split; [|split; [|split]].
  - destruct (unget_input _ _ _ _ Hr (wl_pos _ Hw) Hc) as (U1 & U2 & U3 & U4 & _). split; [done|]. split; [done|]. rewrite U1. split; [done|]. done.
Qed.

(** Every scan ends; it consumes input unless it returns the end of the input or an error; and
    what it returns is well formed. *)
Lemma scan_total lx : wfLexer lx -> ignore_comments lx = false ->
  let '(lx', t) := scan lx in wfLexer lx' /\ ignore_comments lx' = false /\ 0 < pos lx' /\ tokenValue lx' t /\
    (length (input lx') + (if proper t then 1 else 0) <= length (input lx))%nat.
Proof.
  intros Hw Hi. unfold scan.
  assert (exists lx1 ok, (if bool_decide (chars_read_total (position lx) = 0) then skip_bom lx else (lx, true)) = (lx1, ok) /\
    wfLexer lx1 /\ ignore_comments lx1 = false /\ (length (input lx1) <= length (input lx))%nat /\ (ok = false -> 0 < pos lx1))
    as (lx1 & ok & -> & W1 & I1 & L1 & P1).
  { case_bool_decide; [|by exists lx, true]. pose proof (skip_bom_total lx Hw) as S. destruct (skip_bom lx) as [lx1 ok].
    exists lx1, ok. rewrite Hi in S. done. }
  destruct ok.
  2: { split; [by destruct W1 as [? ? ?]|]. split; [done|]. split; [by apply P1|]. split; [done|].
       change (length (input lx1) + 0 <= length (input lx))%nat. lia. }
  pose proof (skip_whitespace_spec lx1 W1 I1) as R. pose proof (length_dropBlank (input lx1)) as Hd.
  assert (ignore_comments (skip_whitespace lx1) = false) as I2 by (destruct (dropBlank (input lx1)); apply R).
  cbn [skipComments]. rewrite I2. cbn [andb]. rewrite bool_decide_true by done.
  destruct (dropBlank (input lx1)) as [|c r]; destruct R as [S1 S2 S3 S4 S5 S6].
  - rewrite scanToken_eof by done. split; [done|]. split; [done|]. split; [done|]. split; [done|].
    assert (input (skip_whitespace lx1) = []) as -> by (unfold input; by rewrite S3, S2).
    change (0 <= length (input lx))%nat. lia.
  - pose proof (scanToken_total (skip_whitespace lx1) S6 S3 S4) as T. destruct (scanToken (skip_whitespace lx1)) as [lx' t].
    destruct T as [[T1 T2 T3 T4] Tv]. rewrite S5 in T4. rewrite S2 in T2. cbn in Hd.
    split; [done|]. split; [done|]. split; [done|]. split; [done|]. destruct (proper t); lia.
Qed.
