(* ===== verification/JsonParser.v ===== *)
(** [nlohmann::json::parse]: the parser and the DOM builder of src/libs/nlohmann/json.hpp
    (classes [parser] and [json_sax_dom_parser]).

    The parser is the code's loop over a stack of open containers, one iteration at a time.  The
    builder keeps references into the value under construction; a reference is the path to the
    place it points to.  Parsing from a [std::string] with the default arguments is modelled: no
    callback, exceptions allowed. *)

From S2P Require Import Prelude Bytes CStrings Json JsonUtf8 JsonDtoa JsonLexer.
From Stdlib Require Import Ascii.
Local Open Scope string_scope.

(** * Objects *)

(** [std::less<std::string>]: lexicographic on unsigned bytes. *)
Fixpoint bytesLt (a b : list Z) : bool :=
  match a, b with
  | [], [] => false
  | [], _ :: _ => true
  | _ :: _, [] => false
  | x :: a, y :: b => if bool_decide (x < y) then true else if bool_decide (x = y) then bytesLt a b else false
  end.

Definition keyLt (a b : string) : bool := bytesLt (bytesOf a) (bytesOf b).

(** A binding in its place in a [std::map]; an existing one gets the new value. *)
Fixpoint mapInsert {A} (k : string) (v : A) (l : list (string * A)) : list (string * A) :=
  match l with
  | [] => [(k, v)]
  | (k', v') :: l =>
      if keyLt k k' then (k, v) :: (k', v') :: l
      else if bool_decide (k = k') then (k, v) :: l
      else (k', v') :: mapInsert k v l
  end.

(** [object->operator[](k)]: a missing key is added with a null value. *)
Definition mapTouch (k : string) (l : list (string * json)) : list (string * json) :=
  match assoc k l with Some _ => l | None => mapInsert k JNull l end.

(** * References into the value under construction *)

Inductive PathStep := AtIndex (i : nat) | AtKey (k : string).

Fixpoint assocAlter {A} (k : string) (f : A -> A) (l : list (string * A)) : list (string * A) :=
  match l with
  | [] => []
  | (k', v) :: l => if bool_decide (k = k') then (k', f v) :: l else (k', v) :: assocAlter k f l
  end.

(** Assigning through the reference [p]. *)
Fixpoint updateAt (p : list PathStep) (f : json -> json) (j : json) : json :=
  match p with
  | [] => f j
  | AtIndex i :: p => match j with JArray l => JArray (alter (updateAt p f) i l) | _ => j end
  | AtKey k :: p => match j with JObject l => JObject (assocAlter k (updateAt p f) l) | _ => j end
  end.

(** Reading through it; null where nothing is. *)
Fixpoint readAt (p : list PathStep) (j : json) : json :=
  match p with
  | [] => j
  | AtIndex i :: p => match j with JArray l => default JNull (readAt p <$> l !! i) | _ => JNull end
  | AtKey k :: p => match j with JObject l => default JNull (readAt p <$> assoc k l) | _ => JNull end
  end.

(** * The DOM builder *)

Record Dom := { root : json; ref_stack : list (list PathStep); object_element : list PathStep }.

Definition startDom : Dom := {| root := JNull; ref_stack := []; object_element := [] |}.

(** The new value is stored and the reference to it returned; the top of the stack is the head of
    [ref_stack]. *)
Definition handle_value (v : json) (d : Dom) : Dom * list PathStep :=
  match ref_stack d with
  | [] => ({| root := v; ref_stack := []; object_element := object_element d |}, [])
  | p :: _ =>
      match readAt p (root d) with
      | JArray l =>
          ({| root := updateAt p (fun j => match j with JArray l => JArray (l ++ [v]) | j => j end) (root d);
              ref_stack := ref_stack d; object_element := object_element d |}, (p ++ [AtIndex (length l)])%list)
      | _ =>
          ({| root := updateAt (object_element d) (fun _ => v) (root d);
              ref_stack := ref_stack d; object_element := object_element d |}, object_element d)
      end
  end.

Definition sax_value (v : json) (d : Dom) : Dom := (handle_value v d).1.

Definition push_ref (r : Dom * list PathStep) : Dom :=
  {| root := root r.1; ref_stack := r.2 :: ref_stack r.1; object_element := object_element r.1 |}.

Definition start_object (d : Dom) : Dom := push_ref (handle_value (JObject []) d).
Definition start_array (d : Dom) : Dom := push_ref (handle_value (JArray []) d).

Definition sax_key (k : string) (d : Dom) : Dom :=
  match ref_stack d with
  | p :: _ =>
      {| root := updateAt p (fun j => match j with JObject l => JObject (mapTouch k l) | j => j end) (root d);
         ref_stack := ref_stack d; object_element := (p ++ [AtKey k])%list |}
  | [] => d
  end.

(** [end_object()] and [end_array()]. *)
Definition pop_ref (d : Dom) : Dom :=
  {| root := root d; ref_stack := tail (ref_stack d); object_element := object_element d |}.

(** * The parser *)

(** What a parse error is thrown with: the position and the message of a [parse_error] 101, or
    the number of an [out_of_range] 406. *)
Inductive ParseFailure := SyntaxError (pos : position_t) (msg : list Z) | NumberOverflow (token : list Z).

Record Parser := {
  m_lexer : Lexer;
  last_token : token_type;
  dom : Dom;
  states : list bool;
  skip_to_state_evaluation : bool
}.

Definition get_token (s : Parser) : Parser :=
  let '(lx, t) := scan (m_lexer s) in
  {| m_lexer := lx; last_token := t; dom := dom s; states := states s; skip_to_state_evaluation := skip_to_state_evaluation s |}.

Definition withDom (d : Dom) (s : Parser) : Parser :=
  {| m_lexer := m_lexer s; last_token := last_token s; dom := d; states := states s; skip_to_state_evaluation := skip_to_state_evaluation s |}.

Definition withStates (l : list bool) (skip : bool) (s : Parser) : Parser :=
  {| m_lexer := m_lexer s; last_token := last_token s; dom := dom s; states := l; skip_to_state_evaluation := skip |}.

Definition exception_message (s : Parser) (expected : token_type) (context : string) : list Z :=
  (bytesOf "syntax error " ++
   (if bool_decide (context = "") then [] else bytesOf "while parsing " ++ bytesOf context ++ [32]) ++
   bytesOf "- " ++
   (if bool_decide (last_token s = parse_error)
    then bytesOf (error_message (m_lexer s)) ++ bytesOf "; last read: '" ++ get_token_string (m_lexer s) ++ [39]
    else bytesOf "unexpected " ++ bytesOf (token_type_name (last_token s))) ++
   (if bool_decide (expected = uninitialized) then [] else bytesOf "; expected " ++ bytesOf (token_type_name expected)))%list.

(** How an iteration of the loop goes on: another one ([continue]), the evaluation of the state
    after a value ([break]), [return true], or an error. *)
Inductive Flow := Continue (s : Parser) | Evaluate (s : Parser) | Return (s : Parser) | Failed (f : ParseFailure).

Definition syntaxError (s : Parser) (expected : token_type) (context : string) : Flow :=
  Failed (SyntaxError (position (m_lexer s)) (exception_message s expected context)).

(** A key, its separator and the first token of its value. *)
Definition parseKey (s : Parser) (push : Parser -> Parser) : Flow :=
  if bool_decide (last_token s <> value_string) then syntaxError s value_string "object key"
  else
    let s := withDom (sax_key (stringOf (token_buffer (m_lexer s))) (dom s)) s in
    let s := get_token s in
    if bool_decide (last_token s <> name_separator) then syntaxError s name_separator "object separator"
    else Continue (get_token (push s)).

(** The [switch] over the token a value starts with. *)
Definition parseValue (s : Parser) : Flow :=
  let lx := m_lexer s in
  match last_token s with
  | begin_object =>
      let s := get_token (withDom (start_object (dom s)) s) in
      if bool_decide (last_token s = end_object) then Evaluate (withDom (pop_ref (dom s)) s)
      else parseKey s (fun s => withStates (false :: states s) (skip_to_state_evaluation s) s)
  | begin_array =>
      let s := get_token (withDom (start_array (dom s)) s) in
      if bool_decide (last_token s = end_array) then Evaluate (withDom (pop_ref (dom s)) s)
      else Continue (withStates (true :: states s) (skip_to_state_evaluation s) s)
  | value_float =>
      match lex_float lx with
      | Some (m, e) => Evaluate (withDom (sax_value (JFloat m e) (dom s)) s)
      | None => Failed (NumberOverflow (get_token_string lx))
      end
  | literal_false => Evaluate (withDom (sax_value (JBool false) (dom s)) s)
  | literal_null => Evaluate (withDom (sax_value JNull (dom s)) s)
  | literal_true => Evaluate (withDom (sax_value (JBool true) (dom s)) s)
  | value_integer => Evaluate (withDom (sax_value (JInteger (lex_integer lx)) (dom s)) s)
  | value_string => Evaluate (withDom (sax_value (JString (stringOf (token_buffer lx))) (dom s)) s)
  | value_unsigned => Evaluate (withDom (sax_value (JUnsigned (lex_unsigned lx)) (dom s)) s)
  | parse_error => syntaxError s uninitialized "value"
  | end_of_input =>
      if bool_decide (chars_read_total (position lx) = 1)
      then Failed (SyntaxError (position lx) (bytesOf "attempting to parse an empty input; check that your input string or stream contains the expected JSON"))
      else syntaxError s literal_or_value "value"
  | _ => syntaxError s literal_or_value "value"
  end.

(** After a value: the container it is in goes on or is closed. *)
Definition evaluateState (s : Parser) : Flow :=
  match states s with
  | [] => Return s
  | true :: outer =>
      let s := get_token s in
      if bool_decide (last_token s = value_separator) then Continue (get_token s)
      else if bool_decide (last_token s = end_array) then Continue (withStates outer true (withDom (pop_ref (dom s)) s))
      else syntaxError s end_array "array"
  | false :: outer =>
      let s := get_token s in
      if bool_decide (last_token s = value_separator) then parseKey (get_token s) (fun s => s)
      else if bool_decide (last_token s = end_object) then Continue (withStates outer true (withDom (pop_ref (dom s)) s))
      else syntaxError s end_object "object"
  end.

(** One iteration of the [while (true)] of [sax_parse_internal]. *)
Definition parseStep (s : Parser) : Flow :=
  if skip_to_state_evaluation s then evaluateState (withStates (states s) false s)
  else match parseValue s with Evaluate s => evaluateState s | r => r end.

(** The loop; [None] when the fuel is spent. *)
Fixpoint sax_parse_internal (fuel : nat) (s : Parser) : option (ParseFailure + Parser) :=
  match fuel with
  | O => None
  | S fuel =>
      match parseStep s with
      | Continue s => sax_parse_internal fuel s
      | Evaluate s => sax_parse_internal fuel s
      | Return s => Some (inr s)
      | Failed f => Some (inl f)
      end
  end.

(** The constructor reads the first token. *)
Definition startParser (input : list Z) : Parser :=
  get_token {| m_lexer := startLexer false input; last_token := uninitialized; dom := startDom; states := [];
               skip_to_state_evaluation := false |}.

(** Every iteration consumes a byte of the input or is one of the last two. *)
Definition parseFuel (input : list Z) : nat := length input + 2.

(** [parse(true, result)]: the whole input must be one value. *)
Definition parseText (input : list Z) : option (ParseFailure + json) :=
  match sax_parse_internal (parseFuel input) (startParser input) with
  | None => None
  | Some (inl f) => Some (inl f)
  | Some (inr s) =>
      let s := get_token s in
      if bool_decide (last_token s = end_of_input) then Some (inr (root (dom s)))
      else Some (inl (SyntaxError (position (m_lexer s)) (exception_message s end_of_input "value")))
  end.

(** The text of the exception. *)
Definition position_string (p : position_t) : string :=
  " at line " +:+ std_to_string (lines_read p + 1) +:+ ", column " +:+ std_to_string (chars_read_current_line p).

Definition what (f : ParseFailure) : string :=
  match f with
  | SyntaxError p msg => "[json.exception.parse_error.101] parse error" +:+ position_string p +:+ ": " +:+ stringOf msg
  | NumberOverflow token => "[json.exception.out_of_range.406] number overflow parsing '" +:+ stringOf token +:+ "'"
  end.

(** [json::parse(text)]. *)
Definition json_parse (text : string) : outcome json :=
  match parseText (bytesOf text) with
  | Some (inr j) => Ret j
  | Some (inl (NumberOverflow _)) => Throw JsonOutOfRange
  | _ => Throw JsonParseError
  end.
