(* ===== verification/JsonParserProps.v ===== *)
(** The parser terminates on every input, and every value it returns can be dumped.

    Termination is by the length of the input still to be read: every iteration of the loop
    consumes a byte, but for the one that meets the end of the input. *)

From S2P Require Import Prelude Bytes CStrings Json JsonUtf8 JsonDtoa JsonDtoaProps JsonDtoaRound JsonDump JsonDumpProps JsonLexer JsonLexerProps JsonLexerTotal JsonParser.
From Stdlib Require Import Ascii.

(** * Termination *)

Definition parserOk (s : Parser) : Prop := wfLexer (m_lexer s) /\ ignore_comments (m_lexer s) = false.

Definition left_over (s : Parser) : nat := length (input (m_lexer s)).

Definition measure (s : Parser) : nat := left_over s + (if proper (last_token s) then 1 else 0).

Lemma get_token_total s : parserOk s ->
  parserOk (get_token s) /\ (measure (get_token s) <= left_over s)%nat /\ tokenValue (m_lexer (get_token s)) (last_token (get_token s)) /\
  dom (get_token s) = dom s /\ states (get_token s) = states s /\ skip_to_state_evaluation (get_token s) = skip_to_state_evaluation s.
Proof.
  intros [Hw Hi]. unfold get_token, measure, left_over, parserOk. pose proof (scan_total (m_lexer s) Hw Hi) as T.
  destruct (scan (m_lexer s)) as [lx t]. cbn [m_lexer last_token]. tauto.
Qed.

(** What one iteration does to the measure. *)
Definition progresses (s : Parser) (r : Flow) : Prop :=
  match r with
  | Continue s' => parserOk s' /\ (measure s' < measure s)%nat /\ (skip_to_state_evaluation s' = true -> proper (last_token s') = true)
  | Evaluate s' => parserOk s' /\ (measure s' <= measure s)%nat /\ proper (last_token s') = true
  | Return s' => parserOk s'
  | Failed _ => True
  end.

Lemma measure_proper s : proper (last_token s) = true -> measure s = S (left_over s).
Proof. intros E. unfold measure. rewrite E. lia. Qed.

Lemma left_le_measure s : (left_over s <= measure s)%nat.
Proof. unfold measure. lia. Qed.

Lemma parseKey_progress s0 s push : parserOk s -> skip_to_state_evaluation s = false -> (measure s <= measure s0)%nat ->
  (forall s, m_lexer (push s) = m_lexer s /\ skip_to_state_evaluation (push s) = skip_to_state_evaluation s) ->
  progresses s0 (parseKey s push).
Proof.
  intros Hs Hk Hm Hpush. unfold parseKey. case_bool_decide as C1; [done|].
  assert (last_token s = value_string) as E1 by (destruct (decide (last_token s = value_string)); tauto).
  set (s1 := withDom _ s). destruct (get_token_total s1) as (G1 & G2 & _ & _ & _ & G6); [exact Hs|].
  case_bool_decide as C2; [done|].
  assert (last_token (get_token s1) = name_separator) as E2 by (destruct (decide (last_token (get_token s1) = name_separator)); tauto).
  destruct (Hpush (get_token s1)) as [P1 P2].
  destruct (get_token_total (push (get_token s1))) as (H1 & H2 & _ & _ & _ & H6); [unfold parserOk; by rewrite P1|].
  split; [done|]. rewrite H6, P2, G6. change (skip_to_state_evaluation s1) with (skip_to_state_evaluation s). rewrite Hk. split; [|done].
  assert (left_over (push (get_token s1)) = left_over (get_token s1)) as El by (unfold left_over; by rewrite P1).
  pose proof (measure_proper (get_token s1) ltac:(by rewrite E2)) as M1. pose proof (measure_proper s ltac:(by rewrite E1)) as M2.
  change (left_over s1) with (left_over s) in G2. lia.
Qed.

Lemma evaluateState_progress s0 s : parserOk s -> skip_to_state_evaluation s = false -> proper (last_token s) = true ->
  (measure s <= measure s0)%nat -> progresses s0 (evaluateState s).
Proof.
  intros Hs Hk Hp Hm. unfold evaluateState. pose proof (measure_proper s Hp) as Ms.
  destruct (get_token_total s Hs) as (G1 & G2 & _ & _ & _ & G6). rewrite Hk in G6.
  destruct (states s) as [|[] outer]; [done| |].
  - case_bool_decide as C1.
    + destruct (get_token_total (get_token s) G1) as (H1 & H2 & _ & _ & _ & H6). split; [done|]. rewrite H6, G6. split; [|done].
      pose proof (left_le_measure (get_token s)). lia.
    + case_bool_decide as C2; [|done]. split; [exact G1|]. split; [change (measure (get_token s) < measure s0)%nat; lia|]. intros _. cbn. by rewrite C2.
  - case_bool_decide as C1.
    + destruct (get_token_total (get_token s) G1) as (H1 & H2 & _ & _ & _ & H6). apply parseKey_progress; [done|by rewrite H6, G6| |done].
      pose proof (left_le_measure (get_token s)). lia.
    + case_bool_decide as C2; [|done]. split; [exact G1|]. split; [change (measure (get_token s) < measure s0)%nat; lia|]. intros _. cbn. by rewrite C2.
Qed.

Lemma parseValue_progress s : parserOk s -> skip_to_state_evaluation s = false -> 
  match parseValue s with
  | Evaluate s' => parserOk s' /\ (measure s' <= measure s)%nat /\ proper (last_token s') = true /\ skip_to_state_evaluation s' = false
  | r => progresses s r
  end.
Proof.
  intros Hs Hk. unfold parseValue. destruct (last_token s) eqn:E; try done;
  try (split; [exact Hs|]; split; [change (measure s <= measure s)%nat; lia|]; split; [cbn; by rewrite E|done]).
  - destruct (lex_float (m_lexer s)) as [[m e]|]; [|done].
    split; [exact Hs|]. split; [change (measure s <= measure s)%nat; lia|]. split; [cbn; by rewrite E|done].
  - pose proof (measure_proper s ltac:(by rewrite E)) as Ms. set (s1 := withDom _ s).
    destruct (get_token_total s1) as (G1 & G2 & _ & _ & _ & G6); [exact Hs|]. change (left_over s1) with (left_over s) in G2.
    change (skip_to_state_evaluation s1) with (skip_to_state_evaluation s) in G6. rewrite Hk in G6.
    case_bool_decide as C; [|split; [exact G1|]; split; [change (measure (get_token s1) < measure s)%nat; lia|by cbn; rewrite G6]].
    split; [exact G1|]. split; [change (measure (get_token s1) <= measure s)%nat; lia|]. split; [cbn; by rewrite C|exact G6].
  - pose proof (measure_proper s ltac:(by rewrite E)) as Ms. set (s1 := withDom _ s).
    destruct (get_token_total s1) as (G1 & G2 & _ & _ & _ & G6); [exact Hs|]. change (left_over s1) with (left_over s) in G2.
    change (skip_to_state_evaluation s1) with (skip_to_state_evaluation s) in G6. rewrite Hk in G6.
    case_bool_decide as C.
    + split; [exact G1|]. split; [change (measure (get_token s1) <= measure s)%nat; lia|]. split; [cbn; by rewrite C|exact G6].
    + assert (progresses s (parseKey (get_token s1) (fun s => withStates (false :: states s) (skip_to_state_evaluation s) s))) as R
        by (apply parseKey_progress; [done|done|lia|done]).
      destruct (parseKey _ _) eqn:Ek; try done. exfalso. unfold parseKey in Ek. by repeat case_bool_decide.
  - by case_bool_decide.
Qed.

Lemma parseStep_progress s : parserOk s -> (skip_to_state_evaluation s = true -> proper (last_token s) = true) ->
  progresses s (parseStep s).
Proof.
  intros Hs Hk. unfold parseStep. destruct (skip_to_state_evaluation s) eqn:E.
  - apply evaluateState_progress; [exact Hs|done|exact (Hk eq_refl)|done].
  - pose proof (parseValue_progress s Hs E) as H. destruct (parseValue s) as [s'|s'| |]; [exact H| |exact H|done].
    destruct H as (H1 & H2 & H3 & H4). by apply evaluateState_progress.
Qed.

(** With more fuel than the measure the loop comes to an end. *)
Lemma sax_parse_internal_ends fuel s : parserOk s -> (skip_to_state_evaluation s = true -> proper (last_token s) = true) ->
  (measure s < fuel)%nat ->
  match sax_parse_internal fuel s with None => False | Some (inl _) => True | Some (inr s') => parserOk s' end.
Proof.
  revert s. induction fuel as [|fuel IH]; intros s Hs Hk Hf; [lia|]. cbn [sax_parse_internal].
  pose proof (parseStep_progress s Hs Hk) as H.
  destruct (parseStep s) as [s'|s'|s'|f] eqn:E; [|exfalso|exact H|done].
  - destruct H as (H1 & H2 & H3). apply IH; [done|done|lia].
  - assert (forall s p, parseKey s p <> Evaluate s') as HK.
    { intros s1 p. unfold parseKey, syntaxError. by repeat case_bool_decide. }
    assert (forall s, evaluateState s <> Evaluate s') as HE.
    { intros s1. unfold evaluateState, syntaxError. destruct (states s1) as [|[] ?]; [done| |]; repeat case_bool_decide; try done; apply HK. }
    unfold parseStep in E. destruct (skip_to_state_evaluation s); [by apply HE in E|].
    destruct (parseValue s); try done. by apply HE in E.
Qed.

Lemma startLexer_wf input : Forall is_byte input -> wfLexer (startLexer false input).
Proof. intros H. split; [done|done|unfold pos; cbn; lia]. Qed.

Lemma startParser_ok l : Forall is_byte l ->
  parserOk (startParser l) /\ (measure (startParser l) <= length l)%nat /\ skip_to_state_evaluation (startParser l) = false.
Proof.
  intros Hl. unfold startParser. set (s0 := {| m_lexer := _ |}).
  destruct (get_token_total s0) as (G1 & G2 & _ & _ & _ & G6); [split; [by apply startLexer_wf|done]|].
  split; [done|]. split; [exact G2|exact G6].
Qed.

(** [json::parse] returns a value or throws on every text: the fuel of [parseText] is enough. *)
Lemma parseText_returns l : Forall is_byte l -> exists r, parseText l = Some r.
Proof.
  intros Hl. destruct (startParser_ok l Hl) as (H1 & H2 & H3). unfold parseText.
  pose proof (sax_parse_internal_ends (parseFuel l) (startParser l) H1 ltac:(by rewrite H3) ltac:(unfold parseFuel; lia)) as H.
  destruct (sax_parse_internal _ _) as [[f|s]|]; [by eexists| |done]. case_bool_decide; by eexists.
Qed.

(** * Parsed values are well formed *)

(** Keys in the order of the map. *)
Fixpoint keysSorted {A} (l : list (string * A)) : bool :=
  match l with
  | [] => true
  | (k, _) :: l' => match l' with [] => true | (k', _) :: _ => keyLt k k' end && keysSorted l'
  end.

(** A value as the library stores one: numbers in the range of their type, strings and keys
    UTF-8, keys sorted. *)
Fixpoint wfJson (j : json) : bool :=
  match j with
  | JUnsigned n => bool_decide (0 <= n < 2 ^ 64)
  | JInteger z => bool_decide (- 2 ^ 63 <= z < 2 ^ 63)
  | JFloat m e => isDouble m e
  | JString s => bool_decide (utf8 (bytesOf s))
  | JArray l => forallb wfJson l
  | JObject l => keysSorted l && forallb (fun kv => bool_decide (utf8 (bytesOf kv.1)) && wfJson kv.2) l
  | _ => true
  end.

Lemma wfJson_utf8 j : wfJson j = true -> utf8Value j = true.
Proof.
  induction j as [| | | | |s|l IH|l IH] using json_nested_ind; try done; cbn [wfJson utf8Value].
  - intros H. rewrite forallb_forall in *. rewrite Forall_forall in IH. intros x Hx. apply IH; [by apply list_elem_of_In|by apply H].
  - rewrite andb_true_iff. intros [_ H]. rewrite forallb_forall in *. rewrite Forall_forall in IH. intros x Hx.
    specialize (H x Hx). apply andb_true_iff in H as [H1 H2]. rewrite H1. apply IH; [by apply list_elem_of_In|done].
Qed.

Lemma bytesLt_trans a b c : bytesLt a b = true -> bytesLt b c = true -> bytesLt a c = true.
Proof.
  revert b c. induction a as [|x a IH]; intros [|y b] [|z c]; try done. cbn.
  repeat case_bool_decide; try done; try lia. apply IH.
Qed.

Lemma bytesLt_total a b : bytesLt a b = false -> a <> b -> bytesLt b a = true.
Proof.
  revert b. induction a as [|x a IH]; intros [|y b]; try done. cbn. repeat case_bool_decide; try done; try lia.
  subst. intros Ha Hb. apply IH; [done|congruence].
Qed.

Lemma keyLt_trans a b c : keyLt a b = true -> keyLt b c = true -> keyLt a c = true.
Proof. apply bytesLt_trans. Qed.

Lemma keyLt_total a b : keyLt a b = false -> a <> b -> keyLt b a = true.
Proof. intros H1 H2. apply bytesLt_total; [done|]. intros E. by apply H2, bytesOf_inj. Qed.

Lemma keysSorted_cons {A} k (v : A) l : keysSorted ((k, v) :: l) = true ->
  keysSorted l = true /\ match l with [] => True | (k', _) :: _ => keyLt k k' = true end.
Proof. cbn [keysSorted]. rewrite andb_true_iff. destruct l as [|[k' v'] l]; tauto. Qed.

Lemma keysSorted_eq {A} k (v : A) l :
  keysSorted ((k, v) :: l) = match l with [] => true | (k', _) :: _ => keyLt k k' end && keysSorted l.
Proof. done. Qed.

Lemma mapInsert_sorted {A} k (v : A) l : keysSorted l = true -> keysSorted (mapInsert k v l) = true.
Proof.
  induction l as [|[k1 v1] l IH]; [done|]. intros H. pose proof (keysSorted_cons _ _ _ H) as [Hl Hh]. cbn [mapInsert].
  destruct (keyLt k k1) eqn:E1; [cbn [keysSorted] in *; by rewrite E1|].
  case_bool_decide as E2; [by subst|].
  specialize (IH Hl). destruct l as [|[k2 v2] l].
  - cbn. by rewrite (keyLt_total k k1 E1 E2).
  - cbn [mapInsert] in *. destruct (keyLt k k2) eqn:E3.
    + cbn [keysSorted] in *. rewrite (keyLt_total k k1 E1 E2). exact IH.
    + case_bool_decide as E4; [subst k2|]; rewrite (keysSorted_eq k1 v1), Hh; exact IH.
Qed.

Lemma assocAlter_sorted {A} k (f : A -> A) l : keysSorted (assocAlter k f l) = keysSorted l.
Proof.
  induction l as [|[k1 v1] l IH]; [done|]. cbn [assocAlter]. case_bool_decide; [done|].
  cbn [keysSorted]. rewrite IH. f_equal. destruct l as [|[k2 v2] l]; [done|]. cbn. by case_bool_decide.
Qed.

Lemma forallb_assocAlter {A} (p : string * A -> bool) k f l : (forall k v, p (k, v) = true -> p (k, f v) = true) ->
  forallb p l = true -> forallb p (assocAlter k f l) = true.
Proof.
  intros Hf. induction l as [|[k1 v1] l IH]; [done|]. cbn. rewrite andb_true_iff. intros [H1 H2].
  case_bool_decide; cbn; rewrite andb_true_iff; auto.
Qed.

Lemma forallb_mapInsert {A} (p : string * A -> bool) k v l : p (k, v) = true -> forallb p l = true -> forallb p (mapInsert k v l) = true.
Proof.
  intros Hp. induction l as [|[k1 v1] l IH]; cbn; [by rewrite Hp|]. rewrite andb_true_iff. intros [H1 H2].
  destruct (keyLt k k1); cbn; [by rewrite Hp, H1, H2|]. case_bool_decide; cbn; [by rewrite Hp, H2|]. by rewrite H1, IH.
Qed.

Lemma forallb_alter {A} (p : A -> bool) f i l : (forall x, p x = true -> p (f x) = true) -> forallb p l = true -> forallb p (alter f i l) = true.
Proof.
  intros Hf. revert i. induction l as [|x l IH]; intros [|i]; cbn; try done; rewrite !andb_true_iff; intros [H1 H2]; auto.
Qed.

(** Writing through a reference keeps a value well formed. *)
Lemma updateAt_wf p f j : (forall x, wfJson x = true -> wfJson (f x) = true) -> wfJson j = true -> wfJson (updateAt p f j) = true.
Proof.
  intros Hf. revert j. induction p as [|[i|k] p IH]; intros j Hj; [by apply Hf| |]; destruct j as [| | | | | |l|l]; try done;
  cbn [updateAt wfJson] in *.
  - by apply forallb_alter.
  - apply andb_true_iff in Hj as [H1 H2]. rewrite assocAlter_sorted, H1. cbn [andb].
    apply forallb_assocAlter; [|done]. intros k' v. cbn. rewrite !andb_true_iff. intros [? ?]. auto.
Qed.

Lemma sax_value_wf v d : wfJson v = true -> wfJson (root d) = true -> wfJson (root (handle_value v d).1) = true.
Proof.
  intros Hv Hd. unfold handle_value. destruct (ref_stack d) as [|p ps]; [done|].
  destruct (readAt p (root d)); cbn [fst root]; apply updateAt_wf; try done.
  intros [| | | | | |l'|]; try done. cbn [wfJson]. rewrite forallb_app. cbn. by intros ->; rewrite Hv.
Qed.

Lemma sax_key_wf k d : utf8 (bytesOf k) -> wfJson (root d) = true -> wfJson (root (sax_key k d)) = true.
Proof.
  intros Hk Hd. unfold sax_key. destruct (ref_stack d) as [|p ps]; [done|]. cbn [root]. apply updateAt_wf; [|done].
  intros [| | | | | | |l]; try done. cbn [wfJson]. rewrite !andb_true_iff. intros [H1 H2]. unfold mapTouch.
  destruct (assoc k l); [done|]. split; [by apply mapInsert_sorted|]. apply forallb_mapInsert; [|done]. cbn. by rewrite bool_decide_true.
Qed.

(** The value under construction is well formed, and so is what the last token carries. *)
Definition parserInv (s : Parser) : Prop :=
  parserOk s /\ wfJson (root (dom s)) = true /\ tokenValue (m_lexer s) (last_token s).

Lemma get_token_inv s : parserOk s -> wfJson (root (dom s)) = true -> parserInv (get_token s).
Proof. intros Hs Hd. destruct (get_token_total s Hs) as (G1 & _ & G3 & G4 & _). split; [done|]. split; [by rewrite G4|done]. Qed.

Definition keepsInv (r : Flow) : Prop :=
  match r with Continue s | Evaluate s | Return s => parserInv s | Failed _ => True end.

Lemma utf8_stringOf l : utf8 l -> utf8 (bytesOf (stringOf l)).
Proof. intros H. rewrite bytesOf_stringOf; [done|by apply utf8_bytes]. Qed.

Lemma parseKey_inv s push : parserInv s -> (forall s, m_lexer (push s) = m_lexer s /\ dom (push s) = dom s) ->
  keepsInv (parseKey s push).
Proof.
  intros (Hs & Hd & Ht) Hp. unfold parseKey. case_bool_decide as C1; [done|].
  assert (last_token s = value_string) as E1 by (destruct (decide (last_token s = value_string)); tauto).
  rewrite E1 in Ht. cbn [tokenValue] in Ht.
  set (s1 := withDom _ s). assert (parserInv (get_token s1)) as (G1 & G2 & G3).
  { apply get_token_inv; [exact Hs|]. apply sax_key_wf; [by apply utf8_stringOf|done]. }
  case_bool_decide; [done|]. destruct (Hp (get_token s1)) as [P1 P2].
  apply get_token_inv; [unfold parserOk; by rewrite P1|by rewrite P2].
Qed.

Lemma evaluateState_inv s : parserInv s -> keepsInv (evaluateState s).
Proof.
  intros Hi. unfold evaluateState. pose proof (get_token_inv s (proj1 Hi) (proj1 (proj2 Hi))) as (G1 & G2 & G3).
  destruct (states s) as [|[] outer]; [done| |].
  - case_bool_decide; [by apply get_token_inv|]. case_bool_decide; [|done]. by split; [|split].
  - case_bool_decide; [apply parseKey_inv; [by apply get_token_inv|done]|]. case_bool_decide; [|done]. by split; [|split].
Qed.

Lemma parseValue_inv s : parserInv s -> keepsInv (parseValue s).
Proof.
  intros (Hs & Hd & Ht). unfold parseValue.
  assert (forall v, wfJson v = true -> parserInv (withDom (sax_value v (dom s)) s)) as HV.
  { intros v Hv. split; [exact Hs|]. split; [by apply sax_value_wf|exact Ht]. }
  assert (forall v, wfJson v = true -> wfJson (root (push_ref (handle_value v (dom s)))) = true) as HP.
  { intros v Hv. by apply sax_value_wf. }
  destruct (last_token s) eqn:E; try done; try (apply HV; done); cbn [tokenValue numberValue] in Ht.
  - apply HV. cbn [wfJson]. rewrite bool_decide_true; [done|]. by apply utf8_stringOf.
  - apply HV. cbn [wfJson]. by rewrite bool_decide_true.
  - apply HV. cbn [wfJson]. rewrite bool_decide_true; [done|lia].
  - destruct (lex_float (m_lexer s)) as [[m e]|]; [|done]. apply HV. by apply (Ht m e).
  - set (s1 := withDom _ s). assert (parserInv (get_token s1)) as (G1 & G2 & G3) by (apply get_token_inv; [exact Hs|by apply HP]).
    case_bool_decide; by split; [|split].
  - set (s1 := withDom _ s). assert (parserInv (get_token s1)) as (G1 & G2 & G3) by (apply get_token_inv; [exact Hs|by apply HP]).
    case_bool_decide; [by split; [|split]|]. by apply parseKey_inv.
  - by case_bool_decide.
Qed.

Lemma sax_parse_internal_inv fuel s s' : parserInv s -> sax_parse_internal fuel s = Some (inr s') -> parserInv s'.
Proof.
  revert s. induction fuel as [|fuel IH]; intros s Hs E; [done|]. cbn [sax_parse_internal] in E.
  assert (keepsInv (parseStep s)) as HK.
  { unfold parseStep. destruct (skip_to_state_evaluation s); [by apply evaluateState_inv|].
    pose proof (parseValue_inv s Hs) as HV. destruct (parseValue s); try done. by apply evaluateState_inv. }
  destruct (parseStep s) as [s1|s1|s1|f]; [by apply (IH s1)|by apply (IH s1)|by simplify_eq|done].
Qed.

(** What [json::parse] returns is a well-formed value. *)
Lemma json_parse_wf t j : json_parse t = Ret j -> wfJson j = true.
Proof.
  unfold json_parse, parseText. pose proof (bytesOf_bytes t) as Hb.
  destruct (sax_parse_internal _ _) as [[f|s]|] eqn:E; [by destruct f| |done].
  apply sax_parse_internal_inv in E.
  - destruct E as (E1 & E2 & _). destruct (get_token_total s E1) as (_ & _ & _ & G4 & _).
    case_bool_decide; [|done]. intros. simplify_eq. by rewrite G4.
  - unfold startParser. apply get_token_inv; [split; [by apply startLexer_wf|done]|done].
Qed.
