(* ===== verification/JsonRoundTrip.v ===== *)
(** [parse] reads back what [dump] prints.

    The value under construction is described by the open containers around the place being
    filled; the references of the DOM builder are the paths to them. *)

From S2P Require Import Prelude Bytes CStrings Json JsonUtf8 JsonDtoa JsonDtoaProps JsonDtoaRound JsonDump JsonDumpProps JsonLexer JsonLexerProps JsonLexerTotal JsonParser JsonParserProps.
From Stdlib Require Import Ascii.

(** * The place being filled *)

(** An open container around it: an array with its elements so far, or an object with the key
    whose value is being built. *)
Inductive Frame := InArray (l : list json) | InObject (l : list (string * json)) (k : string).

Definition wrap (f : Frame) (v : json) : json :=
  match f with
  | InArray l => JArray (l ++ [v])
  | InObject l k => JObject (assocAlter k (fun _ => v) l)
  end.

(** The whole value with [v] in the place; the innermost frame comes first. *)
Fixpoint plug (fs : list Frame) (v : json) : json := match fs with [] => v | f :: fs => plug fs (wrap f v) end.

Definition frameStep (f : Frame) : PathStep := match f with InArray l => AtIndex (length l) | InObject _ k => AtKey k end.

Fixpoint path (fs : list Frame) : list PathStep := match fs with [] => [] | f :: fs => path fs ++ [frameStep f] end.

(** The references to the open containers, the innermost first; [fs] are the frames of the innermost. *)
Fixpoint refs (fs : list Frame) : list (list PathStep) := path fs :: match fs with [] => [] | _ :: fs => refs fs end.

(** The key of an open object is there. *)
Definition wfFrame (f : Frame) : Prop := match f with InArray _ => True | InObject l k => is_Some (assoc k l) end.

Lemma assocAlter_ext {A} k (f g : A -> A) l : (forall x, f x = g x) -> assocAlter k f l = assocAlter k g l.
Proof. intros H. induction l as [|[k' v] l IH]; [done|]. cbn. rewrite IH, H. done. Qed.

Lemma updateAt_ext p f g j : (forall x, f x = g x) -> updateAt p f j = updateAt p g j.
Proof.
  intros H. revert j. induction p as [|[i|k] p IH]; intros j; [apply H| |]; destruct j as [| | | | | |l|l]; try done; cbn; f_equal.
  - apply list_alter_ext; [|done]. intros x _. apply IH.
  - by apply assocAlter_ext.
Qed.

Lemma updateAt_app p q f j : updateAt (p ++ q) f j = updateAt p (updateAt q f) j.
Proof.
  revert j. induction p as [|[i|k] p IH]; intros j; [done| |]; destruct j as [| | | | | |l|l]; try done; cbn; f_equal.
  - apply list_alter_ext; [|done]. intros x _. apply IH.
  - by apply assocAlter_ext.
Qed.

Lemma assoc_alter {A} k (f : A -> A) l : assoc k (assocAlter k f l) = f <$> assoc k l.
Proof. induction l as [|[k' v] l IH]; [done|]. cbn. case_bool_decide; cbn; [by rewrite bool_decide_true|]. by rewrite bool_decide_false. Qed.

Lemma assocAlter_twice {A} k (f g : A -> A) l : assocAlter k f (assocAlter k g l) = assocAlter k (fun x => f (g x)) l.
Proof.
  induction l as [|[k' v] l IH]; [done|]. cbn. case_bool_decide; cbn; [by rewrite bool_decide_true|]. rewrite bool_decide_false by done. by rewrite IH.
Qed.

Lemma alter_snoc {A} (f : A -> A) l x : alter f (length l) (l ++ [x]) = l ++ [f x].
Proof. induction l as [|y l IH]; [done|]. cbn. by rewrite IH. Qed.

Lemma updateAt_plug fs f v : updateAt (path fs) f (plug fs v) = plug fs (f v).
Proof.
  revert f v. induction fs as [|fr fs IH]; intros f v; [done|]. cbn [plug path]. rewrite updateAt_app, IH. f_equal.
  destruct fr as [l|l k]; cbn; [by rewrite alter_snoc|]. by rewrite assocAlter_twice.
Qed.

Lemma readAt_app p q j : readAt (p ++ q) j = readAt q (readAt p j) \/ readAt p j = JNull.
Proof.
  revert j. induction p as [|[i|k] p IH]; intros j; [by left| |]; destruct j as [| | | | | |l|l]; try (by right); cbn.
  - destruct (l !! i) as [x|]; [apply IH|by right].
  - destruct (assoc k l) as [x|]; [apply IH|by right].
Qed.

Lemma readAt_plug fs v : Forall wfFrame fs -> v <> JNull -> readAt (path fs) (plug fs v) = v.
Proof.
  intros Hfs. revert v. induction Hfs as [|fr fs Hf _ IH]; intros v Hv; [done|]. cbn [plug path].
  assert (wrap fr v <> JNull) as Hw by (by destruct fr).
  destruct (readAt_app (path fs) [frameStep fr] (plug fs (wrap fr v))) as [-> | E]; [|by rewrite IH in E].
  rewrite IH by done. destruct fr as [l|l k]; cbn; [by rewrite list_lookup_middle|].
  rewrite assoc_alter. destruct Hf as [x ->]. done.
Qed.

(** * What the builder expects, and has, at a value *)

(** The place of the next value: the whole text, the end of an array, or the key of an object. *)
Inductive Place := AtTop | InArr (fs : list Frame) (l : list json) | InObj (fs : list Frame) (l : list (string * json)) (k : string).

Definition frames (K : Place) : list Frame :=
  match K with AtTop => [] | InArr fs l => InArray l :: fs | InObj fs l k => InObject l k :: fs end.

(** A container under construction. *)
Definition building (d : Dom) (fs : list Frame) (c : json) : Prop := root d = plug fs c /\ ref_stack d = refs fs /\ Forall wfFrame fs.

Definition expects (d : Dom) (K : Place) : Prop :=
  match K with
  | AtTop => ref_stack d = []
  | InArr fs l => building d fs (JArray l)
  | InObj fs l k => building d fs (JObject l) /\ object_element d = path fs ++ [AtKey k] /\ is_Some (assoc k l)
  end.

Definition filled (d : Dom) (K : Place) (v : json) : Prop :=
  match K with
  | AtTop => root d = v /\ ref_stack d = []
  | InArr fs l => building d fs (JArray (l ++ [v]))
  | InObj fs l k => building d fs (JObject (assocAlter k (fun _ => v) l))
  end.

Lemma refs_head fs : exists ps, refs fs = path fs :: ps.
Proof. destruct fs; by eexists. Qed.

(** A value is stored in the place, and the reference returned leads to it. *)
Lemma handle_value_spec v d K : expects d K ->
  filled (handle_value v d).1 K v /\ (handle_value v d).2 = path (frames K) /\ Forall wfFrame (frames K) /\
  root (handle_value v d).1 = plug (frames K) v /\ ref_stack (handle_value v d).1 = ref_stack d.
Proof.
  destruct K as [|fs l|fs l k]; cbn [expects].
  - intros E. unfold handle_value. rewrite E. by repeat split.
  - intros (E1 & E2 & Hw). unfold handle_value. destruct (refs_head fs) as [ps Eps]. rewrite E2, Eps, E1, readAt_plug by done.
    rewrite updateAt_plug. cbn. rewrite <- Eps, <- E2. repeat split; try done. by constructor.
  - intros ((E1 & E2 & Hw) & E3 & Hk). unfold handle_value. destruct (refs_head fs) as [ps Eps]. rewrite E2, Eps, E1, readAt_plug by done.
    rewrite E3, updateAt_app, updateAt_plug. cbn. rewrite <- Eps, <- E2. repeat split; try done. by constructor.
Qed.

Lemma sax_value_filled v d K : expects d K -> filled (sax_value v d) K v.
Proof. apply handle_value_spec. Qed.

Lemma push_building v d K : expects d K -> building (push_ref (handle_value v d)) (frames K) v.
Proof.
  intros H. destruct (handle_value_spec v d K H) as (_ & E2 & E3 & E4 & E5). split; [exact E4|]. split; [|done].
  cbn [ref_stack push_ref]. rewrite E2, E5. destruct K as [|fs l|fs l k]; cbn [expects] in H.
  - by rewrite H.
  - destruct H as (_ & -> & _). done.
  - destruct H as ((_ & -> & _) & _). done.
Qed.

(** Closing a container fills the place it was opened in. *)
Lemma pop_filled c d K : building d (frames K) c -> filled (pop_ref d) K c.
Proof.
  intros (E1 & E2 & E3). destruct K as [|fs l|fs l k]; cbn [frames filled] in *.
  - cbn. by rewrite E1, E2.
  - apply Forall_cons in E3 as [_ E3]. split; [exact E1|]. split; [cbn; by rewrite E2|done].
  - apply Forall_cons in E3 as [_ E3]. split; [exact E1|]. split; [cbn; by rewrite E2|done].
Qed.

(** A new key, in an object whose keys are all smaller. *)
Lemma sax_key_expects k d fs l : building d fs (JObject l) -> expects (sax_key k d) (InObj fs (mapTouch k l) k).
Proof.
  intros (E1 & E2 & E3). unfold sax_key. destruct (refs_head fs) as [ps Eps]. rewrite E2, Eps. cbn [expects object_element].
  split; [split; [|split]|split]; cbn [root ref_stack].
  - by rewrite E1, updateAt_plug.
  - done.
  - done.
  - done.
  - unfold mapTouch. destruct (assoc k l) eqn:E; [by rewrite E|]. clear. induction l as [|[k' v] l IH]; cbn; [by rewrite bool_decide_true|].
    destruct (keyLt k k'); cbn; [by rewrite bool_decide_true|]. case_bool_decide; cbn; [by rewrite bool_decide_true|].
    rewrite bool_decide_false by done. exact IH.
Qed.

(** * Reading tokens *)

Definition setToken (lx : Lexer) (t : token_type) (s : Parser) : Parser :=
  {| m_lexer := lx; last_token := t; dom := dom s; states := states s; skip_to_state_evaluation := skip_to_state_evaluation s |}.

Lemma get_token_scan s lx t : scan (m_lexer s) = (lx, t) -> get_token s = setToken lx t s.
Proof. intros E. unfold get_token. by rewrite E. Qed.

Lemma get_token_states l k s : withStates l k (get_token s) = get_token (withStates l k s).
Proof. unfold get_token. cbn [m_lexer withStates]. by destruct (scan (m_lexer s)). Qed.

Lemma get_token_keeps s : dom (get_token s) = dom s /\ states (get_token s) = states s /\
  skip_to_state_evaluation (get_token s) = skip_to_state_evaluation s.
Proof. unfold get_token. by destruct (scan (m_lexer s)). Qed.

(** The lexer before a token. *)
Record ready (lx : Lexer) (l : list Z) : Prop := {
  rd_input : input lx = l;
  rd_wf : wfLexer lx;
  rd_ignore : ignore_comments lx = false;
  rd_bom : pos lx = 0 -> noBom l
}.

Lemma scanned_ready lx l : scanned lx l -> ready lx l.
Proof. intros []. split; try done. lia. Qed.

Definition blanks (ws : list Z) : Prop := Forall (fun c => isBlank c = true) ws.

Lemma dropBlank_blanks ws l : blanks ws -> dropBlank (ws ++ l) = dropBlank l.
Proof. induction 1 as [|c ws Hc _ IH]; [done|]. cbn. by rewrite Hc. Qed.

(** A printable character other than the blank. *)
Definition inked (c : Z) : Prop := 33 <= c <= 126.

Lemma inked_not_blank c : inked c -> isBlank c = false.
Proof. unfold inked, isBlank. intros H. by rewrite !bool_decide_false by lia. Qed.

Lemma scan_first lx ws c r : ready lx (ws ++ c :: r) -> blanks ws -> inked c ->
  exists lx', scan lx = scanToken lx' /\ standing lx' c r.
Proof.
  intros [E Hw Hi Hb] Hws Hc. destruct (scan_standing lx Hw Hi) as (lx' & E' & H); [by rewrite E|].
  exists lx'. split; [done|]. rewrite E, dropBlank_blanks in H by done. cbn [dropBlank] in H. by rewrite inked_not_blank in H.
Qed.

Lemma get_punctuation s ws c r t : ready (m_lexer s) (ws ++ c :: r) -> blanks ws -> inked c -> punctuation c = Some t ->
  exists lx, get_token s = setToken lx t s /\ scanned lx r.
Proof.
  intros Hr Hws Hc Ht. destruct (scan_first _ _ _ _ Hr Hws Hc) as (lx & E & Hst). exists lx.
  split; [apply get_token_scan; by rewrite E, (scanToken_punctuation _ _ _ _ Hst Ht)|by eapply standing_scanned].
Qed.

Lemma standing_input lx c r : standing lx c r -> input lx = r.
Proof. intros H. unfold input. by rewrite (st_unget _ _ _ H), (st_ia _ _ _ H). Qed.

Lemma scan_literal_standing text t lx c r : standing lx c (text ++ r) -> exists lx', scan_literal text t lx = (lx', t) /\ scanned lx' r.
Proof.
  intros H. pose proof (standing_input _ _ _ H) as E. destruct H as [_ _ _ Hp Hi Hw].
  destruct (scan_literal_spec text t lx r Hw E) as (lx' & E' & H1 & H2 & H3 & H4). exists lx'.
  split; [done|]. split; [done|done|lia|by rewrite H4].
Qed.

(** A quoted UTF-8 text. *)
Lemma get_token_text s ws k t r : utf8 (bytesOf k) -> dump_escaped eh_strict false (bytesOf k) = Ret t ->
  ready (m_lexer s) (ws ++ 34 :: t ++ 34 :: r) -> blanks ws ->
  exists lx, get_token s = setToken lx value_string s /\ token_buffer lx = bytesOf k /\ scanned lx r.
Proof.
  intros Hu Ht Hr Hws. apply utf8_chars in Hu as (cs & Hcs & E). rewrite E, dump_escaped_chars in Ht by done.
  injection Ht as <-. destruct (scan_first _ _ _ _ Hr Hws) as (lx & E1 & Hst); [unfold inked; lia|].
  destruct (scan_string_printed cs lx r Hcs Hst) as (lx' & E2 & E3 & E4).
  exists lx'. rewrite E. split; [|done]. apply get_token_scan. rewrite E1. unfold scanToken. rewrite (st_current _ _ _ Hst). exact E2.
Qed.

Lemma scanToken_number lx c r : standing lx c r -> c = 45 \/ 48 <= c <= 57 -> scanToken lx = scan_number lx.
Proof.
  intros H Hc. unfold scanToken. rewrite (st_current _ _ _ H). do 10 (rewrite bool_decide_false by lia).
  assert (bool_decide (c = 45) || isDigit c = true) as ->; [|done].
  destruct Hc as [-> | Hc]; [done|]. by rewrite (proj2 (isDigit_spec c) Hc), orb_true_r.
Qed.

(** * What is read for a printed value *)

(** Numbers come back unsigned unless negative, floats in canonical form. *)
Fixpoint numCanon (j : json) : json :=
  match j with
  | JInteger z => if bool_decide (z < 0) then JInteger z else JUnsigned z
  | JFloat m e => JFloat (canonFloat m e).1 (canonFloat m e).2
  | JArray l => JArray (map numCanon l)
  | JObject l => JObject (map (fun kv => (kv.1, numCanon kv.2)) l)
  | j => j
  end.

Lemma decimal_head ds : ds = [48] \/ decimalDigits ds -> exists d l, ds = d :: l /\ 48 <= d <= 57.
Proof.
  intros [-> | (Ha & d & l & -> & Hd)]; [eexists _, _; split; [done|lia]|]. apply Forall_cons in Ha as [? _]. by exists d, l.
Qed.

(** An integer token. *)
Lemma scan_integer z c l lx r : - 2 ^ 63 <= z < 2 ^ 64 -> dump_integer number_buffer z = c :: l -> delimited r -> standing lx c (l ++ r) ->
  exists lx', scan_number lx = (lx', if bool_decide (z < 0) then value_integer else value_unsigned) /\ scanned lx' r /\
    (if bool_decide (z < 0) then lex_integer lx' else lex_unsigned lx') = z /\ (c = 45 \/ 48 <= c <= 57).
Proof.
  intros Hz Et Hd Hst. destruct (dump_integer_decimal number_buffer z) as (ds & E & Hds & Hv); [done|done|].
  unfold integerText in E. rewrite E in Et. case_bool_decide as Hneg; cbn [app] in Et.
  - injection Et as <- <-. destruct (scan_number_integer ds lx r Hds ltac:(lia) Hd Hst) as (lx' & E1 & E2 & E3).
    exists lx'. do 2 (split; [done|]). split; [rewrite E2; lia|by left].
  - destruct (decimal_head ds Hds) as (d & l' & Eds & Hdd). 
    destruct (scan_number_unsigned ds c l lx r Et Hds ltac:(lia) Hd Hst) as (lx' & E1 & E2 & E3).
    exists lx'. do 2 (split; [done|]). split; [rewrite E2; lia|right]. rewrite Eds in Et. by injection Et as <- _.
Qed.

(** A float token. *)
Lemma scan_float m e c l lx r : isDouble m e = true -> to_chars m e = c :: l -> delimited r -> standing lx c (l ++ r) ->
  exists lx', scan_number lx = (lx', value_float) /\ scanned lx' r /\ lex_float lx' = Some (canonFloat m e) /\ (c = 45 \/ 48 <= c <= 57).
Proof.
  intros HD Et Hd Hst. destruct (to_chars_text m e HD) as (i & fd & ex & E & Hp & Hs). rewrite E in Et.
  destruct (scan_number_float _ i fd ex c l lx r Hp Et Hd Hst) as (lx' & E1 & E2 & E3). exists lx'. do 2 (split; [done|]).
  split; [by rewrite E2, <- Et, <- E|]. unfold numText in Et. destruct (bool_decide (m < 0)); [left; by injection Et|right].
  destruct Hp as [Hi _ _ _]. destruct (decimal_head i Hi) as (d & l' & -> & ?). by injection Et as <- _.
Qed.

Lemma dump_integer_head z : - 2 ^ 63 <= z < 2 ^ 64 -> exists c l, dump_integer number_buffer z = c :: l /\ inked c.
Proof.
  intros Hz. destruct (dump_integer_decimal number_buffer z) as (ds & -> & Hds & _); [done|done|]. unfold integerText, inked.
  case_bool_decide; [eexists _, _; split; [done|lia]|]. destruct (decimal_head ds Hds) as (d & l & -> & ?).
  eexists _, _. split; [done|lia].
Qed.

(** The text of a value starts with a printable character. *)
Lemma dump_head pp st cur j t : Serializer.dump eh_strict false pp st cur j = Ret t -> wfJson j = true -> exists c l, t = c :: l /\ inked c.
Proof.
  assert (forall c l, inked c -> exists c' l', c :: l = c' :: l' /\ inked c') as HC by eauto.
  unfold inked in *. destruct j as [|b|n|z|m e|s|l|l]; cbn [Serializer.dump wfJson]; intros Ht Hj.
  - injection Ht as <-. apply HC. lia.
  - destruct b; injection Ht as <-; apply HC; lia.
  - injection Ht as <-. apply bool_decide_eq_true in Hj. apply dump_integer_head. lia.
  - injection Ht as <-. apply bool_decide_eq_true in Hj. apply dump_integer_head. lia.
  - injection Ht as <-. destruct (to_chars_text m e Hj) as (i & fd & ex & -> & [Hi _ _ _] & _). unfold numText.
    destruct (bool_decide (m < 0)); [apply HC; lia|]. destruct (decimal_head i Hi) as (d & l & -> & ?). apply HC. lia.
  - destruct (dump_escaped _ _ _); [|done]. injection Ht as <-. apply HC. lia.
  - destruct l; [injection Ht as <-; apply HC; lia|]. destruct (traverse _ _); [|done]. injection Ht as <-. apply HC. lia.
  - destruct l; [injection Ht as <-; apply HC; lia|]. destruct (traverse _ _); [|done]. injection Ht as <-. apply HC. lia.
Qed.

(** * The loop *)

(** The loop from the evaluation of the state on. *)
Definition evalLoop (fuel : nat) (s : Parser) : option (ParseFailure + Parser) :=
  match evaluateState s with
  | Continue s => sax_parse_internal fuel s
  | Evaluate s => sax_parse_internal fuel s
  | Return s => Some (inr s)
  | Failed f => Some (inl f)
  end.

Lemma loop_evaluate fuel s s' : skip_to_state_evaluation s = false -> parseValue s = Evaluate s' ->
  sax_parse_internal (S fuel) s = evalLoop fuel s'.
Proof. intros E1 E2. cbn [sax_parse_internal]. unfold parseStep. by rewrite E1, E2. Qed.

Lemma loop_continue fuel s s' : skip_to_state_evaluation s = false -> parseValue s = Continue s' ->
  sax_parse_internal (S fuel) s = sax_parse_internal fuel s'.
Proof. intros E1 E2. cbn [sax_parse_internal]. unfold parseStep. by rewrite E1, E2. Qed.

(** After [n] iterations from [get_token s] the place [K] holds [v] and [r] is left to be read. *)
Record reaches (s : Parser) (n : nat) (s' : Parser) (K : Place) (v : json) (r : list Z) : Prop := {
  re_loop : forall fuel, sax_parse_internal (n + S fuel) (get_token s) = evalLoop fuel s';
  re_rest : scanned (m_lexer s') r;
  re_states : states s' = states s;
  re_skip : skip_to_state_evaluation s' = false;
  re_dom : filled (dom s') K v
}.

Definition reads (j : json) : Prop := forall pp st cur t ws r s K,
  Serializer.dump eh_strict false pp st cur j = Ret t -> wfJson j = true -> blanks ws -> delimited r ->
  ready (m_lexer s) (ws ++ t ++ r) -> skip_to_state_evaluation s = false -> expects (dom s) K ->
  last_token (get_token s) <> end_array /\ exists n s', reaches s n s' K (numCanon j) r.

(** A value that is one token. *)
Lemma reads_token s K v lx t r : skip_to_state_evaluation s = false -> expects (dom s) K ->
  get_token s = setToken lx t s -> scanned lx r -> t <> end_array ->
  parseValue (setToken lx t s) = Evaluate (withDom (sax_value v (dom s)) (setToken lx t s)) ->
  last_token (get_token s) <> end_array /\ exists n s', reaches s n s' K v r.
Proof.
  intros Hk He E Hr Ht HP. rewrite E. split; [done|]. exists 0%nat. eexists. split; [|..].
  - intros fuel. rewrite E. apply loop_evaluate; [done|exact HP].
  - done.
  - done.
  - done.
  - by apply sax_value_filled.
Qed.

Lemma reads_literal text t c r ws s : ready (m_lexer s) (ws ++ (c :: text) ++ r) -> blanks ws -> inked c ->
  (forall lx, current lx = c -> scanToken lx = scan_literal text t lx) ->
  exists lx, get_token s = setToken lx t s /\ scanned lx r.
Proof.
  intros Hr Hws Hc HT. destruct (scan_first _ _ _ _ Hr Hws Hc) as (lx & E & Hst).
  destruct (scan_literal_standing text t lx c r Hst) as (lx' & E' & Hs). exists lx'. split; [|done].
  apply get_token_scan. by rewrite E, HT by apply Hst.
Qed.

Lemma reads_null : reads JNull.
Proof.
  intros pp st cur t ws r s K Ht _ Hws Hd Hr Hk He. injection Ht as <-.
  destruct (reads_literal [117; 108; 108] literal_null 110 r ws s Hr Hws ltac:(unfold inked; lia)) as (lx & E & Hs).
  { intros lx Hc. unfold scanToken. by rewrite Hc. }
  by eapply reads_token.
Qed.

Lemma reads_bool b : reads (JBool b).
Proof.
  intros pp st cur t ws r s K Ht _ Hws Hd Hr Hk He. destruct b; injection Ht as <-.
  - destruct (reads_literal [114; 117; 101] literal_true 116 r ws s Hr Hws ltac:(unfold inked; lia)) as (lx & E & Hs).
    { intros lx Hc. unfold scanToken. by rewrite Hc. }
    by eapply reads_token.
  - destruct (reads_literal [97; 108; 115; 101] literal_false 102 r ws s Hr Hws ltac:(unfold inked; lia)) as (lx & E & Hs).
    { intros lx Hc. unfold scanToken. by rewrite Hc. }
    by eapply reads_token.
Qed.

Lemma reads_integer z v s K ws r : - 2 ^ 63 <= z < 2 ^ 64 -> v = (if bool_decide (z < 0) then JInteger z else JUnsigned z) ->
  blanks ws -> delimited r -> ready (m_lexer s) (ws ++ dump_integer number_buffer z ++ r) -> skip_to_state_evaluation s = false -> expects (dom s) K ->
  last_token (get_token s) <> end_array /\ exists n s', reaches s n s' K v r.
Proof.
  intros Hz Hv Hws Hd Hr Hk He. destruct (dump_integer_head z Hz) as (c & l & Et & Hc). rewrite Et in Hr.
  destruct (scan_first _ _ _ _ Hr Hws Hc) as (lx & E & Hst).
  destruct (scan_integer z c l lx r Hz Et Hd Hst) as (lx' & E1 & E2 & E3 & E4).
  eapply (reads_token s K v lx'); [done|done| |done| |].
  - apply get_token_scan. rewrite E, (scanToken_number lx c _ Hst E4). exact E1.
  - by case_bool_decide.
  - unfold parseValue. cbn [last_token m_lexer setToken]. subst v. case_bool_decide; by rewrite E3.
Qed.

Lemma reads_float m e : reads (JFloat m e).
Proof.
  intros pp st cur t ws r s K Ht Hj Hws Hd Hr Hk He. injection Ht as <-.
  destruct (dump_head false 0 0 (JFloat m e) (to_chars m e) eq_refl Hj) as (c & l & Et & Hc). rewrite Et in Hr.
  destruct (scan_first _ _ _ _ Hr Hws Hc) as (lx & E & Hst).
  destruct (scan_float m e c l lx r Hj Et Hd Hst) as (lx' & E1 & E2 & E3 & E4).
  eapply (reads_token s K _ lx' value_float); [done|done| |done|done|].
  - apply get_token_scan. rewrite E, (scanToken_number lx c _ Hst E4). exact E1.
  - unfold parseValue. cbn [last_token m_lexer setToken]. rewrite E3. cbn [numCanon]. by destruct (canonFloat m e).
Qed.

Lemma reads_string k : reads (JString k).
Proof.
  intros pp st cur t ws r s K Ht Hj Hws Hd Hr Hk He. cbn [Serializer.dump] in Ht. cbn [wfJson] in Hj. apply bool_decide_eq_true in Hj.
  destruct (dump_escaped eh_strict false (bytesOf k)) as [t'|] eqn:E; [|done]. injection Ht as <-.
  destruct (get_token_text s ws k t' r Hj E) as (lx & E1 & E2 & E3); [|done|].
  { cbn [app] in Hr. by rewrite <- app_assoc in Hr. }
  eapply (reads_token s K _ lx value_string); [done|done|done|done|done|].
  unfold parseValue. cbn [last_token m_lexer setToken]. by rewrite E2, stringOf_bytesOf.
Qed.

(** * Containers *)

Lemma traverse_Forall2 {A B} (f : A -> outcome B) l ts : traverse f l = Ret ts -> Forall2 (fun x t => f x = Ret t) l ts.
Proof.
  revert ts. induction l as [|x l IH]; intros ts; cbn; [by intros [= <-]|].
  destruct (f x) as [y|] eqn:E; [|done]. cbn. fold (traverse f l) in *. destruct (traverse f l) as [ys|]; [|done]. intros [= <-].
  constructor; auto.
Qed.

(** The texts after the first, each behind a comma, and the closing bracket. *)
Definition restText (ws finish : list Z) (close : Z) (ts : list (list Z)) (r : list Z) : list Z :=
  mjoin ((fun x => 44 :: ws ++ x) <$> ts) ++ finish ++ close :: r.

Lemma separated_rest ws finish close t ts r :
  separated (44 :: ws) (t :: ts) ++ finish ++ close :: r = t ++ restText ws finish close ts r.
Proof.
  unfold restText. revert t. induction ts as [|t' ts IH]; intros t; [done|].
  change (separated (44 :: ws) (t :: t' :: ts)) with (t ++ (44 :: ws) ++ separated (44 :: ws) (t' :: ts)).
  rewrite <- !app_assoc, IH. cbn. by rewrite <- !app_assoc.
Qed.

Lemma delimited_cons c r : c = 44 \/ c = 10 \/ c = 93 \/ c = 125 -> delimited (c :: r).
Proof. intros H. unfold delimited, ahead. by destruct_or! H; subst c. Qed.

Lemma restText_delimited ws finish close ts r : (finish = [] \/ exists l, finish = 10 :: l) -> close = 93 \/ close = 125 ->
  delimited (restText ws finish close ts r).
Proof.
  intros Hf Hc. destruct ts as [|t ts]; [|by apply delimited_cons; left].
  destruct Hf as [-> | [l ->]]; apply delimited_cons; tauto.
Qed.

(** From after an element of a container to after its closing bracket. *)
Record closes (s : Parser) (n : nat) (s' : Parser) (outer : list bool) (K : Place) (v : json) (r : list Z) : Prop := {
  cl_loop : forall fuel, evalLoop (n + S fuel) s = evalLoop fuel s';
  cl_rest : scanned (m_lexer s') r;
  cl_states : states s' = outer;
  cl_skip : skip_to_state_evaluation s' = false;
  cl_dom : filled (dom s') K v
}.

(** The closing bracket: one iteration skips to the evaluation of the outer state. *)
Lemma closes_bracket s kind outer K v finish r : states s = kind :: outer -> building (dom s) (frames K) v ->
  scanned (m_lexer s) (finish ++ (if kind then 93 else 125) :: r) -> blanks finish ->
  exists n s', closes s n s' outer K v r.
Proof.
  intros Hst Hb Hr Hf. exists 0%nat.
  destruct (get_punctuation s finish (if kind then 93 else 125) r (if kind then end_array else end_object)) as (lx & E & Hs).
  { by apply scanned_ready. } { done. } { unfold inked. destruct kind; lia. } { by destruct kind. }
  exists (withStates outer false (withStates outer true (withDom (pop_ref (dom s)) (setToken lx (if kind then end_array else end_object) s)))).
  split; [|done|done|done|by apply pop_filled].
  intros fuel. unfold evalLoop at 1, evaluateState. rewrite Hst. destruct kind; by rewrite E.
Qed.

Lemma closes_step s s1 s2 n1 n2 s' outer K K' v v' r r' : reaches s1 n1 s2 K' v' r' -> closes s2 n2 s' outer K v r ->
  (forall fuel, evalLoop fuel s = sax_parse_internal fuel (get_token s1)) -> closes s (n1 + S n2) s' outer K v r.
Proof.
  intros [R1 _ _ _ _] [C1 C2 C3 C4 C5] E. split; try done. intros fuel.
  rewrite E. replace (n1 + S n2 + S fuel)%nat with (n1 + S (n2 + S fuel))%nat by lia. by rewrite R1.
Qed.

Section Elements.
Context (pp : bool) (st cur : nat) (lead ws finish : list Z).
Context (Hlead : blanks lead) (Hws : blanks ws) (Hfin : blanks finish) (Hfin' : finish = [] \/ exists l, finish = 10 :: l).

Lemma elements_close l ts : Forall reads l -> forallb wfJson l = true ->
  Forall2 (fun v t => (let! tv := Serializer.dump eh_strict false pp st cur v in Ret (lead ++ tv)) = Ret t) l ts ->
  forall s outer K vs r, scanned (m_lexer s) (restText ws finish 93 ts r) -> states s = true :: outer ->
    skip_to_state_evaluation s = false -> building (dom s) (frames K) (JArray vs) ->
    exists n s', closes s n s' outer K (JArray (vs ++ map numCanon l)) r.
Proof.
  intros Hl Hwf Hts. revert Hl Hwf. induction Hts as [|v t l ts Ht _ IH]; intros Hl Hwf s outer K vs r Hr Hst Hk Hb.
  - rewrite app_nil_r. by apply (closes_bracket s true outer K (JArray vs) finish r).
  - apply Forall_cons in Hl as [Hv Hl]. cbn [forallb] in Hwf. apply andb_true_iff in Hwf as [Wv Wl].
    destruct (Serializer.dump eh_strict false pp st cur v) as [tv|] eqn:E; [|done]. injection Ht as <-.
    destruct (get_punctuation s [] 44 (ws ++ (lead ++ tv) ++ restText ws finish 93 ts r) value_separator) as (lx & Eg & Hs).
    { apply scanned_ready. unfold restText in *. cbn in Hr. by rewrite <- !app_assoc in *. } { constructor. } { unfold inked; lia. } { done. }
    destruct (Hv pp st cur tv (ws ++ lead) (restText ws finish 93 ts r) (setToken lx value_separator s) (InArr (frames K) vs) E Wv) as (_ & n1 & s1 & R).
    { by apply Forall_app. } { apply restText_delimited; [done|by left]. } { apply scanned_ready. cbn. by rewrite <- !app_assoc in *. } { done. } { exact Hb. }
    destruct (IH Hl Wl s1 outer K (vs ++ [numCanon v]) r) as (n2 & s' & C).
    { apply R. } { rewrite (re_states _ _ _ _ _ _ R). exact Hst. } { apply R. } { apply R. }
    rewrite <- app_assoc in C. exists (n1 + S n2)%nat, s'. eapply closes_step; [exact R|exact C|].
    intros fuel. unfold evalLoop, evaluateState. rewrite Hst, Eg. done.
Qed.
End Elements.

Lemma spaces_blank n : blanks (spaces n).
Proof. unfold blanks, spaces. by apply Forall_replicate. Qed.

Lemma blanks_cons c l : isBlank c = true -> blanks l -> blanks (c :: l).
Proof. by constructor. Qed.

(** An opening bracket followed at once by the closing one. *)
Lemma reads_empty (arr : bool) s K ws r :
  let c := if arr then JArray [] else JObject [] in
  ready (m_lexer s) (ws ++ [if arr then 91 else 123; if arr then 93 else 125] ++ r) -> blanks ws ->
  skip_to_state_evaluation s = false -> expects (dom s) K ->
  last_token (get_token s) <> end_array /\ exists n s', reaches s n s' K c r.
Proof.
  intros c Hr Hws Hk He.
  destruct (get_punctuation s ws (if arr then 91 else 123) ((if arr then 93 else 125) :: r) (if arr then begin_array else begin_object))
    as (lx & E & Hs); [done|done|unfold inked; destruct arr; lia|by destruct arr|].
  set (s1 := withDom (push_ref (handle_value c (dom s))) (setToken lx (if arr then begin_array else begin_object) s)).
  destruct (get_punctuation s1 [] (if arr then 93 else 125) r (if arr then end_array else end_object)) as (lx2 & E2 & Hs2).
  { by apply scanned_ready. } { constructor. } { unfold inked; destruct arr; lia. } { by destruct arr. }
  rewrite E. split; [by destruct arr|]. exists 0%nat, (withDom (pop_ref (dom s1)) (setToken lx2 (if arr then end_array else end_object) s1)).
  split; [|done|done|done|by apply pop_filled, push_building].
  intros fuel. rewrite E. apply loop_evaluate; [done|]. unfold parseValue.
  destruct arr; cbn [last_token setToken]; [change (withDom (start_array _) _) with s1|change (withDom (start_object _) _) with s1]; by rewrite E2.
Qed.

(** The layout of a container: what stands before an element, after a comma and before the
    closing bracket are blanks. *)
Lemma layout_blank (pp : bool) n m :
  blanks (if pp then spaces n else []) /\ blanks (if pp then [10] else []) /\ blanks (if pp then [10] ++ spaces m else []) /\
  ((if pp then [10] ++ spaces m else []) = [] \/ exists l, (if pp then [10] ++ spaces m else []) = 10 :: l) /\
  (if pp then [44; 10] else [44]) = 44 :: (if pp then [10] else []).
Proof.
  destruct pp; repeat split; try (by constructor); try (by left); [apply spaces_blank|apply blanks_cons; [done|apply spaces_blank]|by right; eexists].
Qed.

Lemma reads_array l : Forall reads l -> reads (JArray l).
Proof.
  intros Hl pp st cur t ws r s K Ht Hj Hws Hd Hr Hk He. cbn [wfJson] in Hj.
  destruct l as [|v l]; [injection Ht as <-; by apply (reads_empty true s K ws r)|].
  cbn [Serializer.dump] in Ht. destruct (traverse _ (v :: l)) as [ts|] eqn:Ets; [|done]. apply traverse_Forall2 in Ets.
  injection Ht as <-. set (new := if pp then (cur + st)%nat else cur) in *.
  destruct (layout_blank pp new cur) as (L1 & L2 & L3 & L4 & L5).
  set (lead := if pp then spaces new else []) in *. set (sp := if pp then [10] else []) in *.
  set (finish := if pp then [10] ++ spaces cur else []) in *. rewrite L5 in Hr.
  inversion Ets as [|v0 t0 l0 ts0 Ht0 Hts]; subst. clear Ets.
  destruct (Serializer.dump eh_strict false pp st new v) as [tv|] eqn:Ev; [|done]. injection Ht0 as <-.
  apply Forall_cons in Hl as [Hv Hl]. cbn [forallb] in Hj. apply andb_true_iff in Hj as [Wv Wl].
  destruct (get_punctuation s ws 91 (sp ++ lead ++ tv ++ restText sp finish 93 ts0 r) begin_array) as (lx & E & Hs).
  { rewrite (app_assoc lead tv), <- separated_rest. cbn [app] in Hr. by rewrite <- !app_assoc in Hr. } { done. } { unfold inked; lia. } { done. }
  set (s1 := withStates (true :: states s) false (withDom (start_array (dom s)) (setToken lx begin_array s))).
  destruct (Hv pp st new tv (sp ++ lead) (restText sp finish 93 ts0 r) s1 (InArr (frames K) []) Ev Wv) as (H1 & n1 & s2 & R).
  { by apply Forall_app. } { apply restText_delimited; [done|by left]. } { apply scanned_ready. cbn. by rewrite <- !app_assoc in *. } { done. }
  { by apply push_building. }
  destruct (elements_close pp st new lead sp finish L1 L2 L3 L4 l ts0 Hl Wl Hts s2 (states s) K [numCanon v] r) as (n2 & s' & [C1 C2 C3 C4 C5]).
  { apply R. } { apply R. } { apply R. } { apply R. }
  rewrite E. split; [done|]. exists (S n1 + S n2)%nat, s'. split; try done.
  intros fuel. rewrite E. replace (S n1 + S n2 + S fuel)%nat with (S (n1 + S (n2 + S fuel)))%nat by lia.
  rewrite (loop_continue _ _ (get_token s1)); [by rewrite (re_loop _ _ _ _ _ _ R)|done|].
  unfold parseValue. cbn [last_token setToken]. unfold s1 in *. rewrite <- get_token_states in *. cbn [last_token withStates] in H1.
  rewrite bool_decide_false by exact H1. match goal with |- context [get_token ?x] => destruct (get_token_keeps x) as (_ & -> & ->) end. cbn. by rewrite Hk.
Qed.

(** * Objects *)

(** Every key of [l] comes before [k]. *)
Definition keysBelow {A} (k : string) (l : list (string * A)) : Prop := Forall (fun kv => keyLt kv.1 k = true) l.

Lemma keyLt_irrefl k : keyLt k k = false.
Proof. unfold keyLt. induction (bytesOf k) as [|b l IH]; [done|]. cbn. by rewrite bool_decide_false, bool_decide_true by lia. Qed.

Lemma keyLt_asym a b : keyLt a b = true -> keyLt b a = false /\ b <> a.
Proof.
  intros H. split; [|intros ->; by rewrite keyLt_irrefl in H]. destruct (keyLt b a) eqn:E; [|done].
  pose proof (keyLt_trans _ _ _ H E) as C. by rewrite keyLt_irrefl in C.
Qed.

(** A new greatest key is added at the end, and its value is stored there. *)
Lemma mapTouch_last k v l : keysBelow k l -> assocAlter k (fun _ => v) (mapTouch k l) = l ++ [(k, v)].
Proof.
  intros H. unfold mapTouch. assert (assoc k l = None) as ->.
  { induction H as [|[k' v'] l Hk _ IH]; [done|]. apply keyLt_asym in Hk as [_ Hk]. cbn in *. by rewrite bool_decide_false. }
  induction H as [|[k' v'] l Hk _ IH]; cbn; [by rewrite bool_decide_true|]. apply keyLt_asym in Hk as [E Hk]. cbn in *.
  rewrite E, bool_decide_false by done. cbn. rewrite bool_decide_false by done. by rewrite IH.
Qed.

Lemma keysSorted_below {A} k (v : A) l : keysSorted ((k, v) :: l) = true -> Forall (fun kv => keyLt k kv.1 = true) l.
Proof.
  revert k v. induction l as [|[k' v'] l IH]; intros k v H; [done|]. apply keysSorted_cons in H as [Hl Hk]. constructor; [done|].
  eapply Forall_impl; [by apply (IH k' v')|]. intros kv. by apply keyLt_trans.
Qed.

(** A key, its colon and the blanks before the value. *)
Lemma parse_field s k tk ws colon r fs l push : utf8 (bytesOf k) -> Serializer.dump_key eh_strict false k = Ret tk ->
  ready (m_lexer s) (ws ++ tk ++ 58 :: colon ++ r) -> blanks ws -> building (dom s) fs (JObject l) ->
  exists s2, parseKey (get_token s) push = Continue (get_token (push s2)) /\ scanned (m_lexer s2) (colon ++ r) /\
    expects (dom s2) (InObj fs (mapTouch k l) k) /\ states s2 = states s /\ skip_to_state_evaluation s2 = skip_to_state_evaluation s /\
    last_token (get_token s) = value_string.
Proof.
  intros Hu Hk Hr Hws Hb. unfold Serializer.dump_key in Hk. destruct (dump_escaped _ _ _) as [t|] eqn:E; [|done]. injection Hk as <-.
  destruct (get_token_text s ws k t (58 :: colon ++ r) Hu E) as (lx & E1 & E2 & E3); [cbn [app] in Hr; by rewrite <- app_assoc in Hr|done|].
  set (s1 := withDom (sax_key k (dom s)) (setToken lx value_string s)).
  destruct (get_punctuation s1 [] 58 (colon ++ r) name_separator) as (lx2 & E4 & E5).
  { by apply scanned_ready. } { constructor. } { unfold inked; lia. } { done. }
  exists (setToken lx2 name_separator s1). rewrite E1. split.
  - unfold parseKey. cbn [last_token m_lexer setToken dom]. rewrite bool_decide_false by (intros C; by apply C).
    rewrite E2, stringOf_bytesOf. fold s1. rewrite E4. cbn [last_token setToken]. by rewrite bool_decide_false by (intros C; by apply C).
  - split; [done|]. split; [by apply sax_key_expects|]. done.
Qed.

Section Fields.
Context (pp : bool) (st cur : nat) (lead ws finish colon : list Z).
Context (Hlead : blanks lead) (Hws : blanks ws) (Hfin : blanks finish) (Hfin' : finish = [] \/ exists l, finish = 10 :: l).
Context (Hcolon : blanks colon).

(** What the serializer writes for a field. *)
Definition fieldText (kv : string * json) (t : list Z) : Prop :=
  (let! tk := Serializer.dump_key eh_strict false kv.1 in
   let! tv := Serializer.dump eh_strict false pp st cur kv.2 in Ret (lead ++ tk ++ (58 :: colon) ++ tv)) = Ret t.

(** A whole field, added to the object being built. *)
Lemma reads_field k v t s inner push ws' r fs l : reads v -> utf8 (bytesOf k) -> wfJson v = true -> fieldText (k, v) t ->
  blanks ws' -> delimited r -> ready (m_lexer s) (ws' ++ t ++ r) -> skip_to_state_evaluation s = false ->
  building (dom s) fs (JObject l) -> keysBelow k l ->
  (forall s', m_lexer (push s') = m_lexer s' /\ dom (push s') = dom s' /\
    skip_to_state_evaluation (push s') = skip_to_state_evaluation s' /\ (states s' = states s -> states (push s') = inner)) ->
  last_token (get_token s) = value_string /\
  exists s1 n s2, parseKey (get_token s) push = Continue (get_token s1) /\
    reaches s1 n s2 (InObj fs (mapTouch k l) k) (numCanon v) r /\ states s2 = inner /\
    building (dom s2) fs (JObject (l ++ [(k, numCanon v)])).
Proof.
  intros Hv Hu Wv Ht Hws' Hd Hr Hk Hb Hkl Hp. unfold fieldText in Ht. cbn [fst snd] in Ht.
  destruct (Serializer.dump_key eh_strict false k) as [tk|] eqn:Ek; [|done]. cbn [obind] in Ht.
  destruct (Serializer.dump eh_strict false pp st cur v) as [tv|] eqn:Ev; [|done]. injection Ht as <-.
  destruct (parse_field s k tk (ws' ++ lead) colon (tv ++ r) fs l push Hu Ek) as (s2 & E1 & E2 & E3 & E4 & E5 & E6).
  { rewrite <- !app_assoc in *. cbn [app] in Hr. by rewrite <- !app_assoc in Hr. } { by apply Forall_app. } { exact Hb. }
  split; [exact E6|]. destruct (Hp s2) as (P1 & P2 & P3 & P4). exists (push s2).
  destruct (Hv pp st cur tv colon r (push s2) (InObj fs (mapTouch k l) k) Ev Wv) as (_ & n & s3 & R); [done|done| | | |].
  { rewrite P1. by apply scanned_ready. } { by rewrite P3, E5. } { by rewrite P2. }
  exists n, s3. split; [done|]. split; [done|]. split; [rewrite (re_states _ _ _ _ _ _ R); auto|].
  rewrite <- (mapTouch_last k (numCanon v) l Hkl). apply R.
Qed.

Lemma fields_close l ts : Forall (fun kv => reads kv.2) l -> keysSorted l = true ->
  forallb (fun kv => bool_decide (utf8 (bytesOf kv.1)) && wfJson kv.2) l = true -> Forall2 fieldText l ts ->
  forall s outer K vs r, scanned (m_lexer s) (restText ws finish 125 ts r) -> states s = false :: outer ->
    skip_to_state_evaluation s = false -> building (dom s) (frames K) (JObject vs) -> Forall (fun kv => keysBelow kv.1 vs) l ->
    exists n s', closes s n s' outer K (JObject (vs ++ map (fun kv => (kv.1, numCanon kv.2)) l)) r.
Proof.
  intros Hl Hso Hwf Hts. revert Hl Hso Hwf. induction Hts as [|[k v] t l ts Ht _ IH]; intros Hl Hso Hwf s outer K vs r Hr Hst Hk Hb Hvs.
  - rewrite app_nil_r. by apply (closes_bracket s false outer K (JObject vs) finish r).
  - apply Forall_cons in Hl as [Hv Hl]. apply Forall_cons in Hvs as [Hkv Hvs]. cbn [forallb fst snd] in *.
    apply andb_true_iff in Hwf as [[Hu%bool_decide_eq_true Wv]%andb_true_iff Wl].
    pose proof (keysSorted_below _ _ _ Hso) as Hbel. apply keysSorted_cons in Hso as [Hso _].
    destruct (get_punctuation s [] 44 (ws ++ t ++ restText ws finish 125 ts r) value_separator) as (lx & Eg & Hs).
    { apply scanned_ready. unfold restText in *. cbn in Hr. by rewrite <- !app_assoc in *. } { constructor. } { unfold inked; lia. } { done. }
    destruct (reads_field k v t (setToken lx value_separator s) (states s) (fun s => s) ws (restText ws finish 125 ts r) (frames K) vs)
      as (_ & s1 & n1 & s2 & E1 & R & E2 & E3); try done.
    { apply restText_delimited; [done|by right]. } { by apply scanned_ready. }
    destruct (IH Hl Hso Wl s2 outer K (vs ++ [(k, numCanon v)]) r) as (n2 & s' & C).
    { apply R. } { by rewrite E2. } { apply R. } { done. }
    { apply Forall_forall. intros kv Hkv'. apply Forall_app. split; [by apply (proj1 (Forall_forall _ l) Hvs)|].
      constructor; [|constructor]. by apply (proj1 (Forall_forall _ l) Hbel). }
    rewrite <- app_assoc in C. exists (n1 + S n2)%nat, s'. eapply closes_step; [exact R|exact C|].
    intros fuel. unfold evalLoop, evaluateState. rewrite Hst, Eg. cbn [last_token setToken]. rewrite bool_decide_true by done. by rewrite E1.
Qed.
End Fields.

Lemma reads_object l : Forall (fun kv => reads kv.2) l -> reads (JObject l).
Proof.
  intros Hl pp st cur t ws r s K Ht Hj Hws Hd Hr Hk He. cbn [wfJson] in Hj. apply andb_true_iff in Hj as [Hso Hj].
  destruct l as [|[k v] l]; [injection Ht as <-; by apply (reads_empty false s K ws r)|].
  cbn [Serializer.dump] in Ht. destruct (traverse _ ((k, v) :: l)) as [ts|] eqn:Ets; [|done]. apply traverse_Forall2 in Ets.
  injection Ht as <-. set (new := if pp then (cur + st)%nat else cur) in *.
  destruct (layout_blank pp new cur) as (L1 & L2 & L3 & L4 & L5).
  set (lead := if pp then spaces new else []) in *. set (sp := if pp then [10] else []) in *.
  set (finish := if pp then [10] ++ spaces cur else []) in *. rewrite L5 in Hr.
  set (colon := if pp then [32] else []).
  assert (blanks colon) as L6 by (unfold colon; destruct pp; repeat constructor).
  assert ((if pp then [58; 32] else [58]) = 58 :: colon) as L7 by (by destruct pp). rewrite L7 in Ets.
  inversion Ets as [|v0 t0 l0 ts0 Ht0 Hts]; subst. clear Ets.
  apply Forall_cons in Hl as [Hv Hl]. pose proof (keysSorted_below _ _ _ Hso) as Hbel. apply keysSorted_cons in Hso as [Hso _].
  cbn [forallb fst snd] in *. apply andb_true_iff in Hj as [[Hu%bool_decide_eq_true Wv]%andb_true_iff Wl].
  destruct (get_punctuation s ws 123 (sp ++ t0 ++ restText sp finish 125 ts0 r) begin_object) as (lx & E & Hs).
  { rewrite <- separated_rest. cbn [app] in Hr. by rewrite <- !app_assoc in Hr. } { done. } { unfold inked; lia. } { done. }
  set (s0 := withDom (start_object (dom s)) (setToken lx begin_object s)).
  destruct (reads_field pp st new lead colon L1 L6 k v t0 s0 (false :: states s)
    (fun s => withStates (false :: states s) (skip_to_state_evaluation s) s) sp (restText sp finish 125 ts0 r) (frames K) [])
    as (H1 & s1 & n1 & s2 & E1 & R & E2 & E3); try done.
  { apply restText_delimited; [done|by right]. } { by apply scanned_ready. } { by apply push_building. } { constructor. }
  { intros s'. repeat split. cbn. by intros ->. }
  destruct (fields_close pp st new lead sp finish colon L1 L2 L3 L4 L6 l ts0 Hl Hso Wl Hts s2 (states s) K [(k, numCanon v)] r) as (n2 & s' & [C1 C2 C3 C4 C5]).
  { apply R. } { done. } { apply R. } { done. }
  { eapply Forall_impl; [exact Hbel|]. intros kv Hkv. constructor; [exact Hkv|constructor]. }
  rewrite E. split; [done|]. exists (S n1 + S n2)%nat, s'. split; try done.
  intros fuel. rewrite E. replace (S n1 + S n2 + S fuel)%nat with (S (n1 + S (n2 + S fuel)))%nat by lia.
  rewrite (loop_continue _ _ (get_token s1)); [by rewrite (re_loop _ _ _ _ _ _ R)|done|].
  unfold parseValue. cbn [last_token setToken]. fold s0. change (dom (setToken lx begin_object s)) with (dom s). fold s0.
  rewrite bool_decide_false by (rewrite H1; done). exact E1.
Qed.

Lemma reads_all j : reads j.
Proof.
  induction j as [|b|n|z|m e|k|l IH|l IH] using json_nested_ind.
  - apply reads_null.
  - apply reads_bool.
  - intros pp st cur t ws r s K Ht Hj Hws Hd Hr Hk He. injection Ht as <-. apply bool_decide_eq_true in Hj.
    apply (reads_integer n _ s K ws r); try done; [lia|]. rewrite bool_decide_false by lia. done.
  - intros pp st cur t ws r s K Ht Hj Hws Hd Hr Hk He. injection Ht as <-. apply bool_decide_eq_true in Hj.
    by apply (reads_integer z _ s K ws r); [lia|..].
  - apply reads_float.
  - apply reads_string.
  - by apply reads_array.
  - by apply reads_object.
Qed.

(** * Parsing a dumped text *)

Lemma sax_parse_more fuel fuel' s r : sax_parse_internal fuel s = Some r -> (fuel <= fuel')%nat -> sax_parse_internal fuel' s = Some r.
Proof.
  revert fuel' s. induction fuel as [|fuel IH]; intros fuel' s E Hf; [done|]. destruct fuel' as [|fuel']; [lia|].
  cbn [sax_parse_internal] in *. destruct (parseStep s); try done; apply IH; done || lia.
Qed.

Lemma parse_dumped pp st cur j t : Serializer.dump eh_strict false pp st cur j = Ret t -> wfJson j = true -> Forall is_byte t ->
  parseText t = Some (inr (numCanon j)).
Proof.
  intros Ht Hj Hb. destruct (dump_head _ _ _ _ _ Ht Hj) as (c & l & Etc & Hc).
  set (s0 := {| m_lexer := startLexer false t; last_token := uninitialized; dom := startDom; states := []; skip_to_state_evaluation := false |}).
  destruct (reads_all j pp st cur t [] [] s0 AtTop Ht Hj) as (_ & n & s' & R); try done.
  { constructor. }
  { split; [by rewrite app_nil_r|by apply startLexer_wf|done|]. intros _. rewrite Etc. cbn. unfold inked in Hc. lia. }
  assert (sax_parse_internal (n + 1) (startParser t) = Some (inr s')) as E.
  { change (startParser t) with (get_token s0). rewrite (re_loop _ _ _ _ _ _ R). unfold evalLoop, evaluateState. by rewrite (re_states _ _ _ _ _ _ R). }
  unfold parseText. destruct (startParser_ok t Hb) as (H1 & H2 & H3).
  pose proof (sax_parse_internal_ends (parseFuel t) (startParser t) H1 ltac:(by rewrite H3) ltac:(unfold parseFuel; lia)) as HE.
  destruct (sax_parse_internal (parseFuel t) (startParser t)) as [r|] eqn:E'; [|done].
  pose proof (sax_parse_more _ (n + 1 + parseFuel t) _ _ E ltac:(lia)) as A1.
  pose proof (sax_parse_more _ (n + 1 + parseFuel t) _ _ E' ltac:(lia)) as A2. rewrite A1 in A2. injection A2 as <-.
  destruct R as [_ [I1 I2 I3 I4] _ _ [Hroot _]].
  destruct (scan_standing (m_lexer s') I2 I4) as (lx & Es & Hst); [lia|]. rewrite I1 in Hst. cbn [dropBlank] in Hst.
  rewrite (get_token_scan s' lx end_of_input).
  - cbn. by rewrite Hroot.
  - rewrite Es. unfold scanToken. by rewrite (st_current _ _ _ Hst).
Qed.
