(* ===== verification/JsonText.v ===== *)
(** JSON texts as the kernel uses them: [j.dump()], [j.dump(n)] and [json::parse(text)] of
    src/libs/nlohmann/json.hpp, put together, with the properties that make them a pair.

    A value of the model lists the bindings of an object in the order the source writes them, the
    first of a key being the one that counts; the library keeps them in a [std::map].  [asMap] is
    that representation. *)

From S2P Require Import Prelude Bytes CStrings Json JsonUtf8 JsonDtoa JsonDtoaProps JsonDtoaRound JsonDump JsonDumpProps JsonLexer JsonLexerProps JsonLexerTotal JsonParser JsonParserProps JsonRoundTrip.
From Stdlib Require Import Ascii Reals.
Local Open Scope Z_scope.

(** * Objects as maps *)

(** [object->emplace(k, v)]: an existing binding stays. *)
Definition emplace {A} (k : string) (v : A) (l : list (string * A)) : list (string * A) :=
  match assoc k l with Some _ => l | None => mapInsert k v l end.

Fixpoint asMap (j : json) : json :=
  match j with
  | JArray l => JArray (map asMap l)
  | JObject l => JObject (foldl (fun m kv => emplace kv.1 kv.2 m) [] (map (fun kv => (kv.1, asMap kv.2)) l))
  | j => j
  end.

(** [dump(indent)]: on one line for a negative [indent]. *)
Definition json_dump (indent : Z) (j : json) : outcome string := omap_out stringOf (dumpIndent indent (asMap j)).

(** Numbers in the range of their type and texts in UTF-8; nothing is asked of the order of keys. *)
Fixpoint wfValue (j : json) : bool :=
  match j with
  | JUnsigned n => bool_decide (0 <= n < 2 ^ 64)
  | JInteger z => bool_decide (- 2 ^ 63 <= z < 2 ^ 63)
  | JFloat m e => isDouble m e
  | JString s => bool_decide (utf8 (bytesOf s))
  | JArray l => forallb wfValue l
  | JObject l => forallb (fun kv => bool_decide (utf8 (bytesOf kv.1)) && wfValue kv.2) l
  | _ => true
  end.

Lemma forallb_Forall {A} (p : A -> bool) l : forallb p l = true <-> Forall (fun x => p x = true) l.
Proof. rewrite forallb_forall, Forall_forall. by setoid_rewrite list_elem_of_In. Qed.

Definition wfEntry (kv : string * json) : bool := bool_decide (utf8 (bytesOf kv.1)) && wfJson kv.2.

Lemma emplace_wf m kv : keysSorted m && forallb wfEntry m = true -> wfEntry kv = true ->
  keysSorted (emplace kv.1 kv.2 m) && forallb wfEntry (emplace kv.1 kv.2 m) = true.
Proof.
  intros [H1 H2]%andb_true_iff Hkv. unfold emplace. destruct (assoc kv.1 m); rewrite andb_true_iff; [done|].
  split; [by apply mapInsert_sorted|]. apply forallb_mapInsert; [|done]. by destruct kv.
Qed.

(** The library's representation of a value is well formed. *)
Lemma asMap_wf j : wfValue j = true -> wfJson (asMap j) = true.
Proof.
  induction j as [| | | | | |l IH|l IH] using json_nested_ind; intros H; try done; cbn [wfValue asMap wfJson] in *.
  - rewrite forallb_Forall in *. apply Forall_map. eapply Forall_impl; [exact (proj2 (Forall_and _ _) (conj IH H))|]. cbn. tauto.
  - assert (Forall (fun kv => wfEntry kv = true) (map (fun kv => (kv.1, asMap kv.2)) l)) as Hl.
    { rewrite forallb_Forall in H. apply Forall_map. eapply Forall_impl; [exact (proj2 (Forall_and _ _) (conj IH H))|].
      intros [k v] [H1 [H2 H3]%andb_true_iff]. unfold wfEntry. cbn in *. rewrite H2. auto. }
    clear H IH. change (fun kv : string * json => bool_decide (utf8 (bytesOf kv.1)) && wfJson kv.2) with wfEntry.
    assert (forall m, keysSorted m && forallb wfEntry m = true ->
      let m' := foldl (fun m kv => emplace kv.1 kv.2 m) m (map (fun kv => (kv.1, asMap kv.2)) l) in
      keysSorted m' && forallb wfEntry m' = true) as HF; [|by apply HF].
    induction Hl as [|kv l' Hkv _ IH]; intros m Hm; [done|]. cbn [foldl]. by apply IH, emplace_wf.
Qed.

Lemma assoc_mapInsert {A} k k' (v : A) l : assoc k l = None ->
  assoc k' (mapInsert k v l) = if bool_decide (k' = k) then Some v else assoc k' l.
Proof.
  induction l as [|[k1 v1] l IH]; intros E; [done|]. cbn in E. destruct (bool_decide (k = k1)) eqn:E1; [done|].
  cbn [mapInsert]. rewrite E1. destruct (keyLt k k1); [done|]. cbn. rewrite IH by done.
  apply bool_decide_eq_false in E1. destruct (bool_decide (k' = k1)) eqn:E2; [|done].
  apply bool_decide_eq_true in E2 as ->. by rewrite bool_decide_false.
Qed.

Lemma assoc_emplace {A} k k' (v : A) m : assoc k' (emplace k v m) = match assoc k' m with Some x => Some x | None => if bool_decide (k' = k) then Some v else None end.
Proof.
  unfold emplace. destruct (assoc k m) eqn:E.
  - destruct (assoc k' m) eqn:E'; [done|]. rewrite bool_decide_false; [done|]. intros ->. congruence.
  - rewrite assoc_mapInsert by done. case_bool_decide; [subst; by rewrite E|]. by destruct (assoc k' m).
Qed.

(** Looking up a key is the same on both: the first binding counts. *)
Lemma asMap_lookup l k : jfind (asMap (JObject l)) k = asMap <$> assoc k l.
Proof.
  cbn [asMap jfind].
  assert (forall m, assoc k (foldl (fun m kv => emplace kv.1 kv.2 m) m (map (fun kv => (kv.1, asMap kv.2)) l)) =
    match assoc k m with Some x => Some x | None => asMap <$> assoc k l end) as H; [|by rewrite H].
  induction l as [|[k1 v1] l IH]; intros m; [cbn; by destruct (assoc k m)|]. cbn [map foldl fst snd]. rewrite IH, assoc_emplace.
  destruct (assoc k m); [done|]. cbn [assoc]. by destruct (bool_decide (k = k1)).
Qed.

Lemma mapInsert_last {A} k (v : A) l : keysBelow k l -> assoc k l = None /\ mapInsert k v l = l ++ [(k, v)].
Proof.
  induction 1 as [|[k1 v1] l Hk _ [IH1 IH2]]; [done|]. cbn in Hk. apply keyLt_asym in Hk as [E1 E2].
  cbn. rewrite E1, bool_decide_false by done. by rewrite IH1, IH2.
Qed.

(** A value the library stores is its own representation. *)
Lemma asMap_id j : wfJson j = true -> asMap j = j.
Proof.
  induction j as [| | | | | |l IH|l IH] using json_nested_ind; intros H; try done; cbn [wfJson asMap] in *; f_equal.
  - rewrite forallb_Forall in H. induction IH as [|x l Hx _ IHl]; [done|]. apply Forall_cons in H as [H1 H2]. cbn. rewrite Hx, IHl; done.
  - apply andb_true_iff in H as [Hs H]. rewrite forallb_Forall in H.
    assert (map (fun kv => (kv.1, asMap kv.2)) l = l) as ->.
    { clear Hs. induction IH as [|[k v] l Hx _ IHl]; [done|]. apply Forall_cons in H as [[_ H1]%andb_true_iff H2]. cbn in *. by rewrite Hx, IHl. }
    clear IH H. assert (forall m, Forall (fun kv => keysBelow kv.1 m) l -> foldl (fun m kv => emplace kv.1 kv.2 m) m l = m ++ l) as HF.
    { induction l as [|[k v] l IH]; intros m Hm; [by rewrite app_nil_r|]. apply Forall_cons in Hm as [Hk Hm]. cbn [foldl fst snd].
      destruct (mapInsert_last k v m Hk) as [E1 E2]. unfold emplace at 2. rewrite E1, E2. rewrite IH; [by rewrite <- app_assoc| |].
      - exact (proj1 (keysSorted_cons _ _ _ Hs)).
      - pose proof (keysSorted_below _ _ _ Hs) as Hb. apply Forall_forall. intros kv Hkv. apply Forall_app.
        split; [by apply (proj1 (Forall_forall _ l) Hm)|]. constructor; [|constructor]. by apply (proj1 (Forall_forall _ l) Hb). }
    apply (HF []). apply Forall_true. intros. constructor.
Qed.

(** * Dumped texts are UTF-8 *)

Lemma ascii_digits l : allDigits l -> Forall (fun b => 0 <= b <= 0x7F) l.
Proof. intros H. eapply Forall_impl; [exact H|]. cbn. lia. Qed.

Lemma decimal_ascii ds : ds = [48] \/ decimalDigits ds -> Forall (fun b => 0 <= b <= 0x7F) ds.
Proof. intros [-> | H]; [constructor; [lia|constructor]|]. by apply ascii_digits, decimalDigits_all. Qed.

Lemma dump_integer_utf8 z : - 2 ^ 63 <= z < 2 ^ 64 -> utf8 (dump_integer number_buffer z).
Proof.
  intros Hz. destruct (dump_integer_decimal number_buffer z) as (ds & -> & Hds & _); [done|done|]. apply utf8_ascii.
  unfold integerText. apply Forall_app. split; [case_bool_decide; repeat constructor; lia|by apply decimal_ascii].
Qed.

Lemma to_chars_utf8 m e : isDouble m e = true -> utf8 (to_chars m e).
Proof.
  intros H. destruct (to_chars_text m e H) as (i & fd & ex & -> & [Hi Hf Hx _] & _). apply utf8_ascii. unfold numText.
  apply Forall_app. split; [destruct (bool_decide _); repeat constructor; lia|]. apply Forall_app. split; [by apply decimal_ascii|].
  apply Forall_app. split.
  - destruct fd; [constructor|]. constructor; [lia|]. by apply ascii_digits.
  - destruct ex as [[neg xd]|]; [|constructor]. destruct Hx as [Hx _]. constructor; [lia|]. constructor; [destruct neg; lia|]. by apply ascii_digits.
Qed.

Lemma escapedChar_utf8 c : utf8Char c -> utf8 (escapedChar false c).
Proof.
  intros Hc. unfold escapedChar. destruct (needsEscape false (charValue c)) eqn:E; [|rewrite <- (app_nil_r c); by constructor; [|constructor]].
  apply utf8_ascii. destruct (charValue_encode c Hc) as [[Hs _] _]. unfold escapeCodepoint.
  do 7 (case_bool_decide; [repeat constructor; lia|]). cbn [andb]. rewrite orb_false_r. case_bool_decide as C.
  - rewrite bool_decide_true by lia. unfold hexEscape, hexLower. cbn [fst]. repeat (constructor; [try lia; case_bool_decide; Z.div_mod_to_equations; lia|]). constructor.
  - exfalso. unfold needsEscape in E. by rewrite !bool_decide_false in E.
Qed.

Lemma dump_escaped_utf8 l t : utf8 l -> dump_escaped eh_strict false l = Ret t -> utf8 t.
Proof.
  intros (cs & Hcs & ->)%utf8_chars. rewrite dump_escaped_chars by done. intros [= <-].
  induction Hcs as [|c cs Hc _ IH]; cbn; [constructor|]. apply utf8_app; [by apply escapedChar_utf8|done].
Qed.

Lemma separated_utf8 sep ts : utf8 sep -> Forall utf8 ts -> utf8 (separated sep ts).
Proof.
  intros Hs. induction 1 as [|t ts Ht Hts IH]; [constructor|]. destruct ts; [done|].
  change (separated sep (t :: l :: ts)) with (t ++ sep ++ separated sep (l :: ts)). auto using utf8_app.
Qed.

Lemma blanks_utf8 ws : blanks ws -> utf8 ws.
Proof.
  intros H. apply utf8_ascii. eapply Forall_impl; [exact H|]. intros c. unfold isBlank. repeat case_bool_decide; try done; lia.
Qed.

Lemma quoted_utf8 t : utf8 t -> utf8 ([34] ++ t ++ [34]).
Proof. intros H. apply utf8_app; [|apply utf8_app; [done|]]; apply utf8_ascii; repeat constructor; lia. Qed.

Lemma container_utf8 (pp : bool) op cl cur ts : 0 <= op <= 0x7F -> 0 <= cl <= 0x7F -> Forall utf8 ts ->
  utf8 ([op] ++ (if pp then [10] else []) ++ separated (if pp then [44; 10] else [44]) ts ++ (if pp then [10] ++ spaces cur else []) ++ [cl]).
Proof.
  intros Ho Hc Hts. destruct (layout_blank pp 0 cur) as (_ & L2 & L3 & _ & L5).
  repeat apply utf8_app; try (by apply blanks_utf8); try (apply utf8_ascii; repeat constructor; lia).
  apply separated_utf8; [|done]. rewrite L5. apply (utf8_app [44]); [apply utf8_ascii; repeat constructor; lia|by apply blanks_utf8].
Qed.

Lemma dump_utf8 pp st cur j t : wfJson j = true -> Serializer.dump eh_strict false pp st cur j = Ret t -> utf8 t.
Proof.
  assert (forall l, Forall (fun b => 0 <= b <= 0x7F) l -> utf8 l) as HA by apply utf8_ascii.
  revert cur t. induction j as [|b|n|z|m e|s|l IH|l IH] using json_nested_ind; intros cur t H Ht; cbn [wfJson] in H; cbn [Serializer.dump] in Ht.
  - injection Ht as <-. apply HA. repeat constructor; lia.
  - injection Ht as <-. apply HA. destruct b; repeat constructor; lia.
  - injection Ht as <-. apply bool_decide_eq_true in H. apply dump_integer_utf8. lia.
  - injection Ht as <-. apply bool_decide_eq_true in H. apply dump_integer_utf8. lia.
  - injection Ht as <-. by apply to_chars_utf8.
  - apply bool_decide_eq_true in H. destruct (dump_escaped eh_strict false (bytesOf s)) as [t'|] eqn:E; [|done]. injection Ht as <-.
    by apply quoted_utf8, (dump_escaped_utf8 (bytesOf s)).
  - destruct l as [|x l]; [injection Ht as <-; apply HA; repeat constructor; lia|].
    destruct (traverse _ (x :: l)) as [ts|] eqn:E; [|done]. apply traverse_Forall2 in E. injection Ht as <-.
    set (new := if pp then (cur + st)%nat else cur) in *. destruct (layout_blank pp new cur) as (L1 & _).
    apply (container_utf8 pp _ _ cur); [lia|lia|]. rewrite forallb_Forall in H. induction E as [|v t l' ts Et _ IHE]; [constructor|].
      apply Forall_cons in IH as [IHv IH]. apply Forall_cons in H as [Hv H]. constructor; [|by apply IHE].
      destruct (Serializer.dump _ _ _ _ _ v) as [tv|] eqn:Ev; [|done]. injection Et as <-. apply utf8_app; [by apply blanks_utf8|by apply (IHv new)].
  - apply andb_true_iff in H as [_ H]. destruct l as [|x l]; [injection Ht as <-; apply HA; repeat constructor; lia|].
    destruct (traverse _ (x :: l)) as [ts|] eqn:E; [|done]. apply traverse_Forall2 in E. injection Ht as <-.
    set (new := if pp then (cur + st)%nat else cur) in *. destruct (layout_blank pp new cur) as (L1 & _).
    apply (container_utf8 pp _ _ cur); [lia|lia|]. rewrite forallb_Forall in H. induction E as [|[k v] t l' ts Et _ IHE]; [constructor|].
      apply Forall_cons in IH as [IHv IH]. apply Forall_cons in H as [[Hk%bool_decide_eq_true Hv]%andb_true_iff H]. constructor; [|by apply IHE].
      unfold Serializer.dump_key in Et. cbn [fst snd] in *. destruct (dump_escaped eh_strict false (bytesOf k)) as [tk|] eqn:Ek; [|done]. cbn [obind] in Et.
      destruct (Serializer.dump _ _ _ _ _ v) as [tv|] eqn:Ev; [|done]. injection Et as <-.
      apply utf8_app; [by apply blanks_utf8|]. apply (utf8_app ([34] ++ tk ++ [34])); [by apply quoted_utf8, (dump_escaped_utf8 (bytesOf k))|].
      apply utf8_app; [apply HA; destruct pp; repeat constructor; lia|by apply (IHv new)].
Qed.

(** * The library's two functions as a pair *)

Lemma dumpIndent_parse indent j : wfJson j = true ->
  exists t, dumpIndent indent j = Ret t /\ utf8 t /\ parseText t = Some (inr (numCanon j)).
Proof.
  intros Hj. assert (forall pp st, exists t, Serializer.dump eh_strict false pp st 0 j = Ret t /\ utf8 t /\ parseText t = Some (inr (numCanon j))) as HD.
  { intros pp st. pose proof (dump_throws false pp st 0 j) as H. rewrite wfJson_utf8 in H by done. destruct H as [t Ht]. exists t.
    pose proof (dump_utf8 _ _ _ _ _ Hj Ht) as Hu. split; [done|]. split; [done|]. eapply parse_dumped; [exact Ht|done|by apply utf8_bytes]. }
  unfold dumpIndent. case_bool_decide; apply HD.
Qed.

Lemma json_dump_parse indent j : wfJson (asMap j) = true ->
  exists t, json_dump indent j = Ret t /\ utf8 (bytesOf t) /\ json_parse t = Ret (numCanon (asMap j)).
Proof.
  intros Hj. destruct (dumpIndent_parse indent (asMap j) Hj) as (t & E & Hu & P). exists (stringOf t). unfold json_dump. rewrite E.
  split; [done|]. pose proof (utf8_bytes t Hu) as Hb. rewrite bytesOf_stringOf by done. split; [done|].
  unfold json_parse. by rewrite bytesOf_stringOf, P by done.
Qed.

Lemma canonFloat_idem m e : isDouble m e = true ->
  isDouble (canonFloat m e).1 (canonFloat m e).2 = true /\ canonFloat (canonFloat m e).1 (canonFloat m e).2 = canonFloat m e.
Proof.
  intros H. destruct (to_chars_text m e H) as (i & fd & ex & _ & _ & E). destruct (canonFloat m e) as [m' e'].
  by apply strtod_canonical in E.
Qed.

Lemma keysSorted_map {A B} (f : A -> B) (l : list (string * A)) : keysSorted (map (fun kv => (kv.1, f kv.2)) l) = keysSorted l.
Proof. induction l as [|[k v] l IH]; [done|]. cbn [map keysSorted fst snd]. rewrite IH. f_equal. by destruct l as [|[k' v'] l]. Qed.

(** Canonical numbers are a fixed point, and keep a value well formed. *)
Lemma numCanon_idem j : wfJson j = true -> wfJson (numCanon j) = true /\ numCanon (numCanon j) = numCanon j.
Proof.
  induction j as [|b|n|z|m e|s|l IH|l IH] using json_nested_ind; intros H; try done; cbn [wfJson] in H.
  - cbn [numCanon]. apply bool_decide_eq_true in H. case_bool_decide as C; cbn [wfJson numCanon];
      [rewrite !bool_decide_true by lia|rewrite bool_decide_true by lia]; done.
  - cbn [numCanon wfJson]. destruct (canonFloat_idem m e H) as [-> ->]. done.
  - cbn [numCanon wfJson]. rewrite forallb_Forall in *. induction IH as [|x l Hx _ IHl]; [done|].
    apply Forall_cons in H as [H1 H2]. destruct (Hx H1) as [A1 A2]. destruct (IHl H2) as [B1 B2]. injection B2 as B2.
    cbn [map]. rewrite A2, B2. split; [by constructor|done].
  - apply andb_true_iff in H as [Hs H]. cbn [numCanon wfJson]. rewrite keysSorted_map, Hs. cbn [andb]. clear Hs. rewrite forallb_Forall in *.
    induction IH as [|[k v] l Hx _ IHl]; [done|]. apply Forall_cons in H as [[H0 H1]%andb_true_iff H2]. cbn [fst snd] in *.
    destruct (Hx H1) as [A1 A2]. destruct (IHl H2) as [B1 B2]. injection B2 as B2.
    cbn [map fst snd]. rewrite A2, B2. split; [constructor; [|done]; cbn; by rewrite H0, A1|done].
Qed.

(** C6: Round trip of the JSON library.  A value whose numbers are in range and whose texts are
    UTF-8 can be dumped, on one line or with any indentation that fits the serializer's buffer; the text is UTF-8, and parsing it gives the value
    back: the same containers, keys and texts, integers by value (a non-negative one comes back
    unsigned) and every double by its exact value. *)
Theorem dump_then_parse indent j : indent <= 512 -> wfValue j = true ->
  exists t, json_dump indent j = Ret t /\ utf8 (bytesOf t) /\ json_parse t = Ret (numCanon (asMap j)).
Proof. intros _ H. by apply json_dump_parse, asMap_wf. Qed.

(** C16: What was parsed can be dumped, whatever the text was; parsing the dumped text gives the same value
    up to the representation of numbers, and from then on dumping and parsing change nothing. *)
Theorem parsed_value_stable indent t j : indent <= 512 -> json_parse t = Ret j ->
  exists t', json_dump indent j = Ret t' /\ json_parse t' = Ret (numCanon j) /\
    forall indent', indent' <= 512 -> exists t'', json_dump indent' (numCanon j) = Ret t'' /\ json_parse t'' = Ret (numCanon j).
Proof.
  intros _ H. pose proof (json_parse_wf t j H) as Hj. pose proof (asMap_id j Hj) as Em.
  destruct (json_dump_parse indent j) as (t' & E1 & _ & E2); [by rewrite Em|]. exists t'. rewrite Em in E2.
  split; [done|]. split; [done|]. intros indent' _. destruct (numCanon_idem j Hj) as [Hc Ec].
  pose proof (asMap_id _ Hc) as Em'. destruct (json_dump_parse indent' (numCanon j)) as (t'' & E3 & _ & E4); [by rewrite Em'|].
  exists t''. rewrite Em', Ec in E4. done.
Qed.


(** The strict serializer returns a text exactly for the values whose strings and keys are UTF-8, and
    throws [type_error] for every other, with every indentation. *)
Theorem dump_strict indent j : indent <= 512 ->
  (utf8Value (asMap j) = true -> exists t, json_dump indent j = Ret t) /\
  (utf8Value (asMap j) = false -> json_dump indent j = Throw JsonTypeError).
Proof.
  intros _. unfold json_dump, dumpIndent. split; intros E; destruct (bool_decide (0 <= indent));
  match goal with |- context [Serializer.dump _ ?a ?pp ?st ?cur ?v] => pose proof (dump_throws a pp st cur v) as H end; rewrite E in H;
  [destruct H as [t ->]; by eexists..|by rewrite H|by rewrite H].
Qed.

(** C15: Escaping writes within its buffer: whatever bytes are dumped, under whichever error handler, no
    write reaches index 512 of [string_buffer]; a handler other than the strict one always
    produces a text. *)
Theorem escaping_stays_in_buffer h a s :
  (forall l e, l `prefix_of` bytesOf s -> escapeLoop h a l startEscaper = Ret e -> (furthest e <= STRING_BUFFER_SIZE)%nat) /\
  (h <> eh_strict -> exists r, dump_escaped h a (bytesOf s) = Ret r).
Proof. apply string_buffer_fits, bytesOf_bytes. Qed.

(** The serializer's decoding table accepts a byte string exactly when the lexer's byte ranges do: what can be
    dumped can be parsed as a text, and what was parsed as one can be dumped. *)
Theorem decoder_matches_lexer s : decodeRun UTF8_ACCEPT (bytesOf s) = UTF8_ACCEPT <-> utf8 (bytesOf s).
Proof. apply decode_accepts_utf8, bytesOf_bytes. Qed.

(** Integers print as [std::to_string] prints them, through the two-digits-at-a-time writer and whatever the
    reused number buffer held before: every 64-bit value, the most negative included. *)
Theorem integers_print_decimal nb x : length nb = NUMBER_BUFFER_SIZE -> - 2 ^ 63 <= x < 2 ^ 64 ->
  stringOf (dump_integer nb x) = std_to_string x.
Proof. apply dump_integer_to_string. Qed.

(** * Samples *)

(** An object with a two-byte letter, a fraction and a list; the key bound twice keeps its first value. *)
Definition sampleValue : json := JObject [
  ("name", JString (stringOf [115; 0xC3; 0xA9])); ("load", JFloat 3602879701896397 (-55));
  ("ports", JArray [JInteger 1; JInteger (-2)]); ("name", JString "later")].

Definition inQuotes (l : list Z) : list Z := [34] ++ l ++ [34].

Definition sampleDumped : string := stringOf (
  bytesOf "{" ++ inQuotes (bytesOf "load") ++ bytesOf ":0.1," ++ inQuotes (bytesOf "name") ++ bytesOf ":" ++ inQuotes [115; 0xC3; 0xA9] ++
  bytesOf "," ++ inQuotes (bytesOf "ports") ++ bytesOf ":[1,-2]}").

Lemma dump_then_parse_witness :
  json_dump (-1) sampleValue = Ret sampleDumped /\ utf8 (bytesOf sampleDumped) /\ json_parse sampleDumped = Ret (numCanon (asMap sampleValue)).
Proof.
  destruct (dump_then_parse (-1) sampleValue ltac:(lia) ltac:(by vm_compute)) as (t & E & H1 & H2).
  assert (t = sampleDumped) as <- by (vm_compute in E; by injection E as <-). exact (conj E (conj H1 H2)).
Defined.

Lemma parsed_value_stable_witness :
  json_parse " [ -0, 1e2 ] " = Ret (JArray [JInteger 0; JFloat 7036874417766400 (-46)]) /\
  exists t', json_dump (-1) (JArray [JInteger 0; JFloat 7036874417766400 (-46)]) = Ret t' /\ json_parse t' = Ret (JArray [JUnsigned 0; JFloat 7036874417766400 (-46)]).
Proof.
  assert (json_parse " [ -0, 1e2 ] " = Ret (JArray [JInteger 0; JFloat 7036874417766400 (-46)])) as E by (by vm_compute). split; [exact E|].
  destruct (parsed_value_stable (-1) _ _ ltac:(lia) E) as (t' & E1 & E2 & _).
  exists t'. split; [exact E1|]. rewrite E2. vm_compute. reflexivity.
Defined.

Lemma integers_print_decimal_witness : stringOf (dump_integer number_buffer (- 2 ^ 63)) = "-9223372036854775808".
Proof. by rewrite (integers_print_decimal number_buffer (- 2 ^ 63)) by (done || lia). Defined.

(** A byte that is no UTF-8 in a value cannot be dumped. *)
Lemma dump_strict_witness : json_dump (-1) (JArray [JString (stringOf [0xFF])]) = Throw JsonTypeError.
Proof. apply (proj2 (dump_strict (-1) (JArray [JString (stringOf [0xFF])]) ltac:(lia))). by vm_compute. Defined.

(** The replacing handler writes U+FFFD for such a byte. *)
Lemma escaping_stays_in_buffer_witness : exists r, dump_escaped eh_replace false (bytesOf (stringOf [65; 0xFF])) = Ret r.
Proof. apply (proj2 (escaping_stays_in_buffer eh_replace false (stringOf [65; 0xFF]))). done. Defined.
