(* ===== verification/JsonErrors.v ===== *)
(** The text of a parse error, which the library quotes from the input: when it can itself be
    written as JSON, and when it cannot. *)

From S2P Require Import Prelude Bytes CStrings Json JsonUtf8 JsonDtoa JsonDtoaProps JsonDtoaRound JsonDump JsonDumpProps JsonLexer JsonLexerProps JsonLexerTotal JsonParser JsonParserProps JsonRoundTrip JsonText.
From Stdlib Require Import Ascii.
Local Open Scope Z_scope.

(** * ASCII inputs give ASCII messages *)

Definition isAscii (b : Z) : Prop := 0 <= b <= 0x7F.
#[local] Instance isAscii_dec b : Decision (isAscii b).
Proof. unfold isAscii. apply _. Defined.

Definition asciiText (s : string) : bool := bool_decide (Forall isAscii (bytesOf s)).

Lemma asciiText_spec s : asciiText s = true <-> Forall isAscii (bytesOf s).
Proof. apply bool_decide_eq_true. Qed.

(** What the lexer holds of an ASCII input. *)
Record plain (lx : Lexer) : Prop := {
  pl_ia : Forall isAscii (ia lx);
  pl_current : isAscii (current lx) \/ current lx = EOF;
  pl_token : Forall isAscii (token_string lx);
  pl_message : asciiText (error_message lx) = true
}.

Create HintDb plain.

Lemma plain_get lx : plain lx -> plain (get lx).
Proof.
  intros [H1 H2 H3 H4]. unfold get.
  assert (exists c l, (if next_unget lx then (current lx, ia lx) else get_character (ia lx)) = (c, l) /\ (isAscii c \/ c = EOF) /\ Forall isAscii l) as (c & l & -> & Hc & Hl).
  { destruct (next_unget lx); [eauto|]. destruct (ia lx) as [|c l]; [by exists EOF, []; auto|]. apply Forall_cons in H1 as [? ?]. exists c, l. auto. }
  split; [done|done| |done]. cbn [token_string]. case_bool_decide; [done|]. apply Forall_app. split; [done|]. constructor; [tauto|done].
Qed.

Lemma plain_unget lx : plain lx -> plain (unget lx).
Proof. intros [H1 H2 H3 H4]. split; [done|done| |done]. cbn [token_string unget]. case_bool_decide; [done|]. by apply Forall_take. Qed.

Lemma plain_add c lx : plain lx -> plain (add c lx).
Proof. by intros []. Qed.

Lemma plain_addAll l lx : plain lx -> plain (addAll l lx).
Proof. revert lx. induction l as [|c l IH]; intros lx H; [done|]. by apply (IH (add c lx)), plain_add. Qed.

Lemma plain_fail msg lx : asciiText msg = true -> plain lx -> plain (fail msg lx).1.
Proof. by intros ? []. Qed.

Lemma plain_number i u f lx : plain lx -> plain (withNumber i u f lx).
Proof. by intros []. Qed.

Lemma plain_reset lx : current lx <> EOF -> plain lx -> plain (reset lx).
Proof. intros ? [H1 H2 H3 H4]. split; [done|done| |done]. constructor; [tauto|constructor]. Qed.

#[local] Hint Resolve plain_get plain_unget plain_add plain_addAll plain_number : plain.
#[local] Hint Extern 2 (plain (fail _ _).1) => (apply plain_fail; [vm_compute; reflexivity|]) : plain.

Lemma plain_codepoint factors cp lx : plain lx -> plain (codepointFrom factors cp lx).1.
Proof.
  revert cp lx. induction factors as [|f fs IH]; intros cp lx H; [done|]. cbn [codepointFrom].
  destruct (hexDigit _); [apply IH|cbn [fst]]; auto with plain.
Qed.

Lemma plain_ranges rs lx : plain lx -> plain (rangesLoop rs lx).1.
Proof.
  revert lx. induction rs as [|r rs IH]; intros lx H; [done|]. cbn [rangesLoop]. destruct (inRange _ _); [apply IH|cbn [fst]]; auto with plain.
Qed.

Lemma plain_unicode lx : plain lx -> plain (unicodeEscape lx).1.
Proof.
  intros H. unfold unicodeEscape, get_codepoint. pose proof (plain_codepoint [12; 8; 4; 0] 0 lx H) as H1.
  destruct (codepointFrom _ _ lx) as [lx1 cp1]. cbn [fst] in H1.
  case_bool_decide as C1; [auto with plain|]. case_bool_decide as C2.
  - assert (forall lx2, plain lx2 -> plain (let '(lx, codepoint2) := codepointFrom [12; 8; 4; 0] 0 lx2 in
      if bool_decide (codepoint2 = -1) then fail "invalid string: '\u' must be followed by 4 hex digits" lx
      else if bool_decide (0xDC00 <= codepoint2 <= 0xDFFF)
      then (addAll (encodeCodepoint (u32 (u32 (Z.shiftl cp1 10) + codepoint2 - 0x35FDC00))) lx, value_string)
      else fail "invalid string: surrogate U+D800..U+DBFF must be followed by U+DC00..U+DFFF" lx).1) as HP.
    { intros lx2 H2. pose proof (plain_codepoint [12; 8; 4; 0] 0 lx2 H2) as H3. destruct (codepointFrom _ _ lx2) as [lx3 cp2]. cbn [fst] in H3.
      repeat case_bool_decide; auto with plain. cbn [fst]. auto with plain. }
    destruct (bool_decide (current (get lx1) = 92)); [destruct (bool_decide (current (get (get lx1)) = 117))|]; auto with plain.
  - case_bool_decide; [auto with plain|]. cbn [fst]. auto with plain.
Qed.

Lemma controlMessage_ascii c : 0 <= c <= 0x1F -> asciiText (controlMessage c) = true.
Proof.
  intros Hc. assert (forallb (fun c => asciiText (controlMessage c)) (seqZ 0 32) = true) as H by (vm_compute; reflexivity).
  rewrite forallb_forall in H. apply H. apply list_elem_of_In, elem_of_seqZ. lia.
Qed.

Lemma plain_string fuel lx : plain lx -> plain (scanStringLoop fuel lx).1.
Proof.
  revert lx. induction fuel as [|fuel IH]; intros lx H; [done|]. cbn [scanStringLoop].
  case_bool_decide; [auto with plain|]. case_bool_decide; [cbn [fst]; auto with plain|]. case_bool_decide.
  - destruct (simpleEscape _); [apply IH; auto with plain|]. case_bool_decide; [|auto with plain].
    pose proof (plain_unicode (get (get lx)) ltac:(auto with plain)) as HU. destruct (unicodeEscape _) as [lx' t].
    case_bool_decide; [done|by apply IH].
  - case_bool_decide; [apply plain_fail; [by apply controlMessage_ascii|auto with plain]|].
    destruct (followRanges _) as [[|r rs]|]; [apply IH; auto with plain| |auto with plain].
    pose proof (plain_ranges (r :: rs) (add (current (get lx)) (get lx)) ltac:(auto with plain)) as HR. unfold next_byte_in_range.
    destruct (rangesLoop _ _) as [lx' []]; [by apply IH|done].
Qed.

Lemma plain_numberLoop fuel st t lx : plain lx -> plain (scanNumberLoop fuel st t lx).1.
Proof.
  revert st t lx. induction fuel as [|fuel IH]; intros st t lx H; [done|]. cbn [scanNumberLoop].
  destruct (numStep st (current (get lx))) as [st'| |msg] eqn:E; [apply IH; auto with plain|cbn [fst]; auto with plain|].
  apply plain_fail; [|auto with plain]. destruct st; cbn [numStep] in E; repeat case_match; simplify_eq; vm_compute; reflexivity.
Qed.

Lemma plain_scan_number lx : current lx <> EOF -> plain lx -> plain (scan_number lx).1.
Proof.
  intros Hc H. unfold scan_number.
  pose proof (plain_numberLoop (S (length (ia (reset lx)))) (numStart (current (reset lx))) value_unsigned (add (current (reset lx)) (reset lx))
    ltac:(by apply plain_add, plain_reset)) as HN.
  destruct (scanNumberLoop _ _ _ _) as [lx' t]. cbn [fst] in HN. destruct (_ || _); [done|]. unfold convertNumber.
  destruct (readDecimal _) as [[??]?]. repeat case_match; cbn [fst]; auto with plain.
Qed.

Lemma plain_literal text t lx : plain lx -> plain (scan_literal text t lx).1.
Proof.
  revert lx. induction text as [|c text IH]; intros lx H; [done|]. cbn [scan_literal]. case_bool_decide; [apply IH|]; auto with plain.
Qed.

Lemma plain_token lx : plain lx -> plain (scanToken lx).1.
Proof.
  intros H. unfold scanToken. do 6 (case_bool_decide; [done|]). do 3 (case_bool_decide; [by apply plain_literal|]).
  case_bool_decide as C; [apply plain_string, plain_reset; [by rewrite C|done]|].
  destruct (bool_decide (current lx = 45) || isDigit (current lx)) eqn:E.
  - apply plain_scan_number; [|done]. intros C'. by rewrite C' in E.
  - destruct (bool_decide (current lx = 0) || _); [done|auto with plain].
Qed.

Lemma plain_comment lx : plain lx -> plain (scan_comment lx).1.
Proof.
  intros H. unfold scan_comment. case_bool_decide.
  - generalize (S (length (ia (get lx)))). intros fuel. apply plain_get in H. revert H. generalize (get lx). induction fuel as [|fuel IH]; intros l H; [done|].
    cbn [lineComment]. destruct (_ || _); [cbn [fst]; auto with plain|apply IH; auto with plain].
  - case_bool_decide; [|auto with plain].
    generalize (S (length (ia (get lx)))). intros fuel. apply plain_get in H. revert H. generalize (get lx). induction fuel as [|fuel IH]; intros l H; [done|].
    cbn [blockComment]. destruct (_ || _); [auto with plain|]. case_bool_decide; [|apply IH; auto with plain].
    case_bool_decide; [cbn [fst]; auto with plain|apply IH; auto with plain].
Qed.

Lemma plain_whitespace lx : plain lx -> plain (skip_whitespace lx).
Proof.
  unfold skip_whitespace. generalize (S (S (length (ia lx)))). intros fuel. revert lx. induction fuel as [|fuel IH]; intros lx H; [done|].
  cbn [skipWhitespaceLoop]. destruct (isBlank _); [apply IH|]; auto with plain.
Qed.

Lemma plain_comments fuel lx : plain lx -> plain (skipComments fuel lx).1.
Proof.
  revert lx. induction fuel as [|fuel IH]; intros lx H; [done|]. cbn [skipComments]. destruct (_ && _); [|done].
  pose proof (plain_comment lx H) as HC. destruct (scan_comment lx) as [lx' t]. case_bool_decide; [by apply IH, plain_whitespace|done].
Qed.

Lemma plain_scan lx : plain lx -> plain (scan lx).1.
Proof.
  intros H. unfold scan.
  assert (plain (if bool_decide (chars_read_total (position lx) = 0) then skip_bom lx else (lx, true)).1) as HB.
  { case_bool_decide; [|done]. unfold skip_bom. repeat case_match; cbn [fst]; auto with plain. }
  destruct (if bool_decide _ then skip_bom lx else _) as [lx1 ok]. cbn [fst] in HB. destruct ok; [|auto with plain].
  pose proof (plain_comments (S (length (ia (skip_whitespace lx1)))) (skip_whitespace lx1) ltac:(by apply plain_whitespace)) as HC.
  cbv zeta. destruct (skipComments _ _) as [lx2 t]. case_bool_decide; [by apply plain_token|done].
Qed.

Lemma plain_get_token s : plain (m_lexer s) -> plain (m_lexer (get_token s)).
Proof. intros H. unfold get_token. pose proof (plain_scan _ H) as HS. by destruct (scan (m_lexer s)). Qed.

(** * The messages *)

Lemma ascii_app l k : Forall isAscii l -> Forall isAscii k -> Forall isAscii (l ++ k).
Proof. intros ??. by apply Forall_app. Qed.

Ltac asciiConst := apply (bool_decide_unpack _); vm_compute; exact I.

Lemma hexUpper_ascii d : 0 <= d < 16 -> isAscii (hexUpper d).
Proof. unfold hexUpper, isAscii. case_bool_decide; lia. Qed.

Lemma token_string_ascii lx : plain lx -> Forall isAscii (get_token_string lx).
Proof.
  intros [_ _ H _]. unfold get_token_string. induction H as [|c l Hc _ IH]; [constructor|]. cbn. apply ascii_app; [|done].
  unfold shownByte. case_bool_decide; [|by constructor]. repeat (constructor; [first [apply hexUpper_ascii; unfold isAscii in Hc; Z.div_mod_to_equations; lia|unfold isAscii; lia]|]). constructor.
Qed.

Lemma exception_message_ascii s expected context : plain (m_lexer s) -> asciiText context = true ->
  Forall isAscii (exception_message s expected context).
Proof.
  intros H Hc. rewrite asciiText_spec in Hc. pose proof (token_string_ascii _ H) as Ht. pose proof (pl_message _ H) as Hm. rewrite asciiText_spec in Hm.
  assert (forall t, Forall isAscii (bytesOf (token_type_name t))) as Hn by (intros []; asciiConst).
  unfold exception_message. repeat apply ascii_app; try asciiConst.
  - case_bool_decide; [constructor|]. repeat apply ascii_app; done || asciiConst.
  - case_bool_decide; repeat apply ascii_app; done || asciiConst.
  - case_bool_decide; [constructor|]. apply ascii_app; [asciiConst|done].
Qed.

Lemma std_to_string_ascii x : Forall isAscii (bytesOf (std_to_string x)).
Proof.
  destruct (pretty_bytes x) as (ds & -> & H & _). unfold integerText. apply ascii_app; [case_bool_decide; [asciiConst|constructor]|].
  apply decimal_ascii. destruct H as [[-> _] | H]; [by left|by right].
Qed.

Definition asciiFailure (f : ParseFailure) : Prop := Forall isAscii (match f with SyntaxError _ msg => msg | NumberOverflow t => t end).

Lemma ascii_bytes l : Forall isAscii l -> Forall is_byte l.
Proof. intros H. eapply Forall_impl; [exact H|]. unfold isAscii, is_byte. cbn. lia. Qed.

Lemma what_ascii f : asciiFailure f -> Forall isAscii (bytesOf (JsonParser.what f)).
Proof.
  intros H. pose proof (ascii_bytes _ H) as Hb. destruct f as [p msg|t]; unfold JsonParser.what, position_string;
  rewrite !bytesOf_app; rewrite bytesOf_stringOf by done; repeat apply ascii_app; try done; try asciiConst; apply std_to_string_ascii.
Qed.

Definition plainFlow (r : Flow) : Prop :=
  match r with Continue s | Evaluate s | Return s => plain (m_lexer s) | Failed f => asciiFailure f end.

Lemma plain_syntaxError s expected context : plain (m_lexer s) -> asciiText context = true -> plainFlow (syntaxError s expected context).
Proof. apply exception_message_ascii. Qed.

#[local] Hint Resolve plain_get_token : plain.
#[local] Hint Extern 2 (plainFlow (syntaxError _ _ _)) => (apply plain_syntaxError; [|vm_compute; reflexivity]) : plain.

Lemma plain_parseKey s push : plain (m_lexer s) -> (forall s, m_lexer (push s) = m_lexer s) -> plainFlow (parseKey s push).
Proof.
  intros H Hp. unfold parseKey. case_bool_decide; [auto with plain|]. set (s1 := withDom _ s).
  assert (plain (m_lexer (get_token s1))) by (by apply plain_get_token). case_bool_decide; [auto with plain|].
  apply plain_get_token. by rewrite Hp.
Qed.

Lemma plain_evaluate s : plain (m_lexer s) -> plainFlow (evaluateState s).
Proof.
  intros H. pose proof (plain_get_token s H) as H1. unfold evaluateState. destruct (states s) as [|[] outer]; [done| |].
  - case_bool_decide; [by apply plain_get_token|]. case_bool_decide; [done|]. auto with plain.
  - case_bool_decide; [apply plain_parseKey; [by apply plain_get_token|done]|]. case_bool_decide; [done|]. auto with plain.
Qed.

Lemma plain_value s : plain (m_lexer s) -> plainFlow (parseValue s).
Proof.
  intros H. unfold parseValue.
  assert (forall d, plain (m_lexer (get_token (withDom d s)))) as HG by (intros; by apply plain_get_token).
  destruct (last_token s); try done; auto with plain.
  - destruct (lex_float _) as [[??]|]; [done|]. by apply token_string_ascii.
  - case_bool_decide; apply HG.
  - case_bool_decide; [apply HG|]. by apply plain_parseKey.
  - case_bool_decide; [|auto with plain]. asciiConst.
Qed.

Lemma plain_loop fuel s : plain (m_lexer s) ->
  match sax_parse_internal fuel s with None => True | Some (inl f) => asciiFailure f | Some (inr s') => plain (m_lexer s') end.
Proof.
  revert s. induction fuel as [|fuel IH]; intros s H; [done|]. cbn [sax_parse_internal].
  assert (plainFlow (parseStep s)) as HP.
  { unfold parseStep. destruct (skip_to_state_evaluation s); [by apply plain_evaluate|]. pose proof (plain_value s H) as HV.
    destruct (parseValue s); try done. by apply plain_evaluate. }
  destruct (parseStep s); try done; by apply IH.
Qed.

Lemma plain_start l : Forall isAscii l -> plain (startLexer false l).
Proof. intros H. split; [done|by right|constructor|vm_compute; reflexivity]. Qed.

Lemma parse_failure_ascii l f : Forall isAscii l -> parseText l = Some (inl f) -> asciiFailure f.
Proof.
  intros H. unfold parseText.
  pose proof (plain_loop (parseFuel l) (startParser l) ltac:(by apply plain_get_token, plain_start)) as HL.
  destruct (sax_parse_internal _ _) as [[f'|s]|]; [by intros [= <-]| |done].
  case_bool_decide; [done|]. intros [= <-]. apply exception_message_ascii; [by apply plain_get_token|vm_compute; reflexivity].
Qed.

(** * A character outside of texts *)

(** The white space read before a token is part of the text quoted. *)
Lemma whitespace_token fuel ws c r lx : wfLexer lx -> input lx = ws ++ c :: r -> blanks ws -> isBlank c = false -> is_byte c ->
  (length ws < fuel)%nat -> let lx' := skipWhitespaceLoop fuel lx in
  token_string lx' = token_string lx ++ ws ++ [c] /\ current lx' = c.
Proof.
  revert fuel lx. induction ws as [|w ws IH]; intros fuel lx Hw E Hws Hc Hb Hf; (destruct fuel as [|fuel]; [lia|]); cbn [skipWhitespaceLoop].
  - pose proof (get_cons lx c r Hw E) as R. rewrite (ro_current _ _ _ _ R), Hc.
    assert (token_string (get lx) = if bool_decide (current (get lx) = EOF) then token_string lx else token_string lx ++ [current (get lx)]) as Et
      by (unfold get; by destruct (if next_unget lx then _ else _)).
    rewrite Et, (ro_current _ _ _ _ R), bool_decide_false by (by apply byte_not_eof). done.
  - apply Forall_cons in Hws as [Hbw Hws]. pose proof (get_cons lx w (ws ++ c :: r) Hw E) as R. rewrite (ro_current _ _ _ _ R), Hbw.
    assert (w <> EOF) as Hne by (intros ->; done).
    destruct (IH fuel (get lx) (ro_wf _ _ _ _ R) (readOne_input _ _ _ _ R) Hws Hc Hb ltac:(cbn in Hf; lia)) as [E1 E2]. split; [|done].
    assert (token_string (get lx) = if bool_decide (current (get lx) = EOF) then token_string lx else token_string lx ++ [current (get lx)]) as Et
      by (unfold get; by destruct (if next_unget lx then _ else _)).
    rewrite E1, Et, (ro_current _ _ _ _ R), bool_decide_false by done. by rewrite <- app_assoc.
Qed.

(** A lead byte followed by a quote is no character. *)
Lemma truncated_not_utf8 l c : Forall isAscii l -> 0x80 <= c <= 0xFF -> ~ utf8 (l ++ [c; 39]).
Proof.
  intros Hl Hc Hu. assert (Forall is_byte (l ++ [c; 39])) as Hb.
  { apply Forall_app. split; [by apply ascii_bytes|]. repeat constructor; unfold is_byte; lia. }
  apply decode_accepts_utf8 in Hu; [|done]. unfold decodeRun in Hu. rewrite foldl_app in Hu.
  fold (decodeRun UTF8_ACCEPT l) in Hu. rewrite (proj2 (decode_accepts_utf8 l (ascii_bytes l Hl)) (utf8_ascii l Hl)) in Hu.
  assert (forall c, is_byte c -> implb (bool_decide (0x80 <= c)) (negb (bool_decide (foldl decodeState UTF8_ACCEPT [c; 39] = UTF8_ACCEPT))) = true) as HD.
  { apply every_byte. vm_compute. reflexivity. }
  specialize (HD c ltac:(unfold is_byte; lia)). rewrite bool_decide_true, Hu in HD by lia. done.
Qed.

Lemma scanToken_invalid lx : 0x80 <= current lx -> scanToken lx = fail "invalid literal" lx.
Proof.
  intros H. unfold scanToken, isDigit. do 10 (rewrite bool_decide_false by lia). cbn [orb].
  assert (current lx <> EOF) by (unfold EOF; lia). rewrite !bool_decide_false by (done || lia). done.
Qed.

(** The first token of such a text is an error, and what was read ends with the byte. *)
Lemma scan_nonascii ws c r : blanks ws -> 0x80 <= c <= 0xFF -> (ws = [] -> c <> 0xEF) -> Forall is_byte (ws ++ c :: r) ->
  exists lx, scan (startLexer false (ws ++ c :: r)) = fail "invalid literal" lx /\ token_string lx = ws ++ [c].
Proof.
  intros Hws Hc Hb Hl. set (lx0 := startLexer false (ws ++ c :: r)). pose proof (startLexer_wf _ Hl) as Hw. fold lx0 in Hw.
  assert (exists h t, ws ++ c :: r = h :: t /\ h <> 0xEF /\ is_byte h) as (h & t & Eh & Hh & Hbh).
  { destruct ws as [|w ws]; [exists c, r; split; [done|]; split; [by apply Hb|unfold is_byte; lia]|].
    exists w, (ws ++ c :: r). split; [done|]. apply Forall_cons in Hws as [Hw' _]. split; [by intros ->|]. by apply Forall_cons in Hl as [? _]. }
  assert (input lx0 = h :: t) as E0 by exact Eh. pose proof (get_cons lx0 h t Hw E0) as R.
  assert (skip_bom lx0 = (unget (get lx0), true)) as Eb by (unfold skip_bom; by rewrite (ro_current _ _ _ _ R), bool_decide_false).
  destruct (unget_input _ _ _ _ R (wl_pos _ Hw)) as (U1 & U2 & _ & U4 & _); [by left|].
  rewrite bool_decide_false in U1 by (by apply byte_not_eof). rewrite <- Eh in U1.
  assert (isBlank c = false) as Hbl by (unfold isBlank; by rewrite !bool_decide_false by lia).
  assert (token_string (unget (get lx0)) = []) as Et.
  { cbn [token_string unget]. rewrite (ro_current _ _ _ _ R), bool_decide_false by (by apply byte_not_eof).
    unfold get, lx0, startLexer. cbn [next_unget ia]. rewrite Eh. cbn [get_character token_string]. by case_bool_decide. }
  destruct (whitespace_token (S (S (length (ia (unget (get lx0)))))) ws c r (unget (get lx0)) U2 U1 Hws Hbl) as [T1 T2].
  { unfold is_byte; lia. } { pose proof (input_length (unget (get lx0))) as HL. rewrite U1, length_app in HL. cbn [length] in HL. lia. }
  pose proof (skip_whitespace_spec _ U2 ltac:(rewrite U4; reflexivity)) as Hst. rewrite U1, dropBlank_blanks in Hst by done. cbn [dropBlank] in Hst.
  rewrite Hbl in Hst. exists (skip_whitespace (unget (get lx0))). split; [|unfold skip_whitespace; by rewrite T1, Et].
  unfold scan. rewrite bool_decide_true by done. rewrite Eb. cbv zeta. cbn [skipComments]. rewrite (st_ignore _ _ _ Hst). cbn [andb].
  rewrite bool_decide_true by done. apply scanToken_invalid. rewrite (st_current _ _ _ Hst). lia.
Qed.

Lemma shown_ascii ws c : blanks ws -> 0x80 <= c -> exists l, Forall isAscii l /\ mjoin (shownByte <$> ws ++ [c]) = l ++ [c].
Proof.
  intros Hws Hc. exists (mjoin (shownByte <$> ws)). rewrite fmap_app, join_app. split.
  - assert (Forall isAscii (get_token_string {| ia := []; ignore_comments := false; current := 0; next_unget := false;
      position := {| chars_read_total := 0; chars_read_current_line := 0; lines_read := 0 |}; token_string := ws; token_buffer := []; error_message := "";
      lex_integer := 0; lex_unsigned := 0; lex_float := None |})) as H; [|exact H].
    apply token_string_ascii. split; [constructor|left; unfold isAscii; cbn; lia| |reflexivity].
    eapply Forall_impl; [exact Hws|]. intros w. unfold isBlank, isAscii. repeat case_bool_decide; try done; lia.
  - cbn. unfold shownByte. by rewrite bool_decide_false by lia.
Qed.

(** A text that starts, after white space, with a byte that is not ASCII is a syntax error whose
    message is not UTF-8: it ends with the first byte of a character. *)
Lemma parse_nonascii ws c r : blanks ws -> 0x80 <= c <= 0xFF -> (ws = [] -> c <> 0xEF) -> Forall is_byte (ws ++ c :: r) ->
  exists p msg, parseText (ws ++ c :: r) = Some (inl (SyntaxError p msg)) /\ Forall is_byte msg /\
    ~ utf8 (bytesOf (JsonParser.what (SyntaxError p msg))).
Proof.
  intros Hws Hc Hb Hl. destruct (scan_nonascii ws c r Hws Hc Hb Hl) as (lx & Es & Et).
  destruct (shown_ascii ws c Hws ltac:(lia)) as (l & Hla & El).
  set (s := setToken (fail "invalid literal" lx).1 parse_error {| m_lexer := startLexer false (ws ++ c :: r); last_token := uninitialized;
    dom := startDom; states := []; skip_to_state_evaluation := false |}).
  assert (startParser (ws ++ c :: r) = s) as Esp by (apply get_token_scan; exact Es).
  exists (position (m_lexer s)), (exception_message s uninitialized "value"). 
  assert (exists k, exception_message s uninitialized "value" = k ++ [c; 39] /\ Forall isAscii k) as (k & Ek & Hk).
  { exists (bytesOf "syntax error while parsing value - invalid literal; last read: '" ++ l). split; [|apply ascii_app; [asciiConst|done]].
    unfold exception_message. rewrite bool_decide_false by done. rewrite (bool_decide_true (last_token s = parse_error)) by done.
    rewrite (bool_decide_true (uninitialized = uninitialized)) by done. unfold get_token_string. cbn [m_lexer s setToken fail fst token_string error_message].
    rewrite Et, El, app_nil_r, <- !app_assoc. reflexivity. }
  assert (Forall is_byte (k ++ [c; 39])) as Hkb.
  { apply Forall_app. split; [by apply ascii_bytes|]. repeat constructor; unfold is_byte; lia. }
  rewrite Ek. split; [|split; [done|]].
  - unfold parseText, parseFuel. rewrite Esp, Nat.add_comm. cbn [Nat.add sax_parse_internal]. by rewrite <- Ek.
  - unfold JsonParser.what, position_string. rewrite !bytesOf_app, bytesOf_stringOf by done. rewrite !app_assoc. apply truncated_not_utf8; [|lia].
    repeat apply ascii_app; try done; try asciiConst; apply std_to_string_ascii.
Qed.

(** The same of a text. *)
Lemma parse_error_truncated t ws c r : bytesOf t = ws ++ c :: r -> blanks ws -> 0x80 <= c -> (ws = [] -> c <> 0xEF) ->
  exists p msg, parseText (bytesOf t) = Some (inl (SyntaxError p msg)) /\ ~ utf8 (bytesOf (JsonParser.what (SyntaxError p msg))).
Proof.
  intros E Hws Hc Hb. pose proof (bytesOf_bytes t) as Hl. rewrite E in *.
  assert (is_byte c) as Hcb by (apply Forall_app in Hl as [_ [? _]%Forall_cons]; done).
  destruct (parse_nonascii ws c r Hws ltac:(unfold is_byte in Hcb; lia) Hb Hl) as (p & msg & E1 & _ & E2). by exists p, msg.
Qed.

Lemma parse_error_printable t f : Forall isAscii (bytesOf t) -> parseText (bytesOf t) = Some (inl f) -> utf8 (bytesOf (JsonParser.what f)).
Proof. intros H E. apply utf8_ascii, what_ascii. by eapply parse_failure_ascii. Qed.
