(* ===== verification/ClassifierKey.v ===== *)
(** Classifier, part 1: packed match keys, masks, mask interning and rule fingerprints
    (src/src/ndt_core/collection/Classifier.cpp, lines 36-303, and the public types of
    Classifier.hpp).

    A [FlowKey] is packed into 32 bytes; masking is byte-wise.  The theorems relate that byte
    view with the fields: packing is injective, and a masked byte comparison decides exactly the
    field-wise masked comparison OpenFlow matching means. *)

From S2P Require Import Prelude Bytes.

Record FlowKey := {
  inPort : Z; ethType : Z; ipProto : Z; ipv4Src : Z; ipv4Dst : Z;
  tpSrc : Z; tpDst : Z; vlanTci : Z; metadata : Z
}.

Record RuleEffect := {
  gotoTable : option Z;
  outputPorts : list Z;
  groupId : option Z
}.

#[export] Instance FlowKey_eq_dec : EqDecision FlowKey.
Proof. solve_decision. Defined.
#[export] Instance RuleEffect_eq_dec : EqDecision RuleEffect.
Proof. solve_decision. Defined.

Definition emptyFlowKey : FlowKey := Build_FlowKey 0 0 0 0 0 0 0 0 0.
Definition emptyEffect : RuleEffect := Build_RuleEffect None [] None.

Definition kKeyBytes : nat := 32.

(** [std::array<uint8_t, 32>]. *)
Abbreviation KeyBytes := (list Z) (only parsing).

Definition zeroBytes : KeyBytes := replicate kKeyBytes 0.

Definition bitAnd (a m : KeyBytes) : KeyBytes := zip_with Z.land a m.

Definition writeU32Be (out : KeyBytes) (off : nat) (v : Z) : KeyBytes := write_at off (be_bytes 4 v) out.
Definition writeU16Be (out : KeyBytes) (off : nat) (v : Z) : KeyBytes := write_at off (be_bytes 2 v) out.
Definition writeU64Be (out : KeyBytes) (off : nat) (v : Z) : KeyBytes :=
  let b (n : Z) := Z.land (Z.shiftr v n) 255 in
  write_at off [b 56; b 48; b 40; b 32; b 24; b 16; b 8; b 0] out.

Definition packKey (k : FlowKey) : KeyBytes :=
  let out := zeroBytes in
  let out := writeU32Be out 0 (inPort k) in
  let out := writeU16Be out 4 (ethType k) in
  let out := <[6%nat := ipProto k]> out in
  let out := <[7%nat := 0]> out in
  let out := writeU32Be out 8 (ipv4Src k) in
  let out := writeU32Be out 12 (ipv4Dst k) in
  let out := writeU16Be out 16 (tpSrc k) in
  let out := writeU16Be out 18 (tpDst k) in
  let out := writeU16Be out 20 (vlanTci k) in
  let out := <[22%nat := 0]> out in
  let out := <[23%nat := 0]> out in
  writeU64Be out 24 (metadata k).

(** ** Mask interning.  A [const Mask*] is an index into the objects allocated so far. *)

Abbreviation MaskPtr := nat (only parsing).

Record MaskIntern := { pool : gmap KeyBytes MaskPtr; maskHeap : list KeyBytes }.

Definition emptyIntern : MaskIntern := Build_MaskIntern ∅ [].

Definition interMask (mi : MaskIntern) (maskBytes : KeyBytes) : MaskIntern * MaskPtr :=
  match pool mi !! maskBytes with
  | Some p => (mi, p)
  | None =>
      let ret := length (maskHeap mi) in
      (Build_MaskIntern (<[maskBytes := ret]> (pool mi)) (maskHeap mi ++ [maskBytes]), ret)
  end.

(** [p->bytes]; a pointer that was never handed out reads as zeroes. *)
Definition maskBytesOf (mi : MaskIntern) (p : MaskPtr) : KeyBytes := default zeroBytes (maskHeap mi !! p).

(** ** Rule identity *)

Record RuleId := { rid_tableId : Z; rid_coreHash : Z }.

#[export] Instance RuleId_eq_dec : EqDecision RuleId.
Proof. solve_decision. Defined.
#[export] Instance RuleId_countable : Countable RuleId.
Proof.
  apply (inj_countable' (fun r => (rid_tableId r, rid_coreHash r))
           (fun p => Build_RuleId p.1 p.2)). by intros [].
Defined.

Definition fnvOffset : Z := 1469598103934665603.
Definition fnvPrime : Z := 1099511628211.

(** One FNV-1a round: [h ^= x; h *= prime] on 64 bits. *)
Definition fnvMix (h x : Z) : Z := u64 (Z.lxor h x * fnvPrime).

Definition fnv1a64 (data : list Z) : Z := foldl fnvMix fnvOffset data.

Definition fingerprintRuleCore (maskBytes maskedValue : KeyBytes) (priority : Z)
    (effect : RuleEffect) : Z :=
  let h := fnvOffset in
  let h := fnvMix h (fnv1a64 maskBytes) in
  let h := fnvMix h (fnv1a64 maskedValue) in
  let p := u32 priority in
  let h := fnvMix h (fnv1a64 (le_bytes 4 p)) in
  let h := match gotoTable effect with Some t => fnvMix h t | None => h end in
  let h := foldl (fun h op => fnvMix h (fnv1a64 (le_bytes 4 op))) h (outputPorts effect) in
  match groupId effect with Some g => fnvMix h (fnv1a64 (le_bytes 4 g)) | None => h end.

(** * Well-formed keys and the field-wise reading of a mask *)

(** Every field fits the width it is declared with. *)
Definition wf_key (k : FlowKey) : Prop :=
  fits 32 (inPort k) /\ fits 16 (ethType k) /\ fits 8 (ipProto k) /\
  fits 32 (ipv4Src k) /\ fits 32 (ipv4Dst k) /\ fits 16 (tpSrc k) /\
  fits 16 (tpDst k) /\ fits 16 (vlanTci k) /\ fits 64 (metadata k).

Definition key_and (a b : FlowKey) : FlowKey := {|
  inPort := Z.land (inPort a) (inPort b);
  ethType := Z.land (ethType a) (ethType b);
  ipProto := Z.land (ipProto a) (ipProto b);
  ipv4Src := Z.land (ipv4Src a) (ipv4Src b);
  ipv4Dst := Z.land (ipv4Dst a) (ipv4Dst b);
  tpSrc := Z.land (tpSrc a) (tpSrc b);
  tpDst := Z.land (tpDst a) (tpDst b);
  vlanTci := Z.land (vlanTci a) (vlanTci b);
  metadata := Z.land (metadata a) (metadata b)
|}.

Lemma wf_key_and a b : wf_key a -> wf_key b -> wf_key (key_and a b).
Proof. unfold wf_key; simpl; intros; destruct_and!; split_and!; apply fits_land; done. Qed.

(** The 32-byte layout the header comment of the source promises. *)
Lemma packKey_layout k :
  packKey k =
    be_bytes 4 (inPort k) ++ be_bytes 2 (ethType k) ++ [ipProto k; 0] ++
    be_bytes 4 (ipv4Src k) ++ be_bytes 4 (ipv4Dst k) ++ be_bytes 2 (tpSrc k) ++
    be_bytes 2 (tpDst k) ++ be_bytes 2 (vlanTci k) ++ [0; 0] ++ be_bytes 8 (metadata k).
Proof. reflexivity. Qed.

Lemma length_packKey k : length (packKey k) = kKeyBytes.
Proof. reflexivity. Qed.

Lemma bitAnd_app a1 a2 b1 b2 :
  length a1 = length b1 -> bitAnd (a1 ++ a2) (b1 ++ b2) = bitAnd a1 b1 ++ bitAnd a2 b2.
Proof. apply zip_with_app. Qed.

Lemma bitAnd_packKey a b : bitAnd (packKey a) (packKey b) = packKey (key_and a b).
Proof.
  rewrite !packKey_layout, !bitAnd_app by (by rewrite ?length_be_bytes).
  unfold bitAnd. by rewrite !zip_land_be_bytes.
Qed.

Lemma be_bytes_app_inj n v w (r1 r2 : list Z) :
  fits (8 * Z.of_nat n) v -> fits (8 * Z.of_nat n) w ->
  be_bytes n v ++ r1 = be_bytes n w ++ r2 -> v = w /\ r1 = r2.
Proof.
  unfold fits. rewrite Z.pow_mul_r by lia. change (2 ^ 8) with 256. intros Hv Hw H.
  apply app_inj_1 in H as [H ->]; [|by rewrite !length_be_bytes].
  split; [|done]. by eapply be_bytes_inj.
Qed.

Lemma packKey_inj a b : wf_key a -> wf_key b -> packKey a = packKey b -> a = b.
Proof.
  intros Ha Hb. rewrite !packKey_layout. unfold wf_key in *. destruct_and!.
  destruct a as [a1 a2 a3 a4 a5 a6 a7 a8 a9], b as [b1 b2 b3 b4 b5 b6 b7 b8 b9]; simpl in * |-.
  intros Heq. cbn [inPort ethType ipProto ipv4Src ipv4Dst tpSrc tpDst vlanTci metadata] in *.
  apply be_bytes_app_inj in Heq as [-> Heq]; [|done..].
  apply be_bytes_app_inj in Heq as [-> Heq]; [|done..].
  apply app_inj_1 in Heq as [[= ->] Heq]; [|done].
  do 5 (apply be_bytes_app_inj in Heq as [-> Heq]; [|done..]).
  apply app_inj_1 in Heq as [_ Heq]; [|done].
  apply be_bytes_inj in Heq; [by subst|..]; assumption.
Qed.

(** ** Masked comparison *)

(** OpenFlow matching, field by field: [k] agrees with [v] on every bit [m] selects. *)
Definition field_match (m v k : FlowKey) : Prop :=
  Z.land (inPort k) (inPort m) = Z.land (inPort v) (inPort m) /\
  Z.land (ethType k) (ethType m) = Z.land (ethType v) (ethType m) /\
  Z.land (ipProto k) (ipProto m) = Z.land (ipProto v) (ipProto m) /\
  Z.land (ipv4Src k) (ipv4Src m) = Z.land (ipv4Src v) (ipv4Src m) /\
  Z.land (ipv4Dst k) (ipv4Dst m) = Z.land (ipv4Dst v) (ipv4Dst m) /\
  Z.land (tpSrc k) (tpSrc m) = Z.land (tpSrc v) (tpSrc m) /\
  Z.land (tpDst k) (tpDst m) = Z.land (tpDst v) (tpDst m) /\
  Z.land (vlanTci k) (vlanTci m) = Z.land (vlanTci v) (vlanTci m) /\
  Z.land (metadata k) (metadata m) = Z.land (metadata v) (metadata m).

Lemma key_and_eq_field_match m v k : key_and k m = key_and v m <-> field_match m v k.
Proof.
  unfold key_and, field_match. split; [intros [= ?????????]; by split_and!|].
  intros H. destruct_and!. congruence.
Qed.

Lemma masked_bytes_field_match m v k :
  wf_key m -> wf_key v -> wf_key k ->
  bitAnd (packKey k) (packKey m) = bitAnd (packKey v) (packKey m) <-> field_match m v k.
Proof.
  intros Hm Hv Hk. rewrite !bitAnd_packKey, <- key_and_eq_field_match. split; [|congruence].
  apply packKey_inj; by apply wf_key_and.
Qed.

Lemma bitAnd_idemp a m : bitAnd (bitAnd a m) m = bitAnd a m.
Proof.
  unfold bitAnd. revert m. induction a as [|x a IH]; intros [|y m]; simpl; [done..|].
  rewrite IH. f_equal. by rewrite <- Z.land_assoc, Z.land_diag.
Qed.

(** ** Interning *)

(** The pool and the allocated objects agree, so pointers and byte strings are in bijection. *)
Definition wf_intern (mi : MaskIntern) : Prop :=
  forall b p, pool mi !! b = Some p <-> maskHeap mi !! p = Some b.

Lemma wf_emptyIntern : wf_intern emptyIntern.
Proof. intros b p. simpl. by rewrite lookup_empty, lookup_nil. Qed.

Lemma interMask_spec mi b mi' p :
  wf_intern mi -> interMask mi b = (mi', p) ->
  wf_intern mi' /\ maskHeap mi' !! p = Some b /\
  (forall q c, maskHeap mi !! q = Some c -> maskHeap mi' !! q = Some c).
Proof.
  intros Hwf. unfold interMask. destruct (pool mi !! b) as [q|] eqn:Hb; intros; simplify_eq/=.
  - split; [done|]. split; [by apply Hwf|done].
  - split_and!.
    + intros c q. simpl. rewrite lookup_insert. case_decide as Hbc.
      * subst. split; [intros [= <-]; by apply list_lookup_middle|].
        intros [Hq|[? Hq]]%lookup_app_Some; [apply Hwf in Hq; congruence|].
        apply list_lookup_singleton_Some in Hq as [? _]. f_equal. lia.
      * rewrite (Hwf c q). split; [apply lookup_app_l_Some|].
        intros [Hq|[? Hq]]%lookup_app_Some; [done|].
        apply list_lookup_singleton_Some in Hq as [_ ?]. congruence.
    + by apply list_lookup_middle.
    + intros q c Hq. by apply lookup_app_l_Some.
Qed.

(** Comparing interned pointers is comparing mask bytes. *)
Lemma wf_intern_inj mi p q b :
  wf_intern mi -> maskHeap mi !! p = Some b -> maskHeap mi !! q = Some b -> p = q.
Proof. intros Hwf Hp%Hwf Hq%Hwf. congruence. Qed.
