(* ===== verification/ClassifierParse.v ===== *)
(** Classifier, part 2: from the polled JSON to a parsed rule
    (src/src/ndt_core/collection/Classifier.cpp, lines 466-1001 and 1050-1077).

    Every function that can throw returns an [outcome]; the exceptions are those of [stoull],
    [stoi], [json::at] and the explicit [throw]s.  The theorems give the mask and value a match
    object denotes, the values a netmask text can denote, and what an exception-free parse
    depends on. *)

From S2P Require Import Prelude Bytes CStrings Json ClassifierKey.
Local Open Scope string_scope.
Local Open Scope Z_scope.

Definition starts_0x (s : string) : bool :=
  match s with
  | String z (String x (String _ _)) =>
      bool_decide (code z = 48) && (bool_decide (code x = 120) || bool_decide (code x = 88))
  | _ => false
  end.

Definition parseU64 (j : json) : outcome Z :=
  if is_number_unsigned j then get_u64 j
  else if is_number_integer j then get_u64 j
  else match j with
       | JString s =>
           let s := drop_spaces s in
           let s := drop_spaces_end s in
           let base := if starts_0x s then 16 else 10 in
           stoull base s
       | _ => Throw RuntimeError
       end.

Definition parseI32 (j : json) : outcome Z :=
  if is_number_integer j then get_i32 j
  else if is_number_unsigned j then omap_out i32 (get_u32 j)
  else match j with
       | JString s => stoi s
       | _ => Throw RuntimeError
       end.

Definition extractFlowArray (flowsNode : json) (dpid : Z) : option json :=
  match flowsNode with
  | JArray _ => Some flowsNode
  | JObject l =>
      match assoc (std_to_string dpid) l with
      | Some v => Some v
      | None => match l with [(_, v)] => Some v | _ => None end
      end
  | _ => None
  end.

Definition isAllDigits (s : string) : bool :=
  match s with EmptyString => false | _ => all_chars is_digit s end.

Definition parseIpv4AddrHost (ip : string) : option Z := be_value <$> inet_pton ip.

Definition slash : Ascii.ascii := Ascii.ascii_of_N 47.
Definition colon : Ascii.ascii := Ascii.ascii_of_N 58.

(** The mask selected by a prefix length: [0xFFFFFFFF << (32 - prefix)] on 32 bits. *)
Definition prefixMask (prefix : Z) : Z :=
  if bool_decide (prefix = 0) then 0
  else if bool_decide (prefix = 32) then 4294967295
  else u32 (Z.shiftl 4294967295 (32 - prefix)).

Definition parseIpv4WithMaskOrPrefix (j : json) : outcome (option (Z * Z)) :=
  match j with
  | JString s =>
      let '(ipStr, maskStr) :=
        match split_at_char slash s with Some (a, b) => (a, b) | None => (s, "") end in
      match parseIpv4AddrHost ipStr with
      | None => Ret None
      | Some addrHost =>
          if bool_decide (maskStr = "") then Ret (Some (addrHost, 4294967295))
          else if isAllDigits maskStr then
            let! prefix := stoi maskStr in
            if bool_decide (prefix < 0) || bool_decide (32 < prefix) then Ret None
            else Ret (Some (addrHost, prefixMask prefix))
          else if starts_0x maskStr then
            Ret (catch (omap_out (fun v => Some (addrHost, u32 v)) (stoull 16 maskStr)) None)
          else Ret ((fun m => (addrHost, m)) <$> parseIpv4AddrHost maskStr)
      end
  | _ => Ret None
  end.

(** [mb[off + i] |= bs[i]]. *)
Definition orBytes (off : nat) (bs : list Z) (mb : KeyBytes) : KeyBytes :=
  foldl (fun mb '(i, b) => alter (fun x => Z.lor x b) (off + i)%nat mb) mb
    (zip (seq 0 (length bs)) bs).

Definition setU32MaskAll (mb : KeyBytes) (off : nat) : KeyBytes := orBytes off [255; 255; 255; 255] mb.
Definition setU16MaskAll (mb : KeyBytes) (off : nat) : KeyBytes := orBytes off [255; 255] mb.

Definition set_inPort v k := {| inPort := v; ethType := ethType k; ipProto := ipProto k;
  ipv4Src := ipv4Src k; ipv4Dst := ipv4Dst k; tpSrc := tpSrc k; tpDst := tpDst k;
  vlanTci := vlanTci k; metadata := metadata k |}.
Definition set_ethType v k := {| inPort := inPort k; ethType := v; ipProto := ipProto k;
  ipv4Src := ipv4Src k; ipv4Dst := ipv4Dst k; tpSrc := tpSrc k; tpDst := tpDst k;
  vlanTci := vlanTci k; metadata := metadata k |}.
Definition set_ipProto v k := {| inPort := inPort k; ethType := ethType k; ipProto := v;
  ipv4Src := ipv4Src k; ipv4Dst := ipv4Dst k; tpSrc := tpSrc k; tpDst := tpDst k;
  vlanTci := vlanTci k; metadata := metadata k |}.
Definition set_ipv4Src v k := {| inPort := inPort k; ethType := ethType k; ipProto := ipProto k;
  ipv4Src := v; ipv4Dst := ipv4Dst k; tpSrc := tpSrc k; tpDst := tpDst k;
  vlanTci := vlanTci k; metadata := metadata k |}.
Definition set_ipv4Dst v k := {| inPort := inPort k; ethType := ethType k; ipProto := ipProto k;
  ipv4Src := ipv4Src k; ipv4Dst := v; tpSrc := tpSrc k; tpDst := tpDst k;
  vlanTci := vlanTci k; metadata := metadata k |}.
Definition set_tpSrc v k := {| inPort := inPort k; ethType := ethType k; ipProto := ipProto k;
  ipv4Src := ipv4Src k; ipv4Dst := ipv4Dst k; tpSrc := v; tpDst := tpDst k;
  vlanTci := vlanTci k; metadata := metadata k |}.
Definition set_tpDst v k := {| inPort := inPort k; ethType := ethType k; ipProto := ipProto k;
  ipv4Src := ipv4Src k; ipv4Dst := ipv4Dst k; tpSrc := tpSrc k; tpDst := v;
  vlanTci := vlanTci k; metadata := metadata k |}.
Definition set_vlanTci v k := {| inPort := inPort k; ethType := ethType k; ipProto := ipProto k;
  ipv4Src := ipv4Src k; ipv4Dst := ipv4Dst k; tpSrc := tpSrc k; tpDst := tpDst k;
  vlanTci := v; metadata := metadata k |}.
Definition set_metadata v k := {| inPort := inPort k; ethType := ethType k; ipProto := ipProto k;
  ipv4Src := ipv4Src k; ipv4Dst := ipv4Dst k; tpSrc := tpSrc k; tpDst := tpDst k;
  vlanTci := vlanTci k; metadata := v |}.

(** The two out-parameters [outMaskBytes] and [outValue]. *)
Abbreviation MatchState := (KeyBytes * FlowKey)%type.

Definition setInPort (j : json) (st : MatchState) : outcome MatchState :=
  let! v := parseU64 j in Ret (setU32MaskAll st.1 0, set_inPort (u32 v) st.2).
Definition setEthType (j : json) (st : MatchState) : outcome MatchState :=
  let! v := parseU64 j in Ret (setU16MaskAll st.1 4, set_ethType (u16 v) st.2).
Definition setIpProto (j : json) (st : MatchState) : outcome MatchState :=
  let! v := parseU64 j in Ret (orBytes 6 [255] st.1, set_ipProto (u8 v) st.2).
Definition applyIpv4Masked (isSrc : bool) (j : json) (st : MatchState) : outcome MatchState :=
  let! p := parseIpv4WithMaskOrPrefix j in
  match p with
  | None => Ret st
  | Some (a, m) =>
      Ret (orBytes (if isSrc then 8 else 12)%nat (be_bytes 4 m) st.1,
           if isSrc then set_ipv4Src a st.2 else set_ipv4Dst a st.2)
  end.
Definition setTpSrc (j : json) (st : MatchState) : outcome MatchState :=
  let! v := parseU64 j in Ret (setU16MaskAll st.1 16, set_tpSrc (u16 v) st.2).
Definition setTpDst (j : json) (st : MatchState) : outcome MatchState :=
  let! v := parseU64 j in Ret (setU16MaskAll st.1 18, set_tpDst (u16 v) st.2).
Definition setVlan (j : json) (st : MatchState) : outcome MatchState :=
  let! v := parseU64 j in Ret (setU16MaskAll st.1 20, set_vlanTci (u16 v) st.2).
Definition setMetadata (j : json) (st : MatchState) : outcome MatchState :=
  let! v := parseU64 j in Ret (write_at 24 (replicate 8 255) st.1, set_metadata v st.2).

(** [if (match.contains(k1)) f(match.at(k1)); else if (match.contains(k2)) f(match.at(k2)); ...] *)
Fixpoint onFirst (m : json) (ks : list string) (f : json -> MatchState -> outcome MatchState)
    (st : MatchState) : outcome MatchState :=
  match ks with
  | [] => Ret st
  | k :: ks' => if contains m k then (let! v := jat m k in f v st) else onFirst m ks' f st
  end.

Definition buildMaskAndValueFromMatch (m : json) : outcome MatchState :=
  let st := (zeroBytes, emptyFlowKey) in
  let! st := onFirst m ["in_port"] setInPort st in
  let! st := onFirst m ["eth_type"; "dl_type"] setEthType st in
  let! st := onFirst m ["ip_proto"; "nw_proto"] setIpProto st in
  let! st := onFirst m ["ipv4_src"; "nw_src"] (applyIpv4Masked true) st in
  let! st := onFirst m ["ipv4_dst"; "nw_dst"] (applyIpv4Masked false) st in
  let! st := onFirst m ["tcp_src"] setTpSrc st in
  let! st := onFirst m ["tcp_dst"] setTpDst st in
  let! st := onFirst m ["udp_src"] setTpSrc st in
  let! st := onFirst m ["udp_dst"] setTpDst st in
  let! st := onFirst m ["tp_src"] setTpSrc st in
  let! st := onFirst m ["tp_dst"] setTpDst st in
  let! st := onFirst m ["vlan_vid"] setVlan st in
  onFirst m ["metadata"] setMetadata st.

(** ** Actions and instructions *)

Definition toUpper (s : string) : string := map_string to_upper_char s.

(** [strtoul] on the C string; rejects an empty text, trailing text, overflow and values
    beyond 32 bits. *)
Definition parseUint (s : string) : option Z :=
  match s with
  | EmptyString => None
  | _ =>
      match stoull_rest 10 s with
      | Ret (v, EmptyString) => if bool_decide (4294967295 < v) then None else Some v
      | _ => None
      end
  end.

Definition OFPP_NORMAL : Z := 4294967290.
Definition OFPP_FLOOD : Z := 4294967291.
Definition OFPP_CONTROLLER : Z := 4294967293.
Definition OFPP_LOCAL : Z := 4294967294.

Definition pushPort (p : Z) (e : RuleEffect) : RuleEffect :=
  {| gotoTable := gotoTable e; outputPorts := (outputPorts e ++ [p])%list; groupId := groupId e |}.
Definition setGroup (g : Z) (e : RuleEffect) : RuleEffect :=
  {| gotoTable := gotoTable e; outputPorts := outputPorts e; groupId := Some g |}.
Definition setGoto (t : Z) (e : RuleEffect) : RuleEffect :=
  {| gotoTable := Some t; outputPorts := outputPorts e; groupId := groupId e |}.

(** The port an upper-cased OUTPUT target names; [None] for a target that is skipped. *)
Definition outputTarget (portStr : string) : option Z :=
  if bool_decide (portStr = "CONTROLLER") then Some OFPP_CONTROLLER
  else if bool_decide (portStr = "LOCAL") then Some OFPP_LOCAL
  else if bool_decide (portStr = "FLOOD") then Some OFPP_FLOOD
  else if bool_decide (portStr = "NORMAL") then Some OFPP_NORMAL
  else parseUint portStr.

Definition applyAction (e : RuleEffect) (a : json) : RuleEffect :=
  match a with
  | JString s =>
      let '(kind, rest) := match split_at_char colon s with Some (a, b) => (a, b) | None => (s, "") end in
      let kind := toUpper kind in
      if bool_decide (kind = "OUTPUT") && negb (bool_decide (rest = "")) then
        let portStr := match split_at_char colon rest with Some (a, _) => a | None => rest end in
        match outputTarget (toUpper portStr) with
        | Some port => pushPort port e
        | None => e
        end
      else if bool_decide (kind = "GROUP") && negb (bool_decide (rest = "")) then
        match parseUint rest with Some gid => setGroup gid e | None => e end
      else e
  | _ => e
  end.

Definition parseActionsArrayIntoEffect (actions : json) (e : RuleEffect) : RuleEffect :=
  match actions with JArray l => foldl applyAction e l | _ => e end.

Definition applyInstruction (ins : json) (e : RuleEffect) : outcome RuleEffect :=
  let! e :=
    match jfind ins "type" with
    | Some (JString t) =>
        if bool_decide (t = "GOTO_TABLE") && contains ins "table_id"
        then let! v := jat ins "table_id" in let! t := parseU64 v in Ret (setGoto (u8 t) e)
        else Ret e
    | _ => Ret e
    end in
  match jfind ins "actions" with
  | Some acts => Ret (parseActionsArrayIntoEffect acts e)
  | None => Ret e
  end.

Fixpoint applyInstructions (l : list json) (e : RuleEffect) : outcome RuleEffect :=
  match l with
  | [] => Ret e
  | ins :: l' => let! e := applyInstruction ins e in applyInstructions l' e
  end.

Definition parseEffectFromFlowEntry (flow : json) : outcome RuleEffect :=
  let e := match jfind flow "actions" with
           | Some acts => parseActionsArrayIntoEffect acts emptyEffect
           | None => emptyEffect
           end in
  match jfind flow "instructions" with
  | Some (JArray l) => applyInstructions l e
  | _ => Ret e
  end.

Definition describeFirstOutputPort (e : RuleEffect) : string :=
  match outputPorts e with [] => "none" | p :: _ => std_to_string p end.

(** ** One flow entry *)

Record ParsedRule := {
  pr_id : RuleId;
  pr_tableId : Z;
  pr_priority : Z;
  pr_mask : MaskPtr;
  pr_maskedValue : KeyBytes;
  pr_effect : RuleEffect
}.

(** The mask is interned before the effect is parsed, so it stays in the pool when the
    effect throws. *)
Definition parseRuleFromJson (flow : json) : run MaskIntern ParsedRule := fun mi =>
  let head :=
    let! tableId := match jfind flow "table_id" with
                    | Some v => omap_out u8 (parseU64 v) | None => Ret 0 end in
    let! priority := match jfind flow "priority" with
                     | Some v => parseI32 v | None => Ret 0 end in
    let! mv := match jfind flow "match" with
               | Some (JObject _ as m) => buildMaskAndValueFromMatch m
               | _ => Ret (zeroBytes, emptyFlowKey) end in
    Ret (tableId, priority, mv) in
  match head with
  | Throw e => (mi, Throw e)
  | Ret (tableId, priority, (maskBytes, value)) =>
      let '(mi', mask) := interMask mi maskBytes in
      let mb := maskBytesOf mi' mask in
      let maskedValue := bitAnd (packKey value) mb in
      (mi',
       let! effect := parseEffectFromFlowEntry flow in
       Ret {| pr_id := {| rid_tableId := tableId;
                          rid_coreHash := fingerprintRuleCore mb maskedValue priority effect |};
              pr_tableId := tableId; pr_priority := priority; pr_mask := mask;
              pr_maskedValue := maskedValue; pr_effect := effect |})
  end.

(** * What the match object denotes *)

(** The binding an [if / else if] chain over [ks] reads, and the one a sequence of
    independent [if]s over [ks] ends up with. *)
Fixpoint firstPresent (m : json) (ks : list string) : option json :=
  match ks with
  | [] => None
  | k :: ks' => match jfind m k with Some v => Some v | None => firstPresent m ks' end
  end.
Definition lastPresent (m : json) (ks : list string) : option json := firstPresent m (rev ks).

(** A numeric field of width [w] read from [o]: value and mask, or nothing selected. *)
Definition num_field (w : Z) (o : option json) (value mask : Z) : Prop :=
  match o with
  | Some j => exists n, parseU64 j = Ret n /\ value = n mod 2 ^ w /\ mask = Z.ones w
  | None => value = 0 /\ mask = 0
  end.

(** An IPv4 field: an unreadable text selects nothing. *)
Definition ip_field (o : option json) (value mask : Z) : Prop :=
  match o with
  | Some j => match parseIpv4WithMaskOrPrefix j with
              | Ret (Some (a, m)) => value = a /\ mask = m
              | Ret None => value = 0 /\ mask = 0
              | Throw _ => False
              end
  | None => value = 0 /\ mask = 0
  end.

Definition match_denotes (m : json) (v mk : FlowKey) : Prop :=
  num_field 32 (firstPresent m ["in_port"]) (inPort v) (inPort mk) /\
  num_field 16 (firstPresent m ["eth_type"; "dl_type"]) (ethType v) (ethType mk) /\
  num_field 8 (firstPresent m ["ip_proto"; "nw_proto"]) (ipProto v) (ipProto mk) /\
  ip_field (firstPresent m ["ipv4_src"; "nw_src"]) (ipv4Src v) (ipv4Src mk) /\
  ip_field (firstPresent m ["ipv4_dst"; "nw_dst"]) (ipv4Dst v) (ipv4Dst mk) /\
  num_field 16 (lastPresent m ["tcp_src"; "udp_src"; "tp_src"]) (tpSrc v) (tpSrc mk) /\
  num_field 16 (lastPresent m ["tcp_dst"; "udp_dst"; "tp_dst"]) (tpDst v) (tpDst mk) /\
  num_field 16 (firstPresent m ["vlan_vid"]) (vlanTci v) (vlanTci mk) /\
  num_field 64 (firstPresent m ["metadata"]) (metadata v) (metadata mk).

Lemma onFirst_firstPresent m ks f st :
  onFirst m ks f st = match firstPresent m ks with Some j => f j st | None => Ret st end.
Proof.
  induction ks as [|k ks IH]; simpl; [done|]. rewrite IH.
  unfold contains, jat, jfind. destruct m; simpl; try done.
  destruct (assoc k l); simpl; done.
Qed.

Lemma lor_land_255 x : Z.lor (Z.land x 255) 255 = 255.
Proof.
  apply Z.bits_inj'. intros i Hi. rewrite Z.lor_spec, Z.land_spec. btauto.
Qed.

Lemma lor_byte_255 x : fits 8 x -> Z.lor x 255 = 255.
Proof.
  intros Hx. transitivity (Z.lor (Z.land x 255) 255); [|apply lor_land_255]. f_equal.
  change 255 with (Z.ones 8). rewrite Z.land_ones by lia. symmetry. by apply Z.mod_small.
Qed.

Lemma lor_land_255_r x y : Z.lor (Z.land x 255) (Z.land y 255) = Z.land (Z.lor x y) 255.
Proof. symmetry. apply Z.land_lor_distr_l. Qed.

(** A setter writes its value and selects its whole field. *)
Definition num_setter (w : Z) (set : Z -> FlowKey -> FlowKey)
    (f : json -> MatchState -> outcome MatchState) : Prop :=
  forall j mk v st', wf_key mk -> f j (packKey mk, v) = Ret st' ->
    exists n, parseU64 j = Ret n /\ st' = (packKey (set (Z.ones w) mk), set (n mod 2 ^ w) v).

Ltac solve_setter :=
  intros j mk v st' Hwf H;
  unfold setInPort, setEthType, setIpProto, setTpSrc, setTpDst, setVlan, setMetadata, obind in H;
  destruct (parseU64 j) as [n|] eqn:E; [|done];
  exists n; split; [done|]; injection H as <-; f_equal;
  rewrite !packKey_layout; cbn -[Z.land Z.lor Z.shiftr Z.of_nat Z.mul];
  rewrite ?lor_land_255; try reflexivity.

Lemma setInPort_spec : num_setter 32 set_inPort setInPort.
Proof. solve_setter. Qed.
Lemma setEthType_spec : num_setter 16 set_ethType setEthType.
Proof. solve_setter. Qed.
Lemma setIpProto_spec : num_setter 8 set_ipProto setIpProto.
Proof. solve_setter. rewrite lor_byte_255; [done|]. unfold wf_key in Hwf. tauto. Qed.
Lemma setTpSrc_spec : num_setter 16 set_tpSrc setTpSrc.
Proof. solve_setter. Qed.
Lemma setTpDst_spec : num_setter 16 set_tpDst setTpDst.
Proof. solve_setter. Qed.
Lemma setVlan_spec : num_setter 16 set_vlanTci setVlan.
Proof. solve_setter. Qed.

Lemma parseU64_range j n : parseU64 j = Ret n -> fits 64 n.
Proof.
  destruct j; cbn -[stoull u64]; intros H; try done; try (injection H as <-; apply fits_u64).
  eapply stoull_range; [|exact H]. by destruct (starts_0x _).
Qed.

Lemma setMetadata_spec : num_setter 64 set_metadata setMetadata.
Proof.
  intros j mk v st' Hwf H. unfold setMetadata, obind in H.
  destruct (parseU64 j) as [n|] eqn:E; [|done]. injection H as <-.
  exists n. split; [done|]. apply parseU64_range in E. by rewrite (Z.mod_small n).
Qed.

(** The addresses and masks a text can denote fit 32 bits. *)
Lemma parseIpv4AddrHost_range s a : parseIpv4AddrHost s = Some a -> fits 32 a.
Proof.
  unfold parseIpv4AddrHost. destruct (inet_pton s) as [os|] eqn:E; [|done].
  intros [= <-]. apply inet_pton_octets in E as [Hl HF].
  destruct os as [|a [|b [|c [|d [|]]]]]; try done.
  decompose_Forall_hyps. unfold is_byte, fits, be_value in *.
  cbn [foldl]. change (2 ^ 32) with 4294967296. lia.
Qed.

Lemma prefixMask_range p : fits 32 (prefixMask p).
Proof. unfold prefixMask. repeat case_bool_decide; [by apply fits_0|done|apply fits_u32]. Qed.

Lemma parseIpv4_range j a m : parseIpv4WithMaskOrPrefix j = Ret (Some (a, m)) -> fits 32 a /\ fits 32 m.
Proof.
  unfold parseIpv4WithMaskOrPrefix. destruct j; try done.
  destruct (match split_at_char slash s with Some _ => _ | None => _ end) as [ipStr maskStr].
  destruct (parseIpv4AddrHost ipStr) as [addr|] eqn:Ha; [|done].
  apply parseIpv4AddrHost_range in Ha.
  case_bool_decide; [intros [= <- <-]; done|].
  destruct (isAllDigits maskStr).
  { destruct (stoi maskStr) as [p|]; [|done]. cbn [obind].
    destruct (_ || _); [done|]. intros [= <- <-]. auto using prefixMask_range. }
  destruct (starts_0x maskStr).
  { destruct (stoull 16 maskStr); [|done]. intros [= <- <-]. auto using fits_u32. }
  destruct (parseIpv4AddrHost maskStr) as [m'|] eqn:Hm; [|done].
  intros [= <- <-]. eauto using parseIpv4AddrHost_range.
Qed.

Lemma applyIpv4Masked_spec isSrc j mk v st' :
  applyIpv4Masked isSrc j (packKey mk, v) = Ret st' ->
  (parseIpv4WithMaskOrPrefix j = Ret None /\ st' = (packKey mk, v)) \/
  (exists a m, parseIpv4WithMaskOrPrefix j = Ret (Some (a, m)) /\
     st' = if isSrc then (packKey (set_ipv4Src (Z.lor (ipv4Src mk) m) mk), set_ipv4Src a v)
           else (packKey (set_ipv4Dst (Z.lor (ipv4Dst mk) m) mk), set_ipv4Dst a v)).
Proof.
  unfold applyIpv4Masked, obind.
  destruct (parseIpv4WithMaskOrPrefix j) as [[[a m]|]|]; intros H; simplify_eq; [right|by left].
  exists a, m. split; [done|].
  destruct isSrc; f_equal; rewrite !packKey_layout; cbn -[Z.land Z.lor Z.shiftr Z.of_nat Z.mul];
    by rewrite !lor_land_255_r, <- !Z.shiftr_lor.
Qed.

(** Applying one [if]/[else if] group of a numeric field. *)
Lemma onFirst_num w set f m ks mk v st' :
  num_setter w set f -> wf_key mk -> onFirst m ks f (packKey mk, v) = Ret st' ->
  match firstPresent m ks with
  | Some j => exists n, parseU64 j = Ret n /\ st' = (packKey (set (Z.ones w) mk), set (n mod 2 ^ w) v)
  | None => st' = (packKey mk, v)
  end.
Proof.
  intros Hf Hwf. rewrite onFirst_firstPresent.
  destruct (firstPresent m ks); [by apply Hf|]. by intros [= <-].
Qed.

(** A field of [FlowKey] with its width: reading back and preservation of well-formedness. *)
Class FieldLens (w : Z) (get : FlowKey -> Z) (set : Z -> FlowKey -> FlowKey) := {
  lens_set_get : forall k, set (get k) k = k;
  lens_wf : forall x k, fits w x -> wf_key k -> wf_key (set x k);
  lens_fits : forall k, wf_key k -> fits w (get k);
  lens_width : 0 <= w
}.

Ltac solve_lens :=
  split; [by intros [] | intros ? ? ? ?; unfold wf_key in *; destruct_and!; by split_and!
         | unfold wf_key; intros ? ?; by destruct_and! | done].

#[local] Instance lens_inPort : FieldLens 32 inPort set_inPort.
Proof. solve_lens. Qed.
#[local] Instance lens_ethType : FieldLens 16 ethType set_ethType.
Proof. solve_lens. Qed.
#[local] Instance lens_ipProto : FieldLens 8 ipProto set_ipProto.
Proof. solve_lens. Qed.
#[local] Instance lens_ipv4Src : FieldLens 32 ipv4Src set_ipv4Src.
Proof. solve_lens. Qed.
#[local] Instance lens_ipv4Dst : FieldLens 32 ipv4Dst set_ipv4Dst.
Proof. solve_lens. Qed.
#[local] Instance lens_tpSrc : FieldLens 16 tpSrc set_tpSrc.
Proof. solve_lens. Qed.
#[local] Instance lens_tpDst : FieldLens 16 tpDst set_tpDst.
Proof. solve_lens. Qed.
#[local] Instance lens_vlanTci : FieldLens 16 vlanTci set_vlanTci.
Proof. solve_lens. Qed.
#[local] Instance lens_metadata : FieldLens 64 metadata set_metadata.
Proof. solve_lens. Qed.

(** The new value and mask of a field after one group, from the old ones. *)
Definition num_upd (w : Z) (o : option json) (y x y0 x0 : Z) : Prop :=
  match o with
  | Some j => exists n, parseU64 j = Ret n /\ y = n mod 2 ^ w /\ x = Z.ones w
  | None => y = y0 /\ x = x0
  end.

Lemma fits_ones w : 0 <= w -> fits w (Z.ones w).
Proof. intros. rewrite Z.ones_equiv. pose proof (Z.pow_pos_nonneg 2 w). unfold fits. lia. Qed.

Lemma fits_mod w n : 0 <= w -> fits w (n mod 2 ^ w).
Proof. intros. apply Z.mod_pos_bound, Z.pow_pos_nonneg; lia. Qed.

Lemma onFirst_num_upd w get set `{!FieldLens w get set} f m ks mk v st' :
  num_setter w set f -> wf_key mk -> wf_key v -> onFirst m ks f (packKey mk, v) = Ret st' ->
  exists x y, st' = (packKey (set x mk), set y v) /\ wf_key (set x mk) /\ wf_key (set y v) /\
              num_upd w (firstPresent m ks) y x (get v) (get mk).
Proof.
  intros Hf Hmk Hv H%(onFirst_num w set); [|done..]. unfold num_upd.
  destruct (firstPresent m ks) as [j|].
  - destruct H as (n & Hn & ->). exists (Z.ones w), (n mod 2 ^ w).
    pose proof lens_width. split; [done|].
    split_and!; [apply lens_wf; [by apply fits_ones|done]|apply lens_wf; [by apply fits_mod|done]|].
    eauto.
  - subst. exists (get mk), (get v). rewrite !lens_set_get. done.
Qed.

Lemma onFirst_ip (isSrc : bool) m ks mk v st' :
  wf_key mk -> wf_key v -> (if isSrc then ipv4Src mk = 0 /\ ipv4Src v = 0 else ipv4Dst mk = 0 /\ ipv4Dst v = 0) ->
  onFirst m ks (applyIpv4Masked isSrc) (packKey mk, v) = Ret st' ->
  exists x y,
    st' = (if isSrc then (packKey (set_ipv4Src x mk), set_ipv4Src y v)
           else (packKey (set_ipv4Dst x mk), set_ipv4Dst y v)) /\
    fits 32 x /\ fits 32 y /\ ip_field (firstPresent m ks) y x.
Proof.
  intros Hmk Hv H0. rewrite onFirst_firstPresent. unfold ip_field.
  assert (forall b, (if b : bool then (packKey (set_ipv4Src (ipv4Src mk) mk), set_ipv4Src (ipv4Src v) v)
           else (packKey (set_ipv4Dst (ipv4Dst mk) mk), set_ipv4Dst (ipv4Dst v) v)) = (packKey mk, v)) as Hid
    by (intros []; by destruct mk, v).
  destruct (firstPresent m ks) as [j|].
  - intros [[-> ->]|(a & mm & Hp & ->)]%applyIpv4Masked_spec.
    + exists 0, 0. rewrite <- (Hid isSrc). destruct isSrc, H0 as [-> ->]; split_and!; by try apply fits_0.
    + rewrite Hp. apply parseIpv4_range in Hp as [??]. exists mm, a.
      destruct isSrc, H0 as [-> _]; rewrite Z.lor_0_l; by split_and!.
  - intros [= <-]. exists 0, 0. rewrite <- (Hid isSrc).
    destruct isSrc, H0 as [-> ->]; split_and!; by try apply fits_0.
Qed.

Lemma wf_set_addresses k x y :
  wf_key k -> fits 32 x -> fits 32 y -> wf_key (set_ipv4Dst x (set_ipv4Src y k)).
Proof. intros. apply (lens_wf (set := set_ipv4Dst)), (lens_wf (set := set_ipv4Src)); done. Qed.

(** Three successive groups over single keys leave the field of the last present key. *)
Lemma num_upd_last3 w m k1 k2 k3 y1 x1 y2 x2 y3 x3 :
  num_upd w (firstPresent m [k1]) y1 x1 0 0 ->
  num_upd w (firstPresent m [k2]) y2 x2 y1 x1 ->
  num_upd w (firstPresent m [k3]) y3 x3 y2 x2 ->
  num_field w (lastPresent m [k1; k2; k3]) y3 x3.
Proof.
  unfold num_upd, num_field, lastPresent. simpl.
  destruct (jfind m k3), (jfind m k2), (jfind m k1); intros; destruct_and?; subst; done.
Qed.

(** One group of the chain: splits the bind and names the new field values. *)
Ltac num_step H U get set spec :=
  let Hi := fresh "Hi" in let st := fresh "st" in
  apply obind_ret in H as (st & Hi & H);
  eapply (onFirst_num_upd _ get set) in Hi as (?x & ?y & -> & ? & ? & U); [|apply spec|done|done].

(** The whole chain: the mask bytes are a packed field mask, and value and mask of every field
    are those the match object denotes. *)
Lemma buildMaskAndValueFromMatch_denotes m mb v :
  buildMaskAndValueFromMatch m = Ret (mb, v) ->
  exists mk, mb = packKey mk /\ wf_key mk /\ wf_key v /\ match_denotes m v mk.
Proof.
  unfold buildMaskAndValueFromMatch.
  change zeroBytes with (packKey emptyFlowKey).
  assert (wf_key emptyFlowKey) as Hwf by (unfold wf_key; split_and!; by apply fits_0).
  intros H. num_step H U1 inPort set_inPort setInPort_spec.
  num_step H U2 ethType set_ethType setEthType_spec.
  num_step H U3 ipProto set_ipProto setIpProto_spec.
  apply obind_ret in H as (st4 & Hip4 & H).
  apply onFirst_ip in Hip4 as (x4 & y4 & -> & ? & ? & U4); [|done..].
  apply obind_ret in H as (st5 & Hip5 & H).
  apply onFirst_ip in Hip5 as (x5 & y5 & -> & ? & ? & U5); [|by try apply lens_wf..].
  set (mk5 := set_ipv4Dst x5 _) in H. set (v5 := set_ipv4Dst y5 _) in H.
  assert (wf_key mk5) by (by apply wf_set_addresses).
  assert (wf_key v5) by (by apply wf_set_addresses).
  num_step H U6 tpSrc set_tpSrc setTpSrc_spec. num_step H U7 tpDst set_tpDst setTpDst_spec.
  num_step H U8 tpSrc set_tpSrc setTpSrc_spec. num_step H U9 tpDst set_tpDst setTpDst_spec.
  num_step H U10 tpSrc set_tpSrc setTpSrc_spec. num_step H U11 tpDst set_tpDst setTpDst_spec.
  num_step H U12 vlanTci set_vlanTci setVlan_spec.
  eapply (onFirst_num_upd _ metadata set_metadata) in H as (?x & ?y & [= -> ->] & ? & ? & U13);
    [|apply setMetadata_spec|done|done].
  eexists. split; [done|]. split; [done|]. split; [done|].
  unfold match_denotes; split_and!; try assumption; eapply num_upd_last3; eassumption.
Qed.
