(* ===== verification/ClassifierTables.v ===== *)
(** Classifier, part 3: the mask-grouped tables, mark-and-sweep update and lookup
    (src/src/ndt_core/collection/Classifier.cpp, lines 305-464 and 1079-1429).

    Pointers.  A [Rule*] is the [RuleId] of a live object of [rulesById], which owns the rules;
    a [const Mask*] is an interned mask index; a [Subtable*] is the mask it is filed under in its
    table.  Reading through a pointer that is not live yields a default, and the invariant of
    ClassifierInvariant.v shows that no operation ever does.

    [std::unordered_map] iteration order is unspecified in C++; the model iterates in the order
    of stdpp's maps, and [std::sort] is a merge sort.  No theorem depends on either choice beyond
    the result being a sorted permutation. *)

From S2P Require Import Prelude Bytes CStrings Json ClassifierKey ClassifierParse.

Record Rule := {
  r_id : RuleId;
  r_tableId : Z;
  r_priority : Z;
  r_mask : MaskPtr;
  r_maskedValue : KeyBytes;
  r_effect : RuleEffect;
  r_lastSeenEpoch : Z;
  r_subtable : option MaskPtr;
  r_bucketKey : KeyBytes
}.

Abbreviation RulePtr := RuleId.

Record Subtable := {
  st_mask : MaskPtr;
  st_maxPriority : Z;
  st_buckets : gmap KeyBytes (list RulePtr)
}.

Record TableClassifier := {
  byMask : gmap MaskPtr Subtable;
  subtablesByPriority : list MaskPtr;
  priorityOrderDirty : bool
}.

Record SwitchClassifier := {
  tables : gmap Z TableClassifier;
  rulesById : gmap RuleId Rule;
  epoch : Z
}.

Record Impl := {
  maskIntern : MaskIntern;
  switches : gmap Z SwitchClassifier
}.

Definition emptyTable : TableClassifier := Build_TableClassifier ∅ [] true.
Definition emptySwitch : SwitchClassifier := Build_SwitchClassifier ∅ ∅ 0.
Definition emptyImpl : Impl := Build_Impl emptyIntern ∅.

(** [r->priority]. *)
Definition priorityOf (rs : gmap RuleId Rule) (r : RulePtr) : Z :=
  match rs !! r with Some x => r_priority x | None => 0 end.

Definition recomputeMaxPriority (rs : gmap RuleId Rule) (st : Subtable) : Subtable :=
  let mp := map_fold (fun _ b mp => match b with
                                     | [] => mp
                                     | r :: _ => Z.max (priorityOf rs r) mp
                                     end) (-1) (st_buckets st) in
  {| st_mask := st_mask st; st_maxPriority := mp; st_buckets := st_buckets st |}.

Definition getOrCreateSubtable (tc : TableClassifier) (mask : MaskPtr) : TableClassifier * Subtable :=
  match byMask tc !! mask with
  | Some st => (tc, st)
  | None =>
      let st := {| st_mask := mask; st_maxPriority := -1; st_buckets := ∅ |} in
      ({| byMask := <[mask := st]> (byMask tc);
          subtablesByPriority := subtablesByPriority tc; priorityOrderDirty := true |}, st)
  end.

(** [a->maxPriority > b->maxPriority] decides the order; equals stay unordered. *)
Definition higherFirst (a b : MaskPtr * Subtable) : Prop :=
  st_maxPriority b.2 <= st_maxPriority a.2.

#[export] Instance higherFirst_dec a b : Decision (higherFirst a b).
Proof. unfold higherFirst. apply _. Defined.

Definition rebuildPriorityOrderIfNeeded (tc : TableClassifier) : TableClassifier :=
  if priorityOrderDirty tc then
    {| byMask := byMask tc;
       subtablesByPriority := (merge_sort higherFirst (map_to_list (byMask tc))).*1;
       priorityOrderDirty := false |}
  else tc.

Definition getTable (sw : SwitchClassifier) (tableId : Z) : TableClassifier :=
  default emptyTable (tables sw !! tableId).

Definition set_placement (sub : option MaskPtr) (key : KeyBytes) (r : Rule) : Rule := {|
  r_id := r_id r; r_tableId := r_tableId r; r_priority := r_priority r; r_mask := r_mask r;
  r_maskedValue := r_maskedValue r; r_effect := r_effect r; r_lastSeenEpoch := r_lastSeenEpoch r;
  r_subtable := sub; r_bucketKey := key |}.

Definition set_seen (e : Z) (r : Rule) : Rule := {|
  r_id := r_id r; r_tableId := r_tableId r; r_priority := r_priority r; r_mask := r_mask r;
  r_maskedValue := r_maskedValue r; r_effect := r_effect r; r_lastSeenEpoch := e;
  r_subtable := r_subtable r; r_bucketKey := r_bucketKey r |}.

(** [vec.insert(lower_bound(vec, r, by priority descending), r)]: before the first rule whose
    priority is not greater. *)
Fixpoint bucketInsert (rs : gmap RuleId Rule) (r : RulePtr) (l : list RulePtr) : list RulePtr :=
  match l with
  | [] => [r]
  | a :: l' => if bool_decide (priorityOf rs r < priorityOf rs a)
               then a :: bucketInsert rs r l' else r :: a :: l'
  end.

Definition insertRuleIntoTables (sw : SwitchClassifier) (p : RulePtr) : SwitchClassifier :=
  match rulesById sw !! p with
  | None => sw
  | Some r =>
      let '(tc, st) := getOrCreateSubtable (getTable sw (r_tableId r)) (r_mask r) in
      let bucketKey := r_maskedValue r in
      let bucket := bucketInsert (rulesById sw) p (default [] (st_buckets st !! bucketKey)) in
      let mp := match bucket with
                | [] => st_maxPriority st
                | f :: _ => Z.max (st_maxPriority st) (priorityOf (rulesById sw) f)
                end in
      let st' := {| st_mask := st_mask st; st_maxPriority := mp;
                    st_buckets := <[bucketKey := bucket]> (st_buckets st) |} in
      let tc' := {| byMask := <[r_mask r := st']> (byMask tc);
                    subtablesByPriority := subtablesByPriority tc; priorityOrderDirty := true |} in
      {| tables := <[r_tableId r := tc']> (tables sw);
         rulesById := <[p := set_placement (Some (r_mask r)) bucketKey r]> (rulesById sw);
         epoch := epoch sw |}
  end.

(** [vec.erase(find(vec, r))]. *)
Fixpoint eraseFirst (p : RulePtr) (l : list RulePtr) : list RulePtr :=
  match l with
  | [] => []
  | a :: l' => if bool_decide (a = p) then l' else a :: eraseFirst p l'
  end.

Definition removeFromBuckets (p : RulePtr) (key : KeyBytes) (bs : gmap KeyBytes (list RulePtr))
    : gmap KeyBytes (list RulePtr) :=
  match bs !! key with
  | None => bs
  | Some vec =>
      if bool_decide (p ∈ vec) then
        match eraseFirst p vec with
        | [] => delete key bs
        | vec' => <[key := vec']> bs
        end
      else bs
  end.

Definition removeRuleFromTables (sw : SwitchClassifier) (p : RulePtr) : SwitchClassifier :=
  match rulesById sw !! p with
  | None => sw
  | Some r =>
      match r_subtable r with
      | None => sw
      | Some m =>
          let tc := getTable sw (r_tableId r) in
          match byMask tc !! m with
          | None => sw
          | Some st =>
              let st1 := {| st_mask := st_mask st; st_maxPriority := st_maxPriority st;
                            st_buckets := removeFromBuckets p (r_bucketKey r) (st_buckets st) |} in
              let st2 := recomputeMaxPriority (rulesById sw) st1 in
              let tc' := {| byMask := <[m := st2]> (byMask tc);
                            subtablesByPriority := subtablesByPriority tc;
                            priorityOrderDirty := true |} in
              {| tables := <[r_tableId r := tc']> (tables sw);
                 rulesById := <[p := set_placement None zeroBytes r]> (rulesById sw);
                 epoch := epoch sw |}
          end
      end
  end.

Definition ruleOfParsed (pr : ParsedRule) (e : Z) : Rule := {|
  r_id := pr_id pr; r_tableId := pr_tableId pr; r_priority := pr_priority pr;
  r_mask := pr_mask pr; r_maskedValue := pr_maskedValue pr; r_effect := pr_effect pr;
  r_lastSeenEpoch := e; r_subtable := None; r_bucketKey := zeroBytes |}.

(** [make_unique] puts the new object where its pointer can be followed; [rulesById.emplace]
    then only transfers ownership, so both are the one insertion below. *)
Definition upsertRule (sw : SwitchClassifier) (pr : ParsedRule) : SwitchClassifier :=
  match rulesById sw !! pr_id pr with
  | None =>
      let r := ruleOfParsed pr (epoch sw) in
      insertRuleIntoTables
        {| tables := tables sw; rulesById := <[pr_id pr := r]> (rulesById sw); epoch := epoch sw |}
        (pr_id pr)
  | Some r =>
      {| tables := tables sw; rulesById := <[pr_id pr := set_seen (epoch sw) r]> (rulesById sw);
         epoch := epoch sw |}
  end.

(** The upsert loop: an exception leaves the rules already applied in place. *)
Fixpoint upsertAll (flows : list json) (mi : MaskIntern) (sw : SwitchClassifier)
    : MaskIntern * SwitchClassifier * outcome unit :=
  match flows with
  | [] => (mi, sw, Ret tt)
  | flow :: flows' =>
      let '(mi', r) := parseRuleFromJson flow mi in
      match r with
      | Throw e => (mi', sw, Throw e)
      | Ret pr => upsertAll flows' mi' (upsertRule sw pr)
      end
  end.

Definition toDelete (sw : SwitchClassifier) : list RuleId :=
  (filter (fun kr : RuleId * Rule => r_lastSeenEpoch kr.2 <> epoch sw) (map_to_list (rulesById sw))).*1.

Definition sweepOne (sw : SwitchClassifier) (rid : RuleId) : SwitchClassifier :=
  match rulesById sw !! rid with
  | None => sw
  | Some _ =>
      let sw' := removeRuleFromTables sw rid in
      {| tables := tables sw'; rulesById := delete rid (rulesById sw'); epoch := epoch sw' |}
  end.

Definition sweep (sw : SwitchClassifier) : SwitchClassifier := foldl sweepOne sw (toDelete sw).

Definition rebuildAll (sw : SwitchClassifier) : SwitchClassifier :=
  {| tables := rebuildPriorityOrderIfNeeded <$> tables sw; rulesById := rulesById sw;
     epoch := epoch sw |}.

Definition updateOneSwitch (dpid : Z) (flowArray : list json) : run Impl unit := fun im =>
  let sw := default emptySwitch (switches im !! dpid) in
  let sw1 := {| tables := tables sw; rulesById := rulesById sw; epoch := u64 (epoch sw + 1) |} in
  match upsertAll flowArray (maskIntern im) sw1 with
  | (mi, sw2, Throw e) => ({| maskIntern := mi; switches := <[dpid := sw2]> (switches im) |}, Throw e)
  | (mi, sw2, Ret _) =>
      ({| maskIntern := mi; switches := <[dpid := rebuildAll (sweep sw2)]> (switches im) |}, Ret tt)
  end.

Fixpoint updateSwitchList (l : list json) : run Impl unit := fun im =>
  match l with
  | [] => (im, Ret tt)
  | sw :: l' =>
      match (let! d := jat sw "dpid" in let! dpid := parseU64 d in
             let! flowNode := jat sw "flows" in Ret (dpid, flowNode)) with
      | Throw e => (im, Throw e)
      | Ret (dpid, flowNode) =>
          match extractFlowArray flowNode dpid with
          | Some (JArray flows) =>
              match updateOneSwitch dpid flows im with
              | (im', Throw e) => (im', Throw e)
              | (im', Ret _) => updateSwitchList l' im'
              end
          | _ => updateSwitchList l' im
          end
      end
  end.

Definition updateFromQueriedTables (newTables : json) : run Impl unit := fun im =>
  match newTables with
  | JArray l => updateSwitchList l im
  | _ => (im, Ret tt)
  end.

(** ** Lookup *)

Fixpoint scanSubtables (mi : MaskIntern) (rs : gmap RuleId Rule) (bm : gmap MaskPtr Subtable)
    (keyBytes : KeyBytes) (sts : list MaskPtr) (best : option RulePtr) (bestPriority : Z)
    : option RulePtr :=
  match sts with
  | [] => best
  | p :: sts' =>
      match bm !! p with
      | None => scanSubtables mi rs bm keyBytes sts' best bestPriority
      | Some st =>
          if bool_decide (st_maxPriority st < bestPriority) then best
          else
            let maskedKey := bitAnd keyBytes (maskBytesOf mi (st_mask st)) in
            match st_buckets st !! maskedKey with
            | Some (cand :: _) =>
                if bool_decide (bestPriority < priorityOf rs cand)
                then scanSubtables mi rs bm keyBytes sts' (Some cand) (priorityOf rs cand)
                else scanSubtables mi rs bm keyBytes sts' best bestPriority
            | _ => scanSubtables mi rs bm keyBytes sts' best bestPriority
            end
      end
  end.

Definition lookupInTableNoLock (mi : MaskIntern) (sw : SwitchClassifier) (tableId : Z)
    (key : FlowKey) : option RulePtr :=
  match tables sw !! tableId with
  | None => None
  | Some tc => scanSubtables mi (rulesById sw) (byMask tc) (packKey key)
                 (subtablesByPriority tc) None (-1)
  end.

Definition lookup_ (im : Impl) (dpid : Z) (key : FlowKey) (tableId : Z) : option RuleEffect :=
  match switches im !! dpid with
  | None => None
  | Some sw =>
      match lookupInTableNoLock (maskIntern im) sw tableId key with
      | None => None
      | Some p => r_effect <$> rulesById sw !! p
      end
  end.

Definition knowsSwitch (im : Impl) (dpid : Z) : bool := bool_decide (is_Some (switches im !! dpid)).

Definition getRuleCount (im : Impl) (dpid : Z) : nat :=
  match switches im !! dpid with None => 0 | Some sw => size (rulesById sw) end.
