(* ===== verification/ClassifierInvariant.v ===== *)
(** Classifier, part 4: the representation invariant of a switch's tables and its preservation
    by every mutation.

    [wf_switch] says: every bucket is non-empty, duplicate-free, sorted by descending priority
    and holds live rules of exactly its table, mask and masked value; every stored rule sits in
    the bucket its placement fields name; a subtable's [maxPriority] bounds its rules; and a
    table that is not marked dirty lists exactly its subtables, in descending [maxPriority]. *)

From S2P Require Import Prelude Bytes CStrings Json ClassifierKey ClassifierParse ClassifierTables.

(** * Definitions *)

(** Everything about a rule that lookups and identity depend on. *)
Definition same_core (r r' : Rule) : Prop :=
  r_id r = r_id r' /\ r_tableId r = r_tableId r' /\ r_priority r = r_priority r' /\
  r_mask r = r_mask r' /\ r_maskedValue r = r_maskedValue r' /\ r_effect r = r_effect r'.

Definition rule_in (rs : gmap RuleId Rule) (tid : Z) (p : MaskPtr) (key : KeyBytes) (rid : RuleId) : Prop :=
  exists r, rs !! rid = Some r /\ r_tableId r = tid /\ r_mask r = p /\ r_maskedValue r = key.

Definition desc (rs : gmap RuleId Rule) (a b : RulePtr) : Prop := priorityOf rs b <= priorityOf rs a.

Record wf_bucket (rs : gmap RuleId Rule) tid p key (b : list RulePtr) : Prop := {
  bk_ne : b <> [];
  bk_nodup : NoDup b;
  bk_sorted : StronglySorted (desc rs) b;
  bk_rules : Forall (rule_in rs tid p key) b
}.

Record wf_subtable (rs : gmap RuleId Rule) tid p (st : Subtable) : Prop := {
  sb_mask : st_mask st = p;
  sb_buckets : forall key b, st_buckets st !! key = Some b -> wf_bucket rs tid p key b;
  sb_max : forall key b rid, st_buckets st !! key = Some b -> rid ∈ b ->
    priorityOf rs rid <= st_maxPriority st
}.

Definition maxOf (bm : gmap MaskPtr Subtable) (p : MaskPtr) : Z := from_option st_maxPriority (-1) (bm !! p).

Definition order_ok (tc : TableClassifier) : Prop :=
  (forall p, p ∈ subtablesByPriority tc <-> is_Some (byMask tc !! p)) /\
  StronglySorted (fun a b => maxOf (byMask tc) b <= maxOf (byMask tc) a) (subtablesByPriority tc).

Record wf_table (rs : gmap RuleId Rule) tid (tc : TableClassifier) : Prop := {
  tb_sub : forall p st, byMask tc !! p = Some st -> wf_subtable rs tid p st;
  tb_order : priorityOrderDirty tc = false -> order_ok tc
}.

Definition bucketAt (tbls : gmap Z TableClassifier) tid p key : list RulePtr :=
  match tbls !! tid with
  | Some tc => match byMask tc !! p with
               | Some st => default [] (st_buckets st !! key)
               | None => []
               end
  | None => []
  end.

Definition wf_rule (tbls : gmap Z TableClassifier) (rid : RuleId) (r : Rule) : Prop :=
  r_id r = rid /\ r_subtable r = Some (r_mask r) /\ r_bucketKey r = r_maskedValue r /\
  rid ∈ bucketAt tbls (r_tableId r) (r_mask r) (r_maskedValue r).

Record wf_switch (sw : SwitchClassifier) : Prop := {
  ws_tables : forall tid tc, tables sw !! tid = Some tc -> wf_table (rulesById sw) tid tc;
  ws_rules : forall rid r, rulesById sw !! rid = Some r -> wf_rule (tables sw) rid r
}.

(** * Changing the rule store under fixed tables *)

Definition agree_on (P : RuleId -> Prop) (rs rs' : gmap RuleId Rule) : Prop :=
  forall rid r, P rid -> rs !! rid = Some r -> exists r', rs' !! rid = Some r' /\ same_core r r'.

Lemma StronglySorted_impl_in {A} (R R' : A -> A -> Prop) l :
  (forall a b, a ∈ l -> b ∈ l -> R a b -> R' a b) -> StronglySorted R l -> StronglySorted R' l.
Proof.
  intros H. induction 1 as [|a l Hl IH Ha]; constructor.
  - apply IH. intros. apply H; [by right..|done].
  - rewrite Forall_forall in *. intros x Hx. apply H; [by left|by right|by apply Ha].
Qed.

Lemma priorityOf_agree P rs rs' rid r :
  agree_on P rs rs' -> P rid -> rs !! rid = Some r -> priorityOf rs' rid = priorityOf rs rid.
Proof.
  intros HA HP Hr. destruct (HA rid r HP Hr) as (r' & Hr' & Hc).
  unfold priorityOf. rewrite Hr, Hr'. symmetry. apply Hc.
Qed.

Lemma rule_in_agree P rs rs' tid p key rid :
  agree_on P rs rs' -> P rid -> rule_in rs tid p key rid -> rule_in rs' tid p key rid.
Proof.
  intros HA HP (r & Hr & <- & <- & <-). destruct (HA rid r HP Hr) as (r' & Hr' & Hc).
  unfold same_core in Hc. destruct_and!. exists r'. by split_and!.
Qed.

Lemma wf_bucket_agree rs rs' tid p key b :
  agree_on (fun rid => rid ∈ b) rs rs' -> wf_bucket rs tid p key b -> wf_bucket rs' tid p key b.
Proof.
  intros HA [Hne Hnd Hs Hr]. rewrite Forall_forall in Hr. split; [done..| |].
  - eapply StronglySorted_impl_in; [|exact Hs]. unfold desc. intros a c Ha Hc Hle.
    destruct (Hr a Ha) as (ra & Hra & _), (Hr c Hc) as (rc & Hrc & _).
    by rewrite (priorityOf_agree _ _ _ _ _ HA Ha Hra), (priorityOf_agree _ _ _ _ _ HA Hc Hrc).
  - apply Forall_forall. intros rid Hin. eapply rule_in_agree; eauto.
Qed.

Definition in_subtable (st : Subtable) (rid : RuleId) : Prop :=
  exists key b, st_buckets st !! key = Some b /\ rid ∈ b.

Lemma wf_subtable_agree rs rs' tid p st :
  agree_on (in_subtable st) rs rs' -> wf_subtable rs tid p st -> wf_subtable rs' tid p st.
Proof.
  intros HA [Hm Hb Hmax]. split; [done| |].
  - intros key b Hkb. eapply wf_bucket_agree; [|by apply Hb].
    intros rid r Hin. apply HA. by exists key, b.
  - intros key b rid Hkb Hin. pose proof (bk_rules _ _ _ _ _ (Hb _ _ Hkb)) as HF.
    rewrite Forall_forall in HF. destruct (HF rid Hin) as (r & Hr & _).
    rewrite (priorityOf_agree _ _ _ _ _ HA (ex_intro _ key (ex_intro _ b (conj Hkb Hin))) Hr). eauto.
Qed.

(** * Replacing one subtable *)

(** The tables after [tables[tid].byMask[p] = st'] with the order marked dirty. *)
Definition put_subtable (sw : SwitchClassifier) (tid : Z) (p : MaskPtr) (st' : Subtable)
    : gmap Z TableClassifier :=
  <[tid := {| byMask := <[p := st']> (byMask (getTable sw tid));
              subtablesByPriority := subtablesByPriority (getTable sw tid);
              priorityOrderDirty := true |}]> (tables sw).

Lemma bucketAt_put sw tid p st' tid0 p0 key0 :
  bucketAt (put_subtable sw tid p st') tid0 p0 key0 =
  if decide (tid0 = tid /\ p0 = p) then default [] (st_buckets st' !! key0)
  else bucketAt (tables sw) tid0 p0 key0.
Proof.
  unfold bucketAt, put_subtable, getTable. rewrite lookup_insert.
  destruct (decide (tid = tid0)) as [->|]; simpl.
  - rewrite lookup_insert. destruct (decide (p = p0)) as [->|].
    + rewrite decide_True by done. done.
    + rewrite decide_False by naive_solver.
      destruct (tables sw !! tid0); simpl; [done|]. by rewrite lookup_empty.
  - rewrite decide_False by naive_solver. done.
Qed.

(** The old subtables that stay, with the table they belong to. *)
Definition other_subtable (sw : SwitchClassifier) (tid : Z) (p : MaskPtr) tid0 p0 st0 : Prop :=
  (exists tc0, tables sw !! tid0 = Some tc0 /\ byMask tc0 !! p0 = Some st0) /\ ~ (tid0 = tid /\ p0 = p).

Lemma put_subtable_wf sw rs' tid p st' :
  wf_switch sw ->
  (forall tid0 p0 st0, other_subtable sw tid p tid0 p0 st0 -> wf_subtable rs' tid0 p0 st0) ->
  wf_subtable rs' tid p st' ->
  forall tid0 tc0, put_subtable sw tid p st' !! tid0 = Some tc0 -> wf_table rs' tid0 tc0.
Proof.
  intros Hwf Hother Hst tid0 tc0. unfold put_subtable. rewrite lookup_insert.
  destruct (decide (tid = tid0)) as [->|Hne]; intros Htc; simplify_eq.
  - split; [|done]. simpl. intros p0 st0. rewrite lookup_insert.
    destruct (decide (p = p0)) as [->|]; intros; simplify_eq; [done|].
    apply Hother. split; [|naive_solver]. unfold getTable in *.
    destruct (tables sw !! tid0) as [tc|] eqn:E; simpl in *; [by exists tc|].
    by rewrite lookup_empty in *.
  - pose proof (ws_tables _ Hwf _ _ Htc) as [_ Hord]. split; [|done].
    intros p0 st0 Hp0. apply Hother. split; [by exists tc0|naive_solver].
Qed.

(** * Bucket operations *)

Lemma bucketInsert_perm rs p l : bucketInsert rs p l ≡ₚ p :: l.
Proof.
  induction l as [|a l IH]; simpl; [done|]. case_bool_decide; [|done].
  rewrite IH. apply Permutation_swap.
Qed.

Lemma bucketInsert_sorted rs p l :
  StronglySorted (desc rs) l -> StronglySorted (desc rs) (bucketInsert rs p l).
Proof.
  induction 1 as [|a l Hl IH Ha]; simpl; [repeat constructor|]. case_bool_decide as Hlt.
  - constructor; [done|]. rewrite bucketInsert_perm. constructor; [unfold desc; lia|done].
  - constructor; [by constructor|]. constructor; [unfold desc in *; lia|].
    eapply Forall_impl; [exact Ha|]. unfold desc. intros x ?; simpl in *. lia.
Qed.

Lemma bucketInsert_ne rs p l : bucketInsert rs p l <> [].
Proof. destruct l; simpl; [done|]. by case_bool_decide. Qed.

Lemma desc_front rs f l x : StronglySorted (desc rs) (f :: l) -> x ∈ f :: l -> priorityOf rs x <= priorityOf rs f.
Proof.
  intros [HF _]%StronglySorted_cons. rewrite Forall_forall in HF.
  intros [->|?]%elem_of_cons; [lia|by apply HF].
Qed.

Lemma eraseFirst_elem p l x : NoDup l -> x ∈ eraseFirst p l <-> x ∈ l /\ x <> p.
Proof.
  induction 1 as [|a l Ha Hnd IH]; simpl; [set_solver|]. case_bool_decide as E; [subst; set_solver|].
  rewrite !elem_of_cons, IH. set_solver.
Qed.

Lemma eraseFirst_sublist p l : eraseFirst p l `sublist_of` l.
Proof. induction l as [|a l IH]; simpl; [done|]. case_bool_decide; [by constructor|by constructor]. Qed.

Lemma StronglySorted_sublist {A} (R : A -> A -> Prop) l k :
  l `sublist_of` k -> StronglySorted R k -> StronglySorted R l.
Proof.
  induction 1 as [|x l k Hs IH|x l k Hs IH]; intros HS; [done| |].
  - apply StronglySorted_cons in HS as [HF HS]. constructor; [auto|].
    rewrite Forall_forall in *. intros y Hy. apply HF. eapply elem_of_submseteq; [done|].
    by apply sublist_submseteq.
  - apply StronglySorted_cons in HS as [_ HS]. auto.
Qed.

Lemma recomputeMaxPriority_bound rs st key f l :
  st_buckets st !! key = Some (f :: l) ->
  priorityOf rs f <= st_maxPriority (recomputeMaxPriority rs st).
Proof.
  unfold recomputeMaxPriority; simpl. revert key f l.
  apply (map_fold_weak_ind (fun mp (m : gmap KeyBytes (list RulePtr)) =>
    forall key f l, m !! key = Some (f :: l) -> priorityOf rs f <= mp)).
  - intros key f l. by rewrite lookup_empty.
  - intros k b m mp Hk IH key f l. rewrite lookup_insert. destruct (decide (k = key)) as [->|].
    + intros [= ->]. lia.
    + intros Hm%IH. destruct b; lia.
Qed.

Lemma removeFromBuckets_lookup p key bs vec key0 :
  bs !! key = Some vec -> p ∈ vec ->
  removeFromBuckets p key bs !! key0 =
  if decide (key0 = key) then (if decide (eraseFirst p vec = []) then None else Some (eraseFirst p vec))
  else bs !! key0.
Proof.
  intros Hk Hp. unfold removeFromBuckets. rewrite Hk, bool_decide_true by done.
  destruct (eraseFirst p vec) eqn:E; destruct (decide (key0 = key)) as [->|].
  - by rewrite lookup_delete_eq.
  - by rewrite lookup_delete_ne.
  - by rewrite lookup_insert_eq.
  - by rewrite lookup_insert_ne.
Qed.

(** * Insertion of a new rule *)

Lemma rule_placement_unique sw tid p key rid r :
  wf_switch sw -> rulesById sw !! rid = Some r -> rid ∈ bucketAt (tables sw) tid p key ->
  tid = r_tableId r /\ p = r_mask r /\ key = r_maskedValue r.
Proof.
  intros Hwf Hr. unfold bucketAt.
  destruct (tables sw !! tid) as [tc|] eqn:Ht; [|set_solver].
  destruct (byMask tc !! p) as [st|] eqn:Hp; [|set_solver].
  destruct (st_buckets st !! key) as [b|] eqn:Hb; [|set_solver]. simpl. intros Hin.
  pose proof (bk_rules _ _ _ _ _ (sb_buckets _ _ _ _ (tb_sub _ _ _ (ws_tables _ Hwf _ _ Ht) _ _ Hp) _ _ Hb)) as HF.
  rewrite Forall_forall in HF. destruct (HF rid Hin) as (r' & Hr' & <- & <- & <-). simplify_eq. done.
Qed.

Lemma bucketAt_live sw tid p key rid :
  wf_switch sw -> rid ∈ bucketAt (tables sw) tid p key -> is_Some (rulesById sw !! rid).
Proof.
  intros Hwf. unfold bucketAt.
  destruct (tables sw !! tid) as [tc|] eqn:Ht; [|set_solver].
  destruct (byMask tc !! p) as [st|] eqn:Hp; [|set_solver].
  destruct (st_buckets st !! key) as [b|] eqn:Hb; [|set_solver]. simpl. intros Hin.
  pose proof (bk_rules _ _ _ _ _ (sb_buckets _ _ _ _ (tb_sub _ _ _ (ws_tables _ Hwf _ _ Ht) _ _ Hp) _ _ Hb)) as HF.
  rewrite Forall_forall in HF. destruct (HF rid Hin) as (r' & Hr' & _). eauto.
Qed.

(** A new rule in the store, before it is placed. *)
Definition with_rule (sw : SwitchClassifier) (r : Rule) : SwitchClassifier :=
  {| tables := tables sw; rulesById := <[r_id r := r]> (rulesById sw); epoch := epoch sw |}.

Definition subtableAt (sw : SwitchClassifier) tid p : Subtable :=
  default {| st_mask := p; st_maxPriority := -1; st_buckets := ∅ |} (byMask (getTable sw tid) !! p).

Lemma subtableAt_bucket sw tid p key : default [] (st_buckets (subtableAt sw tid p) !! key) = bucketAt (tables sw) tid p key.
Proof.
  unfold subtableAt, bucketAt, getTable. destruct (tables sw !! tid) as [tc|]; simpl.
  - destruct (byMask tc !! p); simpl; [done|]. by rewrite lookup_empty.
  - rewrite lookup_empty. simpl. by rewrite lookup_empty.
Qed.

Lemma subtableAt_wf sw tid p : wf_switch sw -> wf_subtable (rulesById sw) tid p (subtableAt sw tid p).
Proof.
  intros Hwf. unfold subtableAt, getTable. destruct (tables sw !! tid) as [tc|] eqn:Ht; simpl.
  - destruct (byMask tc !! p) as [st|] eqn:Hp; simpl.
    + eapply tb_sub; [|done]. by eapply ws_tables.
    + split; [done|..]; simpl; intros ??; by rewrite lookup_empty.
  - rewrite lookup_empty. split; [done|..]; simpl; intros ??; by rewrite lookup_empty.
Qed.

(** Insertion in closed form: one subtable is replaced, the rule records its placement. *)
Definition inserted_subtable (sw : SwitchClassifier) (r : Rule) : Subtable :=
  let rs := <[r_id r := r]> (rulesById sw) in
  let st := subtableAt sw (r_tableId r) (r_mask r) in
  let bucket := bucketInsert rs (r_id r) (bucketAt (tables sw) (r_tableId r) (r_mask r) (r_maskedValue r)) in
  {| st_mask := st_mask st;
     st_maxPriority := Z.max (st_maxPriority st) (priorityOf rs (default (r_id r) (head bucket)));
     st_buckets := <[r_maskedValue r := bucket]> (st_buckets st) |}.

Lemma insertRuleIntoTables_eq sw r :
  insertRuleIntoTables (with_rule sw r) (r_id r) =
  {| tables := put_subtable sw (r_tableId r) (r_mask r) (inserted_subtable sw r);
     rulesById := <[r_id r := set_placement (Some (r_mask r)) (r_maskedValue r) r]> (rulesById sw);
     epoch := epoch sw |}.
Proof.
  unfold insertRuleIntoTables, with_rule, put_subtable, inserted_subtable. simpl.
  rewrite lookup_insert_eq. unfold getOrCreateSubtable. rewrite <- subtableAt_bucket.
  unfold subtableAt, getTable at 1; simpl. fold (getTable sw (r_tableId r)).
  change (default emptyTable (tables sw !! r_tableId r)) with (getTable sw (r_tableId r)).
  destruct (byMask (getTable sw (r_tableId r)) !! r_mask r) as [st|] eqn:E; simpl.
  - rewrite insert_insert_eq. f_equal. f_equal. f_equal. f_equal. f_equal.
    destruct (bucketInsert _ _ _) eqn:Eb; [|done]. by apply bucketInsert_ne in Eb.
  - rewrite !insert_insert_eq, lookup_empty. done.
Qed.

Lemma same_core_refl r : same_core r r.
Proof. by repeat split. Qed.

Lemma agree_insert_fresh P rs rid r : rs !! rid = None -> agree_on P rs (<[rid := r]> rs).
Proof.
  intros Hn rid0 r0 _ Hr0. exists r0. rewrite lookup_insert_ne by congruence. by split.
Qed.

(** The bucket a new rule joins stays well formed. *)
Lemma inserted_bucket_wf sw r r2 :
  wf_switch sw -> rulesById sw !! r_id r = None -> same_core r r2 ->
  wf_bucket (<[r_id r := r2]> (rulesById sw)) (r_tableId r) (r_mask r) (r_maskedValue r)
    (bucketInsert (<[r_id r := r]> (rulesById sw)) (r_id r)
       (bucketAt (tables sw) (r_tableId r) (r_mask r) (r_maskedValue r))).
Proof.
  intros Hwf Hn Hc. set (old := bucketAt _ _ _ _). set (rs1 := <[r_id r := r]> (rulesById sw)).
  assert (agree_on (fun _ => True) rs1 (<[r_id r := r2]> (rulesById sw))) as HA.
  { intros rid0 r0 _. unfold rs1. rewrite !lookup_insert. case_decide; [|eauto using same_core_refl].
    intros [= <-]. eauto. }
  eapply wf_bucket_agree; [intros ???; by apply HA|].
  assert (forall b, b = old -> b <> [] -> wf_bucket (rulesById sw) (r_tableId r) (r_mask r) (r_maskedValue r) b) as Hold.
  { intros b -> Hne. eapply sb_buckets; [by apply subtableAt_wf|].
    unfold old in *. rewrite <- subtableAt_bucket in *.
    destruct (st_buckets (subtableAt _ _ _) !! _); [done|]. by simpl in Hne. }
  assert (r_id r ∉ old) as Hfresh.
  { intros Hin. apply bucketAt_live in Hin as [? ?]; [congruence|done]. }
  assert (rule_in rs1 (r_tableId r) (r_mask r) (r_maskedValue r) (r_id r)) as Hself.
  { exists r. unfold rs1. by rewrite lookup_insert_eq. }
  destruct (decide (old = [])) as [->|Hne].
  { simpl. split; [done|by apply NoDup_singleton|by repeat constructor|by apply Forall_singleton]. }
  specialize (Hold _ eq_refl Hne). eapply (wf_bucket_agree _ rs1) in Hold; [|by apply agree_insert_fresh].
  destruct Hold as [_ Hnd Hs HF]. split.
  - apply bucketInsert_ne.
  - rewrite bucketInsert_perm. by constructor.
  - by apply bucketInsert_sorted.
  - rewrite bucketInsert_perm. by constructor.
Qed.

Lemma inserted_subtable_wf sw r r2 :
  wf_switch sw -> rulesById sw !! r_id r = None -> same_core r r2 ->
  wf_subtable (<[r_id r := r2]> (rulesById sw)) (r_tableId r) (r_mask r) (inserted_subtable sw r).
Proof.
  intros Hwf Hn Hc. pose proof (subtableAt_wf sw (r_tableId r) (r_mask r) Hwf) as Hst.
  eapply (wf_subtable_agree _ (<[r_id r := r2]> (rulesById sw))) in Hst; [|by apply agree_insert_fresh].
  pose proof (inserted_bucket_wf sw r r2 Hwf Hn Hc) as Hb.
  destruct Hst as [Hm Hbk Hmax]. unfold inserted_subtable. split; simpl; [done| |].
  - intros key b. rewrite lookup_insert. case_decide; [subst|by apply Hbk]. by intros [= <-].
  - intros key b rid. rewrite lookup_insert. case_decide as Hk.
    + subst key. intros [= <-] Hin. apply Z.max_le_iff. right.
      destruct (bucketInsert _ _ _) as [|f l] eqn:Eb; [by apply bucketInsert_ne in Eb|]. simpl.
      pose proof (desc_front _ _ _ _ (bk_sorted _ _ _ _ _ Hb) Hin) as Hle.
      assert (forall x, priorityOf (<[r_id r := r2]> (rulesById sw)) x
                        = priorityOf (<[r_id r := r]> (rulesById sw)) x) as Heq.
      { intros x. unfold priorityOf. rewrite !lookup_insert. case_decide; [|done]. symmetry. apply Hc. }
      rewrite !Heq in Hle. by rewrite Heq.
    + intros Hkb Hin. apply Z.max_le_iff. left. by eapply Hmax.
Qed.

Lemma insertRuleIntoTables_wf sw r :
  wf_switch sw -> rulesById sw !! r_id r = None ->
  wf_switch (insertRuleIntoTables (with_rule sw r) (r_id r)).
Proof.
  intros Hwf Hn. rewrite insertRuleIntoTables_eq.
  set (r2 := set_placement _ _ r). assert (same_core r r2) as Hc by by repeat split.
  split; simpl.
  - apply put_subtable_wf; [done| |by apply inserted_subtable_wf].
    intros tid0 p0 st0 [(tc0 & Ht & Hp) _].
    eapply wf_subtable_agree; [by apply agree_insert_fresh|].
    eapply tb_sub; [|done]. by eapply ws_tables.
  - intros rid r0. rewrite lookup_insert. case_decide as Hid.
    + subst rid. intros [= <-]. split_and!; [done..|]. rewrite bucketAt_put, decide_True by done.
      simpl. rewrite lookup_insert_eq. simpl. rewrite bucketInsert_perm. by left.
    + intros Hr0. destruct (ws_rules _ Hwf _ _ Hr0) as (H1 & H2 & H3 & H4). split_and!; [done..|].
      rewrite bucketAt_put. case_decide as Hpl; [|done]. destruct Hpl as [Ht Hm].
      simpl. rewrite lookup_insert. case_decide as Hk; simpl.
      * rewrite bucketInsert_perm. right. by rewrite <- Ht, <- Hm, Hk.
      * rewrite subtableAt_bucket. by rewrite <- Ht, <- Hm.
Qed.

(** * Marking a rule as seen *)

Lemma set_seen_wf sw rid r e :
  wf_switch sw -> rulesById sw !! rid = Some r ->
  wf_switch {| tables := tables sw; rulesById := <[rid := set_seen e r]> (rulesById sw); epoch := epoch sw |}.
Proof.
  intros Hwf Hr. split; simpl.
  - intros tid tc Ht. destruct (ws_tables _ Hwf _ _ Ht) as [Hs Ho]. split; [|done].
    intros p st Hp. eapply wf_subtable_agree; [|by apply Hs].
    intros rid0 r0 _ Hr0. rewrite lookup_insert. case_decide; [|eauto using same_core_refl].
    simplify_eq. eexists; split; [done|]. by repeat split.
  - intros rid0 r0. rewrite lookup_insert. case_decide; [|by apply (ws_rules _ Hwf)].
    intros [= <-]. subst. exact (ws_rules _ Hwf _ _ Hr).
Qed.

Lemma upsertRule_wf sw pr : wf_switch sw -> wf_switch (upsertRule sw pr).
Proof.
  intros Hwf. unfold upsertRule. destruct (rulesById sw !! pr_id pr) as [r|] eqn:Hr.
  - by apply set_seen_wf.
  - exact (insertRuleIntoTables_wf sw (ruleOfParsed pr (epoch sw)) Hwf Hr).
Qed.

(** * Removal *)

Definition removed_subtable (sw : SwitchClassifier) (rid : RuleId) (r : Rule) : Subtable :=
  let st := subtableAt sw (r_tableId r) (r_mask r) in
  recomputeMaxPriority (rulesById sw)
    {| st_mask := st_mask st; st_maxPriority := st_maxPriority st;
       st_buckets := removeFromBuckets rid (r_maskedValue r) (st_buckets st) |}.

(** The sweep of one rule in closed form. *)
Lemma sweepOne_eq sw rid r :
  wf_switch sw -> rulesById sw !! rid = Some r ->
  sweepOne sw rid =
  {| tables := put_subtable sw (r_tableId r) (r_mask r) (removed_subtable sw rid r);
     rulesById := delete rid (rulesById sw); epoch := epoch sw |}.
Proof.
  intros Hwf Hr. destruct (ws_rules _ Hwf _ _ Hr) as (_ & Hsub & Hkey & Hin).
  unfold sweepOne, removeRuleFromTables. rewrite Hr, Hsub, Hkey.
  unfold removed_subtable, put_subtable, subtableAt.
  assert (exists st, byMask (getTable sw (r_tableId r)) !! r_mask r = Some st) as [st Hst].
  { unfold getTable. unfold bucketAt in Hin.
    destruct (tables sw !! r_tableId r) as [tc|]; [|set_solver]. simpl.
    destruct (byMask tc !! r_mask r); [eauto|set_solver]. }
  rewrite Hst. simpl. by rewrite delete_insert_eq.
Qed.

(** The bucket the rule is taken out of. *)
Lemma removed_bucket sw rid r :
  wf_switch sw -> rulesById sw !! rid = Some r ->
  exists vec, st_buckets (subtableAt sw (r_tableId r) (r_mask r)) !! r_maskedValue r = Some vec /\
              rid ∈ vec /\ NoDup vec.
Proof.
  intros Hwf Hr. destruct (ws_rules _ Hwf _ _ Hr) as (_ & _ & _ & Hin).
  rewrite <- subtableAt_bucket in Hin.
  destruct (st_buckets (subtableAt _ _ _) !! _) as [vec|] eqn:E; simpl in Hin; [|set_solver].
  exists vec. split_and!; [done..|]. eapply bk_nodup, sb_buckets; [by apply subtableAt_wf|done].
Qed.

Lemma agree_delete (P : RuleId -> Prop) rs rid : ~ P rid -> agree_on P rs (delete rid rs).
Proof.
  intros Hn rid0 r0 HP Hr0. exists r0. rewrite lookup_delete_ne by congruence. eauto using same_core_refl.
Qed.

Lemma removed_subtable_wf sw rid r :
  wf_switch sw -> rulesById sw !! rid = Some r ->
  wf_subtable (delete rid (rulesById sw)) (r_tableId r) (r_mask r) (removed_subtable sw rid r).
Proof.
  intros Hwf Hr. pose proof (subtableAt_wf sw (r_tableId r) (r_mask r) Hwf) as [Hm Hbk _].
  destruct (removed_bucket sw rid r Hwf Hr) as (vec & Hvec & Hin & Hnd).
  set (st1 := removed_subtable sw rid r).
  assert (forall key b, st_buckets st1 !! key = Some b ->
            wf_bucket (rulesById sw) (r_tableId r) (r_mask r) key b /\ rid ∉ b) as Hb1.
  { intros key b. simpl. rewrite (removeFromBuckets_lookup _ _ _ vec) by done.
    case_decide as Hk; [subst; case_decide as He; [done|]|]; intros Hb; simplify_eq.
    - destruct (Hbk _ _ Hvec) as [_ _ Hs HF]. split.
      + split; [done|eapply sublist_NoDup; [exact Hnd|apply eraseFirst_sublist]
               |by eapply StronglySorted_sublist; [apply eraseFirst_sublist|]|].
        rewrite Forall_forall in *. intros x Hx. apply HF. by apply eraseFirst_elem in Hx as [? _].
      + rewrite eraseFirst_elem by done. naive_solver.
    - split; [by apply Hbk|]. intros Hin'.
      destruct (Hbk _ _ Hb) as [_ _ _ HF]. rewrite Forall_forall in HF.
      destruct (HF _ Hin') as (r' & Hr' & _ & _ & <-). congruence. }
  assert (agree_on (in_subtable st1) (rulesById sw) (delete rid (rulesById sw))) as HA.
  { apply agree_delete. intros (key & b & Hkb & Hin'). by destruct (Hb1 _ _ Hkb). }
  apply (wf_subtable_agree (rulesById sw)); [done|]. split; [done|by intros; apply Hb1|].
  intros key b x Hkb Hx. destruct (Hb1 _ _ Hkb) as [[Hne _ Hs _] _].
  destruct b as [|f l]; [done|]. etransitivity; [by eapply desc_front|].
  by eapply (recomputeMaxPriority_bound (rulesById sw)).
Qed.

Lemma sweepOne_wf sw rid : wf_switch sw -> wf_switch (sweepOne sw rid).
Proof.
  intros Hwf. destruct (rulesById sw !! rid) as [r|] eqn:Hr;
    [|unfold sweepOne; by rewrite Hr].
  rewrite (sweepOne_eq _ _ _ Hwf Hr). split; simpl.
  - apply put_subtable_wf; [done| |by apply removed_subtable_wf].
    intros tid0 p0 st0 [(tc0 & Ht & Hp) Hne].
    eapply wf_subtable_agree; [|eapply tb_sub; [by eapply ws_tables|done]].
    apply agree_delete. intros (key & b & Hkb & Hin). apply Hne.
    destruct (rule_placement_unique sw tid0 p0 key rid r Hwf Hr) as (-> & -> & _); [|done].
    unfold bucketAt. by rewrite Ht, Hp, Hkb.
  - intros rid0 r0. rewrite lookup_delete. case_decide as Hid; [done|]. intros Hr0.
    destruct (ws_rules _ Hwf _ _ Hr0) as (H1 & H2 & H3 & H4). split_and!; [done..|].
    rewrite bucketAt_put. case_decide as Hpl; [|done]. destruct Hpl as [Ht Hm].
    destruct (removed_bucket sw rid r Hwf Hr) as (vec & Hvec & Hin & Hnd). simpl.
    rewrite (removeFromBuckets_lookup _ _ _ vec) by done. rewrite Ht, Hm, <- subtableAt_bucket in H4.
    case_decide as Hk; [|done]. rewrite Hk, Hvec in H4. simpl in H4.
    assert (rid0 ∈ eraseFirst rid vec) as Hin0 by (apply eraseFirst_elem; [done|split; congruence]).
    case_decide as He; [rewrite He in Hin0; set_solver|done].
Qed.

Lemma sweep_wf sw : wf_switch sw -> wf_switch (sweep sw).
Proof.
  unfold sweep. generalize (toDelete sw). intros l. revert sw.
  induction l as [|rid l IH]; simpl; intros sw Hwf; [done|]. by apply IH, sweepOne_wf.
Qed.

(** * Rebuilding the order *)

#[local] Instance higherFirst_total : Total higherFirst.
Proof. intros a b. unfold higherFirst. lia. Qed.
#[local] Instance higherFirst_trans : Transitive higherFirst.
Proof. intros a b c. unfold higherFirst. lia. Qed.

Lemma StronglySorted_fmap {A B} (f : A -> B) (R : B -> B -> Prop) l :
  StronglySorted (fun a b => R (f a) (f b)) l -> StronglySorted R (f <$> l).
Proof.
  induction 1 as [|a l Hl IH Ha]; simpl; constructor; [done|]. by apply Forall_fmap.
Qed.

Lemma rebuild_order_ok tc : order_ok (rebuildPriorityOrderIfNeeded tc) \/ priorityOrderDirty tc = false.
Proof.
  unfold rebuildPriorityOrderIfNeeded. destruct (priorityOrderDirty tc); [left|by right].
  unfold order_ok; simpl. split.
  - intros p. rewrite list_elem_of_fmap. setoid_rewrite merge_sort_Permutation. split.
    + intros ([? st] & -> & Hin). apply elem_of_map_to_list in Hin. eauto.
    + intros [st Hst]. exists (p, st). by rewrite elem_of_map_to_list.
  - apply StronglySorted_fmap.
    eapply StronglySorted_impl_in; [|apply StronglySorted_merge_sort; apply _].
    intros [p1 s1] [p2 s2]. rewrite !merge_sort_Permutation, !elem_of_map_to_list.
    unfold higherFirst, maxOf. simpl. intros -> -> ?. simpl in *. done.
Qed.

Lemma rebuild_wf rs tid tc : wf_table rs tid tc -> wf_table rs tid (rebuildPriorityOrderIfNeeded tc).
Proof.
  intros [Hs Ho]. destruct (rebuild_order_ok tc) as [Hok|Hd].
  - split; [|done]. unfold rebuildPriorityOrderIfNeeded. by destruct (priorityOrderDirty tc).
  - unfold rebuildPriorityOrderIfNeeded. rewrite Hd. by split.
Qed.

Lemma rebuildAll_wf sw : wf_switch sw -> wf_switch (rebuildAll sw).
Proof.
  intros Hwf. split; simpl.
  - intros tid tc. rewrite lookup_fmap. intros (tc0 & Ht & ->)%fmap_Some.
    apply rebuild_wf. by eapply ws_tables.
  - intros rid r Hr. destruct (ws_rules _ Hwf _ _ Hr) as (H1 & H2 & H3 & H4). split_and!; [done..|].
    unfold bucketAt in *. rewrite lookup_fmap. destruct (tables sw !! r_tableId r) as [tc|]; [|done].
    simpl. unfold rebuildPriorityOrderIfNeeded. by destruct (priorityOrderDirty tc).
Qed.

(** Every table of a rebuilt switch is clean. *)
Definition clean (sw : SwitchClassifier) : Prop :=
  forall tid tc, tables sw !! tid = Some tc -> priorityOrderDirty tc = false.

Lemma rebuildAll_clean sw : clean (rebuildAll sw).
Proof.
  intros tid tc. simpl. rewrite lookup_fmap. intros (tc0 & Ht & ->)%fmap_Some.
  unfold rebuildPriorityOrderIfNeeded. by destruct (priorityOrderDirty tc0) eqn:E.
Qed.
