(* ===== verification/ClassifierLookup.v ===== *)
(** Classifier, part 5: the hashed, pruned lookup implements highest-priority matching.

    The reference semantics is a specification over the flat set of stored rules: a result is a
    rule of the table that matches the key and whose priority no matching rule of the table
    exceeds; there is no result exactly when every matching rule has a negative priority. *)

From S2P Require Import Prelude Bytes CStrings Json ClassifierKey ClassifierParse.
From S2P Require Import ClassifierTables ClassifierInvariant.

Definition rule_matches (mi : MaskIntern) (key : FlowKey) (r : Rule) : Prop :=
  bitAnd (packKey key) (maskBytesOf mi (r_mask r)) = r_maskedValue r.

#[export] Instance rule_matches_dec mi key r : Decision (rule_matches mi key r).
Proof. unfold rule_matches. apply _. Defined.

(** The abstract specification of a table lookup. *)
Definition is_best (mi : MaskIntern) (rs : gmap RuleId Rule) (tid : Z) (key : FlowKey)
    (o : option RulePtr) : Prop :=
  match o with
  | Some rid =>
      exists r, rs !! rid = Some r /\ r_tableId r = tid /\ rule_matches mi key r /\
        0 <= r_priority r /\
        forall rid' r', rs !! rid' = Some r' -> r_tableId r' = tid -> rule_matches mi key r' ->
          r_priority r' <= r_priority r
  | None => forall rid' r', rs !! rid' = Some r' -> r_tableId r' = tid ->
      rule_matches mi key r' -> r_priority r' < 0
  end.

Definition prioOpt (rs : gmap RuleId Rule) (o : option RulePtr) : Z :=
  match o with Some rid => priorityOf rs rid | None => -1 end.

(** The rules the scan may pick in subtable [p]. *)
Definition hit (mi : MaskIntern) (bm : gmap MaskPtr Subtable) (kb : KeyBytes) (p : MaskPtr)
    (rid : RulePtr) : Prop :=
  exists st b, bm !! p = Some st /\ st_buckets st !! bitAnd kb (maskBytesOf mi p) = Some b /\ rid ∈ b.

Section Scan.
  Context (mi : MaskIntern) (rs : gmap RuleId Rule) (tid : Z) (bm : gmap MaskPtr Subtable).
  Context (kb : KeyBytes).
  Hypothesis Hsub : forall p st, bm !! p = Some st -> wf_subtable rs tid p st.

Lemma hit_le_max p st rid : bm !! p = Some st -> hit mi bm kb p rid -> priorityOf rs rid <= st_maxPriority st.
Proof.
  intros Hp (st' & b & Hp' & Hb & Hin). simplify_eq. by eapply sb_max; [apply Hsub| |].
Qed.

Lemma scanSubtables_spec sts best bp :
  StronglySorted (fun a b => maxOf bm b <= maxOf bm a) sts ->
  (forall p, p ∈ sts -> is_Some (bm !! p)) ->
  bp = prioOpt rs best -> -1 <= bp ->
  let o := scanSubtables mi rs bm kb sts best bp in
  bp <= prioOpt rs o /\
  (forall p rid, p ∈ sts -> hit mi bm kb p rid -> priorityOf rs rid <= prioOpt rs o) /\
  (o = best \/ exists p rid, o = Some rid /\ -1 < priorityOf rs rid /\ p ∈ sts /\ hit mi bm kb p rid).
Proof.
  intros Hsorted Hlive. revert best bp.
  induction sts as [|p sts IH]; intros best bp Hbp Hlow; simpl; [split_and!; [lia|set_solver|by left]|].
  apply StronglySorted_cons in Hsorted as [HF Hsorted]. rewrite Forall_forall in HF.
  specialize (IH Hsorted ltac:(set_solver)).
  destruct (Hlive p ltac:(set_solver)) as [st Hst]. rewrite Hst.
  case_bool_decide as Hbreak.
  { split_and!; [lia| |by left]. intros q rid Hq Hhit.
    destruct (Hlive q Hq) as [stq Hstq]. pose proof (hit_le_max _ _ _ Hstq Hhit).
    apply elem_of_cons in Hq as [->|Hq]; [simplify_eq; lia|].
    specialize (HF q Hq). unfold maxOf in HF. rewrite Hst, Hstq in HF. simpl in HF. lia. }
  pose proof (Hsub _ _ Hst) as [Hm Hbk _]. rewrite Hm.
  (* a subtable without a better candidate leaves the search as it was *)
  assert ((forall rid, hit mi bm kb p rid -> priorityOf rs rid <= bp) ->
          let o := scanSubtables mi rs bm kb sts best bp in
          bp <= prioOpt rs o /\
          (forall q rid, q ∈ p :: sts -> hit mi bm kb q rid -> priorityOf rs rid <= prioOpt rs o) /\
          (o = best \/ exists q rid, o = Some rid /\ -1 < priorityOf rs rid /\ q ∈ p :: sts /\ hit mi bm kb q rid))
    as Hskip.
  { intros Hno. destruct (IH best bp Hbp Hlow) as (H1 & H2 & H3). split_and!; [done| |set_solver].
    intros q rid [->|Hq]%elem_of_cons Hh; [|by eapply H2]. specialize (Hno _ Hh). simpl in *. lia. }
  destruct (st_buckets st !! bitAnd kb (maskBytesOf mi p)) as [[|cand l]|] eqn:Hb.
  - apply Hskip. intros rid (st' & b & ? & ? & ?). simplify_eq. set_solver.
  - pose proof (bk_sorted _ _ _ _ _ (Hbk _ _ Hb)) as Hs.
    assert (forall rid, hit mi bm kb p rid -> priorityOf rs rid <= priorityOf rs cand) as Hc.
    { intros rid (st' & b & ? & ? & ?). simplify_eq. by eapply desc_front. }
    case_bool_decide as Hgt; [|apply Hskip; intros rid Hh; specialize (Hc rid Hh); lia].
    destruct (IH (Some cand) (priorityOf rs cand) eq_refl ltac:(lia)) as (H1 & H2 & H3).
    split_and!; [simpl in *; lia| |].
    + intros q rid [->|Hq]%elem_of_cons Hh; [|by eapply H2]. specialize (Hc _ Hh). simpl in *. lia.
    + right. destruct H3 as [->|(q & rid & H3 & ? & ? & ?)]; [|exists q, rid; set_solver].
      exists p, cand. split_and!; [done|lia|set_solver|]. exists st, (cand :: l). set_solver.
  - apply Hskip. intros rid (st' & b & ? & ? & ?). simplify_eq.
Qed.

End Scan.

Lemma lookupInTableNoLock_best mi sw tid key :
  wf_switch sw -> (forall tc, tables sw !! tid = Some tc -> priorityOrderDirty tc = false) ->
  is_best mi (rulesById sw) tid key (lookupInTableNoLock mi sw tid key).
Proof.
  intros Hwf Hclean. unfold lookupInTableNoLock.
  assert (forall rid r, rulesById sw !! rid = Some r -> r_tableId r = tid -> rule_matches mi key r ->
            exists tc, tables sw !! tid = Some tc /\ hit mi (byMask tc) (packKey key) (r_mask r) rid) as Hhit.
  { intros rid r Hr Ht Hm. destruct (ws_rules _ Hwf _ _ Hr) as (_ & _ & _ & Hin).
    unfold bucketAt in Hin. rewrite Ht in Hin.
    destruct (tables sw !! tid) as [tc|]; [|set_solver]. exists tc. split; [done|].
    destruct (byMask tc !! r_mask r) as [st|] eqn:Hp; [|set_solver].
    destruct (st_buckets st !! r_maskedValue r) as [b|] eqn:Hb; [|set_solver].
    exists st, b. by rewrite Hm. }
  destruct (tables sw !! tid) as [tc|] eqn:Ht; simpl.
  2:{ intros rid r Hr Hrt Hm. destruct (Hhit _ _ Hr Hrt Hm) as (? & ? & _). done. }
  pose proof (ws_tables _ Hwf _ _ Ht) as [Hsub Hord].
  destruct (Hord (Hclean _ eq_refl)) as [Hperm Hsorted].
  destruct (scanSubtables_spec mi (rulesById sw) tid (byMask tc) (packKey key) Hsub
              (subtablesByPriority tc) None (-1) Hsorted) as (_ & Hmax & Hres);
    [intros p; by rewrite Hperm|done|done|].
  set (o := scanSubtables _ _ _ _ _ _ _) in *.
  assert (forall rid r, rulesById sw !! rid = Some r -> r_tableId r = tid -> rule_matches mi key r ->
            r_priority r <= prioOpt (rulesById sw) o) as Hall.
  { intros rid r Hr Hrt Hm. destruct (Hhit _ _ Hr Hrt Hm) as (tc' & ? & Hh). simplify_eq.
    replace (r_priority r) with (priorityOf (rulesById sw) rid) by (unfold priorityOf; by rewrite Hr).
    eapply Hmax; [|done]. apply Hperm. destruct Hh as (st & ? & ? & _). eauto. }
  destruct Hres as [->|(p & rid & Ho & Hpos & _ & st & b & Hp & Hb & Hin)].
  { simpl. intros rid r Hr Hrt Hm. specialize (Hall _ _ Hr Hrt Hm). simpl in Hall. lia. }
  rewrite Ho in *. pose proof (bk_rules _ _ _ _ _ (sb_buckets _ _ _ _ (Hsub _ _ Hp) _ _ Hb)) as HF.
  rewrite Forall_forall in HF. destruct (HF _ Hin) as (r & Hr & Hrt & Hrm & Hrv).
  simpl in *. unfold priorityOf in *. rewrite Hr in *. exists r. split_and!; [done..| |lia|done].
  unfold rule_matches. by rewrite Hrm, Hrv.
Qed.
