(* ===== verification/ClassifierUpdate.v ===== *)
(** Classifier, part 6: what a poll does to the classifier.

    Every update, including one an exception cuts short, preserves the representation invariant;
    an update that completes leaves exactly the polled rules and a clean order. *)

From S2P Require Import Prelude Bytes CStrings Json ClassifierKey ClassifierParse.
From S2P Require Import ClassifierTables ClassifierInvariant ClassifierLookup.
Local Open Scope string_scope.
Local Open Scope Z_scope.

(** * Parsed rules *)

Definition heap_ext (mi mi' : MaskIntern) : Prop :=
  forall p b, maskHeap mi !! p = Some b -> maskHeap mi' !! p = Some b.

#[export] Instance heap_ext_preorder : PreOrder heap_ext.
Proof. split; [by intros mi p b|]. intros a b c H1 H2 p x Hx. by apply H2, H1. Qed.

(** What a flow entry matches, as field values and masks. *)
Definition flow_denotes (flow : json) (v mk : FlowKey) : Prop :=
  match jfind flow "match" with
  | Some (JObject l) => match_denotes (JObject l) v mk
  | _ => v = emptyFlowKey /\ mk = emptyFlowKey
  end.

(** A parsed rule carries the fields of its flow entry and the fingerprint over them. *)
Record parsed_ok (mi : MaskIntern) (flow : json) (pr : ParsedRule) : Prop := {
  po_fields : exists v mk, flow_denotes flow v mk /\ wf_key v /\ wf_key mk /\
    maskHeap mi !! pr_mask pr = Some (packKey mk) /\
    pr_maskedValue pr = bitAnd (packKey v) (packKey mk);
  po_id : pr_id pr = Build_RuleId (pr_tableId pr)
    (fingerprintRuleCore (maskBytesOf mi (pr_mask pr)) (pr_maskedValue pr) (pr_priority pr) (pr_effect pr));
  po_effect : parseEffectFromFlowEntry flow = Ret (pr_effect pr);
  po_table : match jfind flow "table_id" with
             | Some j => omap_out u8 (parseU64 j) = Ret (pr_tableId pr)
             | None => pr_tableId pr = 0
             end;
  po_priority : match jfind flow "priority" with
                | Some j => parseI32 j = Ret (pr_priority pr)
                | None => pr_priority pr = 0
                end
}.

Lemma maskBytesOf_ext mi mi' p b :
  heap_ext mi mi' -> maskHeap mi !! p = Some b -> maskBytesOf mi' p = maskBytesOf mi p.
Proof. intros He Hp. unfold maskBytesOf. by rewrite Hp, (He _ _ Hp). Qed.

Lemma parsed_ok_ext mi mi' flow pr : heap_ext mi mi' -> parsed_ok mi flow pr -> parsed_ok mi' flow pr.
Proof.
  intros He [(v & mk & ? & ? & ? & Hh & ?) Hid ? ? ?]. split; [|by rewrite (maskBytesOf_ext _ _ _ _ He Hh)|done..].
  exists v, mk. split_and!; [done..|by apply He|done].
Qed.

Lemma wf_emptyFlowKey : wf_key emptyFlowKey.
Proof. unfold wf_key; split_and!; by apply fits_0. Qed.

Lemma parseRuleFromJson_spec flow mi mi' res :
  wf_intern mi -> parseRuleFromJson flow mi = (mi', res) ->
  wf_intern mi' /\ heap_ext mi mi' /\ (forall pr, res = Ret pr -> parsed_ok mi' flow pr).
Proof.
  intros Hwf. unfold parseRuleFromJson.
  destruct (match jfind flow "table_id" with Some _ => _ | None => _ end) as [t|] eqn:Et;
    cbn [obind]; [|intros; simplify_eq; by split_and!].
  destruct (match jfind flow "priority" with Some _ => _ | None => _ end) as [p|] eqn:Ep;
    cbn [obind]; [|intros; simplify_eq; by split_and!].
  destruct (match jfind flow "match" with Some _ => _ | None => _ end) as [[mb v]|] eqn:Em;
    cbn [obind]; [|intros; simplify_eq; by split_and!].
  destruct (interMask mi mb) as [mi1 mask] eqn:Ei. intros [= <- <-].
  destruct (interMask_spec _ _ _ _ Hwf Ei) as (Hwf' & Hmask & He). split_and!; [done..|].
  intros pr Hpr. apply obind_ret in Hpr as (eff & Heff & [= <-]).
  assert (exists mk, mb = packKey mk /\ wf_key v /\ wf_key mk /\ flow_denotes flow v mk) as (mk & -> & ? & ? & ?).
  { unfold flow_denotes.
    destruct (jfind flow "match") as [[]|]; simplify_eq;
      try (exists emptyFlowKey; split_and!; first [reflexivity|apply wf_emptyFlowKey]).
    apply buildMaskAndValueFromMatch_denotes in Em as (mk & -> & ? & ? & ?). eauto 6. }
  split; simpl; [|done|done| |].
  - exists v, mk. split_and!; [done..|]. unfold maskBytesOf. by rewrite Hmask.
  - destruct (jfind flow "table_id"); [done|congruence].
  - destruct (jfind flow "priority"); [done|congruence].
Qed.

(** * The invariant of the whole classifier *)

(** The mask of a stored rule is allocated and its identity is the fingerprint of its core. *)
Definition rule_ok (mi : MaskIntern) (r : Rule) : Prop :=
  exists mb, maskHeap mi !! r_mask r = Some mb /\
    r_id r = Build_RuleId (r_tableId r)
      (fingerprintRuleCore mb (r_maskedValue r) (r_priority r) (r_effect r)).

Definition switch_ok (mi : MaskIntern) (sw : SwitchClassifier) : Prop :=
  wf_switch sw /\ forall rid r, rulesById sw !! rid = Some r -> rule_ok mi r.

Record wf_impl (im : Impl) : Prop := {
  wi_intern : wf_intern (maskIntern im);
  wi_switch : forall dpid sw, switches im !! dpid = Some sw -> switch_ok (maskIntern im) sw
}.

Lemma rule_ok_ext mi mi' r : heap_ext mi mi' -> rule_ok mi r -> rule_ok mi' r.
Proof. intros He (mb & Hm & Hid). exists mb. eauto. Qed.

Lemma switch_ok_ext mi mi' sw : heap_ext mi mi' -> switch_ok mi sw -> switch_ok mi' sw.
Proof. intros He [Hwf Hr]. split; [done|]. intros. eapply rule_ok_ext; eauto. Qed.

Lemma rule_ok_core mi r r' : same_core r r' -> rule_ok mi r -> rule_ok mi r'.
Proof.
  intros Hc (mb & Hm & Hid). unfold same_core in Hc. destruct_and!. exists mb. split; congruence.
Qed.

Lemma upsertRule_rules sw pr :
  rulesById (upsertRule sw pr) =
  <[pr_id pr := match rulesById sw !! pr_id pr with
                | Some r => set_seen (epoch sw) r
                | None => set_placement (Some (pr_mask pr)) (pr_maskedValue pr) (ruleOfParsed pr (epoch sw))
                end]> (rulesById sw).
Proof.
  unfold upsertRule. destruct (rulesById sw !! pr_id pr); [done|].
  pose proof (insertRuleIntoTables_eq sw (ruleOfParsed pr (epoch sw))) as Heq.
  unfold with_rule in Heq. simpl in Heq. by rewrite Heq.
Qed.

Lemma upsertRule_epoch sw pr : epoch (upsertRule sw pr) = epoch sw.
Proof.
  unfold upsertRule. destruct (rulesById sw !! pr_id pr); [done|].
  pose proof (insertRuleIntoTables_eq sw (ruleOfParsed pr (epoch sw))) as Heq.
  unfold with_rule in Heq. simpl in Heq. by rewrite Heq.
Qed.

Lemma upsertRule_ok mi flow sw pr : switch_ok mi sw -> parsed_ok mi flow pr -> switch_ok mi (upsertRule sw pr).
Proof.
  intros [Hwf Hok] Hpr. split; [by apply upsertRule_wf|].
  intros rid r. rewrite upsertRule_rules, lookup_insert. case_decide; [|by apply Hok].
  intros [= <-]. destruct (rulesById sw !! pr_id pr) as [r0|] eqn:Hr.
  - eapply rule_ok_core; [|by eapply Hok]. by repeat split.
  - destruct (po_fields _ _ _ Hpr) as (v & mk & _ & _ & _ & Hm & _).
    exists (packKey mk). split; [done|]. simpl. rewrite (po_id _ _ _ Hpr).
    unfold maskBytesOf. by rewrite Hm.
Qed.

(** The upsert loop in terms of the rules parsed so far. *)
Inductive parses : MaskIntern -> list json -> MaskIntern -> list ParsedRule -> outcome unit -> Prop :=
  | parses_nil mi : parses mi [] mi [] (Ret tt)
  | parses_throw mi mi' flow flows e :
      parseRuleFromJson flow mi = (mi', Throw e) -> parses mi (flow :: flows) mi' [] (Throw e)
  | parses_cons mi mi1 mi' flow flows pr prs res :
      parseRuleFromJson flow mi = (mi1, Ret pr) -> parses mi1 flows mi' prs res ->
      parses mi (flow :: flows) mi' (pr :: prs) res.

Lemma upsertAll_parses flows mi sw mi' sw' res :
  upsertAll flows mi sw = (mi', sw', res) ->
  exists prs, parses mi flows mi' prs res /\ sw' = foldl upsertRule sw prs.
Proof.
  revert mi sw. induction flows as [|flow flows IH]; simpl; intros mi sw H.
  - simplify_eq. exists []. split; [constructor|done].
  - destruct (parseRuleFromJson flow mi) as [mi1 [pr|e]] eqn:Ep.
    + apply IH in H as (prs & Hp & ->). exists (pr :: prs). split; [by econstructor|done].
    + simplify_eq. exists []. split; [by constructor|done].
Qed.

(** The parsing half of the loop as a function. *)
Fixpoint parseAll (flows : list json) (mi : MaskIntern) : MaskIntern * list ParsedRule * outcome unit :=
  match flows with
  | [] => (mi, [], Ret tt)
  | flow :: flows' =>
      match parseRuleFromJson flow mi with
      | (mi1, Throw e) => (mi1, [], Throw e)
      | (mi1, Ret pr) => let '(mi', prs, res) := parseAll flows' mi1 in (mi', pr :: prs, res)
      end
  end.

Lemma parses_parseAll mi flows mi' prs res :
  parses mi flows mi' prs res -> parseAll flows mi = (mi', prs, res).
Proof. induction 1 as [|???? ? E|??????? ? E ? IH]; simpl; [done|by rewrite E|by rewrite E, IH]. Qed.

(** Parsing threads the interning pool: the rules are all valid in the final one. *)
Lemma parses_ok mi flows mi' prs res :
  wf_intern mi -> parses mi flows mi' prs res ->
  wf_intern mi' /\ heap_ext mi mi' /\ Forall (fun pr => exists flow, flow ∈ flows /\ parsed_ok mi' flow pr) prs.
Proof.
  intros Hwf Hp. induction Hp as [|mi mi' flow flows e Ep|mi mi1 mi' flow flows pr prs res Ep Hp IH].
  - done.
  - destruct (parseRuleFromJson_spec _ _ _ _ Hwf Ep) as (? & ? & _). by split_and!.
  - destruct (parseRuleFromJson_spec _ _ _ _ Hwf Ep) as (Hwf1 & He & Hok).
    destruct (IH Hwf1) as (? & He' & HF). split_and!; [done|by transitivity mi1|]. constructor.
    + exists flow. split; [set_solver|]. eapply parsed_ok_ext; eauto.
    + eapply Forall_impl; [exact HF|]. simpl. set_solver.
Qed.

Lemma foldl_upsert_ok mi (flows : list json) prs sw :
  switch_ok mi sw -> Forall (fun pr => exists flow, flow ∈ flows /\ parsed_ok mi flow pr) prs ->
  switch_ok mi (foldl upsertRule sw prs).
Proof.
  intros Hok HF. revert sw Hok. induction HF as [|pr prs (flow & _ & Hpr) HF IH]; simpl; [done|].
  intros sw Hok. apply IH. eapply upsertRule_ok; eauto.
Qed.

Lemma sweepOne_rules sw rid : wf_switch sw -> rulesById (sweepOne sw rid) = delete rid (rulesById sw).
Proof.
  intros Hwf. destruct (rulesById sw !! rid) as [r|] eqn:Hr.
  - by rewrite (sweepOne_eq _ _ _ Hwf Hr).
  - unfold sweepOne. rewrite Hr. by rewrite delete_id.
Qed.

Lemma sweep_rules_aux l sw :
  wf_switch sw -> rulesById (foldl sweepOne sw l) = foldl (fun m rid => delete rid m) (rulesById sw) l.
Proof.
  revert sw. induction l as [|rid l IH]; simpl; intros sw Hwf; [done|].
  rewrite IH by (by apply sweepOne_wf). by rewrite sweepOne_rules.
Qed.

Lemma foldl_delete_lookup (l : list RuleId) (m : gmap RuleId Rule) rid :
  foldl (fun m rid => delete rid m) m l !! rid = if decide (rid ∈ l) then None else m !! rid.
Proof.
  revert m. induction l as [|x l IH]; simpl; intros m; [done|].
  rewrite IH, lookup_delete. repeat case_decide; set_solver.
Qed.

(** The sweep keeps exactly the rules stamped with the current epoch. *)
Lemma sweep_lookup sw rid :
  wf_switch sw -> rulesById (sweep sw) !! rid =
  match rulesById sw !! rid with
  | Some r => if decide (r_lastSeenEpoch r = epoch sw) then Some r else None
  | None => None
  end.
Proof.
  intros Hwf. unfold sweep. rewrite sweep_rules_aux, foldl_delete_lookup by done.
  assert (rid ∈ toDelete sw <-> exists r, rulesById sw !! rid = Some r /\ r_lastSeenEpoch r <> epoch sw) as Hd.
  { unfold toDelete. rewrite list_elem_of_fmap. split.
    - intros ([x r] & -> & [Hne Hin]%list_elem_of_filter). exists r. by rewrite elem_of_map_to_list in Hin.
    - intros (r & Hr & Hne). exists (rid, r). split; [done|]. apply list_elem_of_filter.
      by rewrite elem_of_map_to_list. }
  destruct (rulesById sw !! rid) as [r|] eqn:Hr; repeat case_decide; naive_solver.
Qed.

Lemma sweep_ok mi sw : switch_ok mi sw -> switch_ok mi (sweep sw).
Proof.
  intros [Hwf Hok]. split; [by apply sweep_wf|]. intros rid r. rewrite sweep_lookup by done.
  destruct (rulesById sw !! rid) as [r0|] eqn:Hr; [|done]. case_decide; [|done].
  intros [= <-]. by eapply Hok.
Qed.

Lemma rebuildAll_ok mi sw : switch_ok mi sw -> switch_ok mi (rebuildAll sw).
Proof. intros [Hwf Hok]. split; [by apply rebuildAll_wf|done]. Qed.

Lemma emptySwitch_ok mi : switch_ok mi emptySwitch.
Proof. split; [split|]; simpl; intros ??; by rewrite lookup_empty. Qed.

(** * One switch *)

(** The state the upsert loop starts from: the same rules under the next epoch. *)
Definition bumped (im : Impl) (dpid : Z) : SwitchClassifier :=
  let sw := default emptySwitch (switches im !! dpid) in
  {| tables := tables sw; rulesById := rulesById sw; epoch := u64 (epoch sw + 1) |}.

Lemma bumped_ok im dpid : wf_impl im -> switch_ok (maskIntern im) (bumped im dpid).
Proof.
  intros Hwf. assert (switch_ok (maskIntern im) (default emptySwitch (switches im !! dpid))) as [[H1 H2] H3].
  { destruct (switches im !! dpid) eqn:E; simpl; [by eapply wi_switch|apply emptySwitch_ok]. }
  split; [by split|done].
Qed.

(** What [updateOneSwitch] leaves behind, on both ways out. *)
Lemma updateOneSwitch_spec dpid flows im im' res :
  wf_impl im -> updateOneSwitch dpid flows im = (im', res) ->
  exists mi' prs sw2,
    parses (maskIntern im) flows mi' prs res /\ heap_ext (maskIntern im) mi' /\ wf_intern mi' /\
    sw2 = foldl upsertRule (bumped im dpid) prs /\ switch_ok mi' sw2 /\
    im' = {| maskIntern := mi';
             switches := <[dpid := if is_ret res then rebuildAll (sweep sw2) else sw2]> (switches im) |}.
Proof.
  intros Hwf. unfold updateOneSwitch. fold (bumped im dpid).
  destruct (upsertAll flows (maskIntern im) (bumped im dpid)) as [[mi' sw2] r] eqn:Eu.
  apply upsertAll_parses in Eu as (prs & Hp & ->).
  pose proof (parses_ok _ _ _ _ _ (wi_intern _ Hwf) Hp) as (Hwi & He & HF).
  assert (switch_ok mi' (foldl upsertRule (bumped im dpid) prs)) as Hok.
  { eapply foldl_upsert_ok; [|done]. eapply switch_ok_ext; [done|]. by apply bumped_ok. }
  destruct r as [[]|e]; intros [= <- <-]; eauto 9.
Qed.

Lemma updateOneSwitch_wf dpid flows im : wf_impl im -> wf_impl (updateOneSwitch dpid flows im).1.
Proof.
  intros Hwf. destruct (updateOneSwitch dpid flows im) as [im' res] eqn:E.
  destruct (updateOneSwitch_spec _ _ _ _ _ Hwf E) as (mi' & prs & sw2 & _ & He & Hwi & _ & Hok & ->).
  simpl. split; simpl; [done|]. intros d sw. rewrite lookup_insert. case_decide.
  - intros [= <-]. destruct (is_ret res); [by apply rebuildAll_ok, sweep_ok|done].
  - intros Hd. eapply switch_ok_ext; [done|]. by eapply wi_switch.
Qed.

Lemma updateSwitchList_wf l im : wf_impl im -> wf_impl (updateSwitchList l im).1.
Proof.
  revert im. induction l as [|sw l IH]; intros im Hwf; simpl; [done|].
  destruct (obind _ _) as [[dpid flowNode]|]; [|done].
  destruct (extractFlowArray flowNode dpid) as [[]|]; try by apply IH.
  pose proof (updateOneSwitch_wf dpid l0 im Hwf) as H.
  destruct (updateOneSwitch dpid l0 im) as [im' [[]|e]]; [by apply IH|done].
Qed.

Lemma update_wf j im : wf_impl im -> wf_impl (updateFromQueriedTables j im).1.
Proof. intros Hwf. unfold updateFromQueriedTables. destruct j; try done. by apply updateSwitchList_wf. Qed.

Lemma emptyImpl_wf : wf_impl emptyImpl.
Proof. split; [apply wf_emptyIntern|]. simpl. intros ??. by rewrite lookup_empty. Qed.

(** * Clean order after completed updates *)

Definition clean_impl (im : Impl) : Prop := forall dpid sw, switches im !! dpid = Some sw -> clean sw.

Lemma updateOneSwitch_clean dpid flows im im' :
  wf_impl im -> clean_impl im -> updateOneSwitch dpid flows im = (im', Ret tt) -> clean_impl im'.
Proof.
  intros Hwf Hc E.
  destruct (updateOneSwitch_spec _ _ _ _ _ Hwf E) as (mi' & prs & sw2 & _ & _ & _ & _ & _ & ->).
  intros d sw. simpl. rewrite lookup_insert. case_decide; [|by apply Hc].
  intros [= <-]. apply rebuildAll_clean.
Qed.

Lemma update_clean j im im' :
  wf_impl im -> clean_impl im -> updateFromQueriedTables j im = (im', Ret tt) -> clean_impl im'.
Proof.
  unfold updateFromQueriedTables. destruct j; intros Hwf Hc; try by intros [= <-].
  revert im Hwf Hc. induction l as [|sw l IH]; intros im Hwf Hc; simpl; [by intros [= <-]|].
  destruct (obind _ _) as [[dpid flowNode]|]; [|done].
  destruct (extractFlowArray flowNode dpid) as [[]|]; try by apply IH.
  pose proof (updateOneSwitch_wf dpid l0 im Hwf) as Hwf'.
  destruct (updateOneSwitch dpid l0 im) as [im1 [[]|e]] eqn:E; [|done].
  apply IH; [exact Hwf'|]. exact (updateOneSwitch_clean _ _ _ _ Hwf Hc E).
Qed.

(** The classifiers a sequence of polls can produce; [ok] records whether all of them completed. *)
Inductive polled : bool -> Impl -> Prop :=
  | polled_init : polled true emptyImpl
  | polled_step ok im j im' res :
      polled ok im -> updateFromQueriedTables j im = (im', res) -> polled (ok && is_ret res) im'.

Lemma polled_wf ok im : polled ok im -> wf_impl im.
Proof.
  induction 1 as [|ok im j im' res _ IH E]; [apply emptyImpl_wf|].
  pose proof (update_wf j im IH) as H. by rewrite E in H.
Qed.

Lemma polled_clean im : polled true im -> clean_impl im.
Proof.
  intros H. remember true as ok eqn:Hok. induction H as [|ok im j im' res Hp IH E].
  - intros d sw. simpl. by rewrite lookup_empty.
  - apply andb_prop in Hok as [-> Hr]. destruct res as [[]|]; [|done].
    eapply update_clean; [eapply polled_wf; exact Hp|by apply IH|exact E].
Qed.

(** * Mark and sweep *)

Lemma foldl_upsert_epoch prs sw : epoch (foldl upsertRule sw prs) = epoch sw.
Proof.
  revert sw. induction prs as [|pr prs IH]; simpl; intros sw; [done|]. by rewrite IH, upsertRule_epoch.
Qed.

(** A rule the loop did not mention is untouched; a mentioned one is stamped, keeps its core if
    it was stored already and has the core of a parsed rule otherwise. *)
Lemma foldl_upsert_lookup prs sw rid :
  (rid ∉ pr_id <$> prs -> rulesById (foldl upsertRule sw prs) !! rid = rulesById sw !! rid) /\
  (rid ∈ pr_id <$> prs ->
     exists r, rulesById (foldl upsertRule sw prs) !! rid = Some r /\ r_lastSeenEpoch r = epoch sw /\
       match rulesById sw !! rid with
       | Some r0 => same_core r0 r
       | None => exists pr, pr ∈ prs /\ pr_id pr = rid /\ same_core (ruleOfParsed pr 0) r
       end).
Proof.
  revert sw. induction prs as [|pr prs IH]; simpl; intros sw; [split; [done|set_solver]|].
  destruct (IH (upsertRule sw pr)) as [Hout Hin]. rewrite upsertRule_rules, upsertRule_epoch in *.
  split.
  - intros Hni. rewrite Hout, lookup_insert_ne by set_solver. done.
  - intros Hi. destruct (decide (rid ∈ pr_id <$> prs)) as [Hp|Hnp].
    + destruct (Hin Hp) as (r & Hr & Hs & Hc). exists r. split_and!; [done..|].
      rewrite lookup_insert in Hc. case_decide as Hid; [subst|].
      * destruct (rulesById sw !! pr_id pr); [by eapply Hc|]. exists pr. split_and!; [set_solver|done|].
        unfold same_core in *. simpl in *. done.
      * destruct (rulesById sw !! rid); [done|]. destruct Hc as (pr' & ? & ? & ?). exists pr'. set_solver.
    + rewrite (Hout Hnp). assert (rid = pr_id pr) as -> by set_solver. rewrite lookup_insert_eq.
      eexists. split; [done|]. destruct (rulesById sw !! pr_id pr); split; try done.
      exists pr. split_and!; [set_solver|done|]. done.
Qed.

(** Every stored rule was last seen at an epoch that has happened. *)
Definition seen_le (sw : SwitchClassifier) : Prop :=
  0 <= epoch sw /\ forall rid r, rulesById sw !! rid = Some r -> r_lastSeenEpoch r <= epoch sw.

Definition switchOf (im : Impl) (dpid : Z) : SwitchClassifier := default emptySwitch (switches im !! dpid).

(** The rules of a switch after a completed poll: exactly the polled identities, each carrying
    the core it was first stored with. *)
Lemma updateOneSwitch_rules dpid flows im mi1 prs :
  wf_impl im -> seen_le (switchOf im dpid) -> epoch (switchOf im dpid) + 1 < 2 ^ 64 ->
  parseAll flows (maskIntern im) = (mi1, prs, Ret tt) ->
  let im' := (updateOneSwitch dpid flows im).1 in
    (updateOneSwitch dpid flows im).2 = Ret tt /\ maskIntern im' = mi1 /\
    is_Some (switches im' !! dpid) /\
    epoch (switchOf im' dpid) = epoch (switchOf im dpid) + 1 /\ seen_le (switchOf im' dpid) /\
    forall rid,
      match rulesById (switchOf im' dpid) !! rid with
      | Some r => rid ∈ pr_id <$> prs /\
          match rulesById (switchOf im dpid) !! rid with
          | Some r0 => same_core r0 r
          | None => exists pr, pr ∈ prs /\ pr_id pr = rid /\ same_core (ruleOfParsed pr 0) r
          end
      | None => rid ∉ pr_id <$> prs
      end.
Proof.
  intros Hwf [H0 Hseen] Hep Hpa. destruct (updateOneSwitch dpid flows im) as [im' res] eqn:E.
  destruct (updateOneSwitch_spec _ _ _ _ _ Hwf E) as (mi' & prs' & sw2 & Hp & _ & _ & Hsw2 & [Hwf2 _] & ->).
  apply parses_parseAll in Hp. rewrite Hpa in Hp. injection Hp as <- <- <-.
  simpl. unfold switchOf in *. simpl. rewrite lookup_insert_eq. simpl.
  assert (epoch sw2 = epoch (default emptySwitch (switches im !! dpid)) + 1) as He2.
  { subst. rewrite foldl_upsert_epoch. simpl. apply u64_id. lia. }
  assert (epoch (sweep sw2) = epoch sw2) as Hes.
  { unfold sweep. generalize (toDelete sw2). intros l. clear -Hwf2. revert sw2 Hwf2.
    induction l as [|rid l IH]; simpl; intros sw Hwf; [done|]. rewrite IH by (by apply sweepOne_wf).
    unfold sweepOne, removeRuleFromTables. by repeat case_match. }
  assert (forall rid, match rulesById (sweep sw2) !! rid with
      | Some r => r_lastSeenEpoch r = epoch sw2 /\ rid ∈ pr_id <$> prs /\
          match rulesById (default emptySwitch (switches im !! dpid)) !! rid with
          | Some r0 => same_core r0 r
          | None => exists pr, pr ∈ prs /\ pr_id pr = rid /\ same_core (ruleOfParsed pr 0) r
          end
      | None => rid ∉ pr_id <$> prs
      end) as Hmain.
  { intros rid. rewrite sweep_lookup by done.
    destruct (foldl_upsert_lookup prs (bumped im dpid) rid) as [Hout Hin]. rewrite <- Hsw2 in *. simpl in *.
    destruct (decide (rid ∈ pr_id <$> prs)) as [Hi|Hni].
    - destruct (Hin Hi) as (r & Hr & Hs & Hc). rewrite Hr.
      assert (r_lastSeenEpoch r = epoch sw2) by (rewrite Hs, Hsw2, foldl_upsert_epoch; done).
      by rewrite decide_True.
    - rewrite (Hout Hni). unfold bumped. simpl.
      destruct (rulesById (default emptySwitch (switches im !! dpid)) !! rid) as [r|] eqn:Hr; [|exact Hni].
      rewrite decide_False; [done|]. specialize (Hseen _ _ Hr). lia. }
  split_and!; [done..|eauto|congruence|split; simpl|].
  - rewrite Hes, He2. lia.
  - intros rid r Hr. specialize (Hmain rid). rewrite Hr in Hmain. rewrite Hes. destruct_and!. lia.
  - intros rid. specialize (Hmain rid). destruct (rulesById (sweep sw2) !! rid); naive_solver.
Qed.
