(* ===== verification/ClassifierProps.v ===== *)
(** Classifier: the properties of the component, stated over the classifiers that sequences of
    polls produce, with concrete polls as witnesses. *)

From S2P Require Import Prelude Bytes CStrings Json ClassifierKey ClassifierParse.
From S2P Require Import ClassifierTables ClassifierInvariant ClassifierLookup ClassifierUpdate.
Local Open Scope string_scope.
Local Open Scope Z_scope.

(** * Sample polls *)

Definition sampleFlow (dst act : string) (prio : Z) : json :=
  JObject [("priority", JUnsigned prio);
           ("match", JObject [("dl_type", JUnsigned 2048); ("nw_dst", JString dst)]);
           ("actions", JArray [JString act]); ("byte_count", JUnsigned 77)].

Definition sampleFlows : list json :=
  [sampleFlow "10.0.0.0/8" "OUTPUT:1" 10; sampleFlow "10.0.0.1" "OUTPUT:2" 20;
   sampleFlow "10.1.0.0/16" "OUTPUT:CONTROLLER" 15].

Definition samplePoll (flows : list json) : json :=
  JArray [JObject [("dpid", JUnsigned 1); ("flows", JObject [("1", JArray flows)])]].

Definition sampleImpl : Impl := (updateFromQueriedTables (samplePoll sampleFlows) emptyImpl).1.

Definition sampleKey (dst : Z) : FlowKey := Build_FlowKey 0 2048 6 0 dst 0 0 0 0.

(** * Lookup *)

(** After any sequence of completed polls, [lookup] on a known switch returns the effect of a
    rule of that table that matches the key and has the highest priority among all matching rules
    the switch stores; it returns nothing exactly when no stored rule of non-negative priority
    matches, or the switch is unknown. *)
Theorem lookup_highest_priority im dpid key tid :
  polled true im ->
  match switches im !! dpid with
  | None => lookup_ im dpid key tid = None
  | Some sw =>
      match lookup_ im dpid key tid with
      | Some e => exists rid r, rulesById sw !! rid = Some r /\ r_effect r = e /\ r_tableId r = tid /\
          rule_matches (maskIntern im) key r /\ 0 <= r_priority r /\
          forall rid' r', rulesById sw !! rid' = Some r' -> r_tableId r' = tid ->
            rule_matches (maskIntern im) key r' -> r_priority r' <= r_priority r
      | None => forall rid' r', rulesById sw !! rid' = Some r' -> r_tableId r' = tid ->
            rule_matches (maskIntern im) key r' -> r_priority r' < 0
      end
  end.
Proof.
  intros Hp. unfold lookup_. destruct (switches im !! dpid) as [sw|] eqn:Hsw; [|done].
  destruct (wi_switch _ (polled_wf _ _ Hp) _ _ Hsw) as [Hwf _].
  pose proof (lookupInTableNoLock_best (maskIntern im) sw tid key Hwf
                (fun tc => polled_clean _ Hp _ _ Hsw tid tc)) as Hbest.
  destruct (lookupInTableNoLock (maskIntern im) sw tid key) as [rid|]; [|done].
  destruct Hbest as (r & Hr & Ht & Hm & H0 & Hmax). rewrite Hr. simpl. exists rid, r. by split_and!.
Qed.

Lemma sampleImpl_polled : polled true sampleImpl.
Proof.
  change true with (true && is_ret (A := unit) (Ret tt)).
  eapply (polled_step true emptyImpl (samplePoll sampleFlows)); [constructor|].
  vm_compute. reflexivity.
Qed.

Lemma lookup_highest_priority_witness :
  polled true sampleImpl /\
  lookup_ sampleImpl 1 (sampleKey 0x0A000001) 0 = Some (Build_RuleEffect None [2] None) /\
  match switches sampleImpl !! 1 with
  | None => False
  | Some sw => exists rid r, rulesById sw !! rid = Some r /\ r_effect r = Build_RuleEffect None [2] None /\
      forall rid' r', rulesById sw !! rid' = Some r' -> r_tableId r' = 0 ->
        rule_matches (maskIntern sampleImpl) (sampleKey 0x0A000001) r' -> r_priority r' <= r_priority r
  end.
Proof.
  split; [apply sampleImpl_polled|]. split; [vm_compute; reflexivity|].
  pose proof (lookup_highest_priority sampleImpl 1 (sampleKey 0x0A000001) 0 sampleImpl_polled) as H.
  destruct (switches sampleImpl !! 1) as [sw|] eqn:E; [|vm_compute in E; discriminate E].
  replace (lookup_ sampleImpl 1 (sampleKey 0x0A000001) 0) with (Some (Build_RuleEffect None [2] None))
    in H by (vm_compute; reflexivity).
  destruct H as (rid & r & Hr & He & _ & _ & _ & Hmax). exists rid, r. auto.
Defined.

(** * Invariant *)

(** C40: every update of the classifier, with any JSON and also when an exception ends it early,
    preserves the representation invariant: live, sorted, duplicate-free buckets, correct
    placement of every rule, sound subtable bounds, interned masks and fingerprint identities. *)
Theorem update_preserves_invariant j im :
  wf_impl im -> wf_impl (updateFromQueriedTables j im).1.
Proof. apply update_wf. Qed.

Lemma update_preserves_invariant_witness : wf_impl emptyImpl /\ wf_impl sampleImpl.
Proof.
  split; [apply emptyImpl_wf|].
  exact (update_preserves_invariant (samplePoll sampleFlows) emptyImpl emptyImpl_wf).
Defined.

(** * Mark and sweep *)

(** A completed poll of a switch is a snapshot.  Afterwards the switch stores a rule exactly
    for the identities parsed from the polled entries: everything absent from the poll is gone,
    everything polled is present, and [getRuleCount] counts the distinct identities. *)
Theorem poll_is_snapshot dpid flows im mi1 prs :
  wf_impl im -> seen_le (switchOf im dpid) -> epoch (switchOf im dpid) + 1 < 2 ^ 64 ->
  parseAll flows (maskIntern im) = (mi1, prs, Ret tt) ->
  let im' := (updateOneSwitch dpid flows im).1 in
    (updateOneSwitch dpid flows im).2 = Ret tt /\
    dom (rulesById (switchOf im' dpid)) = list_to_set (pr_id <$> prs) /\
    getRuleCount im' dpid = size (list_to_set (C := gset RuleId) (pr_id <$> prs)).
Proof.
  intros Hwf Hseen He Hpa. cbn zeta.
  destruct (updateOneSwitch_rules dpid flows im mi1 prs Hwf Hseen He Hpa) as (Hres & _ & [sw' Hsw'] & _ & _ & Hr).
  set (im' := (updateOneSwitch dpid flows im).1) in *.
  assert (dom (rulesById (switchOf im' dpid)) = list_to_set (pr_id <$> prs)) as Hdom.
  { apply set_eq. intros rid. rewrite elem_of_list_to_set, elem_of_dom. specialize (Hr rid).
    destruct (rulesById (switchOf im' dpid) !! rid); [naive_solver|].
    split; [by intros [? ?]|done]. }
  split_and!; [done..|]. unfold getRuleCount. rewrite <- Hdom, size_dom. unfold switchOf. by rewrite Hsw'.
Qed.

(** A later poll of the sample switch that reports one of the three rules again, and a new one. *)
Definition laterFlows : list json := [sampleFlow "10.0.0.1" "OUTPUT:2" 20; sampleFlow "10.9.0.0/16" "OUTPUT:4" 7].

Lemma sampleImpl_seen : seen_le (switchOf sampleImpl 1).
Proof.
  split; [vm_compute; discriminate|].
  assert (map_Forall (fun (_ : RuleId) r => r_lastSeenEpoch r <= epoch (switchOf sampleImpl 1))
            (rulesById (switchOf sampleImpl 1))) as H
    by (eapply (bool_decide_eq_true_1 _); vm_compute; reflexivity).
  exact H.
Qed.

Lemma poll_is_snapshot_witness :
  getRuleCount sampleImpl 1 = 3%nat /\
  getRuleCount (updateOneSwitch 1 laterFlows sampleImpl).1 1 = 2%nat /\
  exists prs, dom (rulesById (switchOf (updateOneSwitch 1 laterFlows sampleImpl).1 1)) =
                list_to_set (pr_id <$> prs).
Proof.
  split_and!; [vm_compute; reflexivity..|].
  destruct (parseAll laterFlows (maskIntern sampleImpl)) as [[mi1 prs] res] eqn:E.
  exists prs. pose proof E as E'. vm_compute in E'. injection E' as _ _ <-.
  exact (proj1 (proj2 (poll_is_snapshot 1 laterFlows sampleImpl mi1 prs (polled_wf _ _ sampleImpl_polled)
           sampleImpl_seen ltac:(vm_compute; reflexivity) E))).
Defined.

(** * Meaning of a parsed match *)

(** The byte-level test of a parsed rule (packed key AND mask equals masked value) holds for a
    packet exactly when the packet agrees with the match object field by field on the bits the
    entry selects, for every supported field name and netmask form. *)
Theorem parsed_rule_matches_fieldwise flow mi mi' pr key :
  wf_intern mi -> parseRuleFromJson flow mi = (mi', Ret pr) -> wf_key key ->
  exists v mk, flow_denotes flow v mk /\
    (rule_matches mi' key (ruleOfParsed pr 0) <-> field_match mk v key).
Proof.
  intros Hwf Hp Hk. destruct (parseRuleFromJson_spec _ _ _ _ Hwf Hp) as (_ & _ & Hok).
  destruct (po_fields _ _ _ (Hok _ eq_refl)) as (v & mk & Hd & Hv & Hmk & Hh & Hval).
  exists v, mk. split; [done|]. unfold rule_matches, maskBytesOf. simpl. rewrite Hh, Hval. simpl.
  by apply masked_bytes_field_match.
Qed.

Lemma parsed_rule_matches_fieldwise_witness :
  exists v mk, flow_denotes (sampleFlow "10.1.0.0/16" "OUTPUT:3" 15) v mk /\
    ipv4Dst mk = 0xFFFF0000 /\ field_match mk v (sampleKey 0x0A010203).
Proof.
  destruct (parseRuleFromJson (sampleFlow "10.1.0.0/16" "OUTPUT:3" 15) emptyIntern) as [mi' res] eqn:E.
  pose proof E as E'. vm_compute in E'. injection E' as <- <-.
  assert (wf_key (sampleKey 0x0A010203)) as Hk by (unfold wf_key, fits; simpl; lia).
  destruct (parsed_rule_matches_fieldwise _ _ _ _ _ wf_emptyIntern E Hk) as (v & mk & Hd & Hm).
  exists v, mk. split; [exact Hd|]. split.
  - destruct Hd as (_ & _ & _ & _ & Hip & _). vm_compute in Hip. apply Hip.
  - apply Hm. vm_compute. reflexivity.
Defined.

(** The identity of a rule is stable across polls.  What [parseRuleFromJson] produces depends
    only on the [table_id], [priority], [match], [actions] and [instructions] of the entry, so a
    re-polled entry with other counters, durations or cookie yields the same rule and identity. *)
Theorem rule_identity_ignores_counters flow flow' mi :
  (forall k, k ∈ ["table_id"; "priority"; "match"; "actions"; "instructions"] -> jfind flow k = jfind flow' k) ->
  parseRuleFromJson flow mi = parseRuleFromJson flow' mi.
Proof.
  intros H. unfold parseRuleFromJson, parseEffectFromFlowEntry.
  rewrite !H by set_solver. done.
Qed.

Lemma rule_identity_ignores_counters_witness :
  parseRuleFromJson (sampleFlow "10.0.0.1" "OUTPUT:2" 20) emptyIntern =
  parseRuleFromJson (JObject [("byte_count", JUnsigned 99); ("duration_sec", JUnsigned 5);
     ("priority", JUnsigned 20);
     ("match", JObject [("dl_type", JUnsigned 2048); ("nw_dst", JString "10.0.0.1")]);
     ("actions", JArray [JString "OUTPUT:2"])]) emptyIntern.
Proof.
  apply rule_identity_ignores_counters. intros k Hk.
  repeat (apply elem_of_cons in Hk as [->|Hk]; [reflexivity|]). by apply elem_of_nil in Hk.
Defined.

(** * Netmask texts *)

Lemma prefixMask_bits p i : 0 <= p <= 32 -> 0 <= i ->
  Z.testbit (prefixMask p) i = bool_decide (32 - p <= i) && bool_decide (i < 32).
Proof.
  intros Hp Hi. unfold prefixMask. repeat case_bool_decide; subst; try lia; simpl.
  all: try (rewrite Z.bits_0; done).
  all: try (change 4294967295 with (Z.ones 32); rewrite ?Z.ones_spec_low, ?Z.ones_spec_high by lia; done).
  all: unfold u32; change 4294967295 with (Z.ones 32).
  - rewrite Z.mod_pow2_bits_low, Z.shiftl_spec, Z.ones_spec_low by lia. done.
  - rewrite Z.mod_pow2_bits_high by lia. done.
  - rewrite Z.mod_pow2_bits_low, Z.shiftl_spec, Z.testbit_neg_r by lia. done.
Qed.

Lemma prefixMask_same_prefix p x y : 0 <= p <= 32 -> fits 32 x -> fits 32 y ->
  Z.land x (prefixMask p) = Z.land y (prefixMask p) <-> Z.shiftr x (32 - p) = Z.shiftr y (32 - p).
Proof.
  intros Hp Hx Hy. split; intros H; apply Z.bits_inj'; intros i Hi.
  - rewrite !Z.shiftr_spec by lia. apply (f_equal (fun z => Z.testbit z (i + (32 - p)))) in H.
    rewrite !Z.land_spec, prefixMask_bits in H by lia.
    rewrite (bool_decide_true (32 - p <= _)) in H by lia. simpl in H. case_bool_decide as Hhi.
    + by rewrite !andb_true_r in H.
    + unfold fits in *. rewrite <- (Z.mod_small x (2 ^ 32)), <- (Z.mod_small y (2 ^ 32)) by lia.
      rewrite !Z.mod_pow2_bits_high by lia. done.
  - rewrite !Z.land_spec, prefixMask_bits by lia. case_bool_decide; simpl; [|by rewrite !andb_false_r].
    apply (f_equal (fun z => Z.testbit z (i - (32 - p)))) in H. rewrite !Z.shiftr_spec in H by lia.
    replace (i - (32 - p) + (32 - p)) with i in H by lia. by rewrite H.
Qed.

(** "a.b.c.d/n" with a decimal [n].  For n <= 32 the entry selects exactly the addresses
    sharing the leading n bits; for larger n that still fits an [int] the field is dropped
    ([nullopt]); from 2^31 on the conversion throws [out_of_range] instead of reporting failure,
    and the exception leaves the function. *)
Theorem cidr_prefix_outcomes ip a n :
  all_chars (fun c => negb (bool_decide (c = slash))) ip = true ->
  parseIpv4AddrHost ip = Some a -> 0 <= n ->
  let text := JString (ip +:+ String slash (std_to_string n)) in
  if bool_decide (n <= 32) then
    exists m, parseIpv4WithMaskOrPrefix text = Ret (Some (a, m)) /\
      forall x y, fits 32 x -> fits 32 y ->
        (Z.land x m = Z.land y m <-> Z.shiftr x (32 - n) = Z.shiftr y (32 - n))
  else if bool_decide (n < 2 ^ 31) then parseIpv4WithMaskOrPrefix text = Ret None
  else parseIpv4WithMaskOrPrefix text = Throw OutOfRange.
Proof.
  intros Hs Ha Hn. cbn zeta. unfold parseIpv4WithMaskOrPrefix.
  rewrite split_at_char_app, Ha by done.
  destruct (to_string_scan n Hn) as (k & Hsc & Hd).
  assert (std_to_string n <> "") as Hne by (intros E; rewrite E in Hsc; done).
  rewrite (bool_decide_false (std_to_string n = "")) by done.
  replace (isAllDigits (std_to_string n)) with true by (unfold isAllDigits; by destruct (std_to_string n)).
  rewrite stoi_to_string by done.
  case_bool_decide as H32.
  - rewrite bool_decide_true by lia. cbn [obind].
    rewrite (bool_decide_false (n < 0)), (bool_decide_false (32 < n)) by lia. simpl.
    eexists. split; [done|]. intros. apply prefixMask_same_prefix; [lia|done..].
  - case_bool_decide; cbn [obind]; [|done].
    rewrite (bool_decide_true (32 < n)), orb_true_r by lia. done.
Qed.

Lemma cidr_prefix_outcomes_witness :
  parseIpv4WithMaskOrPrefix (JString "10.0.0.0/33") = Ret None /\
  parseIpv4WithMaskOrPrefix (JString "10.0.0.0/4294967296") = Throw OutOfRange /\
  exists m, parseIpv4WithMaskOrPrefix (JString "10.0.0.0/8") = Ret (Some (0x0A000000, m)) /\
    Z.land 0x0AFFFFFF m = Z.land 0x0A000000 m.
Proof.
  split_and!.
  - exact (cidr_prefix_outcomes "10.0.0.0" 0x0A000000 33 eq_refl eq_refl ltac:(lia)).
  - exact (cidr_prefix_outcomes "10.0.0.0" 0x0A000000 4294967296 eq_refl eq_refl ltac:(lia)).
  - destruct (cidr_prefix_outcomes "10.0.0.0" 0x0A000000 8 eq_refl eq_refl ltac:(lia)) as (m & Hm & Hiff).
    exists m. split; [exact Hm|]. apply Hiff; [split; [lia|reflexivity]..|]. reflexivity.
Defined.

(** * An interrupted poll *)

Definition staleFlows : list json :=
  [sampleFlow "10.0.0.1" "OUTPUT:1" 10; sampleFlow "10.0.0.0/16" "OUTPUT:2" 5;
   sampleFlow "11.0.0.0/8" "OUTPUT:3" 3].

(** The second poll re-reports the first rules, adds one of priority 100 under the /8 mask, and
    then meets an entry whose priority text is not a number. *)
Definition interruptedFlows : list json :=
  staleFlows ++ [sampleFlow "10.0.0.0/8" "OUTPUT:9" 100; JObject [("priority", JString "high")]].

Definition staleImpl : Impl :=
  (updateFromQueriedTables (samplePoll interruptedFlows)
     (updateFromQueriedTables (samplePoll staleFlows) emptyImpl).1).1.

Lemma staleImpl_polled : polled false staleImpl.
Proof.
  change false with (true && is_ret (A := unit) (Throw InvalidArgument)).
  apply (polled_step true (updateFromQueriedTables (samplePoll staleFlows) emptyImpl).1
           (samplePoll interruptedFlows)); [|vm_compute; reflexivity].
  change true with (true && is_ret (A := unit) (Ret tt)).
  eapply (polled_step true emptyImpl (samplePoll staleFlows)); [constructor|].
  vm_compute. reflexivity.
Qed.

(** The guarantee of C1 needs completed polls.  When an exception ends a poll, the rules
    already inserted stay but the cached subtable order is not rebuilt, and the pruning [break]
    then skips a stored, matching rule of higher priority: the lookup answers with a rule of
    priority 10 although a matching rule of priority 100 is stored. *)
Theorem interrupted_poll_breaks_lookup :
  ~ (forall ok im dpid sw tid key, polled ok im -> switches im !! dpid = Some sw ->
       is_best (maskIntern im) (rulesById sw) tid key (lookupInTableNoLock (maskIntern im) sw tid key)).
Proof.
  intros H.
  set (sw := switchOf staleImpl 1). set (key := sampleKey 0x0A000001).
  assert (switches staleImpl !! 1 = Some sw) as Hsw by (vm_compute; reflexivity).
  specialize (H false staleImpl 1 sw 0 key staleImpl_polled Hsw).
  assert (prioOpt (rulesById sw) (lookupInTableNoLock (maskIntern staleImpl) sw 0 key) = 10) as Hp
    by (vm_compute; reflexivity).
  assert (Exists (fun x : RuleId * Rule => r_priority x.2 = 100 /\ r_tableId x.2 = 0 /\
                    rule_matches (maskIntern staleImpl) key x.2) (map_to_list (rulesById sw))) as Hbig
    by (eapply (bool_decide_eq_true_1 _); vm_compute; reflexivity).
  revert H Hp. generalize (lookupInTableNoLock (maskIntern staleImpl) sw 0 key).
  intros [rid|] H Hp; [|done]. destruct H as (r & Hr & _ & _ & _ & Hmax).
  apply Exists_exists in Hbig as ([rid' r'] & Hin%elem_of_map_to_list & Hp' & Ht & Hm).
  clear Hsw. clearbody sw key. specialize (Hmax _ _ Hin Ht Hm). cbn [snd prioOpt] in *.
  unfold priorityOf in Hp. rewrite Hr in Hp. lia.
Qed.

(** * From a poll to a forwarding decision *)

(** Distinct rule cores have distinct fingerprints, among the polled rules and against the rules
    the switch already stores. *)
Definition collision_free (old : gmap RuleId Rule) (prs : list ParsedRule) : Prop :=
  (forall pr1 pr2, pr1 ∈ prs -> pr2 ∈ prs -> pr_id pr1 = pr_id pr2 -> pr1 = pr2) /\
  (forall r pr, pr ∈ prs -> old !! pr_id pr = Some r -> same_core (ruleOfParsed pr 0) r).

Lemma same_core_sym r r' : same_core r r' -> same_core r' r.
Proof. unfold same_core. intros. destruct_and!. split_and!; congruence. Qed.

Lemma same_core_trans r1 r2 r3 : same_core r1 r2 -> same_core r2 r3 -> same_core r1 r3.
Proof. unfold same_core. intros. destruct_and!. split_and!; congruence. Qed.

(** Without collisions the rules stored after a completed poll are, core for core, the polled
    ones. *)
Lemma snapshot_cores dpid flows im mi1 prs :
  wf_impl im -> seen_le (switchOf im dpid) -> epoch (switchOf im dpid) + 1 < 2 ^ 64 ->
  parseAll flows (maskIntern im) = (mi1, prs, Ret tt) ->
  collision_free (rulesById (switchOf im dpid)) prs ->
  let rs := rulesById (switchOf (updateOneSwitch dpid flows im).1 dpid) in
  (forall rid r, rs !! rid = Some r -> exists pr, pr ∈ prs /\ same_core (ruleOfParsed pr 0) r) /\
  (forall pr, pr ∈ prs -> exists r, rs !! pr_id pr = Some r /\ same_core (ruleOfParsed pr 0) r).
Proof.
  intros Hwf Hseen He Hpa [Hinj Hold].
  destruct (updateOneSwitch_rules dpid flows im mi1 prs Hwf Hseen He Hpa) as (_ & _ & [sw' Hsw'] & _ & _ & Hr).
  pose proof (updateOneSwitch_wf dpid flows im Hwf) as Hwf'.
  set (im' := (updateOneSwitch dpid flows im).1) in *. cbn zeta in *.
  assert (forall rid r, rulesById (switchOf im' dpid) !! rid = Some r ->
            exists pr, pr ∈ prs /\ same_core (ruleOfParsed pr 0) r) as Hfrom.
  { intros rid r Hrid. specialize (Hr rid). rewrite Hrid in Hr. destruct Hr as [(pr & -> & Hin)%list_elem_of_fmap Hc].
    destruct (rulesById (switchOf im dpid) !! pr_id pr) as [r0|] eqn:E0.
    - exists pr. split; [done|]. eapply same_core_trans; [by eapply Hold|done].
    - destruct Hc as (pr' & ? & ? & ?). by exists pr'. }
  split; [done|]. intros pr Hin. specialize (Hr (pr_id pr)).
  destruct (rulesById (switchOf im' dpid) !! pr_id pr) as [r|] eqn:Hrid;
    [|destruct Hr; apply list_elem_of_fmap; eauto].
  exists r. split; [done|]. destruct (Hfrom _ _ Hrid) as (pr' & Hin' & Hc').
  destruct (wi_switch _ Hwf' _ _ Hsw') as [Hws _]. unfold switchOf in Hrid. rewrite Hsw' in Hrid.
  destruct (ws_rules _ Hws _ _ Hrid) as (Hid & _). rewrite (Hinj pr pr'); [done..|].
  destruct Hc' as [Hc' _]. simpl in Hc'. congruence.
Qed.

Lemma rule_matches_core mi key r r' : same_core r r' -> rule_matches mi key r <-> rule_matches mi key r'.
Proof. unfold rule_matches, same_core. intros. destruct_and!. split; congruence. Qed.

(** The polled entries of a table that match a key. *)
Definition polled_hit (mi : MaskIntern) (prs : list ParsedRule) (tid : Z) (key : FlowKey) (pr : ParsedRule) : Prop :=
  pr ∈ prs /\ pr_tableId pr = tid /\ rule_matches mi key (ruleOfParsed pr 0).

(** C1: end to end.  After a completed poll of a switch, and as long as the 64-bit fingerprints
    of the rules involved do not collide, [lookup] returns the effect of a polled entry that
    matches the key with the highest priority among all polled entries of the table that match,
    and nothing only if no polled entry of non-negative priority matches: the answer depends on
    the latest poll alone. *)
Theorem poll_then_lookup dpid flows im mi1 prs key tid :
  polled true im -> seen_le (switchOf im dpid) -> epoch (switchOf im dpid) + 1 < 2 ^ 64 ->
  parseAll flows (maskIntern im) = (mi1, prs, Ret tt) ->
  collision_free (rulesById (switchOf im dpid)) prs ->
  match lookup_ (updateOneSwitch dpid flows im).1 dpid key tid with
  | Some e => exists pr, polled_hit mi1 prs tid key pr /\ pr_effect pr = e /\
      forall pr', polled_hit mi1 prs tid key pr' -> pr_priority pr' <= pr_priority pr
  | None => forall pr', polled_hit mi1 prs tid key pr' -> pr_priority pr' < 0
  end.
Proof.
  intros Hpol Hseen He Hpa Hcf. pose proof (polled_wf _ _ Hpol) as Hwf.
  destruct (updateOneSwitch_rules dpid flows im mi1 prs Hwf Hseen He Hpa) as (Hres & Hmi & [sw' Hsw'] & _).
  destruct (snapshot_cores dpid flows im mi1 prs Hwf Hseen He Hpa Hcf) as [Hfrom Hto].
  assert (clean_impl (updateOneSwitch dpid flows im).1) as Hclean.
  { eapply updateOneSwitch_clean; [exact Hwf|by apply polled_clean|].
    rewrite <- Hres. apply surjective_pairing. }
  pose proof (updateOneSwitch_wf dpid flows im Hwf) as Hwf'.
  set (im' := (updateOneSwitch dpid flows im).1) in *. unfold switchOf in Hfrom, Hto. rewrite Hsw' in Hfrom, Hto.
  unfold lookup_. rewrite Hsw'. destruct (wi_switch _ Hwf' _ _ Hsw') as [Hws _].
  pose proof (lookupInTableNoLock_best (maskIntern im') sw' tid key Hws
                (fun tc => Hclean _ _ Hsw' tid tc)) as Hbest. rewrite Hmi in *. unfold polled_hit.
  destruct (lookupInTableNoLock mi1 sw' tid key) as [rid|]; simpl in Hbest.
  - destruct Hbest as (r & Hrid & Ht & Hmr & _ & Hmax). rewrite Hrid. simpl.
    destruct (Hfrom _ _ Hrid) as (pr & Hin & Hc). pose proof Hc as (_ & Hct & Hcp & _ & _ & Hce).
    exists pr. simpl in *. rewrite (rule_matches_core _ _ _ _ Hc). split_and!; [done|congruence|done|done|].
    intros pr' (Hin' & Ht' & Hm'). destruct (Hto _ Hin') as (r' & Hr' & Hc').
    pose proof Hc' as (_ & Hct' & Hcp' & _). simpl in *. rewrite Hcp, Hcp'.
    eapply Hmax; [done|congruence|by apply (rule_matches_core _ _ _ _ Hc')].
  - intros pr' (Hin' & Ht' & Hm'). destruct (Hto _ Hin') as (r' & Hr' & Hc').
    pose proof Hc' as (_ & Hct' & Hcp' & _). simpl in *. rewrite Hcp'.
    eapply Hbest; [done|congruence|by apply (rule_matches_core _ _ _ _ Hc')].
Qed.

#[export] Instance same_core_dec r r' : Decision (same_core r r').
Proof. unfold same_core. apply _. Defined.

(** A checkable condition that rules collisions out. *)
Definition collision_freeb (old : gmap RuleId Rule) (prs : list ParsedRule) : bool :=
  bool_decide (NoDup (pr_id <$> prs)) &&
  forallb (fun pr => match old !! pr_id pr with
                     | None => true
                     | Some r => bool_decide (same_core (ruleOfParsed pr 0) r) end) prs.

Lemma collision_freeb_sound old prs : collision_freeb old prs = true -> collision_free old prs.
Proof.
  intros [Hn Hf]%andb_prop. apply bool_decide_eq_true_1 in Hn. split.
  - intros pr1 pr2 [i H1]%list_elem_of_lookup [j H2]%list_elem_of_lookup Heq.
    assert (i = j) as ->; [|congruence].
    apply (NoDup_lookup (pr_id <$> prs) i j (pr_id pr1)); [done|..].
    all: rewrite list_lookup_fmap, ?H1, ?H2; simpl; congruence.
  - intros r pr Hin Hr. rewrite forallb_forall in Hf. specialize (Hf pr).
    rewrite Hr in Hf. eapply (bool_decide_eq_true_1 _), Hf. by apply list_elem_of_In.
Qed.

Lemma poll_then_lookup_witness :
  let im' := (updateOneSwitch 1 laterFlows sampleImpl).1 in
  lookup_ im' 1 (sampleKey 0x0A000001) 0 = Some (Build_RuleEffect None [2] None) /\
  exists mi1 prs pr, polled_hit mi1 prs 0 (sampleKey 0x0A000001) pr /\
    pr_effect pr = Build_RuleEffect None [2] None.
Proof.
  cbn zeta. assert (lookup_ (updateOneSwitch 1 laterFlows sampleImpl).1 1 (sampleKey 0x0A000001) 0 =
    Some (Build_RuleEffect None [2] None)) as Hl by (vm_compute; reflexivity).
  split; [exact Hl|].
  destruct (parseAll laterFlows (maskIntern sampleImpl)) as [[mi1 prs] res] eqn:E.
  assert (res = Ret tt) as ->.
  { change (res = Ret tt) with ((mi1, prs, res).2 = Ret tt). rewrite <- E. vm_compute. reflexivity. }
  assert (collision_freeb (rulesById (switchOf sampleImpl 1)) prs = true) as Hc.
  { change prs with ((mi1, prs, Ret (A := unit) tt).1.2). rewrite <- E. vm_compute. reflexivity. }
  pose proof (poll_then_lookup 1 laterFlows sampleImpl mi1 prs (sampleKey 0x0A000001) 0 sampleImpl_polled
    sampleImpl_seen ltac:(vm_compute; reflexivity) E (collision_freeb_sound _ _ Hc)) as H.
  rewrite Hl in H. destruct H as (pr & Hhit & He & _). exists mi1, prs, pr. split; assumption.
Defined.
