(* ===== verification/LockManager.v ===== *)
(** LockManager (include/ndt_core/lock_management/LockManager.hpp): the named leases that
    applications take before changing routing, graph or power state.

    The concrete state is the map from lock type to [LockState]; the steady clock is an input of
    every operation, in nanoseconds.  The abstract state is the end of the lease of each lock
    type; the operations refine it, and mutual exclusion is proved over arbitrary histories. *)

From S2P Require Import Prelude.
Local Open Scope string_scope.
Local Open Scope Z_scope.

(** * The code *)

Inductive LockType := Routing | Graph | Power | Unknown.

#[export] Instance LockType_eq_dec : EqDecision LockType.
Proof. solve_decision. Defined.

#[export] Instance LockType_countable : Countable LockType.
Proof.
  refine (inj_countable'
    (fun t => match t with Routing => 0%nat | Graph => 1%nat | Power => 2%nat | Unknown => 3%nat end)
    (fun z => match z with 0%nat => Routing | 1%nat => Graph | 2%nat => Power | _ => Unknown end) _).
  by intros [].
Defined.

Record LockState := { isLocked : bool; expiryTime : Z }.

(** [m_locks[type]] default-constructs a missing entry; a default [time_point] is the epoch. *)
Definition freshLock : LockState := {| isLocked := false; expiryTime := 0 |}.

Abbreviation LockManager := (gmap LockType LockState).

Definition DEFAULT_TTL_SECONDS : Z := 5.
Definition DEFAULT_LOCK_TYPE_STR : string := "routing_lock".

(** [std::chrono::seconds] in the nanosecond ticks of the steady clock. *)
Definition seconds (s : Z) : Z := s * 1000000000.

Definition stringToLockType (str : string) : LockType :=
  if bool_decide (str = "routing_lock") then Routing
  else if bool_decide (str = "graph_lock") then Graph
  else if bool_decide (str = "power_lock") then Power
  else Unknown.

Definition isValidType (typeStr : string) : bool :=
  negb (bool_decide (stringToLockType typeStr = Unknown)).

Definition acquireLock (now : Z) (lockNameStr : string) (ttlSeconds : Z) (m_locks : LockManager)
  : LockManager * bool :=
  let type := stringToLockType lockNameStr in
  if bool_decide (type = Unknown) then (m_locks, false)
  else
    let state := default freshLock (m_locks !! type) in
    let m_locks := <[type := state]> m_locks in
    if isLocked state && bool_decide (now < expiryTime state) then (m_locks, false)
    else (<[type := {| isLocked := true; expiryTime := now + seconds ttlSeconds |}]> m_locks, true).

Definition unlock (lockNameStr : string) (m_locks : LockManager) : LockManager * bool :=
  let type := stringToLockType lockNameStr in
  if bool_decide (type = Unknown) then (m_locks, false)
  else
    match m_locks !! type with
    | None => (m_locks, false)
    | Some state =>
        if negb (isLocked state) then (m_locks, false)
        else (<[type := {| isLocked := false; expiryTime := expiryTime state |}]> m_locks, true)
    end.

Definition renew (now : Z) (lockNameStr : string) (ttlSeconds : Z) (m_locks : LockManager)
  : LockManager * bool :=
  let type := stringToLockType lockNameStr in
  if bool_decide (type = Unknown) then (m_locks, false)
  else
    match m_locks !! type with
    | None => (m_locks, false)
    | Some state =>
        if negb (isLocked state) then (m_locks, false)
        else (<[type := {| isLocked := isLocked state; expiryTime := now + seconds ttlSeconds |}]> m_locks,
              true)
    end.

(** The operations a client can issue; each runs under the mutex, at one reading of the clock. *)
Inductive LockOp :=
  | OpAcquire (name : string) (ttl : Z)
  | OpUnlock (name : string)
  | OpRenew (name : string) (ttl : Z).

Definition opName (op : LockOp) : string :=
  match op with OpAcquire n _ | OpUnlock n | OpRenew n _ => n end.

Definition stepLock (st : LockManager) (e : Z * LockOp) : LockManager * bool :=
  match e.2 with
  | OpAcquire n ttl => acquireLock e.1 n ttl st
  | OpUnlock n => unlock n st
  | OpRenew n ttl => renew e.1 n ttl st
  end.

(** A history of timed operations, with the answer to each. *)
Fixpoint runLocks (st : LockManager) (h : list (Z * LockOp)) : LockManager * list bool :=
  match h with
  | [] => (st, [])
  | e :: h => let '(st', b) := stepLock st e in
              let '(st'', bs) := runLocks st' h in (st'', b :: bs)
  end.

(** * The abstract leases *)

(** For each lock type, the end of its lease, if it was taken and not released since. *)
Definition Leases := LockType -> option Z.

Definition noLeases : Leases := fun _ => None.

Definition setLease (t : LockType) (v : option Z) (L : Leases) : Leases :=
  fun t' => if decide (t' = t) then v else L t'.

Definition held (L : Leases) (t : LockType) (now : Z) : bool :=
  match L t with Some e => bool_decide (now < e) | None => false end.

(** A lease can be taken when none runs; it can be released or prolonged until someone releases
    it, also after it ran out. *)
Definition specLock (L : Leases) (e : Z * LockOp) : Leases * bool :=
  let t := stringToLockType (opName e.2) in
  if decide (t = Unknown) then (L, false)
  else match e.2 with
       | OpAcquire _ ttl => if held L t e.1 then (L, false) else (setLease t (Some (e.1 + seconds ttl)) L, true)
       | OpUnlock _ => if L t then (setLease t None L, true) else (L, false)
       | OpRenew _ ttl => if L t then (setLease t (Some (e.1 + seconds ttl)) L, true) else (L, false)
       end.

Fixpoint runSpec (L : Leases) (h : list (Z * LockOp)) : list bool :=
  match h with
  | [] => []
  | e :: h => let '(L', b) := specLock L e in b :: runSpec L' h
  end.

(** * Refinement *)

Definition leaseOf (st : LockManager) (t : LockType) : option Z :=
  match st !! t with
  | Some s => if isLocked s then Some (expiryTime s) else None
  | None => None
  end.

Definition lock_sim (st : LockManager) (L : Leases) : Prop := forall t, leaseOf st t = L t.

Lemma leaseOf_insert st t t' s :
  leaseOf (<[t := s]> st) t' =
  if decide (t' = t) then (if isLocked s then Some (expiryTime s) else None) else leaseOf st t'.
Proof. unfold leaseOf. rewrite lookup_insert. repeat case_decide; congruence. Qed.

Lemma leaseOf_touch st t t' : leaseOf (<[t := default freshLock (st !! t)]> st) t' = leaseOf st t'.
Proof.
  rewrite leaseOf_insert. case_decide; [subst|done]. unfold leaseOf. by destruct (st !! t).
Qed.

(** One operation simulates one abstract operation, with the same answer. *)
Lemma stepLock_sim st L e :
  lock_sim st L -> (stepLock st e).2 = (specLock L e).2 /\ lock_sim (stepLock st e).1 (specLock L e).1.
Proof.
  intros Hs. destruct e as [now op]. unfold specLock. cbn [fst snd].
  destruct op as [n ttl|n|n ttl]; unfold stepLock, acquireLock, unlock, renew; cbn [fst snd opName];
    set (t := stringToLockType n); case_bool_decide as HU;
    [by rewrite decide_True|rewrite decide_False by done|by rewrite decide_True|rewrite decide_False by done
    |by rewrite decide_True|rewrite decide_False by done].
  - unfold held. rewrite <- Hs. unfold leaseOf at 1 2.
    assert (lock_sim (<[t:=default freshLock (st !! t)]> st) L) as Ht by (intros t'; by rewrite leaseOf_touch).
    destruct (st !! t) as [[[] e]|] eqn:E; simpl in *;
      [case_bool_decide; [done|]|..]; simpl; (split; [done|]); rewrite insert_insert_eq;
      intros t'; rewrite leaseOf_insert; unfold setLease; case_decide; done.
  - rewrite <- Hs. unfold leaseOf. destruct (st !! t) as [[[] e]|] eqn:E; cbn [isLocked negb fst snd]; try done.
    split; [done|]. intros t'. rewrite leaseOf_insert. unfold setLease. case_decide; done.
  - rewrite <- Hs. unfold leaseOf. destruct (st !! t) as [[[] e]|] eqn:E; cbn [isLocked negb fst snd]; try done.
    split; [done|]. intros t'. rewrite leaseOf_insert. unfold setLease. case_decide; done.
Qed.

Lemma runLocks_sim st L h : lock_sim st L -> (runLocks st h).2 = runSpec L h.
Proof.
  revert st L. induction h as [|e h IH]; intros st L Hs; simpl; [done|].
  destruct (stepLock_sim st L e Hs) as [Hb Hs'].
  destruct (stepLock st e) as [st' b], (specLock L e) as [L' b']. simpl in *. subst.
  specialize (IH _ _ Hs'). destruct (runLocks st' h). simpl in *. by subst.
Qed.

(** The lock manager refines the lease specification: for every history of operations from
    the start, its answers are those of the abstract leases, in which each name of the three
    valid ones has its own lease and every other name is refused. *)
Theorem lock_refines_leases h : (runLocks ∅ h).2 = runSpec noLeases h.
Proof. apply runLocks_sim. intros t. unfold leaseOf. by rewrite lookup_empty. Qed.

(** * Mutual exclusion *)

(** An operation at a time before [T] that neither releases [t] nor prolongs it to less than [T]. *)
Definition keepsLease (t : LockType) (T : Z) (e : Z * LockOp) : Prop :=
  stringToLockType (opName e.2) = t ->
  match e.2 with
  | OpAcquire _ _ => e.1 < T
  | OpUnlock _ => False
  | OpRenew _ ttl => T <= e.1 + seconds ttl
  end.

Definition leasedUntil (t : LockType) (T : Z) (st : LockManager) : Prop :=
  exists e, leaseOf st t = Some e /\ T <= e.

Lemma stepLock_keeps t T st e :
  leasedUntil t T st -> keepsLease t T e -> leasedUntil t T (stepLock st e).1.
Proof.
  intros (x & Hx & HT) Hk. destruct e as [now op].
  destruct (stepLock_sim st (leaseOf st) (now, op)) as [_ Hs]; [by intros ?|].
  unfold leasedUntil. rewrite Hs. unfold specLock. cbn [fst snd].
  unfold keepsLease in Hk. cbn [fst snd] in Hk.
  case_decide; [by eauto|].
  destruct op as [n ttl|n|n ttl]; cbn [opName] in *.
  - destruct (held (leaseOf st) (stringToLockType n) now) eqn:Hh; [by eauto|]. cbn [fst]. unfold setLease.
    case_decide as Ht; [|by eauto]. subst. specialize (Hk eq_refl). unfold held in Hh.
    rewrite Hx in Hh. apply bool_decide_eq_false in Hh. lia.
  - destruct (leaseOf st (stringToLockType n)); cbn [fst]; [|by eauto]. unfold setLease.
    case_decide; [|by eauto]. subst. destruct (Hk eq_refl).
  - destruct (leaseOf st (stringToLockType n)); cbn [fst]; [|by eauto]. unfold setLease.
    case_decide; [|by eauto]. subst. eauto.
Qed.

Lemma runLocks_keeps t T st h :
  leasedUntil t T st -> Forall (keepsLease t T) h -> leasedUntil t T (runLocks st h).1.
Proof.
  intros Hl HF. revert st Hl. induction HF as [|e h He HF IH]; intros st Hl; simpl; [done|].
  pose proof (stepLock_keeps t T st e Hl He) as H. destruct (stepLock st e) as [st' b]. simpl in H.
  specialize (IH _ H). by destruct (runLocks st' h).
Qed.

Lemma acquireLock_lease now n ttl st :
  (acquireLock now n ttl st).2 = true ->
  stringToLockType n <> Unknown /\ leaseOf (acquireLock now n ttl st).1 (stringToLockType n) = Some (now + seconds ttl).
Proof.
  unfold acquireLock. case_bool_decide; [done|]. case_match; [done|]. intros _. split; [done|].
  cbn [fst]. by rewrite leaseOf_insert, decide_True.
Qed.

(** Mutual exclusion.  Once an acquire of a lock succeeded, and whatever clients do to this
    and the other locks before [T], as long as nobody releases it and every renewal reaches [T]
    too, any further acquire of it before [T] is refused, for any [T] within the first lease. *)
Theorem lock_mutual_exclusion st t0 n ttl h T now n' ttl' :
  (acquireLock t0 n ttl st).2 = true -> T <= t0 + seconds ttl ->
  Forall (keepsLease (stringToLockType n) T) h ->
  stringToLockType n' = stringToLockType n -> now < T ->
  (acquireLock now n' ttl' (runLocks (acquireLock t0 n ttl st).1 h).1).2 = false.
Proof.
  intros Ha HT HF Hn Hnow. destruct (acquireLock_lease _ _ _ _ Ha) as [HU Hl].
  destruct (runLocks_keeps (stringToLockType n) T (acquireLock t0 n ttl st).1 h) as (e & He & HTe);
    [by exists (t0 + seconds ttl)|done|].
  set (st' := (runLocks (acquireLock t0 n ttl st).1 h).1) in *.
  destruct (stepLock_sim st' (leaseOf st') (now, OpAcquire n' ttl')) as [Hb _]; [by intros ?|].
  unfold stepLock in Hb. cbn [fst snd] in Hb. rewrite Hb. unfold specLock. cbn [fst snd opName].
  rewrite Hn, decide_False by done. unfold held. rewrite He. by rewrite bool_decide_true by lia.
Qed.

(** A history in which another client polls the lock, and a graph lock comes and goes. *)
Definition busyHistory : list (Z * LockOp) :=
  [(seconds 1, OpAcquire "routing_lock" 5); (seconds 2, OpAcquire "graph_lock" 1);
   (seconds 2, OpUnlock "graph_lock"); (seconds 3, OpRenew "routing_lock" 5)].

Lemma lock_mutual_exclusion_witness :
  (acquireLock (seconds 4) "routing_lock" 9
     (runLocks (acquireLock 0 "routing_lock" 5 ∅).1 busyHistory).1).2 = false.
Proof.
  apply (lock_mutual_exclusion ∅ 0 "routing_lock" 5 busyHistory (seconds 5)); [reflexivity|reflexivity| |reflexivity|reflexivity].
  repeat constructor; intros H; vm_compute in H; try discriminate H; vm_compute; intros; congruence.
Defined.

(** A dead client blocks nobody for longer than its lease.  In every reachable state a valid
    lock whose lease ended, by release or by the clock, is granted to the next acquire, and the
    new lease ends [ttl] seconds later. *)
Theorem lock_granted_after_expiry h now n ttl :
  stringToLockType n <> Unknown ->
  (forall e, leaseOf (runLocks ∅ h).1 (stringToLockType n) = Some e -> e <= now) ->
  (acquireLock now n ttl (runLocks ∅ h).1).2 = true /\
  leaseOf (acquireLock now n ttl (runLocks ∅ h).1).1 (stringToLockType n) = Some (now + seconds ttl).
Proof.
  intros HU Hfree. set (st := (runLocks ∅ h).1) in *.
  assert ((acquireLock now n ttl st).2 = true) as Ha; [|split; [done|by apply acquireLock_lease]].
  destruct (stepLock_sim st (leaseOf st) (now, OpAcquire n ttl)) as [Hb _]; [by intros ?|].
  unfold stepLock in Hb. cbn [fst snd] in Hb. rewrite Hb. unfold specLock. cbn [fst snd opName].
  rewrite decide_False by done. unfold held. destruct (leaseOf st (stringToLockType n)) as [e|]; [|done].
  specialize (Hfree e eq_refl). by rewrite bool_decide_false by lia.
Qed.

Lemma lock_granted_after_expiry_witness :
  (acquireLock (seconds 8) "routing_lock" 5
     (runLocks ∅ ((0, OpAcquire "routing_lock" 5) :: busyHistory)).1).2 = true.
Proof.
  apply (lock_granted_after_expiry ((0, OpAcquire "routing_lock" 5) :: busyHistory)); [discriminate|].
  intros e H. vm_compute in H. injection H as <-. vm_compute. discriminate.
Defined.
