(* ===== verification/KeyedFailureLog.v ===== *)
(** KeyedFailureLog (include/utils/KeyedFailureLog.hpp): reports the first occurrence of each
    distinct failure that persists, and its recovery.

    The two [std::map]s are finite maps; a report lists keys in the order of the map's keys.  Times
    and durations are clock ticks.  The proofs reduce [endPass] to what it does to one key and
    then argue about sequences of passes. *)

From S2P Require Import Prelude.
Local Open Scope string_scope.
Local Open Scope list_scope.
Local Open Scope Z_scope.

(** * The code *)

Record Entry := { firstSeen : Z; lastSeen : Z; passes : Z; reported : bool }.

#[export] Instance Entry_eq_dec : EqDecision Entry.
Proof. solve_decision. Defined.

Record Report := {
  newFailures : list (string * string);
  recovered : list (string * Z)
}.

Record KeyedFailureLog := {
  m_thisPass : gmap string string;
  m_open : gmap string Entry;
  m_reportAfter : Z;
  m_forgetAfter : Z
}.

Definition makeLog (reportAfter : Z) (forgetAfter : option Z) : KeyedFailureLog := {|
  m_thisPass := ∅; m_open := ∅; m_reportAfter := reportAfter;
  m_forgetAfter := default (reportAfter * 2) forgetAfter |}.

Definition record (key message : string) (log : KeyedFailureLog) : KeyedFailureLog := {|
  m_thisPass := <[key := message]> (m_thisPass log); m_open := m_open log;
  m_reportAfter := m_reportAfter log; m_forgetAfter := m_forgetAfter log |}.

(** Iteration over a [std::map]: the bindings in key order. *)
Definition keyLe {A} (x y : string * A) : Prop := String.leb x.1 y.1 = true.
#[export] Instance keyLe_dec {A} : RelDecision (@keyLe A).
Proof. intros x y. unfold keyLe. apply _. Defined.

Definition inOrder {A} (m : gmap string A) : list (string * A) := merge_sort keyLe (map_to_list m).

(** A loop that erases the entries satisfying [gone], noting the recovery of the reported ones. *)
Fixpoint pruneLoop (gone : string -> Entry -> bool) (its : list (string * Entry))
    (opened : gmap string Entry) (rec : list (string * Z)) : gmap string Entry * list (string * Z) :=
  match its with
  | [] => (opened, rec)
  | (k, e) :: its =>
      if gone k e
      then pruneLoop gone its (delete k opened) (if reported e then rec ++ [(k, passes e)] else rec)
      else pruneLoop gone its opened rec
  end.

Definition touch (now : Z) (o : option Entry) : Entry :=
  match o with
  | None => {| firstSeen := now; lastSeen := now; passes := 1; reported := false |}
  | Some e => {| firstSeen := firstSeen e; lastSeen := now; passes := u64 (passes e + 1);
                 reported := reported e |}
  end.

Definition dueNow (reportAfter now : Z) (e : Entry) : bool :=
  negb (reported e) && bool_decide (reportAfter <= now - firstSeen e).

Definition markReported (e : Entry) : Entry :=
  {| firstSeen := firstSeen e; lastSeen := lastSeen e; passes := passes e; reported := true |}.

Fixpoint recordLoop (reportAfter now : Z) (its : list (string * string))
    (opened : gmap string Entry) (fresh : list (string * string))
  : gmap string Entry * list (string * string) :=
  match its with
  | [] => (opened, fresh)
  | (key, message) :: its =>
      let e := touch now (opened !! key) in
      if dueNow reportAfter now e
      then recordLoop reportAfter now its (<[key := markReported e]> opened) (fresh ++ [(key, message)])
      else recordLoop reportAfter now its (<[key := e]> opened) fresh
  end.

Definition expired (forgetAfter now : Z) (_ : string) (e : Entry) : bool :=
  bool_decide (forgetAfter <= now - lastSeen e) && bool_decide (0 < forgetAfter).

Definition absent (forgetAfter now : Z) (thisPass : gmap string string) (k : string) (e : Entry) : bool :=
  bool_decide (thisPass !! k = None) && bool_decide (forgetAfter <= now - lastSeen e).

Definition endPass (now : Z) (log : KeyedFailureLog) : KeyedFailureLog * Report :=
  let '(open1, rec1) := pruneLoop (expired (m_forgetAfter log) now) (inOrder (m_open log)) (m_open log) [] in
  let '(open2, fresh) := recordLoop (m_reportAfter log) now (inOrder (m_thisPass log)) open1 [] in
  let '(open3, rec3) :=
    pruneLoop (absent (m_forgetAfter log) now (m_thisPass log)) (inOrder open2) open2 rec1 in
  ({| m_thisPass := ∅; m_open := open3;
      m_reportAfter := m_reportAfter log; m_forgetAfter := m_forgetAfter log |},
   {| newFailures := fresh; recovered := rec3 |}).

Definition openCount (log : KeyedFailureLog) : nat := size (m_open log).

(** * Iteration in key order *)

Definition of_key {A} (k : string) (l : list (string * A)) : list (string * A) :=
  filter (fun p => p.1 = k) l.

Lemma of_key_app {A} k (l l' : list (string * A)) : of_key k (l ++ l') = of_key k l ++ of_key k l'.
Proof. apply filter_app. Qed.

Lemma of_key_one {A} k k' (v : A) : of_key k [(k', v)] = if decide (k' = k) then [(k', v)] else [].
Proof. unfold of_key. rewrite filter_cons. simpl. by case_decide. Qed.

Lemma inOrder_elem {A} (m : gmap string A) k v : (k, v) ∈ inOrder m <-> m !! k = Some v.
Proof. unfold inOrder. by rewrite merge_sort_Permutation, elem_of_map_to_list. Qed.

Lemma inOrder_nodup {A} (m : gmap string A) : NoDup (inOrder m).*1.
Proof. unfold inOrder. rewrite merge_sort_Permutation. apply NoDup_fst_map_to_list. Qed.

(** * Loops, one key at a time *)

Lemma pruneLoop_key gone its opened rec k :
  NoDup its.*1 -> (forall k e, (k, e) ∈ its -> opened !! k = Some e) ->
  let '(opened', rec') := pruneLoop gone its opened rec in
  match opened !! k with
  | Some e => if bool_decide ((k, e) ∈ its) && gone k e
      then opened' !! k = None /\ of_key k rec' = of_key k rec ++ (if reported e then [(k, passes e)] else [])
      else opened' !! k = Some e /\ of_key k rec' = of_key k rec
  | None => opened' !! k = None /\ of_key k rec' = of_key k rec
  end.
Proof.
  revert opened rec. induction its as [|[k0 e0] its IH]; intros opened rec Hnd Hin.
  { cbn [pruneLoop]. destruct (opened !! k) eqn:E; [rewrite bool_decide_false by set_solver|]; done. }
  apply NoDup_cons in Hnd as [Hni Hnd]. cbn [fst] in Hni.
  assert (forall k e, (k, e) ∈ its -> k <> k0) as Hne.
  { intros k' e' H ->. apply Hni, list_elem_of_fmap. by exists (k0, e'). }
  pose proof (Hin k0 e0 ltac:(set_solver)) as Hk0. cbn [pruneLoop]. destruct (gone k0 e0) eqn:Hg.
  - specialize (IH (delete k0 opened) (if reported e0 then rec ++ [(k0, passes e0)] else rec) Hnd).
    destruct (pruneLoop _ _ _ _) as [o' r']. rewrite lookup_delete in IH.
    specialize (IH ltac:(intros k' e' H'; rewrite lookup_delete_ne by (by apply not_eq_sym, (Hne _ _ H'));
                         apply Hin; set_solver)).
    case_decide as Hk.
    + subst. rewrite Hk0, bool_decide_true, Hg by set_solver. simpl. destruct IH as [-> ->]. split; [done|].
      destruct (reported e0); [by rewrite of_key_app, of_key_one, decide_True|by rewrite app_nil_r].
    + replace (of_key k (if reported e0 then rec ++ [(k0, passes e0)] else rec)) with (of_key k rec) in IH.
      2: { destruct (reported e0); [|done]. by rewrite of_key_app, of_key_one, decide_False, app_nil_r. }
      destruct (opened !! k) as [e|]; [|done].
      rewrite (bool_decide_ext _ ((k, e) ∈ its)) by set_solver. done.
  - specialize (IH opened rec Hnd). destruct (pruneLoop _ _ _ _) as [o' r'].
    specialize (IH ltac:(set_solver)). destruct (opened !! k) as [e|] eqn:E; [|done].
    destruct (decide (k = k0)) as [->|Hk].
    + assert (e = e0) as -> by congruence. rewrite Hg, andb_false_r in *. done.
    + rewrite (bool_decide_ext _ ((k, e) ∈ its)) by set_solver. done.
Qed.

Lemma recordLoop_key ra now its opened fresh k :
  NoDup its.*1 ->
  let '(opened', fresh') := recordLoop ra now its opened fresh in
  match list_find (fun p => p.1 = k) its with
  | Some (_, (_, m)) =>
      let e := touch now (opened !! k) in
      opened' !! k = Some (if dueNow ra now e then markReported e else e) /\
      of_key k fresh' = of_key k fresh ++ (if dueNow ra now e then [(k, m)] else [])
  | None => opened' !! k = opened !! k /\ of_key k fresh' = of_key k fresh
  end.
Proof.
  revert opened fresh. induction its as [|[k0 m0] its IH]; intros opened fresh Hnd; [done|].
  apply NoDup_cons in Hnd as [Hni Hnd]. cbn [fst] in Hni. cbn [recordLoop list_find fst].
  set (e0 := touch now (opened !! k0)).
  set (o1 := <[k0 := if dueNow ra now e0 then markReported e0 else e0]> opened).
  set (f1 := if dueNow ra now e0 then fresh ++ [(k0, m0)] else fresh).
  replace (if dueNow ra now e0 then _ else _) with (recordLoop ra now its o1 f1)
    by (unfold o1, f1; by destruct (dueNow ra now e0)).
  specialize (IH o1 f1 Hnd). destruct (recordLoop ra now its o1 f1) as [o' f'].
  case_decide as Hk.
  - subst k0. destruct (list_find _ its) as [[i [k' m']]|] eqn:Ef.
    { apply list_find_Some in Ef as (Hl & Hk' & _). simpl in Hk'. subst.
      destruct Hni. apply list_elem_of_fmap. exists (k, m'). split; [done|]. by eapply list_elem_of_lookup_2. }
    destruct IH as [-> ->]. unfold o1, f1. rewrite lookup_insert_eq. split; [done|].
    fold e0. destruct (dueNow ra now e0); [|by rewrite app_nil_r].
    by rewrite of_key_app, of_key_one, decide_True.
  - assert (o1 !! k = opened !! k) as Ho by (unfold o1; by rewrite lookup_insert_ne).
    assert (of_key k f1 = of_key k fresh) as Hf.
    { unfold f1. destruct (dueNow ra now e0); [|done]. by rewrite of_key_app, of_key_one, decide_False, app_nil_r. }
    rewrite Ho, Hf in IH. destruct (list_find _ its) as [[i [k' m']]|]; done.
Qed.

(** * A pass, seen from one key *)

Definition recoveryOf (e : Entry) : list Z := if reported e then [passes e] else [].

(** What a pass does to the entry of a key: the entry left, the messages reported as new, and the
    pass counts reported as recovered. *)
Definition passKey (ra fa now : Z) (msg : option string) (o : option Entry)
  : option Entry * list string * list Z :=
  let '(o1, r1) := match o with
                   | Some e => if expired fa now EmptyString e then (None, recoveryOf e) else (Some e, [])
                   | None => (None, [])
                   end in
  match msg with
  | Some m => let e := touch now o1 in
              if dueNow ra now e then (Some (markReported e), [m], r1) else (Some e, [], r1)
  | None => match o1 with
            | Some e => if bool_decide (fa <= now - lastSeen e) then (None, [], r1 ++ recoveryOf e)
                        else (Some e, [], r1)
            | None => (None, [], r1)
            end
  end.

Lemma prune_inOrder gone m rec k :
  let '(m', rec') := pruneLoop gone (inOrder m) m rec in
  match m !! k with
  | Some e => if gone k e then m' !! k = None /\ of_key k rec' = of_key k rec ++ ((k,.) <$> recoveryOf e)
              else m' !! k = Some e /\ of_key k rec' = of_key k rec
  | None => m' !! k = None /\ of_key k rec' = of_key k rec
  end.
Proof.
  pose proof (pruneLoop_key gone (inOrder m) m rec k (inOrder_nodup m) (fun k e => proj1 (inOrder_elem m k e))) as H.
  destruct (pruneLoop _ _ _ _) as [m' rec']. destruct (m !! k) as [e|] eqn:E; [|done].
  rewrite bool_decide_true in H by (by apply inOrder_elem). unfold recoveryOf. simpl in H.
  destruct (gone k e), (reported e); done.
Qed.

Lemma record_inOrder ra now tp opened k :
  let '(opened', fresh') := recordLoop ra now (inOrder tp) opened [] in
  match tp !! k with
  | Some m => let e := touch now (opened !! k) in
      opened' !! k = Some (if dueNow ra now e then markReported e else e) /\
      of_key k fresh' = if dueNow ra now e then [(k, m)] else []
  | None => opened' !! k = opened !! k /\ of_key k fresh' = []
  end.
Proof.
  pose proof (recordLoop_key ra now (inOrder tp) opened [] k (inOrder_nodup tp)) as H.
  destruct (recordLoop _ _ _ _ _) as [o f]. destruct (tp !! k) as [m|] eqn:E.
  - destruct (list_find _ _) as [[i [k' m']]|] eqn:Ef.
    + apply list_find_Some in Ef as (Hl & Hk & _). simpl in Hk. subst.
      apply list_elem_of_lookup_2, inOrder_elem in Hl. by simplify_eq.
    + apply list_find_None in Ef. rewrite Forall_forall in Ef. apply inOrder_elem in E.
      by destruct (Ef _ E).
  - destruct (list_find _ _) as [[i [k' m']]|] eqn:Ef; [|done].
    apply list_find_Some in Ef as (Hl & Hk & _). simpl in Hk. subst.
    apply list_elem_of_lookup_2, inOrder_elem in Hl. congruence.
Qed.

Lemma endPass_key now log k :
  let '(log', rep) := endPass now log in
  let '(o', fresh, rec) :=
    passKey (m_reportAfter log) (m_forgetAfter log) now (m_thisPass log !! k) (m_open log !! k) in
  m_open log' !! k = o' /\ of_key k (newFailures rep) = (k,.) <$> fresh /\
  of_key k (recovered rep) = (k,.) <$> rec.
Proof.
  destruct log as [tp opened ra fa]. unfold endPass, passKey. simpl.
  pose proof (prune_inOrder (expired fa now) opened [] k) as H1.
  destruct (pruneLoop (expired fa now) _ _ _) as [o1 r1].
  pose proof (record_inOrder ra now tp o1 k) as H2.
  destruct (recordLoop _ _ _ _ _) as [o2 f2].
  pose proof (prune_inOrder (absent fa now tp) o2 r1 k) as H3.
  destruct (pruneLoop (absent fa now tp) _ _ _) as [o3 r3]. simpl.
  assert (o1 !! k = match opened !! k with
                    | Some e => if expired fa now EmptyString e then None else Some e
                    | None => None end /\
          of_key k r1 = (k,.) <$> match opened !! k with
                    | Some e => if expired fa now EmptyString e then recoveryOf e else []
                    | None => [] end) as [Ho1 Hr1].
  { destruct (opened !! k) as [e|]; [|done]. unfold expired in *. destruct (_ && _); done. }
  clear H1. destruct (tp !! k) as [m|] eqn:Et; cbn zeta in H2; destruct H2 as [Ho2 Hf2].
  - rewrite Ho2 in H3. unfold absent in H3 at 1. rewrite Et, Hr1 in H3. simpl in H3. rewrite Ho1 in *.
    destruct H3 as [Ho3 Hr3]. destruct (opened !! k) as [e|]; [destruct (expired _ _ _ _)|];
      destruct (dueNow _ _ _); done.
  - rewrite Ho2 in H3. rewrite Ho1, Hr1 in H3. unfold absent in H3. rewrite Et in H3. simpl in H3.
    destruct (opened !! k) as [e|]; [destruct (expired _ _ _ _)|].
    all: try case_bool_decide; destruct H3 as [-> ->]; by rewrite ?Hf2.
Qed.

(** * Sequences of passes *)

(** A pass: the failures recorded during it, in call order, and the time it is closed at. *)
Record Pass := { at_ : Z; failures : list (string * string) }.

Definition runPass (log : KeyedFailureLog) (p : Pass) : KeyedFailureLog * Report :=
  endPass (at_ p) (foldl (fun l f => record f.1 f.2 l) log (failures p)).

Fixpoint runPasses (log : KeyedFailureLog) (h : list Pass) : KeyedFailureLog * list Report :=
  match h with
  | [] => (log, [])
  | p :: h => let '(log', r) := runPass log p in
              let '(log'', rs) := runPasses log' h in (log'', r :: rs)
  end.

Definition failed (p : Pass) (k : string) : bool := bool_decide (k ∈ (failures p).*1).

(** Between passes nothing is recorded. *)
Definition settled (log : KeyedFailureLog) : Prop := m_thisPass log = ∅.

Lemma record_fold fs log :
  let log' := foldl (fun l f => record f.1 f.2 l) log fs in
  m_open log' = m_open log /\ m_reportAfter log' = m_reportAfter log /\
  m_forgetAfter log' = m_forgetAfter log /\
  forall k, is_Some (m_thisPass log' !! k) <-> is_Some (m_thisPass log !! k) \/ k ∈ fs.*1.
Proof.
  revert log. induction fs as [|[k0 m0] fs IH]; intros log; simpl; [set_solver|].
  destruct (IH (record k0 m0 log)) as (-> & -> & -> & Hk). split_and!; [done..|].
  intros k. rewrite Hk. simpl. rewrite lookup_insert, elem_of_cons. case_decide; naive_solver.
Qed.

(** One whole pass, from one key's point of view. *)
Lemma runPass_key log p k :
  settled log ->
  let '(log', rep) := runPass log p in
  settled log' /\ m_reportAfter log' = m_reportAfter log /\ m_forgetAfter log' = m_forgetAfter log /\
  exists msg, (is_Some msg <-> failed p k = true) /\
  let '(o', fresh, rec) :=
    passKey (m_reportAfter log) (m_forgetAfter log) (at_ p) msg (m_open log !! k) in
  m_open log' !! k = o' /\ of_key k (newFailures rep) = (k,.) <$> fresh /\
  of_key k (recovered rep) = (k,.) <$> rec.
Proof.
  intros Hs. unfold runPass.
  destruct (record_fold (failures p) log) as (Ho & Hra & Hfa & Hk).
  set (log1 := foldl _ log (failures p)) in *.
  pose proof (endPass_key (at_ p) log1 k) as H. rewrite Ho, Hra, Hfa in H.
  assert (settled (endPass (at_ p) log1).1 /\ m_reportAfter (endPass (at_ p) log1).1 = m_reportAfter log /\
          m_forgetAfter (endPass (at_ p) log1).1 = m_forgetAfter log) as Hcfg.
  { unfold endPass. rewrite <- Hra, <- Hfa. repeat case_match; done. }
  destruct (endPass (at_ p) log1) as [log' rep]. destruct Hcfg as (? & ? & ?). split_and!; [done..|].
  exists (m_thisPass log1 !! k). specialize (Hk k). rewrite Hs, lookup_empty in Hk.
  unfold failed. rewrite bool_decide_eq_true, Hk. split; [|exact H].
  split; [|by right]. intros [[]|]; done.
Qed.

(** * Each warning is paired with at most one recovery *)

Definition isReported (o : option Entry) : nat :=
  match o with Some e => if reported e then 1 else 0 | None => 0 end.

Lemma passKey_balance ra fa now msg o :
  let '(o', fresh, rec) := passKey ra fa now msg o in
  (isReported o + length fresh = isReported o' + length rec)%nat.
Proof.
  unfold passKey, recoveryOf, dueNow, touch.
  destruct msg, o as [[f l n []]|]; simpl; repeat (case_match || case_bool_decide); simplify_eq/=; done.
Qed.

Definition countKey {A} (k : string) (ls : list (list (string * A))) : nat := length (of_key k (concat ls)).

Lemma countKey_cons {A} k (l : list (string * A)) ls : countKey k (l :: ls) = (length (of_key k l) + countKey k ls)%nat.
Proof. unfold countKey. simpl. by rewrite of_key_app, length_app. Qed.

Lemma runPasses_balance log h k :
  settled log ->
  let '(log', rs) := runPasses log h in
  (isReported (m_open log !! k) + countKey k (newFailures <$> rs) =
   isReported (m_open log' !! k) + countKey k (recovered <$> rs))%nat.
Proof.
  revert log. induction h as [|p h IH]; intros log Hs; simpl; [done|].
  pose proof (runPass_key log p k Hs) as H. destruct (runPass log p) as [log1 r].
  destruct H as (Hs1 & _ & _ & msg & _ & H).
  pose proof (passKey_balance (m_reportAfter log) (m_forgetAfter log) (at_ p) msg (m_open log !! k)) as Hb.
  destruct (passKey _ _ _ _ _) as [[o' fresh] rec]. destruct H as (Ho & Hn & Hr).
  specialize (IH log1 Hs1). destruct (runPasses log1 h) as [log2 rs]. rewrite Ho in IH.
  rewrite !fmap_cons, !countKey_cons, Hn, Hr, !length_fmap. lia.
Qed.

(** Over any sequence of passes, the warnings issued for a key outnumber its recoveries by
    exactly one while the key is open and reported, and equal them otherwise.  So an open failure
    is warned about once, and every recovery answers one earlier warning. *)
Theorem failure_log_alternates ra fa h k :
  let '(log, rs) := runPasses (makeLog ra fa) h in
  countKey k (newFailures <$> rs) =
  (countKey k (recovered <$> rs) +
   match m_open log !! k with Some e => if reported e then 1 else 0 | None => 0 end)%nat.
Proof.
  pose proof (runPasses_balance (makeLog ra fa) h k eq_refl) as H.
  destruct (runPasses _ h) as [log rs]. unfold isReported in H. simpl in H. rewrite lookup_empty in H. lia.
Qed.

(** * The hold-off *)

(** [persistent fa k h t0 tl]: along [h] the failure [k] was recorded at [t0] and last at [tl],
    and since [t0] it was never gone for [fa] at the close of a pass. *)
Inductive persistent (fa : Z) (k : string) : list Pass -> Z -> Z -> Prop :=
  | persist_start h p : failed p k = true -> persistent fa k (h ++ [p]) (at_ p) (at_ p)
  | persist_again h p t0 tl : persistent fa k h t0 tl -> failed p k = true -> at_ p - tl < fa ->
      persistent fa k (h ++ [p]) t0 (at_ p)
  | persist_gap h p t0 tl : persistent fa k h t0 tl -> failed p k = false -> at_ p - tl < fa ->
      persistent fa k (h ++ [p]) t0 tl.

Lemma persistent_snoc fa k h p t0 tl :
  persistent fa k (h ++ [p]) t0 tl ->
  (failed p k = true /\ tl = at_ p /\ (t0 = at_ p \/ exists tl', persistent fa k h t0 tl' /\ at_ p - tl' < fa)) \/
  (failed p k = false /\ persistent fa k h t0 tl /\ at_ p - tl < fa).
Proof.
  intros H. remember (h ++ [p]) as hp eqn:E.
  destruct H as [h' p' Hf|h' p' t0 tl Hp Hf Hg|h' p' t0 tl Hp Hf Hg];
    apply app_inj_tail in E as [-> ->]; naive_solver.
Qed.

(** Passes are closed in the order of the clock. *)
Definition ordered : list Pass -> Prop := StronglySorted (fun p q => at_ p <= at_ q).

Lemma ordered_last h p q : ordered (h ++ [p]) -> q ∈ h -> at_ q <= at_ p.
Proof. intros Ho Hq. eapply (StronglySorted_app_1_elem_of (fun p q => at_ p <= at_ q)); [exact Ho|done|set_solver]. Qed.

Lemma persistent_times fa k h t0 tl :
  persistent fa k h t0 tl -> ordered h -> t0 <= tl /\ tl ∈ at_ <$> h.
Proof.
  induction 1 as [h p Hf|h p t0 tl Hp IH Hf Hg|h p t0 tl Hp IH Hf Hg]; intros Ho; rewrite fmap_app; simpl.
  - split; [lia|set_solver].
  - destruct IH as [H1 (q & -> & Hq)%list_elem_of_fmap]; [by eapply StronglySorted_app_1_l|].
    split; [|set_solver]. etrans; [exact H1|]. by apply (ordered_last h).
  - destruct IH as [H1 H2]; [by eapply StronglySorted_app_1_l|]. set_solver.
Qed.

Lemma persistent_le_next fa k h p t0 tl :
  persistent fa k h t0 tl -> ordered (h ++ [p]) -> t0 <= tl <= at_ p.
Proof.
  intros Hp Ho. destruct (persistent_times _ _ _ _ _ Hp) as [H1 (q & -> & Hq)%list_elem_of_fmap];
    [by eapply StronglySorted_app_1_l|]. split; [done|].
  by apply (ordered_last h).
Qed.

Lemma runPasses_snoc log h p : (runPasses log (h ++ [p])).1 = (runPass (runPasses log h).1 p).1.
Proof.
  revert log. induction h as [|q h IH]; intros log; simpl.
  - by destruct (runPass log p).
  - destruct (runPass log q) as [log1 r]. specialize (IH log1).
    destruct (runPasses log1 (h ++ [p])), (runPasses log1 h). simpl in *. done.
Qed.

(** The entry of a key tells its streak, and every streak is in the entry. *)
Definition entry_ok (ra fa : Z) (k : string) (h : list Pass) (o : option Entry) : Prop :=
  (forall e, o = Some e -> persistent fa k h (firstSeen e) (lastSeen e) /\
     reported e = bool_decide (ra <= lastSeen e - firstSeen e)) /\
  (forall t0 tl, persistent fa k h t0 tl -> exists e, o = Some e /\ lastSeen e = tl /\ firstSeen e <= t0).

Lemma entry_ok_seen ra fa k h p o :
  0 < fa -> ordered (h ++ [p]) -> entry_ok ra fa k h o -> failed p k = true ->
  entry_ok ra fa k (h ++ [p])
    (let e := touch (at_ p) (match o with
       | Some e => if expired fa (at_ p) EmptyString e then None else Some e | None => None end) in
     Some (if dueNow ra (at_ p) e then markReported e else e)).
Proof.
  intros Hfa Ho [Hs Hc] Hf. cbn zeta.
  assert (o = None \/ (exists e, o = Some e /\ fa <= at_ p - lastSeen e) \/
          (exists e, o = Some e /\ at_ p - lastSeen e < fa)) as Hcase.
  { destruct o as [e|]; [right|by left]. destruct (decide (fa <= at_ p - lastSeen e)); [left|right]; exists e; split; lia || done. }
  assert (match o with Some e => if expired fa (at_ p) EmptyString e then None else Some e | None => None end =
          match o with Some e => if bool_decide (fa <= at_ p - lastSeen e) then None else Some e | None => None end) as ->.
  { destruct o as [e|]; [|done]. unfold expired. by rewrite (bool_decide_true (0 < fa)), andb_true_r by done. }
  split.
  - intros e [= <-]. unfold dueNow.
    destruct Hcase as [->|[(e & -> & He)|(e & -> & He)]]; simpl.
    1,2: rewrite ?bool_decide_true by done; simpl; case_bool_decide; simpl; (split; [by apply persist_start|]);
      symmetry; (apply bool_decide_eq_true || apply bool_decide_eq_false); done.
    rewrite bool_decide_false by lia. simpl. destruct (Hs e eq_refl) as [Hp Hr].
    pose proof (persistent_le_next _ _ _ _ _ _ Hp Ho) as Hle.
    assert (persistent fa k (h ++ [p]) (firstSeen e) (at_ p)) as Hp' by (eapply persist_again; eauto).
    rewrite Hr. repeat case_bool_decide; simpl; try (split; [done|]); rewrite ?Hr; repeat case_bool_decide; done || lia.
  - intros t0 tl [(_ & -> & Hor)|(Hf' & _)]%persistent_snoc; [|congruence].
    eexists. split; [done|]. split; [by destruct (dueNow _ _ _), o as [e|]; simpl; repeat case_match|].
    assert (forall e, firstSeen (if dueNow ra (at_ p) e then markReported e else e) = firstSeen e) as ->
      by (intros e; by destruct (dueNow ra (at_ p) e)).
    destruct Hcase as [->|[(e & -> & He)|(e & -> & He)]]; simpl.
    + destruct Hor as [->|(tl' & Hp & _)]; [done|]. by destruct (Hc _ _ Hp) as (? & ? & _).
    + rewrite bool_decide_true by done. simpl. destruct Hor as [->|(tl' & Hp & Hg)]; [done|].
      destruct (Hc _ _ Hp) as (e' & [= <-] & <- & _). lia.
    + rewrite bool_decide_false by lia. simpl. destruct Hor as [->|(tl' & Hp & Hg)].
      * destruct (Hs e eq_refl) as [Hp _]. pose proof (persistent_le_next _ _ _ _ _ _ Hp Ho). lia.
      * destruct (Hc _ _ Hp) as (e' & [= <-] & _ & ?). done.
Qed.

Lemma entry_ok_unseen ra fa k h p o :
  0 < fa -> entry_ok ra fa k h o -> failed p k = false ->
  entry_ok ra fa k (h ++ [p])
    (match o with Some e => if bool_decide (fa <= at_ p - lastSeen e) then None else Some e | None => None end).
Proof.
  intros Hfa [Hs Hc] Hf. split.
  - intros e He. destruct o as [e0|]; [|done]. case_bool_decide; [done|]. injection He as <-.
    destruct (Hs e0 eq_refl) as [Hp Hr]. split; [|done]. apply persist_gap; [done..|lia].
  - intros t0 tl [(Hf' & _)|(_ & Hp & Hg)]%persistent_snoc; [congruence|].
    destruct (Hc _ _ Hp) as (e & -> & <- & Hle). exists e. by rewrite bool_decide_false by lia.
Qed.

Lemma passKey_entry_ok ra fa k h p msg o :
  0 < fa -> ordered (h ++ [p]) -> entry_ok ra fa k h o -> (is_Some msg <-> failed p k = true) ->
  entry_ok ra fa k (h ++ [p]) (passKey ra fa (at_ p) msg o).1.1.
Proof.
  intros Hfa Ho Hok Hmsg. unfold passKey. destruct msg as [m|].
  - pose proof (entry_ok_seen _ _ _ _ _ _ Hfa Ho Hok (proj1 Hmsg (mk_is_Some _ _ eq_refl))) as H.
    cbn zeta in H. destruct o as [e|]; [destruct (expired _ _ _ e)|]; destruct (dueNow _ _ _); exact H.
  - assert (failed p k = false) as Hf by (destruct (failed p k); [destruct (proj2 Hmsg eq_refl); done|done]).
    pose proof (entry_ok_unseen _ _ _ _ _ _ Hfa Hok Hf) as H. destruct o as [e|]; [|exact H].
    unfold expired. rewrite (bool_decide_true (0 < fa)), andb_true_r by done.
    case_bool_decide as He; [exact H|]. by rewrite bool_decide_false.
Qed.

Lemma runPasses_entry_ok ra fa0 h k :
  let fa := default (ra * 2) fa0 in
  0 < fa -> ordered h ->
  let log := (runPasses (makeLog ra fa0) h).1 in
  settled log /\ m_reportAfter log = ra /\ m_forgetAfter log = fa /\ entry_ok ra fa k h (m_open log !! k).
Proof.
  intros fa Hfa. induction h as [|p h IH] using rev_ind; intros Ho; cbn zeta.
  - split_and!; [done..|]. simpl. rewrite lookup_empty. split; [done|].
    intros t0 tl H. by inversion H; destruct h.
  - destruct IH as (Hs & Hra & Hf & Hok); [by eapply StronglySorted_app_1_l|].
    rewrite runPasses_snoc. set (log := (runPasses (makeLog ra fa0) h).1) in *.
    pose proof (runPass_key log p k Hs) as H. destruct (runPass log p) as [log' r]. simpl.
    destruct H as (Hs' & Hra' & Hf' & msg & Hmsg & H). rewrite Hra, Hf in *.
    pose proof (passKey_entry_ok ra fa k h p msg _ Hfa Ho Hok Hmsg) as H'.
    destruct (passKey _ _ _ _ _) as [[o' fresh] rec]. destruct H as [-> _]. by split_and!.
Qed.

(** The hold-off is exact.  After passes closed in clock order, a failure is open and reported
    if and only if it has a streak, never interrupted for [forgetAfter], whose first and last
    sightings are at least [reportAfter] apart.  A flapping failure accumulates towards its report
    instead of restarting, and a failure that clears early is never reported. *)
Theorem failure_log_holdoff ra fa0 h k :
  let fa := default (ra * 2) fa0 in
  0 < fa -> ordered h ->
  (exists e, m_open (runPasses (makeLog ra fa0) h).1 !! k = Some e /\ reported e = true) <->
  (exists t0 tl, persistent fa k h t0 tl /\ ra <= tl - t0).
Proof.
  intros fa Hfa Ho. destruct (runPasses_entry_ok ra fa0 h k Hfa Ho) as (_ & _ & _ & Hs & Hc). split.
  - intros (e & He & Hr). destruct (Hs e He) as [Hp Hr']. exists (firstSeen e), (lastSeen e).
    split; [done|]. rewrite Hr in Hr'. by symmetry in Hr'; apply bool_decide_eq_true in Hr'.
  - intros (t0 & tl & Hp & Hra). destruct (Hc _ _ Hp) as (e & He & <- & Hle). exists e. split; [done|].
    destruct (Hs e He) as [_ ->]. apply bool_decide_eq_true. lia.
Qed.

(** A failure that is absent from every second pass, with a hold-off of 15 and memory of 30. *)
Definition flapping : list Pass :=
  [{| at_ := 0; failures := [("4:3", "edge not found")] |}; {| at_ := 8; failures := [] |};
   {| at_ := 16; failures := [("4:3", "edge not found")] |}].

Lemma failure_log_holdoff_witness :
  0 < 30 /\ ordered flapping /\
  exists e, m_open (runPasses (makeLog 15 None) flapping).1 !! "4:3" = Some e /\ reported e = true.
Proof.
  assert (ordered flapping) as Ho by (repeat constructor; simpl; lia).
  split; [lia|]. split; [exact Ho|]. apply (failure_log_holdoff 15 None flapping "4:3"); [simpl; lia|exact Ho|].
  exists 0, 16. split; [|lia].
  apply (persist_again 30 "4:3" [_; _] {| at_ := 16; failures := [("4:3", "edge not found")] |} 0 0); [|reflexivity|simpl; lia].
  apply (persist_gap 30 "4:3" [_] {| at_ := 8; failures := [] |} 0 0); [|reflexivity|simpl; lia].
  apply (persist_start 30 "4:3" [] {| at_ := 0; failures := [("4:3", "edge not found")] |}). reflexivity.
Defined.
