(* ===== verification/EventSystem.v ===== *)
(** The event system (include/event_system): the synchronous bus of EventBus.hpp and the payload
    parser of RequestParser.hpp.

    A handler is an opaque callable; what it does when called is a program over the outside world
    and the bus, so handlers may register further handlers and emit further events.  The lock is
    held only while the handler list is copied, so an emit is: copy, then call one by one. *)

From S2P Require Import Prelude CStrings Json.
Local Open Scope string_scope.
Local Open Scope list_scope.
Local Open Scope Z_scope.

Inductive EventType :=
  | FlowAdded | LinkFailureDetected | IdleFlowPurged | LinkRecoveryDetected | SwitchEntered | SwitchExited.

#[export] Instance EventType_eq_dec : EqDecision EventType.
Proof. solve_decision. Defined.

#[export] Instance EventType_countable : Countable EventType.
Proof.
  refine (inj_countable'
    (fun t => match t with FlowAdded => 0 | LinkFailureDetected => 1 | IdleFlowPurged => 2
              | LinkRecoveryDetected => 3 | SwitchEntered => 4 | SwitchExited => 5 end%nat)
    (fun n => match n with 0 => FlowAdded | 1 => LinkFailureDetected | 2 => IdleFlowPurged
              | 3 => LinkRecoveryDetected | 4 => SwitchEntered | _ => SwitchExited end%nat) _).
  by intros [].
Defined.

Module EventBus.
Section Bus.

(** Payloads ([std::any]), callables and the state outside the bus. *)
Context {Payload Handler World : Type}.

Record Event := { type : EventType; payload : Payload }.

(** What a handler does during a call. *)
Inductive prog :=
  | PDone
  | PWorld (f : World -> World) (k : World -> prog)
  | PRegister (t : EventType) (h : Handler) (k : prog)
  | PEmit (e : Event) (k : prog).

Context (body : Handler -> Event -> prog).

Abbreviation Bus := (gmap EventType (list Handler)).

Definition registerHandler (t : EventType) (h : Handler) (m_handlers : Bus) : Bus :=
  <[t := default [] (m_handlers !! t) ++ [h]]> m_handlers.

Definition handlersOf (b : Bus) (t : EventType) : list Handler := default [] (b !! t).

(** Calls made so far, with the nesting depth of the emit that made them. *)
Abbreviation calls := (list (nat * Handler * Event)).
Definition St : Type := Bus * World * calls.

(** A handler's program, with [em] running a nested emit. *)
Fixpoint runProg (em : Event -> St -> option St) (p : prog) (st : St) : option St :=
  match p with
  | PDone => Some st
  | PWorld f k => let '(b, w, c) := st in runProg em (k w) (b, f w, c)
  | PRegister t h k => let '(b, w, c) := st in runProg em k (registerHandler t h b, w, c)
  | PEmit e k => match em e st with Some st' => runProg em k st' | None => None end
  end.

Fixpoint callAll (em : Event -> St -> option St) (d : nat) (e : Event) (hs : list Handler) (st : St)
  : option St :=
  match hs with
  | [] => Some st
  | h :: hs =>
      let '(b, w, c) := st in
      match runProg em (body h e) (b, w, c ++ [(d, h, e)]) with
      | Some st' => callAll em d e hs st'
      | None => None
      end
  end.

(** [fuel] bounds the nesting of emits. *)
Fixpoint emit (fuel : nat) (d : nat) (e : Event) (st : St) : option St :=
  match fuel with
  | O => None
  | S fuel =>
      let '(b, w, c) := st in
      match b !! type e with
      | None => Some st
      | Some handlers => callAll (emit fuel (S d)) d e handlers st
      end
  end.

(** * What an emit guarantees *)

(** [extends d st st']: handlers are only appended, and the new calls are at depth [d] or more. *)
Definition extends (d : nat) (st st' : St) : Prop :=
  (forall t, handlersOf st.1.1 t `prefix_of` handlersOf st'.1.1 t) /\
  exists new, st'.2 = st.2 ++ new /\ Forall (fun x => (d <= x.1.1)%nat) new.

Lemma extends_refl d st : extends d st st.
Proof. split; [done|]. exists []. by rewrite app_nil_r. Qed.

Lemma extends_trans d st1 st2 st3 : extends d st1 st2 -> extends d st2 st3 -> extends d st1 st3.
Proof.
  intros [H1 (n1 & E1 & F1)] [H2 (n2 & E2 & F2)]. split; [intros t; etrans; [apply H1|apply H2]|].
  exists (n1 ++ n2). rewrite E2, E1, <- app_assoc. split; [done|by apply Forall_app].
Qed.

Lemma extends_weaken d d' st st' : (d <= d')%nat -> extends d' st st' -> extends d st st'.
Proof.
  intros Hd [H (n & E & F)]. split; [done|]. exists n. split; [done|].
  eapply Forall_impl; [exact F|]. simpl. lia.
Qed.

Lemma registerHandler_prefix t h b t' : handlersOf b t' `prefix_of` handlersOf (registerHandler t h b) t'.
Proof.
  unfold handlersOf, registerHandler. rewrite lookup_insert. case_decide; [subst|done].
  simpl. by apply prefix_app_r.
Qed.

Lemma runProg_extends d em p st st' :
  (forall e st st', em e st = Some st' -> extends d st st') ->
  runProg em p st = Some st' -> extends d st st'.
Proof.
  intros Hem. revert st. induction p as [|f k IH|t h k IH|e k IH]; intros [[b w] c] H; simpl in H.
  - simplify_eq. apply extends_refl.
  - apply IH in H. done.
  - apply IH in H. eapply extends_trans; [|exact H]. split; [intros t'; apply registerHandler_prefix|].
    exists []. by rewrite app_nil_r.
  - destruct (em e (b, w, c)) as [st1|] eqn:E; [|done]. eapply extends_trans; [by eapply Hem|by apply IH].
Qed.

Definition at_depth (d : nat) (c : calls) : calls := filter (fun x => x.1.1 = d) c.

Lemma at_depth_deeper d c : Forall (fun x => (S d <= x.1.1)%nat) c -> at_depth d c = [].
Proof.
  induction 1 as [|x c Hx HF IH]; [done|]. unfold at_depth in *. rewrite filter_cons, IH.
  case_decide; [lia|done].
Qed.

Lemma callAll_calls em d e hs st st' :
  (forall e st st', em e st = Some st' -> extends (S d) st st') ->
  callAll em d e hs st = Some st' ->
  extends d st st' /\ at_depth d st'.2 = at_depth d st.2 ++ ((fun h => (d, h, e)) <$> hs).
Proof.
  intros Hem. revert st. induction hs as [|h hs IH]; intros [[b w] c] H; cbn [callAll] in H.
  { simplify_eq. split; [apply extends_refl|]. by rewrite app_nil_r. }
  destruct (runProg em (body h e) _) as [st1|] eqn:Er; [|done].
  pose proof (runProg_extends (S d) em _ _ _ Hem Er) as He1. destruct (IH _ H) as [He2 Hc2].
  assert (extends d (b, w, c) (b, w, c ++ [(d, h, e)])) as He0.
  { split; [done|]. exists [(d, h, e)]. split; [done|]. by repeat constructor. }
  split.
  - eapply extends_trans; [exact He0|]. eapply extends_trans; [|exact He2].
    eapply extends_weaken; [|exact He1]. lia.
  - rewrite Hc2. destruct He1 as [_ (new & -> & HF)]. unfold at_depth in *. cbn [snd]. rewrite !filter_app.
    fold (at_depth d new). rewrite (at_depth_deeper _ _ HF), filter_cons, app_nil_r.
    rewrite decide_True by done. rewrite fmap_cons, <- app_assoc. done.
Qed.

Lemma emit_extends fuel d e st st' : emit fuel d e st = Some st' -> extends d st st'.
Proof.
  revert d e st st'. induction fuel as [|fuel IH]; intros d e [[b w] c] st' H; [done|]. cbn [emit] in H.
  destruct (b !! type e) as [hs|]; [|simplify_eq; apply extends_refl].
  eapply callAll_calls; [|exact H]. intros. by eapply IH.
Qed.

(** An emit calls exactly the handlers that were registered for the event's type when it
    began, each once and in registration order, whatever those handlers register or emit in turn;
    handlers registered meanwhile are kept, after the existing ones, but not called for it. *)
Theorem emit_calls_snapshot fuel d e b w c b' w' c' :
  emit fuel d e (b, w, c) = Some (b', w', c') ->
  at_depth d c' = at_depth d c ++ ((fun h => (d, h, e)) <$> handlersOf b (type e)) /\
  forall t, handlersOf b t `prefix_of` handlersOf b' t.
Proof.
  intros H. split; [|by apply (emit_extends _ _ _ _ _ H)]. destruct fuel as [|fuel]; [done|]. cbn [emit] in H.
  unfold handlersOf. destruct (b !! type e) as [hs|]; [|simplify_eq; by rewrite app_nil_r].
  eapply (callAll_calls (emit fuel (S d)) d e hs (b, w, c) (b', w', c')); [|exact H].
  intros. by eapply emit_extends.
Qed.

(** * Termination *)

(** The events a program emits, on every path it can take. *)
Inductive emits (P : Event -> Prop) : prog -> Prop :=
  | emits_done : emits P PDone
  | emits_world f k : (forall w, emits P (k w)) -> emits P (PWorld f k)
  | emits_register t h k : emits P k -> emits P (PRegister t h k)
  | emits_emit e k : P e -> emits P k -> emits P (PEmit e k).

Lemma runProg_total em p st P :
  emits P p -> (forall e st, P e -> is_Some (em e st)) -> is_Some (runProg em p st).
Proof.
  intros Hp Hem. revert st. induction Hp as [|f k _ IH|t h k _ IH|e k He _ IH]; intros [[b w] c]; simpl; eauto.
  destruct (Hem e (b, w, c) He) as [st' ->]. apply IH.
Qed.

Lemma callAll_total em d e hs st P :
  (forall h, emits P (body h e)) -> (forall e st, P e -> is_Some (em e st)) -> is_Some (callAll em d e hs st).
Proof.
  intros Hb Hem. revert st. induction hs as [|h hs IH]; intros [[b w] c]; simpl; [eauto|].
  destruct (runProg_total em (body h e) (b, w, c ++ [(d, h, e)]) P (Hb h) Hem) as [st' ->]. apply IH.
Qed.

(** Emits that only trigger events of lower rank terminate: if every handler, called for an
    event, emits only event types of smaller rank, then an emit completes within a nesting depth
    of its rank plus one, whatever handlers are registered before or during it. *)
Theorem emit_terminates (rank : EventType -> nat) d e st :
  (forall h e', emits (fun e'' => (rank (type e'') < rank (type e'))%nat) (body h e')) ->
  is_Some (emit (S (rank (type e))) d e st).
Proof.
  intros Hb. assert (forall n d e st, (rank (type e) < n)%nat -> is_Some (emit n d e st)) as H; [|by apply H; lia].
  intros n. induction n as [|n IH]; intros d' e' [[b w] c] Hr; [lia|]. cbn [emit].
  destruct (b !! type e') as [hs|]; [|eauto].
  eapply callAll_total; [intros h; apply Hb|]. intros e'' st' Hlt. apply IH. cbn beta in Hlt. lia.
Qed.

End Bus.
Arguments Event : clear implicits.
Arguments prog : clear implicits.

(** A bus on which the handler of a link failure registers one more handler for the same type and
    then emits a flow purge; numbers stand for the callables. *)
Definition sampleBody (h : nat) (e : Event unit) : prog unit nat unit :=
  match h, type e with
  | 1%nat, LinkFailureDetected =>
      PRegister LinkFailureDetected 3%nat (PEmit {| type := IdleFlowPurged; payload := tt |} PDone)
  | _, _ => PDone
  end.

Definition sampleBus : gmap EventType (list nat) :=
  registerHandler IdleFlowPurged 2%nat
    (registerHandler LinkFailureDetected 2%nat (registerHandler LinkFailureDetected 1%nat ∅)).

Definition linkFailure : Event unit := {| type := LinkFailureDetected; payload := tt |}.

Lemma emit_calls_snapshot_witness :
  exists b' w' c', emit sampleBody 2 0 linkFailure (sampleBus, tt, []) = Some (b', w', c') /\
    at_depth 0 c' = [(0, 1, linkFailure); (0, 2, linkFailure)]%nat /\
    handlersOf b' LinkFailureDetected = [1; 2; 3]%nat.
Proof.
  destruct (emit sampleBody 2 0 linkFailure (sampleBus, tt, [])) as [[[b' w'] c']|] eqn:E;
    [|vm_compute in E; discriminate E].
  exists b', w', c'. split; [reflexivity|].
  destruct (emit_calls_snapshot sampleBody 2 0 linkFailure sampleBus tt [] b' w' c' E) as [Hc _].
  split; [exact Hc|]. vm_compute in E. injection E as <- _ _. reflexivity.
Defined.

Lemma emit_terminates_witness : is_Some (emit sampleBody 2 0 linkFailure (sampleBus, tt, [])).
Proof.
  apply (emit_terminates sampleBody (fun t => match t with LinkFailureDetected => 1 | _ => 0 end)%nat 0 linkFailure).
  intros h [t []]. destruct h as [|[|h]], t; repeat constructor.
Defined.

End EventBus.

(** * Link-failure payloads *)

Module RequestParser.

Record LinkFailedEventPayload := { srcDpid : Z; srcInterface : Z; dstDpid : Z; dstInterface : Z }.

(** [operator[]] on an object that has the key. *)
Definition getUint32 (data : json) (k : string) : outcome Z :=
  let! v := jat data k in
  if is_number_unsigned v then get_u32 v
  else if is_string v then let! s := get_string v in omap_out u32 (stoull 10 s)
  else Throw RuntimeError.

Definition getUint64 (data : json) (k : string) : outcome Z :=
  let! v := jat data k in
  if is_number_unsigned v then get_u64 v
  else if is_string v then let! s := get_string v in stoull 10 s
  else Throw RuntimeError.

Definition linkKeys : list string := ["src_dpid"; "src_interface"; "dst_dpid"; "dst_interface"].

Definition readLinkFailed (data : json) : outcome LinkFailedEventPayload :=
  let! s := getUint64 data "src_dpid" in
  let! si := getUint32 data "src_interface" in
  let! d := getUint64 data "dst_dpid" in
  let! di := getUint32 data "dst_interface" in
  Ret {| srcDpid := s; srcInterface := si; dstDpid := d; dstInterface := di |}.

(** [parse] is the JSON parser of the library: [None] when it throws. *)
Definition parseLinkFailedEventPayload (parse : string -> option json) (jsonStr : string)
  : option LinkFailedEventPayload :=
  match parse jsonStr with
  | None => None
  | Some data =>
      if forallb (contains data) linkKeys
      then match readLinkFailed data with Ret p => Some p | Throw _ => None end
      else None
  end.

(** A field is written as an unsigned number or as its decimal text. *)
Definition writes (data : json) (k : string) (v : Z) : Prop :=
  jfind data k = Some (JUnsigned v) \/ jfind data k = Some (JString (std_to_string v)).

Lemma writes_contains data k v : writes data k v -> contains data k = true.
Proof. intros [H|H]; unfold contains; rewrite H; by apply bool_decide_eq_true_2. Qed.

Lemma jat_jfind data k v : jfind data k = Some v -> jat data k = Ret v.
Proof. unfold jat, jfind. destruct data; try done. intros ->. done. Qed.

Lemma stoull_text v : fits 64 v -> stoull 10 (std_to_string v) = Ret v.
Proof. intros [H0 H]. unfold stoull. rewrite stoull_to_string by done. by rewrite bool_decide_true. Qed.

Lemma getUint64_writes data k v : fits 64 v -> writes data k v -> getUint64 data k = Ret v.
Proof.
  intros Hv [H|H]; unfold getUint64; rewrite (jat_jfind _ _ _ H); simpl; [f_equal; by apply u64_id|].
  by apply stoull_text.
Qed.

Lemma getUint32_writes data k v : fits 32 v -> writes data k v -> getUint32 data k = Ret v.
Proof.
  intros Hv [H|H]; unfold getUint32; rewrite (jat_jfind _ _ _ H); simpl.
  - f_equal. by apply u32_id.
  - unfold fits in Hv. rewrite stoull_text by (unfold fits; lia). cbn. f_equal. by apply u32_id.
Qed.

(** A link-failure report carrying the four fields, each as an unsigned number or as its
    decimal text and within its width, is parsed to exactly those fields. *)
Theorem link_payload_roundtrip parse text data p :
  parse text = Some data ->
  fits 64 (srcDpid p) -> fits 32 (srcInterface p) -> fits 64 (dstDpid p) -> fits 32 (dstInterface p) ->
  writes data "src_dpid" (srcDpid p) -> writes data "src_interface" (srcInterface p) ->
  writes data "dst_dpid" (dstDpid p) -> writes data "dst_interface" (dstInterface p) ->
  parseLinkFailedEventPayload parse text = Some p.
Proof.
  intros Hparse H1 H2 H3 H4 W1 W2 W3 W4. unfold parseLinkFailedEventPayload. rewrite Hparse.
  unfold linkKeys. cbn [forallb].
  rewrite (writes_contains _ _ _ W1), (writes_contains _ _ _ W2), (writes_contains _ _ _ W3),
    (writes_contains _ _ _ W4). cbn [andb]. unfold readLinkFailed.
  rewrite (getUint64_writes _ _ _ H1 W1), (getUint32_writes _ _ _ H2 W2). cbn [obind].
  rewrite (getUint64_writes _ _ _ H3 W3), (getUint32_writes _ _ _ H4 W4). by destruct p.
Qed.

Definition sampleReport : json :=
  JObject [("src_dpid", JString "18446744073709551615"); ("src_interface", JUnsigned 3);
           ("dst_dpid", JUnsigned 2); ("dst_interface", JString "1")].

Lemma link_payload_roundtrip_witness :
  parseLinkFailedEventPayload (fun _ => Some sampleReport) "" =
  Some (Build_LinkFailedEventPayload 18446744073709551615 3 2 1).
Proof.
  apply (link_payload_roundtrip (fun _ => Some sampleReport) "" sampleReport); try reflexivity.
  all: try (split; simpl; lia).
  - right. reflexivity.
  - left. reflexivity.
  - left. reflexivity.
  - right. reflexivity.
Defined.

End RequestParser.
