(* ===== verification/SFlowTypes.v ===== *)
(** The flow-monitoring data types (include/common_types/SFlowType.hpp): keys, path hops, the
    sliding window of samples, saturating counters, averaged rates and the bounded datagram view.

    The steady clock is an argument of every operation that reads it, in milliseconds. *)

From S2P Require Import Prelude Bytes CStrings Json.
Local Open Scope string_scope.
Local Open Scope list_scope.
Local Open Scope Z_scope.

Definition TIME_UNIT_INTERVAL : Z := 1000.

(** * Keys *)

Record FlowKey := {
  srcIP : Z; dstIP : Z; srcPort : Z; dstPort : Z; protocol : Z; icmpType : Z; icmpCode : Z
}.

#[export] Instance FlowKey_eq_dec : EqDecision FlowKey.
Proof. solve_decision. Defined.

#[export] Instance FlowKey_countable : Countable FlowKey.
Proof.
  refine (inj_countable'
    (fun k => (srcIP k, dstIP k, srcPort k, dstPort k, protocol k, icmpType k, icmpCode k))
    (fun '(a, b, c, d, e, f, g) => Build_FlowKey a b c d e f g) _).
  by intros [].
Defined.

Record AgentKey := { agentIP : Z; interfacePort : Z }.

#[export] Instance AgentKey_eq_dec : EqDecision AgentKey.
Proof. solve_decision. Defined.

#[export] Instance AgentKey_countable : Countable AgentKey.
Proof.
  refine (inj_countable' (fun k => (agentIP k, interfacePort k)) (fun '(a, b) => Build_AgentKey a b) _).
  by intros [].
Defined.

Abbreviation Path := (list (Z * Z)).

Definition to_json (fk : FlowKey) : json :=
  JObject [("src_ip", JUnsigned (srcIP fk)); ("dst_ip", JUnsigned (dstIP fk));
           ("src_port", JUnsigned (srcPort fk)); ("dst_port", JUnsigned (dstPort fk));
           ("protocol_number", JUnsigned (protocol fk))].

(** Assigns the five fields of [fk]; the ICMP fields keep their values. *)
Definition from_json (j : json) (fk : FlowKey) : outcome FlowKey :=
  let! a := jat j "src_ip" in let! a := get_u32 a in
  let! b := jat j "dst_ip" in let! b := get_u32 b in
  let! c := jat j "src_port" in let! c := get_arith u16 c in
  let! d := jat j "dst_port" in let! d := get_arith u16 d in
  let! e := jat j "protocol_number" in let! e := get_arith u8 e in
  Ret {| srcIP := a; dstIP := b; srcPort := c; dstPort := d; protocol := e;
         icmpType := icmpType fk; icmpCode := icmpCode fk |}.

Definition wf_flow_key (k : FlowKey) : Prop :=
  fits 32 (srcIP k) /\ fits 32 (dstIP k) /\ fits 16 (srcPort k) /\ fits 16 (dstPort k) /\
  fits 8 (protocol k) /\ fits 16 (icmpType k) /\ fits 16 (icmpCode k).

(** * Path hops *)

Definition is_integer (j : json) : bool := is_number_unsigned j || is_number_integer j.

(** The node of a hop: a dotted address (network order) or a non-negative dpid. *)
Definition parseHopNode (nodeField : json) : outcome (option Z) :=
  if is_string nodeField then
    let! text := get_string nodeField in
    Ret (s_addr <$> inet_pton text)
  else if is_integer nodeField then
    let! raw := get_i64 nodeField in
    Ret (if bool_decide (raw < 0) then None else Some (u64 raw))
  else Ret None.

Definition parseHopPort (portField : json) : outcome (option Z) :=
  if is_integer portField then
    let! raw := get_i64 portField in
    Ret (if bool_decide (raw < 0) || bool_decide (4294967295 < raw) then None else Some (u32 raw))
  else if is_string portField then
    let! text := get_string portField in
    Ret (from_chars_all 32 10 text)
  else Ret None.

Definition tryParsePathNode (nodeJson : json) : outcome (option (Z * Z)) :=
  match nodeJson with
  | JArray (nodeField :: portField :: _) =>
      let! node := parseHopNode nodeField in
      match node with
      | None => Ret None
      | Some nodeId =>
          let! port := parseHopPort portField in
          Ret (port ← port; Some (nodeId, port))
      end
  | _ => Ret None
  end.

(** * The sliding window *)

Record ExtractedSFlowData := { packetFrameLengthInByte : Z; timestampInMilliseconds : Z }.

Record AutoRefreshQueue := {
  m_queue : list ExtractedSFlowData;
  m_interval : Z;
  m_sum : Z
}.

Definition newQueue (interval : Z) : AutoRefreshQueue :=
  {| m_queue := []; m_interval := interval; m_sum := 0 |}.

(** The [while] loop of [refresh], over the queue from its front. *)
Fixpoint refreshLoop (now interval : Z) (q : list ExtractedSFlowData) (sum : Z)
  : list ExtractedSFlowData * Z :=
  match q with
  | [] => ([], sum)
  | s :: q' =>
      if bool_decide (interval < now - timestampInMilliseconds s)
      then refreshLoop now interval q' (u64 (sum - packetFrameLengthInByte s))
      else (q, sum)
  end.

Definition refresh (now : Z) (a : AutoRefreshQueue) : AutoRefreshQueue :=
  let '(q, s) := refreshLoop now (m_interval a) (m_queue a) (m_sum a) in
  {| m_queue := q; m_interval := m_interval a; m_sum := s |}.

Definition push (now : Z) (sample : ExtractedSFlowData) (a : AutoRefreshQueue) : AutoRefreshQueue :=
  refresh now {| m_queue := m_queue a ++ [sample]; m_interval := m_interval a;
                 m_sum := u64 (m_sum a + packetFrameLengthInByte sample) |}.

Definition getSum (now : Z) (a : AutoRefreshQueue) : AutoRefreshQueue * Z :=
  let a' := refresh now a in (a', m_sum a').

Definition clear (a : AutoRefreshQueue) : AutoRefreshQueue :=
  {| m_queue := []; m_interval := m_interval a; m_sum := 0 |}.

Definition queueSize (a : AutoRefreshQueue) : nat := length (m_queue a).

(** * Counters, rates, flow records *)

Record FlowStats := {
  ingressByteCountCurrent : Z; egressByteCountCurrent : Z;
  ingressByteCountPrevious : Z; egressByteCountPrevious : Z;
  ingresspacketCountCurrent : Z; egresspacketCountCurrent : Z;
  ingresspacketCountPrevious : Z; egresspacketCountPrevious : Z;
  avgByteRateInBps : Z; avgPacketRate : Z; samplingRate : Z;
  packetQueue : AutoRefreshQueue
}.

Definition emptyStats : FlowStats := {|
  ingressByteCountCurrent := 0; egressByteCountCurrent := 0;
  ingressByteCountPrevious := 0; egressByteCountPrevious := 0;
  ingresspacketCountCurrent := 0; egresspacketCountCurrent := 0;
  ingresspacketCountPrevious := 0; egresspacketCountPrevious := 0;
  avgByteRateInBps := 0; avgPacketRate := 0; samplingRate := 1;
  packetQueue := newQueue TIME_UNIT_INTERVAL |}.

Definition counterDelta (current previous : Z) : Z :=
  if bool_decide (previous <= current) then u64 (current - previous) else 0.

Record EstimatedRates := { flowSendingRate : Z; packetSendingRate : Z; hasActiveHops : bool }.

Definition noRates : EstimatedRates := {| flowSendingRate := 0; packetSendingRate := 0; hasActiveHops := false |}.

Definition computeEstimatedRates (accumulatedFlowRate accumulatedPacketRate hopsCounter : Z) : EstimatedRates :=
  if bool_decide (hopsCounter <= 0) then noRates
  else
    let hops := u64 hopsCounter in
    {| flowSendingRate := accumulatedFlowRate / hops; packetSendingRate := accumulatedPacketRate / hops;
       hasActiveHops := true |}.

Record FlowInfo := {
  agentFlowStats : gmap AgentKey FlowStats;
  estimatedFlowSendingRatePeriodically : Z; estimatedFlowSendingRateImmediately : Z;
  estimatedPacketSendingRatePeriodically : Z; estimatedPacketSendingRateImmediately : Z;
  startTime : Z; endTime : Z;
  isElephantFlowPeriodically : bool; isElephantFlowImmediately : bool;
  isAck : bool; isPureAck : bool;
  flowPath : Path
}.

Definition emptyFlowInfo : FlowInfo := {|
  agentFlowStats := ∅;
  estimatedFlowSendingRatePeriodically := 0; estimatedFlowSendingRateImmediately := 0;
  estimatedPacketSendingRatePeriodically := 0; estimatedPacketSendingRateImmediately := 0;
  startTime := 0; endTime := 0; isElephantFlowPeriodically := false; isElephantFlowImmediately := false;
  isAck := false; isPureAck := false; flowPath := [] |}.

(** The two cached octet counters have no initialiser: [None] until they are first assigned. *)
Record CounterInfo := {
  lastReportTimestampInMilliseconds : Z;
  lastReceivedInputOctets : option Z; lastReceivedOutputOctets : option Z;
  inputByteCountOnALinkMultiplySampingRate : Z; outputByteCountOnALink : Z
}.

Definition emptyCounterInfo : CounterInfo := {|
  lastReportTimestampInMilliseconds := 0; lastReceivedInputOctets := None;
  lastReceivedOutputOctets := None; inputByteCountOnALinkMultiplySampingRate := 0;
  outputByteCountOnALink := 0 |}.

(** * The bounded view of a datagram *)

(** A datagram as raw 32-bit words.  [words_at] is [operator[]], which throws with the requested
    index and the size when the index is past the end. *)
Abbreviation BoundedWords := (list Z).

Definition words_at (d : BoundedWords) (i : Z) : outcome Z :=
  if bool_decide (0 <= i < Z.of_nat (length d)) then Ret (nth (Z.to_nat i) d 0)
  else Throw (TruncatedDatagram i (Z.of_nat (length d))).

Definition has (d : BoundedWords) (i : Z) : bool := bool_decide (0 <= i < Z.of_nat (length d)).

Lemma words_at_has d i : has d i = true <-> exists w, words_at d i = Ret w.
Proof.
  unfold has, words_at. case_bool_decide as H; split; intros H'; try done; [eauto|]. by destruct H'.
Qed.
