(* ===== verification/SFlowProps.v ===== *)
(** Properties of the flow-monitoring data types. *)

From S2P Require Import Prelude Bytes CStrings Json SFlowTypes.
Local Open Scope string_scope.
Local Open Scope list_scope.
Local Open Scope Z_scope.

(** * The sliding window *)

Definition sumLen (l : list ExtractedSFlowData) : Z := foldr (fun s acc => packetFrameLengthInByte s + acc) 0 l.

Lemma sumLen_app l l' : sumLen (l ++ l') = sumLen l + sumLen l'.
Proof. induction l; simpl; lia. Qed.

Lemma u64_add x y : u64 (u64 x + y) = u64 (x + y).
Proof. unfold u64. by rewrite Zplus_mod_idemp_l. Qed.
Lemma u64_sub x y : u64 (u64 x - y) = u64 (x - y).
Proof. unfold u64. by rewrite Zminus_mod_idemp_l. Qed.

Definition stale (now interval : Z) (s : ExtractedSFlowData) : Prop := interval < now - timestampInMilliseconds s.

Lemma refreshLoop_spec now iv q :
  exists d q', q = d ++ q' /\ Forall (stale now iv) d /\
    match q' with s :: _ => ~ stale now iv s | [] => True end /\
    refreshLoop now iv q (u64 (sumLen q)) = (q', u64 (sumLen q')).
Proof.
  induction q as [|s q (d & q' & -> & Hd & Hq' & Heq)]; [by exists [], []|].
  cbn [refreshLoop]. case_bool_decide as Hs.
  - exists (s :: d), q'. split_and!; [done|by constructor|done|].
    rewrite u64_sub. cbn [sumLen foldr].
    replace (packetFrameLengthInByte s + _ - _) with (sumLen (d ++ q')) by (unfold sumLen; lia). done.
  - exists [], (s :: d ++ q'). by split_and!.
Qed.

(** Timed operations on a window, and the samples pushed since the last [clear]. *)
Inductive QueueOp := QPush (s : ExtractedSFlowData) | QGetSum | QClear.

Definition stepQueue (a : AutoRefreshQueue) (e : Z * QueueOp) : AutoRefreshQueue :=
  match e.2 with
  | QPush s => push e.1 s a
  | QGetSum => (getSum e.1 a).1
  | QClear => clear a
  end.

Definition runQueue (iv : Z) (h : list (Z * QueueOp)) : AutoRefreshQueue := foldl stepQueue (newQueue iv) h.

Definition stepPushed (l : list ExtractedSFlowData) (e : Z * QueueOp) : list ExtractedSFlowData :=
  match e.2 with QPush s => l ++ [s] | QGetSum => l | QClear => [] end.

Definition pushed (h : list (Z * QueueOp)) : list ExtractedSFlowData := foldl stepPushed [] h.

Definition before (e e' : Z * QueueOp) : Prop := e.1 <= e'.1.

(** The queue is what was pushed less a prefix that is stale at the latest clock reading. *)
Definition window_ok (iv T : Z) (l : list ExtractedSFlowData) (a : AutoRefreshQueue) : Prop :=
  m_interval a = iv /\ m_sum a = u64 (sumLen (m_queue a)) /\
  exists d, l = d ++ m_queue a /\ Forall (stale T iv) d.

Lemma refresh_ok iv T now l a :
  T <= now -> window_ok iv T l a ->
  window_ok iv now l (refresh now a) /\
  match m_queue (refresh now a) with s :: _ => ~ stale now iv s | [] => True end.
Proof.
  intros HT (Hi & Hs & d & -> & Hd). unfold refresh. rewrite Hi, Hs.
  destruct (refreshLoop_spec now iv (m_queue a)) as (d' & q' & Hq & Hd' & Hh & ->). split; [|done].
  split_and!; [done..|]. exists (d ++ d'). simpl. rewrite Hq, app_assoc. split; [done|].
  apply Forall_app. split; [|done]. eapply Forall_impl; [exact Hd|]. unfold stale. lia.
Qed.

Lemma stepQueue_ok iv T l a e :
  T <= e.1 -> window_ok iv T l a -> window_ok iv e.1 (stepPushed l e) (stepQueue a e).
Proof.
  destruct e as [now op]. intros HT Hok. simpl in HT. unfold stepQueue, stepPushed. destruct op as [s| |]; simpl.
  - apply (refresh_ok iv T); [done|]. destruct Hok as (Hi & Hs & d & -> & Hd).
    split_and!; [done| |].
    + simpl. rewrite Hs, u64_add, sumLen_app. simpl. by rewrite Z.add_0_r.
    + exists d. cbn [m_queue]. by rewrite app_assoc.
  - by apply (refresh_ok iv T).
  - destruct Hok as (Hi & _). split_and!; [done..|]. by exists [].
Qed.

Lemma runQueue_ok iv h now :
  StronglySorted before (h ++ [now]) ->
  exists T, T <= now.1 /\ window_ok iv T (pushed h) (runQueue iv h).
Proof.
  revert now. induction h as [|e h IH] using rev_ind; intros now Hs.
  - exists now.1. split; [done|]. split_and!; [done..|]. by exists [].
  - destruct (IH e) as (T & HT & Hok); [by eapply StronglySorted_app_1_l|].
    exists e.1. split.
    + eapply (StronglySorted_app_1_elem_of before (h ++ [e]) [now]); [done|set_solver..].
    + unfold pushed, runQueue. rewrite !foldl_app. simpl. by apply (stepQueue_ok iv T).
Qed.

(** In a queue ordered by timestamp nothing behind a fresh sample is stale. *)
Lemma fresh_suffix now iv d q :
  StronglySorted (fun s s' => timestampInMilliseconds s <= timestampInMilliseconds s') (d ++ q) ->
  Forall (stale now iv) d -> match q with s :: _ => ~ stale now iv s | [] => True end ->
  filter (fun s => now - timestampInMilliseconds s <= iv) (d ++ q) = q.
Proof.
  intros Hs Hd Hh. rewrite filter_app. replace (filter _ d) with (@nil ExtractedSFlowData).
  - destruct q as [|s q]; [done|]. simpl. apply StronglySorted_app_1_r, StronglySorted_inv in Hs as [_ HF].
    unfold stale in Hh. rewrite filter_cons, decide_True by lia. f_equal.
    induction HF as [|s' q Hs' HF IH]; [done|]. rewrite filter_cons, decide_True by lia. by rewrite IH.
  - induction Hd as [|s d Hst Hd IH]; [done|]. unfold stale in Hst.
    rewrite filter_cons, decide_False by lia. apply IH. by inversion Hs.
Qed.

(** The running sum is the sum of the window.  For operations in clock order and samples
    pushed in timestamp order, [getSum] returns the byte total, modulo 2^64, of exactly the samples
    pushed since the last [clear] that are at most [interval] old, and the queue holds exactly
    these. *)
Theorem window_sum_exact iv h now :
  StronglySorted before (h ++ [(now, QGetSum)]) ->
  StronglySorted (fun s s' => timestampInMilliseconds s <= timestampInMilliseconds s') (pushed h) ->
  let '(a, sum) := getSum now (runQueue iv h) in
  let fresh := filter (fun s => now - timestampInMilliseconds s <= iv) (pushed h) in
  m_queue a = fresh /\ sum = u64 (sumLen fresh).
Proof.
  intros Hc Ht. destruct (runQueue_ok iv h (now, QGetSum) Hc) as (T & HT & Hok). simpl in HT.
  destruct (refresh_ok iv T now _ _ HT Hok) as [(Hi & Hs & d & Hp & Hd) Hh]. unfold getSum.
  set (a := refresh now (runQueue iv h)) in *. rewrite Hp in Ht.
  rewrite Hp, (fresh_suffix now iv d (m_queue a) Ht Hd Hh). done.
Qed.

Definition sampleWindow : list (Z * QueueOp) :=
  [(100, QPush (Build_ExtractedSFlowData 1500 100)); (700, QPush (Build_ExtractedSFlowData 60 700));
   (1150, QGetSum); (1200, QPush (Build_ExtractedSFlowData 9000 1200))].

Lemma window_sum_exact_witness : (getSum 1800 (runQueue 1000 sampleWindow)).2 = 9000.
Proof.
  pose proof (window_sum_exact 1000 sampleWindow 1800) as H.
  destruct (getSum 1800 (runQueue 1000 sampleWindow)) as [a sum].
  destruct H as [_ ->]; [repeat constructor; unfold before; simpl; lia|repeat constructor; simpl; lia|].
  reflexivity.
Defined.

(** * Path hops *)

Lemma s_addr_range os : length os = 4%nat -> Forall is_byte os -> fits 32 (s_addr os).
Proof.
  intros Hl HF. destruct os as [|a [|b [|c [|d [|]]]]]; try done. decompose_Forall_hyps.
  unfold is_byte, fits, s_addr, be_value in *. cbn [rev app foldl]. change (2 ^ 32) with 4294967296. lia.
Qed.

Lemma from_chars_range w base s v : 2 <= base -> from_chars_all w base s = Some v -> fits w v.
Proof.
  intros Hb. unfold from_chars_all. destruct (scan_digits base s 0 0) as [[x n] rest] eqn:E.
  repeat case_bool_decide; try done. destruct rest; [|done]. intros [= <-].
  apply scan_digits_bound in E; [|lia..]. unfold fits. lia.
Qed.

Lemma parseHopNode_total j : exists r, parseHopNode j = Ret r /\ forall n, r = Some n -> fits 64 n.
Proof.
  unfold parseHopNode. destruct j; simpl; eexists; (split; [reflexivity|]); intros node Hn; simplify_eq/=.
  - case_bool_decide; simplify_eq/=. apply u64_range.
  - case_bool_decide; simplify_eq/=. apply u64_range.
  - destruct (inet_pton s) as [os|] eqn:E; simplify_eq/=.
    apply inet_pton_octets in E as [Hl HF]. pose proof (s_addr_range _ Hl HF). unfold fits in *. lia.
Qed.

Lemma parseHopPort_total j : exists r, parseHopPort j = Ret r /\ forall n, r = Some n -> fits 32 n.
Proof.
  unfold parseHopPort. destruct j; simpl; eexists; (split; [reflexivity|]); intros p Hp; simplify_eq/=.
  - destruct (_ || _); simplify_eq/=. apply u32_range.
  - destruct (_ || _); simplify_eq/=. apply u32_range.
  - by apply from_chars_range in Hp.
Qed.

(** Parsing a hop never throws and never reads past the hop array: any JSON gives either
    nothing or a 64-bit node and a 32-bit port.  A numeric hop is accepted, unchanged, exactly
    when the dpid is below 2^63 and the port fits 32 bits. *)
Theorem path_node_total j :
  (exists r, tryParsePathNode j = Ret r /\
    forall node port, r = Some (node, port) -> fits 64 node /\ fits 32 port) /\
  (forall dpid port rest, j = JArray (JUnsigned dpid :: JUnsigned port :: rest) ->
     fits 64 dpid -> fits 64 port ->
     tryParsePathNode j =
     Ret (if bool_decide (dpid < 2 ^ 63) && bool_decide (port < 2 ^ 32) then Some (dpid, port) else None)).
Proof.
  split.
  - unfold tryParsePathNode. destruct j as [| | | | | |l|]; try by eexists.
    destruct l as [|a [|b l]]; try by eexists.
    destruct (parseHopNode_total a) as (r & -> & Hr), (parseHopPort_total b) as (r' & -> & Hr').
    simpl. destruct r as [n|]; [|by eexists]. eexists. split; [done|].
    intros node port. destruct r'; simpl; intros; simplify_eq. auto.
  - intros dpid port rest -> Hd Hp. unfold fits in *. simpl.
    assert (forall z, 0 <= z < 2 ^ 64 -> i64 z = if bool_decide (z < 2 ^ 63) then z else z - 2 ^ 64) as Hi.
    { intros z Hz. unfold i64. case_bool_decide; [rewrite Z.mod_small; lia|].
      rewrite <- (Z.mod_unique (z + 2 ^ 63) (2 ^ 64) 1 (z + 2 ^ 63 - 2 ^ 64)); lia. }
    rewrite !Hi by done. destruct (bool_decide_reflect (dpid < 2 ^ 63)); simpl.
    + rewrite bool_decide_false by lia. rewrite u64_id by lia.
      destruct (bool_decide_reflect (port < 2 ^ 63)), (bool_decide_reflect (port < 2 ^ 32)); try lia.
      * rewrite !bool_decide_false by lia. simpl. rewrite u32_id by lia. done.
      * rewrite (bool_decide_true (4294967295 < port)), orb_true_r by lia. done.
      * rewrite (bool_decide_true (port - 2 ^ 64 < 0)) by lia. done.
    + rewrite bool_decide_true by lia. done.
Qed.

(** * JSON round trip of a flow key *)

(** A flow key survives the JSON form up to its ICMP fields, which the JSON does not carry and
    which keep the values of the object read into. *)
Theorem flow_key_json_roundtrip fk fk0 :
  wf_flow_key fk ->
  from_json (to_json fk) fk0 =
  Ret {| srcIP := srcIP fk; dstIP := dstIP fk; srcPort := srcPort fk; dstPort := dstPort fk;
         protocol := protocol fk; icmpType := icmpType fk0; icmpCode := icmpCode fk0 |}.
Proof.
  intros (H1 & H2 & H3 & H4 & H5 & _). unfold from_json, to_json. cbn [jat assoc String.eqb]. simpl.
  unfold u32, u16, u8, fits in *. by rewrite !Z.mod_small.
Qed.

Lemma flow_key_json_roundtrip_witness :
  from_json (to_json (Build_FlowKey 16777226 33554442 40000 443 6 0 0)) (Build_FlowKey 0 0 0 0 0 8 0) =
  Ret (Build_FlowKey 16777226 33554442 40000 443 6 8 0).
Proof. apply (flow_key_json_roundtrip (Build_FlowKey 16777226 33554442 40000 443 6 0 0)). unfold wf_flow_key, fits. simpl. lia. Defined.
