(* ===== verification/FlowDiff.v ===== *)
(** Flow-table differences (include/common_types/SFlowType.hpp, [getFlowTableDiff]): what changed
    between two polled forwarding tables, per switch.

    The hash maps are finite maps and are visited in an arbitrary but fixed order.  The reference
    meaning of a difference is [applyDiffs], which edits a table; the main theorem is that editing
    the old table with the computed difference gives the new one. *)

From S2P Require Import Prelude.
Local Open Scope list_scope.
Local Open Scope Z_scope.

(** * The code *)

Record FlowChange := {
  dstNet : Z; dstMask : Z; priority : Z; oldOutInterface : Z; newOutInterface : Z
}.

Record FlowDiff := {
  dpid : Z; added : list FlowChange; removed : list FlowChange; modified : list FlowChange
}.

(** net, mask, priority *)
Abbreviation Key := (Z * Z * Z)%type.
(** net, mask, out port, priority *)
Abbreviation FlowRule := (Z * Z * Z * Z)%type.
Abbreviation FlowTables := (gmap Z (list FlowRule)).

Definition buildMap (rules : list FlowRule) : gmap Key Z :=
  foldl (fun m r => let '(net, mask, out, pri) := r in <[(net, mask, pri) := out]> m) ∅ rules.

Definition change (k : Key) (oldOut newOut : Z) : FlowChange :=
  let '(net, mask, pri) := k in Build_FlowChange net mask pri oldOut newOut.

(** The added/modified loop over the new map. *)
Fixpoint addedModified (oldMap : gmap Key Z) (l : list (Key * Z)) (add mod_ : list FlowChange)
  : list FlowChange * list FlowChange :=
  match l with
  | [] => (add, mod_)
  | (k, newOut) :: l =>
      match oldMap !! k with
      | None => addedModified oldMap l (add ++ [change k 0 newOut]) mod_
      | Some oldOut =>
          if bool_decide (oldOut <> newOut)
          then addedModified oldMap l add (mod_ ++ [change k oldOut newOut])
          else addedModified oldMap l add mod_
      end
  end.

(** The removed loop over the old map. *)
Fixpoint removedLoop (newMap : gmap Key Z) (l : list (Key * Z)) (rem_ : list FlowChange) : list FlowChange :=
  match l with
  | [] => rem_
  | (k, oldOut) :: l =>
      match newMap !! k with
      | None => removedLoop newMap l (rem_ ++ [change k oldOut 0])
      | Some _ => removedLoop newMap l rem_
      end
  end.

Definition nonEmptyDiff (d : FlowDiff) : bool :=
  match added d, removed d, modified d with [], [], [] => false | _, _, _ => true end.

(** One switch of the new table. *)
Definition diffSwitch (d : Z) (oldMap newMap : gmap Key Z) : FlowDiff :=
  let '(add, mod_) := addedModified oldMap (map_to_list newMap) [] [] in
  {| dpid := d; added := add; removed := removedLoop newMap (map_to_list oldMap) []; modified := mod_ |}.

(** One switch that is only in the old table. *)
Definition diffGone (d : Z) (oldMap : gmap Key Z) : FlowDiff :=
  {| dpid := d; added := []; removed := (fun '(k, oldOut) => change k oldOut 0) <$> map_to_list oldMap;
     modified := [] |}.

Fixpoint newLoop (oldTable : FlowTables) (l : list (Z * list FlowRule)) (diffs : list FlowDiff) : list FlowDiff :=
  match l with
  | [] => diffs
  | (d, newRules) :: l =>
      let newMap := buildMap newRules in
      let oldMap := match oldTable !! d with Some rs => buildMap rs | None => ∅ end in
      let diff := diffSwitch d oldMap newMap in
      newLoop oldTable l (if nonEmptyDiff diff then diffs ++ [diff] else diffs)
  end.

Fixpoint goneLoop (newTable : FlowTables) (l : list (Z * list FlowRule)) (diffs : list FlowDiff) : list FlowDiff :=
  match l with
  | [] => diffs
  | (d, oldRules) :: l =>
      match newTable !! d with
      | Some _ => goneLoop newTable l diffs
      | None =>
          let diff := diffGone d (buildMap oldRules) in
          goneLoop newTable l (match removed diff with [] => diffs | _ => diffs ++ [diff] end)
      end
  end.

Definition getFlowTableDiff (oldTable newTable : FlowTables) : list FlowDiff :=
  goneLoop newTable (map_to_list oldTable) (newLoop oldTable (map_to_list newTable) []).

(** * The reference meaning *)

Definition keyOf (c : FlowChange) : Key := (dstNet c, dstMask c, priority c).

(** The rules of a switch, last duplicate winning; an absent switch has none. *)
Definition rulesOf (t : FlowTables) (d : Z) : gmap Key Z := buildMap (default [] (t !! d)).

Definition removeAll (cs : list FlowChange) (m : gmap Key Z) : gmap Key Z :=
  foldl (fun m c => delete (keyOf c) m) m cs.

Definition setAll (cs : list FlowChange) (m : gmap Key Z) : gmap Key Z :=
  foldl (fun m c => <[keyOf c := newOutInterface c]> m) m cs.

Definition applyDiff (fd : FlowDiff) (m : gmap Key Z) : gmap Key Z :=
  setAll (modified fd) (setAll (added fd) (removeAll (removed fd) m)).

(** Edits the rules of switch [d] with every difference that names it. *)
Definition applyDiffs (ds : list FlowDiff) (d : Z) (m : gmap Key Z) : gmap Key Z :=
  foldl (fun m fd => if bool_decide (dpid fd = d) then applyDiff fd m else m) m ds.

(** * The loops in closed form *)

Definition addedOf (oldMap : gmap Key Z) (l : list (Key * Z)) : list FlowChange :=
  omap (fun '(k, newOut) => match oldMap !! k with None => Some (change k 0 newOut) | Some _ => None end) l.

Definition modifiedOf (oldMap : gmap Key Z) (l : list (Key * Z)) : list FlowChange :=
  omap (fun '(k, newOut) => match oldMap !! k with
    | Some oldOut => if bool_decide (oldOut <> newOut) then Some (change k oldOut newOut) else None
    | None => None end) l.

Definition removedOf (newMap : gmap Key Z) (l : list (Key * Z)) : list FlowChange :=
  omap (fun '(k, oldOut) => match newMap !! k with None => Some (change k oldOut 0) | Some _ => None end) l.

Lemma addedModified_eq oldMap l add mod_ :
  addedModified oldMap l add mod_ = (add ++ addedOf oldMap l, mod_ ++ modifiedOf oldMap l).
Proof.
  revert add mod_. induction l as [|[k v] l IH]; intros add mod_; cbn [addedModified]; [by rewrite !app_nil_r|].
  unfold addedOf, modifiedOf in *. cbn [omap list_omap].
  destruct (oldMap !! k); [case_bool_decide|]; rewrite IH; by rewrite <- ?app_assoc.
Qed.

Lemma removedLoop_eq newMap l rem_ : removedLoop newMap l rem_ = rem_ ++ removedOf newMap l.
Proof.
  revert rem_. induction l as [|[k v] l IH]; intros rem_; cbn [removedLoop]; [by rewrite app_nil_r|].
  unfold removedOf in *. cbn [omap list_omap]. destruct (newMap !! k); rewrite IH; by rewrite <- ?app_assoc.
Qed.

Lemma keyOf_change k a b : keyOf (change k a b) = k.
Proof. by destruct k as [[]]. Qed.

Lemma newOut_change k a b : newOutInterface (change k a b) = b.
Proof. by destruct k as [[]]. Qed.

Lemma elem_added oldMap newMap c :
  c ∈ addedOf oldMap (map_to_list newMap) <->
  exists k v, newMap !! k = Some v /\ oldMap !! k = None /\ c = change k 0 v.
Proof.
  unfold addedOf. rewrite list_elem_of_omap. split.
  - intros ([k v] & Hin%elem_of_map_to_list & H). exists k, v. destruct (oldMap !! k); naive_solver.
  - intros (k & v & Hn & Ho & ->). exists (k, v). rewrite elem_of_map_to_list. by rewrite Ho.
Qed.

Lemma elem_modified oldMap newMap c :
  c ∈ modifiedOf oldMap (map_to_list newMap) <->
  exists k v w, newMap !! k = Some v /\ oldMap !! k = Some w /\ w <> v /\ c = change k w v.
Proof.
  unfold modifiedOf. rewrite list_elem_of_omap. split.
  - intros ([k v] & Hin%elem_of_map_to_list & H). destruct (oldMap !! k) as [w|] eqn:E; [|done].
    case_bool_decide; [|done]. exists k, v, w. naive_solver.
  - intros (k & v & w & Hn & Ho & Hw & ->). exists (k, v). rewrite elem_of_map_to_list, Ho.
    by rewrite bool_decide_true.
Qed.

Lemma elem_removed oldMap newMap c :
  c ∈ removedOf newMap (map_to_list oldMap) <->
  exists k v, oldMap !! k = Some v /\ newMap !! k = None /\ c = change k v 0.
Proof.
  unfold removedOf. rewrite list_elem_of_omap. split.
  - intros ([k v] & Hin%elem_of_map_to_list & H). exists k, v. destruct (newMap !! k); naive_solver.
  - intros (k & v & Hn & Ho & ->). exists (k, v). rewrite elem_of_map_to_list. by rewrite Ho.
Qed.

(** * Editing a switch *)

Lemma removeAll_lookup cs m k : removeAll cs m !! k = if decide (k ∈ keyOf <$> cs) then None else m !! k.
Proof.
  unfold removeAll. revert m. induction cs as [|c cs IH]; intros m; cbn [foldl fmap list_fmap]; [done|].
  rewrite IH, lookup_delete. repeat case_decide; set_solver.
Qed.

(** Writes that agree on each key can be read off any of them. *)
Lemma setAll_lookup cs m k v :
  (forall c, c ∈ cs -> keyOf c = k -> newOutInterface c = v) ->
  setAll cs m !! k = if decide (k ∈ keyOf <$> cs) then Some v else m !! k.
Proof.
  unfold setAll. revert m. induction cs as [|c cs IH]; intros m Hv; cbn [foldl fmap list_fmap]; [done|].
  rewrite IH by set_solver. rewrite lookup_insert.
  repeat case_decide; try set_solver. subst. f_equal. apply Hv; set_solver.
Qed.

Lemma diffSwitch_eq d oldMap newMap :
  diffSwitch d oldMap newMap =
  {| dpid := d; added := addedOf oldMap (map_to_list newMap);
     removed := removedOf newMap (map_to_list oldMap); modified := modifiedOf oldMap (map_to_list newMap) |}.
Proof. unfold diffSwitch. by rewrite addedModified_eq, removedLoop_eq. Qed.

Lemma diffGone_eq d oldMap : diffGone d oldMap = diffSwitch d oldMap ∅.
Proof.
  rewrite diffSwitch_eq. unfold diffGone. rewrite map_to_list_empty. unfold addedOf, modifiedOf, removedOf. simpl.
  f_equal. induction (map_to_list oldMap) as [|[k v] l IH]; [done|].
  rewrite fmap_cons. cbn [omap list_omap]. rewrite lookup_empty. f_equal. exact IH.
Qed.

Lemma keys_modified oldMap newMap k :
  k ∈ keyOf <$> modifiedOf oldMap (map_to_list newMap) <->
  exists v w, newMap !! k = Some v /\ oldMap !! k = Some w /\ w <> v.
Proof.
  rewrite list_elem_of_fmap. setoid_rewrite elem_modified. split.
  - intros (c & -> & k' & v & w & ? & ? & ? & ->). rewrite keyOf_change. eauto.
  - intros (v & w & ? & ? & ?). exists (change k w v). rewrite keyOf_change. naive_solver.
Qed.

Lemma keys_added oldMap newMap k :
  k ∈ keyOf <$> addedOf oldMap (map_to_list newMap) <-> exists v, newMap !! k = Some v /\ oldMap !! k = None.
Proof.
  rewrite list_elem_of_fmap. setoid_rewrite elem_added. split.
  - intros (c & -> & k' & v & ? & ? & ->). rewrite keyOf_change. eauto.
  - intros (v & ? & ?). exists (change k 0 v). rewrite keyOf_change. naive_solver.
Qed.

Lemma keys_removed oldMap newMap k :
  k ∈ keyOf <$> removedOf newMap (map_to_list oldMap) <-> exists v, oldMap !! k = Some v /\ newMap !! k = None.
Proof.
  rewrite list_elem_of_fmap. setoid_rewrite elem_removed. split.
  - intros (c & -> & k' & v & ? & ? & ->). rewrite keyOf_change. eauto.
  - intros (v & ? & ?). exists (change k v 0). rewrite keyOf_change. naive_solver.
Qed.

Lemma diffSwitch_applies d oldMap newMap : applyDiff (diffSwitch d oldMap newMap) oldMap = newMap.
Proof.
  rewrite diffSwitch_eq. apply map_eq. intros k. unfold applyDiff. cbn [added modified removed].
  rewrite (setAll_lookup _ _ k (default 0 (newMap !! k))).
  2: { intros c (k' & v & w & Hn & _ & _ & ->)%elem_modified. rewrite keyOf_change, newOut_change.
       intros ->. by rewrite Hn. }
  rewrite (setAll_lookup _ _ k (default 0 (newMap !! k))).
  2: { intros c (k' & v & Hn & _ & ->)%elem_added. rewrite keyOf_change, newOut_change.
       intros ->. by rewrite Hn. }
  rewrite removeAll_lookup.
  pose proof (keys_modified oldMap newMap k) as Hm. pose proof (keys_added oldMap newMap k) as Ha.
  pose proof (keys_removed oldMap newMap k) as Hr.
  destruct (newMap !! k) as [v|] eqn:En, (oldMap !! k) as [w|] eqn:Eo; cbn [default from_option id].
  - rewrite (decide_False (P := _ ∈ keyOf <$> addedOf _ _)) by (rewrite Ha; naive_solver).
    rewrite (decide_False (P := _ ∈ keyOf <$> removedOf _ _)) by (rewrite Hr; naive_solver).
    case_decide as Hd; [done|]. destruct (decide (w = v)); [congruence|]. destruct Hd. apply Hm. eauto.
  - rewrite decide_False by (rewrite Hm; naive_solver). rewrite decide_True by (rewrite Ha; eauto). done.
  - rewrite (decide_False (P := _ ∈ keyOf <$> modifiedOf _ _)) by (rewrite Hm; naive_solver).
    rewrite (decide_False (P := _ ∈ keyOf <$> addedOf _ _)) by (rewrite Ha; naive_solver).
    rewrite decide_True by (rewrite Hr; eauto). done.
  - rewrite (decide_False (P := _ ∈ keyOf <$> modifiedOf _ _)) by (rewrite Hm; naive_solver).
    rewrite (decide_False (P := _ ∈ keyOf <$> addedOf _ _)) by (rewrite Ha; naive_solver).
    by case_decide.
Qed.

Lemma nonEmptyDiff_false d oldMap newMap :
  nonEmptyDiff (diffSwitch d oldMap newMap) = false <-> oldMap = newMap.
Proof.
  split.
  - intros H. transitivity (applyDiff (diffSwitch d oldMap newMap) oldMap); [|apply diffSwitch_applies].
    revert H. unfold nonEmptyDiff, applyDiff.
    destruct (added _), (removed _), (modified _); done.
  - intros ->. rewrite diffSwitch_eq. unfold nonEmptyDiff. cbn [added removed modified].
    destruct (addedOf _ _) as [|c l] eqn:E1.
    2: { assert (c ∈ addedOf newMap (map_to_list newMap)) as H by (rewrite E1; set_solver).
         apply elem_added in H as (? & ? & ? & ? & _). congruence. }
    destruct (removedOf _ _) as [|c l] eqn:E2.
    2: { assert (c ∈ removedOf newMap (map_to_list newMap)) as H by (rewrite E2; set_solver).
         apply elem_removed in H as (? & ? & ? & ? & _). congruence. }
    destruct (modifiedOf _ _) as [|c l] eqn:E3; [done|].
    assert (c ∈ modifiedOf newMap (map_to_list newMap)) as H by (rewrite E3; set_solver).
    apply elem_modified in H as (? & ? & ? & ? & ? & ? & _). congruence.
Qed.

(** * The whole difference *)

(** The differences emitted by a loop over [l] that handles switch [d] with [f d]. *)
Definition emitted (f : Z -> option FlowDiff) (l : list Z) : list FlowDiff := omap f l.

Definition newDiff (oldTable newTable : FlowTables) (d : Z) : option FlowDiff :=
  let diff := diffSwitch d (rulesOf oldTable d) (rulesOf newTable d) in
  if nonEmptyDiff diff then Some diff else None.

Lemma newLoop_eq oldTable newTable l diffs :
  (forall d rs, (d, rs) ∈ l -> newTable !! d = Some rs) ->
  newLoop oldTable l diffs = diffs ++ emitted (newDiff oldTable newTable) l.*1.
Proof.
  revert diffs. induction l as [|[d rs] l IH]; intros diffs Hl; cbn [newLoop]; [by rewrite app_nil_r|].
  rewrite IH by set_solver. unfold emitted, newDiff. rewrite fmap_cons. cbn [omap list_omap fst]. unfold rulesOf.
  rewrite (Hl d rs) by set_solver. simpl.
  replace (match oldTable !! d with Some rs => buildMap rs | None => ∅ end)
    with (buildMap (default [] (oldTable !! d))) by (by destruct (oldTable !! d)).
  destruct (nonEmptyDiff _); by rewrite <- ?app_assoc.
Qed.

Lemma goneLoop_eq oldTable newTable l diffs :
  (forall d rs, (d, rs) ∈ l -> oldTable !! d = Some rs) ->
  goneLoop newTable l diffs =
  diffs ++ emitted (fun d => match newTable !! d with Some _ => None | None => newDiff oldTable newTable d end) l.*1.
Proof.
  revert diffs. induction l as [|[d rs] l IH]; intros diffs Hl; cbn [goneLoop]; [by rewrite app_nil_r|].
  unfold emitted in *. rewrite fmap_cons. cbn [omap list_omap fst].
  destruct (newTable !! d) as [rs'|] eqn:En; [by apply IH; set_solver|]. rewrite IH by set_solver.
  assert (newDiff oldTable newTable d = match removed (diffGone d (buildMap rs)) with
            | [] => None | _ => Some (diffGone d (buildMap rs)) end) as ->.
  { unfold newDiff, rulesOf. rewrite (Hl d rs) by set_solver. rewrite En. cbn [default from_option id].
    change (buildMap []) with (∅ : gmap Key Z). rewrite <- diffGone_eq. unfold nonEmptyDiff.
    change (added (diffGone _ _)) with (@nil FlowChange). change (modified (diffGone _ _)) with (@nil FlowChange).
    by destruct (removed _). }
  destruct (removed _); [done|]. by rewrite <- app_assoc.
Qed.

(** Every switch is handled once, in one of the two loops. *)
Definition visited (oldTable newTable : FlowTables) : list Z :=
  (map_to_list newTable).*1 ++ filter (fun d => newTable !! d = None) (map_to_list oldTable).*1.

Lemma visited_nodup oldTable newTable : NoDup (visited oldTable newTable).
Proof.
  apply NoDup_app. split_and!; [apply NoDup_fst_map_to_list| |apply NoDup_filter, NoDup_fst_map_to_list].
  intros d ([d' rs] & -> & Hd%elem_of_map_to_list)%list_elem_of_fmap [Hn _]%list_elem_of_filter.
  simpl in Hn. congruence.
Qed.

Lemma getFlowTableDiff_eq oldTable newTable :
  getFlowTableDiff oldTable newTable = emitted (newDiff oldTable newTable) (visited oldTable newTable).
Proof.
  unfold getFlowTableDiff. rewrite (goneLoop_eq oldTable), (newLoop_eq oldTable newTable)
    by (intros ??; by rewrite elem_of_map_to_list).
  unfold visited, emitted. rewrite omap_app. simpl. f_equal.
  induction (map_to_list oldTable).*1 as [|d l IH]; [done|]. cbn [omap list_omap]. rewrite filter_cons.
  destruct (newTable !! d) eqn:E; [rewrite decide_False by done|rewrite decide_True by done]; [done|].
  cbn [omap list_omap]. by rewrite IH.
Qed.

Lemma newDiff_dpid oldTable newTable d fd : newDiff oldTable newTable d = Some fd -> dpid fd = d.
Proof. unfold newDiff. rewrite diffSwitch_eq. case_match; intros; by simplify_eq. Qed.

Lemma newDiff_applies oldTable newTable d :
  match newDiff oldTable newTable d with
  | Some fd => applyDiff fd (rulesOf oldTable d) = rulesOf newTable d
  | None => rulesOf oldTable d = rulesOf newTable d
  end.
Proof.
  unfold newDiff. destruct (nonEmptyDiff _) eqn:E; [apply diffSwitch_applies|by eapply nonEmptyDiff_false].
Qed.

Lemma emitted_applies f l d m :
  (forall d fd, f d = Some fd -> dpid fd = d) -> NoDup l ->
  applyDiffs (emitted f l) d m =
  if decide (d ∈ l) then match f d with Some fd => applyDiff fd m | None => m end else m.
Proof.
  intros Hf. unfold applyDiffs, emitted. revert m.
  induction l as [|x l IH]; intros m Hnd; [done|]. apply NoDup_cons in Hnd as [Hx Hnd]. cbn [omap list_omap].
  destruct (f x) as [fd|] eqn:E; cbn [foldl]; rewrite IH by done.
  - rewrite (Hf _ _ E). case_bool_decide; [subst|].
    + rewrite decide_False by done. rewrite decide_True by set_solver. by rewrite E.
    + by rewrite (decide_ext (d ∈ x :: l) (d ∈ l)) by set_solver.
  - destruct (decide (d = x)) as [->|].
    + rewrite decide_False by done. rewrite decide_True by set_solver. by rewrite E.
    + by rewrite (decide_ext (d ∈ x :: l) (d ∈ l)) by set_solver.
Qed.

Lemma visited_or_empty oldTable newTable d :
  d ∉ visited oldTable newTable -> rulesOf oldTable d = ∅ /\ rulesOf newTable d = ∅.
Proof.
  unfold visited, rulesOf. rewrite elem_of_app, list_elem_of_filter, !list_elem_of_fmap. intros H.
  destruct (newTable !! d) as [rs|] eqn:En.
  { destruct H. left. exists (d, rs). by rewrite elem_of_map_to_list. }
  destruct (oldTable !! d) as [rs|] eqn:Eo; [|done].
  destruct H. right. split; [done|]. exists (d, rs). by rewrite elem_of_map_to_list.
Qed.

(** The difference is complete and correct.  Editing the old rules of any switch with the
    computed difference gives its new rules, also for switches that appear or disappear, and a
    switch whose rules did not change contributes no difference. *)
Theorem flow_table_diff_applies oldTable newTable d :
  applyDiffs (getFlowTableDiff oldTable newTable) d (rulesOf oldTable d) = rulesOf newTable d /\
  (rulesOf oldTable d = rulesOf newTable d <-> d ∉ dpid <$> getFlowTableDiff oldTable newTable).
Proof.
  rewrite getFlowTableDiff_eq. pose proof (newDiff_applies oldTable newTable d) as Hd. split.
  - rewrite emitted_applies by (apply newDiff_dpid || apply visited_nodup). case_decide as Hv.
    + by destruct (newDiff oldTable newTable d).
    + apply visited_or_empty in Hv as [-> ->]. done.
  - assert (d ∈ dpid <$> emitted (newDiff oldTable newTable) (visited oldTable newTable) <->
            d ∈ visited oldTable newTable /\ is_Some (newDiff oldTable newTable d)) as ->.
    { unfold emitted. rewrite list_elem_of_fmap. setoid_rewrite list_elem_of_omap. split.
      - intros (fd & -> & d' & Hin & Hf). rewrite (newDiff_dpid _ _ _ _ Hf). eauto.
      - intros [Hin [fd Hf]]. exists fd. rewrite (newDiff_dpid _ _ _ _ Hf). eauto. }
    destruct (newDiff oldTable newTable d) as [fd|] eqn:E.
    + split; [|intros H; destruct (decide (d ∈ visited oldTable newTable)) as [Hv|Hv]; [destruct H; eauto|]].
      * intros Heq [_ _]. unfold newDiff in E. destruct (nonEmptyDiff _) eqn:En; [|done].
        by rewrite (proj2 (nonEmptyDiff_false d _ _) Heq) in En.
      * by apply visited_or_empty in Hv as [-> ->].
    + split; [|done]. intros _ [_ [? ?]]. done.
Qed.
