(* ===== verification/SFlowParser.v ===== *)
(** The sFlow ingest path (src/ndt_core/collection/FlowLinkUsageCollector.cpp, [handlePacket] and
    the functions it uses): decoding of sFlow v5 datagrams and their effect on the flow table and
    the link byte counters.

    The topology monitor is another component and appears as the interface [TopologyMonitor].
    Every reading of a clock is an arbitrary value: the [n]-th reading of the steady and of the
    system clock are [steadyMs n] and [systemMs n].  Each critical section of the code is one
    atomic update of [Collector]; samples of a datagram are handled one after the other.  The
    one-time port-mapping setup is taken as done: the mapping is part of the state. *)

From S2P Require Import Prelude Bytes CStrings NetUtils SFlowTypes.
Local Open Scope list_scope.
Local Open Scope Z_scope.

(** What the collector uses of the topology monitor. *)
Class TopologyMonitor (T : Type) := {
  Edge : Type;
  findReverseEdgeByAgentIpAndPort : T -> Z * Z -> option Edge;
  findEdgeToHostByAgentIpAndPort : T -> Z * Z -> option Edge;
  findEdgeByAgentIpAndPort : T -> Z * Z -> option Edge;
  getAgentKeyFromTheOtherSide : T -> Z * Z -> option (Z * Z);
  touchEdgeFlow : Edge -> FlowKey -> T -> T;
  updateLinkInfo : Z * Z -> Z -> Z -> Z -> T -> T;
  updateLinkInfoLeftLinkBandwidth : Z * Z -> Z -> Z -> T -> T
}.

(** What the collector relies on: publishing a rate does not rewire the network. *)
Class TopologyMonitorLaws (T : Type) `{!TopologyMonitor T} : Prop := {
  other_side_stable : forall k b e (t : T) key,
    getAgentKeyFromTheOtherSide (updateLinkInfoLeftLinkBandwidth k b e t) key = getAgentKeyFromTheOtherSide t key
}.

(** * State *)

Record Collector (T : Type) := {
  m_flowInfoTable : gmap FlowKey FlowInfo;
  m_counterReports : gmap (Z * Z) CounterInfo;
  m_egressCounterReports : gmap (Z * Z) CounterInfo;
  m_allPathMap : gmap (Z * Z) Path;
  m_ifIndexToOfportMap : gmap Z Z;
  m_identityPortMapping : bool;
  m_malformedDatagrams : Z;
  addresedSampleNum : Z;
  monitor : T;
  clockReads : nat
}.
Arguments m_flowInfoTable {T}.
Arguments m_counterReports {T}.
Arguments m_egressCounterReports {T}.
Arguments m_allPathMap {T}.
Arguments m_ifIndexToOfportMap {T}.
Arguments m_identityPortMapping {T}.
Arguments m_malformedDatagrams {T}.
Arguments addresedSampleNum {T}.
Arguments monitor {T}.
Arguments clockReads {T}.

Section Setters.
Context {T : Type}.
Implicit Types c : Collector T.

Definition with_flows (f : gmap FlowKey FlowInfo) c : Collector T :=
  Build_Collector T f (m_counterReports c) (m_egressCounterReports c) (m_allPathMap c)
    (m_ifIndexToOfportMap c) (m_identityPortMapping c) (m_malformedDatagrams c)
    (addresedSampleNum c) (monitor c) (clockReads c).
Definition with_reports (r : gmap (Z * Z) CounterInfo) c : Collector T :=
  Build_Collector T (m_flowInfoTable c) r (m_egressCounterReports c) (m_allPathMap c)
    (m_ifIndexToOfportMap c) (m_identityPortMapping c) (m_malformedDatagrams c)
    (addresedSampleNum c) (monitor c) (clockReads c).
Definition with_egress (r : gmap (Z * Z) CounterInfo) c : Collector T :=
  Build_Collector T (m_flowInfoTable c) (m_counterReports c) r (m_allPathMap c)
    (m_ifIndexToOfportMap c) (m_identityPortMapping c) (m_malformedDatagrams c)
    (addresedSampleNum c) (monitor c) (clockReads c).
Definition with_malformed (n : Z) c : Collector T :=
  Build_Collector T (m_flowInfoTable c) (m_counterReports c) (m_egressCounterReports c) (m_allPathMap c)
    (m_ifIndexToOfportMap c) (m_identityPortMapping c) n (addresedSampleNum c) (monitor c) (clockReads c).
Definition with_addressed (n : Z) c : Collector T :=
  Build_Collector T (m_flowInfoTable c) (m_counterReports c) (m_egressCounterReports c) (m_allPathMap c)
    (m_ifIndexToOfportMap c) (m_identityPortMapping c) (m_malformedDatagrams c) n (monitor c) (clockReads c).
Definition with_monitor (m : T) c : Collector T :=
  Build_Collector T (m_flowInfoTable c) (m_counterReports c) (m_egressCounterReports c) (m_allPathMap c)
    (m_ifIndexToOfportMap c) (m_identityPortMapping c) (m_malformedDatagrams c)
    (addresedSampleNum c) m (clockReads c).
(** [n] further readings of a clock. *)
Definition tick (n : nat) c : Collector T :=
  Build_Collector T (m_flowInfoTable c) (m_counterReports c) (m_egressCounterReports c) (m_allPathMap c)
    (m_ifIndexToOfportMap c) (m_identityPortMapping c) (m_malformedDatagrams c)
    (addresedSampleNum c) (monitor c) (n + clockReads c).

End Setters.

(** * Decoding *)

(** The buffer as words of the little-endian host. *)
Fixpoint toWords (buffer : list Z) : BoundedWords :=
  match buffer with
  | a :: b :: c :: d :: rest => be_value [d; c; b; a] :: toWords rest
  | _ => []
  end.

(** [ntohl(data[i])], with [i] computed in 32-bit arithmetic. *)
Definition rd (data : BoundedWords) (i : Z) : outcome Z := omap_out bswap32 (words_at data (u32 i)).

(** Two words as one 64-bit counter. *)
Definition hiLo (hi lo : Z) : Z := Z.lor (u64 (Z.shiftl hi 32)) lo.

Definition ipFromFrontBack (ipFront ipBack : Z) : Z :=
  let o1 := Z.land (Z.shiftr ipFront 8) 0xFF in
  let o2 := Z.land ipFront 0xFF in
  let o3 := Z.land (Z.shiftr ipBack 24) 0xFF in
  let o4 := Z.land (Z.shiftr ipBack 16) 0xFF in
  bswap32 (Z.lor (Z.lor (Z.lor (Z.shiftl o1 24) (Z.shiftl o2 16)) (Z.shiftl o3 8)) o4).

Record CounterSample := {
  cs_sampleLen : Z; interfaceIndex : Z; interfaceSpeed : Z; inputOctets : Z; outputOctets : Z
}.

(** Brocade (2) samples have the generic interface counters 15 words after base 4, HPE (4) samples
    at base 5. *)
Definition decodeCounterSample (data : BoundedWords) (sampleType index : Z) : outcome CounterSample :=
  let base := if bool_decide (sampleType = 2) then 4 + 15 else 5 in
  let! sampleLen := rd data (index + 1) in
  let! ifIndex := rd data (index + base + 3) in
  let! sHi := rd data (index + base + 5) in let! sLo := rd data (index + base + 6) in
  let! iHi := rd data (index + base + 9) in let! iLo := rd data (index + base + 10) in
  let! oHi := rd data (index + base + 17) in let! oLo := rd data (index + base + 18) in
  Ret {| cs_sampleLen := sampleLen; interfaceIndex := ifIndex; interfaceSpeed := hiLo sHi sLo;
         inputOctets := hiLo iHi iLo; outputOctets := hiLo oHi oLo |}.

Record FlowSample := {
  sampleLen : Z; flowDataLength : Z; fs_samplingRate : Z; inputPort : Z; outputPort : Z;
  frameLength : Z; fs_protocol : Z; srcIp : Z; dstIp : Z; fs_srcPort : Z; fs_dstPort : Z;
  fs_icmpType : Z; fs_icmpCode : Z; fragOff : Z; isAckPacket : bool
}.

Definition TCP_ACK_FLAG : Z := 0x10.

(** The IPv4 and transport fields; [w] is the word with fragment offset and protocol and [tcpWord]
    the one that ends in the TCP flags. *)
Definition decodeIpv4 (data : BoundedWords) (w tcpWord len fdl rate inP outP frameLen : Z) : outcome FlowSample :=
  let! w0 := rd data w in
  let protocol := Z.land w0 0xFF in
  let! w1 := rd data (w + 1) in let! w2 := rd data (w + 2) in let! w3 := rd data (w + 3) in
  let sample := fun sp dp it ic ack =>
    {| sampleLen := len; flowDataLength := fdl; fs_samplingRate := rate; inputPort := inP;
       outputPort := outP; frameLength := frameLen; fs_protocol := protocol;
       srcIp := ipFromFrontBack w1 w2; dstIp := ipFromFrontBack w2 w3;
       fs_srcPort := sp; fs_dstPort := dp; fs_icmpType := it; fs_icmpCode := ic;
       fragOff := Z.land (Z.land (Z.shiftr w0 16) 0xFFFF) 0x1FFF; isAckPacket := ack |} in
  if bool_decide (protocol <> 1) then
    let! w4 := rd data (w + 4) in
    let sp := Z.land w3 0xFFFF in
    let dp := Z.land (Z.shiftr w4 16) 0xFFFF in
    if bool_decide (protocol = 6) then
      let! t := rd data tcpWord in
      Ret (sample sp dp 0 0 (bool_decide (Z.land (Z.land t 0xFF) TCP_ACK_FLAG <> 0)))
    else Ret (sample sp dp 0 0 false)
  else Ret (sample 0 0 (Z.land (Z.shiftr w3 8) 0xFF) (Z.land w3 0xFF) false).

(** Where the next sample starts, given the index reached in this one. *)
Definition advance (mode : DeploymentMode) (index len fdl : Z) : Z :=
  match mode with
  | MININET => u32 (index + u32 (len / 4 + 2 - (fdl / 4 + 2)))
  | TESTBED => u32 (index + (len / 4 + 2))
  end.

(** A flow sample: the index the branch reaches, and the sample unless it is not IPv4, in which
    case the index is already that of the next one. *)
Definition decodeFlowSample (mode : DeploymentMode) (data : BoundedWords) (sampleType index : Z)
  : outcome (Z * option FlowSample) :=
  let! len := rd data (index + 1) in
  let! rate0 := rd data (index + 4) in
  if bool_decide (sampleType = 1) then
    let! inP := rd data (index + 7) in
    let! outP := rd data (index + 8) in
    let! fdl := match mode with MININET => rd data (index + 11) | TESTBED => Ret 0 end in
    let index := match mode with MININET => u32 (index + (fdl / 4 + 2)) | TESTBED => index end in
    let! frameLen := rd data (index + 13) in
    let! w19 := rd data (index + 19) in
    if bool_decide (Z.land (Z.shiftr w19 16) 0xFFFF <> 0x0800) then Ret (advance mode index len fdl, None)
    else
      let! fs := decodeIpv4 data (index + 21) (index + 27) len fdl rate0 inP outP frameLen in
      Ret (index, Some fs)
  else
    let! rate := rd data (index + 5) in
    let! inP := rd data (index + 9) in
    let! outP := rd data (index + 11) in
    let! frameLen := rd data (index + 16) in
    let! w23 := rd data (index + 23) in
    if bool_decide (Z.land (Z.shiftr w23 16) 0xFFFF <> 0x0800) then Ret (advance mode index len 0, None)
    else
      let! fs := decodeIpv4 data (index + 25) (index + 31) len 0 rate inP outP frameLen in
      Ret (index, Some fs).

(** * Effects *)

Section Collector.
Context {T : Type} `{!TopologyMonitor T} (steadyMs systemMs : nat -> Z) (mode : DeploymentMode).
Implicit Types c : Collector T.

Definition lookupOfport c (ifIndex : Z) : Z :=
  if m_identityPortMapping c then ifIndex else default 0 (m_ifIndexToOfportMap c !! ifIndex).

(** ** Counter samples *)

(** The report of one interface: its new cached state and, for a second or later report whose
    counters did not go backwards, the bandwidth left in each direction. *)
Definition reportCounter (now : Z) (cs : CounterSample) (st : CounterInfo) : CounterInfo * option (Z * Z) :=
  let interval := Z.quot (now - lastReportTimestampInMilliseconds st) 1000 in
  if bool_decide (interval = 0) then (st, None)
  else
    let lastIn := default 0 (lastReceivedInputOctets st) in
    let lastOut := default 0 (lastReceivedOutputOctets st) in
    let avg := fun cur last => u64 (u64 (cur - last) * 8) / u64 interval in
    let left_ := fun a => if bool_decide (interfaceSpeed cs < a) then 0 else interfaceSpeed cs - a in
    let update :=
      if bool_decide (lastReportTimestampInMilliseconds st <> 0) &&
         bool_decide (lastIn <= inputOctets cs) && bool_decide (lastOut <= outputOctets cs)
      then Some (left_ (avg (inputOctets cs) lastIn), left_ (avg (outputOctets cs) lastOut))
      else None in
    ({| lastReportTimestampInMilliseconds := now;
        lastReceivedInputOctets := Some (inputOctets cs);
        lastReceivedOutputOctets := Some (outputOctets cs);
        inputByteCountOnALinkMultiplySampingRate := inputByteCountOnALinkMultiplySampingRate st;
        outputByteCountOnALink := outputByteCountOnALink st |}, update).

Definition applyCounterSample (agentIp : Z) (cs : CounterSample) c : Collector T :=
  match mode with
  | MININET => c
  | TESTBED =>
      let now := steadyMs (clockReads c) in
      let c := tick 1 c in
      let key := (agentIp, u32 (interfaceIndex cs)) in
      let '(st, update) := reportCounter now cs (default emptyCounterInfo (m_counterReports c !! key)) in
      let c := with_reports (<[key := st]> (m_counterReports c)) c in
      match update with
      | Some (leftIn, leftOut) =>
          with_monitor (updateLinkInfo key leftIn leftOut (interfaceSpeed cs) (monitor c)) c
      | None => c
      end
  end.

(** ** Flow samples *)

Definition PURE_ACK_SIZE_THRESHOLD : Z := 80.

(** [m[k].inputByteCountOnALinkMultiplySampingRate += bytes]. *)
Definition creditBytes (k : Z * Z) (bytes : Z) (m : gmap (Z * Z) CounterInfo) : gmap (Z * Z) CounterInfo :=
  let st := default emptyCounterInfo (m !! k) in
  <[k := {| lastReportTimestampInMilliseconds := lastReportTimestampInMilliseconds st;
            lastReceivedInputOctets := lastReceivedInputOctets st;
            lastReceivedOutputOctets := lastReceivedOutputOctets st;
            inputByteCountOnALinkMultiplySampingRate :=
              u64 (inputByteCountOnALinkMultiplySampingRate st + bytes);
            outputByteCountOnALink := outputByteCountOnALink st |}]> m.

Definition set_counts (s : FlowStats) (rate ib eb ip ep : Z) (q : AutoRefreshQueue) : FlowStats := {|
  ingressByteCountCurrent := ib; egressByteCountCurrent := eb;
  ingressByteCountPrevious := ingressByteCountPrevious s; egressByteCountPrevious := egressByteCountPrevious s;
  ingresspacketCountCurrent := ip; egresspacketCountCurrent := ep;
  ingresspacketCountPrevious := ingresspacketCountPrevious s; egresspacketCountPrevious := egresspacketCountPrevious s;
  avgByteRateInBps := avgByteRateInBps s; avgPacketRate := avgPacketRate s;
  samplingRate := rate; packetQueue := q |}.

(** A sample of a known flow accumulates ... *)
Definition accumulateStats (isIngress : bool) (rate len ts now : Z) (s : FlowStats) : FlowStats :=
  let q := push now {| packetFrameLengthInByte := len; timestampInMilliseconds := ts |} (packetQueue s) in
  if isIngress
  then set_counts s rate (u64 (ingressByteCountCurrent s + len)) (egressByteCountCurrent s)
         (u64 (ingresspacketCountCurrent s + 1)) (egresspacketCountCurrent s) q
  else set_counts s rate (ingressByteCountCurrent s) (u64 (egressByteCountCurrent s + len))
         (ingresspacketCountCurrent s) (u64 (egresspacketCountCurrent s + 1)) q.

(** ... and the first one of a flow initialises. *)
Definition initStats (isIngress : bool) (rate len ts now : Z) (s : FlowStats) : FlowStats :=
  let q := push now {| packetFrameLengthInByte := len; timestampInMilliseconds := ts |} (packetQueue s) in
  if isIngress then set_counts s rate len 0 1 0 q else set_counts s rate 0 len 0 1 q.

Definition set_info (i : FlowInfo) (stats : gmap AgentKey FlowStats) (start end_ : Z) (ack pure : bool) : FlowInfo := {|
  agentFlowStats := stats;
  estimatedFlowSendingRatePeriodically := estimatedFlowSendingRatePeriodically i;
  estimatedFlowSendingRateImmediately := estimatedFlowSendingRateImmediately i;
  estimatedPacketSendingRatePeriodically := estimatedPacketSendingRatePeriodically i;
  estimatedPacketSendingRateImmediately := estimatedPacketSendingRateImmediately i;
  startTime := start; endTime := end_;
  isElephantFlowPeriodically := isElephantFlowPeriodically i;
  isElephantFlowImmediately := isElephantFlowImmediately i;
  isAck := ack; isPureAck := pure; flowPath := flowPath i |}.

(** The update of the flow table, under its lock.  The queue's own reading of the clock follows
    the reading that stamps the sample. *)
Definition updateFlowTable (key : FlowKey) (agentKey : AgentKey) (isIngress : bool)
    (fs : FlowSample) (pure : bool) c : Collector T :=
  let n := clockReads c in
  match m_flowInfoTable c !! key with
  | Some info =>
      let stats := default emptyStats (agentFlowStats info !! agentKey) in
      let stats' := accumulateStats isIngress (fs_samplingRate fs) (frameLength fs) (steadyMs n) (steadyMs (1 + n)) stats in
      tick 3 (with_flows (<[key := set_info info (<[agentKey := stats']> (agentFlowStats info))
                (startTime info) (systemMs (2 + n)) (isAckPacket fs) pure]> (m_flowInfoTable c)) c)
  | None =>
      let stats' := initStats isIngress (fs_samplingRate fs) (frameLength fs) (steadyMs (2 + n)) (steadyMs (3 + n)) emptyStats in
      tick 4 (with_flows (<[key := set_info emptyFlowInfo {[agentKey := stats']}
                (systemMs n) (systemMs (1 + n)) false false]> (m_flowInfoTable c)) c)
  end.

Definition touchOpt (e : option Edge) (key : FlowKey) c : Collector T :=
  match e with
  | Some e => with_monitor (touchEdgeFlow e key (monitor c)) c
  | None => c
  end.

(** The update of the network map, for flows with a known path. *)
Definition touchEdges (key : FlowKey) (agentIp relevantPort outP : Z) (isIngress : bool) c : Collector T :=
  if bool_decide (is_Some (m_allPathMap c !! (srcIP key, dstIP key))) then
    if isIngress then
      let c := touchOpt (findReverseEdgeByAgentIpAndPort (monitor c) (agentIp, relevantPort)) key c in
      if bool_decide (outP <> 0)
      then touchOpt (findEdgeToHostByAgentIpAndPort (monitor c) (agentIp, outP)) key c
      else c
    else touchOpt (findEdgeByAgentIpAndPort (monitor c) (agentIp, relevantPort)) key c
  else c.

Definition bankBytes (agentIp relevantPort outP : Z) (isIngress : bool) (fs : FlowSample) c : Collector T :=
  match mode with
  | MININET =>
      let bytes := u64 (frameLength fs * fs_samplingRate fs) in
      let c := with_reports (creditBytes (agentIp, relevantPort) bytes (m_counterReports c)) c in
      if isIngress && bool_decide (outP <> 0)
      then with_egress (creditBytes (agentIp, outP) bytes (m_egressCounterReports c)) c
      else c
  | TESTBED => c
  end.

Definition isTracked (protocol : Z) : bool :=
  bool_decide (protocol = 6) || bool_decide (protocol = 17) || bool_decide (protocol = 1).

Definition flowKeyOf (fs : FlowSample) : FlowKey :=
  if bool_decide (fs_protocol fs <> 1)
  then Build_FlowKey (srcIp fs) (dstIp fs) (fs_srcPort fs) (fs_dstPort fs) (fs_protocol fs) 0 0
  else Build_FlowKey (srcIp fs) (dstIp fs) (fs_icmpType fs) (fs_icmpCode fs) (fs_protocol fs) 0 0.

(** A decoded flow sample; [None] when the code leaves the iteration with [continue]. *)
Definition applyFlowSample (agentIp : Z) (fs : FlowSample) c : option (Collector T) :=
  let pure := bool_decide (fs_protocol fs = 6) && isAckPacket fs &&
              bool_decide (frameLength fs < PURE_ACK_SIZE_THRESHOLD) in
  if isTracked (fs_protocol fs) then
    let inP := match mode with MININET => lookupOfport c (inputPort fs) | TESTBED => inputPort fs end in
    let outP := match mode with MININET => lookupOfport c (outputPort fs) | TESTBED => outputPort fs end in
    let isIngress := bool_decide (inP <> 0) in
    let relevantPort := if isIngress then inP else outP in
    if bool_decide (fragOff fs <> 0) then None
    else
      let key := flowKeyOf fs in
      let c := bankBytes agentIp relevantPort outP isIngress fs c in
      let c := updateFlowTable key (Build_AgentKey agentIp relevantPort) isIngress fs pure c in
      Some (touchEdges key agentIp relevantPort outP isIngress c)
  else Some c.

(** ** The loop over the samples *)

Inductive Next := NextAt (index : Z) | Break.

(** One iteration, after the guards. *)
Definition sampleStep (data : BoundedWords) (agentIp index : Z) : run (Collector T) Next := fun c =>
  match rd data index with
  | Throw e => (c, Throw e)
  | Ret sampleType =>
      if bool_decide (sampleType = 2) || bool_decide (sampleType = 4) then
        match decodeCounterSample data sampleType index with
        | Throw e => (c, Throw e)
        | Ret cs => (applyCounterSample agentIp cs c, Ret (NextAt (u32 (index + (cs_sampleLen cs / 4 + 2)))))
        end
      else if bool_decide (sampleType = 1) || bool_decide (sampleType = 3) then
        match decodeFlowSample mode data sampleType index with
        | Throw e => (c, Throw e)
        | Ret (index', None) => (c, Ret (NextAt index'))
        | Ret (index', Some fs) =>
            match applyFlowSample agentIp fs c with
            | None => (c, Ret (NextAt index'))
            | Some c' => (with_addressed (u64 (addresedSampleNum c' + 1)) c',
                          Ret (NextAt (advance mode index' (sampleLen fs) (flowDataLength fs))))
            end
        end
      else
        match rd data (index + 1) with
        | Throw e => (c, Throw e)
        | Ret len => (c, Ret (if bool_decide (0 < len) then NextAt (u32 (index + (len / 4 + 2))) else Break))
        end
  end.

(** [n] is the number of samples still to read. *)
Fixpoint sampleLoop (data : BoundedWords) (agentIp : Z) (n : nat) (index previousIndex : Z) : run (Collector T) unit := fun c =>
  match n with
  | O => (c, Ret tt)
  | S n =>
      if bool_decide (index <= previousIndex) then (c, Ret tt)
      else if bool_decide (Z.of_nat (length data) <= index + 1) then (c, Ret tt)
      else
        match sampleStep data agentIp index c with
        | (c', Ret (NextAt index')) => sampleLoop data agentIp n index' index c'
        | (c', Ret Break) => (c', Ret tt)
        | (c', Throw e) => (c', Throw e)
        end
  end.

Definition reportMalformedDatagram c : Collector T := with_malformed (u64 (m_malformedDatagrams c + 1)) c.

(** The body of the [try] block. *)
Definition parseDatagram (data : BoundedWords) : run (Collector T) unit := fun c =>
  match (let! version := rd data 0 in
         let! agentIp := words_at data 2 in
         let! sampleCount := rd data 6 in
         Ret (version, agentIp, sampleCount)) with
  | Throw e => (c, Throw e)
  | Ret (version, agentIp, sampleCount) =>
      let words := Z.of_nat (length data) in
      let maxPossibleSamples := if bool_decide (7 < words) then (words - 7) / 2 else 0 in
      if bool_decide (version <> 5) then (c, Ret tt)
      else if bool_decide (maxPossibleSamples < sampleCount) then (c, Ret tt)
      else sampleLoop data agentIp (Z.to_nat sampleCount) 7 0 c
  end.

Definition handlePacket (buffer : list Z) c : Collector T :=
  let len := Z.of_nat (length buffer) in
  if bool_decide (len < 7 * 4) then c
  else if bool_decide (len mod 4 <> 0) then c
  else
    match parseDatagram (toWords buffer) c with
    | (c', Ret _) => c'
    | (c', Throw _) => reportMalformedDatagram c'
    end.

Definition sampledByteCreditFor (agentIp port : Z) c : Z :=
  match m_counterReports c !! (agentIp, port) with
  | None => 0
  | Some st => inputByteCountOnALinkMultiplySampingRate st
  end.

End Collector.
