(* ===== verification/SFlowWire.v ===== *)
(** sFlow v5 on the wire: an encoder for flow samples that follows the layout of the protocol
    (sample header, raw-packet record, Ethernet, IPv4 and transport headers), and the proof that
    the parser's word offsets read back exactly what was encoded. *)

From S2P Require Import Prelude Bytes NetUtils SFlowTypes SFlowParser.
Local Open Scope list_scope.
Local Open Scope Z_scope.

(** * Words, halves and octets *)

Lemma be_bytes_4 v : be_bytes 4 v =
  [(v / 256 ^ 3) mod 256; (v / 256 ^ 2) mod 256; (v / 256 ^ 1) mod 256; (v / 256 ^ 0) mod 256].
Proof.
  cbn [be_bytes]. rewrite !be_byte_div. done.
Qed.

Lemma be_bytes_be_value_4 a b c d :
  is_byte a -> is_byte b -> is_byte c -> is_byte d -> be_bytes 4 (be_value [a; b; c; d]) = [a; b; c; d].
Proof.
  unfold is_byte, be_value. intros. rewrite be_bytes_4. cbn [foldl].
  change (256 ^ 3) with 16777216. change (256 ^ 2) with 65536. change (256 ^ 1) with 256. change (256 ^ 0) with 1.
  repeat f_equal; Z.div_mod_to_equations; lia.
Qed.

Lemma bswap32_involutive v : fits 32 v -> bswap32 (bswap32 v) = v.
Proof.
  intros Hv. unfold bswap32, le_bytes.
  pose proof (be_bytes_is_byte 4 v) as HF. pose proof (be_value_be_bytes 4 v) as Hval.
  pose proof (length_be_bytes 4 v) as Hl. destruct (be_bytes 4 v) as [|a [|b [|c [|d [|]]]]]; try done.
  rewrite !Forall_cons in HF. destruct HF as (? & ? & ? & ? & _). change (rev [a; b; c; d]) with [d; c; b; a].
  rewrite be_bytes_be_value_4 by done.
  change (rev [d; c; b; a]) with [a; b; c; d]. rewrite Hval. apply Z.mod_small. exact Hv.
Qed.

(** Two halves of a word. *)
Definition halves (hi lo : Z) : Z := hi * 65536 + lo.

Lemma halves_fits hi lo : fits 16 hi -> fits 16 lo -> fits 32 (halves hi lo).
Proof. unfold fits, halves. change (2 ^ 16) with 65536. change (2 ^ 32) with 4294967296. lia. Qed.

Lemma halves_hi hi lo : fits 16 hi -> fits 16 lo -> Z.land (Z.shiftr (halves hi lo) 16) 0xFFFF = hi.
Proof.
  unfold fits, halves. intros. change 0xFFFF with (Z.ones 16). rewrite Z.land_ones, Z.shiftr_div_pow2 by lia.
  change (2 ^ 16) with 65536 in *. Z.div_mod_to_equations; lia.
Qed.

Lemma halves_lo hi lo : fits 16 lo -> Z.land (halves hi lo) 0xFFFF = lo.
Proof.
  unfold fits, halves. intros. change 0xFFFF with (Z.ones 16). rewrite Z.land_ones by lia.
  change (2 ^ 16) with 65536 in *. Z.div_mod_to_equations; lia.
Qed.

(** Octets of a word, as the parser masks them out. *)
Lemma octet v k : 0 <= k -> Z.land (Z.shiftr v k) 0xFF = (v / 2 ^ k) mod 256.
Proof. intros. change 0xFF with (Z.ones 8). by rewrite Z.land_ones, Z.shiftr_div_pow2 by lia. Qed.

Lemma octet_0 v : Z.land v 0xFF = v mod 256.
Proof. change 0xFF with (Z.ones 8). by rewrite Z.land_ones by lia. Qed.

Lemma octets_lor a b c d :
  0 <= a < 256 -> 0 <= b < 256 -> 0 <= c < 256 -> 0 <= d < 256 ->
  Z.lor (Z.lor (Z.lor (Z.shiftl a 24) (Z.shiftl b 16)) (Z.shiftl c 8)) d =
  a * 16777216 + b * 65536 + c * 256 + d.
Proof.
  intros. rewrite <- !Z.lor_assoc, (lor_shiftl_low c d 8) by (change (2 ^ 8) with 256; lia).
  change (2 ^ 8) with 256. rewrite (lor_shiftl_low b) by (change (2 ^ 16) with 65536; lia).
  change (2 ^ 16) with 65536. rewrite lor_shiftl_low by (change (2 ^ 24) with 16777216; lia).
  change (2 ^ 24) with 16777216. lia.
Qed.

(** An address split over two words comes back in network order. *)
Lemma ipFromFrontBack_halves x ip y :
  fits 16 x -> fits 32 ip -> fits 16 y ->
  ipFromFrontBack (halves x (ip / 65536)) (halves (ip mod 65536) y) = bswap32 ip.
Proof.
  unfold fits. change (2 ^ 16) with 65536. change (2 ^ 32) with 4294967296. intros Hx Hip Hy.
  unfold ipFromFrontBack. f_equal. rewrite !octet, octet_0 by lia.
  rewrite octets_lor by (apply Z.mod_pos_bound; lia). unfold halves.
  change (2 ^ 24) with 16777216; change (2 ^ 16) with 65536; change (2 ^ 8) with 256.
  Z.div_mod_to_equations; lia.
Qed.

(** * The encoder *)

(** A sampled IPv4 packet without options; [l4First] and [l4Second] are the first two 16-bit
    fields of the transport header: ports, or ICMP type and code and the ICMP checksum. *)
Record SampledPacket := {
  p_len : Z; p_seq : Z; p_source : Z; p_rate : Z; p_pool : Z; p_drops : Z; p_in : Z; p_out : Z;
  p_recLen : Z; p_frameLen : Z; p_stripped : Z; p_hdrLen : Z; p_mac1 : Z; p_mac2 : Z; p_mac3 : Z;
  p_verTos : Z; p_totLen : Z; p_ident : Z; p_frag : Z; p_ttl : Z; p_proto : Z; p_cksum : Z;
  p_src : Z; p_dst : Z; l4First : Z; l4Second : Z; p_w25lo : Z; p_w26 : Z; p_w27hi : Z;
  p_dataOff : Z; p_flags : Z
}.

Definition wf_packet (p : SampledPacket) : Prop :=
  Forall (fits 32) [p_len p; p_seq p; p_source p; p_rate p; p_pool p; p_drops p; p_in p; p_out p; p_recLen p;
    p_frameLen p; p_stripped p; p_hdrLen p; p_mac1 p; p_mac2 p; p_mac3 p; p_src p; p_dst p; p_w26 p] /\
  Forall (fits 16) [p_verTos p; p_totLen p; p_ident p; p_frag p; p_cksum p; l4First p; l4Second p; p_w25lo p; p_w27hi p] /\
  Forall (fits 8) [p_ttl p; p_proto p; p_dataOff p; p_flags p].

(** A standard (type 1) flow sample carrying one raw-packet record, in host values. *)
Definition encodeSample (p : SampledPacket) : list Z :=
  [1; p_len p; p_seq p; p_source p; p_rate p; p_pool p; p_drops p; p_in p; p_out p; 1;
   1; p_recLen p; 1; p_frameLen p; p_stripped p; p_hdrLen p;
   p_mac1 p; p_mac2 p; p_mac3 p; halves 0x0800 (p_verTos p);
   halves (p_totLen p) (p_ident p); halves (p_frag p) (p_ttl p * 256 + p_proto p);
   halves (p_cksum p) (p_src p / 65536); halves (p_src p mod 65536) (p_dst p / 65536);
   halves (p_dst p mod 65536) (l4First p); halves (l4Second p) (p_w25lo p); p_w26 p;
   halves (p_w27hi p) (p_dataOff p * 256 + p_flags p)].

(** The bytes of a sequence of words in network order. *)
Definition wire (ws : list Z) : list Z := concat (be_bytes 4 <$> ws).

(** What the packet means to the collector. *)
Definition sampleOf (p : SampledPacket) : FlowSample := {|
  sampleLen := p_len p; flowDataLength := 0; fs_samplingRate := p_rate p; inputPort := p_in p;
  outputPort := p_out p; frameLength := p_frameLen p; fs_protocol := p_proto p;
  srcIp := bswap32 (p_src p); dstIp := bswap32 (p_dst p);
  fs_srcPort := if bool_decide (p_proto p = 1) then 0 else l4First p;
  fs_dstPort := if bool_decide (p_proto p = 1) then 0 else l4Second p;
  fs_icmpType := if bool_decide (p_proto p = 1) then l4First p / 256 else 0;
  fs_icmpCode := if bool_decide (p_proto p = 1) then l4First p mod 256 else 0;
  fragOff := p_frag p mod 8192;
  isAckPacket := bool_decide (p_proto p = 6) && Z.testbit (p_flags p) 4 |}.

Lemma toWords_wire ws : toWords (wire ws) = bswap32 <$> ws.
Proof.
  unfold wire. induction ws as [|w ws IH]; [done|]. rewrite fmap_cons. cbn [concat].
  assert (exists a b c d, be_bytes 4 w = [a; b; c; d]) as (a & b & c & d & E) by (rewrite be_bytes_4; eauto).
  rewrite E. cbn [app toWords]. rewrite IH, fmap_cons. f_equal. unfold bswap32, le_bytes. by rewrite E.
Qed.

Lemma length_wire ws : length (wire ws) = (4 * length ws)%nat.
Proof. unfold wire. induction ws as [|w ws IH]; [done|]. rewrite fmap_cons. cbn [concat length]. rewrite length_app, length_be_bytes, IH. lia. Qed.

Lemma wf_encodeSample p : wf_packet p -> Forall (fits 32) (encodeSample p).
Proof.
  intros (H32 & H16 & H8). rewrite !Forall_cons in *. unfold encodeSample. rewrite !Forall_cons.
  unfold fits, halves in *. change (2 ^ 16) with 65536 in *. change (2 ^ 32) with 4294967296 in *.
  change (2 ^ 8) with 256 in *. destruct_and!. split_and!; try lia; try constructor.
  all: Z.div_mod_to_equations; lia.
Qed.

(** Reading word [k] of a block that starts at [length pre]. *)
Lemma rd_block pre blk post k :
  Forall (fits 32) blk -> 0 <= k < Z.of_nat (length blk) ->
  Z.of_nat (length (pre ++ blk ++ post)) <= 2 ^ 32 ->
  rd (bswap32 <$> pre ++ blk ++ post) (Z.of_nat (length pre) + k) = Ret (nth (Z.to_nat k) blk 0).
Proof.
  intros HF Hk Hlen. unfold rd, words_at. rewrite !length_app in Hlen.
  rewrite u32_id by lia. rewrite bool_decide_true by (rewrite length_fmap, !length_app; lia).
  unfold omap_out. cbn [obind]. f_equal.
  rewrite !nth_lookup, list_lookup_fmap.
  replace (Z.to_nat (Z.of_nat (length pre) + k)) with (length pre + Z.to_nat k)%nat by lia.
  rewrite lookup_app_r, lookup_app_l by lia.
  replace (length pre + Z.to_nat k - length pre)%nat with (Z.to_nat k) by lia.
  destruct (blk !! Z.to_nat k) as [w|] eqn:E; [|apply lookup_ge_None_1 in E; lia].
  simpl. apply bswap32_involutive. rewrite Forall_forall in HF. apply HF. by eapply list_elem_of_lookup_2.
Qed.

(** * Reading back *)

Lemma ack_bit t f : fits 8 f -> bool_decide (Z.land (Z.land (t * 256 + f) 0xFF) TCP_ACK_FLAG <> 0) = Z.testbit f 4.
Proof.
  intros Hf. rewrite octet_0. replace ((t * 256 + f) mod 256) with f.
  2: { unfold fits in Hf. change (2 ^ 8) with 256 in Hf. Z.div_mod_to_equations; lia. }
  unfold TCP_ACK_FLAG. change 0x10 with (2 ^ 4). rewrite Z.land_comm.
  destruct (Z.testbit f 4) eqn:E.
  - apply bool_decide_eq_true. intros H0. apply (f_equal (fun z => Z.testbit z 4)) in H0.
    by rewrite Z.land_spec, E, Z.pow2_bits_true, Z.bits_0 in H0.
  - apply bool_decide_eq_false. intros H0. apply H0. apply Z.bits_inj'. intros i Hi.
    rewrite Z.land_spec, Z.bits_0. destruct (decide (i = 4)) as [->|]; [by rewrite E, andb_false_r|].
    by rewrite Z.pow2_bits_false by lia.
Qed.

Lemma decodeIpv4_sample p pre post :
  wf_packet p -> Z.of_nat (length (pre ++ encodeSample p ++ post)) <= 2 ^ 32 ->
  let i := Z.of_nat (length pre) in
  decodeIpv4 (bswap32 <$> pre ++ encodeSample p ++ post) (i + 21) (i + 27) (p_len p) 0 (p_rate p) (p_in p)
    (p_out p) (p_frameLen p) = Ret (sampleOf p).
Proof.
  intros Hwf Hlen i. pose proof (wf_encodeSample _ Hwf) as HF.
  assert (forall k, 0 <= k < 28 -> rd (bswap32 <$> pre ++ encodeSample p ++ post) (i + k) =
            Ret (nth (Z.to_nat k) (encodeSample p) 0)) as Hrd by (intros k Hk; by apply rd_block).
  destruct Hwf as (H32 & H16 & H8). rewrite !Forall_cons in *. destruct_and!.
  assert (Z.land (halves (p_frag p) (p_ttl p * 256 + p_proto p)) 0xFF = p_proto p) as Hproto.
  { rewrite octet_0. unfold halves, fits in *. change (2 ^ 8) with 256 in *. Z.div_mod_to_equations; lia. }
  assert (fits 16 (p_ttl p * 256 + p_proto p)) as Htp.
  { unfold fits in *. change (2 ^ 8) with 256 in *. change (2 ^ 16) with 65536. lia. }
  unfold decodeIpv4. rewrite <- !Z.add_assoc, !Hrd by lia. cbn [obind].
  change (nth (Z.to_nat 21) _ 0) with (halves (p_frag p) (p_ttl p * 256 + p_proto p)).
  change (nth (Z.to_nat (21 + 1)) _ 0) with (halves (p_cksum p) (p_src p / 65536)).
  change (nth (Z.to_nat (21 + 2)) _ 0) with (halves (p_src p mod 65536) (p_dst p / 65536)).
  change (nth (Z.to_nat (21 + 3)) _ 0) with (halves (p_dst p mod 65536) (l4First p)).
  change (nth (Z.to_nat (21 + 4)) _ 0) with (halves (l4Second p) (p_w25lo p)).
  change (nth (Z.to_nat 27) _ 0) with (halves (p_w27hi p) (p_dataOff p * 256 + p_flags p)).
  assert (forall a, fits 32 a -> fits 16 (a / 65536) /\ fits 16 (a mod 65536)) as Hh.
  { unfold fits in *. change (2 ^ 16) with 65536. change (2 ^ 32) with 4294967296 in *.
    intros a Ha. split; Z.div_mod_to_equations; lia. }
  destruct (Hh (p_dst p)) as [Hd1 Hd2], (Hh (p_src p)) as [Hs1 Hs2]; [done..|].
  rewrite Hproto, halves_hi, !ipFromFrontBack_halves by done. rewrite !halves_lo, halves_hi by done.
  unfold sampleOf.
  assert (Z.land (p_frag p) 0x1FFF = p_frag p mod 8192) as ->
    by (change 0x1FFF with (Z.ones 13); by rewrite Z.land_ones by lia).
  assert (bool_decide (Z.land (Z.land (halves (p_w27hi p) (p_dataOff p * 256 + p_flags p)) 0xFF) TCP_ACK_FLAG <> 0) =
          Z.testbit (p_flags p) 4) as ->.
  { unfold halves. replace (p_w27hi p * 65536 + (p_dataOff p * 256 + p_flags p))
      with ((p_w27hi p * 256 + p_dataOff p) * 256 + p_flags p) by lia. by rewrite ack_bit. }
  repeat case_bool_decide; try done; try congruence; cbn [obind andb]. f_equal.
  rewrite octet, octet_0 by lia. unfold halves. f_equal; unfold fits in *; change (2 ^ 8) with 256 in *;
    change (2 ^ 16) with 65536 in *; Z.div_mod_to_equations; lia.
Qed.

(** The parser reads standard flow samples correctly.  For every well-formed sampled IPv4
    packet, wherever its sample lies in the datagram, decoding the encoded sample yields exactly
    its sampling rate, interfaces, frame length, addresses (in network order), protocol, ports or
    ICMP type and code, fragment offset and TCP acknowledgement flag. *)
Theorem flow_sample_roundtrip p pre post :
  wf_packet p -> Z.of_nat (length (pre ++ encodeSample p ++ post)) <= 2 ^ 32 ->
  decodeFlowSample TESTBED (toWords (wire (pre ++ encodeSample p ++ post))) 1 (Z.of_nat (length pre)) =
  Ret (Z.of_nat (length pre), Some (sampleOf p)).
Proof.
  intros Hwf Hlen. rewrite toWords_wire. pose proof (wf_encodeSample _ Hwf) as HF. unfold decodeFlowSample.
  rewrite !(rd_block pre (encodeSample p) post) by (done || simpl; lia). cbn [obind nth Z.to_nat].
  rewrite bool_decide_true by done. rewrite bool_decide_false.
  - by rewrite decodeIpv4_sample.
  - intros H. apply H. change (nth _ _ 0) with (halves 0x0800 (p_verTos p)). apply halves_hi; [done|].
    destruct Hwf as (_ & H16 & _). rewrite !Forall_cons in H16. by destruct_and!.
Qed.

Definition samplePacket : SampledPacket :=
  Build_SampledPacket 144 9 3 400 3600 0 5 2 96 1514 4 66 0 0 0 0x4500 1500 77 0x4000 64 6 0
    0x0A000001 0x0A000002 40000 443 0 0 0 0x50 0x10.

Lemma wf_samplePacket : wf_packet samplePacket.
Proof. unfold wf_packet, fits. cbn. rewrite !Forall_cons. split_and!; try done; lia. Qed.

Lemma flow_sample_roundtrip_witness :
  decodeFlowSample TESTBED (toWords (wire ([5; 1; 0; 0; 0; 0; 1] ++ encodeSample samplePacket ++ []))) 1 7 =
  Ret (7, Some (sampleOf samplePacket)) /\ fs_dstPort (sampleOf samplePacket) = 443.
Proof.
  split; [|reflexivity].
  apply (flow_sample_roundtrip samplePacket [5; 1; 0; 0; 0; 0; 1] []); [exact wf_samplePacket|vm_compute; discriminate].
Defined.
