(* ===== verification/SFlowIngest.v ===== *)
(** Properties of the sFlow ingest path: how samples are accounted, what a whole datagram does,
    that the sample loop makes progress, and the counter-report invariant. *)

From S2P Require Import Prelude Bytes NetUtils SFlowTypes SFlowProps SFlowParser SFlowWire.
Local Open Scope list_scope.
Local Open Scope Z_scope.

(** * Accounting *)

Definition statsOf (f : gmap FlowKey FlowInfo) (k : FlowKey) (a : AgentKey) : option FlowStats :=
  info ← f !! k; agentFlowStats info !! a.

(** Bytes and packets counted for a flow at an agent, both directions together. *)
Definition flowBytes (f : gmap FlowKey FlowInfo) (k : FlowKey) (a : AgentKey) : Z :=
  match statsOf f k a with
  | Some s => u64 (ingressByteCountCurrent s + egressByteCountCurrent s)
  | None => 0
  end.

Definition flowPackets (f : gmap FlowKey FlowInfo) (k : FlowKey) (a : AgentKey) : Z :=
  match statsOf f k a with
  | Some s => u64 (ingresspacketCountCurrent s + egresspacketCountCurrent s)
  | None => 0
  end.

Lemma u64_u64 x : u64 (u64 x) = u64 x.
Proof. apply Zmod_mod. Qed.

Lemma flowBytes_u64 f k a : u64 (flowBytes f k a) = flowBytes f k a.
Proof. unfold flowBytes. destruct (statsOf f k a); [apply u64_u64|done]. Qed.

Lemma flowPackets_u64 f k a : u64 (flowPackets f k a) = flowPackets f k a.
Proof. unfold flowPackets. destruct (statsOf f k a); [apply u64_u64|done]. Qed.

Lemma u64_push_l x y len : u64 (u64 (x + len) + y) = u64 (u64 (x + y) + len).
Proof. unfold u64. rewrite !Zplus_mod_idemp_l. f_equal. lia. Qed.
Lemma u64_push_r x y len : u64 (x + u64 (y + len)) = u64 (u64 (x + y) + len).
Proof. unfold u64. rewrite Zplus_mod_idemp_l, Zplus_mod_idemp_r. f_equal. lia. Qed.

Section Ingest.
Context {T : Type} `{!TopologyMonitor T} (steadyMs systemMs : nat -> Z).
Implicit Types c : Collector T.

Definition here (k key : FlowKey) (a agentKey : AgentKey) (v : Z) : Z :=
  if bool_decide (k = key /\ a = agentKey) then v else 0.

Lemma statsOf_insert f key info k a :
  statsOf (<[key := info]> f) k a = if decide (k = key) then agentFlowStats info !! a else statsOf f k a.
Proof. unfold statsOf. rewrite lookup_insert. repeat case_decide; by simplify_eq/=. Qed.

Definition bytesOf (s : FlowStats) : Z := u64 (ingressByteCountCurrent s + egressByteCountCurrent s).
Definition packetsOf (s : FlowStats) : Z := u64 (ingresspacketCountCurrent s + egresspacketCountCurrent s).

Lemma accumulateStats_counts i rate len ts now s :
  bytesOf (accumulateStats i rate len ts now s) = u64 (bytesOf s + len) /\
  packetsOf (accumulateStats i rate len ts now s) = u64 (packetsOf s + 1).
Proof.
  unfold bytesOf, packetsOf, accumulateStats.
  destruct i; cbn [set_counts ingressByteCountCurrent egressByteCountCurrent ingresspacketCountCurrent
                   egresspacketCountCurrent]; split; (apply u64_push_l || apply u64_push_r).
Qed.

Lemma initStats_counts i rate len ts now s :
  bytesOf (initStats i rate len ts now s) = u64 len /\ packetsOf (initStats i rate len ts now s) = u64 1.
Proof.
  unfold bytesOf, packetsOf, initStats.
  destruct i; cbn [set_counts ingressByteCountCurrent egressByteCountCurrent ingresspacketCountCurrent
                   egresspacketCountCurrent]; by rewrite ?Z.add_0_r, ?Z.add_0_l.
Qed.

(** One sample adds its frame to one flow at one agent and to nothing else. *)
Lemma updateFlowTable_counts key agentKey isIngress fs pure c k a :
  let c' := updateFlowTable steadyMs systemMs key agentKey isIngress fs pure c in
  flowBytes (m_flowInfoTable c') k a = u64 (flowBytes (m_flowInfoTable c) k a + here k key a agentKey (frameLength fs)) /\
  flowPackets (m_flowInfoTable c') k a = u64 (flowPackets (m_flowInfoTable c) k a + here k key a agentKey 1).
Proof.
  cbn zeta. unfold updateFlowTable, here.
  destruct (bool_decide_reflect (k = key /\ a = agentKey)) as [[-> ->]|Hne].
  - unfold flowBytes, flowPackets.
    destruct (m_flowInfoTable c !! key) as [info|] eqn:E; cbn [m_flowInfoTable tick with_flows]; rewrite statsOf_insert;
      rewrite decide_True by done; cbn [agentFlowStats set_info]; unfold statsOf at 1 2; rewrite E; cbn [mbind option_bind].
    + rewrite lookup_insert_eq. fold (bytesOf (accumulateStats isIngress (fs_samplingRate fs) (frameLength fs)
        (steadyMs (clockReads c)) (steadyMs (1 + clockReads c)) (default emptyStats (agentFlowStats info !! agentKey)))).
      fold (packetsOf (accumulateStats isIngress (fs_samplingRate fs) (frameLength fs)
        (steadyMs (clockReads c)) (steadyMs (1 + clockReads c)) (default emptyStats (agentFlowStats info !! agentKey)))).
      rewrite !(proj1 (accumulateStats_counts _ _ _ _ _ _)), !(proj2 (accumulateStats_counts _ _ _ _ _ _)).
      by destruct (agentFlowStats info !! agentKey).
    + rewrite lookup_singleton_eq. rewrite !Z.add_0_l. apply initStats_counts.
  - rewrite !Z.add_0_r, flowBytes_u64, flowPackets_u64.
    assert (forall f' : gmap FlowKey FlowInfo, statsOf f' k a = statsOf (m_flowInfoTable c) k a ->
              flowBytes f' k a = flowBytes (m_flowInfoTable c) k a /\
              flowPackets f' k a = flowPackets (m_flowInfoTable c) k a) as H
      by (intros f' Hf; unfold flowBytes, flowPackets; by rewrite Hf).
    destruct (m_flowInfoTable c !! key) as [info|] eqn:E; cbn [m_flowInfoTable tick with_flows]; apply H;
      rewrite statsOf_insert; case_decide; [subst|done|subst|done]; unfold statsOf; rewrite E;
      cbn [mbind option_bind agentFlowStats set_info].
    + rewrite lookup_insert_ne; naive_solver.
    + rewrite lookup_singleton_ne; naive_solver.
Qed.

Lemma touchEdges_table key ip p o i c : m_flowInfoTable (touchEdges key ip p o i c) = m_flowInfoTable c.
Proof. unfold touchEdges, touchOpt. by repeat (case_match; try done). Qed.

Lemma touchEdges_reports key ip p o i c : m_counterReports (touchEdges key ip p o i c) = m_counterReports c.
Proof. unfold touchEdges, touchOpt. by repeat (case_match; try done). Qed.

Lemma updateFlowTable_reports key ak i fs pure c :
  m_counterReports (updateFlowTable steadyMs systemMs key ak i fs pure c) = m_counterReports c.
Proof. unfold updateFlowTable. by case_match. Qed.

Lemma bankBytes_table mode ip p o i fs c : m_flowInfoTable (bankBytes mode ip p o i fs c) = m_flowInfoTable c.
Proof. unfold bankBytes. by repeat case_match. Qed.

(** The interface a sample is attributed to: its input port if it has one, else its output port,
    both translated to OpenFlow ports under Mininet. *)
Definition portOf (mode : DeploymentMode) c (ifIndex : Z) : Z :=
  match mode with MININET => lookupOfport c ifIndex | TESTBED => ifIndex end.

Definition agentKeyOf (mode : DeploymentMode) c (agentIp : Z) (fs : FlowSample) : AgentKey :=
  Build_AgentKey agentIp
    (if bool_decide (portOf mode c (inputPort fs) <> 0) then portOf mode c (inputPort fs)
     else portOf mode c (outputPort fs)).

Lemma bankBytes_credit mode ip p o i fs c ip' p' :
  sampledByteCreditFor ip' p' (bankBytes mode ip p o i fs c) =
  match mode with
  | MININET => if bool_decide ((ip', p') = (ip, p))
               then u64 (sampledByteCreditFor ip' p' c + u64 (frameLength fs * fs_samplingRate fs))
               else sampledByteCreditFor ip' p' c
  | TESTBED => sampledByteCreditFor ip' p' c
  end.
Proof.
  unfold bankBytes, sampledByteCreditFor. destruct mode; [|done].
  assert (forall m, (match creditBytes (ip, p) (u64 (frameLength fs * fs_samplingRate fs)) m !! (ip', p') with
            | Some st => inputByteCountOnALinkMultiplySampingRate st | None => 0 end) =
          if bool_decide ((ip', p') = (ip, p))
          then u64 (match m !! (ip', p') with Some st => inputByteCountOnALinkMultiplySampingRate st | None => 0 end +
                    u64 (frameLength fs * fs_samplingRate fs))
          else match m !! (ip', p') with Some st => inputByteCountOnALinkMultiplySampingRate st | None => 0 end) as H.
  { intros m. unfold creditBytes. rewrite lookup_insert. case_bool_decide as He.
    - rewrite He, decide_True by done. by destruct (m !! (ip, p)).
    - by rewrite decide_False by done. }
  destruct (i && _); apply H.
Qed.

Lemma sample_counts mode agentIp fs c :
  isTracked (fs_protocol fs) = true -> fragOff fs = 0 ->
  exists c', applyFlowSample steadyMs systemMs mode agentIp fs c = Some c' /\
    (forall k a,
      flowBytes (m_flowInfoTable c') k a =
        u64 (flowBytes (m_flowInfoTable c) k a + here k (flowKeyOf fs) a (agentKeyOf mode c agentIp fs) (frameLength fs)) /\
      flowPackets (m_flowInfoTable c') k a =
        u64 (flowPackets (m_flowInfoTable c) k a + here k (flowKeyOf fs) a (agentKeyOf mode c agentIp fs) 1)) /\
    (forall ip port,
      sampledByteCreditFor ip port c' =
      if bool_decide (mode = MININET /\ Build_AgentKey ip port = agentKeyOf mode c agentIp fs)
      then u64 (sampledByteCreditFor ip port c + u64 (frameLength fs * fs_samplingRate fs))
      else sampledByteCreditFor ip port c).
Proof.
  intros Ht Hf. unfold applyFlowSample. rewrite Ht, bool_decide_false by lia.
  fold (portOf mode c (inputPort fs)) (portOf mode c (outputPort fs)).
  unfold agentKeyOf. set (port := if bool_decide _ then _ else _). set (isIngress := bool_decide _).
  eexists. split; [done|]. split.
  - intros k a. rewrite touchEdges_table.
    rewrite <- (bankBytes_table mode agentIp port (portOf mode c (outputPort fs)) isIngress fs c).
    by apply updateFlowTable_counts.
  - intros ip p. unfold sampledByteCreditFor at 1. rewrite touchEdges_reports, updateFlowTable_reports.
    fold (sampledByteCreditFor ip p (bankBytes mode agentIp port (portOf mode c (outputPort fs)) isIngress fs c)).
    rewrite bankBytes_credit. destruct mode; [|done].
    rewrite (bool_decide_ext ((ip, p) = (agentIp, port))
               (MININET = MININET /\ Build_AgentKey ip p = Build_AgentKey agentIp port)); [done|].
    split; [intros [= -> ->]; done|intros [_ [= -> ->]]; done].
Qed.

(** Every tracked first-fragment sample is accounted exactly once.  It adds its frame length
    and one packet to its flow at the interface it entered (or left) the switch by, leaves every
    other flow and interface unchanged, and under Mininet adds frame length times sampling rate to
    that interface's byte credit; counters are modulo 2^64. *)
Theorem flow_sample_accounted mode agentIp fs c :
  isTracked (fs_protocol fs) = true -> fragOff fs = 0 ->
  exists c', applyFlowSample steadyMs systemMs mode agentIp fs c = Some c' /\
    (forall k a,
      flowBytes (m_flowInfoTable c') k a =
        u64 (flowBytes (m_flowInfoTable c) k a + here k (flowKeyOf fs) a (agentKeyOf mode c agentIp fs) (frameLength fs)) /\
      flowPackets (m_flowInfoTable c') k a =
        u64 (flowPackets (m_flowInfoTable c) k a + here k (flowKeyOf fs) a (agentKeyOf mode c agentIp fs) 1)) /\
    (forall ip port,
      sampledByteCreditFor ip port c' =
      if bool_decide (mode = MININET /\ Build_AgentKey ip port = agentKeyOf mode c agentIp fs)
      then u64 (sampledByteCreditFor ip port c + u64 (frameLength fs * fs_samplingRate fs))
      else sampledByteCreditFor ip port c).
Proof. apply sample_counts. Qed.

(** * Whole datagrams *)

(** An sFlow v5 datagram with standard flow samples. *)
Definition encodeDatagram (agent seq : Z) (ps : list SampledPacket) : list Z :=
  [5; 1; agent; 0; seq; 0; Z.of_nat (length ps)] ++ concat (encodeSample <$> ps).

(** Packets of 28-word samples whose IPv4 packet, if its protocol is tracked, is no later
    fragment. *)
Definition plainPacket (p : SampledPacket) : Prop :=
  wf_packet p /\ p_len p = 104 /\ (isTracked (p_proto p) = true -> p_frag p mod 8192 = 0).

Definition ingest (agentIp : Z) c (p : SampledPacket) : Collector T :=
  match applyFlowSample steadyMs systemMs TESTBED agentIp (sampleOf p) c with
  | Some c' => with_addressed (u64 (addresedSampleNum c' + 1)) c'
  | None => c
  end.

Lemma applyFlowSample_some agentIp p c :
  plainPacket p -> exists c', applyFlowSample steadyMs systemMs TESTBED agentIp (sampleOf p) c = Some c'.
Proof.
  intros (_ & _ & Hf). unfold applyFlowSample. cbn [fs_protocol sampleOf].
  destruct (isTracked (p_proto p)) eqn:Ht; [|eauto]. rewrite bool_decide_false; [eauto|].
  cbn [fragOff sampleOf]. rewrite Hf by done. auto.
Qed.

(** One iteration of the loop on an encoded sample. *)
Lemma sampleStep_encoded agentIp p pre post c :
  plainPacket p -> Z.of_nat (length (pre ++ encodeSample p ++ post)) < 2 ^ 31 ->
  sampleStep steadyMs systemMs TESTBED (bswap32 <$> pre ++ encodeSample p ++ post) agentIp
    (Z.of_nat (length pre)) c =
  (ingest agentIp c p, Ret (NextAt (Z.of_nat (length (pre ++ encodeSample p))))).
Proof.
  intros Hp Hlen. destruct (applyFlowSample_some agentIp p c Hp) as [c' Hc'].
  destruct Hp as (Hwf & Hl & _). unfold sampleStep.
  pose proof (rd_block pre (encodeSample p) post 0 (wf_encodeSample _ Hwf) ltac:(simpl; lia) ltac:(lia)) as Hrd.
  rewrite Z.add_0_r in Hrd. rewrite Hrd. change (nth (Z.to_nat 0) (encodeSample p) 0) with 1. cbv iota beta.
  rewrite (bool_decide_false (1 = 2)), (bool_decide_false (1 = 4)), (bool_decide_true (1 = 1)) by done. cbn [orb].
  rewrite <- toWords_wire, flow_sample_roundtrip by (done || lia). cbv iota beta.
  unfold ingest. rewrite Hc'. f_equal. f_equal. f_equal. cbn [advance sampleLen sampleOf]. rewrite Hl.
  rewrite !length_app in *. change (length (encodeSample p)) with 28%nat in *. change (104 / 4 + 2) with 28.
  rewrite u32_id; lia.
Qed.

Lemma length_samples ps : length (concat (encodeSample <$> ps)) = (28 * length ps)%nat.
Proof. induction ps as [|p ps IH]; [done|]. rewrite fmap_cons. cbn [concat]. rewrite length_app, IH. simpl. lia. Qed.

Lemma sampleLoop_encoded agentIp ps pre prev c :
  Forall plainPacket ps -> prev < Z.of_nat (length pre) ->
  Z.of_nat (length (pre ++ concat (encodeSample <$> ps))) < 2 ^ 31 ->
  sampleLoop steadyMs systemMs TESTBED (bswap32 <$> pre ++ concat (encodeSample <$> ps)) agentIp (length ps)
    (Z.of_nat (length pre)) prev c = (foldl (ingest agentIp) c ps, Ret tt).
Proof.
  intros HF. revert pre prev c. induction HF as [|p ps Hp HF IH]; intros pre prev c Hprev Hlen; [done|].
  cbn [length sampleLoop foldl]. rewrite fmap_cons in *. cbn [concat] in *.
  rewrite bool_decide_false by lia. rewrite bool_decide_false.
  2: { rewrite length_fmap, !length_app. change (length (encodeSample p)) with 28%nat. lia. }
  rewrite sampleStep_encoded by done. cbv iota beta.
  rewrite app_assoc in Hlen |- *. apply IH; [|done].
  rewrite length_app. change (length (encodeSample p)) with 28%nat. lia.
Qed.

Lemma handlePacket_encoded agent seq ps c :
  fits 32 agent -> fits 32 seq -> Forall plainPacket ps -> Z.of_nat (length ps) < 2 ^ 20 ->
  handlePacket steadyMs systemMs TESTBED (wire (encodeDatagram agent seq ps)) c =
  foldl (ingest (bswap32 agent)) c ps.
Proof.
  intros Ha Hs HF Hn.
  unfold handlePacket. rewrite length_wire, toWords_wire.
  assert (length (encodeDatagram agent seq ps) = (7 + 28 * length ps)%nat) as Hlen
    by (unfold encodeDatagram; rewrite length_app, length_samples; done).
  rewrite Hlen, bool_decide_false by lia. rewrite bool_decide_false by (intros H; apply H; Z.div_mod_to_equations; lia).
  assert (Forall (fits 32) [5; 1; agent; 0; seq; 0; Z.of_nat (length ps)]) as Hhd.
  { repeat constructor; try done; try lia; try apply Ha; try apply Hs. }
  unfold parseDatagram, encodeDatagram in *. set (hd := [5; 1; agent; 0; seq; 0; Z.of_nat (length ps)]) in *.
  set (body := concat (encodeSample <$> ps)) in *.
  assert (forall k, 0 <= k < 7 -> rd (bswap32 <$> hd ++ body) k = Ret (nth (Z.to_nat k) hd 0)) as Hrd.
  { intros k Hk. apply (rd_block [] hd body k); [done..|]. change ([] ++ hd ++ body) with (hd ++ body). rewrite Hlen. lia. }
  rewrite !Hrd by lia. unfold words_at.
  rewrite bool_decide_true by (rewrite length_fmap, Hlen; lia). cbn [obind].
  replace (nth (Z.to_nat 2) (bswap32 <$> hd ++ body) 0) with (bswap32 agent) by done.
  change (nth (Z.to_nat 0) hd 0) with 5. change (nth (Z.to_nat 6) hd 0) with (Z.of_nat (length ps)).
  cbv iota beta. rewrite length_fmap, Hlen, (bool_decide_false (5 <> 5)) by auto.
  rewrite bool_decide_false by (case_bool_decide; Z.div_mod_to_equations; lia).
  rewrite Nat2Z.id. change 7 with (Z.of_nat (length hd)). unfold body.
  rewrite sampleLoop_encoded; [done|done|done|]. fold body. rewrite Hlen. lia.
Qed.

Definition tableBytes c : FlowKey -> AgentKey -> Z := flowBytes (m_flowInfoTable c).

(** What one packet contributes to a flow at an agent. *)
Definition share (agentIp : Z) (k : FlowKey) (a : AgentKey) (p : SampledPacket) : Z :=
  let fs := sampleOf p in
  if isTracked (p_proto p) then
    here k (flowKeyOf fs) a
      (Build_AgentKey agentIp (if bool_decide (p_in p <> 0) then p_in p else p_out p)) (p_frameLen p)
  else 0.

Definition shares (agentIp : Z) (k : FlowKey) (a : AgentKey) (ps : list SampledPacket) : Z :=
  foldr (fun p acc => share agentIp k a p + acc) 0 ps.

Lemma applyFlowSample_untouched agentIp fs c c' :
  applyFlowSample steadyMs systemMs TESTBED agentIp fs c = Some c' ->
  m_malformedDatagrams c' = m_malformedDatagrams c /\ addresedSampleNum c' = addresedSampleNum c.
Proof.
  unfold applyFlowSample, touchEdges, touchOpt, updateFlowTable. intros H.
  repeat (case_match; simplify_eq/=; try done).
Qed.

Lemma ingest_share agentIp p c k a :
  plainPacket p ->
  tableBytes (ingest agentIp c p) k a = u64 (tableBytes c k a + share agentIp k a p) /\
  m_malformedDatagrams (ingest agentIp c p) = m_malformedDatagrams c /\
  addresedSampleNum (ingest agentIp c p) = u64 (addresedSampleNum c + 1).
Proof.
  intros Hp. destruct (applyFlowSample_some agentIp p c Hp) as [c' Hc']. unfold ingest. rewrite Hc'.
  destruct (applyFlowSample_untouched _ _ _ _ Hc') as [Hm Hs]. cbn. rewrite Hm, Hs. split; [|done].
  unfold tableBytes, share. cbn [m_flowInfoTable with_addressed].
  destruct (isTracked (p_proto p)) eqn:Ht.
  - destruct (sample_counts TESTBED agentIp (sampleOf p) c) as (c2 & Hc2 & Hb & _); [done|by apply Hp|].
    rewrite Hc' in Hc2. injection Hc2 as <-. apply Hb.
  - unfold applyFlowSample in Hc'. cbn [fs_protocol sampleOf] in Hc'. rewrite Ht in Hc'. injection Hc' as <-.
    rewrite Z.add_0_r. symmetry. apply flowBytes_u64.
Qed.


(** * Fragments *)

(** A later fragment hides the rest of its datagram.  Outside Mininet a sample of a non-first
    IPv4 fragment leaves the read position where it was, so the progress guard ends the loop: the
    samples behind it are not read, although only the fragment itself is meant to be dropped. *)
Theorem fragment_hides_rest agentIp p ps pre prev c :
  wf_packet p -> isTracked (p_proto p) = true -> p_frag p mod 8192 <> 0 ->
  Z.of_nat (length (pre ++ concat (encodeSample <$> p :: ps))) < 2 ^ 31 ->
  sampleLoop steadyMs systemMs TESTBED (bswap32 <$> pre ++ concat (encodeSample <$> p :: ps)) agentIp
    (length (p :: ps)) (Z.of_nat (length pre)) prev c = (c, Ret tt).
Proof.
  intros Hwf Ht Hfrag Hlen. rewrite fmap_cons in *. cbn [concat length sampleLoop] in *.
  case_bool_decide; [done|]. case_bool_decide; [done|].
  set (post := concat (encodeSample <$> ps)) in *. unfold sampleStep.
  pose proof (rd_block pre (encodeSample p) post 0 (wf_encodeSample _ Hwf) ltac:(simpl; lia) ltac:(lia)) as Hrd.
  rewrite Z.add_0_r in Hrd. rewrite Hrd. change (nth (Z.to_nat 0) (encodeSample p) 0) with 1. cbv iota beta.
  rewrite (bool_decide_false (1 = 2)), (bool_decide_false (1 = 4)), (bool_decide_true (1 = 1)) by done. cbn [orb].
  rewrite <- toWords_wire, flow_sample_roundtrip by (done || lia). cbv iota beta.
  unfold applyFlowSample. cbn [fs_protocol sampleOf fragOff]. rewrite Ht, bool_decide_true by done.
  destruct ps as [|p' ps]; cbn [sampleLoop length]; [done|]. by rewrite bool_decide_true.
Qed.

(** * Progress *)

Lemma sampleLoop_fuel data agentIp mode n n' index prev c :
  (Z.to_nat (Z.of_nat (length data) - index) <= n)%nat -> (Z.to_nat (Z.of_nat (length data) - index) <= n')%nat ->
  sampleLoop steadyMs systemMs mode data agentIp n index prev c =
  sampleLoop steadyMs systemMs mode data agentIp n' index prev c.
Proof.
  revert n' index prev c. induction n as [|n IH]; intros n' index prev c Hn Hn'.
  - destruct n' as [|n']; [done|]. cbn [sampleLoop]. case_bool_decide; [done|].
    by rewrite bool_decide_true by lia.
  - destruct n' as [|n']; cbn [sampleLoop].
    { case_bool_decide; [done|]. by rewrite bool_decide_true by lia. }
    case_bool_decide; [done|]. case_bool_decide; [done|].
    destruct (sampleStep steadyMs systemMs mode data agentIp index c) as [c' [[index'|]|e]]; [|done|done].
    destruct (decide (index' <= index)).
    + destruct n, n'; cbn [sampleLoop]; rewrite ?bool_decide_true by done; done.
    + apply IH; lia.
Qed.

(** The sample loop ends by itself.  Whatever the datagram, the mode and the state, the loop
    does at most one iteration per word of the datagram: asking for more samples than it has words
    changes nothing, so a forged sample count cannot keep a worker busy. *)
Theorem sample_loop_bounded data agentIp mode n c :
  (length data <= n)%nat ->
  sampleLoop steadyMs systemMs mode data agentIp n 7 0 c =
  sampleLoop steadyMs systemMs mode data agentIp (length data) 7 0 c.
Proof. intros Hn. apply sampleLoop_fuel; lia. Qed.

(** * Counter reports *)

(** An interface that was reported before has both octet counters cached. *)
Definition counter_ok (st : CounterInfo) : Prop :=
  lastReportTimestampInMilliseconds st <> 0 ->
  is_Some (lastReceivedInputOctets st) /\ is_Some (lastReceivedOutputOctets st).

Definition reports_ok c : Prop := map_Forall (fun _ => counter_ok) (m_counterReports c).

Lemma default_counter_ok (m : gmap (Z * Z) CounterInfo) key :
  map_Forall (fun _ => counter_ok) m -> counter_ok (default emptyCounterInfo (m !! key)).
Proof. intros H. destruct (m !! key) as [st|] eqn:E; [by apply (H key)|done]. Qed.

Lemma applyCounterSample_ok mode ip cs c : reports_ok c -> reports_ok (applyCounterSample steadyMs mode ip cs c).
Proof.
  intros H. unfold applyCounterSample. destruct mode; [done|].
  pose proof (default_counter_ok _ (ip, u32 (interfaceIndex cs)) H) as Hd.
  unfold reportCounter. cbn [m_counterReports tick].
  case_bool_decide; [|destruct (_ && _ && _)]; unfold reports_ok; cbn; apply map_Forall_insert_2; try done;
    by split; eexists.
Qed.

Lemma applyFlowSample_ok mode ip fs c c' :
  reports_ok c -> applyFlowSample steadyMs systemMs mode ip fs c = Some c' -> reports_ok c'.
Proof.
  intros H. unfold applyFlowSample. case_match; [|by intros [= <-]]. case_match; [done|]. intros [= <-].
  unfold reports_ok. rewrite touchEdges_reports, updateFlowTable_reports. unfold bankBytes. destruct mode; [|done].
  assert (forall k b, map_Forall (fun _ => counter_ok) (creditBytes k b (m_counterReports c))) as Hc.
  { intros k b. apply map_Forall_insert_2; [|done]. by apply (default_counter_ok _ k H). }
  destruct (_ && _); apply Hc.
Qed.

Lemma sampleLoop_ok mode data ip n index prev c :
  reports_ok c -> reports_ok (sampleLoop steadyMs systemMs mode data ip n index prev c).1.
Proof.
  revert index prev c. induction n as [|n IH]; intros index prev c H; cbn [sampleLoop]; [done|].
  case_bool_decide; [done|]. case_bool_decide; [done|].
  assert (reports_ok (sampleStep steadyMs systemMs mode data ip index c).1) as Hs.
  { unfold sampleStep. repeat (case_match; simplify_eq/=; try done).
    all: first [by apply applyCounterSample_ok | match goal with Ha : applyFlowSample _ _ _ _ _ _ = _ |- _ => exact (applyFlowSample_ok _ _ _ _ _ H Ha) end]. }
  destruct (sampleStep steadyMs systemMs mode data ip index c) as [c' [[index'|]|e]]; [by apply IH|done..].
Qed.

(** The octet counters of a link are never read before they are written: any datagram, in any
    mode, also a malformed one, preserves that an interface with a report time has both of its
    cached octet counters. *)
Theorem counter_reports_initialised mode buffer c :
  reports_ok c -> reports_ok (handlePacket steadyMs systemMs mode buffer c).
Proof.
  intros H. unfold handlePacket. case_bool_decide; [done|]. case_bool_decide; [done|]. unfold parseDatagram.
  destruct (obind _ _) as [[[v ip] n]|e]; [|done]. repeat (case_bool_decide; [done|]).
  pose proof (sampleLoop_ok mode (toWords buffer) ip (Z.to_nat n) 7 0 c H) as Hl.
  by destruct (sampleLoop _ _ _ _ _ _ _ _ _) as [c' [[]|e]].
Qed.

(** The bandwidth left on a link.  A report that comes at least a second after the previous
    one, with counters that did not go backwards, leaves in each direction the interface speed
    less the average bit rate since then, and nothing when the rate exceeds the speed. *)
Theorem counter_bandwidth now cs st lastIn lastOut :
  lastReceivedInputOctets st = Some lastIn -> lastReceivedOutputOctets st = Some lastOut ->
  lastReportTimestampInMilliseconds st <> 0 -> 1000 <= now - lastReportTimestampInMilliseconds st < 2 ^ 63 ->
  0 <= lastIn <= inputOctets cs -> 0 <= lastOut <= outputOctets cs ->
  (inputOctets cs - lastIn) * 8 < 2 ^ 64 -> (outputOctets cs - lastOut) * 8 < 2 ^ 64 ->
  let dt := (now - lastReportTimestampInMilliseconds st) / 1000 in
  (reportCounter now cs st).2 =
  Some (Z.max 0 (interfaceSpeed cs - (inputOctets cs - lastIn) * 8 / dt),
        Z.max 0 (interfaceSpeed cs - (outputOctets cs - lastOut) * 8 / dt)).
Proof.
  intros Hin Hout Hne Hdt Hi Ho Hib Hob dt. unfold reportCounter. rewrite Hin, Hout. cbn [default from_option id].
  rewrite Z.quot_div_nonneg by lia. fold dt.
  assert (0 < dt < 2 ^ 63) as Hdt' by (unfold dt; change (2 ^ 63) with 9223372036854775808 in *; Z.div_mod_to_equations; lia).
  rewrite bool_decide_false by lia. rewrite !bool_decide_true by lia. cbn [andb snd].
  rewrite !(u64_id dt), (u64_id (inputOctets cs - lastIn)), (u64_id (outputOctets cs - lastOut)) by lia.
  rewrite !u64_id by lia. f_equal. f_equal; case_bool_decide; lia.
Qed.

End Ingest.

(** * A recording monitor, and samples to run *)

(** The calls the collector makes to the topology monitor, on a network where the edge behind an
    interface is named by the interface itself. *)
Inductive MonitorCall :=
  | Touched (edge : Z * Z) (key : FlowKey)
  | LinkInfo (key : Z * Z) (leftIn leftOut speed : Z)
  | LinkBytes (key : Z * Z) (bytes elapsed : Z).

#[export] Instance recordingMonitor : TopologyMonitor (list MonitorCall) := {
  Edge := Z * Z;
  findReverseEdgeByAgentIpAndPort := fun _ k => Some k;
  findEdgeToHostByAgentIpAndPort := fun _ _ => None;
  findEdgeByAgentIpAndPort := fun _ k => Some k;
  getAgentKeyFromTheOtherSide := fun _ k => if bool_decide (k.2 = 9) then None else Some k;
  touchEdgeFlow := fun e k t => t ++ [Touched e k];
  updateLinkInfo := fun k i o s t => t ++ [LinkInfo k i o s];
  updateLinkInfoLeftLinkBandwidth := fun k b e t => t ++ [LinkBytes k b e]
}.

Definition emptyCollector : Collector (list MonitorCall) := {|
  m_flowInfoTable := ∅; m_counterReports := ∅; m_egressCounterReports := ∅; m_allPathMap := ∅;
  m_ifIndexToOfportMap := {[5 := 1; 2 := 3]}; m_identityPortMapping := false;
  m_malformedDatagrams := 0; addresedSampleNum := 0; monitor := []; clockReads := 0 |}.

Definition sampleClock : nat -> Z := fun n => 1000 + Z.of_nat n.

(** The same packet as a UDP datagram on the same addresses. *)
Definition sampleUdp : SampledPacket :=
  Build_SampledPacket 104 10 3 400 4000 0 5 2 96 542 4 66 0 0 0 0x4500 528 78 0 64 17 0
    0x0A000001 0x0A000002 5000 53 0 0 0 0 0.

(** A later fragment of it. *)
Definition sampleFragment : SampledPacket :=
  Build_SampledPacket 104 11 3 400 4400 0 5 2 96 542 4 66 0 0 0 0x4500 528 78 185 64 17 0
    0x0A000001 0x0A000002 5000 53 0 0 0 0 0.

Lemma wf_sampleUdp : plainPacket sampleUdp.
Proof.
  split; [|split; [reflexivity|reflexivity]]. unfold wf_packet, fits. cbn. rewrite !Forall_cons. split_and!; try done; lia.
Qed.

Lemma wf_sampleFragment : wf_packet sampleFragment.
Proof. unfold wf_packet, fits. cbn. rewrite !Forall_cons. split_and!; try done; lia. Qed.

Definition udpKey : FlowKey := flowKeyOf (sampleOf sampleUdp).

Lemma flow_sample_accounted_witness :
  isTracked 17 = true /\
  exists c', applyFlowSample sampleClock sampleClock MININET 7 (sampleOf sampleUdp) emptyCollector = Some c' /\
    flowBytes (m_flowInfoTable c') udpKey (Build_AgentKey 7 1) = 542 /\ sampledByteCreditFor 7 1 c' = 216800.
Proof.
  split; [reflexivity|].
  destruct (flow_sample_accounted sampleClock sampleClock MININET 7 (sampleOf sampleUdp) emptyCollector
              eq_refl eq_refl) as (c' & Hc' & Hb & Hcr).
  exists c'. split; [exact Hc'|]. rewrite (proj1 (Hb udpKey (Build_AgentKey 7 1))), (Hcr 7 1).
  split; vm_compute; reflexivity.
Defined.


(** A datagram whose first sample is a later fragment: the complete second sample is lost too. *)
Lemma fragment_hides_rest_witness :
  m_flowInfoTable (sampleLoop sampleClock sampleClock TESTBED
    (bswap32 <$> [5; 1; 7; 0; 1; 0; 2] ++ concat (encodeSample <$> [sampleFragment; sampleUdp])) 7 2 7 0 emptyCollector).1 = ∅.
Proof.
  rewrite (fragment_hides_rest sampleClock sampleClock 7 sampleFragment [sampleUdp] [5; 1; 7; 0; 1; 0; 2] 0 emptyCollector
             wf_sampleFragment); [reflexivity|reflexivity|vm_compute; discriminate|vm_compute; reflexivity].
Defined.

Lemma sample_loop_bounded_witness :
  sampleLoop sampleClock sampleClock MININET (repeat 0 20) 7 1000 7 0 emptyCollector =
  sampleLoop sampleClock sampleClock MININET (repeat 0 20) 7 20 7 0 emptyCollector.
Proof.
  apply (sample_loop_bounded sampleClock sampleClock (repeat 0 20) 7 MININET 1000).
  cbn [repeat length]. lia.
Defined.

Lemma counter_reports_initialised_witness :
  reports_ok emptyCollector /\
  reports_ok (handlePacket sampleClock sampleClock TESTBED (wire (encodeDatagram 7 1 [sampleUdp])) emptyCollector).
Proof.
  assert (reports_ok emptyCollector) as H by (apply map_Forall_empty).
  split; [exact H|]. exact (counter_reports_initialised sampleClock sampleClock TESTBED _ emptyCollector H).
Defined.

Lemma counter_bandwidth_witness :
  (reportCounter 3500 (Build_CounterSample 88 1 1000000000 5000000 900000000)
     (Build_CounterInfo 1000 (Some 1000000) (Some 0) 0 0)).2 = Some (984000000, 0).
Proof.
  rewrite (counter_bandwidth 3500 (Build_CounterSample 88 1 1000000000 5000000 900000000)
    (Build_CounterInfo 1000 (Some 1000000) (Some 0) 0 0) 1000000 0 eq_refl eq_refl); [reflexivity|cbn; lia..].
Defined.
