(* ===== verification/IngestPool.v ===== *)
(** The sFlow receive thread and its worker pool (SPSCQueue, start, stop, stopAndJoinWorkers, run and
    workerLoop of src/ndt_core/collection/FlowLinkUsageCollector.cpp).

    The pool is a concurrent component: the receive thread, one thread per queue, and the thread that
    calls stop.  Each is a program counter, and [exec] performs one step of one of them; a step is a
    critical section, one atomic access, or one call that blocks.  Waiting on a condition variable is
    split the way the standard library splits it: the predicate is evaluated with the mutex held, then
    the thread goes to sleep, then a notification (or nothing at all: a spurious wake-up) sends it
    back to the predicate.  What the operating system answers (poll, recvmmsg) and whether a call of
    handlePacket throws are part of the event.  The labels are what the outside sees: datagrams
    accepted by a queue, datagrams dropped, and calls of handlePacket. *)

From S2P Require Import Prelude.
Local Open Scope list_scope.
Local Open Scope Z_scope.

Definition BUFFER_SIZE : Z := 65535.
Definition BATCH_SIZE : nat := 32.

(** A received datagram: the bytes [len] says are valid. *)
Definition Packet : Type := list Z.

(** One entry of a recvmmsg batch: its bytes and the overflow counts of its control messages. *)
Record Message := { msg_bytes : list Z; msg_ovfl : list Z }.

(** * The queue *)

Record SPSCQueue := { m_capacity : nat; m_q : list Packet }.

Definition newSPSCQueue (capacity : nat) : SPSCQueue := {| m_capacity := capacity; m_q := [] |}.

(** The critical section of [tryPush], after [running] has been seen true. *)
Definition pushLocked (item : Packet) (q : SPSCQueue) : option SPSCQueue :=
  if bool_decide (m_capacity q <= length (m_q q))%nat then None
  else Some {| m_capacity := m_capacity q; m_q := m_q q ++ [item] |}.

(** The wait predicate of [pop], and what it takes. *)
Definition popReady (running : bool) (q : SPSCQueue) : bool := negb (bool_decide (m_q q = [])) || negb running.

Definition popLocked (q : SPSCQueue) : option (Packet * SPSCQueue) :=
  match m_q q with [] => None | x :: l => Some (x, {| m_capacity := m_capacity q; m_q := l |}) end.

(** * Threads *)

(** stopAndJoinWorkers, run by the thread that calls stop and by the receive thread at its end. *)
Inductive StopPhase :=
  | SIdle | SStore | SNotify (i : nat) | SJoin (i : nat) | SJoining (i : nat) | SClear | SFinished.

Inductive RxPhase :=
  | RxLoop | RxPoll | RxRecv
  | RxBatch (msgs : list Message)
  | RxPush (pkt : Packet) (qid : nat) (rest : list Message)
  | RxLock (pkt : Packet) (qid : nat) (rest : list Message)
  | RxNotify (qid : nat) (rest : list Message)
  | RxRefused (pkt : Packet) (rest : list Message)
  | RxStop (ph : StopPhase).

(** [drain] tells the second loop of workerLoop from the first. *)
Inductive WorkerPhase :=
  | WTop
  | WWait (drain : bool)
  | WBlocking (drain : bool)
  | WBlocked (drain : bool)
  | WHandle (drain : bool) (pkt : Packet)
  | WExited.

#[export] Instance WorkerPhase_eq_dec : EqDecision WorkerPhase.
Proof. solve_decision. Defined.

Record Pool := {
  m_running : bool;
  m_queues : list SPSCQueue;
  m_workers : list bool;            (* the std::thread objects: is each joinable? *)
  m_rr : Z;
  receivedPacketNumFromSocket : Z;
  droppedPackets : Z;
  m_sockOvflDrops : Z;
  m_sockOpen : bool;
  receiver : RxPhase;
  threads : list WorkerPhase;       (* the threads themselves *)
  stopper : StopPhase
}.

Definition set_running (b : bool) (p : Pool) : Pool := {|
  m_running := b; m_queues := m_queues p; m_workers := m_workers p; m_rr := m_rr p;
  receivedPacketNumFromSocket := receivedPacketNumFromSocket p; droppedPackets := droppedPackets p;
  m_sockOvflDrops := m_sockOvflDrops p; m_sockOpen := m_sockOpen p; receiver := receiver p; threads := threads p; stopper := stopper p |}.
Definition set_queue (i : nat) (q : SPSCQueue) (p : Pool) : Pool := {|
  m_running := m_running p; m_queues := <[i := q]> (m_queues p); m_workers := m_workers p; m_rr := m_rr p;
  receivedPacketNumFromSocket := receivedPacketNumFromSocket p; droppedPackets := droppedPackets p;
  m_sockOvflDrops := m_sockOvflDrops p; m_sockOpen := m_sockOpen p; receiver := receiver p; threads := threads p; stopper := stopper p |}.
Definition set_workers (ws : list bool) (p : Pool) : Pool := {|
  m_running := m_running p; m_queues := m_queues p; m_workers := ws; m_rr := m_rr p;
  receivedPacketNumFromSocket := receivedPacketNumFromSocket p; droppedPackets := droppedPackets p;
  m_sockOvflDrops := m_sockOvflDrops p; m_sockOpen := m_sockOpen p; receiver := receiver p; threads := threads p; stopper := stopper p |}.
Definition set_rxCounts (rr received dropped ovfl : Z) (p : Pool) : Pool := {|
  m_running := m_running p; m_queues := m_queues p; m_workers := m_workers p; m_rr := rr;
  receivedPacketNumFromSocket := received; droppedPackets := dropped;
  m_sockOvflDrops := ovfl; m_sockOpen := m_sockOpen p; receiver := receiver p; threads := threads p; stopper := stopper p |}.
Definition set_sock (b : bool) (p : Pool) : Pool := {|
  m_running := m_running p; m_queues := m_queues p; m_workers := m_workers p; m_rr := m_rr p;
  receivedPacketNumFromSocket := receivedPacketNumFromSocket p; droppedPackets := droppedPackets p;
  m_sockOvflDrops := m_sockOvflDrops p; m_sockOpen := b; receiver := receiver p; threads := threads p; stopper := stopper p |}.
Definition set_receiver (r : RxPhase) (p : Pool) : Pool := {|
  m_running := m_running p; m_queues := m_queues p; m_workers := m_workers p; m_rr := m_rr p;
  receivedPacketNumFromSocket := receivedPacketNumFromSocket p; droppedPackets := droppedPackets p;
  m_sockOvflDrops := m_sockOvflDrops p; m_sockOpen := m_sockOpen p; receiver := r; threads := threads p; stopper := stopper p |}.
Definition set_worker (i : nat) (w : WorkerPhase) (p : Pool) : Pool := {|
  m_running := m_running p; m_queues := m_queues p; m_workers := m_workers p; m_rr := m_rr p;
  receivedPacketNumFromSocket := receivedPacketNumFromSocket p; droppedPackets := droppedPackets p;
  m_sockOvflDrops := m_sockOvflDrops p; m_sockOpen := m_sockOpen p; receiver := receiver p; threads := <[i := w]> (threads p); stopper := stopper p |}.
Definition set_stopper (s : StopPhase) (p : Pool) : Pool := {|
  m_running := m_running p; m_queues := m_queues p; m_workers := m_workers p; m_rr := m_rr p;
  receivedPacketNumFromSocket := receivedPacketNumFromSocket p; droppedPackets := droppedPackets p;
  m_sockOvflDrops := m_sockOvflDrops p; m_sockOpen := m_sockOpen p; receiver := receiver p; threads := threads p; stopper := s |}.

(** * The receive thread *)

(** start stores [m_running] and run creates the queues and the workers before its loop. *)
Definition startPool (numWorkers queueCapacity : nat) : Pool :=
  let n := if bool_decide (numWorkers = 0)%nat then 1%nat else numWorkers in
  let cap := if bool_decide (queueCapacity = 0)%nat then 1024%nat else queueCapacity in
  {| m_running := true; m_queues := replicate n (newSPSCQueue cap); m_workers := replicate n true; m_rr := 0;
     receivedPacketNumFromSocket := 0; droppedPackets := 0; m_sockOvflDrops := 0; m_sockOpen := true;
     receiver := RxLoop; threads := replicate n WTop; stopper := SIdle |}.

(** What poll and recvmmsg answer. *)
Inductive PollAnswer := PollInterrupted | PollFailed | PollTimeout | PollReadable.
Inductive RecvAnswer := RecvAgain | RecvFailed | Received (msgs : list Message).

Definition packetOf (m : Message) : Packet :=
  take (Z.to_nat (u16 (Z.min (Z.of_nat (length (msg_bytes m))) BUFFER_SIZE))) (msg_bytes m).

(** The control messages of one datagram: the overflow count only grows. *)
Definition noteOverflow (cur v : Z) : Z := if bool_decide (u32 cur < v) then v else cur.

(** One datagram of the batch, up to the call of [tryPush]. *)
Definition takeMessage (m : Message) (rest : list Message) (p : Pool) : Pool :=
  if bool_decide (msg_bytes m = []) then set_receiver (RxBatch rest) p
  else
    let rr := m_rr p in
    set_receiver (RxPush (packetOf m) (Z.to_nat (rr mod Z.of_nat (length (m_queues p)))) rest)
      (set_rxCounts (u32 (rr + 1)) (u64 (receivedPacketNumFromSocket p + 1)) (droppedPackets p)
         (foldl noteOverflow (m_sockOvflDrops p) (msg_ovfl m)) p).

Definition countDropped (p : Pool) : Pool :=
  set_rxCounts (m_rr p) (receivedPacketNumFromSocket p) (u64 (droppedPackets p + 1)) (m_sockOvflDrops p) p.

(** A notification reaches a worker that sleeps on its queue, and no other. *)
Definition wake (i : nat) (p : Pool) : Pool :=
  match threads p !! i with
  | Some (WBlocked drain) => set_worker i (WWait drain) p
  | _ => p
  end.

(** The mutex of queue [i]: its worker holds it from the predicate to the moment it sleeps. *)
Definition mutexFree (i : nat) (p : Pool) : bool :=
  match threads p !! i with Some (WBlocking _) => false | _ => true end.

Inductive PoolLabel :=
  | Tau
  | Accepted (qid : nat) (pkt : Packet)
  | DroppedBusy (pkt : Packet)
  | DroppedStopping (pkt : Packet)
  | Handled (qid : nat) (pkt : Packet)
  | Terminated.

#[export] Instance Label_eq_dec : EqDecision PoolLabel.
Proof. solve_decision. Defined.

Definition exited (w : option WorkerPhase) : bool := match w with Some WExited => true | _ => false end.

(** One step of stopAndJoinWorkers.  [Terminated]: join on a thread object that another thread has
    joined in the meantime, or destroying the objects while another thread joins them. *)
Definition stopStep (ph : StopPhase) (p : Pool) : option (PoolLabel * StopPhase * Pool) :=
  match ph with
  | SIdle | SFinished => None
  | SStore => Some (Tau, SNotify 0, set_running false p)
  | SNotify i =>
      if bool_decide (i < length (m_queues p))%nat then Some (Tau, SNotify (S i), wake i p)
      else Some (Tau, SJoin 0, p)
  | SJoin i =>
      match m_workers p !! i with
      | None => Some (Tau, SClear, p)
      | Some true => Some (Tau, SJoining i, p)
      | Some false => Some (Tau, SJoin (S i), p)
      end
  | SJoining i =>
      match m_workers p !! i with
      | Some true =>
          if exited (threads p !! i) then Some (Tau, SJoin (S i), set_workers (<[i := false]> (m_workers p)) p) else None
      | _ => Some (Terminated, SJoining i, p)
      end
  | SClear =>
      if bool_decide (true ∈ m_workers p) then Some (Terminated, SClear, p)
      else Some (Tau, SFinished, set_workers [] p)
  end.

Definition recvStep (poll : PollAnswer) (recv : RecvAnswer) (p : Pool) : option (PoolLabel * Pool) :=
  match receiver p with
  | RxLoop => Some (Tau, set_receiver (if m_running p then RxPoll else RxStop SStore) p)
  | RxPoll =>
      Some (Tau, set_receiver (match poll with
                               | PollInterrupted | PollTimeout => RxLoop
                               | PollFailed => RxStop SStore
                               | PollReadable => RxRecv
                               end) p)
  | RxRecv =>
      match recv with
      | RecvAgain => Some (Tau, set_receiver RxLoop p)
      | RecvFailed => Some (Tau, set_receiver (RxStop SStore) p)
      | Received msgs =>
          if bool_decide (length msgs <= BATCH_SIZE)%nat then Some (Tau, set_receiver (RxBatch msgs) p) else None
      end
  | RxBatch [] => Some (Tau, set_receiver RxLoop p)
  | RxBatch (m :: rest) => Some (Tau, takeMessage m rest p)
  | RxPush pkt qid rest => Some (Tau, set_receiver (if m_running p then RxLock pkt qid rest else RxRefused pkt rest) p)
  | RxLock pkt qid rest =>
      if mutexFree qid p then
        match m_queues p !! qid with
        | None => None
        | Some q =>
            match pushLocked pkt q with
            | Some q' => Some (Accepted qid pkt, set_receiver (RxNotify qid rest) (set_queue qid q' p))
            | None => Some (Tau, set_receiver (RxRefused pkt rest) p)
            end
        end
      else None
  | RxNotify qid rest => Some (Tau, set_receiver (RxBatch rest) (wake qid p))
  | RxRefused pkt rest =>
      if m_running p then Some (DroppedBusy pkt, set_receiver (RxBatch rest) (countDropped p))
      else Some (DroppedStopping pkt, set_receiver RxLoop p)
  | RxStop SFinished => if m_sockOpen p then Some (Tau, set_sock false p) else None
  | RxStop ph =>
      match stopStep ph p with
      | Some (l, ph', p') => Some (l, set_receiver (RxStop ph') p')
      | None => None
      end
  end.

(** * The workers *)

(** One step of workerLoop for queue [i]; [throws]: handlePacket throws.  The first loop catches that,
    the second one does not. *)
Definition workerStep (throws : bool) (i : nat) (p : Pool) : option (PoolLabel * Pool) :=
  match threads p !! i, m_queues p !! i with
  | Some w, Some q =>
      match w with
      | WTop => Some (Tau, set_worker i (WWait (negb (m_running p))) p)
      | WWait drain =>
          if popReady (m_running p) q then
            match popLocked q with
            | None => Some (Tau, set_worker i (if drain then WExited else WWait true) p)
            | Some (pkt, q') => Some (Tau, set_worker i (WHandle drain pkt) (set_queue i q' p))
            end
          else Some (Tau, set_worker i (WBlocking drain) p)
      | WBlocking drain => Some (Tau, set_worker i (WBlocked drain) p)
      | WBlocked _ => None
      | WHandle false pkt => Some (Handled i pkt, set_worker i WTop p)
      | WHandle true pkt =>
          if throws then Some (Terminated, p) else Some (Handled i pkt, set_worker i (WWait true) p)
      | WExited => None
      end
  | _, _ => None
  end.

(** * The whole pool *)

Inductive PoolEvent :=
  | Receive (poll : PollAnswer) (recv : RecvAnswer)
  | Work (i : nat) (throws : bool)
  | Spurious (i : nat)
  | CallStop
  | Stop.

(** One step of one thread; [CallStop] is the entry of stop (store false, close the socket). *)
Definition exec (e : PoolEvent) (p : Pool) : option (PoolLabel * Pool) :=
  match e with
  | Receive poll recv => recvStep poll recv p
  | Work i throws => workerStep throws i p
  | Spurious i => match threads p !! i with Some (WBlocked _) => Some (Tau, wake i p) | _ => None end
  | CallStop =>
      match stopper p with
      | SIdle => Some (Tau, set_stopper SStore (set_sock false (set_running false p)))
      | _ => None
      end
  | Stop =>
      match stopStep (stopper p) p with
      | Some (l, ph, p') => Some (l, set_stopper ph p')
      | None => None
      end
  end.

(** The life of a pool; [std::terminate] ends it. *)
Inductive pool_runs (numWorkers queueCapacity : nat) : list PoolLabel -> Pool -> Prop :=
  | runs_start : pool_runs numWorkers queueCapacity [] (startPool numWorkers queueCapacity)
  | runs_step tr p e l p' :
      pool_runs numWorkers queueCapacity tr p -> Terminated ∉ tr -> exec e p = Some (l, p') ->
      pool_runs numWorkers queueCapacity (tr ++ [l]) p'.

(** Executes a list of events. *)
Fixpoint execs (es : list PoolEvent) (p : Pool) : option (list PoolLabel * Pool) :=
  match es with
  | [] => Some ([], p)
  | e :: es => '(l, p') ← exec e p; '(ls, p'') ← execs es p'; Some (l :: ls, p'')
  end.
