(* ===== verification/IngestPoolProps.v ===== *)
(** Properties of the sFlow worker pool: every datagram taken from the socket is accounted for, each
    queue is handled in order, and what stopping the pool does and does not guarantee. *)

From S2P Require Import Prelude IngestPool.
Local Open Scope list_scope.
Local Open Scope Z_scope.

(** * What happened to the datagrams *)

Definition acceptedAt (i : nat) (tr : list PoolLabel) : list Packet :=
  omap (fun l => match l with Accepted qid pkt => if decide (qid = i) then Some pkt else None | _ => None end) tr.
Definition handledAt (i : nat) (tr : list PoolLabel) : list Packet :=
  omap (fun l => match l with Handled qid pkt => if decide (qid = i) then Some pkt else None | _ => None end) tr.

Definition accepts (l : PoolLabel) : bool := match l with Accepted _ _ => true | _ => false end.
Definition dropsBusy (l : PoolLabel) : bool := match l with DroppedBusy _ => true | _ => false end.
Definition dropsStopping (l : PoolLabel) : bool := match l with DroppedStopping _ => true | _ => false end.
Definition count (f : PoolLabel -> bool) (tr : list PoolLabel) : Z := Z.of_nat (length (filter (fun l => f l = true) tr)).

Definition handOf (w : WorkerPhase) : list Packet := match w with WHandle _ pkt => [pkt] | _ => [] end.

(** The datagram a worker has taken and not handed over yet, and those in its queue. *)
Definition inHand (i : nat) (p : Pool) : list Packet := default [] (handOf <$> threads p !! i).
Definition queued (i : nat) (p : Pool) : list Packet := default [] (m_q <$> m_queues p !! i).

(** The datagram the receive thread has counted and not passed on or dropped yet. *)
Definition rxHolds (r : RxPhase) : bool := match r with RxPush _ _ _ | RxLock _ _ _ | RxRefused _ _ => true | _ => false end.
Definition taken (tr : list PoolLabel) (p : Pool) : Z :=
  count accepts tr + count dropsBusy tr + count dropsStopping tr + Z.b2z (rxHolds (receiver p)).

(** * Case analysis on a step *)

Lemma acceptedAt_snoc i tr l : acceptedAt i (tr ++ [l]) = acceptedAt i tr ++ acceptedAt i [l].
Proof. apply omap_app. Qed.
Lemma handledAt_snoc i tr l : handledAt i (tr ++ [l]) = handledAt i tr ++ handledAt i [l].
Proof. apply omap_app. Qed.
Lemma count_snoc f tr l : count f (tr ++ [l]) = count f tr + Z.b2z (f l).
Proof. unfold count. rewrite filter_app, length_app, Nat2Z.inj_add. by destruct (f l) eqn:E; rewrite filter_cons, E. Qed.

Lemma inHand_set_thread i j w p :
  (j < length (threads p))%nat -> inHand i (set_worker j w p) = if decide (i = j) then handOf w else inHand i p.
Proof.
  intros Hj. unfold inHand, set_worker. cbn. case_decide; subst.
  - by rewrite list_lookup_insert_eq.
  - by rewrite list_lookup_insert_ne.
Qed.
Lemma queued_set_queue i j q p :
  (j < length (m_queues p))%nat -> queued i (set_queue j q p) = if decide (i = j) then m_q q else queued i p.
Proof.
  intros Hj. unfold queued, set_queue. cbn. case_decide; subst.
  - by rewrite list_lookup_insert_eq.
  - by rewrite list_lookup_insert_ne.
Qed.

Lemma inHand_wake i j p : inHand i (wake j p) = inHand i p.
Proof.
  unfold wake. destruct (threads p !! j) as [[]|] eqn:E; try done.
  rewrite inHand_set_thread by (by eapply lookup_lt_Some). case_decide; [subst|done]. unfold inHand. by rewrite E.
Qed.
Lemma queued_wake i j p : queued i (wake j p) = queued i p.
Proof. unfold wake. by destruct (threads p !! j) as [[]|]. Qed.

(** A step of stopAndJoinWorkers touches neither datagrams nor queues. *)
Definition same_data (p p' : Pool) : Prop :=
  (forall i, inHand i p' = inHand i p) /\ m_queues p' = m_queues p /\ m_rr p' = m_rr p /\
  receivedPacketNumFromSocket p' = receivedPacketNumFromSocket p /\ droppedPackets p' = droppedPackets p /\
  receiver p' = receiver p /\ length (threads p') = length (threads p) /\ (m_running p = false -> m_running p' = false).

Lemma wake_same_data j p : same_data p (wake j p).
Proof.
  split; [intros; apply inHand_wake|]. unfold wake.
  destruct (threads p !! j) as [[]|]; try done. cbn. by rewrite length_insert.
Qed.

Lemma stopStep_same_data ph p l ph' p' :
  stopStep ph p = Some (l, ph', p') -> same_data p p' /\ (l = Tau \/ l = Terminated).
Proof.
  unfold stopStep. intros H. destruct ph; repeat case_match; simplify_eq; (split; [|auto]); (done || apply wake_same_data).
Qed.

(** * The accounting invariant *)

(** The phases of the receive thread after which it takes no more datagrams once [m_running] is false. *)
Definition rxLeaving (r : RxPhase) : bool := match r with RxLoop | RxStop _ => true | _ => false end.

Record accounted (cap : nat) (tr : list PoolLabel) (p : Pool) : Prop := {
  acc_fifo i : acceptedAt i tr = handledAt i tr ++ inHand i p ++ queued i p;
  acc_threads : length (threads p) = length (m_queues p);
  acc_received : receivedPacketNumFromSocket p = u64 (taken tr p);
  acc_rr : m_rr p = u32 (taken tr p);
  acc_dropped : droppedPackets p = u64 (count dropsBusy tr);
  acc_stopping : count dropsStopping tr = 0 \/ (count dropsStopping tr = 1 /\ m_running p = false /\ rxLeaving (receiver p) = true);
  acc_capacity : Forall (fun q => m_capacity q = cap /\ length (m_q q) <= cap)%nat (m_queues p)
}.

Lemma u64_succ x : u64 (u64 x + 1) = u64 (x + 1).
Proof. apply Zplus_mod_idemp_l. Qed.
Lemma u32_succ x : u32 (u32 x + 1) = u32 (x + 1).
Proof. apply Zplus_mod_idemp_l. Qed.

(** A step that moves no datagram keeps the accounts, when the receive thread holds as many as before. *)
Lemma accounted_quiet cap tr p l p' :
  accounted cap tr p -> (l = Tau \/ l = Terminated) ->
  (forall i, inHand i p' = inHand i p) -> m_queues p' = m_queues p -> m_rr p' = m_rr p ->
  receivedPacketNumFromSocket p' = receivedPacketNumFromSocket p -> droppedPackets p' = droppedPackets p ->
  length (threads p') = length (threads p) -> rxHolds (receiver p') = rxHolds (receiver p) ->
  (m_running p = false -> m_running p' = false) ->
  (m_running p = false -> rxLeaving (receiver p) = true -> rxLeaving (receiver p') = true) ->
  accounted cap (tr ++ [l]) p'.
Proof.
  intros [Hf Ht Hr Hrr Hd Hs Hc] Hl H1 H2 H3 H4 H5 H6 H7 H8 H9.
  assert (forall f, f l = false -> count f (tr ++ [l]) = count f tr) as Hcount.
  { intros f Hfl. by rewrite count_snoc, Hfl, Z.add_0_r. }
  assert (taken (tr ++ [l]) p' = taken tr p) as Htk.
  { unfold taken. rewrite H7. destruct Hl as [-> | ->]; by rewrite !Hcount. }
  split; rewrite ?H2, ?H3, ?H4, ?H5, ?H6, ?Htk; try done.
  - intros i. rewrite acceptedAt_snoc, handledAt_snoc, H1. unfold queued. rewrite H2. fold (queued i p). rewrite Hf.
    destruct Hl as [-> | ->]; cbn; by rewrite !app_nil_r.
  - destruct Hl as [-> | ->]; by rewrite Hcount.
  - rewrite Hcount by (by destruct Hl as [-> | ->]). naive_solver.
Qed.

Lemma accounted_same_data cap tr p l p' :
  accounted cap tr p -> (l = Tau \/ l = Terminated) -> same_data p p' -> accounted cap (tr ++ [l]) p'.
Proof.
  intros Ha Hl (H1 & H2 & H3 & H4 & H5 & H6 & H7 & H8). eapply accounted_quiet; eauto; by rewrite H6.
Qed.

(** A step of worker [i], whose label the receive thread's accounts do not count. *)
Lemma accounted_worker cap tr p i l w q' :
  accounted cap tr p -> accepts l = false -> dropsBusy l = false -> dropsStopping l = false ->
  (i < length (threads p))%nat -> (i < length (m_queues p))%nat ->
  (m_capacity q' = cap /\ length (m_q q') <= cap)%nat ->
  (forall j, acceptedAt j [l] = []) -> (forall j, j <> i -> handledAt j [l] = []) ->
  inHand i p ++ queued i p = handledAt i [l] ++ handOf w ++ m_q q' ->
  accounted cap (tr ++ [l]) (set_worker i w (set_queue i q' p)).
Proof.
  intros [Hf Ht Hr Hrr Hd Hs Hc] Ea Eb Es Hi Hq Hq' Hacc Hnone Hsplit.
  assert (taken (tr ++ [l]) p = taken tr p) as Htk by (unfold taken; by rewrite !count_snoc, Ea, Eb, Es, !Z.add_0_r).
  split; try (cbn; rewrite ?length_insert, ?count_snoc, ?Eb, ?Es, ?Z.add_0_r; done).
  - intros j. rewrite acceptedAt_snoc, handledAt_snoc, inHand_set_thread, Hacc, app_nil_r, Hf by done.
    change (queued j (set_worker i w (set_queue i q' p))) with (queued j (set_queue i q' p)).
    rewrite queued_set_queue by done. case_decide; [subst j|by rewrite Hnone, app_nil_r].
    by rewrite Hsplit, app_assoc.
  - change (receivedPacketNumFromSocket p = u64 (taken (tr ++ [l]) p)). by rewrite Htk.
  - change (m_rr p = u32 (taken (tr ++ [l]) p)). by rewrite Htk.
  - cbn. by apply Forall_insert.
Qed.

Lemma set_queue_same i q p : m_queues p !! i = Some q -> set_queue i q p = p.
Proof. intros H. unfold set_queue. rewrite list_insert_id by done. by destruct p. Qed.

Lemma work_accounted cap tr p throws i l p' :
  accounted cap tr p -> workerStep throws i p = Some (l, p') -> accounted cap (tr ++ [l]) p'.
Proof.
  intros Ha. unfold workerStep.
  destruct (threads p !! i) as [w|] eqn:Ew; [|done]. destruct (m_queues p !! i) as [q|] eqn:Eq; [|done].
  pose proof (lookup_lt_Some _ _ _ Ew) as Hi. pose proof (lookup_lt_Some _ _ _ Eq) as Hq.
  assert (inHand i p = handOf w) as Hh by (unfold inHand; by rewrite Ew).
  assert (queued i p = m_q q) as Hm by (unfold queued; by rewrite Eq).
  pose proof (Forall_lookup_1 _ _ _ _ (acc_capacity _ _ _ Ha) Eq) as Hc. cbn in Hc.
  assert (forall w', handOf w' = handOf w -> accounted cap (tr ++ [Tau]) (set_worker i w' p)) as Hquiet.
  { intros w' Hw'. rewrite <- (set_queue_same i q p) by done.
    apply accounted_worker; auto. by rewrite Hh, Hm, Hw'. }
  assert (forall pkt w', handOf w = [pkt] -> handOf w' = [] -> accounted cap (tr ++ [Handled i pkt]) (set_worker i w' p)) as Hdone.
  { intros pkt w' E1 E2. rewrite <- (set_queue_same i q p) by done. apply accounted_worker; auto; cbn.
    - intros j Hj. by rewrite decide_False.
    - by rewrite Hh, Hm, E1, E2, decide_True. }
  intros H. destruct w as [|drain|drain|drain|drain pkt|]; cbn in Hh; try done; simplify_eq; try by apply Hquiet.
  - destruct (popReady (m_running p) q); [|simplify_eq; by apply Hquiet].
    unfold popLocked in H. destruct (m_q q) as [|pkt rest] eqn:Emq; simplify_eq; [apply Hquiet; by destruct drain|].
    apply accounted_worker; auto; cbn; [cbn in Hc; lia|]. by rewrite Hh, Hm.
  - destruct drain; [destruct throws|]; simplify_eq; [|by apply Hdone..].
    apply (accounted_quiet cap tr p'); auto.
Qed.

(** The receive thread hands its datagram to queue [qid], or gives it up. *)
Lemma accounted_push cap tr p pkt qid rest q q' :
  accounted cap tr p -> receiver p = RxLock pkt qid rest -> m_queues p !! qid = Some q -> pushLocked pkt q = Some q' ->
  accounted cap (tr ++ [Accepted qid pkt]) (set_receiver (RxNotify qid rest) (set_queue qid q' p)).
Proof.
  intros [Hf Ht Hr Hrr Hd Hs Hc] Er Eq Hpush. pose proof (lookup_lt_Some _ _ _ Eq) as Hq.
  unfold pushLocked in Hpush. case_bool_decide as Hlen; simplify_eq.
  assert (taken (tr ++ [Accepted qid pkt]) (set_receiver (RxNotify qid rest) p) = taken tr p) as Htk.
  { unfold taken. rewrite Er, !count_snoc. cbn. lia. }
  rewrite Er in Hs. destruct Hs as [Hs|(_ & _ & [=])].
  split; try (cbn; rewrite ?length_insert, ?count_snoc, ?Z.add_0_r; auto; done).
  - intros i. rewrite acceptedAt_snoc, handledAt_snoc. cbn [acceptedAt handledAt omap]. rewrite app_nil_r, Hf.
    change (inHand i (set_receiver _ _)) with (inHand i p).
    change (queued i (set_receiver (RxNotify qid rest) ?x)) with (queued i x). rewrite queued_set_queue by done. cbn.
    destruct (decide (qid = i)) as [-> |Hne]; [rewrite decide_True by done|rewrite decide_False by done; by rewrite app_nil_r].
    unfold queued. rewrite Eq. cbn. by rewrite <- !app_assoc.
  - rewrite <- Htk in Hr. exact Hr.
  - rewrite <- Htk in Hrr. exact Hrr.
  - cbn. apply Forall_insert; [done|]. cbn. rewrite length_app. cbn. eapply Forall_lookup_1 in Eq; [|done]. cbn in Eq. lia.
Qed.

Lemma accounted_refuse cap tr p pkt rest l r d :
  accounted cap tr p -> receiver p = RxRefused pkt rest -> rxHolds r = false ->
  l = DroppedBusy pkt /\ d = u64 (droppedPackets p + 1) \/
  l = DroppedStopping pkt /\ d = droppedPackets p /\ m_running p = false /\ rxLeaving r = true ->
  accounted cap (tr ++ [l]) (set_receiver r (set_rxCounts (m_rr p) (receivedPacketNumFromSocket p) d (m_sockOvflDrops p) p)).
Proof.
  intros [Hf Ht Hr Hrr Hd Hs Hc] Er Hh Hl.
  assert (taken (tr ++ [l]) (set_receiver r p) = taken tr p) as Htk.
  { unfold taken. rewrite Er, !count_snoc. cbn. rewrite Hh. destruct Hl as [[-> _] | [-> _]]; cbn; lia. }
  rewrite Er in Hs. destruct Hs as [Hs|(_ & _ & [=])].
  split; try done.
  - intros i. rewrite acceptedAt_snoc, handledAt_snoc. destruct Hl as [[-> _] | [-> _]]; cbn; rewrite !app_nil_r; apply Hf.
  - rewrite <- Htk in Hr. exact Hr.
  - rewrite <- Htk in Hrr. exact Hrr.
  - cbn. rewrite count_snoc. destruct Hl as [[-> ->] | (-> & -> & _)]; cbn; [|by rewrite Z.add_0_r]. rewrite Hd. apply u64_succ.
  - cbn. rewrite count_snoc. destruct Hl as [[-> _] | (-> & _ & Hrun & Hlv)]; cbn; [left; lia|right; split_and!; [lia|done..]].
Qed.

Lemma accounted_take cap tr p m rest :
  accounted cap tr p -> receiver p = RxBatch (m :: rest) -> accounted cap (tr ++ [Tau]) (takeMessage m rest p).
Proof.
  intros Ha Er. unfold takeMessage. case_bool_decide.
  - apply (accounted_quiet cap tr p); auto; cbn; by rewrite Er.
  - destruct Ha as [Hf Ht Hr Hrr Hd Hs Hc]. rewrite Er in Hs. destruct Hs as [Hs|(_ & _ & [=])].
    assert (forall q, taken (tr ++ [Tau]) (set_receiver (RxPush (packetOf m) q rest) p) = taken tr p + 1) as Htk.
    { intros q. unfold taken. rewrite Er, !count_snoc. cbn. lia. }
    split; try (cbn; rewrite ?count_snoc, ?Z.add_0_r; auto; done).
    + intros i. rewrite acceptedAt_snoc, handledAt_snoc. cbn. rewrite !app_nil_r. apply Hf.
    + cbn. rewrite Hr, u64_succ. f_equal. symmetry. apply Htk.
    + cbn. rewrite Hrr, u32_succ. f_equal. symmetry. apply Htk.
Qed.

Lemma recv_accounted cap tr p poll recv l p' :
  accounted cap tr p -> recvStep poll recv p = Some (l, p') -> accounted cap (tr ++ [l]) p'.
Proof.
  intros Ha. unfold recvStep.
  assert (forall r, rxHolds r = rxHolds (receiver p) -> (m_running p = false -> rxLeaving (receiver p) = true -> rxLeaving r = true) ->
            accounted cap (tr ++ [Tau]) (set_receiver r p)) as Hquiet.
  { intros r H1 H2. apply (accounted_quiet cap tr p); auto. }
  intros H. destruct (receiver p) as [| | |[|m rest]|pkt qid rest|pkt qid rest|qid rest|pkt rest|ph] eqn:Er; try (simplify_eq; by apply Hquiet).
  - simplify_eq. apply Hquiet; [by destruct (m_running p)|by intros ->].
  - simplify_eq. apply Hquiet; by destruct poll.
  - destruct recv; [..|case_bool_decide]; simplify_eq; by apply Hquiet.
  - simplify_eq. by apply accounted_take.
  - simplify_eq. apply Hquiet; by destruct (m_running p).
  - destruct (mutexFree qid p); [|done]. destruct (m_queues p !! qid) as [q|] eqn:Eq; [|done].
    destruct (pushLocked pkt q) eqn:Ep; simplify_eq; [by eapply accounted_push|by apply Hquiet].
  - simplify_eq. destruct (wake_same_data qid p) as (H1 & H2 & H3 & H4 & H5 & H6 & H7 & H8).
    apply (accounted_quiet cap tr p); auto; cbn; by rewrite ?Er.
  - destruct (m_running p) eqn:Erun; simplify_eq.
    + eapply accounted_refuse; eauto.
    + assert (set_receiver RxLoop p = set_receiver RxLoop (set_rxCounts (m_rr p) (receivedPacketNumFromSocket p)
                (droppedPackets p) (m_sockOvflDrops p) p)) as -> by done.
      eapply accounted_refuse; eauto.
  - assert (forall x, match stopStep ph p with Some (l, ph', p') => Some (l, set_receiver (RxStop ph') p') | None => None end = Some x ->
              accounted cap (tr ++ [x.1]) x.2) as Hstop.
    { intros x Hx. destruct (stopStep ph p) as [[[l0 ph0] p0]|] eqn:Es; [|done]. simplify_eq.
      apply stopStep_same_data in Es as [(H1 & H2 & H3 & H4 & H5 & H6 & H7 & H8) Hl].
      apply (accounted_quiet cap tr p); auto; cbn; by rewrite Er. }
    destruct ph; try by apply (Hstop (l, p')). destruct (m_sockOpen p); simplify_eq.
    apply (accounted_quiet cap tr p); auto.
Qed.

Lemma exec_accounted cap tr e p l p' :
  accounted cap tr p -> exec e p = Some (l, p') -> accounted cap (tr ++ [l]) p'.
Proof.
  intros Ha H. destruct e as [poll recv|i throws|i| |]; cbn in H.
  - by eapply recv_accounted.
  - by eapply work_accounted.
  - destruct (threads p !! i) as [[]|]; simplify_eq. eapply accounted_same_data; eauto using wake_same_data.
  - destruct (stopper p); simplify_eq. by apply (accounted_quiet cap tr p); auto.
  - destruct (stopStep (stopper p) p) as [[[l0 ph] p0]|] eqn:Es; simplify_eq.
    apply stopStep_same_data in Es as [Hsame Hl]. eapply accounted_same_data; eauto.
Qed.

(** * Stopping *)

(** Worker phases that are only reached after [m_running] was seen false. *)
Definition draining (w : WorkerPhase) : bool :=
  match w with WWait d | WBlocking d | WBlocked d | WHandle d _ => d | WTop => false | WExited => true end.

Definition exitedAt (i : nat) (p : Pool) : bool := exited (threads p !! i).

(** A worker exits with an empty queue, and only the datagram the receive thread was about to push can
    come later. *)
Record settled (p : Pool) : Prop := {
  set_draining i w : threads p !! i = Some w -> draining w = true -> m_running p = false;
  set_left : (forall i, exitedAt i p = true -> queued i p = []) \/
    (exists j pkt, exitedAt j p = true /\ m_running p = false /\ (forall pkt' q rest, receiver p <> RxLock pkt' q rest) /\
       forall i, exitedAt i p = true -> queued i p = if decide (i = j) then [pkt] else [])
}.

(** A step that leaves the queues, adds no exited worker and does not bring the receive thread to its push. *)
Lemma settled_quiet p p' :
  settled p -> m_queues p' = m_queues p -> (forall i, exitedAt i p' = exitedAt i p) ->
  (m_running p = false -> m_running p' = false) ->
  (forall i w, threads p' !! i = Some w -> draining w = true -> m_running p' = false) ->
  (forall pkt q rest, m_running p = false -> receiver p' = RxLock pkt q rest -> receiver p = RxLock pkt q rest) ->
  settled p'.
Proof.
  intros [Hd Hl] Hq He Hr Hw Hlock. split; [done|].
  assert (forall i, queued i p' = queued i p) as Hqq by (intros; unfold queued; by rewrite Hq).
  destruct Hl as [Hl|(j & pkt & H1 & H2 & H3 & H4)]; [left|right; exists j, pkt].
  - intros i. rewrite He, Hqq. apply Hl.
  - split_and!; [by rewrite He|auto| |intros i; rewrite He, Hqq; apply H4].
    intros pkt' q rest E. by apply (H3 pkt' q rest), Hlock.
Qed.

Lemma wake_threads i j p w :
  threads (wake j p) !! i = Some w ->
  exists w0, threads p !! i = Some w0 /\ draining w = draining w0 /\ (w = WExited <-> w0 = WExited).
Proof.
  unfold wake. destruct (threads p !! j) as [[]|] eqn:E; cbn; eauto; [].
  intros H. destruct (decide (i = j)) as [-> |].
  - rewrite list_lookup_insert_eq in H by (by eapply lookup_lt_Some). simplify_eq. eexists. split; [exact E|]. done.
  - rewrite list_lookup_insert_ne in H by done. eauto.
Qed.

Lemma exitedAt_set_thread i j w p :
  (j < length (threads p))%nat -> exitedAt i (set_worker j w p) = if decide (i = j) then exited (Some w) else exitedAt i p.
Proof.
  intros Hj. unfold exitedAt. cbn. case_decide; subst; [by rewrite list_lookup_insert_eq|by rewrite list_lookup_insert_ne].
Qed.

Lemma exitedAt_wake i j p : exitedAt i (wake j p) = exitedAt i p.
Proof.
  unfold wake. destruct (threads p !! j) as [[]|] eqn:E; try done.
  rewrite exitedAt_set_thread by (by eapply lookup_lt_Some). case_decide; [subst|done]. unfold exitedAt. by rewrite E.
Qed.

(** The draining workers are those of a state with the same [m_running]. *)
Ltac still_draining := cbn; intros ? ? ? ?; by eapply set_draining.

Lemma wake_settled j p : settled p -> settled (wake j p).
Proof.
  intros Hs. pose proof (wake_same_data j p) as (_ & Hq & _ & _ & _ & Hrx & _ & Hrun).
  apply (settled_quiet p); auto using exitedAt_wake.
  - intros i w Hw Hdr. apply wake_threads in Hw as (w0 & Hw0 & Hd0 & _). apply Hrun. eapply set_draining; eauto.
  - intros. congruence.
Qed.

Lemma stopStep_settled ph p l ph' p' : settled p -> stopStep ph p = Some (l, ph', p') -> settled p'.
Proof.
  intros Hs H. unfold stopStep in H.
  destruct ph; repeat case_match; simplify_eq; auto using wake_settled; apply (settled_quiet p); auto; still_draining.
Qed.

Lemma set_receiver_settled r p :
  settled p -> (forall pkt q rest, m_running p = false -> r = RxLock pkt q rest -> receiver p = RxLock pkt q rest) ->
  settled (set_receiver r p).
Proof. intros Hs Hr. apply (settled_quiet p); auto. still_draining. Qed.

Lemma push_settled p pkt qid rest q q' :
  settled p -> receiver p = RxLock pkt qid rest -> m_queues p !! qid = Some q -> pushLocked pkt q = Some q' ->
  settled (set_receiver (RxNotify qid rest) (set_queue qid q' p)).
Proof.
  intros [Hd Hl] Er Eq Hpush. pose proof (lookup_lt_Some _ _ _ Eq) as Hq.
  destruct Hl as [Hl|(j & pkt' & _ & _ & Hno & _)]; [|by destruct (Hno pkt qid rest)].
  unfold pushLocked in Hpush. case_bool_decide; simplify_eq. split; [done|].
  assert (forall i, queued i (set_receiver (RxNotify qid rest) (set_queue qid {| m_capacity := m_capacity q; m_q := m_q q ++ [pkt] |} p))
            = if decide (i = qid) then m_q q ++ [pkt] else queued i p) as Hqq by (intros; by apply queued_set_queue).
  destruct (exitedAt qid p) eqn:Ex; [right; exists qid, pkt|left].
  - pose proof (Hl _ Ex) as Hnil. unfold queued in Hnil. rewrite Eq in Hnil. cbn in Hnil. split_and!; [done| |done|].
    + unfold exitedAt in Ex. destruct (threads p !! qid) as [w|] eqn:Ew; [|done]. destruct w; try done. by eapply (Hd qid).
    + intros i Hi. rewrite Hqq. case_decide; [by rewrite Hnil|by apply Hl].
  - intros i Hi. rewrite Hqq. case_decide; [subst; change (exitedAt qid p = true) in Hi; congruence|by apply Hl].
Qed.

Lemma recv_settled poll recv p l p' : settled p -> recvStep poll recv p = Some (l, p') -> settled p'.
Proof.
  intros Hs H. unfold recvStep in H.
  destruct (receiver p) as [| | |[|m rest]|pkt qid rest|pkt qid rest|qid rest|pkt rest|ph] eqn:Er.
  - simplify_eq. apply set_receiver_settled; [done|]. by destruct (m_running p).
  - simplify_eq. apply set_receiver_settled; [done|]. by destruct poll.
  - destruct recv; [..|case_bool_decide]; simplify_eq; by apply set_receiver_settled.
  - simplify_eq. by apply set_receiver_settled.
  - simplify_eq. unfold takeMessage. case_bool_decide; [by apply set_receiver_settled|].
    apply (settled_quiet p); auto; [still_draining|done].
  - simplify_eq. apply set_receiver_settled; [done|]. by intros ??? ->.
  - destruct (mutexFree qid p); [|done]. destruct (m_queues p !! qid) as [q|] eqn:Eq; [|done].
    destruct (pushLocked pkt q) eqn:Ep; simplify_eq; [by eapply push_settled|by apply set_receiver_settled].
  - simplify_eq. apply set_receiver_settled; [by apply wake_settled|done].
  - destruct (m_running p); simplify_eq; [|by apply set_receiver_settled].
    apply (settled_quiet p); auto; [still_draining|done].
  - assert (forall x, match stopStep ph p with Some (l, ph', p') => Some (l, set_receiver (RxStop ph') p') | None => None end = Some x -> settled x.2) as Hstop.
    { intros x Hx. destruct (stopStep ph p) as [[[l0 ph0] p0]|] eqn:Es; [|done]. simplify_eq.
      apply set_receiver_settled; [by eapply stopStep_settled|done]. }
    destruct ph; try by apply (Hstop (l, p')). destruct (m_sockOpen p); simplify_eq.
    apply (settled_quiet p); auto. still_draining.
Qed.

(** Worker [i] moves to a phase that is not the end, and its queue only shrinks. *)
Lemma settled_worker p i w w' q' :
  settled p -> threads p !! i = Some w -> w <> WExited -> (w' = WExited -> m_q q' = []) -> (i < length (m_queues p))%nat ->
  (draining w' = true -> m_running p = false) -> settled (set_worker i w' (set_queue i q' p)).
Proof.
  intros [Hd Hl] Ew Hne Hq' Hq Hdr. pose proof (lookup_lt_Some _ _ _ Ew) as Hi.
  assert (exitedAt i p = false) as Hx by (unfold exitedAt; rewrite Ew; by destruct w).
  assert (forall j, exitedAt j (set_worker i w' (set_queue i q' p)) = true ->
            queued j (set_worker i w' (set_queue i q' p)) = if decide (j = i) then [] else queued j p) as Hqq.
  { intros j. rewrite exitedAt_set_thread by done.
    change (queued j (set_worker i w' (set_queue i q' p))) with (queued j (set_queue i q' p)).
    rewrite queued_set_queue by done. case_decide; [|done]. destruct w'; try done. auto. }
  assert (forall j, j <> i -> exitedAt j (set_worker i w' (set_queue i q' p)) = exitedAt j p) as Hex.
  { intros j Hj. rewrite exitedAt_set_thread by done. by rewrite decide_False. }
  split.
  - intros j v Hv Hdv. cbn in *. destruct (decide (j = i)) as [-> |].
    + rewrite list_lookup_insert_eq in Hv by done. simplify_eq. auto.
    + rewrite list_lookup_insert_ne in Hv by done. eauto.
  - destruct Hl as [Hl|(j & pkt & H1 & H2 & H3 & H4)]; [left|right; exists j, pkt].
    + intros k Hk. rewrite Hqq by done. case_decide; [done|]. rewrite Hex in Hk by done. auto.
    + assert (j <> i) by congruence. split_and!; [by rewrite Hex|done|done|].
      intros k Hk. rewrite Hqq by done. case_decide; [subst; by rewrite decide_False|]. rewrite Hex in Hk by done. auto.
Qed.

Lemma work_settled throws i p l p' : settled p -> workerStep throws i p = Some (l, p') -> settled p'.
Proof.
  intros Hs. unfold workerStep.
  destruct (threads p !! i) as [w|] eqn:Ew; [|done]. destruct (m_queues p !! i) as [q|] eqn:Eq; [|done].
  pose proof (lookup_lt_Some _ _ _ Eq) as Hq.
  pose proof (set_draining _ Hs _ _ Ew) as Hdw.
  assert (forall w', w <> WExited -> (w' = WExited -> m_q q = []) -> (draining w' = true -> m_running p = false) -> settled (set_worker i w' p)) as Hmove.
  { intros w' ???. rewrite <- (set_queue_same i q p) by done. eapply settled_worker; eauto. }
  intros H. destruct w as [|drain|drain|drain|[] pkt|]; try done; simplify_eq; try by apply Hmove.
  - apply Hmove; [done..|]. cbn. by destruct (m_running p).
  - destruct (popReady (m_running p) q) eqn:Ep; [|simplify_eq; by apply Hmove].
    unfold popReady in Ep. unfold popLocked in H.
    destruct (m_q q) as [|pkt rest] eqn:Emq; simplify_eq; [|by eapply settled_worker].
    rewrite bool_decide_true in Ep by done. cbn in Ep. apply Hmove; [done|done|]. by destruct (m_running p).
  - destruct throws; simplify_eq; [done|]. by apply Hmove.
Qed.

Lemma exec_settled e p l p' : settled p -> exec e p = Some (l, p') -> settled p'.
Proof.
  intros Hs H. destruct e as [poll recv|i throws|i| |]; cbn in H.
  - by eapply recv_settled.
  - by eapply work_settled.
  - destruct (threads p !! i) as [[]|]; simplify_eq. by apply wake_settled.
  - destruct (stopper p); simplify_eq. by apply (settled_quiet p); auto.
  - destruct (stopStep (stopper p) p) as [[[l0 ph] p0]|] eqn:Es; simplify_eq. eapply stopStep_settled in Es; [|done].
    apply (settled_quiet p0); auto. still_draining.
Qed.

(** * Every run *)

Definition capacityFor (queueCapacity : nat) : nat := if bool_decide (queueCapacity = 0)%nat then 1024%nat else queueCapacity.

Lemma start_thread n i (w : WorkerPhase) : replicate n WTop !! i = Some w -> w = WTop.
Proof. by intros [-> _]%lookup_replicate. Qed.

Lemma runs_accounted n c tr p : pool_runs n c tr p -> accounted (capacityFor c) tr p /\ settled p.
Proof.
  induction 1 as [|tr p e l p' _ [IHa IHs] _ He]; [|split; [by eapply exec_accounted|by eapply exec_settled]].
  unfold startPool. set (k := if bool_decide (n = 0)%nat then 1%nat else n).
  assert (forall i cp, default [] (m_q <$> replicate k (newSPSCQueue cp) !! i) = []) as Hq.
  { intros i cp. destruct (replicate k (newSPSCQueue cp) !! i) eqn:E; [|done]. by apply lookup_replicate in E as [-> _]. }
  assert (forall i w, replicate k WTop !! i = Some w -> w = WTop) as Hw by apply start_thread.
  split; split; cbn; try done.
  - intros i. unfold inHand, queued. cbn. rewrite Hq, app_nil_r.
    destruct (replicate k WTop !! i) eqn:E; [|done]. by apply Hw in E as ->.
  - by rewrite !length_replicate.
  - by left.
  - apply Forall_replicate. cbn. unfold capacityFor. split; [done|lia].
  - intros i w Hi%Hw. by subst.
  - left. intros i. unfold exitedAt. cbn. destruct (replicate k WTop !! i) eqn:E; [|done]. by apply Hw in E as ->.
Qed.

(** The accepted datagram, if any, that came to a queue after its worker had ended. *)
Definition missedAt (missed : option (nat * Packet)) (i : nat) : list Packet :=
  match missed with Some (j, pkt) => if decide (i = j) then [pkt] else [] | None => [] end.

Lemma ended_workers_missed cap tr p :
  accounted cap tr p -> settled p ->
  exists missed, forall i, exitedAt i p = true -> acceptedAt i tr = handledAt i tr ++ missedAt missed i.
Proof.
  intros Ha Hs.
  assert (forall i l, exitedAt i p = true -> queued i p = l -> acceptedAt i tr = handledAt i tr ++ l) as H.
  { intros i l Hx Hl. rewrite (acc_fifo _ _ _ Ha i), Hl. unfold exitedAt in Hx. unfold inHand.
    by destruct (threads p !! i) as [[]|]. }
  destruct (set_left _ Hs) as [Hl|(j & pkt & _ & _ & _ & Hl)]; [exists None|exists (Some (j, pkt))]; cbn; auto.
Qed.

(** C20: Whatever the scheduling of the receive thread, the workers and the thread that stops them:
    every non-empty datagram read from the socket was accepted by a queue, counted as dropped, or
    is still in the receive thread's hand (one at most is given up uncounted when the pool stops);
    each queue's worker hands over exactly the accepted datagrams, in order, one at a time; no
    queue exceeds its capacity; and all ended workers together have missed at most one accepted
    datagram. *)
Theorem pool_accounts_for_datagrams n c tr p :
  pool_runs n c tr p ->
  receivedPacketNumFromSocket p = u64 (taken tr p) /\ droppedPackets p = u64 (count dropsBusy tr) /\
  count dropsStopping tr <= 1 /\
  (forall i, acceptedAt i tr = handledAt i tr ++ inHand i p ++ queued i p /\ (length (queued i p) <= capacityFor c)%nat) /\
  exists missed, forall i, exitedAt i p = true -> acceptedAt i tr = handledAt i tr ++ missedAt missed i.
Proof.
  intros [Ha Hs]%runs_accounted. split_and!.
  - apply (acc_received _ _ _ Ha).
  - apply (acc_dropped _ _ _ Ha).
  - pose proof (acc_stopping _ _ _ Ha). lia.
  - intros i. split; [apply (acc_fifo _ _ _ Ha)|]. unfold queued.
    destruct (m_queues p !! i) as [q|] eqn:E; cbn; [|lia]. by apply (Forall_lookup_1 _ _ _ _ (acc_capacity _ _ _ Ha) E).
  - by eapply ended_workers_missed.
Qed.

Lemma execs_runs n c es p tr ls p' :
  pool_runs n c tr p -> Terminated ∉ tr ++ ls -> execs es p = Some (ls, p') -> pool_runs n c (tr ++ ls) p'.
Proof.
  revert p tr ls. induction es as [|e es IH]; intros p tr ls Hr Ht H; cbn in H; simplify_option_eq; [by rewrite app_nil_r|].
  destruct (exec e p) as [[l p1]|] eqn:E; simplify_option_eq. destruct (execs es p1) as [[ls1 p2]|] eqn:E2; simplify_option_eq.
  rewrite cons_middle, app_assoc in *. apply (IH p1); [|done..]. eapply runs_step; eauto. set_solver.
Qed.

(** Two workers with room for one datagram each; three datagrams arrive in one batch, so the third
    finds the first queue full. *)
Definition sampleBatch : list Message :=
  [{| msg_bytes := [1; 2]; msg_ovfl := [] |}; {| msg_bytes := []; msg_ovfl := [] |};
   {| msg_bytes := [3]; msg_ovfl := [7] |}; {| msg_bytes := [4]; msg_ovfl := [5] |}].
Definition rx : PoolEvent := Receive PollReadable (Received sampleBatch).
Definition sampleEvents : list PoolEvent := replicate 16 rx ++ [Work 0 false; Work 0 false; Work 0 false].

Lemma pool_accounts_for_datagrams_witness :
  exists tr p, pool_runs 2 1 tr p /\ receivedPacketNumFromSocket p = 3 /\ droppedPackets p = 1 /\
    acceptedAt 0 tr = [[1; 2]] /\ handledAt 0 tr = [[1; 2]] /\ acceptedAt 1 tr = queued 1 p /\ count dropsStopping tr <= 1.
Proof.
  destruct (execs sampleEvents (startPool 2 1)) as [[ls p]|] eqn:E; [|by vm_compute in E].
  assert (pool_runs 2 1 ls p) as Hr.
  { apply (execs_runs 2 1 sampleEvents (startPool 2 1) []); [constructor| |done].
    vm_compute in E. injection E as <- <-. apply (bool_decide_unpack _). by vm_compute. }
  exists ls, p. split; [done|].
  pose proof (pool_accounts_for_datagrams 2 1 ls p Hr) as (Hrec & Hdrop & Hstop & Hq & _).
  vm_compute in E. injection E as <- <-. split_and!; [exact Hrec|exact Hdrop|done..|exact Hstop].
Defined.

(** * Shutting down *)

Definition awake (w : WorkerPhase) : bool := match w with WBlocking _ | WBlocked _ => false | _ => true end.

(** Steps a worker of a stopped pool has left, with [k] datagrams in its queue. *)
Definition weight (w : WorkerPhase) (k : nat) : nat :=
  match w with
  | WExited => 0
  | WWait true => 1 + 3 * k
  | WTop | WWait false | WHandle true _ => 2 + 3 * k
  | WHandle false _ => 3 + 3 * k
  | WBlocking _ | WBlocked _ => 0
  end%nat.
#[local] Arguments weight : simpl never.

Fixpoint effortOf (ws : list WorkerPhase) (qs : list SPSCQueue) : nat :=
  match ws, qs with
  | w :: ws, q :: qs => (weight w (length (m_q q)) + effortOf ws qs)%nat
  | _, _ => 0%nat
  end.
Definition effort (p : Pool) : nat := effortOf (threads p) (m_queues p).

Lemma effort_insert i w q w' q' ws qs :
  ws !! i = Some w -> qs !! i = Some q ->
  (effortOf (<[i := w']> ws) (<[i := q']> qs) + weight w (length (m_q q)) = effortOf ws qs + weight w' (length (m_q q')))%nat.
Proof.
  revert i qs. induction ws as [|w0 ws IH]; intros [|i] [|q0 qs] Hw Hq; cbn in Hw, Hq; simplify_eq; [cbn; lia|].
  specialize (IH i qs Hw Hq).
  change (weight w0 (length (m_q q0)) + effortOf (<[i := w']> ws) (<[i := q']> qs) + weight w (length (m_q q)) =
          weight w0 (length (m_q q0)) + effortOf ws qs + weight w' (length (m_q q')))%nat. lia.
Qed.

(** The pool is stopped and no worker sleeps or is about to. *)
Definition winding_down (p : Pool) : Prop := m_running p = false /\ Forall (fun w => awake w = true) (threads p).

Lemma work_winds_down i p l p' :
  winding_down p -> workerStep false i p = Some (l, p') -> winding_down p' /\ (effort p' < effort p)%nat /\ l <> Terminated.
Proof.
  intros [Hrun Haw]. unfold workerStep.
  destruct (threads p !! i) as [w|] eqn:Ew; [|done]. destruct (m_queues p !! i) as [q|] eqn:Eq; [|done].
  pose proof (Forall_lookup_1 _ _ _ _ Haw Ew) as Hw. cbn in Hw.
  assert (forall w' q', awake w' = true -> (weight w' (length (m_q q')) < weight w (length (m_q q)))%nat ->
            winding_down (set_worker i w' (set_queue i q' p)) /\ (effort (set_worker i w' (set_queue i q' p)) < effort p)%nat) as Hmove.
  { intros w' q' Ha Hlt. split; [split; [done|by apply Forall_insert]|]. unfold effort. cbn.
    pose proof (effort_insert i w q w' q' _ _ Ew Eq). lia. }
  assert (forall w', awake w' = true -> (weight w' (length (m_q q)) < weight w (length (m_q q)))%nat ->
            winding_down (set_worker i w' p) /\ (effort (set_worker i w' p) < effort p)%nat) as Hstay.
  { intros w' Ha Hlt. pose proof (Hmove w' q Ha Hlt) as H. by rewrite set_queue_same in H by done. }
  intros H. apply and_assoc. destruct w as [|drain|drain|drain|drain pkt|]; try done.
  - rewrite Hrun in H. simplify_eq. split; [apply Hstay; unfold weight; cbn; [done|lia]|done].
  - unfold popReady, popLocked in H. rewrite Hrun, orb_true_r in H.
    destruct (m_q q) as [|pkt rest] eqn:Emq; simplify_eq; (split; [|done]).
    + apply Hstay; rewrite ?Emq; destruct drain; unfold weight; cbn; (done || lia).
    + apply Hmove; rewrite ?Emq; destruct drain; unfold weight; cbn; (done || lia).
  - destruct drain; simplify_eq; (split; [apply Hstay; unfold weight; cbn; [done|lia]|done]).
Qed.

Lemma work_enabled i p :
  winding_down p -> length (threads p) = length (m_queues p) -> (i < length (threads p))%nat -> exitedAt i p = false ->
  is_Some (exec (Work i false) p).
Proof.
  intros [Hrun Haw] Hlen Hi Hx. destruct (lookup_lt_is_Some_2 (threads p) i Hi) as [w Ew].
  destruct (lookup_lt_is_Some_2 (m_queues p) i) as [q Eq]; [lia|]. pose proof (Forall_lookup_1 _ _ _ _ Haw Ew) as Hw.
  unfold exitedAt in Hx. rewrite Ew in Hx. cbn. unfold workerStep. rewrite Ew, Eq.
  destruct w as [|drain|drain|drain|[] pkt|]; cbn in *; try done; repeat case_match; eauto.
Qed.

Lemma works_wind_down es n c p tr ls p' :
  Forall (fun e => exists i, e = Work i false) es -> pool_runs n c tr p -> Terminated ∉ tr -> winding_down p -> execs es p = Some (ls, p') ->
  pool_runs n c (tr ++ ls) p' /\ winding_down p' /\ (length es + effort p' <= effort p)%nat /\ Terminated ∉ ls.
Proof.
  intros Hes. revert p tr ls. induction Hes as [|e es [i ->] Hes IH]; intros p tr ls Hr Ht Hd H; cbn in H.
  - simplify_eq. rewrite app_nil_r. split; [done|]. split; [done|]. split; [cbn; lia|set_solver].
  - destruct (workerStep false i p) as [[l p1]|] eqn:E; simplify_option_eq.
    destruct (execs es p1) as [[ls1 p2]|] eqn:E2; simplify_option_eq.
    destruct (work_winds_down _ _ _ _ Hd E) as (Hd1 & Hlt & Hl).
    assert (pool_runs n c (tr ++ [l]) p1) as Hr1 by (by apply (runs_step n c tr p (Work i false))).
    destruct (IH p1 (tr ++ [l]) ls1) as (H1 & H2 & H3 & H4); [done|set_solver|done|done|].
    rewrite <- app_assoc in H1. split; [done|]. split; [done|]. split; [cbn; lia|set_solver].
Qed.

(** C37: Once a pool is stopped and none of its workers sleeps (handlePacket not throwing), every
    schedule of worker steps is bounded by the work left in the queues, some worker can always go
    on until all have ended, and then every accepted datagram has been handled in order, except at
    most one that was pushed after its worker had ended. *)
Theorem stopped_pool_drains n c tr p es ls p' :
  pool_runs n c tr p -> Terminated ∉ tr -> m_running p = false -> Forall (fun w => awake w = true) (threads p) ->
  Forall (fun e => exists i, e = Work i false) es -> execs es p = Some (ls, p') ->
  (length es <= effort p)%nat /\
  ((exists i, is_Some (exec (Work i false) p')) \/
   (Forall (fun w => w = WExited) (threads p') /\
    exists missed, forall i, (i < length (threads p'))%nat -> acceptedAt i (tr ++ ls) = handledAt i (tr ++ ls) ++ missedAt missed i)).
Proof.
  intros Hr Ht Hrun Haw Hes H.
  destruct (works_wind_down es n c p tr ls p') as (Hr' & Hd' & Hlt & _); [done..|]. split; [lia|].
  destruct (runs_accounted _ _ _ _ Hr') as [Ha Hs].
  destruct (decide (Forall (fun w => w = WExited) (threads p'))) as [Hall|Hnot].
  - right. split; [done|]. destruct (ended_workers_missed _ _ _ Ha Hs) as [m Hm]. exists m. intros i Hi. apply Hm.
    destruct (lookup_lt_is_Some_2 _ _ Hi) as [w Hw]. unfold exitedAt. rewrite Hw. by rewrite (Forall_lookup_1 _ _ _ _ Hall Hw).
  - left. apply not_Forall_Exists, Exists_exists in Hnot as (w & [i Hi]%list_elem_of_lookup & Hw); [|intros w; apply (decide_rel eq)].
    exists i. apply work_enabled; [done|by apply (acc_threads _ _ _ Ha)|by eapply lookup_lt_Some|].
    unfold exitedAt. rewrite Hi. destruct w; try done. by destruct Hw.
Qed.

(** The pool of the sample, stopped while its workers are busy. *)
Definition stoppedEvents : list PoolEvent := replicate 16 rx ++ [CallStop].
Definition drainEvents : list PoolEvent := replicate 4 (Work 0 false) ++ replicate 4 (Work 1 false).

Lemma stopped_pool_drains_witness :
  exists tr p ls p', pool_runs 2 1 tr p /\ execs drainEvents p = Some (ls, p') /\ (length drainEvents <= effort p)%nat.
Proof.
  destruct (execs stoppedEvents (startPool 2 1)) as [[tr p]|] eqn:E; [|by vm_compute in E].
  destruct (execs drainEvents p) as [[ls p']|] eqn:E2; [|vm_compute in E; injection E as <- <-; by vm_compute in E2].
  assert (Terminated ∉ tr) as Ht by (vm_compute in E; injection E as <- <-; apply (bool_decide_unpack _); by vm_compute).
  assert (pool_runs 2 1 tr p) as Hr by (by apply (execs_runs 2 1 stoppedEvents (startPool 2 1) []); [constructor|..]).
  exists tr, p, ls, p'. split_and!; [done..|].
  eapply (stopped_pool_drains 2 1 tr p drainEvents ls p'); [done..| | | |exact E2].
  - vm_compute in E. by injection E as <- <-.
  - vm_compute in E. injection E as <- <-. by repeat constructor.
  - apply Forall_app. split; apply Forall_replicate; eauto.
Defined.

(** The thread that calls stop and the receive thread both notify the queue while its worker has
    found nothing to do and does not sleep yet: the flag is stored and the queue is notified without
    its mutex, so neither notification reaches the worker.  It sleeps for good, and both threads wait
    for it; only a spurious wake-up could end this. *)
Lemma stop_can_hang : exists tr p,
  pool_runs 1 1 tr p /\ m_running p = false /\ threads p = [WBlocked false] /\
  forall e, (forall i, e <> Spurious i) -> exec e p = None.
Proof.
  set (es := [Work 0 false; Work 0 false; CallStop; Stop; Stop; Stop; Stop] ++ replicate 5 rx ++ [Work 0 false]).
  destruct (execs es (startPool 1 1)) as [[tr p]|] eqn:E; [|by vm_compute in E].
  assert (pool_runs 1 1 tr p) as Hr.
  { apply (execs_runs 1 1 es (startPool 1 1) []); [constructor| |done].
    vm_compute in E. injection E as <- <-. apply (bool_decide_unpack _). by vm_compute. }
  exists tr, p. split; [done|]. vm_compute in E. injection E as <- <-. split_and!; [done..|].
  intros [poll recv|i throws|i| |] He; cbn; try done; [|by destruct (He i)]. by destruct i.
Qed.

(** stop and the end of run join the same thread objects; a worker that is still busy when both have
    found its object joinable is joined twice. *)
Lemma stop_can_join_twice : exists tr p, pool_runs 1 1 tr p /\ Terminated ∈ tr /\ threads p = [WExited].
Proof.
  set (es := [CallStop; Stop; Stop; Stop; Stop] ++ replicate 5 rx ++ [Work 0 false; Work 0 false; Stop]).
  destruct (execs es (startPool 1 1)) as [[tr p]|] eqn:E; [|by vm_compute in E].
  assert (pool_runs 1 1 tr p) as Hr.
  { apply (execs_runs 1 1 es (startPool 1 1) []); [constructor| |done].
    vm_compute in E. injection E as <- <-. apply (bool_decide_unpack _). by vm_compute. }
  exists (tr ++ [Terminated]), p. split.
  - eapply (runs_step 1 1 tr p rx); [done|vm_compute in E; injection E as <- <-..].
    + apply (bool_decide_unpack _). by vm_compute.
    + by vm_compute.
  - vm_compute in E. injection E as <- <-. split; [set_solver|done].
Qed.
