(* ===== verification/FlowRates.v ===== *)
(** The periodic work of the collector (src/ndt_core/collection/FlowLinkUsageCollector.cpp): rate
    estimation per interval and over the sliding window, draining of link byte credits, purging of
    idle flows, the top-k report and the table of known paths.

    Each function models one pass of its loop.  Hash tables are visited in an arbitrary but fixed
    order, [std::map]s in key order.  The measured drain interval is passed on as clock ticks. *)

From S2P Require Import Prelude Json NetUtils SFlowTypes SFlowParser.
Local Open Scope string_scope.
Local Open Scope list_scope.
Local Open Scope Z_scope.

Definition MICE_FLOW_UNDER_THRESHOLD : Z := 10000000.
Definition FLOW_IDLE_TIMEOUT : Z := 15000.

(** * Rates per interval *)

Definition currentSamplingRate (s : FlowStats) : Z := if bool_decide (0 < samplingRate s) then samplingRate s else 1.

(** One agent of a flow: the rates of the interval, and the counters rolled over. *)
Definition agentRates (s : FlowStats) : FlowStats :=
  let byteDelta := counterDelta (u64 (ingressByteCountCurrent s + egressByteCountCurrent s))
                     (u64 (ingressByteCountPrevious s + egressByteCountPrevious s)) in
  let packetDelta := counterDelta (u64 (ingresspacketCountCurrent s + egresspacketCountCurrent s))
                       (u64 (ingresspacketCountPrevious s + egresspacketCountPrevious s)) in
  {| ingressByteCountCurrent := ingressByteCountCurrent s; egressByteCountCurrent := egressByteCountCurrent s;
     ingressByteCountPrevious := ingressByteCountCurrent s; egressByteCountPrevious := egressByteCountCurrent s;
     ingresspacketCountCurrent := ingresspacketCountCurrent s; egresspacketCountCurrent := egresspacketCountCurrent s;
     ingresspacketCountPrevious := ingresspacketCountCurrent s; egresspacketCountPrevious := egresspacketCountCurrent s;
     avgByteRateInBps := u64 (u64 (byteDelta * 8) * currentSamplingRate s);
     avgPacketRate := u64 (packetDelta * currentSamplingRate s);
     samplingRate := samplingRate s; packetQueue := packetQueue s |}.

(** The accumulation over the agents: bit rate, packet rate, hops with traffic. *)
Definition accumulate (acc : Z * Z * Z) (s : FlowStats) : Z * Z * Z :=
  let '(f, p, h) := acc in
  (u64 (f + avgByteRateInBps s), u64 (p + avgPacketRate s),
   if bool_decide (avgByteRateInBps s <> 0) then i32 (h + 1) else h).

Definition with_periodic (i : FlowInfo) (stats : gmap AgentKey FlowStats) (f p : Z) (e : bool) : FlowInfo := {|
  agentFlowStats := stats;
  estimatedFlowSendingRatePeriodically := f;
  estimatedFlowSendingRateImmediately := estimatedFlowSendingRateImmediately i;
  estimatedPacketSendingRatePeriodically := p;
  estimatedPacketSendingRateImmediately := estimatedPacketSendingRateImmediately i;
  startTime := startTime i; endTime := endTime i;
  isElephantFlowPeriodically := e; isElephantFlowImmediately := isElephantFlowImmediately i;
  isAck := isAck i; isPureAck := isPureAck i; flowPath := flowPath i |}.

Definition periodicFlow (info : FlowInfo) : FlowInfo :=
  let stats := agentRates <$> agentFlowStats info in
  let '(f, p, h) := foldl accumulate (0, 0, 0) (map_to_list stats).*2 in
  let rates := computeEstimatedRates f p h in
  if hasActiveHops rates
  then with_periodic info stats (flowSendingRate rates) (packetSendingRate rates)
         (bool_decide (MICE_FLOW_UNDER_THRESHOLD <= flowSendingRate rates))
  else with_periodic info stats 0 0 false.

Definition calAvgFlowSendingRates (f : gmap FlowKey FlowInfo) : gmap FlowKey FlowInfo := periodicFlow <$> f.

(** * Rates over the window *)

(** One agent; the queue's size is read before the queue is refreshed at [now]. *)
Definition immediateAgent (now : Z) (s : FlowStats) : FlowStats * option (Z * Z) :=
  if bool_decide (queueSize (packetQueue s) = 0%nat) then (s, None)
  else
    let '(q, sum) := getSum now (packetQueue s) in
    (set_counts s (samplingRate s) (ingressByteCountCurrent s) (egressByteCountCurrent s)
       (ingresspacketCountCurrent s) (egresspacketCountCurrent s) q,
     Some (u64 (sum * currentSamplingRate s), u64 (Z.of_nat (queueSize q) * currentSamplingRate s))).

Definition accumulateNow (acc : Z * Z * Z) (o : option (Z * Z)) : Z * Z * Z :=
  match o with
  | None => acc
  | Some (b, p) => let '(fb, fp, h) := acc in (u64 (fb + b), u64 (fp + p), i32 (h + 1))
  end.

Definition with_immediate (i : FlowInfo) (stats : gmap AgentKey FlowStats) (f p : Z) (e : bool) : FlowInfo := {|
  agentFlowStats := stats;
  estimatedFlowSendingRatePeriodically := estimatedFlowSendingRatePeriodically i;
  estimatedFlowSendingRateImmediately := f;
  estimatedPacketSendingRatePeriodically := estimatedPacketSendingRatePeriodically i;
  estimatedPacketSendingRateImmediately := p;
  startTime := startTime i; endTime := endTime i;
  isElephantFlowPeriodically := isElephantFlowPeriodically i; isElephantFlowImmediately := e;
  isAck := isAck i; isPureAck := isPureAck i; flowPath := flowPath i |}.

(** [now] gives the clock reading made for each agent. *)
Definition immediateFlow (now : AgentKey -> Z) (info : FlowInfo) : FlowInfo :=
  let stats := map_imap (fun k s => Some (immediateAgent (now k) s).1) (agentFlowStats info) in
  let outs := (fun ks => (immediateAgent (now ks.1) ks.2).2) <$> map_to_list (agentFlowStats info) in
  let '(b, p, h) := foldl accumulateNow (0, 0, 0) outs in
  let rates := computeEstimatedRates (u64 (b * 8)) p h in
  if hasActiveHops rates
  then with_immediate info stats (flowSendingRate rates) (packetSendingRate rates)
         (bool_decide (MICE_FLOW_UNDER_THRESHOLD <= flowSendingRate rates))
  else with_immediate info stats 0 0 false.

Definition calAvgFlowSendingRatesImmediately (now : FlowKey -> AgentKey -> Z) (f : gmap FlowKey FlowInfo)
  : gmap FlowKey FlowInfo := map_imap (fun k i => Some (immediateFlow (now k) i)) f.

(** * Draining the link credits *)

Definition pairLe (x y : (Z * Z) * CounterInfo) : Prop :=
  x.1.1 < y.1.1 \/ (x.1.1 = y.1.1 /\ x.1.2 <= y.1.2).
#[export] Instance pairLe_dec : RelDecision pairLe.
Proof. intros x y. unfold pairLe. apply _. Defined.

Definition reportsInOrder (m : gmap (Z * Z) CounterInfo) : list ((Z * Z) * CounterInfo) :=
  merge_sort pairLe (map_to_list m).

Definition zeroCredit (st : CounterInfo) : CounterInfo := {|
  lastReportTimestampInMilliseconds := lastReportTimestampInMilliseconds st;
  lastReceivedInputOctets := lastReceivedInputOctets st; lastReceivedOutputOctets := lastReceivedOutputOctets st;
  inputByteCountOnALinkMultiplySampingRate := 0; outputByteCountOnALink := outputByteCountOnALink st |}.

Section Drain.
Context {T : Type} `{!TopologyMonitor T}.
Implicit Types c : Collector T.

(** The Mininet block of the rate loop: every credit is handed to the other side of its link and
    zeroed; an interface with no known other side is skipped. *)
Definition drainOne (elapsed : Z) c (e : (Z * Z) * CounterInfo) : Collector T :=
  let '(key, value) := e in
  match getAgentKeyFromTheOtherSide (monitor c) key with
  | None => c
  | Some other =>
      with_reports (<[key := zeroCredit value]> (m_counterReports c))
        (with_monitor (updateLinkInfoLeftLinkBandwidth other
           (inputByteCountOnALinkMultiplySampingRate value) elapsed (monitor c)) c)
  end.

Definition drainCounterReports (mode : DeploymentMode) (elapsed : Z) c : Collector T :=
  match mode with
  | MININET => foldl (drainOne elapsed) c (reportsInOrder (m_counterReports c))
  | TESTBED => c
  end.

Definition creditOne (elapsed : Z) c (e : (Z * Z) * CounterInfo) : Collector T :=
  let '(key, value) := e in
  let c := match findEdgeToHostByAgentIpAndPort (monitor c) key with
           | Some _ => with_monitor (updateLinkInfoLeftLinkBandwidth key
                         (inputByteCountOnALinkMultiplySampingRate value) elapsed (monitor c)) c
           | None => c
           end in
  with_egress (<[key := zeroCredit value]> (m_egressCounterReports c)) c.

Definition creditHostBoundEgressEdges (elapsed : Z) c : Collector T :=
  foldl (creditOne elapsed) c (reportsInOrder (m_egressCounterReports c)).

(** One iteration of the rate loop, after its sleep. *)
Definition rateIteration (mode : DeploymentMode) (elapsed : Z) c : Collector T :=
  let c := with_flows (calAvgFlowSendingRates (m_flowInfoTable c)) c in
  creditHostBoundEgressEdges elapsed (drainCounterReports mode elapsed c).

End Drain.

(** * Idle flows *)

(** The flows found idle under the shared lock ... *)
Definition collectIdle (now : Z) (f : gmap FlowKey FlowInfo) : list FlowKey :=
  (filter (fun ki : FlowKey * FlowInfo => endTime ki.2 < now /\ FLOW_IDLE_TIMEOUT <= now - endTime ki.2)
     (map_to_list f)).*1.

(** ... and erased one by one afterwards. *)
Definition eraseFlows (toRemove : list FlowKey) (f : gmap FlowKey FlowInfo) : gmap FlowKey FlowInfo :=
  foldl (fun f k => delete k f) f toRemove.

Definition purgeIdleFlows (now : Z) (f : gmap FlowKey FlowInfo) : gmap FlowKey FlowInfo :=
  eraseFlows (collectIdle now f) f.

(** * Reports *)

Definition hopJson (h : Z * Z) : json := JObject [("node", JUnsigned h.1); ("interface", JUnsigned h.2)].

(** [formatTime] is the date formatter of the utilities. *)
Definition flowJson (formatTime : Z -> string) (k : FlowKey) (i : FlowInfo) : json :=
  JObject [("src_ip", JUnsigned (srcIP k)); ("dst_ip", JUnsigned (dstIP k));
    ("src_port", JUnsigned (srcPort k)); ("dst_port", JUnsigned (dstPort k));
    ("protocol_id", JUnsigned (protocol k));
    ("estimated_flow_sending_rate_bps_in_the_proceeding_1sec_timeslot", JUnsigned (estimatedFlowSendingRatePeriodically i));
    ("estimated_flow_sending_rate_bps_in_the_last_sec", JUnsigned (estimatedFlowSendingRateImmediately i));
    ("estimated_packet_rate_in_the_proceeding_1sec_timeslot", JUnsigned (estimatedPacketSendingRatePeriodically i));
    ("estimated_packet_rate_in_the_last_sec", JUnsigned (estimatedPacketSendingRateImmediately i));
    ("first_sampled_time", JString (formatTime (startTime i)));
    ("latest_sampled_time", JString (formatTime (endTime i)));
    ("path", JArray (hopJson <$> flowPath i))].

Definition getFlowInfoJson (formatTime : Z -> string) (f : gmap FlowKey FlowInfo) : list json :=
  (fun ki => flowJson formatTime ki.1 ki.2) <$> map_to_list f.

Definition packetRateOf (j : json) : Z :=
  match jfind j "estimated_packet_rate_in_the_proceeding_1sec_timeslot" with
  | Some v => match get_u64 v with Ret z => z | Throw _ => 0 end
  | None => 0
  end.

Definition rateGe (a b : json) : Prop := packetRateOf b <= packetRateOf a.
#[export] Instance rateGe_dec : RelDecision rateGe.
Proof. intros a b. unfold rateGe. apply _. Defined.

Definition getTopKFlowInfoJson (formatTime : Z -> string) (k : Z) (f : gmap FlowKey FlowInfo) : list json :=
  take (Z.to_nat k) (merge_sort rateGe (getFlowInfoJson formatTime f)).

(** * Known paths *)

Record Paths := { allPathMap : gmap (Z * Z) Path; m_switchCountMap : gmap (Z * Z) Z }.

Definition addPath (ps : Paths) (path : Path) : Paths :=
  match path, last path with
  | (src, _) :: _, Some (dst, _) =>
      let count := if bool_decide (1 < Z.of_nat (length path)) then Z.of_nat (length path) - 2 else 0 in
      {| allPathMap := <[(u32 src, u32 dst) := path]> (allPathMap ps);
         m_switchCountMap := <[(u32 src, u32 dst) := count]> (m_switchCountMap ps) |}
  | _, _ => ps
  end.

Definition setAllPaths (allPathsVector : list Path) (ps : Paths) : Paths :=
  match allPathsVector with
  | [] => ps
  | _ => foldl addPath {| allPathMap := ∅; m_switchCountMap := ∅ |} allPathsVector
  end.

Definition getSwitchCount (ipPair : Z * Z) (ps : Paths) : option Z := m_switchCountMap ps !! ipPair.

(** The paths of one control-plane reply: a path with a malformed hop is skipped. *)
Fixpoint parsePath (hops : list json) : outcome (option Path) :=
  match hops with
  | [] => Ret (Some [])
  | h :: hops =>
      let! hop := tryParsePathNode h in
      match hop with
      | None => Ret None
      | Some hop => let! rest := parsePath hops in Ret (p ← rest; Some (hop :: p))
      end
  end.

Fixpoint parsePaths (paths : list json) : outcome (list Path) :=
  match paths with
  | [] => Ret []
  | p :: paths =>
      let! path := parsePath (jiter p) in
      let! rest := parsePaths paths in
      Ret (match path with Some ((_ :: _) as p) => p :: rest | _ => rest end)
  end.
