(* ===== verification/FlowRatesProps.v ===== *)
(** Properties of the collector's periodic work. *)

From S2P Require Import Prelude Json NetUtils SFlowTypes SFlowProps SFlowParser SFlowIngest FlowRates.
Local Open Scope string_scope.
Local Open Scope list_scope.
Local Open Scope Z_scope.

(** * Rates per interval *)

(** Bytes and packets an agent saw since the previous pass, saturating at zero. *)
Definition byteDelta (s : FlowStats) : Z :=
  counterDelta (u64 (ingressByteCountCurrent s + egressByteCountCurrent s))
    (u64 (ingressByteCountPrevious s + egressByteCountPrevious s)).
Definition packetDelta (s : FlowStats) : Z :=
  counterDelta (u64 (ingresspacketCountCurrent s + egresspacketCountCurrent s))
    (u64 (ingresspacketCountPrevious s + egresspacketCountPrevious s)).

Definition bitRate (s : FlowStats) : Z := byteDelta s * 8 * currentSamplingRate s.
Definition packetRate (s : FlowStats) : Z := packetDelta s * currentSamplingRate s.

Definition sumOf (f : FlowStats -> Z) (l : list FlowStats) : Z := foldr (fun s acc => f s + acc) 0 l.

Definition activeHops (l : list FlowStats) : Z := Z.of_nat (length (filter (fun s => bitRate s <> 0) l)).

Definition agentsOf (i : FlowInfo) : list FlowStats := (map_to_list (agentFlowStats i)).*2.

Lemma byteDelta_nonneg s : 0 <= byteDelta s.
Proof. unfold byteDelta, counterDelta. case_bool_decide; [apply u64_range|done]. Qed.
Lemma packetDelta_nonneg s : 0 <= packetDelta s.
Proof. unfold packetDelta, counterDelta. case_bool_decide; [apply u64_range|done]. Qed.
Lemma samplingRate_pos s : 1 <= currentSamplingRate s.
Proof. unfold currentSamplingRate. case_bool_decide; lia. Qed.
Lemma bitRate_nonneg s : 0 <= bitRate s.
Proof. unfold bitRate. pose proof (byteDelta_nonneg s). pose proof (samplingRate_pos s). nia. Qed.
Lemma packetRate_nonneg s : 0 <= packetRate s.
Proof. unfold packetRate. pose proof (packetDelta_nonneg s). pose proof (samplingRate_pos s). nia. Qed.

Lemma sumOf_nonneg f l : (forall s, 0 <= f s) -> 0 <= sumOf f l.
Proof. intros Hf. induction l as [|s l IH]; simpl; [done|]. specialize (Hf s). lia. Qed.

Lemma agentRates_rates s :
  avgByteRateInBps (agentRates s) = u64 (bitRate s) /\ avgPacketRate (agentRates s) = u64 (packetRate s).
Proof.
  unfold agentRates, bitRate, packetRate, byteDelta, packetDelta. cbn [avgByteRateInBps avgPacketRate].
  split; [|done]. unfold u64 at 1 2. by rewrite Zmult_mod_idemp_l.
Qed.

Lemma accumulate_fold l f p h :
  0 <= f -> 0 <= p -> 0 <= h -> f + sumOf bitRate l < 2 ^ 64 -> p + sumOf packetRate l < 2 ^ 64 ->
  h + Z.of_nat (length l) < 2 ^ 31 ->
  foldl accumulate (f, p, h) (agentRates <$> l) =
  (f + sumOf bitRate l, p + sumOf packetRate l, h + activeHops l).
Proof.
  revert f p h. induction l as [|s l IH]; intros f p h Hf Hp Hh Hsf Hsp Hn.
  { cbn. by rewrite !Z.add_0_r. }
  rewrite fmap_cons. cbn [foldl sumOf foldr length] in *. fold (sumOf bitRate l) in *. fold (sumOf packetRate l) in *.
  destruct (agentRates_rates s) as [Hb Hpk].
  pose proof (bitRate_nonneg s). pose proof (packetRate_nonneg s).
  pose proof (sumOf_nonneg bitRate l bitRate_nonneg). pose proof (sumOf_nonneg packetRate l packetRate_nonneg).
  cbn [accumulate]. rewrite Hb, Hpk, !(u64_id (bitRate s)), (u64_id (packetRate s)) by lia. rewrite !u64_id by lia.
  assert (activeHops (s :: l) = (if bool_decide (bitRate s <> 0) then 1 else 0) + activeHops l) as ->.
  { unfold activeHops. rewrite filter_cons. case_decide as Hd; [rewrite bool_decide_true by exact Hd|
      rewrite bool_decide_false by (rewrite Hd; auto)]; cbn [length]; lia. }
  destruct (bool_decide (bitRate s <> 0)); [rewrite i32_id by lia|]; rewrite IH by lia; (apply pair_equal_spec; split; [apply pair_equal_spec; split|]); lia.
Qed.

Lemma fmap_agents (m : gmap AgentKey FlowStats) :
  (map_to_list (agentRates <$> m)).*2 = agentRates <$> (map_to_list m).*2.
Proof. rewrite map_to_list_fmap, <- !list_fmap_compose. by apply list_fmap_ext. Qed.

(** The rate of an interval.  As long as the sums fit their 64-bit counters, the estimate of a
    flow is the sampled bit rate averaged over the hops that saw bytes since the previous pass (the
    packet rate over the same hops), zero when no hop did, and the flow is an elephant exactly when
    that rate reaches the threshold. *)
Theorem periodic_rate_average i :
  sumOf bitRate (agentsOf i) < 2 ^ 64 -> sumOf packetRate (agentsOf i) < 2 ^ 64 ->
  Z.of_nat (length (agentsOf i)) < 2 ^ 31 ->
  let i' := periodicFlow i in
  let n := activeHops (agentsOf i) in
  estimatedFlowSendingRatePeriodically i' = (if bool_decide (n = 0) then 0 else sumOf bitRate (agentsOf i) / n) /\
  estimatedPacketSendingRatePeriodically i' = (if bool_decide (n = 0) then 0 else sumOf packetRate (agentsOf i) / n) /\
  isElephantFlowPeriodically i' =
    bool_decide (MICE_FLOW_UNDER_THRESHOLD <= estimatedFlowSendingRatePeriodically i').
Proof.
  intros Hf Hp Hn. cbn zeta. unfold periodicFlow. rewrite fmap_agents. fold (agentsOf i).
  rewrite accumulate_fold by (done || lia). rewrite !Z.add_0_l.
  assert (0 <= activeHops (agentsOf i) < 2 ^ 31) as Ha.
  { unfold activeHops. pose proof (length_filter (fun s => bitRate s <> 0) (agentsOf i)). lia. }
  unfold computeEstimatedRates. case_bool_decide as Hz; cbn.
  - rewrite bool_decide_true by lia. done.
  - rewrite bool_decide_false by lia. rewrite u64_id by lia. done.
Qed.

Definition hopStats (cur prev rate : Z) : FlowStats :=
  Build_FlowStats cur 0 prev 0 (cur / 100) 0 (prev / 100) 0 0 0 rate (newQueue 1000).

Definition twoHopFlow : FlowInfo :=
  set_info emptyFlowInfo {[Build_AgentKey 1 1 := hopStats 5000 1000 400; Build_AgentKey 2 1 := hopStats 7000 7000 400]}
    0 0 false false.

Lemma periodic_rate_average_witness :
  estimatedFlowSendingRatePeriodically (periodicFlow twoHopFlow) = 12800000 /\
  isElephantFlowPeriodically (periodicFlow twoHopFlow) = true.
Proof.
  destruct (periodic_rate_average twoHopFlow) as (Hf & _ & He); [vm_compute; reflexivity..|].
  rewrite He, Hf. split; vm_compute; reflexivity.
Defined.

(** Rates do not latch.  When no sample arrives between two passes, the second pass reports
    zero for every flow and clears its elephant flag, whatever the counters were. *)
Theorem idle_flow_rate_decays (f : gmap FlowKey FlowInfo) k i :
  calAvgFlowSendingRates (calAvgFlowSendingRates f) !! k = Some i ->
  estimatedFlowSendingRatePeriodically i = 0 /\ estimatedPacketSendingRatePeriodically i = 0 /\
  isElephantFlowPeriodically i = false.
Proof.
  unfold calAvgFlowSendingRates. rewrite !lookup_fmap. destruct (f !! k) as [i0|]; [|done]. cbn. intros [= <-].
  set (i1 := periodicFlow i0).
  assert (agentFlowStats i1 = agentRates <$> agentFlowStats i0) as Hs.
  { unfold i1, periodicFlow. destruct (foldl _ _ _) as [[? ?] ?]. by destruct (hasActiveHops _). }
  assert (Forall (fun s => avgByteRateInBps s = 0 /\ avgPacketRate s = 0)
            (map_to_list (agentRates <$> agentFlowStats i1)).*2) as Hz.
  { rewrite Hs, !fmap_agents. apply Forall_fmap, Forall_fmap, Forall_true. intros s.
    destruct (agentRates_rates (agentRates s)) as [Hb Hp]. unfold compose. rewrite Hb, Hp.
    unfold bitRate, packetRate, byteDelta, packetDelta, counterDelta. cbn. rewrite !bool_decide_true by done.
    by rewrite !Z.sub_diag. }
  unfold periodicFlow. generalize dependent (agentRates <$> agentFlowStats i1). intros st Hz.
  assert (foldl accumulate (0, 0, 0) (map_to_list st).*2 = (0, 0, 0)) as ->; [|done].
  induction Hz as [|s l [Hb Hp] Hz IH]; [done|]. cbn [foldl accumulate]. rewrite Hb, Hp.
  rewrite bool_decide_false by auto. exact IH.
Qed.

Lemma idle_flow_rate_decays_witness :
  exists i, calAvgFlowSendingRates (calAvgFlowSendingRates {[udpKey := twoHopFlow]}) !! udpKey = Some i /\
    estimatedFlowSendingRatePeriodically i = 0 /\ isElephantFlowPeriodically i = false.
Proof.
  exists (periodicFlow (periodicFlow twoHopFlow)).
  assert (calAvgFlowSendingRates (calAvgFlowSendingRates {[udpKey := twoHopFlow]}) !! udpKey =
          Some (periodicFlow (periodicFlow twoHopFlow))) as H.
  { unfold calAvgFlowSendingRates. rewrite !lookup_fmap, lookup_singleton_eq. reflexivity. }
  destruct (idle_flow_rate_decays {[udpKey := twoHopFlow]} udpKey _ H) as (H1 & _ & H3).
  split; [exact H|]. split; [exact H1|exact H3].
Defined.

(** * Rates over the window *)

(** The hops whose window still holds a sample at [now]. *)
Definition liveHops (now : AgentKey -> Z) (i : FlowInfo) : Z :=
  Z.of_nat (length (filter (fun ks : AgentKey * FlowStats =>
    m_queue (getSum (now ks.1) (packetQueue ks.2)).1 <> []) (map_to_list (agentFlowStats i)))).

(** The bytes in the windows at [now], scaled by the sampling rates. *)
Definition windowBytes (now : AgentKey -> Z) (i : FlowInfo) : Z :=
  foldr (fun ks acc => (getSum (now ks.1) (packetQueue ks.2)).2 * currentSamplingRate ks.2 + acc) 0
    (map_to_list (agentFlowStats i)).

Definition windowStats (len ts : Z) : FlowStats :=
  set_counts emptyStats 1 len 0 1 0 (push ts (Build_ExtractedSFlowData len ts) (newQueue 1000)).

(** A flow sampled at one switch five seconds ago and at another just now. *)
Definition movedFlow : FlowInfo :=
  set_info emptyFlowInfo {[Build_AgentKey 1 1 := windowStats 1500 1000; Build_AgentKey 2 1 := windowStats 1500 6000]}
    0 0 false false.

(** The immediate estimate is not the average over the hops that observed traffic.  The queue
    size is read before stale samples are dropped, so a hop whose last sample has left the window
    still divides the sum: the estimate is too low once after a hop goes quiet. *)
Theorem immediate_rate_counts_stale_hops :
  ~ (forall now i, 0 < liveHops now i -> liveHops now i < 2 ^ 31 -> windowBytes now i * 8 < 2 ^ 64 ->
       estimatedFlowSendingRateImmediately (immediateFlow now i) = windowBytes now i * 8 / liveHops now i).
Proof.
  intros H. specialize (H (fun _ => 6000) movedFlow). vm_compute in H.
  discriminate (H eq_refl eq_refl eq_refl).
Qed.

(** * Link credits *)

Section Drain.
Context {T : Type} `{!TopologyMonitor T, !TopologyMonitorLaws T}.
Implicit Types c : Collector T.

Lemma drainOne_other elapsed c e key :
  getAgentKeyFromTheOtherSide (monitor (drainOne elapsed c e)) key = getAgentKeyFromTheOtherSide (monitor c) key.
Proof. destruct e as [k v]. unfold drainOne. case_match; [|done]. cbn. apply other_side_stable. Qed.

Lemma drain_fold elapsed l c key :
  NoDup l.*1 -> (forall k v, (k, v) ∈ l -> m_counterReports c !! k = Some v) ->
  m_counterReports (foldl (drainOne elapsed) c l) !! key =
  match m_counterReports c !! key with
  | Some v => if bool_decide ((key ∈ l.*1) /\ getAgentKeyFromTheOtherSide (monitor c) key <> None)
              then Some (zeroCredit v) else Some v
  | None => None
  end.
Proof.
  revert c. induction l as [|[k v] l IH]; intros c Hnd Hl; cbn [foldl].
  { destruct (m_counterReports c !! key); [|done]. rewrite bool_decide_false; [done|]. set_solver. }
  apply NoDup_cons in Hnd as [Hk Hnd]. cbn [fst] in Hk.
  assert (forall k' v', (k', v') ∈ l -> k' <> k) as Hne.
  { intros k' v' Hin ->. apply Hk, list_elem_of_fmap. by exists (k, v'). }
  pose proof (Hl k v ltac:(set_solver)) as Hv.
  rewrite IH; [|done|].
  2: { intros k' v' Hin. unfold drainOne. specialize (Hne _ _ Hin). case_match; cbn;
         [rewrite lookup_insert_ne by done|]; apply Hl; set_solver. }
  rewrite drainOne_other. unfold drainOne.
  destruct (decide (key = k)) as [->|Hkey].
  - destruct (getAgentKeyFromTheOtherSide (monitor c) k) as [o|] eqn:Eo; cbn.
    + rewrite lookup_insert_eq, Hv. rewrite bool_decide_false by naive_solver. rewrite bool_decide_true by set_solver. done.
    + rewrite Hv. rewrite !bool_decide_false by naive_solver. done.
  - assert (forall c', (m_counterReports c' = m_counterReports c \/ exists w, m_counterReports c' = <[k := w]> (m_counterReports c)) ->
              m_counterReports c' !! key = m_counterReports c !! key) as Hc'.
    { intros c' [->|[w ->]]; [done|]. by rewrite lookup_insert_ne. }
    rewrite (Hc' (match getAgentKeyFromTheOtherSide (monitor c) k with Some _ => _ | None => _ end))
      by (case_match; cbn; eauto).
    destruct (m_counterReports c !! key); [|done].
    rewrite (bool_decide_ext (key ∈ ((k, v) :: l).*1 /\ getAgentKeyFromTheOtherSide (monitor c) key <> None)
               (key ∈ l.*1 /\ getAgentKeyFromTheOtherSide (monitor c) key <> None)) by set_solver. done.
Qed.

(** Draining the link credits.  Under Mininet one pass of the rate loop hands over and zeroes
    the byte credit of every interface whose other side is known; an interface whose other side is
    unknown keeps its credit, and the cached octet counters are untouched. *)
Theorem drain_zeroes_known_links elapsed c key :
  m_counterReports (drainCounterReports MININET elapsed c) !! key =
  match m_counterReports c !! key with
  | Some v => if bool_decide (getAgentKeyFromTheOtherSide (monitor c) key = None) then Some v else Some (zeroCredit v)
  | None => None
  end.
Proof.
  unfold drainCounterReports, reportsInOrder. rewrite drain_fold.
  - destruct (m_counterReports c !! key) as [v|] eqn:E; [|done].
    assert (key ∈ (merge_sort pairLe (map_to_list (m_counterReports c))).*1) as Hin.
    { apply list_elem_of_fmap. exists (key, v). split; [done|]. by rewrite merge_sort_Permutation, elem_of_map_to_list. }
    destruct (getAgentKeyFromTheOtherSide (monitor c) key) eqn:Eo.
    + rewrite bool_decide_true by naive_solver. by rewrite bool_decide_false.
    + rewrite bool_decide_false by naive_solver. by rewrite bool_decide_true.
  - rewrite merge_sort_Permutation. apply NoDup_fst_map_to_list.
  - intros k v. by rewrite merge_sort_Permutation, elem_of_map_to_list.
Qed.

End Drain.

#[export] Instance recordingMonitorLaws : TopologyMonitorLaws (list MonitorCall).
Proof. by split. Qed.

Definition creditedCollector : Collector (list MonitorCall) :=
  with_reports (creditBytes (7, 1) 5000 (creditBytes (7, 9) 800 ∅)) emptyCollector.

(** Interface 9 of the sample network has no known other side: its bytes stay for the next pass. *)
Lemma drain_zeroes_known_links_witness :
  sampledByteCreditFor 7 1 (drainCounterReports MININET 1000 creditedCollector) = 0 /\
  sampledByteCreditFor 7 9 (drainCounterReports MININET 1000 creditedCollector) = 800 /\
  monitor (drainCounterReports MININET 1000 creditedCollector) = [LinkBytes (7, 1) 5000 1000].
Proof.
  split; [|split].
  - unfold sampledByteCreditFor.
    rewrite (drain_zeroes_known_links 1000 creditedCollector (7, 1)). vm_compute. reflexivity.
  - vm_compute. reflexivity.
  - vm_compute. reflexivity.
Defined.

(** * Idle flows *)

Lemma eraseFlows_lookup l (f : gmap FlowKey FlowInfo) k :
  eraseFlows l f !! k = if decide (k ∈ l) then None else f !! k.
Proof.
  unfold eraseFlows. revert f. induction l as [|x l IH]; intros f; cbn [foldl]; [done|].
  rewrite IH, lookup_delete. repeat case_decide; set_solver.
Qed.

Definition idleSince (now : Z) (i : FlowInfo) : bool := bool_decide (FLOW_IDLE_TIMEOUT <= now - endTime i).

(** A purge removes exactly the flows whose last sample is at least the idle timeout old and
    keeps every other flow as it is. *)
Theorem purge_removes_exactly_idle now f k :
  purgeIdleFlows now f !! k =
  match f !! k with
  | Some i => if idleSince now i then None else Some i
  | None => None
  end.
Proof.
  unfold purgeIdleFlows. rewrite eraseFlows_lookup.
  assert (k ∈ collectIdle now f <-> exists i, f !! k = Some i /\ FLOW_IDLE_TIMEOUT <= now - endTime i) as Hk.
  { unfold collectIdle. rewrite list_elem_of_fmap. split.
    - intros ([k' i] & -> & [[_ Hi] Hin]%list_elem_of_filter). exists i. by rewrite elem_of_map_to_list in Hin.
    - intros (i & Hi & Hle). exists (k, i). split; [done|]. apply list_elem_of_filter.
      rewrite elem_of_map_to_list. split; [|done]. unfold FLOW_IDLE_TIMEOUT in *. simpl. lia. }
  unfold idleSince. destruct (f !! k) as [i|] eqn:E; case_decide as Hd; try done.
  - apply Hk in Hd as (i' & [= <-] & Hle). by rewrite bool_decide_true.
  - rewrite bool_decide_false; [done|]. intros Hle. apply Hd, Hk. eauto.
Qed.

(** * Top k *)

Lemma rateGe_total : Total rateGe.
Proof. intros a b. unfold rateGe. lia. Qed.
#[export] Instance rateGe_transitive : Transitive rateGe.
Proof. intros a b c. unfold rateGe. lia. Qed.

(** The top-k report.  It lists at most [k] flows of the table, in descending order of the
    packet rate of the last interval, and no flow left out has a higher rate than one listed. *)
Theorem top_k_is_maximal formatTime k f :
  exists rest,
    getFlowInfoJson formatTime f ≡ₚ getTopKFlowInfoJson formatTime k f ++ rest /\
    StronglySorted rateGe (getTopKFlowInfoJson formatTime k f) /\
    length (getTopKFlowInfoJson formatTime k f) = Nat.min (Z.to_nat k) (length (getFlowInfoJson formatTime f)) /\
    forall j j', j ∈ getTopKFlowInfoJson formatTime k f -> j' ∈ rest -> packetRateOf j' <= packetRateOf j.
Proof.
  exact (take_sorted_maximal rateGe _ _ rateGe_total).
Qed.

(** * Known paths *)

Definition endsOf (p : Path) : option (Z * Z) :=
  match p, last p with (s, _) :: _, Some (d, _) => Some (u32 s, u32 d) | _, _ => None end.

Definition switchesOn (p : Path) : Z := if bool_decide (1 < Z.of_nat (length p)) then Z.of_nat (length p) - 2 else 0.

(** The latest path of a snapshot with the given end points. *)
Fixpoint latest (pr : Z * Z) (l : list Path) (acc : option Path) : option Path :=
  match l with
  | [] => acc
  | p :: l => latest pr l (if bool_decide (endsOf p = Some pr) then Some p else acc)
  end.

Lemma addPath_lookup ps p pr :
  allPathMap (addPath ps p) !! pr = (if bool_decide (endsOf p = Some pr) then Some p else allPathMap ps !! pr) /\
  m_switchCountMap (addPath ps p) !! pr =
    (if bool_decide (endsOf p = Some pr) then Some (switchesOn p) else m_switchCountMap ps !! pr).
Proof.
  unfold addPath, endsOf. destruct p as [|[s i] p]; [done|].
  destruct (last ((s, i) :: p)) as [[d j]|] eqn:El; [|done]. cbn [allPathMap m_switchCountMap].
  fold (switchesOn ((s, i) :: p)). destruct (decide ((u32 s, u32 d) = pr)) as [<-|Hne].
  - rewrite !lookup_insert_eq, bool_decide_true by done. done.
  - rewrite !lookup_insert_ne, bool_decide_false by congruence. done.
Qed.

Lemma addPaths_lookup l ps pr acc :
  allPathMap ps !! pr = acc -> m_switchCountMap ps !! pr = switchesOn <$> acc ->
  allPathMap (foldl addPath ps l) !! pr = latest pr l acc /\
  m_switchCountMap (foldl addPath ps l) !! pr = switchesOn <$> latest pr l acc.
Proof.
  revert ps acc. induction l as [|p l IH]; intros ps acc Hp Hc; cbn [foldl latest]; [done|].
  destruct (addPath_lookup ps p pr) as [H1 H2].
  apply IH; [rewrite H1|rewrite H2]; case_bool_decide; done.
Qed.

(** A non-empty path snapshot replaces the previous one.  Afterwards the path known between
    two addresses is the last one of the snapshot with these ends, if any, and the switch count
    answered for them is that path's number of inner nodes; an empty snapshot changes nothing. *)
Theorem paths_replaced snapshot ps pr :
  let ps' := setAllPaths snapshot ps in
  match snapshot with
  | [] => ps' = ps
  | _ => allPathMap ps' !! pr = latest pr snapshot None /\
         getSwitchCount pr ps' = switchesOn <$> latest pr snapshot None
  end.
Proof.
  cbn zeta. destruct snapshot as [|p l]; [done|]. unfold setAllPaths, getSwitchCount.
  by apply addPaths_lookup; cbn; rewrite lookup_empty.
Qed.

(** Parsing a reply is total, and every path kept is a real one. *)
Lemma parsePath_total l : exists r, parsePath l = Ret r.
Proof.
  induction l as [|h l [r IH]]; cbn [parsePath]; [eauto|].
  assert (exists r, tryParsePathNode h = Ret r) as [hop ->].
  { unfold tryParsePathNode. destruct h as [| | | | | |[|a [|b l']]|]; eauto.
    destruct (parseHopNode_total a) as (x & -> & _), (parseHopPort_total b) as (y & -> & _). cbn. destruct x; eauto. }
  cbn. destruct hop; [|eauto]. rewrite IH. cbn. eauto.
Qed.

(** One malformed hop costs only its own path.  Parsing the paths of a reply never throws, and
    yields exactly the non-empty paths all of whose hops parse, in order. *)
Theorem reply_paths_kept l :
  exists ps, parsePaths l = Ret ps /\
    ps = omap (fun p => match parsePath (jiter p) with Ret (Some ((_ :: _) as q)) => Some q | _ => None end) l.
Proof.
  induction l as [|p l (ps & IH & Hps)]; cbn [parsePaths]; [by exists []|].
  destruct (parsePath_total (jiter p)) as [r Hr]. rewrite Hr, IH. cbn [obind]. eexists. split; [done|].
  cbn [omap list_omap]. rewrite Hr, Hps. by destruct r as [[|]|].
Qed.
