(* ===== verification/PathWalk.v ===== *)
(** The path walk (src/ndt_core/collection/FlowLinkUsageCollector.cpp, [calFlowPathByQueried]):
    tracing each tracked flow through the topology with the classifier's answers.

    This is where the classifier, the flow table, the topology and the failure log meet.  The
    topology appears as the interface [WalkGraph]; the classifier and the failure log are the
    models of their own components.  One function models one pass over the flow table. *)

From S2P Require Import Prelude Bytes CStrings NetUtils KeyedFailureLog ClassifierKey ClassifierTables.
From S2P Require Import ClassifierInvariant ClassifierLookup ClassifierUpdate ClassifierProps SFlowTypes.
Local Open Scope string_scope.
Local Open Scope list_scope.
Local Open Scope Z_scope.

(** What the walk reads of the topology: edges by host address and by switch port, the interface
    an edge enters its target by, and the target's dpid (0 for a host) and addresses. *)
Class WalkGraph (E : Type) := {
  findEdgeByHostIp : Z -> option E;
  findEdgeByDpidAndPort : Z * Z -> option E;
  dstInterface : E -> Z;
  targetDpid : E -> Z;
  targetIps : E -> list Z
}.

(** The classifier key of a flow; the VLAN and metadata fields stay zero. *)
Definition classifierKeyOf (k : SFlowTypes.FlowKey) : ClassifierKey.FlowKey := {|
  inPort := 0; ethType := 0x0800; ipProto := protocol k;
  ipv4Src := bswap32 (srcIP k); ipv4Dst := bswap32 (dstIP k);
  tpSrc := srcPort k; tpDst := dstPort k; vlanTci := 0; metadata := 0 |}.

Definition MAX_HOPS : nat := 100.

Section Walk.
Context {E : Type} `{!WalkGraph E} (m_classifier : Impl).

(** A failure to record, as key and message. *)
Abbreviation Failure := (string * string)%type.

Definition missFailure (dpid : Z) : Failure :=
  if knowsSwitch m_classifier dpid
  then ("no-rule:" +:+ std_to_string dpid,
        "dpid " +:+ std_to_string dpid +:+ " has a flow table but no rule matches this flow; paths through it stay empty")
  else ("no-table:" +:+ std_to_string dpid,
        "no flow table for dpid " +:+ std_to_string dpid +:+
        "; the control plane has not reported it, so paths through it stay empty").

Definition edgeFailure (dpid port : Z) : Failure :=
  let at_ := std_to_string dpid +:+ ":" +:+ std_to_string port in
  ("dpid-port:" +:+ at_,
   "edge not found by dpid/port " +:+ at_ +:+ "; the topology file has no link there, so paths through it stay empty").

Definition hostFailure (k : SFlowTypes.FlowKey) : Failure :=
  let src := ipToString (srcIP k) in
  ("host-edge:" +:+ src,
   "no host edge for " +:+ src +:+ "; flows from it cannot be traced (first seen for " +:+ src +:+ " to " +:+
   ipToString (dstIP k) +:+ " proto " +:+ std_to_string (protocol k) +:+ ")").

(** The hop loop: success, the path so far, and the failure to record.  [n] hops remain. *)
Fixpoint walkHops (n : nat) (fk : ClassifierKey.FlowKey) (dst : Z) (edge : E) (path : Path)
  : bool * Path * list Failure :=
  match n with
  | O => (false, path, [])
  | S n =>
      let dpid := targetDpid edge in
      if bool_decide (dpid = 0) then
        (true, if bool_decide (dst ∈ targetIps edge) then path ++ [(dst, 0)] else path, [])
      else
        match lookup_ m_classifier dpid fk 0 with
        | Some {| outputPorts := outPort :: _ |} =>
            let path := path ++ [(dpid, outPort)] in
            match findEdgeByDpidAndPort (dpid, outPort) with
            | None => (false, path, [edgeFailure dpid outPort])
            | Some edge' => walkHops n fk dst edge' path
            end
        | _ => (false, path, [missFailure dpid])
        end
  end.

Definition walkFlow (k : SFlowTypes.FlowKey) : bool * Path * list Failure :=
  let fk := classifierKeyOf k in
  if bool_decide (ipv4Src fk = 0) || bool_decide (ipv4Dst fk = 0) then
    (false, [], [("zero-ip", "flow path skipped: source or destination IP is 0")])
  else
    match findEdgeByHostIp (srcIP k) with
    | None => (false, [], [hostFailure k])
    | Some edge => walkHops MAX_HOPS fk (dstIP k) edge [(srcIP k, dstInterface edge)]
    end.

Definition set_path (p : Path) (i : FlowInfo) : FlowInfo := {|
  agentFlowStats := agentFlowStats i;
  estimatedFlowSendingRatePeriodically := estimatedFlowSendingRatePeriodically i;
  estimatedFlowSendingRateImmediately := estimatedFlowSendingRateImmediately i;
  estimatedPacketSendingRatePeriodically := estimatedPacketSendingRatePeriodically i;
  estimatedPacketSendingRateImmediately := estimatedPacketSendingRateImmediately i;
  startTime := startTime i; endTime := endTime i;
  isElephantFlowPeriodically := isElephantFlowPeriodically i;
  isElephantFlowImmediately := isElephantFlowImmediately i;
  isAck := isAck i; isPureAck := isPureAck i; flowPath := p |}.

(** The commit under the table's lock; a flow that disappeared meanwhile is not re-created. *)
Definition commitPath (k : SFlowTypes.FlowKey) (p : Path) (f : gmap SFlowTypes.FlowKey FlowInfo)
  : gmap SFlowTypes.FlowKey FlowInfo :=
  match f !! k with Some i => <[k := set_path p i]> f | None => f end.

Definition walkOne (st : gmap SFlowTypes.FlowKey FlowInfo * KeyedFailureLog) (k : SFlowTypes.FlowKey)
  : gmap SFlowTypes.FlowKey FlowInfo * KeyedFailureLog :=
  let '(ok, path, fails) := walkFlow k in
  (commitPath k (if ok : bool then path else []) st.1, foldl (fun l f => record f.1 f.2 l) st.2 fails).

(** One pass: the keys are snapshotted first, the failure log is closed once at the end. *)
Definition calFlowPathByQueried (now : Z) (f : gmap SFlowTypes.FlowKey FlowInfo) (log : KeyedFailureLog)
  : gmap SFlowTypes.FlowKey FlowInfo * KeyedFailureLog * Report :=
  let keys := (map_to_list f).*1 in
  let '(f, log) := foldl walkOne (f, log) keys in
  let '(log, report) := endPass now log in
  (f, log, report).

(** * What a traced path means *)

(** The port a switch sends the flow to: the first output of the rule the classifier selects. *)
Definition hopPort (fk : ClassifierKey.FlowKey) (dpid : Z) : option Z :=
  match lookup_ m_classifier dpid fk 0 with Some e => head (outputPorts e) | None => None end.

(** [forwards fk dst n edge p]: entering the target of [edge], the flow passes [n] switches as
    listed in [p] and arrives at a host, which ends [p] if it owns the destination. *)
Inductive forwards (fk : ClassifierKey.FlowKey) (dst : Z) : nat -> E -> Path -> Prop :=
  | fw_deliver edge : targetDpid edge = 0 -> dst ∈ targetIps edge -> forwards fk dst 0 edge [(dst, 0)]
  | fw_stray edge : targetDpid edge = 0 -> dst ∉ targetIps edge -> forwards fk dst 0 edge []
  | fw_hop n edge edge' port p :
      targetDpid edge <> 0 -> hopPort fk (targetDpid edge) = Some port ->
      findEdgeByDpidAndPort (targetDpid edge, port) = Some edge' ->
      forwards fk dst n edge' p -> forwards fk dst (S n) edge ((targetDpid edge, port) :: p).

Lemma walkHops_forwards n fk dst edge path path' fails :
  walkHops n fk dst edge path = (true, path', fails) <->
  fails = [] /\ exists m p, (m < n)%nat /\ forwards fk dst m edge p /\ path' = path ++ p.
Proof.
  revert edge path. induction n as [|n IH]; intros edge path; cbn [walkHops].
  { split; [done|]. intros (_ & m & p & ? & _). lia. }
  case_bool_decide as Hd.
  - split.
    + intros [= <- <-]. split; [done|]. case_bool_decide.
      * exists 0%nat, [(dst, 0)]. split_and!; [lia|by constructor|done].
      * exists 0%nat, []. split_and!; [lia|by constructor|by rewrite app_nil_r].
    + intros (-> & m & p & _ & Hf & ->). destruct Hf as [edge _ Hin|edge _ Hin|]; [| |done].
      * by rewrite bool_decide_true.
      * rewrite bool_decide_false by done. by rewrite app_nil_r.
  - assert (forall m p, forwards fk dst m edge p -> exists n' e' port p', m = S n' /\ p = (targetDpid edge, port) :: p' /\
              hopPort fk (targetDpid edge) = Some port /\ findEdgeByDpidAndPort (targetDpid edge, port) = Some e' /\
              forwards fk dst n' e' p') as Hinv.
    { intros m p Hf. destruct Hf; try done. eauto 9. }
    assert (forall (b : bool), (match hopPort fk (targetDpid edge) with Some port => findEdgeByDpidAndPort (targetDpid edge, port) | None => None end) = None ->
              ~ exists m p, forwards fk dst m edge p) as Hstuck.
    { intros _ Hn (m & p & (n' & e' & port & p' & _ & _ & Hp & He & _)%Hinv). rewrite Hp in Hn. congruence. }
    unfold hopPort in Hinv, Hstuck.
    destruct (lookup_ m_classifier (targetDpid edge) fk 0) as [[g [|port ports] t]|] eqn:El; cbn in *;
      try (split; [done|intros (_ & m & p & _ & Hf & _); destruct (Hstuck true eq_refl); eauto]).
    destruct (findEdgeByDpidAndPort (targetDpid edge, port)) as [edge'|] eqn:Ee;
      [|split; [done|intros (_ & m & p & _ & Hf & _); destruct (Hstuck true eq_refl); eauto]].
    rewrite IH. split; intros (-> & m & p & Hm & Hf & ->); (split; [done|]).
    + exists (S m), ((targetDpid edge, port) :: p). split_and!; [lia| |by rewrite <- app_assoc].
      apply (fw_hop fk dst m edge edge'); [done|unfold hopPort; by rewrite El|done|done].
    + destruct (Hinv _ _ Hf) as (n' & e' & port' & p' & -> & -> & [= <-] & He & Hf').
      rewrite Ee in He. injection He as <-. exists n', p'. split_and!; [lia|done|by rewrite <- app_assoc].
Qed.

(** C2: the traced path.  A walk succeeds with a path exactly when both addresses are non-zero,
    the source host's edge is known and, following from there the first output port of the rule
    the classifier selects at each switch and the topology's edge behind that port, the flow
    reaches a host within 99 switches; the path then lists the source, these switches and ports,
    and the destination if that host owns it.  A forwarding loop never yields a path. *)
Theorem walk_traces_forwarding k path fails :
  walkFlow k = (true, path, fails) <->
  fails = [] /\ bswap32 (srcIP k) <> 0 /\ bswap32 (dstIP k) <> 0 /\
  exists edge n p, findEdgeByHostIp (srcIP k) = Some edge /\ (n < 100)%nat /\
    forwards (classifierKeyOf k) (dstIP k) n edge p /\ path = (srcIP k, dstInterface edge) :: p.
Proof.
  unfold walkFlow. cbn [ipv4Src ipv4Dst classifierKeyOf].
  destruct (bool_decide_reflect (bswap32 (srcIP k) = 0)) as [Hs|Hs]; [split; [done|intros (_ & ? & _); done]|].
  destruct (bool_decide_reflect (bswap32 (dstIP k) = 0)) as [Hd|Hd]; [split; [done|intros (_ & _ & ? & _); done]|].
  cbn [orb]. destruct (findEdgeByHostIp (srcIP k)) as [edge|] eqn:Ee.
  - rewrite walkHops_forwards. split.
    + intros (-> & m & p & Hm & Hf & ->). split_and!; [done..|]. exists edge, m, p. by split_and!.
    + intros (-> & _ & _ & edge' & m & p & [= <-] & Hm & Hf & ->). split; [done|]. by exists m, p.
  - split; [done|]. intros (_ & _ & _ & edge & n & p & ? & _). done.
Qed.

(** * The pass over the table *)

Lemma walkOne_lookup st k k' :
  (walkOne st k).1 !! k' =
  if decide (k' = k)
  then set_path (let '(ok, path, _) := walkFlow k in if ok : bool then path else []) <$> st.1 !! k
  else st.1 !! k'.
Proof.
  unfold walkOne, commitPath. destruct (walkFlow k) as [[ok path] fails]. cbn.
  case_decide as Hk; [subst|]; destruct (st.1 !! k) as [i|] eqn:Ei; cbn; rewrite ?lookup_insert_eq, ?lookup_insert_ne by done; try done.
Qed.

Lemma walkAll_lookup keys st k :
  NoDup keys ->
  (foldl walkOne st keys).1 !! k =
  if decide (k ∈ keys)
  then set_path (let '(ok, path, _) := walkFlow k in if ok : bool then path else []) <$> st.1 !! k
  else st.1 !! k.
Proof.
  revert st. induction keys as [|x keys IH]; intros st Hnd; cbn [foldl]; [done|].
  apply NoDup_cons in Hnd as [Hx Hnd]. rewrite IH, walkOne_lookup by done.
  destruct (decide (k = x)) as [->|Hk].
  - rewrite decide_False by done. by rewrite decide_True by set_solver.
  - by rewrite (decide_ext (k ∈ x :: keys) (k ∈ keys)) by set_solver.
Qed.

(** A pass gives every tracked flow the path traced for it, or none when it cannot be traced,
    changes nothing else of the flow, and neither adds nor removes flows. *)
Theorem path_pass_updates_table now f log k :
  (calFlowPathByQueried now f log).1.1 !! k =
  set_path (let '(ok, path, _) := walkFlow k in if ok : bool then path else []) <$> f !! k.
Proof.
  unfold calFlowPathByQueried. pose proof (walkAll_lookup (map_to_list f).*1 (f, log) k (NoDup_fst_map_to_list f)) as H.
  destruct (foldl walkOne (f, log) _) as [f' log']. destruct (endPass now log') as [log'' rep]. cbn in *. rewrite H.
  case_decide as Hk; [done|]. destruct (f !! k) as [i|] eqn:Ei; [|done].
  destruct Hk. apply list_elem_of_fmap. exists (k, i). by rewrite elem_of_map_to_list.
Qed.

(** Every hop follows the flow tables.  After completed polls, the port the walk takes at a
    switch is the first output port of a rule of table 0 that matches the flow's packets with the
    highest priority of all rules the switch stores for them. *)
Theorem hop_follows_best_rule fk dpid port :
  polled true m_classifier -> hopPort fk dpid = Some port ->
  exists sw rid r, switches m_classifier !! dpid = Some sw /\ rulesById sw !! rid = Some r /\
    r_tableId r = 0 /\ rule_matches (maskIntern m_classifier) fk r /\ head (outputPorts (r_effect r)) = Some port /\
    forall rid' r', rulesById sw !! rid' = Some r' -> r_tableId r' = 0 ->
      rule_matches (maskIntern m_classifier) fk r' -> r_priority r' <= r_priority r.
Proof.
  intros Hp. unfold hopPort, lookup_. destruct (switches m_classifier !! dpid) as [sw|] eqn:Hsw; [|done].
  destruct (wi_switch _ (polled_wf _ _ Hp) _ _ Hsw) as [Hwf _].
  pose proof (lookupInTableNoLock_best (maskIntern m_classifier) sw 0 fk Hwf
                (fun tc => polled_clean _ Hp _ _ Hsw 0 tc)) as Hbest.
  destruct (lookupInTableNoLock (maskIntern m_classifier) sw 0 fk) as [rid|]; [|done].
  destruct Hbest as (r & Hr & Ht & Hm & _ & Hmax). rewrite Hr. simpl. intros Hport.
  exists sw, rid, r. by split_and!.
Qed.

End Walk.

(** A switch between two hosts, running the sample tables. *)
#[export] Instance sampleGraph : WalkGraph nat := {
  findEdgeByHostIp := fun ip => if bool_decide (ip = bswap32 0x0A000009) then Some 0%nat else None;
  findEdgeByDpidAndPort := fun dp => if bool_decide (dp = (1, 2)) then Some 1%nat else None;
  dstInterface := fun _ => 4;
  targetDpid := fun e => match e with 0%nat => 1 | _ => 0 end;
  targetIps := fun e => match e with 0%nat => [] | _ => [bswap32 0x0A000001] end
}.

Definition sampleFlowKey : SFlowTypes.FlowKey :=
  Build_FlowKey (bswap32 0x0A000009) (bswap32 0x0A000001) 40000 443 6 0 0.

Example sample_walk :
  walkFlow sampleImpl sampleFlowKey =
  (true, [(bswap32 0x0A000009, 4); (1, 2); (bswap32 0x0A000001, 0)], []).
Proof. vm_compute. reflexivity. Qed.

Lemma hop_follows_best_rule_witness :
  hopPort sampleImpl (classifierKeyOf sampleFlowKey) 1 = Some 2 /\
  exists sw rid r, switches sampleImpl !! 1 = Some sw /\ rulesById sw !! rid = Some r /\
    head (outputPorts (r_effect r)) = Some 2.
Proof.
  assert (hopPort sampleImpl (classifierKeyOf sampleFlowKey) 1 = Some 2) as H by (vm_compute; reflexivity).
  split; [exact H|].
  destruct (hop_follows_best_rule sampleImpl (classifierKeyOf sampleFlowKey) 1 2 sampleImpl_polled H)
    as (sw & rid & r & Hsw & Hr & _ & _ & Hport & _).
  exists sw, rid, r. split; [exact Hsw|]. split; [exact Hr|exact Hport].
Defined.
