(* ===== verification/FlowDispatch.v ===== *)
(** Flow jobs and their dispatcher (include/ndt_core/routing_management/FlowJob.hpp,
    FlowDispatcher.hpp, src/ndt_core/routing_management/FlowDispatcher.cpp).

    The dispatcher is a concurrent component and is modelled as a labelled step relation: clients
    enqueue and stop (it is started once, first); worker threads take bursts under the mutex and call the sender outside
    it.  A critical section is one step.  Waiting on the condition variable is a step that is
    enabled when the wait predicate holds.  The labels are what the outside sees: jobs accepted or
    dropped, and batches handed to the sender. *)

From S2P Require Import Prelude Json.
Local Open Scope string_scope.
Local Open Scope list_scope.
Local Open Scope Z_scope.

(** * Jobs *)

Inductive FlowOp := Install | Modify | Delete.

#[export] Instance FlowOp_eq_dec : EqDecision FlowOp.
Proof. solve_decision. Defined.

Record FlowJob := {
  dpid : Z; op : FlowOp; priority : Z; match_ : json; actions : json; idleTimeout : Z
}.

(** A name in double quotes. *)
Definition quoted (s : string) : string :=
  String (Ascii.ascii_of_nat 34) (s +:+ String (Ascii.ascii_of_nat 34) EmptyString).

Definition describeFlowEntryShapeProblem (entry : json) (op : FlowOp) : string :=
  if negb (is_object entry) then "entry is not a JSON object"
  else
    match jfind entry "dpid" with
    | None => "missing " +:+ quoted "dpid"
    | Some dpid =>
        if negb (is_number_unsigned dpid ||
                 (is_number_integer dpid &&
                  match get_i64 dpid with Ret z => bool_decide (0 <= z) | Throw _ => false end))
        then quoted "dpid" +:+ " must be a non-negative integer"
        else if negb (bool_decide (op = Delete)) && negb (contains entry "actions")
        then "missing " +:+ quoted "actions" +:+ " -- send " +:+ quoted "actions" +:+
             ": [] if a drop rule is what you meant"
        else ""
    end.

Record FlowBatchPartition := {
  accepted : list FlowJob; unknownDpids : list Z; rejectedEntries : Z
}.

(** [std::unique] on a sorted vector. *)
Fixpoint uniqueZ (l : list Z) : list Z :=
  match l with
  | x :: ((y :: _) as l') => if bool_decide (x = y) then uniqueZ l' else x :: uniqueZ l'
  | l => l
  end.

Fixpoint partitionLoop (known : Z -> bool) (jobs : list FlowJob) (out : FlowBatchPartition) : FlowBatchPartition :=
  match jobs with
  | [] => out
  | job :: jobs =>
      partitionLoop known jobs
        (if known (dpid job)
         then {| accepted := accepted out ++ [job]; unknownDpids := unknownDpids out;
                 rejectedEntries := rejectedEntries out |}
         else {| accepted := accepted out; unknownDpids := unknownDpids out ++ [dpid job];
                 rejectedEntries := rejectedEntries out + 1 |})
  end.

Definition partitionFlowBatchByKnownDpid (jobs : list FlowJob) (dpidIsKnown : Z -> bool) : FlowBatchPartition :=
  let out := partitionLoop dpidIsKnown jobs {| accepted := []; unknownDpids := []; rejectedEntries := 0 |} in
  {| accepted := accepted out; unknownDpids := uniqueZ (merge_sort Z.le (unknownDpids out));
     rejectedEntries := rejectedEntries out |}.

(** * The dispatcher *)

(** A worker thread is waiting at the top of its loop, about to call the sender with a burst, or
    finished. *)
Inductive Phase := Waiting | Sending (burst : list FlowJob) | Exited.

Record FlowDispatcher := {
  queues_ : gmap Z (list FlowJob);
  workers_ : gset Z;
  running_ : bool;
  droppedAfterStop_ : Z;
  threads : list (Z * Phase)
}.

Definition newDispatcher : FlowDispatcher := {|
  queues_ := ∅; workers_ := ∅; running_ := false; droppedAfterStop_ := 0; threads := [] |}.

Definition queueOf (d : FlowDispatcher) (id : Z) : list FlowJob := default [] (queues_ d !! id).

Definition start (d : FlowDispatcher) : FlowDispatcher := {|
  queues_ := queues_ d; workers_ := workers_ d; running_ := true;
  droppedAfterStop_ := droppedAfterStop_ d; threads := threads d |}.

(** The critical section of [stop]; the joins that follow only wait for threads to finish. *)
Definition stop (d : FlowDispatcher) : FlowDispatcher := {|
  queues_ := queues_ d; workers_ := ∅; running_ := false;
  droppedAfterStop_ := droppedAfterStop_ d; threads := threads d |}.

Definition noteDropped_ (n : nat) (d : FlowDispatcher) : FlowDispatcher := {|
  queues_ := queues_ d; workers_ := workers_ d; running_ := running_ d;
  droppedAfterStop_ := u64 (droppedAfterStop_ d + Z.of_nat n); threads := threads d |}.

(** Appends a job to its switch's queue, spawning the switch's worker when there is none. *)
Definition pushJob (d : FlowDispatcher) (job : FlowJob) : FlowDispatcher :=
  let id := dpid job in
  {| queues_ := <[id := queueOf d id ++ [job]]> (queues_ d);
     workers_ := {[id]} ∪ workers_ d;
     running_ := running_ d; droppedAfterStop_ := droppedAfterStop_ d;
     threads := if decide (id ∈ workers_ d) then threads d else threads d ++ [(id, Waiting)] |}.

(** Both overloads of [enqueue]; the single-job one passes one job. *)
Definition enqueue (jobs : list FlowJob) (d : FlowDispatcher) : FlowDispatcher :=
  if running_ d then foldl pushJob d jobs else noteDropped_ (length jobs) d.

Definition setThread (i : nat) (t : Z * Phase) (d : FlowDispatcher) : FlowDispatcher := {|
  queues_ := queues_ d; workers_ := workers_ d; running_ := running_ d;
  droppedAfterStop_ := droppedAfterStop_ d; threads := <[i := t]> (threads d) |}.

Definition setQueue (id : Z) (q : list FlowJob) (d : FlowDispatcher) : FlowDispatcher := {|
  queues_ := <[id := q]> (queues_ d); workers_ := workers_ d; running_ := running_ d;
  droppedAfterStop_ := droppedAfterStop_ d; threads := threads d |}.

(** The critical section of [workerLoop_], for worker [i] of switch [id] whose wait is over. *)
Definition workerTake (burstSize : nat) (i : nat) (id : Z) (d : FlowDispatcher) : FlowDispatcher :=
  let q := queueOf d id in
  match q, running_ d with
  | [], false => setThread i (id, Exited) d
  | _, _ => setThread i (id, Sending (take burstSize q)) (setQueue id (drop burstSize q) d)
  end.

(** The wait predicate. *)
Definition canTake (id : Z) (d : FlowDispatcher) : bool :=
  negb (running_ d) || negb (bool_decide (queueOf d id = [])).

Inductive Label :=
  | Started
  | Stopped
  | Accepted (jobs : list FlowJob)
  | Dropped (jobs : list FlowJob)
  | Sent (batch : list FlowJob)
  | Tau.

Inductive step (burstSize : nat) : FlowDispatcher -> Label -> FlowDispatcher -> Prop :=
  | step_stop d : step burstSize d Stopped (stop d)
  | step_enqueue d jobs :
      step burstSize d (if running_ d then Accepted jobs else Dropped jobs) (enqueue jobs d)
  | step_take d i id :
      threads d !! i = Some (id, Waiting) -> canTake id d = true ->
      step burstSize d Tau (workerTake burstSize i id d)
  | step_send d i id burst :
      threads d !! i = Some (id, Sending burst) -> burst <> [] ->
      step burstSize d (Sent burst) (setThread i (id, Waiting) d)
  | step_skip d i id :
      threads d !! i = Some (id, Sending []) -> step burstSize d Tau (setThread i (id, Waiting) d).

(** The life of a dispatcher: it is started once and then steps. *)
Inductive runs (burstSize : nat) : list Label -> FlowDispatcher -> Prop :=
  | runs_start : runs burstSize [Started] (start newDispatcher)
  | runs_step tr d l d' : runs burstSize tr d -> step burstSize d l d' -> runs burstSize (tr ++ [l]) d'.

(** * What happened to the jobs of one switch *)

Definition forSwitch (id : Z) (l : list FlowJob) : list FlowJob := filter (fun j => dpid j = id) l.

Definition acceptedJobs (tr : list Label) : list FlowJob :=
  concat ((fun l => match l with Accepted js => js | _ => [] end) <$> tr).
Definition droppedJobs (tr : list Label) : list FlowJob :=
  concat ((fun l => match l with Dropped js => js | _ => [] end) <$> tr).
Definition sentJobs (tr : list Label) : list FlowJob :=
  concat ((fun l => match l with Sent b => b | _ => [] end) <$> tr).

(** The burst the worker of a switch has taken but not handed over. *)
Definition inFlight (d : FlowDispatcher) (id : Z) : list FlowJob :=
  concat ((fun t => match t with (id', Sending b) => if decide (id' = id) then b else [] | _ => [] end) <$> threads d).
