(* ===== verification/FlowDispatchProps.v ===== *)
(** Properties of the flow dispatcher and of the batch helpers: per-switch FIFO delivery without
    loss or duplication in every interleaving, draining after [stop], and the partition of a batch. *)

From S2P Require Import Prelude Json FlowDispatch.
Local Open Scope string_scope.
Local Open Scope list_scope.
Local Open Scope Z_scope.

(** * Bursts in flight *)

Definition burstOf (ph : Phase) : list FlowJob := match ph with Sending b => b | _ => [] end.

Definition flights (ts : list (Z * Phase)) (id : Z) : list FlowJob :=
  concat ((fun t : Z * Phase => if decide (t.1 = id) then burstOf t.2 else []) <$> ts).

Lemma inFlight_flights d id : inFlight d id = flights (threads d) id.
Proof.
  unfold inFlight, flights. f_equal. apply list_fmap_ext. intros i [id' []] _; cbn; by case_decide.
Qed.

Lemma flights_app ts ts' id : flights (ts ++ ts') id = flights ts id ++ flights ts' id.
Proof. unfold flights. by rewrite fmap_app, concat_app. Qed.

Lemma flights_notin ts id : id ∉ ts.*1 -> flights ts id = [].
Proof.
  induction ts as [|[id' ph] ts IH]; intros H; [done|]. rewrite fmap_cons, not_elem_of_cons in H.
  unfold flights in *. rewrite fmap_cons. cbn [concat fst snd] in *. rewrite decide_False by naive_solver.
  apply IH, H.
Qed.

(** With one thread per switch, the burst in flight is that thread's. *)
Lemma flights_insert ts i id ph ph' id' :
  NoDup ts.*1 -> ts !! i = Some (id, ph) ->
  flights ts id = burstOf ph /\
  flights (<[i := (id, ph')]> ts) id' = if decide (id' = id) then burstOf ph' else flights ts id'.
Proof.
  intros Hnd Hi. pose proof (take_drop_middle _ _ _ Hi) as Hmid.
  assert (i < length ts)%nat as Hlt by (by eapply lookup_lt_Some).
  set (l1 := take i ts) in *. set (l2 := drop (S i) ts) in *.
  assert (<[i := (id, ph')]> ts = l1 ++ (id, ph') :: l2) as Hins by (apply insert_take_drop; done).
  clearbody l1 l2.
  rewrite <- Hmid, fmap_app, fmap_cons in Hnd. apply NoDup_app in Hnd as (_ & Hd & Hnd2).
  apply NoDup_cons in Hnd2 as [Hn2 _]. cbn [fst] in *.
  assert (id ∉ l1.*1) as Hn1 by (intros H; apply (Hd _ H); set_solver).
  assert (forall p x, flights ((id, p) :: l2) x = (if decide (x = id) then burstOf p else []) ++ flights l2 x) as Hcons.
  { intros p x. unfold flights. rewrite fmap_cons. cbn. repeat case_decide; congruence. }
  split.
  - rewrite <- Hmid, flights_app, Hcons, decide_True by done. rewrite !flights_notin by done. by rewrite app_nil_r.
  - rewrite Hins. assert (flights ts id' = flights (l1 ++ (id, ph) :: l2) id') as -> by (by rewrite Hmid).
    rewrite !flights_app, !Hcons. case_decide as He; [|done]. subst.
    rewrite !flights_notin by done. by rewrite app_nil_r.
Qed.

Lemma insert_fst (ts : list (Z * Phase)) i id ph ph' : ts !! i = Some (id, ph) -> (<[i := (id, ph')]> ts).*1 = ts.*1.
Proof.
  intros Hi. rewrite list_fmap_insert. apply list_insert_id. by rewrite list_lookup_fmap, Hi.
Qed.

Lemma elem_insert_thread (ts : list (Z * Phase)) i t x : x ∈ <[i := t]> ts -> x = t \/ x ∈ ts.
Proof. intros [j Hj]%list_elem_of_lookup. apply list_lookup_insert_Some in Hj as [(_ & <- & _)|[_ Hj]]; [by left|right]. by eapply list_elem_of_lookup_2. Qed.

Lemma forSwitch_app id l l' : forSwitch id (l ++ l') = forSwitch id l ++ forSwitch id l'.
Proof. apply filter_app. Qed.

Lemma forSwitch_same id l : Forall (fun j => dpid j = id) l -> forSwitch id l = l.
Proof. induction 1 as [|j l Hj HF IH]; [done|]. unfold forSwitch in *. rewrite filter_cons, decide_True by done. by rewrite IH. Qed.

Lemma forSwitch_other id id' l : Forall (fun j => dpid j = id') l -> id <> id' -> forSwitch id l = [].
Proof.
  intros HF Hne. induction HF as [|j l Hj HF IH]; [done|]. unfold forSwitch in *.
  rewrite filter_cons, decide_False by congruence. done.
Qed.

Lemma filter_cons_inv {A} (P : A -> Prop) `{forall x, Decision (P x)} (b : list A) x l :
  filter P b = x :: l -> exists b1 b2, b = b1 ++ x :: b2 /\ filter P b1 = [] /\ filter P b2 = l.
Proof.
  induction b as [|y b IH]; [done|]. rewrite filter_cons. case_decide as Hy.
  - intros [= -> <-]. by exists [], b.
  - intros (b1 & b2 & -> & H1 & H2)%IH. exists (y :: b1), b2. by rewrite filter_cons, decide_False.
Qed.

(** Two lists with the same jobs for every switch, in the same order, have the same jobs. *)
Lemma forSwitch_permutation a b : (forall id, forSwitch id a = forSwitch id b) -> a ≡ₚ b.
Proof.
  revert b. induction a as [|x a IH]; intros b H.
  - destruct b as [|y b]; [done|]. specialize (H (dpid y)). unfold forSwitch in H.
    by rewrite filter_cons, decide_True in H.
  - pose proof (H (dpid x)) as Hx. unfold forSwitch in Hx. rewrite filter_cons, decide_True in Hx by done.
    symmetry in Hx. apply filter_cons_inv in Hx as (b1 & b2 & -> & H1 & H2). rewrite <- Permutation_middle. constructor.
    apply IH. intros id. specialize (H id). rewrite forSwitch_app in H |- *. unfold forSwitch in *.
    rewrite !filter_cons in H. case_decide; [|done]. subst. by rewrite H1 in *; simplify_eq.
Qed.

(** * The invariant *)

(** [inv acc sent d]: of the jobs accepted so far, in order, the sender has got [sent], and the
    rest of each switch's jobs are its burst in flight followed by its queue. *)
Record inv (acc sent : list FlowJob) (d : FlowDispatcher) : Prop := {
  inv_fifo : forall id, forSwitch id acc = forSwitch id sent ++ flights (threads d) id ++ queueOf d id;
  inv_nodup : NoDup (threads d).*1;
  inv_queue : forall id, Forall (fun j => dpid j = id) (queueOf d id);
  inv_burst : forall id b, (id, Sending b) ∈ threads d -> Forall (fun j => dpid j = id) b;
  inv_live : forall id, queueOf d id <> [] -> exists ph, (id, ph) ∈ threads d /\ ph <> Exited;
  inv_run : running_ d = true ->
    (forall id, id ∈ workers_ d <-> id ∈ (threads d).*1) /\ (forall id, (id, Exited) ∉ threads d)
}.

Lemma queueOf_push d job id :
  queueOf (pushJob d job) id = if decide (id = dpid job) then queueOf d id ++ [job] else queueOf d id.
Proof.
  unfold queueOf, pushJob. cbn. rewrite lookup_insert. repeat case_decide; try congruence. by subst.
Qed.

Lemma pushJob_inv acc sent d job :
  running_ d = true -> inv acc sent d -> inv (acc ++ [job]) sent (pushJob d job).
Proof.
  intros Hrun [Hf Hn Hq Hb Hl Hr]. destruct (Hr Hrun) as [Hw Hx].
  assert (forall id, flights (threads (pushJob d job)) id = flights (threads d) id) as Hfl.
  { intros id. cbn [threads pushJob]. case_decide; [done|]. rewrite flights_app. unfold flights at 2. cbn.
    case_decide; by rewrite app_nil_r. }
  assert (forall t, t ∈ threads d -> t ∈ threads (pushJob d job)) as Hsub by (intros t; cbn [threads pushJob]; case_decide; set_solver).
  split.
  - intros id. rewrite forSwitch_app, Hf, Hfl, queueOf_push. unfold forSwitch at 2. rewrite filter_cons, filter_nil.
    repeat case_decide; try congruence; by rewrite ?app_nil_r, <- ?app_assoc.
  - cbn [threads workers_ pushJob]. case_decide as Hin; [done|]. rewrite fmap_app. apply NoDup_app. split_and!; [done| |apply NoDup_singleton].
    intros id Hid. rewrite Hw in Hin. set_solver.
  - intros id. rewrite queueOf_push. case_decide; [|done]. apply Forall_app. by repeat constructor.
  - intros id b. cbn [threads workers_ pushJob]. case_decide; [apply Hb|]. rewrite elem_of_app, list_elem_of_singleton. intros [?|?]; [by apply Hb|done].
  - intros id. rewrite queueOf_push. case_decide as Hid; [intros _|].
    + subst id. destruct (decide (dpid job ∈ workers_ d)) as [Hin|Hout].
      * apply Hw in Hin. apply list_elem_of_fmap in Hin as ([id' ph] & -> & Hin). cbn in *. exists ph.
        split; [by apply Hsub|]. intros ->. by eapply Hx.
      * exists Waiting. split; [|done]. cbn [threads pushJob]. rewrite decide_False by done. set_solver.
    + intros Hne. destruct (Hl id Hne) as (ph & Hin & ?). eauto.
  - intros _. split.
    + intros id. cbn [threads workers_ pushJob]. case_decide as Hin; [rewrite <- Hw; set_solver|]. rewrite fmap_app, elem_of_app, <- Hw. set_solver.
    + intros id. cbn [threads workers_ pushJob]. case_decide; [apply Hx|]. rewrite elem_of_app, list_elem_of_singleton. intros [?|?]; [by eapply Hx|done].
Qed.

Lemma pushJobs_inv acc sent d jobs :
  running_ d = true -> inv acc sent d -> inv (acc ++ jobs) sent (foldl pushJob d jobs).
Proof.
  revert acc d. induction jobs as [|j jobs IH]; intros acc d Hrun Hi; cbn [foldl]; [by rewrite app_nil_r|].
  replace (acc ++ j :: jobs) with ((acc ++ [j]) ++ jobs) by (by rewrite <- app_assoc).
  apply IH; [done|]. by apply pushJob_inv.
Qed.

Lemma stop_inv acc sent d : inv acc sent d -> inv acc sent (stop d).
Proof. intros [Hf Hn Hq Hb Hl Hr]. by split. Qed.

Lemma noteDropped_inv acc sent n d : running_ d = false -> inv acc sent d -> inv acc sent (noteDropped_ n d).
Proof. intros Hrun [Hf Hn Hq Hb Hl Hr]. by split. Qed.

(** A thread changing phase within its switch, with the queue fixed. *)
Lemma setThread_inv acc acc' sent sent' d i id ph ph' :
  inv acc sent d -> threads d !! i = Some (id, ph) -> ph' <> Exited -> ph <> Exited ->
  (forall b, ph' = Sending b -> Forall (fun j => dpid j = id) b) ->
  (forall id', forSwitch id' acc' = forSwitch id' sent' ++ flights (<[i := (id, ph')]> (threads d)) id' ++ queueOf d id') ->
  inv acc' sent' (setThread i (id, ph') d).
Proof.
  intros [Hf Hn Hq Hb Hl Hr] Hi He' He Hb' Hf'. split; cbn; [exact Hf'|by rewrite (insert_fst _ _ _ _ _ Hi)|done| | |].
  - intros id0 b [[= -> <-]|Hin]%elem_insert_thread; [by apply Hb'|by apply Hb].
  - intros id0 Hne. destruct (Hl id0 Hne) as (p & [j Hj]%list_elem_of_lookup & Hp).
    destruct (decide (j = i)) as [->|Hji].
    + rewrite Hi in Hj. injection Hj as <- <-. exists ph'. split; [|done].
      eapply list_elem_of_lookup_2. rewrite list_lookup_insert_eq; [done|]. by eapply lookup_lt_Some.
    + exists p. split; [|done]. eapply list_elem_of_lookup_2. by rewrite list_lookup_insert_ne by done.
  - intros Hrun. destruct (Hr Hrun) as [Hw Hx]. rewrite (insert_fst _ _ _ _ _ Hi). split; [done|].
    intros id0 [[= -> ?]|Hin]%elem_insert_thread; [congruence|by eapply Hx].
Qed.

Lemma queueOf_set d i t id q id' :
  queueOf (setThread i t (setQueue id q d)) id' = if decide (id' = id) then q else queueOf d id'.
Proof. unfold queueOf, setThread, setQueue. cbn. rewrite lookup_insert. by repeat case_decide; simplify_eq/=. Qed.

(** A worker taking a burst moves jobs from the front of its queue into flight. *)
Lemma take_inv acc sent d n i id :
  inv acc sent d -> threads d !! i = Some (id, Waiting) ->
  inv acc sent (setThread i (id, Sending (take n (queueOf d id))) (setQueue id (drop n (queueOf d id)) d)).
Proof.
  intros [Hf Hn Hq Hb Hl Hr] Hi. split; cbn [threads setThread setQueue running_ workers_].
  - intros id'. rewrite queueOf_set.
    destruct (flights_insert (threads d) i id Waiting (Sending (take n (queueOf d id))) id' Hn Hi) as [Hw ->].
    rewrite Hf. case_decide; [subst|done]. rewrite Hw. cbn [burstOf app]. by rewrite take_drop.
  - by rewrite (insert_fst _ _ _ _ _ Hi).
  - intros id'. rewrite queueOf_set. case_decide; [subst|done]. by apply Forall_drop.
  - intros id' b [[= -> ->]|Hin]%elem_insert_thread; [by apply Forall_take|by apply Hb].
  - intros id'. rewrite queueOf_set. case_decide as Hid; [subst|]; intros Hne.
    + exists (Sending (take n (queueOf d id))). split; [|done].
      eapply list_elem_of_lookup_2. rewrite list_lookup_insert_eq; [done|]. by eapply lookup_lt_Some.
    + destruct (Hl id' Hne) as (p & [j Hj]%list_elem_of_lookup & Hp). exists p. split; [|done].
      eapply list_elem_of_lookup_2. rewrite list_lookup_insert_ne; [done|]. intros ->. congruence.
  - intros Hrun. destruct (Hr Hrun) as [Hw Hx]. rewrite (insert_fst _ _ _ _ _ Hi). split; [done|].
    intros id0 [[= ->]|Hin]%elem_insert_thread; by eapply Hx.
Qed.

(** A worker of a stopped dispatcher exits once its queue is empty. *)
Lemma exit_inv acc sent d i id :
  inv acc sent d -> threads d !! i = Some (id, Waiting) -> running_ d = false -> queueOf d id = [] ->
  inv acc sent (setThread i (id, Exited) d).
Proof.
  intros [Hf Hn Hq Hb Hl Hr] Hi Hrun He. split; cbn [threads setThread running_ workers_]; [|by rewrite (insert_fst _ _ _ _ _ Hi)|done| | |congruence].
  - intros id'. destruct (flights_insert (threads d) i id Waiting Exited id' Hn Hi) as [Hw ->].
    change (queueOf (setThread i (id, Exited) d) id') with (queueOf d id').
    rewrite Hf. case_decide; [subst|done]. by rewrite Hw.
  - intros id' b [[= ]|Hin]%elem_insert_thread. by apply Hb.
  - intros id' Hne. change (queueOf (setThread i (id, Exited) d) id') with (queueOf d id') in Hne.
    destruct (Hl id' Hne) as (p & [j Hj]%list_elem_of_lookup & Hp). exists p. split; [|done].
    eapply list_elem_of_lookup_2. rewrite list_lookup_insert_ne; [done|]. intros ->. congruence.
Qed.

Lemma step_inv n acc sent d l d' :
  inv acc sent d -> step n d l d' -> inv (acc ++ acceptedJobs [l]) (sent ++ sentJobs [l]) d'.
Proof.
  intros Hi Hs. destruct Hs as [d|d jobs|d i id Hth Hc|d i id burst Hth Hne|d i id Hth];
    unfold acceptedJobs, sentJobs; cbn [fmap list_fmap concat app]; rewrite ?app_nil_r.
  - by apply stop_inv.
  - unfold enqueue. destruct (running_ d) eqn:Hrun; cbn [app]; rewrite ?app_nil_r.
    + by apply pushJobs_inv.
    + by apply noteDropped_inv.
  - unfold workerTake. destruct (queueOf d id) as [|j q] eqn:Eq, (running_ d) eqn:Hrun.
    + unfold canTake in Hc. by rewrite Hrun, bool_decide_true in Hc.
    + by apply exit_inv.
    + rewrite <- Eq. by apply take_inv.
    + rewrite <- Eq. by apply take_inv.
  - destruct (flights_insert (threads d) i id (Sending burst) Waiting id (inv_nodup _ _ _ Hi) Hth) as [Hfl _].
    pose proof (inv_burst _ _ _ Hi id burst (list_elem_of_lookup_2 _ _ _ Hth)) as Hb.
    eapply setThread_inv; [exact Hi|exact Hth|done|done|done|]. intros id'.
    destruct (flights_insert (threads d) i id (Sending burst) Waiting id' (inv_nodup _ _ _ Hi) Hth) as [_ ->].
    rewrite (inv_fifo _ _ _ Hi), forSwitch_app. case_decide as Hid.
    + subst. rewrite Hfl, (forSwitch_same _ _ Hb). cbn [burstOf app]. by rewrite <- app_assoc.
    + rewrite (forSwitch_other _ _ _ Hb Hid). by rewrite app_nil_r.
  - eapply setThread_inv; [exact Hi|exact Hth|done|done|done|]. intros id'.
    destruct (flights_insert (threads d) i id (Sending []) Waiting id' (inv_nodup _ _ _ Hi) Hth) as [Hfl ->].
    rewrite (inv_fifo _ _ _ Hi). case_decide; [subst|done]. by rewrite Hfl.
Qed.

Lemma runs_inv n tr d : runs n tr d -> inv (acceptedJobs tr) (sentJobs tr) d.
Proof.
  induction 1 as [|tr d l d' Hr IH Hs].
  - split; try done; cbn; try (by intros; apply NoDup_nil_2); intros; try set_solver.
  - replace (acceptedJobs (tr ++ [l])) with (acceptedJobs tr ++ acceptedJobs [l])
      by (unfold acceptedJobs; by rewrite fmap_app, concat_app).
    replace (sentJobs (tr ++ [l])) with (sentJobs tr ++ sentJobs [l])
      by (unfold sentJobs; by rewrite fmap_app, concat_app).
    by eapply step_inv.
Qed.

(** C5: per-switch FIFO delivery.  In every interleaving of clients and workers, for every switch,
    the jobs accepted for it are exactly, in order, those handed to the sender, then the burst its
    worker holds, then its queue: nothing is lost, duplicated or reordered. *)
Theorem dispatcher_fifo n tr d id :
  runs n tr d ->
  forSwitch id (acceptedJobs tr) = forSwitch id (sentJobs tr) ++ inFlight d id ++ queueOf d id.
Proof. intros Hr. rewrite inFlight_flights. apply (runs_inv n tr d Hr). Qed.

(** * Draining *)

#[export] Instance exited_dec (t : Z * Phase) : Decision (t.2 = Exited).
Proof. destruct t as [? []]; cbn; [by right|by right|by left]. Defined.

Definition allExited (d : FlowDispatcher) : Prop := Forall (fun t => t.2 = Exited) (threads d).

Lemma exited_delivered acc sent d id :
  inv acc sent d -> allExited d -> forSwitch id acc = forSwitch id sent.
Proof.
  intros Hi He. rewrite (inv_fifo _ _ _ Hi). unfold allExited in He. rewrite Forall_forall in He.
  assert (queueOf d id = []) as ->.
  { destruct (queueOf d id) eqn:E; [done|]. destruct (inv_live _ _ _ Hi id) as (ph & Hin & Hph); [by rewrite E|].
    by destruct Hph; apply (He _ Hin). }
  assert (flights (threads d) id = []) as ->; [|by rewrite !app_nil_r].
  clear Hi. induction (threads d) as [|[id' ph] ts IH]; [done|]. unfold flights in *. rewrite fmap_cons. cbn [concat fst snd].
  rewrite IH by set_solver. specialize (He (id', ph) ltac:(set_solver)). cbn in He. subst. by case_decide.
Qed.

(** [stop] loses nothing.  Once the dispatcher is stopped and its workers have finished, which
    is what the joins in [stop] wait for, every job ever accepted has been handed to the sender,
    in order, for every switch. *)
Theorem stopped_dispatcher_delivered n tr d id :
  runs n tr d -> allExited d -> forSwitch id (acceptedJobs tr) = forSwitch id (sentJobs tr).
Proof. intros Hr. apply exited_delivered, (runs_inv n tr d Hr). Qed.

(** Work left for one thread of a stopped dispatcher. *)
Definition weight (d : FlowDispatcher) (t : Z * Phase) : nat :=
  match t.2 with
  | Exited => 0
  | Waiting => 1 + 2 * length (queueOf d t.1)
  | Sending _ => 2 + 2 * length (queueOf d t.1)
  end.

Definition work (d : FlowDispatcher) : nat := sum_list (weight d <$> threads d).

Lemma sum_list_insert (l : list nat) i x y :
  l !! i = Some x -> (sum_list (<[i := y]> l) + x = sum_list l + y)%nat.
Proof.
  revert i. induction l as [|z l IH]; intros [|i] H; simpl in *; simplify_eq; unfold id in *; [lia|].
  specialize (IH _ H). unfold insert in *. lia.
Qed.

(** Only the thread that moves changes its weight. *)
Lemma work_setThread d d' i id ph ph' :
  NoDup (threads d).*1 -> threads d !! i = Some (id, ph) -> threads d' = <[i := (id, ph')]> (threads d) ->
  (forall id', id' <> id -> queueOf d' id' = queueOf d id') ->
  (work d' + weight d (id, ph) = work d + weight d' (id, ph'))%nat.
Proof.
  intros Hn Hi Ht Hq. unfold work. rewrite Ht.
  assert (weight d' <$> <[i := (id, ph')]> (threads d) = <[i := weight d' (id, ph')]> (weight d <$> threads d)) as ->.
  { apply list_eq. intros j. rewrite list_lookup_fmap. destruct (decide (j = i)) as [->|Hj].
    - rewrite !list_lookup_insert_eq; [done|rewrite length_fmap|]; by eapply lookup_lt_Some.
    - rewrite !list_lookup_insert_ne, list_lookup_fmap by done. destruct (threads d !! j) as [[id' p]|] eqn:Ej; [|done].
      cbn. f_equal. unfold weight. cbn. rewrite Hq; [done|]. intros ->. apply Hj.
      eapply (NoDup_lookup _ j i id Hn); by rewrite list_lookup_fmap, ?Ej, ?Hi. }
  apply sum_list_insert. by rewrite list_lookup_fmap, Hi.
Qed.

Lemma worker_progress n acc sent d :
  (0 < n)%nat -> inv acc sent d -> running_ d = false -> ~ allExited d ->
  exists l d', step n d l d' /\ running_ d' = false /\ (work d' < work d)%nat.
Proof.
  intros Hpos Hi Hrun Hne. pose proof (inv_nodup _ _ _ Hi) as Hn.
  assert (exists i id ph, threads d !! i = Some (id, ph) /\ ph <> Exited) as (i & id & ph & Hth & Hph).
  { destruct (Forall_Exists_dec (fun t : Z * Phase => t.2 = Exited) (fun t => t.2 <> Exited)
                (fun t => exited_dec t) (threads d)) as [HF|HE]; [done|].
    apply Exists_exists in HE as ([id ph] & [i Hth]%list_elem_of_lookup & Hph). eauto. }
  destruct ph as [|[|j b]|]; [| | |done].
  - destruct (queueOf d id) as [|j q] eqn:Eq.
    + exists Tau, (workerTake n i id d). split; [by apply step_take; [done|unfold canTake; rewrite Hrun]|].
      unfold workerTake. rewrite Eq, Hrun. split; [done|].
      pose proof (work_setThread d (setThread i (id, Exited) d) i id Waiting Exited Hn Hth eq_refl (fun _ _ => eq_refl)) as H.
      unfold weight in H. cbn [fst snd] in H. lia.
    + exists Tau, (workerTake n i id d). split; [by apply step_take; [done|unfold canTake; rewrite Hrun]|].
      unfold workerTake. rewrite Eq. split; [done|]. rewrite <- Eq.
      pose proof (work_setThread d (setThread i (id, Sending (take n (queueOf d id))) (setQueue id (drop n (queueOf d id)) d))
        i id Waiting (Sending (take n (queueOf d id))) Hn Hth eq_refl) as H.
      specialize (H ltac:(intros id' Hid; rewrite queueOf_set, decide_False by done; done)).
      unfold weight in H. cbn [fst snd] in H. rewrite queueOf_set, decide_True, length_drop in H by done.
      assert (length (queueOf d id) = S (length q)) as Hlen by (by rewrite Eq). lia.
  - exists Tau, (setThread i (id, Waiting) d). split; [by apply step_skip|]. split; [done|].
    pose proof (work_setThread d (setThread i (id, Waiting) d) i id (Sending []) Waiting Hn Hth eq_refl (fun _ _ => eq_refl)) as H.
    unfold weight in H. cbn [fst snd] in H. change (queueOf (setThread i (id, Waiting) d) id) with (queueOf d id) in H. lia.
  - exists (Sent (j :: b)), (setThread i (id, Waiting) d). split; [by apply step_send|]. split; [done|].
    pose proof (work_setThread d (setThread i (id, Waiting) d) i id (Sending (j :: b)) Waiting Hn Hth eq_refl (fun _ _ => eq_refl)) as H.
    unfold weight in H. cbn [fst snd] in H. change (queueOf (setThread i (id, Waiting) d) id) with (queueOf d id) in H. lia.
Qed.

(** A stopped dispatcher terminates.  With a positive burst size, from every reachable stopped
    state some sequence of at most [work d] worker steps finishes all workers, with every accepted
    job delivered in order: no lost wake-up, no worker stuck with jobs in its queue. *)
Theorem stop_drains n tr d :
  (0 < n)%nat -> runs n tr d -> running_ d = false ->
  exists tr' d', runs n (tr ++ tr') d' /\ (length tr' <= work d)%nat /\ allExited d' /\
    forall id, forSwitch id (acceptedJobs (tr ++ tr')) = forSwitch id (sentJobs (tr ++ tr')).
Proof.
  intros Hpos. remember (work d) as w eqn:Hw. assert (work d <= w)%nat as Hle by lia. clear Hw. revert tr d Hle.
  induction w as [w IH] using lt_wf_ind. intros tr d Hle Hr Hrun. pose proof (runs_inv n tr d Hr) as Hi.
  destruct (decide (Forall (fun t => t.2 = Exited) (threads d))) as [He|Hne].
  - exists [], d. rewrite app_nil_r. split_and!; [done|cbn; lia|done|]. intros id. by apply (exited_delivered _ _ d).
  - destruct (worker_progress n _ _ d Hpos Hi Hrun Hne) as (l & d1 & Hs & Hrun1 & Hlt).
    destruct (IH (work d1) ltac:(lia) (tr ++ [l]) d1) as (tr' & d' & Hr' & Hlen & He & Hd);
      [done|by eapply runs_step|done|].
    exists (l :: tr'), d'. rewrite <- app_assoc in Hr', Hd. cbn [app] in Hr', Hd. split_and!; [done|cbn; lia|done|done].
Qed.

(** * Sample runs *)

Definition sampleJob (id prio : Z) : FlowJob := Build_FlowJob id Install prio (JObject []) (JArray []) 0.

Definition sampleJobs : list FlowJob := [sampleJob 1 10; sampleJob 2 10; sampleJob 1 20].

(** Three jobs for two switches, bursts of one, stopped after the first was sent. *)
Definition stoppedDispatcher : FlowDispatcher :=
  stop (setThread 0 (1, Waiting) (workerTake 1 0 1 (enqueue sampleJobs (start newDispatcher)))).

Definition stoppedTrace : list Label :=
  [Started; Accepted sampleJobs; Tau; Sent [sampleJob 1 10]; Stopped].

Lemma stoppedDispatcher_runs : runs 1 stoppedTrace stoppedDispatcher.
Proof.
  eapply (runs_step 1 [Started; Accepted sampleJobs; Tau; Sent [sampleJob 1 10]] _ Stopped); [|apply step_stop].
  eapply (runs_step 1 [Started; Accepted sampleJobs; Tau] _ (Sent [sampleJob 1 10])); [|eapply (step_send _ _ 0 1); [reflexivity|done]].
  eapply (runs_step 1 [Started; Accepted sampleJobs] _ Tau); [|eapply (step_take _ _ 0 1); reflexivity].
  eapply (runs_step 1 [Started] _ (Accepted sampleJobs)); [constructor|]. apply (step_enqueue 1 (start newDispatcher)).
Qed.

Lemma dispatcher_fifo_witness :
  forSwitch 1 (acceptedJobs stoppedTrace) = [sampleJob 1 10; sampleJob 1 20] /\
  forSwitch 1 (sentJobs stoppedTrace) ++ inFlight stoppedDispatcher 1 ++ queueOf stoppedDispatcher 1 =
  [sampleJob 1 10; sampleJob 1 20].
Proof.
  split; [vm_compute; reflexivity|].
  rewrite <- (dispatcher_fifo 1 stoppedTrace stoppedDispatcher 1 stoppedDispatcher_runs). vm_compute. reflexivity.
Defined.

Lemma stop_drains_witness :
  exists tr' d', runs 1 (stoppedTrace ++ tr') d' /\ allExited d' /\
    forSwitch 1 (sentJobs (stoppedTrace ++ tr')) = forSwitch 1 (acceptedJobs (stoppedTrace ++ tr')).
Proof.
  destruct (stop_drains 1 stoppedTrace stoppedDispatcher ltac:(lia) stoppedDispatcher_runs eq_refl)
    as (tr' & d' & Hr & _ & He & Hd).
  exists tr', d'. split; [exact Hr|]. split; [exact He|]. symmetry. exact (Hd 1).
Defined.

(** One job that arrives before the stop and is sent after it. *)
Definition finishedTrace : list Label :=
  [Started; Accepted [sampleJob 7 1]; Stopped; Tau; Sent [sampleJob 7 1]; Tau].

Definition finishedDispatcher : FlowDispatcher :=
  workerTake 5 0 7 (setThread 0 (7, Waiting) (workerTake 5 0 7 (stop (enqueue [sampleJob 7 1] (start newDispatcher))))).

Lemma finishedDispatcher_runs : runs 5 finishedTrace finishedDispatcher.
Proof.
  eapply (runs_step 5 [Started; Accepted [sampleJob 7 1]; Stopped; Tau; Sent [sampleJob 7 1]] _ Tau);
    [|eapply (step_take _ _ 0 7); reflexivity].
  eapply (runs_step 5 [Started; Accepted [sampleJob 7 1]; Stopped; Tau] _ (Sent [sampleJob 7 1]));
    [|eapply (step_send _ _ 0 7); [reflexivity|done]].
  eapply (runs_step 5 [Started; Accepted [sampleJob 7 1]; Stopped] _ Tau); [|eapply (step_take _ _ 0 7); reflexivity].
  eapply (runs_step 5 [Started; Accepted [sampleJob 7 1]] _ Stopped); [|apply step_stop].
  eapply (runs_step 5 [Started] _ (Accepted [sampleJob 7 1])); [constructor|]. apply (step_enqueue 5 (start newDispatcher)).
Qed.

Lemma stopped_dispatcher_delivered_witness :
  allExited finishedDispatcher /\
  forSwitch 7 (acceptedJobs finishedTrace) = forSwitch 7 (sentJobs finishedTrace).
Proof.
  assert (allExited finishedDispatcher) as He by (repeat constructor).
  split; [exact He|]. exact (stopped_dispatcher_delivered 5 finishedTrace finishedDispatcher 7 finishedDispatcher_runs He).
Defined.

(** * Batches *)

Lemma partitionLoop_eq known jobs out :
  let r := partitionLoop known jobs out in
  accepted r = accepted out ++ filter (fun j => known (dpid j) = true) jobs /\
  unknownDpids r = unknownDpids out ++ (dpid <$> filter (fun j => known (dpid j) = false) jobs) /\
  rejectedEntries r = rejectedEntries out + Z.of_nat (length (filter (fun j => known (dpid j) = false) jobs)).
Proof.
  revert out. induction jobs as [|j jobs IH]; intros out; cbn [partitionLoop].
  { cbn. rewrite !app_nil_r. split_and!; [done|done|lia]. }
  cbn zeta. rewrite !filter_cons.
  destruct (known (dpid j)) eqn:E.
  - destruct (IH {| accepted := accepted out ++ [j]; unknownDpids := unknownDpids out; rejectedEntries := rejectedEntries out |})
      as (H1 & H2 & H3). rewrite H1, H2, H3. cbn [accepted unknownDpids rejectedEntries].
    rewrite decide_True, decide_False by done. split_and!; [by rewrite <- app_assoc|done|done].
  - destruct (IH {| accepted := accepted out; unknownDpids := unknownDpids out ++ [dpid j]; rejectedEntries := rejectedEntries out + 1 |})
      as (H1 & H2 & H3). rewrite H1, H2, H3. cbn [accepted unknownDpids rejectedEntries].
    rewrite decide_False, decide_True by done. rewrite fmap_cons. cbn [length].
    split_and!; [done|by rewrite <- app_assoc|lia].
Qed.

Lemma uniqueZ_spec l :
  StronglySorted Z.le l -> StronglySorted Z.lt (uniqueZ l) /\ forall x, x ∈ uniqueZ l <-> x ∈ l.
Proof.
  induction l as [|x [|y l] IH]; intros Hs; cbn [uniqueZ]; [by split; [constructor|]|split; [by repeat constructor|done]|].
  apply StronglySorted_inv in Hs as [Hs HF]. destruct (IH Hs) as [IH1 IH2]. case_bool_decide as He.
  - subst. split; [done|]. intros z. rewrite IH2. set_solver.
  - split; [|intros z; rewrite !elem_of_cons, IH2; set_solver]. constructor; [done|].
    apply Forall_forall. intros z Hz. apply IH2 in Hz. rewrite Forall_forall in HF.
    pose proof (HF z Hz) as Hxz. apply StronglySorted_inv in Hs as [_ HF']. rewrite Forall_forall in HF'.
    pose proof (HF y ltac:(set_solver)). apply elem_of_cons in Hz as [->|Hz]; [lia|]. specialize (HF' z Hz). lia.
Qed.

(** Partitioning a batch.  The accepted jobs are those for known switches, in their original
    order; the rejected ones are counted one by one, and the unknown switches are listed in
    ascending order, each once, and only those. *)
Theorem partition_batch_correct jobs known :
  let r := partitionFlowBatchByKnownDpid jobs known in
  accepted r = filter (fun j => known (dpid j) = true) jobs /\
  Z.of_nat (length (accepted r)) + rejectedEntries r = Z.of_nat (length jobs) /\
  StronglySorted Z.lt (unknownDpids r) /\
  forall id, id ∈ unknownDpids r <-> exists j, j ∈ jobs /\ dpid j = id /\ known id = false.
Proof.
  cbn zeta. unfold partitionFlowBatchByKnownDpid.
  destruct (partitionLoop_eq known jobs {| accepted := []; unknownDpids := []; rejectedEntries := 0 |}) as (H1 & H2 & H3).
  cbn [accepted unknownDpids rejectedEntries app] in *. rewrite H1, H2, H3.
  set (bad := dpid <$> filter (fun j => known (dpid j) = false) jobs).
  destruct (uniqueZ_spec (merge_sort Z.le bad)) as [Hs Hin]; [apply StronglySorted_merge_sort; apply _|].
  split_and!; [done| |done|].
  - clear. induction jobs as [|j jobs IH]; [done|]. rewrite !filter_cons.
    destruct (known (dpid j)); [rewrite decide_True, decide_False by done|rewrite decide_False, decide_True by done];
      cbn [length]; lia.
  - intros id. rewrite Hin, merge_sort_Permutation. unfold bad. rewrite list_elem_of_fmap. setoid_rewrite list_elem_of_filter.
    split; [intros (j & -> & ? & ?); eauto|]. intros (j & ? & <- & ?). eauto.
Qed.

(** The shape check accepts exactly the entries that can become a job: JSON objects whose
    [dpid] is a non-negative integer and which, unless they delete, say what to do ([actions] may
    be empty). *)
Theorem entry_shape_accepts entry op :
  describeFlowEntryShapeProblem entry op = "" <->
  (exists l, entry = JObject l) /\
  (exists v, jfind entry "dpid" = Some v /\
     ((exists n, v = JUnsigned n) \/ (exists z, v = JInteger z /\ 0 <= i64 z))) /\
  (op = Delete \/ contains entry "actions" = true).
Proof.
  unfold describeFlowEntryShapeProblem.
  destruct (is_object entry) eqn:Eo; cbn [negb]; [|split; [done|intros ((l & ->) & _); done]].
  destruct entry as [| | | | | | |l]; try done. destruct (jfind (JObject l) "dpid") as [v|]; [|split; [done|naive_solver]].
  assert (is_number_unsigned v || (is_number_integer v &&
            match get_i64 v with Ret z => bool_decide (0 <= z) | Throw _ => false end) = true <->
          (exists n, v = JUnsigned n) \/ (exists z, v = JInteger z /\ 0 <= i64 z)) as Hv.
  { destruct v; cbn; rewrite ?bool_decide_eq_true; naive_solver. }
  destruct (is_number_unsigned v || _) eqn:En; cbn [negb].
  - destruct (bool_decide_reflect (op = Delete)); cbn [negb andb].
    + split; [|done]. intros _. split_and!; [eauto|exists v; split; [done|by apply Hv]|by left].
    + destruct (contains (JObject l) "actions"); cbn [negb].
      * split; [|done]. intros _. split_and!; [eauto|exists v; split; [done|by apply Hv]|by right].
      * split; [done|]. intros (_ & _ & [?|?]); done.
  - split; [done|]. intros (_ & (v' & [= <-] & Hv') & _). apply Hv in Hv'. done.
Qed.
