(* ===== verification/GraphTypes.v ===== *)
(** The topology graph (include/common_types/GraphTypes.hpp): switches and hosts, directed links
    and their state.

    The Boost [adjacency_list<setS, vecS, directedS>] is a list of vertices, whose positions are
    the vertex descriptors, and a finite map from (source, target) to the link, since [setS] keeps
    at most one edge per pair.  [boost::edges] visits sources in order and the targets of a source
    in order.  A [double] is an IEEE binary64 value of the Standard Library's [spec_float]. *)

From S2P Require Import Prelude CStrings Json SFlowTypes.
From Stdlib Require Import SpecFloat.
From Stdlib Require Import Ascii.
Local Open Scope string_scope.
Local Open Scope list_scope.
Local Open Scope Z_scope.

(** * Floating point *)

Definition f64_of_Z (z : Z) : spec_float := binary_normalize 53 1024 z 0 false.
Definition f64_mul : spec_float -> spec_float -> spec_float := SFmul 53 1024.
Definition f64_div : spec_float -> spec_float -> spec_float := SFdiv 53 1024.
Definition f64_sub : spec_float -> spec_float -> spec_float := SFsub 53 1024.
Definition f64_gt (x y : spec_float) : bool := SFltb y x.

(** [static_cast<uint64_t>] of a double: truncation when the result fits, undefined otherwise. *)
Definition f64_to_u64 (x : spec_float) : option Z :=
  match x with
  | S754_zero _ => Some 0
  | S754_finite s m e =>
      let t := trunc_float (if s then Z.neg m else Z.pos m) e in
      if bool_decide (0 <= t < 2 ^ 64) then Some t else None
  | _ => None
  end.

(** * Vertices *)

(** An [enum class] over [int]: the loader casts any integer to it. *)
Inductive VertexType := SWITCH | HOST | OtherVertexType (n : Z).
#[export] Instance VertexType_eq_dec : EqDecision VertexType.
Proof. solve_decision. Defined.

Definition vertexTypeOfInt (n : Z) : VertexType :=
  if bool_decide (n = 0) then SWITCH else if bool_decide (n = 1) then HOST else OtherVertexType n.

Inductive SwitchKind := OVS | BMV2 | HARDWARE.
#[export] Instance SwitchKind_eq_dec : EqDecision SwitchKind.
Proof. solve_decision. Defined.

Definition switchKindFromBrandName (brandName : string) : SwitchKind :=
  if bool_decide (brandName = "BMv2") then BMV2
  else if bool_decide (brandName = "OVS") then OVS else HARDWARE.

Definition to_lower_char (c : ascii) : ascii :=
  let n := code c in
  if bool_decide (65 <= n <= 90) then ascii_of_N (Z.to_N (n + 32)) else c.

Definition switchKindFromString (s : string) : outcome SwitchKind :=
  let s := map_string to_lower_char s in
  if bool_decide (s = "ovs") then Ret OVS
  else if bool_decide (s = "bmv2") || bool_decide (s = "p4") then Ret BMV2
  else if bool_decide (s = "hardware") then Ret HARDWARE
  else Throw InvalidArgument.

Definition switchKindToString (kind : SwitchKind) : string :=
  match kind with OVS => "ovs" | BMV2 => "bmv2" | HARDWARE => "hardware" end.

Record PortMember := { portId : Z }.
Inductive EcmpMember := EcmpPort (m : PortMember).
Record EcmpGroup := { members : list EcmpMember }.

Record VertexProperties := {
  vertexType : VertexType; mac : Z; ip : list Z; v_dpid : Z;
  v_isUp : bool; v_isEnabled : bool; v_adminDisabled : bool;
  deviceName : string; nickName : string; bridgeNameForMininet : string; brandName : string;
  switchKind : SwitchKind; deviceLayer : Z; smartPlugIp : string; smartPlugOutlet : Z;
  bridgeConnectedPortsForMininet : list string; ecmpGroups : list EcmpGroup
}.

Definition isUsableVertex (v : VertexProperties) : bool :=
  v_isUp v && v_isEnabled v && negb (v_adminDisabled v).

(** * Edges *)

Definition MININET_INTERFACE_SPEED : Z := 1000000000.

Record EdgeProperties := {
  e_isUp : bool; e_isEnabled : bool; e_adminDisabled : bool;
  leftBandwidth : Z; linkBandwidth : Z; linkBandwidthUsage : Z; linkBandwidthUtilization : spec_float;
  leftBandwidthFromFlowSample : Z;
  e_srcIp : list Z; srcDpid : Z; srcInterface : Z;
  e_dstIp : list Z; dstDpid : Z; e_dstInterface : Z;
  flowSet : gmap FlowKey Z
}.

Definition isUsableEdge (e : EdgeProperties) : bool :=
  e_isUp e && e_isEnabled e && negb (e_adminDisabled e).

(** * Graph *)

Abbreviation EdgeDesc := (nat * nat)%type.

Record Graph := { vertices : list VertexProperties; edges : gmap EdgeDesc EdgeProperties }.

Definition emptyGraph : Graph := {| vertices := []; edges := ∅ |}.

(** [boost::add_vertex]: the new descriptor is the former number of vertices. *)
Definition add_vertex (vp : VertexProperties) (g : Graph) : Graph :=
  {| vertices := vertices g ++ [vp]; edges := edges g |}.

(** [boost::add_edge]: an edge between the same two vertices is kept as it is. *)
Definition add_edge (u v : nat) (ep : EdgeProperties) (g : Graph) : Graph :=
  match edges g !! (u, v) with
  | Some _ => g
  | None => {| vertices := vertices g; edges := <[(u, v) := ep]> (edges g) |}
  end.

(** [boost::edge(u, v, g)]. *)
Definition edge (u v : nat) (g : Graph) : option EdgeProperties := edges g !! (u, v).

Definition edgeLe (x y : EdgeDesc * EdgeProperties) : Prop :=
  (x.1.1 < y.1.1)%nat \/ (x.1.1 = y.1.1 /\ (x.1.2 <= y.1.2)%nat).
#[export] Instance edgeLe_dec : RelDecision edgeLe.
Proof. intros x y. unfold edgeLe. apply _. Defined.

(** [boost::edges]. *)
Definition edgesInOrder (g : Graph) : list (EdgeDesc * EdgeProperties) :=
  merge_sort edgeLe (map_to_list (edges g)).

(** [boost::out_edges(u, g)]. *)
Definition out_edges (u : nat) (g : Graph) : list (EdgeDesc * EdgeProperties) :=
  filter (fun x => x.1.1 = u) (edgesInOrder g).

(** The first edge, in visiting order, that satisfies a test. *)
Definition firstEdge (p : EdgeProperties -> bool) (g : Graph) : option EdgeDesc :=
  fst <$> head (filter (fun x => p x.2 = true) (edgesInOrder g)).

(** The first vertex that satisfies a test. *)
Definition firstVertex (p : VertexProperties -> bool) (g : Graph) : option nat :=
  fst <$> list_find (fun v => p v = true) (vertices g).

(** Updates through a descriptor. *)
Definition alterVertex (f : VertexProperties -> VertexProperties) (v : nat) (g : Graph) : Graph :=
  {| vertices := alter f v (vertices g); edges := edges g |}.

Definition alterEdge (f : EdgeProperties -> EdgeProperties) (e : EdgeDesc) (g : Graph) : Graph :=
  {| vertices := vertices g; edges := alter f e (edges g) |}.

(** * Finding edges and vertices *)

Definition descLe (k k' : EdgeDesc) : Prop := (k.1 < k'.1)%nat \/ (k.1 = k'.1 /\ (k.2 <= k'.2)%nat).

Lemma descLe_antisymm k k' : descLe k k' -> descLe k' k -> k = k'.
Proof. destruct k, k'. unfold descLe. cbn. intros. f_equal; lia. Qed.

#[export] Instance edgeLe_trans : Transitive edgeLe.
Proof. intros [[] ?] [[] ?] [[] ?]. unfold edgeLe. cbn. lia. Qed.
#[export] Instance edgeLe_total : Total edgeLe.
Proof. intros [[] ?] [[] ?]. unfold edgeLe. cbn. lia. Qed.

Lemma elem_of_edgesInOrder g k e : (k, e) ∈ edgesInOrder g <-> edges g !! k = Some e.
Proof. unfold edgesInOrder. rewrite merge_sort_Permutation. apply elem_of_map_to_list. Qed.

Lemma edgesInOrder_sorted g : StronglySorted edgeLe (edgesInOrder g).
Proof. apply StronglySorted_merge_sort; apply _. Qed.

Lemma edgesInOrder_nodup g : NoDup (edgesInOrder g).*1.
Proof. unfold edgesInOrder. rewrite merge_sort_Permutation. apply NoDup_fst_map_to_list. Qed.

Lemma StronglySorted_filter_edges (P : EdgeDesc * EdgeProperties -> Prop) `{!forall x, Decision (P x)} l :
  StronglySorted edgeLe l -> StronglySorted edgeLe (filter P l).
Proof.
  induction 1 as [|x l Hl IH Hx]; [constructor|]. rewrite filter_cons. case_decide; [|done].
  constructor; [done|]. rewrite Forall_forall in *. intros y [_ Hy]%list_elem_of_filter. by apply Hx.
Qed.

(** [firstEdge] finds the smallest descriptor among the edges that pass the test. *)
Lemma firstEdge_Some p g k :
  firstEdge p g = Some k <->
  (exists e, edges g !! k = Some e /\ p e = true) /\
  forall k' e', edges g !! k' = Some e' -> p e' = true -> descLe k k'.
Proof.
  unfold firstEdge. set (l := filter _ _).
  assert (forall k e, (k, e) ∈ l <-> edges g !! k = Some e /\ p e = true) as Hl.
  { intros k' e'. subst l. rewrite list_elem_of_filter, elem_of_edgesInOrder. cbn. tauto. }
  assert (StronglySorted edgeLe l) as Hs by apply StronglySorted_filter_edges, edgesInOrder_sorted.
  destruct l as [|[k0 e0] l]; cbn.
  - split; [done|]. intros [(e & He) _]. by apply Hl, elem_of_nil in He.
  - assert (forall k' e', edges g !! k' = Some e' -> p e' = true -> descLe k0 k') as Hmin.
    { intros k' e' H1 H2. assert ((k', e') ∈ (k0, e0) :: l) as [[= -> ->]|Hin]%elem_of_cons by by apply Hl.
      - unfold descLe. lia.
      - inversion_clear Hs as [|? ? _ Hf]. rewrite Forall_forall in Hf. apply (Hf _ Hin). }
    assert (edges g !! k0 = Some e0 /\ p e0 = true) as [H1 H2] by (apply Hl, elem_of_cons; by left).
    split; [intros [= <-]; eauto|]. intros [(e & He & Hp) Hk]. f_equal.
    apply descLe_antisymm; eauto.
Qed.

Lemma firstEdge_None p g :
  firstEdge p g = None <-> forall k e, edges g !! k = Some e -> p e = false.
Proof.
  unfold firstEdge. set (l := filter _ _).
  assert (forall k e, (k, e) ∈ l <-> edges g !! k = Some e /\ p e = true) as Hl.
  { intros k' e'. subst l. rewrite list_elem_of_filter, elem_of_edgesInOrder. cbn. tauto. }
  destruct l as [|[k0 e0] l]; cbn.
  - split; [|done]. intros _ k e He. destruct (p e) eqn:Hp; [|done].
    by pose proof (proj2 (Hl k e) (conj He Hp)) as ?%elem_of_nil.
  - split; [done|]. intros H. assert (edges g !! k0 = Some e0 /\ p e0 = true) as [H1 H2] by (apply Hl, elem_of_cons; by left).
    by rewrite (H _ _ H1) in H2.
Qed.

(** The answer only depends on which edges pass the test. *)
Lemma firstEdge_ext p p' g g' :
  (forall k, (exists e, edges g !! k = Some e /\ p e = true) <-> (exists e, edges g' !! k = Some e /\ p' e = true)) ->
  firstEdge p g = firstEdge p' g'.
Proof.
  intros H. destruct (firstEdge p' g') as [k|] eqn:E.
  - apply firstEdge_Some in E as [He Hm]. apply firstEdge_Some. split; [by apply H|].
    intros k' e' H1 H2. destruct (proj1 (H k')) as (e & ? & ?); [by exists e'|]. by eapply Hm.
  - rewrite firstEdge_None in *. intros k e He. destruct (p e) eqn:Hp; [|done].
    destruct (proj1 (H k)) as (e' & He' & Hp'); [by exists e|]. by rewrite (E _ _ He') in Hp'.
Qed.

Lemma firstVertex_Some p g v :
  firstVertex p g = Some v <->
  (exists vp, vertices g !! v = Some vp /\ p vp = true) /\
  forall v' vp', vertices g !! v' = Some vp' -> p vp' = true -> (v <= v')%nat.
Proof.
  unfold firstVertex. destruct (list_find _ _) as [[i x]|] eqn:E; cbn.
  - apply list_find_Some in E as (Hi & Hp & Hlt). split.
    + intros [= ->]. split; [eauto|]. intros v' vp' H1 H2. destruct (decide (v' < v)%nat) as [Hv|]; [|lia].
      by destruct (Hlt _ _ H1 Hv).
    + intros [(vp & Hv & Hpv) Hm]. f_equal. pose proof (Hm _ _ Hi Hp). destruct (decide (v < i)%nat) as [Hvi|]; [|lia].
      by destruct (Hlt _ _ Hv Hvi).
  - apply list_find_None in E. split; [done|]. intros [(vp & Hv & Hpv) _]. rewrite Forall_forall in E.
    by destruct (E vp (list_elem_of_lookup_2 _ _ _ Hv)).
Qed.

Lemma firstVertex_None p g :
  firstVertex p g = None <-> forall v vp, vertices g !! v = Some vp -> p vp = false.
Proof.
  unfold firstVertex. rewrite fmap_None, list_find_None, Forall_lookup. split; intros H v vp Hv; specialize (H _ _ Hv).
  - by apply not_true_is_false.
  - by rewrite H.
Qed.

Lemma firstVertex_ext p p' g g' :
  (forall v, (exists x, vertices g !! v = Some x /\ p x = true) <-> (exists x, vertices g' !! v = Some x /\ p' x = true)) ->
  firstVertex p g = firstVertex p' g'.
Proof.
  intros H. destruct (firstVertex p' g') as [k|] eqn:E.
  - apply firstVertex_Some in E as [He Hm]. apply firstVertex_Some. split; [by apply H|].
    intros k' e' H1 H2. destruct (proj1 (H k')) as (e & ? & ?); [by exists e'|]. by eapply Hm.
  - rewrite firstVertex_None in *. intros k e He. destruct (p e) eqn:Hp; [|done].
    destruct (proj1 (H k)) as (e' & He' & Hp'); [by exists e|]. by rewrite (E _ _ He') in Hp'.
Qed.
