(* ===== verification/Topology.v ===== *)
(** The topology monitor (src/ndt_core/collection/TopologyAndFlowMonitor.cpp): loading the static
    topology, finding vertices and edges, applying what the control plane reports, administrative
    disabling, and the link and flow bookkeeping the collector drives.

    Taking the graph lock makes an operation one update of the state; the [...NoLock] twins have
    the same bodies and share the definition.  A poll is a sequence of such updates.  The contents
    of a file, the replies of the control plane and [json::parse] are arguments.  Reading the
    first element of an empty address vector is undefined; the model lets it match nothing. *)

From S2P Require Import Prelude Bytes CStrings NetUtils Json SFlowTypes GraphTypes.
From Stdlib Require Import SpecFloat.
Local Open Scope string_scope.
Local Open Scope list_scope.
Local Open Scope Z_scope.

Record Topology := {
  m_graph : Graph;
  m_dpidToSwitchKind : gmap Z SwitchKind;
  m_ryuUrl : list string;
  m_dpidToIpStrMap : gmap Z string;
  m_dpidStrToIpStrMap : gmap string string;
  m_ipStrToDpidMap : gmap string Z;
  m_ipStrToDpidStrMap : gmap string string;
  m_lastRateDivisorSeconds : spec_float
}.

Definition set_graph (g : Graph) (t : Topology) : Topology := {|
  m_graph := g; m_dpidToSwitchKind := m_dpidToSwitchKind t; m_ryuUrl := m_ryuUrl t;
  m_dpidToIpStrMap := m_dpidToIpStrMap t; m_dpidStrToIpStrMap := m_dpidStrToIpStrMap t;
  m_ipStrToDpidMap := m_ipStrToDpidMap t; m_ipStrToDpidStrMap := m_ipStrToDpidStrMap t;
  m_lastRateDivisorSeconds := m_lastRateDivisorSeconds t |}.

Definition set_kinds (k : gmap Z SwitchKind) (t : Topology) : Topology := {|
  m_graph := m_graph t; m_dpidToSwitchKind := k; m_ryuUrl := m_ryuUrl t;
  m_dpidToIpStrMap := m_dpidToIpStrMap t; m_dpidStrToIpStrMap := m_dpidStrToIpStrMap t;
  m_ipStrToDpidMap := m_ipStrToDpidMap t; m_ipStrToDpidStrMap := m_ipStrToDpidStrMap t;
  m_lastRateDivisorSeconds := m_lastRateDivisorSeconds t |}.

Definition set_urls (u : list string) (t : Topology) : Topology := {|
  m_graph := m_graph t; m_dpidToSwitchKind := m_dpidToSwitchKind t; m_ryuUrl := u;
  m_dpidToIpStrMap := m_dpidToIpStrMap t; m_dpidStrToIpStrMap := m_dpidStrToIpStrMap t;
  m_ipStrToDpidMap := m_ipStrToDpidMap t; m_ipStrToDpidStrMap := m_ipStrToDpidStrMap t;
  m_lastRateDivisorSeconds := m_lastRateDivisorSeconds t |}.

Definition set_divisor (d : spec_float) (t : Topology) : Topology := {|
  m_graph := m_graph t; m_dpidToSwitchKind := m_dpidToSwitchKind t; m_ryuUrl := m_ryuUrl t;
  m_dpidToIpStrMap := m_dpidToIpStrMap t; m_dpidStrToIpStrMap := m_dpidStrToIpStrMap t;
  m_ipStrToDpidMap := m_ipStrToDpidMap t; m_ipStrToDpidStrMap := m_ipStrToDpidStrMap t;
  m_lastRateDivisorSeconds := d |}.

Definition onGraph (f : Graph -> Graph) (t : Topology) : Topology := set_graph (f (m_graph t)) t.

(** The test [v.front() == x]. *)
Definition frontIs (x : Z) (v : list Z) : bool := bool_decide (head v = Some x).

(** * Finding vertices *)

Definition findVertexByIp (a : Z) (t : Topology) : option nat :=
  firstVertex (fun v => bool_decide (a ∈ ip v)) (m_graph t).

Definition isSwitch (v : VertexProperties) : bool := bool_decide (vertexType v = SWITCH).

Definition findSwitchByDpid (dpid : Z) (t : Topology) : option nat :=
  firstVertex (fun v => isSwitch v && bool_decide (v_dpid v = dpid)) (m_graph t).

Definition findSwitchByIp (a : Z) (t : Topology) : option nat :=
  firstVertex (fun v => isSwitch v && frontIs a (ip v)) (m_graph t).

Definition findVertexByMac (m : Z) (t : Topology) : option nat :=
  firstVertex (fun v => bool_decide (mac v = m)) (m_graph t).

Definition findVertexByMininetBridgeName (name : string) (t : Topology) : option nat :=
  firstVertex (fun v => bool_decide (bridgeNameForMininet v = name)) (m_graph t).

Definition findVertexByDeviceName (name : string) (t : Topology) : option nat :=
  firstVertex (fun v => bool_decide (deviceName v = name)) (m_graph t).

(** * Finding edges *)

(** The edge leaves this agent by this port. *)
Definition leavesAgent (key : Z * Z) (e : EdgeProperties) : bool :=
  frontIs key.1 (e_srcIp e) && bool_decide (srcInterface e = key.2).

Definition findEdgeByAgentIpAndPort (key : Z * Z) (t : Topology) : option EdgeDesc :=
  firstEdge (leavesAgent key) (m_graph t).

Definition findEdgeToHostByAgentIpAndPort (key : Z * Z) (t : Topology) : option EdgeDesc :=
  match firstEdge (leavesAgent key) (m_graph t) with
  | Some d =>
      match edges (m_graph t) !! d with
      | Some e => if bool_decide (dstDpid e = 0) then Some d else None
      | None => None
      end
  | None => None
  end.

(** The opposite direction of the link that leaves an agent by a port, and the failure recorded
    when the graph holds only one direction. *)
Definition findReverseEdgeByAgentIpAndPort (key : Z * Z) (t : Topology)
  : option EdgeDesc * option (string * string) :=
  match firstEdge (leavesAgent key) (m_graph t) with
  | Some (u, v) =>
      match edge v u (m_graph t) with
      | Some _ => (Some (v, u), None)
      | None =>
          (None, Some (ipToString key.1 +:+ ":" +:+ std_to_string key.2,
             "no reverse edge for this agent and port; the graph holds only one direction " +:+
             "of the link, so per-edge flow bookkeeping for it is skipped"))
      end
  | None => (None, None)
  end.

Definition getAgentKeyFromTheOtherSide (key : Z * Z) (t : Topology) : option (Z * Z) :=
  match firstEdge (fun e => frontIs key.1 (e_dstIp e) && bool_decide (e_dstInterface e = key.2)) (m_graph t) with
  | Some d =>
      match edges (m_graph t) !! d with
      | Some e => match head (e_srcIp e) with Some a => Some (a, srcInterface e) | None => None end
      | None => None
      end
  | None => None
  end.

Definition findEdgeByDpidAndPort (key : Z * Z) (t : Topology) : option EdgeDesc :=
  firstEdge (fun e => bool_decide (srcDpid e = key.1) && bool_decide (srcInterface e = key.2)) (m_graph t).

Definition findEdgeBySrcAndDstDpid (key : Z * Z) (t : Topology) : option EdgeDesc :=
  firstEdge (fun e => bool_decide (srcDpid e = key.1) && bool_decide (dstDpid e = key.2)) (m_graph t).

Definition findEdgeByHostIp (hostIp : Z) (t : Topology) : option EdgeDesc :=
  firstEdge (fun e => bool_decide (hostIp ∈ e_srcIp e)) (m_graph t).

Definition findReverseEdgeByHostIp (hostIp : Z) (t : Topology) : option EdgeDesc :=
  firstEdge (fun e => bool_decide (hostIp ∈ e_dstIp e)) (m_graph t).

Definition findEdgeByHostIps (hostIp : list Z) (t : Topology) : option EdgeDesc :=
  firstEdge (fun e => bool_decide (e_srcIp e = hostIp)) (m_graph t).

Definition findReverseEdgeByHostIps (hostIp : list Z) (t : Topology) : option EdgeDesc :=
  firstEdge (fun e => bool_decide (e_dstIp e = hostIp)) (m_graph t).

Definition findEdgeBySrcAndDstIp (src dst : Z) (t : Topology) : option EdgeDesc :=
  firstEdge (fun e => bool_decide (src ∈ e_srcIp e) && bool_decide (dst ∈ e_dstIp e)) (m_graph t).

(** * Switch kinds *)

Definition getSwitchKind (dpid : Z) (t : Topology) : option SwitchKind := m_dpidToSwitchKind t !! dpid.

(** The kinds that occur; [std::map] groups are non-empty. *)
Definition kindGroup (kind : SwitchKind) (t : Topology) : list Z :=
  merge_sort Z.le (filter (fun x => x.2 = kind) (map_to_list (m_dpidToSwitchKind t))).*1.

Definition getSwitchKindGroups (t : Topology) : list (SwitchKind * list Z) :=
  filter (fun x => x.2 <> []) ((fun k => (k, kindGroup k t)) <$> [OVS; BMV2; HARDWARE]).

Definition validateDataPlaneHomogeneity (allowMixed : bool) (t : Topology) : bool :=
  match getSwitchKindGroups t with
  | [] => false
  | [_] => true
  | _ => allowMixed
  end.

Definition setTopologyApiUrls (base : string) (t : Topology) : Topology :=
  set_urls [base +:+ "/switches"; base +:+ "/hosts"; base +:+ "/links"] t.

Definition configureTopologyApiUrls (mode : DeploymentMode) (P4_PROXY_IP_AND_PORT : string) (t : Topology) : Topology :=
  match mode, getSwitchKindGroups t with
  | MININET, [(BMV2, _)] => setTopologyApiUrls ("http://" +:+ P4_PROXY_IP_AND_PORT +:+ "/v1.0/topology") t
  | _, _ => t
  end.

(** A monitor as constructed: an empty graph, polling Ryu. *)
Definition newTopology (RYU_IP_AND_PORT : string) : Topology :=
  setTopologyApiUrls ("http://" +:+ RYU_IP_AND_PORT +:+ "/v1.0/topology") {|
    m_graph := emptyGraph; m_dpidToSwitchKind := ∅; m_ryuUrl := [];
    m_dpidToIpStrMap := ∅; m_dpidStrToIpStrMap := ∅; m_ipStrToDpidMap := ∅; m_ipStrToDpidStrMap := ∅;
    m_lastRateDivisorSeconds := f64_of_Z (-1) |}.

(** * Loading the static topology *)

Definition get_ips (j : json) (k : string) : outcome (list Z) :=
  let! l := jfield (get_vec get_string) j k in ipStringVecToUint32Vec l.

Definition get_member (j : json) : outcome EcmpMember :=
  let! t := jfield get_string j "type" in
  if bool_decide (t = "port") then
    let! p := jfield get_i32 j "port_id" in Ret (EcmpPort {| portId := p |})
  else Throw InvalidArgument.

Definition get_group (j : json) : outcome EcmpGroup :=
  let! m := jfield (get_vec get_member) j "members" in Ret {| members := m |}.

(** One node of the file. *)
Definition parseNode (mode : DeploymentMode) (j : json) : outcome VertexProperties :=
  let! vt := jfield get_i32 j "vertex_type" in
  let! mac_ := jfield get_u64 j "mac" in
  let! ips := get_ips j "ip" in
  let! dpid := jfield get_u64 j "dpid" in
  let! dev := jfield get_string j "device_name" in
  let! nick := jfield get_string j "nickname" in
  let! brand := jfield get_string j "brand_name" in
  let! kind := (if contains j "switch_kind"
                then let! s := jfield get_string j "switch_kind" in switchKindFromString s
                else Ret (switchKindFromBrandName brand)) in
  let! layer := jfield get_i32 j "device_layer" in
  let! plugIp := jvalue get_string j "smart_plug_ip" "" in
  let! plugOutlet := jvalue get_i32 j "smart_plug_outlet" (-1) in
  let! groups := jvalue (get_vec get_group) j "ecmp_groups" [] in
  let type := vertexTypeOfInt vt in
  if bool_decide (type = SWITCH) && bool_decide (ips = []) then Throw RuntimeError
  else
    let! bridge := (if bool_decide (mode = MININET) && bool_decide (type = SWITCH)
                    then jfield get_string j "bridge_name" else Ret "") in
    Ret {| vertexType := type; mac := mac_; ip := ips; v_dpid := dpid;
           v_isUp := false; v_isEnabled := false; v_adminDisabled := false;
           deviceName := dev; nickName := nick; bridgeNameForMininet := bridge; brandName := brand;
           switchKind := kind; deviceLayer := layer; smartPlugIp := plugIp; smartPlugOutlet := plugOutlet;
           bridgeConnectedPortsForMininet := []; ecmpGroups := groups |}.

(** One edge of the file. *)
Definition parseEdge (j : json) : outcome EdgeProperties :=
  let! bw := jfield get_u64 j "link_bandwidth_bps" in
  let! sip := get_ips j "src_ip" in
  let! sd := jfield get_u64 j "src_dpid" in
  let! si := jfield get_u32 j "src_interface" in
  let! dip := get_ips j "dst_ip" in
  let! dd := jfield get_u64 j "dst_dpid" in
  let! di := jfield get_u32 j "dst_interface" in
  Ret {| e_isUp := false; e_isEnabled := false; e_adminDisabled := false;
         leftBandwidth := bw; linkBandwidth := bw; linkBandwidthUsage := 0;
         linkBandwidthUtilization := f64_of_Z 0; leftBandwidthFromFlowSample := MININET_INTERFACE_SPEED;
         e_srcIp := sip; srcDpid := sd; srcInterface := si;
         e_dstIp := dip; dstDpid := dd; e_dstInterface := di; flowSet := ∅ |}.

(** The endpoint an edge names: a loaded switch by dpid, or a vertex by its first address. *)
Definition endpoint (dpidToVertex : gmap Z nat) (dpid : Z) (ips : list Z) (t : Topology) : option nat :=
  if bool_decide (dpid <> 0) then dpidToVertex !! dpid
  else match ips with a :: _ => findVertexByIp a t | [] => None end.

Definition addNode (vp : VertexProperties) (dv : gmap Z nat) (t : Topology) : gmap Z nat * Topology :=
  let v := length (vertices (m_graph t)) in
  let t := onGraph (add_vertex vp) t in
  if bool_decide (vertexType vp = SWITCH)
  then (<[v_dpid vp := v]> dv, set_kinds (<[v_dpid vp := switchKind vp]> (m_dpidToSwitchKind t)) t)
  else (dv, t).

Fixpoint loadNodes (mode : DeploymentMode) (nodes : list json) (dv : gmap Z nat)
  : run Topology (gmap Z nat) := fun t =>
  match nodes with
  | [] => (t, Ret dv)
  | j :: nodes =>
      match parseNode mode j with
      | Throw x => (t, Throw x)
      | Ret vp => let '(dv, t) := addNode vp dv t in loadNodes mode nodes dv t
      end
  end.

Definition placeEdge (dv : gmap Z nat) (ep : EdgeProperties) (t : Topology) : Topology :=
  match endpoint dv (srcDpid ep) (e_srcIp ep) t, endpoint dv (dstDpid ep) (e_dstIp ep) t with
  | Some u, Some v => onGraph (add_edge u v ep) t
  | _, _ => t
  end.

Fixpoint loadEdges (dv : gmap Z nat) (es : list json) : run Topology unit := fun t =>
  match es with
  | [] => (t, Ret tt)
  | j :: es =>
      match parseEdge j with
      | Throw x => (t, Throw x)
      | Ret ep => loadEdges dv es (placeEdge dv ep t)
      end
  end.

(** [file] is what opening and parsing the file gives: not openable, malformed, or its value.  The
    homogeneity check at the end only reports. *)
Definition loadStaticTopologyFromFile (mode : DeploymentMode) (file : option (option json)) : run Topology unit := fun t =>
  match vertices (m_graph t) with
  | _ :: _ => (t, Ret tt)
  | [] =>
      match file with
      | None => (t, Ret tt)
      | Some None => (t, Throw JsonParseError)
      | Some (Some j) =>
          match jindex j "nodes" with
          | Throw x => (t, Throw x)
          | Ret nodes =>
              match loadNodes mode (jiter nodes) ∅ t with
              | (t, Throw x) => (t, Throw x)
              | (t, Ret dv) =>
                  match jindex j "edges" with
                  | Throw x => (t, Throw x)
                  | Ret es => loadEdges dv (jiter es) t
                  end
              end
          end
      end
  end.

(** The dpid and address texts of the switches. *)
Definition addMapping (t : Topology) (v : VertexProperties) : Topology :=
  match isSwitch v, ip v with
  | true, a :: _ =>
      let ipStr := ipToString a in
      {| m_graph := m_graph t; m_dpidToSwitchKind := m_dpidToSwitchKind t; m_ryuUrl := m_ryuUrl t;
         m_dpidToIpStrMap := <[v_dpid v := ipStr]> (m_dpidToIpStrMap t);
         m_dpidStrToIpStrMap := <[std_to_string (v_dpid v) := ipStr]> (m_dpidStrToIpStrMap t);
         m_ipStrToDpidMap := <[ipStr := v_dpid v]> (m_ipStrToDpidMap t);
         m_ipStrToDpidStrMap := <[ipStr := std_to_string (v_dpid v)]> (m_ipStrToDpidStrMap t);
         m_lastRateDivisorSeconds := m_lastRateDivisorSeconds t |}
  | _, _ => t
  end.

Definition initializeMappingsFromGraph (t : Topology) : Topology := foldl addMapping t (vertices (m_graph t)).

(** * Flags *)

Definition vflags (up en adm : bool) (v : VertexProperties) : VertexProperties := {|
  vertexType := vertexType v; mac := mac v; ip := ip v; v_dpid := v_dpid v;
  v_isUp := up; v_isEnabled := en; v_adminDisabled := adm;
  deviceName := deviceName v; nickName := nickName v; bridgeNameForMininet := bridgeNameForMininet v;
  brandName := brandName v; switchKind := switchKind v; deviceLayer := deviceLayer v;
  smartPlugIp := smartPlugIp v; smartPlugOutlet := smartPlugOutlet v;
  bridgeConnectedPortsForMininet := bridgeConnectedPortsForMininet v; ecmpGroups := ecmpGroups v |}.

Definition eflags (up en adm : bool) (e : EdgeProperties) : EdgeProperties := {|
  e_isUp := up; e_isEnabled := en; e_adminDisabled := adm;
  leftBandwidth := leftBandwidth e; linkBandwidth := linkBandwidth e;
  linkBandwidthUsage := linkBandwidthUsage e; linkBandwidthUtilization := linkBandwidthUtilization e;
  leftBandwidthFromFlowSample := leftBandwidthFromFlowSample e;
  e_srcIp := e_srcIp e; srcDpid := srcDpid e; srcInterface := srcInterface e;
  e_dstIp := e_dstIp e; dstDpid := dstDpid e; e_dstInterface := e_dstInterface e; flowSet := flowSet e |}.

Definition setVertexUp (v : nat) : Topology -> Topology :=
  onGraph (alterVertex (fun p => vflags true (v_isEnabled p) (v_adminDisabled p) p) v).
Definition setVertexDown (v : nat) : Topology -> Topology :=
  onGraph (alterVertex (fun p => vflags false (v_isEnabled p) (v_adminDisabled p) p) v).
Definition setVertexEnable (v : nat) : Topology -> Topology :=
  onGraph (alterVertex (fun p => vflags (v_isUp p) true (v_adminDisabled p) p) v).
Definition setVertexDisable (v : nat) : Topology -> Topology :=
  onGraph (alterVertex (fun p => vflags (v_isUp p) false (v_adminDisabled p) p) v).

Definition setEdgeUp (e : EdgeDesc) : Topology -> Topology :=
  onGraph (alterEdge (fun p => eflags true (e_isEnabled p) (e_adminDisabled p) p) e).
Definition setEdgeDown (e : EdgeDesc) : Topology -> Topology :=
  onGraph (alterEdge (fun p => eflags false (e_isEnabled p) (e_adminDisabled p) p) e).
Definition setEdgeEnable (e : EdgeDesc) : Topology -> Topology :=
  onGraph (alterEdge (fun p => eflags (e_isUp p) true (e_adminDisabled p) p) e).
Definition setEdgeDisable (e : EdgeDesc) : Topology -> Topology :=
  onGraph (alterEdge (fun p => eflags (e_isUp p) false (e_adminDisabled p) p) e).

(** What discovery does to a vertex or edge it finds in a reply. *)
Definition discoverVertex (v : nat) : Topology -> Topology :=
  onGraph (alterVertex (fun p => vflags true true (v_adminDisabled p) p) v).
Definition discoverEdge (e : EdgeDesc) : Topology -> Topology :=
  onGraph (alterEdge (fun p => eflags true true (e_adminDisabled p) p) e).

Definition discoverVertexOpt (o : option nat) (t : Topology) : Topology :=
  match o with Some v => discoverVertex v t | None => t end.
Definition discoverEdgeOpt (o : option EdgeDesc) (t : Topology) : Topology :=
  match o with Some e => discoverEdge e t | None => t end.

(** * Discovery *)

(** A loop over the entries of a reply: an entry that throws ends it, with what was applied kept. *)
Fixpoint forEntries (step : json -> run Topology unit) (l : list json) (t : Topology) : Topology :=
  match l with
  | [] => t
  | j :: l => match step j t with (t, Ret _) => forEntries step l t | (t, Throw _) => t end
  end.

Definition switchEntry (j : json) : run Topology unit := fun t =>
  match jvalue get_string j "dpid" "" with
  | Throw x => (t, Throw x)
  | Ret s =>
      match tryParseHexUint64 s with
      | None => (t, Ret tt)
      | Some dpid => (discoverVertexOpt (findSwitchByDpid dpid t) t, Ret tt)
      end
  end.

(** The switch-side edge of a host: from the switch it is attached to, back to its address. *)
Definition attachHost (port : json) (a : Z) (t : Topology) : outcome Topology :=
  if negb (contains port "dpid") then Ret t
  else
    let! s := jvalue get_string port "dpid" "" in
    match tryParseHexUint64 s with
    | None => Ret t
    | Some dpid =>
        match findSwitchByDpid dpid t with
        | None => Ret t
        | Some sw =>
            match vertices (m_graph t) !! sw with
            | Some v => match ip v with
                        | a0 :: _ => Ret (discoverEdgeOpt (findEdgeBySrcAndDstIp a0 a t) t)
                        | [] => Ret t
                        end
            | None => Ret t
            end
        end
    end.

Definition hostEntry (j : json) : run Topology unit := fun t =>
  match jfind j "ipv4" with
  | None => (t, Ret tt)
  | Some vec =>
      if jempty vec then (t, Ret tt)
      else
        match jvalue get_string j "mac" "" with
        | Throw x => (t, Throw x)
        | Ret macStr =>
            match tryMacToUint64 macStr with
            | None => (t, Ret tt)
            | Some m =>
                let t := discoverVertexOpt (findVertexByMac m t) t in
                match jfirst vec with
                | Throw x => (t, Throw x)
                | Ret (JString ipStr) =>
                    match tryIpStringToUint32 ipStr with
                    | None => (t, Ret tt)
                    | Some a =>
                        let t := discoverEdgeOpt (findEdgeByHostIp a t) t in
                        match jfind j "port" with
                        | None => (t, Ret tt)
                        | Some port =>
                            match attachHost port a t with
                            | Throw x => (t, Throw x)
                            | Ret t => (t, Ret tt)
                            end
                        end
                    end
                | Ret _ => (t, Ret tt)
                end
            end
        end
  end.

Definition linkEntry (j : json) : run Topology unit := fun t =>
  match jfind j "src", jfind j "dst" with
  | Some src, Some dst =>
      let fields :=
        let! sd := jvalue get_string src "dpid" "" in
        let! sp := jvalue get_string src "port_no" "" in
        let! dd := jvalue get_string dst "dpid" "" in
        let! dp := jvalue get_string dst "port_no" "" in
        Ret (sd, sp, dd) in
      match fields with
      | Throw x => (t, Throw x)
      | Ret (sd, sp, dd) =>
          if bool_decide (sd = "") || bool_decide (dd = "") then (t, Ret tt)
          else
            match tryParseHexUint64 sd, tryParseHexUint64 dd with
            | Some srcD, Some dstD =>
                let srcPort := portStringToUint sp in
                match findSwitchByDpid srcD t, findSwitchByDpid dstD t with
                | Some u, Some _ =>
                    match vertices (m_graph t) !! u with
                    | Some v => (discoverEdgeOpt (findEdgeByDpidAndPort (v_dpid v, srcPort) t) t, Ret tt)
                    | None => (t, Ret tt)
                    end
                | _, _ => (t, Ret tt)
                end
            | _, _ => (t, Ret tt)
            end
      end
  | _, _ => (t, Ret tt)
  end.

(** Applying one reply: an empty or malformed text changes nothing. *)
Definition applyReply (entry : json -> run Topology unit) (parse : string -> option json) (data : string) (t : Topology)
  : Topology :=
  if bool_decide (data = "") then t
  else match parse data with None => t | Some j => forEntries entry (jiter j) t end.

Definition updateSwitches := applyReply switchEntry.
Definition updateHosts := applyReply hostEntry.
Definition updateLinks := applyReply linkEntry.

Definition updateGraph (parse : string -> option json) (switchesStr hostsStr linksStr : string) (t : Topology) : Topology :=
  updateLinks parse linksStr (updateHosts parse hostsStr (updateSwitches parse switchesStr t)).

(** * Administrative disabling *)

(** The edges that leave or enter a vertex. *)
Definition incident (v : nat) (d : EdgeDesc) : bool := bool_decide (d.1 = v) || bool_decide (d.2 = v).

Definition alterIncident (f : EdgeProperties -> EdgeProperties) (v : nat) (g : Graph) : Graph :=
  {| vertices := vertices g; edges := map_imap (fun d e => Some (if incident v d then f e else e)) (edges g) |}.

Definition disableSwitchAndEdges (dpid : Z) (t : Topology) : Topology * bool :=
  match findSwitchByDpid dpid t with
  | None => (t, false)
  | Some v =>
      (onGraph (fun g => alterIncident (fun e => eflags (e_isUp e) false true e) v
                           (alterVertex (fun p => vflags (v_isUp p) false true p) v g)) t, true)
  end.

Definition enableSwitchAndEdges (dpid : Z) (t : Topology) : Topology * bool :=
  match findSwitchByDpid dpid t with
  | None => (t, false)
  | Some v =>
      (onGraph (fun g => alterIncident (fun e => eflags (e_isUp e) true false e) v
                           (alterVertex (fun p => vflags (v_isUp p) true false p) v g)) t, true)
  end.

(** * Flows and rates of an edge *)

Definition set_flowSet (f : gmap FlowKey Z) (e : EdgeProperties) : EdgeProperties := {|
  e_isUp := e_isUp e; e_isEnabled := e_isEnabled e; e_adminDisabled := e_adminDisabled e;
  leftBandwidth := leftBandwidth e; linkBandwidth := linkBandwidth e;
  linkBandwidthUsage := linkBandwidthUsage e; linkBandwidthUtilization := linkBandwidthUtilization e;
  leftBandwidthFromFlowSample := leftBandwidthFromFlowSample e;
  e_srcIp := e_srcIp e; srcDpid := srcDpid e; srcInterface := srcInterface e;
  e_dstIp := e_dstIp e; dstDpid := dstDpid e; e_dstInterface := e_dstInterface e; flowSet := f |}.

(** The answer tells whether the flow was new on the edge; times are nanoseconds. *)
Definition touchEdgeFlow (now : Z) (d : EdgeDesc) (key : FlowKey) (t : Topology) : Topology * bool :=
  (onGraph (alterEdge (fun e => set_flowSet (<[key := now]> (flowSet e)) e) d) t,
   match edges (m_graph t) !! d with
   | Some e => bool_decide (flowSet e !! key = None)
   | None => false
   end).

Definition FLOW_TTL : Z := 2000000000.

(** One pass of [flushEdgeFlowLoop]; the clock is read for every flow. *)
Definition flushEdgeFlows (now : EdgeDesc -> FlowKey -> Z) (t : Topology) : Topology :=
  onGraph (fun g => {| vertices := vertices g;
    edges := map_imap (fun d e =>
      Some (set_flowSet (filter (fun x => now d x.1 - x.2 <= FLOW_TTL) (flowSet e)) e)) (edges g) |}) t.

Definition set_rates (left bw usage : Z) (util : spec_float) (leftSample : Z) (e : EdgeProperties) : EdgeProperties := {|
  e_isUp := e_isUp e; e_isEnabled := e_isEnabled e; e_adminDisabled := e_adminDisabled e;
  leftBandwidth := left; linkBandwidth := bw; linkBandwidthUsage := usage; linkBandwidthUtilization := util;
  leftBandwidthFromFlowSample := leftSample;
  e_srcIp := e_srcIp e; srcDpid := srcDpid e; srcInterface := srcInterface e;
  e_dstIp := e_dstIp e; dstDpid := dstDpid e; e_dstInterface := e_dstInterface e; flowSet := flowSet e |}.

(** [(1.0 - (double)left / bandwidth) * 100]. *)
Definition utilization (left bw : Z) : spec_float :=
  f64_mul (f64_sub (f64_of_Z 1) (f64_div (f64_of_Z left) (f64_of_Z bw))) (f64_of_Z 100).

(** A counter report of one direction. *)
Definition reportLeft (left speed : Z) (e : EdgeProperties) : EdgeProperties :=
  set_rates left speed (u64 (speed - left)) (utilization left speed) (leftBandwidthFromFlowSample e) e.

Definition updateLinkInfo (key : Z * Z) (leftIn leftOut interfaceSpeed : Z) (t : Topology) : Topology :=
  match findEdgeByAgentIpAndPort key t with
  | None => t
  | Some d =>
      match edges (m_graph t) !! d with
      | None => t
      | Some e =>
          match head (e_dstIp e) with
          | None => t
          | Some a =>
              match findEdgeByAgentIpAndPort (a, e_dstInterface e) t with
              | None => t
              | Some rev =>
                  onGraph (fun g => alterEdge (reportLeft leftIn interfaceSpeed) rev
                                      (alterEdge (reportLeft leftOut interfaceSpeed) d g)) t
              end
          end
      end
  end.

(** The sampled estimate of one link's use. *)
Definition sampleUse (estimatedIn : Z) (e : EdgeProperties) : EdgeProperties :=
  let bw := linkBandwidth e in
  let leftIn := if bool_decide (bw < estimatedIn) then 0 else u64 (bw - estimatedIn) in
  set_rates (leftBandwidth e) bw (if bool_decide (bw < leftIn) then 0 else u64 (bw - leftIn))
    (utilization leftIn bw) leftIn e.

Section Rates.
(** What the platform makes of a conversion to [uint64_t] whose result is out of range. *)
Variable undefinedCast : spec_float -> Z.

Definition bitsPerSecond (accumulatedBytes : Z) (elapsedSeconds : spec_float) : Z :=
  let x := f64_div (f64_mul (f64_of_Z accumulatedBytes) (f64_of_Z 8)) elapsedSeconds in
  match f64_to_u64 x with Some v => v | None => undefinedCast x end.

Definition updateLinkInfoLeftLinkBandwidth (key : Z * Z) (accumulatedBytes : Z) (elapsedSeconds : spec_float) (t : Topology)
  : Topology :=
  if negb (f64_gt elapsedSeconds (S754_zero false)) then t
  else
    let t := set_divisor elapsedSeconds t in
    let estimatedIn := bitsPerSecond accumulatedBytes elapsedSeconds in
    match findEdgeByAgentIpAndPort key t with
    | None => t
    | Some d => onGraph (alterEdge (sampleUse estimatedIn) d) t
    end.
End Rates.

(** * Reading *)

Definition getEdgeStats (mode : DeploymentMode) (e : EdgeProperties) : Z * Z :=
  (if bool_decide (mode = MININET) then leftBandwidthFromFlowSample e else leftBandwidth e,
   u32 (Z.of_nat (size (flowSet e)))).

Definition getEdgeFlowSet (e : EdgeProperties) : gset FlowKey := dom (flowSet e).

Definition graphLivenessSummary (t : Topology) : nat * nat * nat :=
  let up := filter (fun v => v_isUp v = true) (vertices (m_graph t)) in
  (length (filter (fun v => isSwitch v = true) up), length (filter (fun v => isSwitch v = false) up),
   length (filter (fun x => e_isUp x.2 = true) (edgesInOrder (m_graph t)))).

(** A path from host to host over usable links, all of them, by depth-first search.  [visited] are
    the switches on the current path and [path] its hops; [n] bounds the depth. *)
Section Dfs.
Context (g : Graph) (dst : nat) (dstDpid_ dstIP_ : Z).

Fixpoint dfs (n : nat) (visited : list nat) (path : Path) (u : nat) : list Path :=
  if bool_decide (u = dst) then [path ++ [(dstDpid_, 0); (dstIP_, 0)]]
  else
    match n with
    | O => []
    | S n =>
        let visited := u :: visited in
        concat ((fun x : EdgeDesc * EdgeProperties =>
          let '(d, ep) := x in
          if bool_decide (d.2 ∈ visited) then []
          else if isUsableEdge ep then dfs n visited (path ++ [(srcDpid ep, srcInterface ep)]) d.2
          else []) <$> out_edges u g)
    end.
End Dfs.

Definition getAllPathsBetweenTwoHosts (flowKey : FlowKey) (srcSwDpid dstSwDpid : Z) (t : Topology) : list Path :=
  match findSwitchByDpid srcSwDpid t, findSwitchByDpid dstSwDpid t with
  | Some u, Some v =>
      dfs (m_graph t) v dstSwDpid (dstIP flowKey) (length (vertices (m_graph t))) [] [(srcIP flowKey, 0)] u
  | _, _ => []
  end.
