(* ===== verification/TopologyProps.v ===== *)
(** Properties of the topology monitor: what an operation may change, discovery against the
    operator's intent, and what a loaded topology looks like. *)

From S2P Require Import Prelude Bytes CStrings NetUtils Json SFlowTypes GraphTypes Topology.
From Stdlib Require Import SpecFloat.
Local Open Scope string_scope.
Local Open Scope list_scope.
Local Open Scope Z_scope.

(** * How a topology evolves *)

(** Everything of a vertex but its three flags. *)
Definition vcore (v : VertexProperties) : VertexProperties := vflags false false false v.

(** Where an edge leads from and to. *)
Definition ecore (e : EdgeProperties) : list Z * Z * Z * (list Z * Z * Z) :=
  (e_srcIp e, srcDpid e, srcInterface e, (e_dstIp e, dstDpid e, e_dstInterface e)).

Section Evolves.
(** What may happen to one vertex and to one edge. *)
Context (Rv : VertexProperties -> VertexProperties -> Prop) (Re : EdgeProperties -> EdgeProperties -> Prop).

Definition evolves (g g' : Graph) : Prop :=
  Forall2 Rv (vertices g) (vertices g') /\
  forall d, option_Forall2 Re (edges g !! d) (edges g' !! d).

Context `{!Reflexive Rv, !Transitive Rv, !Reflexive Re, !Transitive Re}.

#[export] Instance evolves_refl : Reflexive evolves.
Proof. intros g. split; [done|]. intros d. by destruct (edges g !! d); constructor. Qed.

#[export] Instance evolves_trans : Transitive evolves.
Proof.
  intros g1 g2 g3 [Hv He] [Hv' He']. split; [by etrans|]. intros d. specialize (He d). specialize (He' d).
  destruct He as [e1 e2 H|]; inversion He' as [? e3 H'|]; subst; constructor. by etrans.
Qed.

Lemma evolves_alterVertex f v g : (forall p, Rv p (f p)) -> evolves g (alterVertex f v g).
Proof.
  intros Hf. split; [|intros d; cbn; by destruct (edges g !! d); constructor]. cbn.
  apply Forall2_same_length_lookup_2; [by rewrite length_alter|]. intros i x y Hx Hy.
  destruct (decide (v = i)) as [->|Hne].
  - rewrite list_lookup_alter_eq, Hx in Hy. injection Hy as <-. done.
  - rewrite list_lookup_alter_ne, Hx in Hy by done. by injection Hy as ->.
Qed.

Lemma evolves_alterEdge f d g : (forall p, Re p (f p)) -> evolves g (alterEdge f d g).
Proof.
  intros Hf. split; [done|]. intros d'. cbn. destruct (decide (d = d')) as [->|Hne].
  - rewrite lookup_alter_eq. by destruct (edges g !! d'); constructor.
  - rewrite lookup_alter_ne by done. by destruct (edges g !! d'); constructor.
Qed.

Lemma evolves_edges f g :
  (forall d p, Re p (f d p)) ->
  evolves g {| vertices := vertices g; edges := map_imap (fun d e => Some (f d e)) (edges g) |}.
Proof.
  intros Hf. split; [done|]. intros d. cbn. rewrite map_lookup_imap. by destruct (edges g !! d); constructor.
Qed.

Lemma evolves_vertex g g' v p : evolves g g' -> vertices g !! v = Some p -> exists p', vertices g' !! v = Some p' /\ Rv p p'.
Proof. intros [Hv _] Hp. by eapply Forall2_lookup_l in Hp as (p' & ? & ?); [exists p'|]. Qed.

Lemma evolves_edge g g' d e : evolves g g' -> edges g !! d = Some e -> exists e', edges g' !! d = Some e' /\ Re e e'.
Proof. intros [_ He] Hd. specialize (He d). rewrite Hd in He. inversion He; subst; eauto. Qed.

Lemma evolves_edge_r g g' d e' : evolves g g' -> edges g' !! d = Some e' -> exists e, edges g !! d = Some e /\ Re e e'.
Proof. intros [_ He] Hd. specialize (He d). rewrite Hd in He. inversion He; subst; eauto. Qed.

Lemma evolves_firstEdge p g g' :
  (forall e e', Re e e' -> p e = p e') -> evolves g g' -> firstEdge p g = firstEdge p g'.
Proof.
  intros Hp Hg. apply firstEdge_ext. intros k. split; intros (e & He & Hpe).
  - destruct (evolves_edge g g' k e) as (e' & ? & HR); [done..|]. exists e'. by rewrite <- (Hp _ _ HR).
  - destruct (evolves_edge_r g g' k e) as (e' & ? & HR); [done..|]. exists e'. by rewrite (Hp _ _ HR).
Qed.

Lemma evolves_firstVertex p g g' :
  (forall v v', Rv v v' -> p v = p v') -> evolves g g' -> firstVertex p g = firstVertex p g'.
Proof.
  intros Hp [Hv _]. apply firstVertex_ext. intros k. split; intros (x & Hx & Hpx).
  - destruct (Forall2_lookup_l _ _ _ _ _ Hv Hx) as (y & Hy & HR). exists y. by rewrite <- (Hp _ _ HR).
  - destruct (Forall2_lookup_r _ _ _ _ _ Hv Hx) as (y & Hy & HR). exists y. by rewrite (Hp _ _ HR).
Qed.

End Evolves.

(** ** Discovery *)

(** Discovery leaves a vertex or edge alone, or marks it up and enabled. *)
Definition discoveredV (p p' : VertexProperties) : Prop := p' = p \/ p' = vflags true true (v_adminDisabled p) p.
Definition discoveredE (e e' : EdgeProperties) : Prop := e' = e \/ e' = eflags true true (e_adminDisabled e) e.

#[export] Instance discoveredV_refl : Reflexive discoveredV.
Proof. by left. Qed.
#[export] Instance discoveredE_refl : Reflexive discoveredE.
Proof. by left. Qed.
#[export] Instance discoveredV_trans : Transitive discoveredV.
Proof. intros p1 p2 p3 [-> | ->] [-> | ->]; unfold discoveredV; auto. Qed.
#[export] Instance discoveredE_trans : Transitive discoveredE.
Proof. intros p1 p2 p3 [-> | ->] [-> | ->]; unfold discoveredE; auto. Qed.

Definition discovered (t t' : Topology) : Prop :=
  evolves discoveredV discoveredE (m_graph t) (m_graph t') /\ set_graph (m_graph t') t = t'.

#[export] Instance discovered_refl : Reflexive discovered.
Proof. intros []. by split. Qed.

#[export] Instance discovered_trans : Transitive discovered.
Proof. intros t1 t2 t3 [H1 <-] [H2 <-]. split; [by etrans|done]. Qed.

Lemma discoverVertexOpt_discovered o t : discovered t (discoverVertexOpt o t).
Proof.
  destruct o; [|done]. split; [|done]. apply evolves_alterVertex; [apply _..|]. intros ?. by right.
Qed.

Lemma discoverEdgeOpt_discovered o t : discovered t (discoverEdgeOpt o t).
Proof.
  destruct o; [|done]. split; [|done]. apply evolves_alterEdge; [apply _..|]. intros ?. by right.
Qed.

Create HintDb topo.
#[export] Hint Resolve discoverVertexOpt_discovered discoverEdgeOpt_discovered : topo.

Lemma switchEntry_discovered j t : discovered t (switchEntry j t).1.
Proof. unfold switchEntry. repeat case_match; cbn; auto with topo; reflexivity. Qed.

Lemma attachHost_discovered port a t t' : attachHost port a t = Ret t' -> discovered t t'.
Proof.
  unfold attachHost. case_match; [by intros [= <-]|]. destruct (jvalue _ _ _ _); [|done]. cbn.
  repeat case_match; intros [= <-]; auto with topo; reflexivity.
Qed.

Lemma hostEntry_discovered j t : discovered t (hostEntry j t).1.
Proof.
  unfold hostEntry. repeat (case_match; cbn [fst]); auto with topo; try reflexivity.
  all: try (etrans; [apply discoverVertexOpt_discovered|apply discoverEdgeOpt_discovered]).
  etrans; [apply discoverVertexOpt_discovered|]. etrans; [apply discoverEdgeOpt_discovered|].
  by eapply attachHost_discovered.
Qed.

Lemma linkEntry_discovered j t : discovered t (linkEntry j t).1.
Proof. unfold linkEntry. repeat (case_match; cbn [fst]); auto with topo; reflexivity. Qed.

Lemma applyReply_discovered entry parse data t :
  (forall j t, discovered t (entry j t).1) -> discovered t (applyReply entry parse data t).
Proof.
  intros He. unfold applyReply. case_bool_decide; [done|]. destruct (parse data) as [j|]; [|done].
  generalize (jiter j). intros l. revert t. induction l as [|x l IH]; intros t; [done|]. cbn [forEntries].
  specialize (He x t). destruct (entry x t) as [t' [?|?]]; cbn in He; [|done]. by etrans.
Qed.

Lemma updateGraph_discovered parse s h l t : discovered t (updateGraph parse s h l t).
Proof.
  unfold updateGraph. etrans; [apply applyReply_discovered, switchEntry_discovered|].
  etrans; [apply applyReply_discovered, hostEntry_discovered|]. apply applyReply_discovered, linkEntry_discovered.
Qed.

(** * Operations in sequence *)

Inductive TopologyOp :=
  | OpPoll (parse : string -> option json) (switchesStr hostsStr linksStr : string)
  | OpVertexUp (v : nat) | OpVertexDown (v : nat) | OpVertexEnable (v : nat) | OpVertexDisable (v : nat)
  | OpEdgeUp (d : EdgeDesc) | OpEdgeDown (d : EdgeDesc) | OpEdgeEnable (d : EdgeDesc) | OpEdgeDisable (d : EdgeDesc)
  | OpDisableSwitch (dpid : Z) | OpEnableSwitch (dpid : Z)
  | OpTouch (now : Z) (d : EdgeDesc) (key : FlowKey)
  | OpFlush (now : EdgeDesc -> FlowKey -> Z)
  | OpLinkInfo (key : Z * Z) (leftIn leftOut speed : Z)
  | OpSampledRate (cast : spec_float -> Z) (key : Z * Z) (bytes : Z) (elapsed : spec_float).

Definition runOp (t : Topology) (op : TopologyOp) : Topology :=
  match op with
  | OpPoll parse s h l => updateGraph parse s h l t
  | OpVertexUp v => setVertexUp v t | OpVertexDown v => setVertexDown v t
  | OpVertexEnable v => setVertexEnable v t | OpVertexDisable v => setVertexDisable v t
  | OpEdgeUp d => setEdgeUp d t | OpEdgeDown d => setEdgeDown d t
  | OpEdgeEnable d => setEdgeEnable d t | OpEdgeDisable d => setEdgeDisable d t
  | OpDisableSwitch dpid => (disableSwitchAndEdges dpid t).1
  | OpEnableSwitch dpid => (enableSwitchAndEdges dpid t).1
  | OpTouch now d key => (touchEdgeFlow now d key t).1
  | OpFlush now => flushEdgeFlows now t
  | OpLinkInfo key li lo sp => updateLinkInfo key li lo sp t
  | OpSampledRate cast key b s => updateLinkInfoLeftLinkBandwidth cast key b s t
  end.

Definition runOps (t : Topology) (ops : list TopologyOp) : Topology := foldl runOp t ops.

Definition isEnableOp (op : TopologyOp) : bool := match op with OpEnableSwitch _ => true | _ => false end.

(** Identity is kept, and administrative intent is never lost. *)
Definition keepsV (p p' : VertexProperties) : Prop :=
  vcore p = vcore p' /\ (v_adminDisabled p = true -> v_adminDisabled p' = true).
Definition keepsE (e e' : EdgeProperties) : Prop :=
  ecore e = ecore e' /\ (e_adminDisabled e = true -> e_adminDisabled e' = true).

#[export] Instance keepsV_refl : Reflexive keepsV.
Proof. by split. Qed.
#[export] Instance keepsE_refl : Reflexive keepsE.
Proof. by split. Qed.
#[export] Instance keepsV_trans : Transitive keepsV.
Proof. intros p1 p2 p3 [E1 H1] [E2 H2]. split; [by rewrite E1|auto]. Qed.
#[export] Instance keepsE_trans : Transitive keepsE.
Proof. intros p1 p2 p3 [E1 H1] [E2 H2]. split; [by rewrite E1|auto]. Qed.

Lemma keepsV_flags up en adm p : (v_adminDisabled p = true -> adm = true) -> keepsV p (vflags up en adm p).
Proof. by split. Qed.
Lemma keepsE_flags up en adm p : (e_adminDisabled p = true -> adm = true) -> keepsE p (eflags up en adm p).
Proof. by split. Qed.

Lemma evolves_impl (Rv Rv' : VertexProperties -> VertexProperties -> Prop) (Re Re' : EdgeProperties -> EdgeProperties -> Prop) g g' :
  (forall p p', Rv p p' -> Rv' p p') -> (forall e e', Re e e' -> Re' e e') ->
  evolves Rv Re g g' -> evolves Rv' Re' g g'.
Proof.
  intros Hv He [H1 H2]. split; [by eapply Forall2_impl|]. intros d. specialize (H2 d).
  destruct H2; constructor; auto.
Qed.

Lemma discovered_keeps t t' : discovered t t' -> evolves keepsV keepsE (m_graph t) (m_graph t').
Proof.
  intros [H _]. revert H. apply evolves_impl.
  - intros p p' [-> | ->]; [done|by apply keepsV_flags].
  - intros p p' [-> | ->]; [done|by apply keepsE_flags].
Qed.

Lemma updateLinkInfo_keeps key li lo sp t : evolves keepsV keepsE (m_graph t) (m_graph (updateLinkInfo key li lo sp t)).
Proof.
  unfold updateLinkInfo. repeat case_match; try reflexivity. cbn.
  etrans; [|apply evolves_alterEdge]; [apply evolves_alterEdge|..]; try apply _; done.
Qed.

Lemma keepsV_switch dpid p p' :
  keepsV p p' -> isSwitch p && bool_decide (v_dpid p = dpid) = isSwitch p' && bool_decide (v_dpid p' = dpid).
Proof.
  intros [H _]. unfold isSwitch. apply (f_equal vertexType) in H as Ht. apply (f_equal v_dpid) in H as Hd. cbn in Ht, Hd.
  by rewrite Ht, Hd.
Qed.

(** Every operation but an administrative enable. *)
Lemma runOp_keeps t op : isEnableOp op = false -> evolves keepsV keepsE (m_graph t) (m_graph (runOp t op)).
Proof.
  assert (forall f v, (forall p, keepsV p (f p)) -> evolves keepsV keepsE (m_graph t) (alterVertex f v (m_graph t))) as HV
    by (intros; apply evolves_alterVertex; apply _ || done).
  assert (forall f d, (forall p, keepsE p (f p)) -> evolves keepsV keepsE (m_graph t) (alterEdge f d (m_graph t))) as HE
    by (intros; apply evolves_alterEdge; apply _ || done).
  destruct op; intros Hop; cbn [runOp]; try done; try (apply HV; intros p; by apply keepsV_flags);
    try (apply HE; intros p; by apply keepsE_flags).
  - apply discovered_keeps, updateGraph_discovered.
  - unfold disableSwitchAndEdges. destruct (findSwitchByDpid dpid t) as [v|]; cbn; [|done]. etrans.
    + apply HV. intros p. by apply keepsV_flags.
    + refine (evolves_edges keepsV keepsE (fun d e => if incident v d then _ else e) _ _). intros d e.
      case_match; [by apply keepsE_flags|done].
  - by apply HE.
  - unfold flushEdgeFlows. cbn. by apply (evolves_edges keepsV keepsE).
  - apply updateLinkInfo_keeps.
  - unfold updateLinkInfoLeftLinkBandwidth. case_match; [done|]. case_match; [|done]. by apply HE.
Qed.

Lemma runOps_keeps t ops :
  Forall (fun op => isEnableOp op = false) ops -> evolves keepsV keepsE (m_graph t) (m_graph (runOps t ops)).
Proof.
  intros H. revert t. induction H as [|op ops Hop _ IH]; intros t; [done|]. etrans; [by apply runOp_keeps|]. apply IH.
Qed.

(** Right after a successful disable. *)
Lemma disable_marks dpid t v :
  findSwitchByDpid dpid t = Some v ->
  let g := m_graph (disableSwitchAndEdges dpid t).1 in
  (forall p, vertices g !! v = Some p -> v_adminDisabled p = true) /\
  (forall d e, edges g !! d = Some e -> incident v d = true -> e_adminDisabled e = true).
Proof.
  intros Hv. unfold disableSwitchAndEdges. rewrite Hv. cbn. split.
  - intros p. rewrite list_lookup_alter_eq. destruct (vertices _ !! v); [|done]. by intros [= <-].
  - intros d e. rewrite map_lookup_imap. destruct (edges _ !! d) as [e0|]; [|done]. cbn. intros [= <-] ->. done.
Qed.

(** C21: an operator's disable holds.  Once a switch is administratively disabled, no sequence of
    topology polls, liveness and link events, telemetry updates or further disables makes it or any
    of its links usable again, whatever the control plane reports; only an administrative enable
    can. *)
Theorem admin_disable_survives dpid t v ops :
  findSwitchByDpid dpid t = Some v -> Forall (fun op => isEnableOp op = false) ops ->
  let g := m_graph (runOps (disableSwitchAndEdges dpid t).1 ops) in
  (exists p, vertices g !! v = Some p /\ isUsableVertex p = false) /\
  (forall d e, edges g !! d = Some e -> incident v d = true -> isUsableEdge e = false).
Proof.
  intros Hv Hops g. pose proof (runOps_keeps (disableSwitchAndEdges dpid t).1 ops Hops) as Hk.
  destruct (disable_marks dpid t v Hv) as [Hm He]. split.
  - assert (is_Some (vertices (m_graph (disableSwitchAndEdges dpid t).1) !! v)) as [p1 Hp1].
    { unfold disableSwitchAndEdges. rewrite Hv. cbn. rewrite list_lookup_alter_eq.
      apply firstVertex_Some in Hv as [(p & -> & _) _]. eauto. }
    destruct (evolves_vertex _ _ _ _ _ _ Hk Hp1) as (p' & Hp' & _ & Ha). exists p'. split; [done|].
    unfold isUsableVertex. rewrite Ha by by eapply Hm. by rewrite andb_false_r.
  - intros d e Hd Hi. destruct (evolves_edge_r _ _ _ _ _ _ Hk Hd) as (e0 & He0 & _ & Ha).
    unfold isUsableEdge. rewrite Ha by by eapply He. by rewrite andb_false_r.
Qed.

(** * What a poll changes *)

Lemma discovered_findSwitch dpid t t' : discovered t t' -> findSwitchByDpid dpid t' = findSwitchByDpid dpid t.
Proof.
  intros [H _]. symmetry. eapply evolves_firstVertex; [|done]. by intros v v' [-> | ->].
Qed.

Definition switchNamed (t : Topology) (v : nat) (j : json) : bool :=
  match jvalue get_string j "dpid" "" with
  | Ret s => match tryParseHexUint64 s with
             | Some dpid => bool_decide (findSwitchByDpid dpid t = Some v)
             | None => false
             end
  | Throw _ => false
  end.

Lemma switchNamed_stable t t' v j : discovered t t' -> switchNamed t' v j = switchNamed t v j.
Proof. intros H. unfold switchNamed. repeat case_match; try done. by rewrite (discovered_findSwitch _ _ _ H). Qed.

Definition raise (b : bool) (p : VertexProperties) : VertexProperties :=
  if b then vflags true true (v_adminDisabled p) p else p.

Lemma raise_raise b b' p : raise b' (raise b p) = raise (b || b') p.
Proof. by destruct b, b'. Qed.

Lemma switchEntry_exact j t v s :
  jvalue get_string j "dpid" "" = Ret s ->
  (switchEntry j t).2 = Ret tt /\
  vertices (m_graph (switchEntry j t).1) !! v = raise (switchNamed t v j) <$> vertices (m_graph t) !! v /\
  edges (m_graph (switchEntry j t).1) = edges (m_graph t).
Proof.
  intros Hs. unfold switchEntry, switchNamed. rewrite Hs.
  destruct (tryParseHexUint64 s) as [dpid|]; cbn [fst snd]; [|by rewrite option_fmap_id].
  destruct (findSwitchByDpid dpid t) as [w|]; cbn [discoverVertexOpt]; [|by rewrite option_fmap_id].
  split; [done|]. split; [|done]. cbn. rewrite list_lookup_alter. case_decide as Hw; subst.
  - by rewrite bool_decide_true.
  - rewrite bool_decide_false by congruence. by rewrite option_fmap_id.
Qed.

(** A switch report raises exactly the switches it names.  When every entry of the reply is an
    object with a textual (or no) dpid, the vertices named by a hexadecimal dpid become up and
    enabled; nothing else of them, no other vertex and no edge changes. *)
Theorem switch_poll_exact parse data l t v :
  data <> "" -> parse data = Some (JArray l) ->
  Forall (fun j => exists s, jvalue get_string j "dpid" "" = Ret s) l ->
  let t' := updateSwitches parse data t in
  vertices (m_graph t') !! v = raise (existsb (switchNamed t v) l) <$> vertices (m_graph t) !! v /\
  edges (m_graph t') = edges (m_graph t).
Proof.
  intros Hd Hp Hl. unfold updateSwitches, applyReply. rewrite bool_decide_false, Hp by done. cbn [jiter]. clear Hp Hd.
  revert t. induction Hl as [|j l [s Hs] Hl IH]; intros t; cbn [forEntries existsb]; [by rewrite option_fmap_id|].
  destruct (switchEntry_exact j t v s Hs) as (H2 & Hv & He). pose proof (switchEntry_discovered j t) as Hdis.
  destruct (switchEntry j t) as [t1 r]. cbn in *. subst r. destruct (IH t1) as [IHv IHe].
  rewrite IHv, IHe, Hv, He. split; [|done]. rewrite <- option_fmap_compose. destruct (vertices (m_graph t) !! v); [|done]. cbn.
  rewrite raise_raise. do 3 f_equal. clear -Hdis. induction l as [|x l IH]; [done|]. cbn.
  by rewrite IH, (switchNamed_stable t t1).
Qed.

(** A poll never takes anything down.  Whatever the three replies contain, each vertex and edge
    is either untouched or marked up and enabled with all its other state kept, and the index of
    switch kinds, the addresses and the set of vertices and edges are the same. *)
Theorem poll_only_raises parse s h l t :
  let t' := updateGraph parse s h l t in
  evolves discoveredV discoveredE (m_graph t) (m_graph t') /\ set_graph (m_graph t) t' = t.
Proof.
  destruct (updateGraph_discovered parse s h l t) as [H <-]. split; [done|]. by destruct t.
Qed.

(** An enable undoes a neighbour's disable.  After both ends of a link were disabled, enabling
    one end clears the administrative flag of the shared link in both directions, although the other
    switch is still administratively disabled. *)
Theorem enable_clears_shared_links a b t u v d e :
  findSwitchByDpid a t = Some u -> findSwitchByDpid b t = Some v -> u <> v -> d = (u, v) \/ d = (v, u) ->
  let t' := (enableSwitchAndEdges a (disableSwitchAndEdges b (disableSwitchAndEdges a t).1).1).1 in
  edges (m_graph t') !! d = Some e ->
  e_adminDisabled e = false /\ e_isEnabled e = true /\
  exists p, vertices (m_graph t') !! v = Some p /\ v_adminDisabled p = true.
Proof.
  intros Ha Hb Huv Hd t'. pose proof (runOps_keeps t [OpDisableSwitch a; OpDisableSwitch b]) as Hk.
  cbn [runOps foldl runOp] in Hk. set (t2 := (disableSwitchAndEdges b _).1) in *.
  assert (findSwitchByDpid a t2 = Some u) as Ha2.
  { rewrite <- Ha. symmetry. eapply evolves_firstVertex; [|apply Hk; repeat constructor].
    intros p p'. apply keepsV_switch. }
  assert (findSwitchByDpid b (disableSwitchAndEdges a t).1 = Some v) as Hb1.
  { rewrite <- Hb. symmetry. eapply evolves_firstVertex; [|apply (runOp_keeps t (OpDisableSwitch a)); done].
    intros p p'. apply keepsV_switch. }
  destruct (disable_marks b _ v Hb1) as [Hm _]. fold t2 in Hm.
  unfold t', enableSwitchAndEdges. rewrite Ha2. cbn. rewrite map_lookup_imap.
  destruct (edges (m_graph t2) !! d) as [e0|]; [|done]. cbn.
  assert (incident u d = true) as ->.
  { unfold incident. destruct Hd as [-> | ->]; cbn; rewrite (bool_decide_true (u = u)) by done; by rewrite ?orb_true_r. }
  intros [= <-]. split; [done|]. split; [done|]. rewrite list_lookup_alter_ne by done.
  assert (is_Some (vertices (m_graph t2) !! v)) as [p2 Hp2]; [|exists p2; by eauto].
  unfold t2, disableSwitchAndEdges at 1. rewrite Hb1. cbn [fst]. cbn [onGraph set_graph m_graph alterIncident vertices alterVertex].
  rewrite list_lookup_alter_eq. apply firstVertex_Some in Hb1 as [(p & -> & _) _]. eauto.
Qed.

(** * What a loaded topology looks like *)

(** A vertex can be the end an edge names. *)
Definition endpointOk (dpid : Z) (ips : list Z) (p : VertexProperties) : Prop :=
  if bool_decide (dpid <> 0) then vertexType p = SWITCH /\ v_dpid p = dpid
  else exists a, head ips = Some a /\ a ∈ ip p.

Record wf_topology (t : Topology) : Prop := {
  wf_ends : forall u v e, edges (m_graph t) !! (u, v) = Some e ->
    (exists p, vertices (m_graph t) !! u = Some p /\ endpointOk (srcDpid e) (e_srcIp e) p) /\
    (exists p, vertices (m_graph t) !! v = Some p /\ endpointOk (dstDpid e) (e_dstIp e) p);
  wf_addr : forall v p, vertices (m_graph t) !! v = Some p -> vertexType p = SWITCH -> ip p <> [];
  wf_kind_sound : forall dpid k, getSwitchKind dpid t = Some k ->
    exists v p, vertices (m_graph t) !! v = Some p /\ vertexType p = SWITCH /\ v_dpid p = dpid /\ switchKind p = k;
  wf_kind_complete : forall v p, vertices (m_graph t) !! v = Some p -> vertexType p = SWITCH ->
    is_Some (getSwitchKind (v_dpid p) t)
}.

(** Nothing is reachable or enabled before the control plane reports it. *)
Definition allDown (t : Topology) : Prop :=
  (forall v p, vertices (m_graph t) !! v = Some p -> v_isUp p = false /\ v_isEnabled p = false /\ v_adminDisabled p = false) /\
  (forall d e, edges (m_graph t) !! d = Some e -> e_isUp e = false /\ e_isEnabled e = false /\ e_adminDisabled e = false).

(** The local index of the loader points at loaded switches. *)
Definition indexOk (dv : gmap Z nat) (t : Topology) : Prop :=
  forall dpid v, dv !! dpid = Some v ->
    exists p, vertices (m_graph t) !! v = Some p /\ vertexType p = SWITCH /\ v_dpid p = dpid.

Lemma parseNode_ok mode j vp : parseNode mode j = Ret vp ->
  (vertexType vp = SWITCH -> ip vp <> []) /\ v_isUp vp = false /\ v_isEnabled vp = false /\ v_adminDisabled vp = false.
Proof.
  unfold parseNode. intros H. repeat (apply obind_ret in H as (? & _ & H)).
  case_match eqn:Hc; [done|]. apply obind_ret in H as (? & _ & H). injection H as <-. cbn. split; [|done].
  intros Hsw. rewrite bool_decide_true in Hc by done. by apply bool_decide_eq_false in Hc.
Qed.

Lemma parseEdge_ok j ep : parseEdge j = Ret ep ->
  e_isUp ep = false /\ e_isEnabled ep = false /\ e_adminDisabled ep = false.
Proof. unfold parseEdge. intros H. repeat (apply obind_ret in H as (? & _ & H)). by injection H as <-. Qed.

Lemma lookup_snoc_inv {A} (l : list A) x i y : (l ++ [x]) !! i = Some y -> l !! i = Some y \/ (i = length l /\ y = x).
Proof.
  intros [H|[H1 H2]]%lookup_app_Some; [by left|]. right. apply list_lookup_singleton_Some in H2 as [H2 <-]. split; [lia|done].
Qed.

Lemma addNode_ok vp dv t dv' t' :
  addNode vp dv t = (dv', t') ->
  (vertexType vp = SWITCH -> ip vp <> []) -> v_isUp vp = false /\ v_isEnabled vp = false /\ v_adminDisabled vp = false ->
  wf_topology t -> allDown t -> indexOk dv t -> wf_topology t' /\ allDown t' /\ indexOk dv' t'.
Proof.
  intros Hadd Hip Hflags Hwf [Hdv Hde] Hix.
  assert (vertices (m_graph t') = vertices (m_graph t) ++ [vp] /\ edges (m_graph t') = edges (m_graph t)) as [Hv He].
  { unfold addNode in Hadd. case_bool_decide; by injection Hadd as <- <-. }
  assert (forall v p, vertices (m_graph t) !! v = Some p -> vertices (m_graph t') !! v = Some p) as Hold.
  { intros v p Hp. rewrite Hv. by apply lookup_app_l_Some. }
  assert (vertices (m_graph t') !! length (vertices (m_graph t)) = Some vp) as Hnew.
  { rewrite Hv, lookup_app_r, Nat.sub_diag by lia. done. }
  assert (forall v p, vertices (m_graph t') !! v = Some p -> vertices (m_graph t) !! v = Some p \/ p = vp) as Hinv.
  { intros v p. rewrite Hv. intros [?|[_ ->]]%lookup_snoc_inv; auto. }
  assert (forall dpid, getSwitchKind dpid t' =
    if bool_decide (vertexType vp = SWITCH /\ v_dpid vp = dpid) then Some (switchKind vp) else getSwitchKind dpid t) as Hk.
  { intros dpid. unfold addNode in Hadd. unfold getSwitchKind. case_bool_decide as Hs; injection Hadd as <- <-; cbn.
    - rewrite lookup_insert. case_decide; case_bool_decide; naive_solver.
    - rewrite bool_decide_false; naive_solver. }
  split; [|split; [split|]].
  - split.
    + intros u v e. rewrite He. intros Hd. destruct (wf_ends t Hwf u v e Hd) as [(p & ? & ?) (q & ? & ?)]. split; eauto.
    + intros v p Hp Hsw. destruct (Hinv v p Hp) as [Hp'| ->]; [by eapply wf_addr|by apply Hip].
    + intros dpid k. rewrite Hk. case_bool_decide as Hd; [|intros Hg; destruct (wf_kind_sound t Hwf dpid k Hg) as (v & p & ? & ?); eauto].
      intros [= <-]. destruct Hd. eauto 10.
    + intros v p Hp Hsw. rewrite Hk. case_bool_decide as Hd; [eauto|]. destruct (Hinv v p Hp) as [Hp'| ->]; [|naive_solver].
      by eapply wf_kind_complete.
  - intros v p Hp. destruct (Hinv v p Hp) as [Hp'| ->]; [by eapply Hdv|done].
  - intros d e. rewrite He. apply Hde.
  - intros dpid v. unfold addNode in Hadd. case_bool_decide as Hs; injection Hadd as <- _.
    + rewrite lookup_insert. destruct (decide (v_dpid vp = dpid)) as [<-|]; [intros [= <-]; by exists vp|].
      intros H. destruct (Hix _ _ H) as (p & ? & ?); eauto.
    + intros H. destruct (Hix _ _ H) as (p & ? & ?); eauto.
Qed.

Lemma loadNodes_ok mode nodes dv t t' r :
  loadNodes mode nodes dv t = (t', r) -> wf_topology t -> allDown t -> indexOk dv t ->
  wf_topology t' /\ allDown t' /\ forall dv', r = Ret dv' -> indexOk dv' t'.
Proof.
  revert dv t. induction nodes as [|j nodes IH]; intros dv t H Hwf Had Hix; cbn [loadNodes] in H.
  - injection H as <- <-. split; [done|]. split; [done|]. by intros dv' [= <-].
  - destruct (parseNode mode j) as [vp|x] eqn:Ej; [|by injection H as <- <-].
    destruct (addNode vp dv t) as [dv1 t1] eqn:Ea. destruct (parseNode_ok _ _ _ Ej) as [Hip Hfl].
    destruct (addNode_ok _ _ _ _ _ Ea Hip Hfl Hwf Had Hix) as (? & ? & ?). by eapply IH.
Qed.

Lemma endpoint_ok dv dpid ips t v : indexOk dv t -> endpoint dv dpid ips t = Some v ->
  exists p, vertices (m_graph t) !! v = Some p /\ endpointOk dpid ips p.
Proof.
  intros Hix. unfold endpoint, endpointOk. case_bool_decide; [by apply Hix|]. destruct ips as [|a ips]; [done|].
  intros [(p & Hp & Ha) _]%firstVertex_Some. exists p. split; [done|]. exists a. split; [done|]. by apply bool_decide_eq_true in Ha.
Qed.

Lemma placeEdge_ok dv ep t :
  e_isUp ep = false /\ e_isEnabled ep = false /\ e_adminDisabled ep = false ->
  wf_topology t -> allDown t -> indexOk dv t ->
  wf_topology (placeEdge dv ep t) /\ allDown (placeEdge dv ep t) /\ indexOk dv (placeEdge dv ep t).
Proof.
  intros Hfl Hwf [Hdv Hde] Hix. pose proof (conj Hwf (conj (conj Hdv Hde) Hix)) as Hid. unfold placeEdge.
  destruct (endpoint dv (srcDpid ep) _ t) as [u|] eqn:Eu; [|exact Hid].
  destruct (endpoint dv (dstDpid ep) _ t) as [v|] eqn:Ev; [|exact Hid].
  assert (forall d e, edges (add_edge u v ep (m_graph t)) !! d = Some e ->
            edges (m_graph t) !! d = Some e \/ (d = (u, v) /\ e = ep)) as Hinv.
  { intros d e. unfold add_edge. case_match; [by left|]. cbn. rewrite lookup_insert. case_decide; naive_solver. }
  assert (vertices (add_edge u v ep (m_graph t)) = vertices (m_graph t)) as Hvs by (unfold add_edge; by case_match).
  split; [split|split; [split|]]; unfold onGraph, getSwitchKind, indexOk; cbn; rewrite ?Hvs; try apply Hwf; try done.
  - intros u' v' e He. destruct (Hinv _ _ He) as [He'|[[= -> ->] ->]]; [by apply (wf_ends t Hwf)|].
    split; by eapply endpoint_ok.
  - intros d e He. destruct (Hinv _ _ He) as [He'|[-> ->]]; [by eapply Hde|done].
Qed.

Lemma loadEdges_ok dv es t t' r :
  loadEdges dv es t = (t', r) -> wf_topology t -> allDown t -> indexOk dv t -> wf_topology t' /\ allDown t'.
Proof.
  revert t. induction es as [|j es IH]; intros t H Hwf Had Hix; cbn [loadEdges] in H; [by injection H as <- <-|].
  destruct (parseEdge j) as [ep|x] eqn:Ej; [|by injection H as <- <-].
  destruct (placeEdge_ok dv ep t (parseEdge_ok _ _ Ej) Hwf Had Hix) as (? & ? & ?). by eapply IH.
Qed.

Lemma newTopology_ok ryu : wf_topology (newTopology ryu) /\ allDown (newTopology ryu).
Proof. split; [split|split]; cbn; intros; done. Qed.

Lemma load_ok mode file ryu t r :
  loadStaticTopologyFromFile mode file (newTopology ryu) = (t, r) -> wf_topology t /\ allDown t.
Proof.
  intros H. destruct (newTopology_ok ryu) as [Hwf Had].
  assert (indexOk ∅ (newTopology ryu)) as Hix by (by intros ? ?; rewrite lookup_empty).
  unfold loadStaticTopologyFromFile in H. change (vertices (m_graph (newTopology ryu))) with (@nil VertexProperties) in H. cbv iota in H.
  destruct file as [[j|]|]; [|by simplify_eq..].
  destruct (jindex j "nodes") as [nodes|]; [|by simplify_eq].
  destruct (loadNodes mode (jiter nodes) ∅ (newTopology ryu)) as [t1 [dv|]] eqn:E1;
    destruct (loadNodes_ok _ _ _ _ _ _ E1 Hwf Had Hix) as (Hwf1 & Had1 & Hix1); [|by simplify_eq].
  destruct (jindex j "edges") as [es|]; [|by simplify_eq]. eapply loadEdges_ok; eauto.
Qed.

(** C29: loading builds a well-formed topology.  Whatever the file contains, and also when loading
    stops at a malformed entry, both ends of every edge are loaded vertices that match the edge's
    dpids or first addresses, every switch has an address, the kind index agrees with the switches,
    and everything starts down and disabled.  A second load, of any file, changes nothing. *)
Theorem load_wellformed mode file ryu t r mode' file' :
  loadStaticTopologyFromFile mode file (newTopology ryu) = (t, r) ->
  wf_topology t /\ allDown t /\
  (vertices (m_graph t) <> [] -> loadStaticTopologyFromFile mode' file' t = (t, Ret tt)).
Proof.
  intros H. destruct (load_ok _ _ _ _ _ H) as [Hwf Had]. split; [done|]. split; [done|].
  intros Hne. unfold loadStaticTopologyFromFile. by destruct (vertices (m_graph t)).
Qed.

(** * A small topology: two switches, a host at each, and the links in both directions *)

Definition sampleNode (type dpid_ mac_ : Z) (addr name : string) : json :=
  JObject [("vertex_type", JUnsigned type); ("mac", JUnsigned mac_); ("ip", JArray [JString addr]); ("dpid", JUnsigned dpid_);
           ("device_name", JString name); ("nickname", JString name); ("brand_name", JString "OVS"); ("device_layer", JUnsigned 1);
           ("bridge_name", JString name)].

Definition sampleLink (sip : string) (sd si : Z) (dip : string) (dd di : Z) : json :=
  JObject [("link_bandwidth_bps", JUnsigned 1000000); ("src_ip", JArray [JString sip]); ("src_dpid", JUnsigned sd);
           ("src_interface", JUnsigned si); ("dst_ip", JArray [JString dip]); ("dst_dpid", JUnsigned dd); ("dst_interface", JUnsigned di)].

Definition sampleFile : json := JObject [
  ("nodes", JArray [sampleNode 0 1 11 "192.168.1.1" "s1"; sampleNode 0 2 12 "192.168.1.2" "s2";
                    sampleNode 1 0 21 "10.0.0.1" "h1"; sampleNode 1 0 22 "10.0.0.2" "h2"]);
  ("edges", JArray [sampleLink "192.168.1.1" 1 1 "192.168.1.2" 2 1; sampleLink "192.168.1.2" 2 1 "192.168.1.1" 1 1;
                    sampleLink "10.0.0.1" 0 0 "192.168.1.1" 1 2; sampleLink "192.168.1.1" 1 2 "10.0.0.1" 0 0;
                    sampleLink "10.0.0.2" 0 0 "192.168.1.2" 2 2; sampleLink "192.168.1.2" 2 2 "10.0.0.2" 0 0])].

Definition sampleTopology : Topology :=
  (loadStaticTopologyFromFile MININET (Some (Some sampleFile)) (newTopology "127.0.0.1:8080")).1.

(** A parser that knows one reply. *)
Definition sampleParse (text : string) : option json :=
  if bool_decide (text = "switches") then Some (JArray [JObject [("dpid", JString "1")]; JObject [("dpid", JString "0002")]; JObject []])
  else None.

Lemma admin_disable_survives_witness :
  exists p, vertices (m_graph (runOps (disableSwitchAndEdges 2 sampleTopology).1
                                 [OpPoll sampleParse "switches" "" ""; OpVertexUp 1; OpEdgeEnable (0%nat, 1%nat)])) !! 1%nat = Some p /\
            isUsableVertex p = false.
Proof.
  apply (admin_disable_survives 2 sampleTopology 1); [by vm_compute|]. repeat constructor.
Defined.

Lemma switch_poll_exact_witness :
  vertices (m_graph (updateSwitches sampleParse "switches" sampleTopology)) !! 1%nat =
  raise true <$> vertices (m_graph sampleTopology) !! 1%nat.
Proof.
  apply (switch_poll_exact sampleParse "switches"
           [JObject [("dpid", JString "1")]; JObject [("dpid", JString "0002")]; JObject []] sampleTopology 1); [done|done|].
  repeat constructor; by eexists.
Defined.

Lemma enable_clears_shared_links_witness :
  exists e, edges (m_graph (enableSwitchAndEdges 1 (disableSwitchAndEdges 2 (disableSwitchAndEdges 1 sampleTopology).1).1).1)
              !! (0%nat, 1%nat) = Some e /\ e_adminDisabled e = false.
Proof.
  eexists. split; [by vm_compute|].
  eapply (enable_clears_shared_links 1 2 sampleTopology 0 1 (0%nat, 1%nat)); [by vm_compute|by vm_compute|done|by left|by vm_compute].
Defined.

Lemma load_wellformed_witness :
  wf_topology sampleTopology /\ length (vertices (m_graph sampleTopology)) = 4%nat /\ size (edges (m_graph sampleTopology)) = 6%nat.
Proof.
  split; [|by vm_compute].
  apply (load_wellformed MININET (Some (Some sampleFile)) "127.0.0.1:8080" sampleTopology (Ret tt) MININET None).
  by vm_compute.
Defined.
