(* ===== verification/TopologyPaths.v ===== *)
(** Paths through the topology: the depth-first search for all paths between two switches is sound
    and complete, for every topology the program can reach. *)

From S2P Require Import Prelude Bytes CStrings NetUtils Json SFlowTypes GraphTypes Topology TopologyProps.
From Stdlib Require Import SpecFloat.
Local Open Scope string_scope.
Local Open Scope list_scope.
Local Open Scope Z_scope.

(** * Reachable topologies have no dangling edges *)

Definition closedGraph (g : Graph) : Prop :=
  forall u v e, edges g !! (u, v) = Some e -> (u < length (vertices g))%nat /\ (v < length (vertices g))%nat.

(** Any change of the properties of vertices and edges. *)
Definition anyV (_ _ : VertexProperties) : Prop := True.
Definition anyE (_ _ : EdgeProperties) : Prop := True.
#[export] Instance anyV_refl : Reflexive anyV.
Proof. done. Qed.
#[export] Instance anyV_trans : Transitive anyV.
Proof. done. Qed.
#[export] Instance anyE_refl : Reflexive anyE.
Proof. done. Qed.
#[export] Instance anyE_trans : Transitive anyE.
Proof. done. Qed.

Abbreviation reshaped := (evolves anyV anyE).

Lemma reshaped_closed g g' : reshaped g g' -> closedGraph g -> closedGraph g'.
Proof.
  intros Hg Hc u v e He. destruct (evolves_edge_r _ _ _ _ _ _ Hg He) as (e0 & He0 & _).
  destruct Hg as [Hv _]. rewrite <- (Forall2_length _ _ _ Hv). by eapply Hc.
Qed.

Lemma runOp_reshaped t op : reshaped (m_graph t) (m_graph (runOp t op)).
Proof.
  destruct (isEnableOp op) eqn:E.
  - destruct op; try done. cbn [runOp]. unfold enableSwitchAndEdges.
    destruct (findSwitchByDpid dpid t) as [v|]; cbn; [|done].
    etrans; [apply (evolves_alterVertex anyV anyE); done|].
    by apply (evolves_edges anyV anyE (fun d e => if incident v d then eflags (e_isUp e) true false e else e)).
  - pose proof (runOp_keeps t op E) as H. revert H. by apply evolves_impl.
Qed.

Lemma runOps_closed t ops : closedGraph (m_graph t) -> closedGraph (m_graph (runOps t ops)).
Proof.
  revert t. induction ops as [|op ops IH]; intros t Hc; [done|]. cbn. apply IH.
  by eapply reshaped_closed; [apply runOp_reshaped|].
Qed.

Lemma wf_closed t : wf_topology t -> closedGraph (m_graph t).
Proof.
  intros Hwf u v e He. destruct (wf_ends t Hwf u v e He) as [(p & Hp & _) (q & Hq & _)].
  split; by eapply lookup_lt_Some.
Qed.

(** The states of a monitor: a load and any operations after it. *)
Definition reachable (mode : DeploymentMode) (ryu : string) (t : Topology) : Prop :=
  exists file ops, t = runOps (loadStaticTopologyFromFile mode file (newTopology ryu)).1 ops.

Lemma load_closed mode file ryu : closedGraph (m_graph (loadStaticTopologyFromFile mode file (newTopology ryu)).1).
Proof.
  destruct (loadStaticTopologyFromFile mode file (newTopology ryu)) as [t r] eqn:E. apply wf_closed.
  by eapply load_ok.
Qed.

Lemma reachable_closed mode ryu t : reachable mode ryu t -> closedGraph (m_graph t).
Proof. intros (file & ops & ->). apply runOps_closed, load_closed. Qed.

(** No two vertices share a dpid; 0 is the dpid of hosts. *)
Definition uniqueDpids (g : Graph) : Prop :=
  forall v w p q, vertices g !! v = Some p -> vertices g !! w = Some q -> v_dpid p = v_dpid q -> v_dpid p <> 0 -> v = w.

(** * Routes *)

(** A route over usable edges: the vertices after the start, and the hops taken. *)
Inductive route (g : Graph) (dst : nat) : nat -> list nat -> Path -> Prop :=
  | route_end : route g dst dst [] []
  | route_step u v ep vs hops :
      edges g !! (u, v) = Some ep -> isUsableEdge ep = true -> route g dst v vs hops ->
      route g dst u (v :: vs) ((srcDpid ep, srcInterface ep) :: hops).

Lemma route_ends g dst u vs hops : route g dst u vs hops -> dst ∈ u :: vs.
Proof. induction 1 as [|u v ep vs hops He Hu Hr IH]; [apply elem_of_cons; by left|]. apply elem_of_cons. by right. Qed.

Lemma elem_of_out_edges u g d ep : (d, ep) ∈ out_edges u g <-> edges g !! d = Some ep /\ d.1 = u.
Proof. unfold out_edges. rewrite list_elem_of_filter, elem_of_edgesInOrder. cbn. tauto. Qed.

Lemma short_nodup (N : nat) (l : list nat) : NoDup l -> Forall (fun w => (w < N)%nat) l -> (length l <= N)%nat.
Proof.
  intros Hnd Hlt. rewrite <- (length_seq N 0). apply submseteq_length, NoDup_submseteq; [done|].
  intros w Hw. rewrite Forall_forall in Hlt. apply elem_of_seq. specialize (Hlt w Hw). lia.
Qed.

(** A duplicate-free list of vertices that misses one of them is shorter than the graph. *)
Lemma visited_short (N : nat) (visited : list nat) u :
  NoDup visited -> Forall (fun w => (w < N)%nat) visited -> u ∉ visited -> (u < N)%nat -> (length visited < N)%nat.
Proof. intros. apply (short_nodup N (u :: visited)); by constructor. Qed.

Lemma elem_of_concat_fmap {A B} (f : A -> list B) (l : list A) x :
  x ∈ concat (f <$> l) <-> exists y, y ∈ l /\ x ∈ f y.
Proof.
  induction l as [|a l IH]; cbn.
  - split; [by intros ?%elem_of_nil|]. by intros (y & ?%elem_of_nil & _).
  - rewrite elem_of_app, IH. setoid_rewrite elem_of_cons. naive_solver.
Qed.

Section Search.
Context (g : Graph) (Hclosed : closedGraph g) (dst : nat) (dd dip : Z).
Let N := length (vertices g).

Definition suffix : Path := [(dd, 0); (dip, 0)].

(** The search at the destination. *)
Lemma dfs_here n visited path x :
  x ∈ dfs g dst dd dip n visited path dst <->
  exists vs hops, route g dst dst vs hops /\ NoDup (dst :: vs) /\ x = path ++ hops ++ suffix.
Proof.
  replace (dfs g dst dd dip n visited path dst) with [path ++ suffix] by (destruct n; cbn [dfs]; by rewrite bool_decide_true).
  rewrite list_elem_of_singleton. split.
  - intros ->. exists [], []. split_and!; [constructor|apply NoDup_singleton|done].
  - intros (vs & hops & Hr & Hn & ->). inversion Hr as [|? ? ? ? ? ? ? Hr']; subst; [done|].
    apply NoDup_cons in Hn as [Hn _]. by apply route_ends in Hr'.
Qed.

Lemma dfs_spec n visited path u x :
  NoDup visited -> Forall (fun w => (w < N)%nat) visited -> u ∉ visited -> dst ∉ visited -> (u < N)%nat ->
  (N <= n + length visited)%nat ->
  x ∈ dfs g dst dd dip n visited path u <->
  exists vs hops, route g dst u vs hops /\ NoDup (u :: vs) /\ Forall (fun w => w ∉ visited) vs /\ x = path ++ hops ++ suffix.
Proof.
  revert visited path u. induction n as [|n IH]; intros visited path u Hnd Hlt Hu Hdv HuN Hfuel;
    pose proof (visited_short N visited u Hnd Hlt Hu HuN) as Hshort; [lia|].
  destruct (decide (u = dst)) as [->|Hne].
  { rewrite dfs_here. split; intros (vs & hops & Hr & Hn & H); [|naive_solver]. exists vs, hops. split_and!; try done.
    inversion Hr as [|? ? ? ? ? ? ? Hr']; subst; [constructor|]. apply NoDup_cons in Hn as [Hn _]. by apply route_ends in Hr'. }
  cbn [dfs]. rewrite bool_decide_false by done. rewrite elem_of_concat_fmap.
  assert (NoDup (u :: visited) /\ Forall (fun w => (w < N)%nat) (u :: visited)) as [Hnd' Hlt'] by (split; by constructor).
  assert (dst ∉ u :: visited) as Hdv' by (rewrite not_elem_of_cons; by split).
  split.
  - intros ([[u' v] ep] & [He Hu']%elem_of_out_edges & Hx). cbn in Hu'. subst u'.
    case_bool_decide as Hv; [by apply elem_of_nil in Hx|]. destruct (isUsableEdge ep) eqn:Hus; [|by apply elem_of_nil in Hx].
    apply IH in Hx as (vs & hops & Hr & Hn & Hf & ->); [|done..|by eapply Hclosed|cbn; lia].
    exists (v :: vs), ((srcDpid ep, srcInterface ep) :: hops). split_and!.
    + by econstructor.
    + constructor; [|done]. intros [->|Hin]%elem_of_cons; [apply Hv, elem_of_cons; by left|].
      rewrite Forall_forall in Hf. by apply (Hf u Hin), elem_of_cons; left.
    + apply not_elem_of_cons in Hv as [_ Hv]. constructor; [done|]. eapply Forall_impl; [done|].
      intros w Hw. by apply not_elem_of_cons in Hw as [_ ?].
    + by rewrite <- (assoc_L (++)).
  - intros (vs & hops & Hr & Hn & Hf & ->). inversion Hr as [|? v ep vs' hops' He Hus Hr']; subst; [done|].
    exists ((u, v), ep). split; [by apply elem_of_out_edges|]. apply NoDup_cons in Hn as [Hnu Hn].
    inversion_clear Hf as [|? ? Hvv Hf'].
    assert (v ∉ u :: visited) as Hv.
    { rewrite not_elem_of_cons. split; [|done]. intros ->. apply Hnu, elem_of_cons. by left. }
    rewrite bool_decide_false, Hus by done. apply IH; [done..|by eapply Hclosed|cbn; lia|]. exists vs', hops'.
    split_and!; [done|done| |by rewrite <- (assoc_L (++))]. rewrite Forall_forall in *. intros w Hw. rewrite not_elem_of_cons.
    split; [|by apply Hf']. intros ->. apply Hnu, elem_of_cons. by right.
Qed.
End Search.

(** C23: all paths, and only them.  In every reachable topology the search between two switches ends
    and returns exactly the loop-free routes over usable links from the one to the other, each as
    the source host, the dpid and port of every hop, the destination switch and the destination
    host. *)
Theorem all_paths_exact mode ryu t k sd dd x :
  reachable mode ryu t ->
  x ∈ getAllPathsBetweenTwoHosts k sd dd t <->
  exists u v vs hops, findSwitchByDpid sd t = Some u /\ findSwitchByDpid dd t = Some v /\
    route (m_graph t) v u vs hops /\ NoDup (u :: vs) /\
    x = (srcIP k, 0) :: hops ++ [(dd, 0); (dstIP k, 0)].
Proof.
  intros Hr. apply reachable_closed in Hr as Hc. unfold getAllPathsBetweenTwoHosts.
  destruct (findSwitchByDpid sd t) as [u|] eqn:Eu; [|split; [by intros ?%elem_of_nil|naive_solver]].
  destruct (findSwitchByDpid dd t) as [v|] eqn:Ev; [|split; [by intros ?%elem_of_nil|naive_solver]].
  assert (u < length (vertices (m_graph t)))%nat as Hu.
  { apply firstVertex_Some in Eu as [(p & Hp & _) _]. by eapply lookup_lt_Some. }
  rewrite dfs_spec; [|done|constructor|constructor|by intros ?%elem_of_nil..|done|cbn; lia]. split.
  - intros (vs & hops & H1 & H2 & _ & ->). by exists u, v, vs, hops.
  - intros (u' & v' & vs & hops & [= <-] & [= <-] & H1 & H2 & ->). exists vs, hops. split_and!; try done.
    apply Forall_forall. by intros w _ ?%elem_of_nil.
Qed.

Lemma all_paths_exact_witness :
  [(16777226, 0); (1, 1); (2, 0); (33554442, 0)] ∈
  getAllPathsBetweenTwoHosts {| srcIP := 16777226; dstIP := 33554442; srcPort := 0; dstPort := 0; protocol := 6; icmpType := 0; icmpCode := 0 |}
    1 2 (runOps sampleTopology [OpEdgeUp (0%nat, 1%nat); OpEdgeEnable (0%nat, 1%nat)]).
Proof.
  apply (all_paths_exact MININET "127.0.0.1:8080"). { by exists (Some (Some sampleFile)), [OpEdgeUp (0%nat, 1%nat); OpEdgeEnable (0%nat, 1%nat)]. }
  exists 0%nat, 1%nat, [1%nat], [(1, 1)]. split_and!; [by vm_compute|by vm_compute| |by repeat constructor; set_solver|done].
  destruct (edges (m_graph (runOps sampleTopology [OpEdgeUp (0%nat, 1%nat); OpEdgeEnable (0%nat, 1%nat)])) !! (0%nat, 1%nat)) as [e|] eqn:Ee;
    [|by vm_compute in Ee].
  replace (1, 1) with (srcDpid e, srcInterface e) by (vm_compute in Ee; by injection Ee as <-).
  econstructor; [done| |constructor]. vm_compute in Ee. by injection Ee as <-.
Defined.
