(* ===== verification/TopologyFlows.v ===== *)
(** The state of a link: the flows seen on it and the bandwidth it uses. *)

From S2P Require Import Prelude Bytes CStrings NetUtils Json SFlowTypes GraphTypes Topology TopologyProps.
From Stdlib Require Import SpecFloat.
Local Open Scope string_scope.
Local Open Scope list_scope.
Local Open Scope Z_scope.

(** * The flows of an edge *)

(** A flow is seen on an edge, or the flush loop makes a pass. *)
Inductive FlowEvent := Touched (d : EdgeDesc) (key : FlowKey) | Flushed.

Definition flowStep (t : Topology) (e : Z * FlowEvent) : Topology :=
  match e with
  | (now, Touched d key) => (touchEdgeFlow now d key t).1
  | (now, Flushed) => flushEdgeFlows (fun _ _ => now) t
  end.

(** When a flow was last seen on an edge. *)
Definition lastTouch (d : EdgeDesc) (key : FlowKey) (h : list (Z * FlowEvent)) : option Z :=
  foldl (fun acc e => match e with
                      | (now, Touched d' key') => if bool_decide (d' = d /\ key' = key) then Some now else acc
                      | (_, Flushed) => acc
                      end) None h.

Definition seen (t : Topology) (d : EdgeDesc) (key : FlowKey) : option Z :=
  match edges (m_graph t) !! d with Some e => flowSet e !! key | None => None end.

Lemma seen_touch now d key t d' key' :
  is_Some (edges (m_graph t) !! d) ->
  seen (touchEdgeFlow now d key t).1 d' key' = if bool_decide (d = d' /\ key = key') then Some now else seen t d' key'.
Proof.
  intros [e He]. unfold seen. cbn. destruct (decide (d = d')) as [<-|Hd].
  - rewrite lookup_alter_eq, He. cbn. rewrite lookup_insert. case_decide; case_bool_decide; naive_solver.
  - rewrite lookup_alter_ne by done. rewrite bool_decide_false; naive_solver.
Qed.

Lemma seen_flush now t d key :
  seen (flushEdgeFlows (fun _ _ => now) t) d key =
  match seen t d key with Some ts => if bool_decide (now - ts <= FLOW_TTL) then Some ts else None | None => None end.
Proof.
  unfold seen, flushEdgeFlows. cbn. rewrite map_lookup_imap. destruct (edges (m_graph t) !! d) as [e|]; [|done]. cbn.
  rewrite map_lookup_filter. destruct (flowSet e !! key) as [ts|]; [|done]. cbn. case_guard; case_bool_decide; done.
Qed.

Lemma flowStep_edges t e d : is_Some (edges (m_graph (flowStep t e)) !! d) <-> is_Some (edges (m_graph t) !! d).
Proof.
  destruct e as [now [d' key|]]; cbn.
  - rewrite lookup_alter. case_decide; subst; by rewrite ?fmap_is_Some.
  - rewrite map_lookup_imap. destruct (edges (m_graph t) !! d); cbn; naive_solver.
Qed.

(** Between two events in clock order: what is listed is the last sighting, and a sighting that is
    not listed is older than the limit. *)
Definition flows_ok (t : Topology) (now : Z) (h : list (Z * FlowEvent)) : Prop :=
  forall d key,
    (forall ts, seen t d key = Some ts -> lastTouch d key h = Some ts) /\
    (forall ts, lastTouch d key h = Some ts -> ts <= now /\ (seen t d key = Some ts \/ FLOW_TTL < now - ts)).

Lemma lastTouch_snoc d key h e :
  lastTouch d key (h ++ [e]) =
  match e with
  | (now, Touched d' key') => if bool_decide (d' = d /\ key' = key) then Some now else lastTouch d key h
  | (_, Flushed) => lastTouch d key h
  end.
Proof. unfold lastTouch. rewrite foldl_app. by destruct e as [? []]. Qed.

Lemma flows_step t last h e :
  (forall d key, e.2 = Touched d key -> is_Some (edges (m_graph t) !! d)) -> last <= e.1 ->
  flows_ok t last h -> flows_ok (flowStep t e) e.1 (h ++ [e]).
Proof.
  intros He Hlast Hok d key. destruct (Hok d key) as [H1 H2]. rewrite lastTouch_snoc.
  destruct e as [now [d' key'|]]; cbn [flowStep fst snd] in *.
  - rewrite seen_touch by by eapply He. case_bool_decide as Hq.
    + split; [done|]. intros ts [= <-]. split; [lia|by left].
    + split; [done|]. intros ts Hts. destruct (H2 ts Hts) as [Hle [Hs|Hs]]; split; [lia|by left|lia|right; lia].
  - rewrite seen_flush. destruct (seen t d key) as [ts|] eqn:Es.
    + case_bool_decide as Hq; (split; [|intros ts' Hts'; rewrite (H1 ts eq_refl) in Hts'; injection Hts' as <-]).
      * intros ts' [= <-]. by apply H1.
      * destruct (H2 ts (H1 ts eq_refl)) as [Hle _]. split; [lia|by left].
      * done.
      * destruct (H2 ts (H1 ts eq_refl)) as [Hle _]. split; [lia|right; lia].
    + split; [done|]. intros ts Hts. destruct (H2 ts Hts) as [Hle [Hs|Hs]]; [done|]. split; [lia|right; lia].
Qed.

Definition endTime (last : Z) (h : list (Z * FlowEvent)) : Z := foldl (fun _ e => e.1) last h.

Lemma flows_run h2 t h1 last :
  Forall (fun e => forall d key, e.2 = Touched d key -> is_Some (edges (m_graph t) !! d)) h2 ->
  Forall (fun e => last <= e.1) h2 -> StronglySorted (fun e e' => e.1 <= e'.1) h2 ->
  flows_ok t last h1 -> flows_ok (foldl flowStep t h2) (endTime last h2) (h1 ++ h2).
Proof.
  revert t h1 last. induction h2 as [|e h2 IH]; intros t h1 last He Hl Hs Hok; [by rewrite app_nil_r|].
  inversion_clear He as [|? ? He1 He2]. inversion_clear Hl as [|? ? Hl1 Hl2]. inversion_clear Hs as [|? ? Hs1 Hs2].
  rewrite (cons_middle e h1 h2), (assoc_L (++)). cbn [foldl]. unfold endTime. cbn [foldl]. apply IH; [|done|done|by apply (flows_step _ last)].
  apply (Forall_impl _ _ _ He2). intros e0 H d key Hd. apply flowStep_edges. by eapply H.
Qed.

(** The flows listed on an edge.  For sightings on existing edges and flush passes in clock
    order, starting from edges without flows, right after a flush an edge lists a flow exactly when
    its last sighting there is at most two seconds old, and lists it with that time. *)
Theorem edge_flows_exact t h now d key ts :
  (forall d key, seen t d key = None) ->
  Forall (fun e => forall d key, e.2 = Touched d key -> is_Some (edges (m_graph t) !! d)) h ->
  StronglySorted (fun e e' => e.1 <= e'.1) (h ++ [(now, Flushed)]) ->
  seen (flushEdgeFlows (fun _ _ => now) (foldl flowStep t h)) d key = Some ts <->
  lastTouch d key h = Some ts /\ now - ts <= FLOW_TTL.
Proof.
  intros Hempty Hedges Hsorted.
  assert (flows_ok (foldl flowStep t (h ++ [(now, Flushed)])) now ([] ++ h ++ [(now, Flushed)])) as Hok.
  { pose proof (flows_run (h ++ [(now, Flushed)]) t [] (default now (head h.*1))) as Hrun.
    unfold endTime in Hrun. rewrite !(foldl_app _ h) in Hrun. rewrite (foldl_app _ h). apply Hrun; [by apply Forall_app; split; [|by constructor]| |done|].
    - destruct h as [|e h]; cbn in *; [by constructor|]. inversion_clear Hsorted as [|? ? _ Hf]. by constructor.
    - intros d' key'. split; [by intros ts'; rewrite Hempty|done]. }
  rewrite foldl_app in Hok. destruct (Hok d key) as [H1 H2]. cbn [foldl flowStep] in H1, H2.
  rewrite (app_nil_l (h ++ _)), lastTouch_snoc in H1, H2. split.
  - intros Hs. split; [by apply H1|]. rewrite seen_flush in Hs. destruct (seen (foldl flowStep t h) d key); [|done].
    case_bool_decide; [|done]. by injection Hs as ->.
  - intros [Hl Hn]. destruct (H2 ts Hl) as [_ [?|?]]; [done|lia].
Qed.

(** * The bandwidth of a link *)

Section Rates.
Context (undefinedCast : spec_float -> Z) (cast_fits : forall x, fits 64 (undefinedCast x)).

Lemma bitsPerSecond_fits bytes s : fits 64 (bitsPerSecond undefinedCast bytes s).
Proof.
  unfold bitsPerSecond. destruct (f64_to_u64 _) as [v|] eqn:E; [|apply cast_fits].
  revert E. unfold f64_to_u64. destruct (f64_div _ _) as [b|b| |b m e]; [intros [= <-]; apply fits_0; lia|done|done|].
  cbn zeta. case_bool_decide as Hr; [|done]. by intros [= <-].
Qed.

(** C39: the published use of a link.  A positive interval publishes, on exactly the edge that leaves
    the agent by the port, the rate of the accumulated bytes capped by the link's capacity, with the
    rest as left bandwidth; the capacity, the flags and every other edge and vertex are unchanged.
    An interval that is not positive changes nothing. *)
Theorem sampled_use_capped key bytes s t :
  let t' := updateLinkInfoLeftLinkBandwidth undefinedCast key bytes s t in
  if f64_gt s (S754_zero false) then
    vertices (m_graph t') = vertices (m_graph t) /\
    forall d e, edges (m_graph t) !! d = Some e -> fits 64 (linkBandwidth e) ->
      exists e', edges (m_graph t') !! d = Some e' /\
      if bool_decide (findEdgeByAgentIpAndPort key t = Some d) then
        linkBandwidthUsage e' = Z.min (bitsPerSecond undefinedCast bytes s) (linkBandwidth e) /\
        leftBandwidthFromFlowSample e' + linkBandwidthUsage e' = linkBandwidth e /\
        linkBandwidth e' = linkBandwidth e /\ isUsableEdge e' = isUsableEdge e /\ flowSet e' = flowSet e
      else e' = e
  else t' = t.
Proof.
  cbv zeta. unfold updateLinkInfoLeftLinkBandwidth. destruct (f64_gt s (S754_zero false)); cbn [negb]; [|done].
  change (findEdgeByAgentIpAndPort key (set_divisor s t)) with (findEdgeByAgentIpAndPort key t).
  destruct (findEdgeByAgentIpAndPort key t) as [d0|] eqn:Ed; cbn.
  2:{ split; [done|]. intros d e He _. exists e. by rewrite bool_decide_false. }
  split; [done|]. intros d e He Hbw. rewrite lookup_alter. case_decide as Hd; subst.
  - rewrite He. cbn. eexists. split; [done|]. rewrite bool_decide_true by done. cbn.
    pose proof (bitsPerSecond_fits bytes s) as Hr. set (r := bitsPerSecond undefinedCast bytes s) in *. unfold fits in *.
    assert ((if bool_decide (linkBandwidth e < r) then 0 else u64 (linkBandwidth e - r)) = linkBandwidth e - Z.min r (linkBandwidth e)) as ->
      by (case_bool_decide; rewrite ?u64_id by lia; lia).
    rewrite bool_decide_false, u64_id by lia. split_and!; done || lia.
  - rewrite He. exists e. split; [done|]. by rewrite bool_decide_false by congruence.
Qed.

End Rates.

Definition touchedFlow : FlowKey :=
  {| srcIP := 16777226; dstIP := 33554442; srcPort := 1000; dstPort := 80; protocol := 6; icmpType := 0; icmpCode := 0 |}.

Lemma edge_flows_exact_witness :
  seen (flushEdgeFlows (fun _ _ => 4000000000) (foldl flowStep sampleTopology
         [(1000000000, Touched (0%nat, 1%nat) touchedFlow); (1500000000, Flushed); (3000000000, Touched (0%nat, 1%nat) touchedFlow)]))
       (0%nat, 1%nat) touchedFlow = Some 3000000000.
Proof.
  apply (edge_flows_exact sampleTopology
    [(1000000000, Touched (0%nat, 1%nat) touchedFlow); (1500000000, Flushed); (3000000000, Touched (0%nat, 1%nat) touchedFlow)]
    4000000000 (0%nat, 1%nat) touchedFlow 3000000000).
  - intros d key. destruct (seen sampleTopology d key) as [ts|] eqn:E; [|done]. exfalso. revert E. unfold seen.
    assert (map_Forall (fun _ e => flowSet e = ∅) (edges (m_graph sampleTopology))) as H.
    { apply (bool_decide_unpack _). by vm_compute. }
    destruct (edges (m_graph sampleTopology) !! d) as [e|] eqn:Ed; [|done]. rewrite (H d e Ed). by rewrite lookup_empty.
  - repeat constructor; cbn; intros d key [= <- <-]; vm_compute; eauto.
  - repeat constructor; cbn; lia.
  - split; [by vm_compute|]. unfold FLOW_TTL. lia.
Defined.

Lemma sampled_use_capped_witness :
  f64_gt (f64_of_Z 2) (S754_zero false) = true /\
  exists e', edges (m_graph (updateLinkInfoLeftLinkBandwidth (fun _ => 0) (16885952, 1) 25000 (f64_of_Z 2) sampleTopology)) !! (0%nat, 1%nat)
             = Some e' /\ linkBandwidthUsage e' = 100000.
Proof.
  split; [by vm_compute|].
  pose proof (sampled_use_capped (fun _ => 0) (fun _ => fits_0 64 ltac:(lia)) (16885952, 1) 25000 (f64_of_Z 2) sampleTopology) as H.
  replace (f64_gt (f64_of_Z 2) (S754_zero false)) with true in H by by vm_compute. destruct H as [_ H].
  destruct (edges (m_graph sampleTopology) !! (0%nat, 1%nat)) as [e|] eqn:Ee; [|by vm_compute in Ee].
  destruct (H _ e Ee) as (e' & He' & Hd). { vm_compute in Ee. injection Ee as <-. by vm_compute. }
  exists e'. split; [done|]. rewrite bool_decide_true in Hd by by vm_compute. destruct Hd as [-> _].
  vm_compute in Ee. injection Ee as <-. by vm_compute.
Defined.
