(* ===== verification/TopologyBfs.v ===== *)
(** Shortest paths to a destination (src/ndt_core/collection/TopologyAndFlowMonitor.cpp,
    [bfsAllPathsToDst]): a breadth-first search from the destination switch computes the next hop
    of every vertex, the rules that send the destination's packets along it, and the paths of all
    hosts.

    The graph argument is the monitor's own graph, as its callers pass it.  [SHA256] is a
    parameter, and so is [std::sort], which leaves the order of equal elements open.  The null
    vertex is [None].  The loops take fuel and return [None] without it; the number of vertices is
    always enough. *)

From S2P Require Import Prelude Bytes CStrings NetUtils Json SFlowTypes GraphTypes Topology TopologyProps TopologyPaths.
Local Open Scope string_scope.
Local Open Scope list_scope.
Local Open Scope Z_scope.

(** * Model *)

(** Network, mask, output port and priority. *)
Abbreviation FlowRule := (Z * Z * Z * Z)%type.
Abbreviation FlowTables := (gmap Z (list FlowRule)).

Definition kHostMask : Z := 0xFFFFFFFF.
Definition kPriority : Z := 100.

Definition isRule (net mask pri : Z) (r : FlowRule) : bool :=
  let '(n, m, _, p) := r in bool_decide (n = net) && bool_decide (m = mask) && bool_decide (p = pri).

Definition ruleExists (flowTable : list FlowRule) (net mask pri : Z) : bool :=
  existsb (isRule net mask pri) flowTable.

(** The rule for a destination, unless the switch already has one. *)
Definition addRule (dpid dstIp outPort : Z) (tables : FlowTables) : FlowTables :=
  let flowTable := default [] (tables !! dpid) in
  let net := Z.land dstIp kHostMask in
  <[dpid := if ruleExists flowTable net kHostMask kPriority then flowTable
            else flowTable ++ [(net, kHostMask, outPort, kPriority)]]> tables.

(** [std::sort] with a comparison of keys. *)
Class StdSort := {
  std_sort : (nat -> Z) -> list nat -> list nat;
  std_sort_perm : forall key l, std_sort key l ≡ₚ l;
  std_sort_sorted : forall key l, StronglySorted (fun a b => key a <= key b) (std_sort key l)
}.

Record Bfs := {
  parent : gmap nat (option nat);
  visited : gset nat;
  queue : list nat;
  newOpenflowTables : FlowTables
}.

Definition vertexDpid (g : Graph) (v : nat) : Z := from_option v_dpid 0 (vertices g !! v).

Definition usableAt (g : Graph) (v : nat) : bool := from_option isUsableVertex false (vertices g !! v).

(** [parent[v]]; reading a missing key gives vertex 0. *)
Definition parentOf (p : gmap nat (option nat)) (v : nat) : option nat := default (Some 0%nat) (p !! v).

Section Bfs.
Context (SHA256 : string -> list Z) `{StdSort}.

(** The first eight bytes of the digest. *)
Definition hashDstIp (str : string) : Z :=
  fold_left (fun result b => Z.lor (u64 (Z.shiftl result 8)) b) (take 8 (SHA256 str)) 0.

(** The rule of a vertex that leaves the queue. *)
Definition ruleToParent (g : Graph) (dstIp : Z) (current : nat) (prev : option nat) (tables : FlowTables) : FlowTables :=
  match prev with
  | None => tables
  | Some u =>
      match edge current u g with
      | Some e =>
          let dpid := vertexDpid g current in
          if bool_decide (dpid <> 0) then addRule dpid dstIp (srcInterface e) tables else tables
      | None => tables
      end
  end.

Definition newNeighbors (g : Graph) (seen : gset nat) (current : nat) : list nat :=
  (fun x => x.1.2) <$>
    filter (fun x => usableAt g x.1.2 = true /\ isUsableEdge x.2 = true /\ x.1.2 ∉ seen) (out_edges current g).

Definition neighborKey (g : Graph) (dstIp : Z) (v : nat) : Z :=
  hashDstIp (ipToString dstIp +:+ std_to_string (vertexDpid g v)).

(** One iteration: [current] has been taken from the queue, [q] is the rest of it. *)
Definition bfsStep (g : Graph) (dstIp : Z) (current : nat) (q : list nat) (s : Bfs) : Bfs :=
  let neighbors := std_sort (neighborKey g dstIp) (newNeighbors g (visited s) current) in
  {| parent := fold_left (fun p v => <[v := Some current]> p) neighbors (parent s);
     visited := fold_left (fun vis v => {[v]} ∪ vis) neighbors (visited s);
     queue := q ++ neighbors;
     newOpenflowTables := ruleToParent g dstIp current (parentOf (parent s) current) (newOpenflowTables s) |}.

Fixpoint bfsLoop (n : nat) (g : Graph) (dstIp : Z) (s : Bfs) : option Bfs :=
  match queue s, n with
  | [], _ => Some s
  | current :: q, S n => bfsLoop n g dstIp (bfsStep g dstIp current q s)
  | _ :: _, O => None
  end.

Definition bfsStart (dstSwitch : nat) (tables : FlowTables) : Bfs :=
  {| parent := {[dstSwitch := None]}; visited := {[dstSwitch]}; queue := [dstSwitch]; newOpenflowTables := tables |}.

(** The hops from a visited vertex to the destination switch. *)
Fixpoint parentWalk (n : nat) (g : Graph) (p : gmap nat (option nat)) (dstSwitch v : nat) : option Path :=
  if bool_decide (v = dstSwitch) then Some []
  else
    match n, parentOf p v with
    | S n, Some nextHop =>
        hops ← parentWalk n g p dstSwitch nextHop;
        Some (match edge v nextHop g with
              | Some e => (vertexDpid g v, srcInterface e) :: hops
              | None => hops
              end)
    | _, _ => None
    end.

(** The path of one source host, if it has one, and the rule of the destination switch. *)
Definition hostPath (t : Topology) (dstSwitch : nat) (dstIp : Z) (s : Bfs) (srcIp : Z) (tables : FlowTables)
  : option (option Path * FlowTables) :=
  let g := m_graph t in
  if bool_decide (srcIp = dstIp) then Some (None, tables)
  else
    match findVertexByIp srcIp t, findEdgeByHostIp srcIp t with
    | Some _, Some d =>
        if bool_decide (d.2 ∉ visited s) then Some (None, tables)
        else
          hops ← parentWalk (length (vertices g)) g (parent s) dstSwitch d.2;
          let path := (srcIp, from_option e_dstInterface 0 (edges g !! d)) :: hops in
          match findVertexByIp dstIp t with
          | None => Some (None, tables)
          | Some dstHost =>
              match edge dstSwitch dstHost g with
              | Some e =>
                  Some (Some (path ++ [(vertexDpid g dstSwitch, srcInterface e); (dstIp, 0)]),
                        addRule (vertexDpid g dstSwitch) dstIp (srcInterface e) tables)
              | None => Some (Some (path ++ [(dstIp, 0)]), tables)
              end
          end
    | _, _ => Some (None, tables)
    end.

Fixpoint hostPaths (t : Topology) (dstSwitch : nat) (dstIp : Z) (s : Bfs) (hosts : list Z) (tables : FlowTables)
  : option (list Path * FlowTables) :=
  match hosts with
  | [] => Some ([], tables)
  | srcIp :: hosts =>
      '(o, tables) ← hostPath t dstSwitch dstIp s srcIp tables;
      '(l, tables) ← hostPaths t dstSwitch dstIp s hosts tables;
      Some (option_list o ++ l, tables)
  end.

Definition bfsAllPathsToDst (t : Topology) (dstSwitch : nat) (dstIp : Z) (allHostIps : list Z) (tables : FlowTables)
  : option (list Path * FlowTables) :=
  let g := m_graph t in
  s ← bfsLoop (length (vertices g)) g dstIp (bfsStart dstSwitch tables);
  hostPaths t dstSwitch dstIp s allHostIps (newOpenflowTables s).
End Bfs.

(** * Distances *)

Section Distance.
Context (g : Graph) (dst : nat).

(** The search goes from [u] to [v]. *)
Definition hop (u v : nat) : Prop :=
  exists e, edges g !! (u, v) = Some e /\ isUsableEdge e = true /\ usableAt g v = true.

Inductive reach : nat -> nat -> Prop :=
  | reach_O : reach 0 dst
  | reach_S n u v : reach n u -> hop u v -> reach (S n) v.

(** The least number of hops. *)
Definition dist (n v : nat) : Prop := reach n v /\ forall m, reach m v -> (n <= m)%nat.

(** The packet hop of [v] towards [u]. *)
Definition hopTo (v u : nat) : Path :=
  match edge v u g with Some e => [(vertexDpid g v, srcInterface e)] | None => [] end.

(** A route of least length, as the hops of a path. *)
Inductive shortestRoute : nat -> nat -> Path -> Prop :=
  | shortest_O : dist 0 dst -> shortestRoute dst 0 []
  | shortest_S v u n hops :
      hop u v -> dist (S n) v -> shortestRoute u n hops -> shortestRoute v (S n) (hopTo v u ++ hops).

Lemma dist_unique n m v : dist n v -> dist m v -> n = m.
Proof. intros [H1 H2] [H3 H4]. specialize (H2 _ H3). specialize (H4 _ H1). lia. Qed.

Lemma dist_O : dist 0 dst.
Proof. split; [constructor|lia]. Qed.

Lemma dist_pred n v : dist (S n) v -> exists u, dist n u /\ hop u v.
Proof.
  intros [Hr Hm]. inversion Hr as [|? u ? Hu Hh]; subst. exists u. split; [|done]. split; [done|].
  intros m Hmu. specialize (Hm (S m) (reach_S _ _ _ Hmu Hh)). lia.
Qed.

Context (Hclosed : closedGraph g) (Hdst : (dst < length (vertices g))%nat).

Lemma reach_lt n v : reach n v -> (v < length (vertices g))%nat.
Proof. destruct 1 as [|n u v _ (e & He & _)]; [done|]. by eapply Hclosed. Qed.

Lemma dist_short n v : dist n v -> (n < length (vertices g))%nat.
Proof.
  intros Hd. assert (exists l, length l = S n /\ NoDup l /\ Forall (fun w => exists m, (m <= n)%nat /\ dist m w) l) as (l & Hl & Hnd & Hf).
  { revert v Hd. induction n as [|n IH]; intros v Hd.
    - exists [v]. split_and!; [done|apply NoDup_singleton|]. repeat constructor. by exists 0%nat.
    - destruct (dist_pred _ _ Hd) as (u & Hu & _). destruct (IH u Hu) as (l & Hl & Hnd & Hf). exists (v :: l). split_and!.
      + cbn. by rewrite Hl.
      + constructor; [|done]. intros Hv. rewrite Forall_forall in Hf. destruct (Hf v Hv) as (m & Hm & Hdm).
        pose proof (dist_unique _ _ _ Hd Hdm). lia.
      + constructor; [by exists (S n)|]. eapply Forall_impl; [done|]. intros w (m & ? & ?). exists m. split; [lia|done]. }
  enough (length l <= length (vertices g))%nat by lia. apply short_nodup; [done|]. eapply Forall_impl; [done|].
  intros w (m & _ & [Hr _]). by eapply reach_lt.
Qed.
End Distance.

(** * One iteration *)

Lemma foldl_visited (l : list nat) (V : gset nat) : fold_left (fun vis v => {[v]} ∪ vis) l V = list_to_set l ∪ V.
Proof. revert V. induction l as [|x l IH]; intros V; cbn [fold_left list_to_set]; [set_solver|]. rewrite IH. set_solver. Qed.

Lemma foldl_parent (l : list nat) (c : option nat) (p : gmap nat (option nat)) v :
  fold_left (fun p v => <[v := c]> p) l p !! v = if bool_decide (v ∈ l) then Some c else p !! v.
Proof.
  revert p. induction l as [|x l IH]; intros p; cbn [fold_left]; [by rewrite bool_decide_false by apply not_elem_of_nil|].
  rewrite IH. case_bool_decide as H1; case_bool_decide as H2; try done.
  - destruct H2. apply elem_of_cons. by right.
  - apply elem_of_cons in H2 as [->|]; [by rewrite lookup_insert_eq|done].
  - rewrite lookup_insert_ne; [done|]. intros ->. apply H2, elem_of_cons. by left.
Qed.

Lemma elem_of_newNeighbors g V u v : v ∈ newNeighbors g V u <-> hop g u v /\ v ∉ V.
Proof.
  unfold newNeighbors. rewrite list_elem_of_fmap. split.
  - intros ([[u' v'] e] & -> & [(H1 & H2 & H3) [H4 H5]%elem_of_out_edges]%list_elem_of_filter). cbn in *. subst u'.
    split; [by exists e|done].
  - intros [(e & He & H1 & H2) H3]. exists ((u, v), e). split; [done|]. apply list_elem_of_filter. split; [done|].
    by apply elem_of_out_edges.
Qed.

Lemma NoDup_newNeighbors g V u : NoDup (newNeighbors g V u).
Proof.
  unfold newNeighbors. apply NoDup_fmap_2_strong.
  - intros [[u1 v1] e1] [[u2 v2] e2] [_ [H1 H2]%elem_of_out_edges]%list_elem_of_filter
      [_ [H3 H4]%elem_of_out_edges]%list_elem_of_filter H. cbn in *. congruence.
  - apply NoDup_filter. unfold out_edges. apply NoDup_filter. eapply NoDup_fmap_1, edgesInOrder_nodup.
Qed.

Section Search.
Context (SHA256 : string -> list Z) `{StdSort}.
Context (g : Graph) (dst : nat) (dstIp : Z).
Context (Hclosed : closedGraph g) (Hdst : (dst < length (vertices g))%nat).

(** The state while the queue holds [A], vertices at distance [d], and then [B], at distance [d + 1]. *)
Record level (d : nat) (A B : list nat) (s : Bfs) : Prop := {
  lv_queue : queue s = A ++ B;
  lv_nodup : NoDup (queue s);
  lv_queued : forall v, v ∈ queue s -> v ∈ visited s;
  lv_A : Forall (dist g dst d) A;
  lv_B : Forall (dist g dst (S d)) B;
  lv_seen : forall v m, (m <= d)%nat -> reach g dst m v -> v ∈ visited s;
  lv_dst : parent s !! dst = Some None;
  lv_parent : forall v, v ∈ visited s -> v = dst \/
    exists u n, parent s !! v = Some (Some u) /\ hop g u v /\ u ∈ visited s /\ dist g dst n u /\ dist g dst (S n) v;
  lv_done : forall u v, u ∈ visited s -> u ∉ queue s -> hop g u v -> v ∈ visited s
}.

Lemma level_start tables : level 0 [dst] [] (bfsStart dst tables).
Proof.
  split; cbn; try done.
  - apply NoDup_singleton.
  - set_solver.
  - repeat constructor. lia.
  - intros v m Hm Hr. assert (m = 0%nat) as -> by lia. inversion Hr. set_solver.
  - by rewrite lookup_singleton_eq.
  - set_solver.
  - set_solver.
Qed.

Lemma level_shift d B s : level d [] B s -> level (S d) B [] s.
Proof.
  intros L. split; try apply L.
  - rewrite app_nil_r. apply L.
  - constructor.
  - intros v m Hm Hr. destruct (decide (m = S d)) as [->|]; [|apply (lv_seen _ _ _ _ L v m); [lia|done]].
    inversion Hr as [|? u ? Hu Hh]; subst. apply (lv_done _ _ _ _ L u v); [by apply (lv_seen _ _ _ _ L u d)| |done].
    rewrite (lv_queue _ _ _ _ L). cbn. intros Hin. pose proof (lv_B _ _ _ _ L) as HB. rewrite Forall_forall in HB.
    destruct (HB u Hin) as [_ Hmin]. specialize (Hmin d Hu). lia.
Qed.

Lemma bfsStep_queue c q s v :
  v ∈ queue (bfsStep SHA256 g dstIp c q s) <-> v ∈ q \/ hop g c v /\ v ∉ visited s.
Proof. cbn. by rewrite elem_of_app, std_sort_perm, elem_of_newNeighbors. Qed.

Lemma bfsStep_visited c q s v :
  v ∈ visited (bfsStep SHA256 g dstIp c q s) <-> (hop g c v /\ v ∉ visited s) \/ v ∈ visited s.
Proof.
  cbn. rewrite foldl_visited, elem_of_union, elem_of_list_to_set, std_sort_perm, elem_of_newNeighbors. done.
Qed.

Lemma bfsStep_parent c q s v :
  v ∈ visited s -> parent (bfsStep SHA256 g dstIp c q s) !! v = parent s !! v.
Proof.
  intros Hv. cbn. rewrite foldl_parent. rewrite bool_decide_false; [done|].
  rewrite std_sort_perm, elem_of_newNeighbors. by intros [_ ?].
Qed.

Lemma bfsStep_parent_new c q s v :
  hop g c v -> v ∉ visited s -> parent (bfsStep SHA256 g dstIp c q s) !! v = Some (Some c).
Proof.
  intros Hh Hv. cbn. rewrite foldl_parent. rewrite bool_decide_true; [done|].
  by rewrite std_sort_perm, elem_of_newNeighbors.
Qed.

(** A vertex found from distance [d] is at distance [d + 1]. *)
Lemma level_new d A B s c v : level d (c :: A) B s -> hop g c v -> v ∉ visited s -> dist g dst (S d) v.
Proof.
  intros L Hh Hv. pose proof (lv_A _ _ _ _ L) as HA. inversion_clear HA as [|? ? [Hc _] _].
  split; [by econstructor|]. intros m Hm. destruct (decide (S d <= m)%nat); [done|].
  destruct Hv. apply (lv_seen _ _ _ _ L v m); [lia|done].
Qed.

Lemma level_step d A B s c :
  level d (c :: A) B s ->
  level d A (B ++ std_sort (neighborKey SHA256 g dstIp) (newNeighbors g (visited s) c)) (bfsStep SHA256 g dstIp c (A ++ B) s).
Proof.
  intros L. pose proof (lv_nodup _ _ _ _ L) as Hnd. rewrite (lv_queue _ _ _ _ L) in Hnd. cbn in Hnd. apply NoDup_cons in Hnd as [HcQ Hnd].
  assert (forall v, v ∈ A ++ B -> v ∈ visited s) as Hq.
  { intros v Hv. apply (lv_queued _ _ _ _ L). rewrite (lv_queue _ _ _ _ L). cbn. apply elem_of_cons. by right. }
  assert (c ∈ visited s) as Hc.
  { apply (lv_queued _ _ _ _ L). rewrite (lv_queue _ _ _ _ L). apply elem_of_cons. by left. }
  split.
  - cbn. by rewrite (assoc_L (++)).
  - cbn. apply NoDup_app. split_and!; [done| |rewrite std_sort_perm; apply NoDup_newNeighbors].
    intros v Hv. rewrite std_sort_perm, elem_of_newNeighbors. intros [_ Hn]. by apply Hn, Hq.
  - intros v. rewrite bfsStep_queue, bfsStep_visited. naive_solver.
  - pose proof (lv_A _ _ _ _ L) as HA. by inversion_clear HA.
  - apply Forall_app. split; [apply L|]. apply Forall_forall. intros v. rewrite std_sort_perm, elem_of_newNeighbors.
    intros [Hh Hv]. by eapply level_new.
  - intros v m Hm Hr. rewrite bfsStep_visited. right. by apply (lv_seen _ _ _ _ L v m).
  - rewrite bfsStep_parent; [apply L|]. apply (lv_seen _ _ _ _ L dst 0); [lia|constructor].
  - intros v. rewrite bfsStep_visited. intros [[Hh Hv]|Hv].
    + right. exists c, d. rewrite bfsStep_parent_new, bfsStep_visited by done. split_and!; [done|done|by right| |by eapply level_new].
      pose proof (lv_A _ _ _ _ L) as HA. by inversion_clear HA.
    + destruct (lv_parent _ _ _ _ L v Hv) as [->|(u & n & ? & ? & ? & ? & ?)]; [by left|]. right. exists u, n.
      rewrite bfsStep_parent, bfsStep_visited by done. split_and!; try done. by right.
  - intros u v. rewrite bfsStep_queue, !bfsStep_visited. intros Hu Huq Hh.
    destruct (decide (v ∈ visited s)); [by right|]. destruct (decide (u = c)) as [->|Hne]; [by left|].
    destruct Hu as [Hu|Hu]; [destruct Huq; by right|]. right. apply (lv_done _ _ _ _ L u v); try done.
    rewrite (lv_queue _ _ _ _ L). cbn. rewrite not_elem_of_cons. split; [done|]. tauto.
Qed.

(** * The whole search *)

Lemma level_size d A B s : level d A B s -> (size (visited s) <= length (vertices g))%nat.
Proof.
  intros L. apply (short_nodup _ (elements (visited s))); [apply NoDup_elements|].
  apply Forall_forall. intros v Hv%elem_of_elements.
  destruct (lv_parent _ _ _ _ L v Hv) as [->|(u & n & _ & _ & _ & _ & [Hr _])]; [done|by eapply reach_lt].
Qed.

Lemma bfsStep_size d A B s c :
  level d (c :: A) B s ->
  (size (visited (bfsStep SHA256 g dstIp c (A ++ B) s)) + length (A ++ B) =
   size (visited s) + length (queue (bfsStep SHA256 g dstIp c (A ++ B) s)))%nat.
Proof.
  intros L. cbn. set (ns := std_sort _ _). rewrite foldl_visited.
  assert (NoDup ns) as Hnd by (subst ns; rewrite std_sort_perm; apply NoDup_newNeighbors).
  rewrite size_union, size_list_to_set, !length_app by
    (done || (intros v; rewrite elem_of_list_to_set; subst ns; rewrite std_sort_perm, elem_of_newNeighbors; tauto)).
  lia.
Qed.

(** With the number of vertices as fuel the search ends, keeping any property that iterations keep. *)
Lemma bfsLoop_ends (P : Bfs -> Prop) n d A B s :
  (forall d c A B s, level d (c :: A) B s -> P s -> P (bfsStep SHA256 g dstIp c (A ++ B) s)) ->
  level d A B s -> P s -> (length (vertices g) + length (queue s) <= n + size (visited s))%nat ->
  exists s' d', bfsLoop SHA256 n g dstIp s = Some s' /\ level d' [] [] s' /\ P s'.
Proof.
  intros HP. revert d A B s. induction n as [|n IH]; intros d A B s L Hs Hn; pose proof (level_size _ _ _ _ L).
  - assert (queue s = []) as Hq by (apply length_zero_iff_nil; lia). exists s, d. cbn. rewrite Hq. split_and!; [done| |done].
    rewrite (lv_queue _ _ _ _ L) in Hq. by apply app_eq_nil in Hq as [-> ->].
  - assert (exists d A B, level d A B s /\ (A = [] -> B = [])) as (d1 & A1 & B1 & L1 & Hempty).
    { destruct A as [|c A]; [|by exists d, (c :: A), B]. exists (S d), B, []. split; [by apply level_shift|done]. }
    pose proof (lv_queue _ _ _ _ L1) as Hq. destruct A1 as [|c A1].
    + rewrite Hempty in * by done. exists s, d1. cbn. rewrite Hq. by split_and!.
    + cbn [bfsLoop]. rewrite Hq. cbn [app]. eapply IH; [by apply level_step|by eapply HP|].
      pose proof (bfsStep_size _ _ _ _ _ L1). rewrite Hq in Hn. cbn in Hn. lia.
Qed.

Lemma level_complete d s v : level d [] [] s -> v ∈ visited s <-> exists n, reach g dst n v.
Proof.
  intros L. split.
  - intros Hv. destruct (lv_parent _ _ _ _ L v Hv) as [->|(u & n & _ & _ & _ & _ & [Hr _])]; [exists 0%nat; constructor|eauto].
  - intros (n & Hr). induction Hr as [|n u v Hr IH Hh]; [by apply (lv_seen _ _ _ _ L dst 0); [lia|constructor]|].
    apply (lv_done _ _ _ _ L u v); [done| |done]. rewrite (lv_queue _ _ _ _ L). apply not_elem_of_nil.
Qed.

Lemma level_next d s n v :
  level d [] [] s -> dist g dst (S n) v -> exists u, parent s !! v = Some (Some u) /\ hop g u v /\ dist g dst n u.
Proof.
  intros L Hd. assert (v ∈ visited s) as Hv by (apply (level_complete d); [done|]; exists (S n); apply Hd).
  destruct (lv_parent _ _ _ _ L v Hv) as [->|(u & m & Hp & Hh & _ & Hu & Hm)].
  - pose proof (dist_unique g dst _ _ _ Hd (dist_O g dst)). lia.
  - exists u. split_and!; try done. assert (S m = S n) as [= ->] by by eapply dist_unique. done.
Qed.

Lemma level_dist d s v : level d [] [] s -> v ∈ visited s -> exists n, dist g dst n v.
Proof.
  intros L Hv. destruct (lv_parent _ _ _ _ L v Hv) as [->|(u & n & _ & _ & _ & _ & Hn)]; [exists 0%nat; apply dist_O|eauto].
Qed.

Lemma parentWalk_shortest d s n fuel v :
  level d [] [] s -> dist g dst n v -> (n <= fuel)%nat ->
  exists hops, parentWalk fuel g (parent s) dst v = Some hops /\ shortestRoute g dst v n hops.
Proof.
  intros L. revert fuel v. induction n as [|n IH]; intros fuel v Hd Hf.
  - destruct Hd as [Hr _]. inversion Hr; subst. exists []. split; [|constructor; apply dist_O].
    by destruct fuel; cbn; rewrite bool_decide_true.
  - destruct fuel as [|fuel]; [lia|]. destruct (level_next _ _ _ _ L Hd) as (u & Hp & Hh & Hu).
    destruct (IH fuel u Hu) as (hops & Hw & Hs); [lia|]. exists (hopTo g v u ++ hops). split; [|by econstructor].
    cbn [parentWalk]. rewrite bool_decide_false.
    + unfold parentOf. rewrite Hp. cbn [default from_option id]. rewrite Hw. cbn. unfold hopTo. by destruct (edge v u g).
    + intros ->. pose proof (dist_unique g dst _ _ _ Hd (dist_O g dst)). lia.
Qed.
End Search.

(** * Rules *)

Section Rules.
Context (dstIp : Z).

(** The rules of a switch for the destination, and its other rules. *)
Definition rulesFor (tables : FlowTables) (dpid : Z) : list FlowRule :=
  filter (fun r => isRule (Z.land dstIp kHostMask) kHostMask kPriority r = true) (default [] (tables !! dpid)).
Definition otherRules (tables : FlowTables) (dpid : Z) : list FlowRule :=
  filter (fun r => isRule (Z.land dstIp kHostMask) kHostMask kPriority r = false) (default [] (tables !! dpid)).

Definition dstRule (port : Z) : FlowRule := (Z.land dstIp kHostMask, kHostMask, port, kPriority).

(** The rule of [v] that leads to [u]. *)
Definition ruleTo (g : Graph) (v u : nat) : list FlowRule :=
  match edge v u g with Some e => [dstRule (srcInterface e)] | None => [] end.

Lemma isRule_dstRule port : isRule (Z.land dstIp kHostMask) kHostMask kPriority (dstRule port) = true.
Proof. unfold isRule, dstRule. by rewrite !bool_decide_true. Qed.

Lemma ruleExists_filter net mask pri l :
  ruleExists l net mask pri = false -> filter (fun r => isRule net mask pri r = true) l = [].
Proof.
  intros E. induction l as [|r l IH]; [done|]. unfold ruleExists in E. cbn in E. apply orb_false_elim in E as [E1 E2].
  rewrite filter_cons_False by congruence. by apply IH.
Qed.

Lemma ruleExists_filter_true net mask pri l :
  ruleExists l net mask pri = true -> filter (fun r => isRule net mask pri r = true) l <> [].
Proof.
  intros (r & Hr%list_elem_of_In & E)%existsb_exists Hn. apply (not_elem_of_nil r). rewrite <- Hn.
  by apply list_elem_of_filter.
Qed.

Lemma rulesFor_addRule port tables dpid : rulesFor tables dpid = [] -> rulesFor (addRule dpid dstIp port tables) dpid = [dstRule port].
Proof.
  unfold rulesFor, addRule. intros E. rewrite lookup_insert_eq. cbn [default from_option id].
  destruct (ruleExists _ _ _ _) eqn:X; [by apply ruleExists_filter_true in X|].
  rewrite filter_app, ruleExists_filter by done. by rewrite filter_cons_True by apply isRule_dstRule.
Qed.

Lemma rulesFor_addRule_again port tables dpid : rulesFor tables dpid <> [] -> rulesFor (addRule dpid dstIp port tables) dpid = rulesFor tables dpid.
Proof.
  unfold rulesFor, addRule. intros E. rewrite lookup_insert_eq. cbn [default from_option id].
  destruct (ruleExists _ _ _ _) eqn:X; [done|by apply ruleExists_filter in X].
Qed.

Lemma rulesFor_addRule_ne port tables dpid dpid' : dpid <> dpid' -> rulesFor (addRule dpid dstIp port tables) dpid' = rulesFor tables dpid'.
Proof. intros. unfold rulesFor, addRule. by rewrite lookup_insert_ne. Qed.

Lemma otherRules_addRule port tables dpid dpid' : otherRules (addRule dpid dstIp port tables) dpid' = otherRules tables dpid'.
Proof.
  unfold otherRules, addRule. destruct (decide (dpid = dpid')) as [->|]; [|by rewrite lookup_insert_ne].
  rewrite lookup_insert_eq. cbn [default from_option id]. destruct (ruleExists _ _ _ _); [done|].
  rewrite filter_app, filter_cons_False by (fold (dstRule port); by rewrite isRule_dstRule). by rewrite app_nil_r.
Qed.

Lemma otherRules_ruleToParent g c prev tables dpid : otherRules (ruleToParent g dstIp c prev tables) dpid = otherRules tables dpid.
Proof. unfold ruleToParent. destruct prev; [|done]. destruct (edge _ _ _); [|done]. case_bool_decide; [apply otherRules_addRule|done]. Qed.

Lemma rulesFor_ruleToParent_ne g c prev tables dpid :
  vertexDpid g c <> dpid -> rulesFor (ruleToParent g dstIp c prev tables) dpid = rulesFor tables dpid.
Proof.
  intros. unfold ruleToParent. destruct prev; [|done]. destruct (edge _ _ _); [|done].
  case_bool_decide; [by apply rulesFor_addRule_ne|done].
Qed.

Lemma rulesFor_ruleToParent g c prev tables :
  vertexDpid g c <> 0 -> rulesFor tables (vertexDpid g c) = [] ->
  rulesFor (ruleToParent g dstIp c prev tables) (vertexDpid g c) = from_option (ruleTo g c) [] prev.
Proof.
  intros Hd Hr. unfold ruleToParent, ruleTo. destruct prev as [u|]; [|done]. cbn. destruct (edge c u g); [|done].
  rewrite bool_decide_true by done. by apply rulesFor_addRule.
Qed.
End Rules.

(** The dpids of a graph, looked at as a list. *)
Lemma dpids_unique g l : v_dpid <$> vertices g = l -> NoDup (filter (fun d => d <> 0) l) -> uniqueDpids g.
Proof.
  intros Hl. revert l Hl. unfold uniqueDpids. induction (vertices g) as [|x vs IH]; intros l <- Hnd v w p q Hv Hw Heq Hne; [done|].
  cbn [fmap list_fmap] in Hnd. rewrite filter_cons in Hnd. case_decide as Hx.
  - apply NoDup_cons in Hnd as [Hin Hnd]. assert (forall i r, vs !! i = Some r -> v_dpid r <> v_dpid x) as Hno.
    { intros i r Hi E. apply Hin, list_elem_of_filter. split; [done|]. rewrite <- E. apply list_elem_of_fmap_2. by eapply list_elem_of_lookup_2. }
    destruct v, w; cbn in Hv, Hw; simplify_eq; [done|by destruct (Hno _ _ Hw)|by destruct (Hno _ _ Hv)|].
    f_equal. by eapply IH.
  - destruct v, w; cbn in Hv, Hw; simplify_eq; try done; [congruence|]. f_equal. by eapply IH.
Qed.

Lemma uniqueDpids_vertex g v w :
  uniqueDpids g -> vertexDpid g v <> 0 -> vertexDpid g v = vertexDpid g w -> v = w.
Proof.
  unfold vertexDpid. intros Hu Hv He. destruct (vertices g !! v) as [p|] eqn:Ep; [|done].
  destruct (vertices g !! w) as [q|] eqn:Eq; [|cbn in *; congruence]. by eapply Hu.
Qed.

Section SearchRules.
Context (SHA256 : string -> list Z) `{StdSort}.
Context (g : Graph) (dst : nat) (dstIp : Z) (tables : FlowTables).
Context (Hunique : uniqueDpids g) (Hfresh : forall dpid, rulesFor dstIp tables dpid = []).

(** The rules while the search runs: those of the vertices that have left the queue. *)
Definition rulesSoFar (s : Bfs) : Prop :=
  (forall dpid, otherRules dstIp (newOpenflowTables s) dpid = otherRules dstIp tables dpid) /\
  forall v, vertexDpid g v <> 0 ->
    rulesFor dstIp (newOpenflowTables s) (vertexDpid g v) =
    if bool_decide (v ∈ visited s /\ v ∉ queue s) then from_option (ruleTo dstIp g v) [] (parentOf (parent s) v) else [].

Lemma rulesSoFar_start : rulesSoFar (bfsStart dst tables).
Proof.
  split; [done|]. intros v _. cbn. rewrite bool_decide_false; [apply Hfresh|]. rewrite elem_of_singleton, list_elem_of_singleton. tauto.
Qed.

Lemma rulesSoFar_step d c A B s :
  level g dst d (c :: A) B s -> rulesSoFar s -> rulesSoFar (bfsStep SHA256 g dstIp c (A ++ B) s).
Proof.
  intros L [Ho Hr]. pose proof (lv_queue _ _ _ _ _ _ L) as Hq. cbn in Hq.
  pose proof (lv_nodup _ _ _ _ _ _ L) as Hnd. rewrite Hq in Hnd. apply NoDup_cons in Hnd as [HcQ _].
  assert (c ∈ visited s) as Hc by (apply (lv_queued _ _ _ _ _ _ L); rewrite Hq; apply elem_of_cons; by left).
  split; [intros dpid; cbn; by rewrite otherRules_ruleToParent|]. intros v Hv.
  specialize (Hr v Hv). rewrite Hq in Hr. destruct (decide (v = c)) as [->|Hne].
  - rewrite bool_decide_false in Hr by (rewrite elem_of_cons; tauto).
    rewrite bool_decide_true by (rewrite bfsStep_visited, bfsStep_queue; tauto).
    unfold parentOf. rewrite bfsStep_parent by done. cbn. by apply rulesFor_ruleToParent.
  - cbn [newOpenflowTables bfsStep]. rewrite rulesFor_ruleToParent_ne
      by (intros E; apply Hne; symmetry in E; by apply (uniqueDpids_vertex g)). rewrite Hr.
    destruct (decide (v ∈ visited s)) as [Hvs|Hvs].
    + unfold parentOf. rewrite bfsStep_parent by done. erewrite (bool_decide_ext (_ /\ _)); [done|].
      rewrite bfsStep_visited, bfsStep_queue, elem_of_cons. tauto.
    + rewrite !bool_decide_false; [done| |tauto]. rewrite bfsStep_visited, bfsStep_queue. tauto.
Qed.
End SearchRules.

(** * Paths of the hosts *)

Section Hosts.
Context (SHA256 : string -> list Z) `{StdSort}.
Context (t : Topology) (dst : nat) (dstIp : Z).

(** What one source host gets: a path of least length, or none because it is the destination, one of
    the two addresses is unknown, or its switch is not reached. *)
Definition hostSpec (srcIp : Z) (o : option Path) : Prop :=
  match o with
  | Some path => exists h sw e n hops dstHost,
      srcIp <> dstIp /\ findEdgeByHostIp srcIp t = Some (h, sw) /\ edges (m_graph t) !! (h, sw) = Some e /\
      shortestRoute (m_graph t) dst sw n hops /\ findVertexByIp dstIp t = Some dstHost /\
      path = (srcIp, e_dstInterface e) :: hops ++ hopTo (m_graph t) dst dstHost ++ [(dstIp, 0)]
  | None => srcIp = dstIp \/ findVertexByIp srcIp t = None \/ findVertexByIp dstIp t = None \/
      forall h sw n, findEdgeByHostIp srcIp t = Some (h, sw) -> ~ reach (m_graph t) dst n sw
  end.

(** The rule of the destination switch comes with the first path. *)
Definition afterHost (o : option Path) (tables tables' : FlowTables) : Prop :=
  match o with
  | None => tables' = tables
  | Some _ => exists dstHost, findVertexByIp dstIp t = Some dstHost /\
      tables' = match edge dst dstHost (m_graph t) with
                | Some e => addRule (vertexDpid (m_graph t) dst) dstIp (srcInterface e) tables
                | None => tables
                end
  end.

Context (Hclosed : closedGraph (m_graph t)) (Hdst : (dst < length (vertices (m_graph t)))%nat).

Lemma hostPath_ok d s srcIp tables :
  level (m_graph t) dst d [] [] s ->
  exists o tables', hostPath t dst dstIp s srcIp tables = Some (o, tables') /\ hostSpec srcIp o /\ afterHost o tables tables'.
Proof.
  intros L. unfold hostPath. case_bool_decide as Hne; [exists None, tables; split_and!; [done|by left|done]|].
  destruct (findVertexByIp srcIp t) eqn:Ev; [|exists None, tables; split_and!; [done|by right; left|done]].
  destruct (findEdgeByHostIp srcIp t) as [[h sw]|] eqn:Ee; [|exists None, tables; split_and!; [done|right; right; right; intros; congruence|done]].
  cbn [snd]. case_bool_decide as Hvis.
  { exists None, tables. split_and!; [done| |done]. right. right. right. intros h' sw' k E Hr. simplify_eq.
    apply Hvis, (level_complete _ dst Hdst d); [done|by exists k]. }
  destruct (level_dist _ _ _ _ _ L Hvis) as (k & Hk).
  destruct (parentWalk_shortest _ _ Hdst _ _ _ (length (vertices (m_graph t))) _ L Hk) as (hops & Hw & Hs).
  { apply Nat.lt_le_incl. by eapply dist_short. }
  rewrite Hw. cbn [mbind option_bind]. destruct (findVertexByIp dstIp t) as [dh|] eqn:Ed;
    [|exists None, tables; split_and!; [done|by right; right; left|done]].
  pose proof Ee as Ee'. apply firstEdge_Some in Ee' as [(e & He & _) _]. rewrite He. cbn [from_option].
  destruct (edge dst dh (m_graph t)) as [e'|] eqn:Ex; (eexists _, _; split; [done|]).
  - split; [exists h, sw, e, k, hops, dh; split_and!; try done; unfold hopTo; by rewrite Ex|]. exists dh. by rewrite Ex.
  - split; [exists h, sw, e, k, hops, dh; split_and!; try done; unfold hopTo; by rewrite Ex|]. exists dh. by rewrite Ex.
Qed.

Abbreviation dd := (vertexDpid (m_graph t) dst).

Lemma afterHost_rules o tables tables' dpid :
  afterHost o tables tables' ->
  otherRules dstIp tables' dpid = otherRules dstIp tables dpid /\
  (dpid <> dd -> rulesFor dstIp tables' dpid = rulesFor dstIp tables dpid).
Proof.
  destruct o; cbn; [|by intros ->]. intros (dh & _ & ->). destruct (edge _ _ _); [|done].
  split; [apply otherRules_addRule|]. intros. by apply rulesFor_addRule_ne.
Qed.

Lemma afterHost_last path tables tables' dh :
  afterHost (Some path) tables tables' -> findVertexByIp dstIp t = Some dh ->
  rulesFor dstIp tables dd = [] \/ rulesFor dstIp tables dd = ruleTo dstIp (m_graph t) dst dh ->
  rulesFor dstIp tables' dd = ruleTo dstIp (m_graph t) dst dh.
Proof.
  intros (dh' & Hd & ->) Hdh. assert (dh' = dh) as -> by congruence. unfold ruleTo.
  destruct (edge dst dh (m_graph t)) as [e|]; [|by intros [-> | ->]].
  intros [E|E]; [by rewrite rulesFor_addRule|]. by rewrite rulesFor_addRule_again; rewrite E.
Qed.

Lemma hostPaths_ok d s hosts tables :
  level (m_graph t) dst d [] [] s ->
  exists os tables', hostPaths t dst dstIp s hosts tables = Some (omap id os, tables') /\ Forall2 hostSpec hosts os /\
    (forall dpid, otherRules dstIp tables' dpid = otherRules dstIp tables dpid) /\
    (forall dpid, dpid <> dd -> rulesFor dstIp tables' dpid = rulesFor dstIp tables dpid) /\
    (omap id os = [] -> tables' = tables) /\
    (forall dh, findVertexByIp dstIp t = Some dh -> omap id os <> [] ->
       rulesFor dstIp tables dd = [] \/ rulesFor dstIp tables dd = ruleTo dstIp (m_graph t) dst dh ->
       rulesFor dstIp tables' dd = ruleTo dstIp (m_graph t) dst dh).
Proof.
  intros L. revert tables. induction hosts as [|srcIp hosts IH]; intros tables.
  { exists [], tables. split_and!; done || constructor. }
  destruct (hostPath_ok d s srcIp tables L) as (o & T1 & H1 & Hs & Ha).
  destruct (IH T1) as (os & T2 & H2 & Hf & Ho & Hr & Hn & Hl). exists (o :: os), T2. cbn [hostPaths]. rewrite H1. cbn [mbind option_bind].
  rewrite H2. split_and!; [by destruct o|by constructor| | | |].
  - intros dpid. rewrite Ho. by apply (afterHost_rules o).
  - intros dpid Hd. rewrite Hr by done. by apply (afterHost_rules o _ _ dpid).
  - destruct o; [done|]. cbn. intros E. rewrite Hn by done. exact Ha.
  - intros dh Hdh Hne Hbefore. destruct o as [path|]; cbn in Hne.
    + pose proof (afterHost_last _ _ _ _ Ha Hdh Hbefore) as H3. destruct (omap id os) eqn:E; [by rewrite Hn|].
      apply Hl; [done|done|by right].
    + cbn in Ha. subst T1. by apply Hl.
Qed.
End Hosts.

(** * Properties *)

Section Theorems.
Context (SHA256 : string -> list Z) `{StdSort}.
Context (mode : DeploymentMode) (ryu : string) (t : Topology) (dst : nat) (dstIp : Z).

(** The search of a reachable topology. *)
Lemma bfs_search tables (P : Bfs -> Prop) :
  reachable mode ryu t -> (dst < length (vertices (m_graph t)))%nat ->
  (forall d c A B s, level (m_graph t) dst d (c :: A) B s -> P s -> P (bfsStep SHA256 (m_graph t) dstIp c (A ++ B) s)) ->
  P (bfsStart dst tables) ->
  exists s d, bfsLoop SHA256 (length (vertices (m_graph t))) (m_graph t) dstIp (bfsStart dst tables) = Some s /\
    level (m_graph t) dst d [] [] s /\ P s.
Proof.
  intros Hr%reachable_closed Hd HP H0. eapply (bfsLoop_ends SHA256 _ dst dstIp Hr Hd P); [done|by apply level_start|done|].
  cbn [bfsStart queue visited length]. rewrite size_singleton. lia.
Qed.


(** Rules without loops.  When dpids are distinct and no table has a rule for the destination yet,
    every reached switch gets exactly one rule for it, to a vertex one hop nearer (none when the
    graph lacks that direction of the link), the destination switch gets the one to the host once a
    path is returned, and all other rules are kept. *)
Theorem bfs_rules_descend allHostIps tables :
  reachable mode ryu t -> (dst < length (vertices (m_graph t)))%nat -> uniqueDpids (m_graph t) ->
  (forall dpid, rulesFor dstIp tables dpid = []) ->
  exists paths tables', bfsAllPathsToDst SHA256 t dst dstIp allHostIps tables = Some (paths, tables') /\
    (forall dpid, otherRules dstIp tables' dpid = otherRules dstIp tables dpid) /\
    (forall v n, dist (m_graph t) dst (S n) v -> vertexDpid (m_graph t) v <> 0 ->
       exists u, hop (m_graph t) u v /\ dist (m_graph t) dst n u /\
         rulesFor dstIp tables' (vertexDpid (m_graph t) v) = ruleTo dstIp (m_graph t) v u) /\
    (forall dstHost, findVertexByIp dstIp t = Some dstHost -> vertexDpid (m_graph t) dst <> 0 -> paths <> [] ->
       rulesFor dstIp tables' (vertexDpid (m_graph t) dst) = ruleTo dstIp (m_graph t) dst dstHost).
Proof.
  intros Hr Hd Hu Hfresh.
  destruct (bfs_search tables (rulesSoFar (m_graph t) dstIp tables) Hr Hd) as (s & d & Hs & L & Ho & Hrules).
  { intros. by eapply rulesSoFar_step. } { by apply rulesSoFar_start. }
  destruct (hostPaths_ok t dst dstIp (reachable_closed _ _ _ Hr) Hd d s allHostIps (newOpenflowTables s) L)
    as (os & T & Hh & _ & Ho' & Hr' & _ & Hlast).
  exists (omap id os), T. split_and!; [unfold bfsAllPathsToDst; rewrite Hs; exact Hh|intros; by rewrite Ho', Ho| |].
  - intros v n Hv Hne. destruct (level_next _ _ Hd _ _ _ _ L Hv) as (u & Hp & Hh' & Hdu). exists u. split_and!; try done.
    rewrite Hr'.
    + rewrite Hrules, bool_decide_true; [unfold parentOf; by rewrite Hp| |done]. split; [|rewrite (lv_queue _ _ _ _ _ _ L); apply not_elem_of_nil].
      apply (level_complete _ _ Hd d); [done|]. exists (S n). apply Hv.
    + intros E. apply uniqueDpids_vertex in E; [|done..]. subst v. pose proof (dist_unique _ _ _ _ _ Hv (dist_O _ _)). lia.
  - intros dh Hdh Hne Hpaths. apply Hlast; [done|done|]. left. rewrite Hrules by done. case_bool_decide; [|done].
    unfold parentOf. by rewrite (lv_dst _ _ _ _ _ _ L).
Qed.
End Theorems.

(** * Concrete inputs *)

Definition keyLe (key : nat -> Z) (a b : nat) : Prop := key a <= key b.
#[export] Instance keyLe_dec key : RelDecision (keyLe key).
Proof. intros a b. unfold keyLe. apply _. Defined.

#[export] Instance keyLe_trans key : Transitive (keyLe key).
Proof. intros ? ? ?. unfold keyLe. lia. Qed.
#[export] Instance keyLe_total key : Total (keyLe key).
Proof. intros ? ?. unfold keyLe. lia. Qed.

#[export] Instance stableSort : StdSort.
Proof.
  refine {| std_sort key l := merge_sort (keyLe key) l |}.
  - intros. apply merge_sort_Permutation.
  - intros key l. apply (StronglySorted_merge_sort (keyLe key)).
Defined.

Definition sampleDigest (text : string) : list Z := [Z.of_nat (String.length text)].

(** The sample topology with its switches up, and the link between them in the direction of the search. *)
Definition halfUp : Topology :=
  runOps sampleTopology [OpVertexUp 0; OpVertexEnable 0; OpEdgeUp (1%nat, 0%nat); OpEdgeEnable (1%nat, 0%nat)].

Lemma halfUp_reachable : reachable MININET "127.0.0.1:8080" halfUp.
Proof. by eexists (Some (Some sampleFile)), _. Qed.

Lemma halfUp_dpids : v_dpid <$> vertices (m_graph halfUp) = [1; 2; 0; 0].
Proof. by vm_compute. Qed.

Lemma halfUp_unique : uniqueDpids (m_graph halfUp).
Proof. apply dpids_unique with (l := [1; 2; 0; 0]); [exact halfUp_dpids|]. change (NoDup [1; 2]). repeat constructor; set_solver. Qed.


Lemma bfs_rules_descend_witness :
  exists paths tables u, bfsAllPathsToDst sampleDigest halfUp 1 33554442 [16777226] ∅ = Some (paths, tables) /\
    dist (m_graph halfUp) 1 0 u /\ rulesFor 33554442 tables (vertexDpid (m_graph halfUp) 0) = ruleTo 33554442 (m_graph halfUp) 0 u.
Proof.
  destruct (bfs_rules_descend sampleDigest MININET "127.0.0.1:8080" halfUp 1 33554442 [16777226] ∅)
    as (paths & T & Hb & _ & Hv & _); [apply halfUp_reachable|vm_compute; lia|apply halfUp_unique|done|].
  destruct (Hv 0%nat 0%nat) as (u & _ & Hu & Hr); [|vm_compute; discriminate|
    exists paths, T, u; split; [exact Hb|split; [exact Hu|exact Hr]]].
  split.
  - econstructor; [constructor|]. eexists. split_and!; by vm_compute.
  - intros m Hm. inversion Hm; lia.
Defined.

(** The search tests the link in its own direction, away from the destination; the packets it plans for
    use the opposite one.  A path can therefore cross a link that is not usable. *)
Theorem bfs_tests_opposite_link :
  exists t e paths tables, reachable MININET "127.0.0.1:8080" t /\
    edges (m_graph t) !! (0%nat, 1%nat) = Some e /\ isUsableEdge e = false /\ (srcDpid e, srcInterface e) = (1, 1) /\
    bfsAllPathsToDst sampleDigest t 1 33554442 [16777226] ∅ = Some (paths, tables) /\
    paths = [[(16777226, 2); (1, 1); (2, 2); (33554442, 0)]].
Proof.
  exists halfUp. eexists _, _, _. split; [apply halfUp_reachable|]. split_and!; by vm_compute.
Qed.
