(* ===== verification/TopologyRename.v ===== *)
(** Renaming a device (TopologyAndFlowMonitor.cpp, [setVertexDeviceName] and [setVertexNickname]).

    A rename changes the graph and then the topology file, so that it survives a restart.  The state is the
    topology with the file; [file] is what opening and parsing it gives, as for
    [loadStaticTopologyFromFile], and [canWrite] tells whether the new text can be written in its place. *)

From S2P Require Import Prelude NetUtils Json SFlowTypes GraphTypes Topology.
From Stdlib Require Import SpecFloat.
Local Open Scope string_scope.
Local Open Scope list_scope.
Local Open Scope Z_scope.

(** Which of the two names. *)
Inductive NameField := DeviceName | Nickname.

#[export] Instance NameField_eq_dec : EqDecision NameField.
Proof. solve_decision. Defined.

Definition fieldKey (f : NameField) : string := match f with DeviceName => "device_name" | Nickname => "nickname" end.

Definition set_name (f : NameField) (name : string) (v : VertexProperties) : VertexProperties := {|
  vertexType := vertexType v; mac := mac v; ip := ip v; v_dpid := v_dpid v;
  v_isUp := v_isUp v; v_isEnabled := v_isEnabled v; v_adminDisabled := v_adminDisabled v;
  deviceName := match f with DeviceName => name | Nickname => deviceName v end;
  nickName := match f with DeviceName => nickName v | Nickname => name end;
  bridgeNameForMininet := bridgeNameForMininet v; brandName := brandName v;
  switchKind := switchKind v; deviceLayer := deviceLayer v; smartPlugIp := smartPlugIp v;
  smartPlugOutlet := smartPlugOutlet v; bridgeConnectedPortsForMininet := bridgeConnectedPortsForMininet v;
  ecmpGroups := ecmpGroups v |}.

(** The number and the identity the file's nodes are compared with. *)
Definition typeNumber (v : VertexProperties) : Z := if bool_decide (vertexType v = SWITCH) then 0 else 1.
Definition identityKey (v : VertexProperties) : string := if bool_decide (vertexType v = SWITCH) then "dpid" else "mac".
Definition identity (v : VertexProperties) : Z := if bool_decide (vertexType v = SWITCH) then v_dpid v else mac v.

Definition isNodeOf (v : VertexProperties) (node : json) : outcome bool :=
  let! vt := jvalue get_i32 node "vertex_type" (-1) in
  if bool_decide (vt <> typeNumber v) then Ret false
  else let! id := jvalue get_u64 node (identityKey v) 0 in Ret (bool_decide (id = identity v)).

(** The loop over the nodes: the first node of the vertex gets the name.  [None] is [!updated]. *)
Fixpoint renameNode (f : NameField) (name : string) (v : VertexProperties) (nodes : list json) : outcome (option (list json)) :=
  match nodes with
  | [] => Ret None
  | node :: nodes =>
      let! b := isNodeOf v node in
      if b then Ret (Some (setSlot (fieldKey f) (JString name) node :: nodes))
      else let! r := renameNode f name v nodes in Ret (cons node <$> r)
  end.

(** The new value of the file. *)
Definition renameInFile (f : NameField) (name : string) (v : VertexProperties) (file : option (option json)) : outcome json :=
  match file with
  | None => Throw RuntimeError
  | Some None => Throw JsonParseError
  | Some (Some j) =>
      let! nodes := jindex j "nodes" in
      let! r := renameNode f name v (jiter nodes) in
      match r with
      | None => Throw RuntimeError
      | Some l => Ret (setSlot "nodes" (withElems nodes l) j)
      end
  end.

Abbreviation NamedTopology := (Topology * option (option json))%type.

(** The descriptor comes from a search, so it names a vertex. *)
Definition setVertexName (f : NameField) (canWrite : bool) (v : nat) (name : string) : run NamedTopology unit := fun w =>
  let t := onGraph (alterVertex (set_name f name) v) w.1 in
  match vertices (m_graph t) !! v with
  | None => ((t, w.2), Ret tt)
  | Some p =>
      match renameInFile f name p w.2 with
      | Throw e => ((t, w.2), Throw e)
      | Ret j => if canWrite then ((t, Some (Some j)), Ret tt) else ((t, w.2), Throw RuntimeError)
      end
  end.

Definition setVertexDeviceName := setVertexName DeviceName.
Definition setVertexNickname := setVertexName Nickname.

(** * Renames survive a restart *)

Definition renameVertex (f : NameField) (name : string) (v : nat) : Topology -> Topology :=
  onGraph (alterVertex (set_name f name) v).

(** Two vertices describe the same device, as the file tells devices apart. *)
Definition sameDevice (v p : VertexProperties) : Prop := vertexType v = vertexType p /\ identity v = identity p.

(** The type is one the file can name again. *)
Definition knownType (p : VertexProperties) : Prop := vertexType p = SWITCH \/ vertexType p = HOST.

Section Fields.
Context (k : string) (x : json) (l : list (string * json)).

Lemma jat_set_same : jat (setSlot k x (JObject l)) k = Ret x.
Proof. cbn. by rewrite assocSet_same. Qed.

Lemma jat_set_other k' : k' <> k -> jat (setSlot k x (JObject l)) k' = jat (JObject l) k'.
Proof. intros Hk. cbn. by rewrite assocSet_other. Qed.

Lemma jfield_set_other {A} (get : json -> outcome A) k' :
  k' <> k -> jfield get (setSlot k x (JObject l)) k' = jfield get (JObject l) k'.
Proof. intros Hk. unfold jfield. by rewrite jat_set_other. Qed.

Lemma jvalue_set_other {A} (get : json -> outcome A) k' d :
  k' <> k -> jvalue get (setSlot k x (JObject l)) k' d = jvalue get (JObject l) k' d.
Proof. intros Hk. cbn. by rewrite assocSet_other. Qed.

Lemma contains_set_other k' : k' <> k -> contains (setSlot k x (JObject l)) k' = contains (JObject l) k'.
Proof. intros Hk. unfold contains. cbn. by rewrite assocSet_other. Qed.
End Fields.

Lemma parseNode_object mode j p : parseNode mode j = Ret p -> exists l, j = JObject l.
Proof. destruct j; try done. by eexists. Qed.

Lemma device_name_set f name l dev :
  jfield get_string (JObject l) "device_name" = Ret dev ->
  jfield get_string (setSlot (fieldKey f) (JString name) (JObject l)) "device_name" =
  Ret (match f with DeviceName => name | Nickname => dev end).
Proof. destruct f; [by unfold jfield; rewrite jat_set_same|]. by rewrite jfield_set_other. Qed.

Lemma nickname_set f name l nick :
  jfield get_string (JObject l) "nickname" = Ret nick ->
  jfield get_string (setSlot (fieldKey f) (JString name) (JObject l)) "nickname" =
  Ret (match f with DeviceName => nick | Nickname => name end).
Proof. destruct f; [by rewrite jfield_set_other|]. by unfold jfield; rewrite jat_set_same. Qed.

(** Reading a renamed node gives the renamed vertex. *)
Lemma parseNode_rename mode f name j p :
  parseNode mode j = Ret p -> parseNode mode (setSlot (fieldKey f) (JString name) j) = Ret (set_name f name p).
Proof.
  intros H. destruct (parseNode_object _ _ _ H) as [l ->]. revert H. unfold parseNode, get_ips.
  rewrite !(jfield_set_other _ _ _ get_i32), !(jfield_set_other _ _ _ get_u64),
    !(jfield_set_other _ _ _ (get_vec get_string)), !jvalue_set_other, contains_set_other,
    !(jfield_set_other _ _ _ get_string "brand_name"), !(jfield_set_other _ _ _ get_string "switch_kind"),
    !(jfield_set_other _ _ _ get_string "bridge_name") by by destruct f.
  intros H. repeat (let Hx := fresh in apply obind_ret in H as (? & Hx & H);
    first [rewrite Hx|rewrite (device_name_set f name _ _ Hx)|rewrite (nickname_set f name _ _ Hx)]; cbn [obind]).
  case_match; [done|]. apply obind_ret in H as (? & Hb & [= <-]). by rewrite Hb.
Qed.

(** The fields a loaded vertex takes its identity from. *)
Lemma parseNode_identity mode j p :
  parseNode mode j = Ret p ->
  exists vt, jvalue get_i32 j "vertex_type" (-1) = Ret vt /\ vertexType p = vertexTypeOfInt vt /\
    jvalue get_u64 j "mac" 0 = Ret (mac p) /\ jvalue get_u64 j "dpid" 0 = Ret (v_dpid p).
Proof.
  intros H. destruct (parseNode_object _ _ _ H) as [l ->]. revert H. unfold parseNode.
  assert (Hval : forall A (get : json -> outcome A) k x0 y, jfield get (JObject l) k = Ret y -> jvalue get (JObject l) k x0 = Ret y).
  { intros A get k x0 y. unfold jfield. cbn. by destruct (assoc k l). }
  intros H. apply obind_ret in H as (vt & Hvt & H). apply obind_ret in H as (m & Hm & H).
  apply obind_ret in H as (ips & _ & H). apply obind_ret in H as (d & Hd & H).
  repeat (apply obind_ret in H as (? & _ & H)). case_match; [done|]. apply obind_ret in H as (? & _ & [= <-]).
  exists vt. cbn -[jvalue]. auto 10.
Qed.

(** [isNodeOf] of a node the loader reads. *)
Lemma isNodeOf_parsed mode v j p :
  parseNode mode j = Ret p -> knownType v ->
  exists b, isNodeOf v j = Ret b /\ (b = true <-> sameDevice v p).
Proof.
  intros (vt & Hvt & Ht & Hm & Hd)%parseNode_identity Hk.
  unfold isNodeOf, sameDevice, identityKey, identity, typeNumber. rewrite Hvt, Ht. cbn [obind].
  unfold vertexTypeOfInt. destruct Hk as [-> | ->]; cbn [bool_decide]; repeat case_bool_decide; subst; cbn [obind];
    try (eexists; split; [done|]; split; [done|intros [? ?]; done]);
    rewrite ?Hm, ?Hd; cbn [obind]; eexists; (split; [done|]); rewrite bool_decide_eq_true; naive_solver.
Qed.

(** The file's nodes read as the vertices [ps]. *)
Abbreviation reads mode := (Forall2 (fun j p => parseNode mode j = Ret p)).

(** The loop renames the node of the first vertex that describes the device. *)
Lemma renameNode_first mode f name v nodes ps i p :
  reads mode nodes ps -> knownType v -> ps !! i = Some p -> sameDevice v p ->
  (forall u q, (u < i)%nat -> ps !! u = Some q -> ~ sameDevice v q) ->
  exists nodes', renameNode f name v nodes = Ret (Some nodes') /\ length nodes' = length nodes /\
    reads mode nodes' (<[i := set_name f name p]> ps).
Proof.
  intros Hr Hk. revert i. induction Hr as [|j q nodes ps Hj Hr IH]; intros i Hp Hs Hfirst; [done|].
  destruct (isNodeOf_parsed mode v j q Hj Hk) as (b & Hb & Hiff). cbn. rewrite Hb. cbn [obind].
  destruct i as [|i].
  - simplify_eq/=. destruct b; [|by apply Hiff in Hs]. eexists. split; [done|]. split; [done|].
    constructor; [by apply parseNode_rename|done].
  - destruct b; [by exfalso; apply (Hfirst 0%nat q); [lia|done|apply Hiff]|].
    destruct (IH i Hp Hs) as (nodes' & -> & Hl & Hr'); [intros u q' Hu; apply (Hfirst (S u)); lia|].
    eexists. split; [done|]. split; [cbn; lia|]. by constructor.
Qed.

(** * Loading *)

Definition loadStep (st : gmap Z nat * Topology) (p : VertexProperties) : gmap Z nat * Topology := addNode p st.1 st.2.

Lemma loadStep_eq dv t p : loadStep (dv, t) p = addNode p dv t.
Proof. done. Qed.

Lemma loadNodes_reads mode nodes dv t t' dv' :
  loadNodes mode nodes dv t = (t', Ret dv') <->
  exists ps, reads mode nodes ps /\ foldl loadStep (dv, t) ps = (dv', t').
Proof.
  revert dv t. induction nodes as [|j nodes IH]; intros dv t; cbn.
  - split; [intros [= -> ->]; exists []; by split; [constructor|]|]. intros (ps & Hr & E). apply Forall2_nil_inv_l in Hr as ->.
    by injection E as -> ->.
  - destruct (parseNode mode j) as [p|x] eqn:Ej.
    + destruct (addNode p dv t) as [dv1 t1] eqn:Ea. rewrite IH. split.
      * intros (ps & Hr & E). exists (p :: ps). split; [by constructor|]. cbn. by rewrite loadStep_eq, Ea.
      * intros (ps & Hr & E). apply Forall2_cons_inv_l in Hr as (p' & ps' & Hp & Hr & ->). assert (p' = p) as -> by congruence. cbn in E.
        rewrite loadStep_eq, Ea in E. eauto.
    + split; [done|]. intros (ps & Hr & E). apply Forall2_cons_inv_l in Hr as (p' & ps' & Hp & Hr & ->). congruence.
Qed.

Definition size (t : Topology) : nat := length (vertices (m_graph t)).

Lemma rename_size f name v t : size (renameVertex f name v t) = size t.
Proof. unfold size, renameVertex. cbn. apply length_alter. Qed.

Lemma addNode_size p dv t : size (addNode p dv t).2 = S (size t).
Proof. unfold addNode, size. case_bool_decide; cbn; rewrite length_app; cbn; lia. Qed.

(** Adding a vertex commutes with renaming another one. *)
Lemma addNode_renamed f name v p dv t dv' t' :
  (v < size t)%nat -> addNode p dv t = (dv', t') ->
  addNode p dv (renameVertex f name v t) = (dv', renameVertex f name v t').
Proof.
  intros Hv. unfold addNode. pose proof (rename_size f name v t) as Hn. unfold size in *. rewrite Hn.
  destruct t as [[vs es] ? ? ? ? ? ? ?]. unfold renameVertex, onGraph, set_graph, alterVertex, add_vertex, set_kinds in *.
  cbn in *. case_bool_decide; intros [= <- <-]; cbn; by rewrite alter_app_l.
Qed.

Lemma addNode_rename f name p dv t dv' t' :
  addNode p dv t = (dv', t') -> addNode (set_name f name p) dv t = (dv', renameVertex f name (size t) t').
Proof.
  unfold addNode, size. destruct t as [[vs es] ? ? ? ? ? ? ?].
  unfold renameVertex, onGraph, set_graph, alterVertex, add_vertex, set_kinds. cbn.
  case_bool_decide; intros [= <- <-]; cbn; by rewrite alter_app_r_alt, Nat.sub_diag by done.
Qed.

Lemma loadSteps_renamed f name v ps dv t dv' t' :
  (v < size t)%nat -> foldl loadStep (dv, t) ps = (dv', t') ->
  foldl loadStep (dv, renameVertex f name v t) ps = (dv', renameVertex f name v t').
Proof.
  revert dv t. induction ps as [|p ps IH]; intros dv t Hv; cbn; [by intros [= -> ->]|]. rewrite !loadStep_eq.
  pose proof (addNode_size p dv t) as Hs. destruct (addNode p dv t) as [dv1 t1] eqn:Ea.
  rewrite (addNode_renamed f name v _ _ _ _ _ Hv Ea). apply IH. cbn in Hs. lia.
Qed.

Lemma loadSteps_rename f name ps i p dv t dv' t' :
  ps !! i = Some p -> foldl loadStep (dv, t) ps = (dv', t') ->
  foldl loadStep (dv, t) (<[i := set_name f name p]> ps) = (dv', renameVertex f name (size t + i) t').
Proof.
  revert i dv t. induction ps as [|q ps IH]; intros [|i] dv t Hi; cbn in *; simplify_eq; rewrite !loadStep_eq;
    [pose proof (addNode_size p dv t) as Hs|pose proof (addNode_size q dv t) as Hs].
  - destruct (addNode p dv t) as [dv1 t1] eqn:Ea. rewrite (addNode_rename _ _ _ _ _ _ _ Ea), Nat.add_0_r.
    apply loadSteps_renamed. cbn in Hs. lia.
  - destruct (addNode q dv t) as [dv1 t1] eqn:Ea. intros E. cbn in Hs.
    replace (size t + S i)%nat with (size t1 + i)%nat by lia. exact (IH i dv1 t1 Hi E).
Qed.

(** Placing edges does not look at names. *)
Lemma firstVertex_rename f name v q g :
  (forall p, q (set_name f name p) = q p) -> firstVertex q (alterVertex (set_name f name) v g) = firstVertex q g.
Proof.
  intros Hq. destruct g as [vs es]. unfold firstVertex, alterVertex. cbn [vertices]. clear es. revert v.
  assert (Hfst : forall o : option (nat * VertexProperties), fst <$> (prod_map S id <$> o) = S <$> (fst <$> o)) by by intros [].
  induction vs as [|p vs IH]; intros [|v]; cbn; [done..| |].
  - destruct (decide (q p = true)) as [H|H]; [rewrite decide_True by (by rewrite Hq); done|].
    rewrite decide_False by (by rewrite Hq). done.
  - destruct (decide (q p = true)); [done|]. rewrite !Hfst. f_equal. apply IH.
Qed.

Lemma endpoint_rename f name v dv dpid ips t : endpoint dv dpid ips (renameVertex f name v t) = endpoint dv dpid ips t.
Proof. unfold endpoint. case_bool_decide; [done|]. destruct ips; [done|]. by apply firstVertex_rename. Qed.

Lemma placeEdge_rename f name v dv ep t :
  placeEdge dv ep (renameVertex f name v t) = renameVertex f name v (placeEdge dv ep t).
Proof.
  unfold placeEdge. rewrite !endpoint_rename. repeat case_match; [|done..].
  unfold renameVertex, onGraph, set_graph, add_edge, alterVertex. cbn. by case_match.
Qed.

Lemma loadEdges_rename f name v dv es t t' r :
  loadEdges dv es t = (t', r) -> loadEdges dv es (renameVertex f name v t) = (renameVertex f name v t', r).
Proof.
  revert t. induction es as [|j es IH]; intros t; cbn; [by intros [= <- <-]|].
  destruct (parseEdge j); [|by intros [= <- <-]]. rewrite placeEdge_rename. apply IH.
Qed.

(** The renamed nodes, put back into the file. *)
Lemma jiter_withElems mode nodes l ps :
  reads mode (jiter nodes) ps -> ps <> [] -> length l = length (jiter nodes) -> jiter (withElems nodes l) = l.
Proof.
  intros Hr Hne Hl.
  assert (Hscalar : jiter nodes = [nodes] -> exists kv, nodes = JObject kv).
  { intros E. rewrite E in Hr. apply Forall2_cons_inv_l in Hr as (p & ? & Hp & ?). by eapply parseNode_object. }
  destruct nodes as [| | | | | |a|kv]; cbn in *; try (destruct (Hscalar eq_refl); done); [|done|].
  - by apply Forall2_nil_inv_l in Hr.
  - rewrite length_fmap in Hl. apply snd_zip. rewrite length_fmap. lia.
Qed.

Lemma jindex_set k x j y : jindex j k = Ret y -> jindex (setSlot k x j) k = Ret x.
Proof. destruct j; try done; cbn; intros _; [by rewrite bool_decide_true|by rewrite assocSet_same]. Qed.

Lemma jindex_set_other k k' x j y : jindex j k = Ret y -> k' <> k -> jindex (setSlot k x j) k' = jindex j k'.
Proof. destruct j; try done; cbn; intros _ Hk; [by rewrite bool_decide_false|by rewrite assocSet_other]. Qed.

(** The vertices of a loaded topology are those its file reads as. *)
Lemma loadSteps_vertices ps dv t : vertices (m_graph (foldl loadStep (dv, t) ps).2) = vertices (m_graph t) ++ ps.
Proof.
  revert dv t. induction ps as [|p ps IH]; intros dv t; cbn; [by rewrite app_nil_r|]. rewrite loadStep_eq.
  destruct (addNode p dv t) as [dv1 t1] eqn:Ea. rewrite IH. revert Ea. unfold addNode.
  case_bool_decide; intros [= <- <-]; cbn; by rewrite <- app_assoc.
Qed.

Lemma loadEdges_vertices dv es t : vertices (m_graph (loadEdges dv es t).1) = vertices (m_graph t).
Proof.
  revert t. induction es as [|j es IH]; intros t; cbn; [done|]. destruct (parseEdge j); [|done]. rewrite IH.
  unfold placeEdge. repeat case_match; [|done..]. cbn. unfold add_edge. by case_match.
Qed.

Lemma alter_here {A} (g : A -> A) (v : nat) (l : list A) x : l !! v = Some x -> alter g v l !! v = Some (g x).
Proof. intros H. by rewrite list_lookup_alter, decide_True, H. Qed.

(** C32: A rename that can be written takes effect at once and survives a restart: the new file loads to the
    topology the old file loaded to, with just that device renamed.  (The file must tell the device apart
    from those before it.) *)
Theorem rename_survives_reload mode ryu j t1 f v name p t q :
  loadStaticTopologyFromFile mode (Some (Some j)) (newTopology ryu) = (t1, Ret tt) ->
  vertices (m_graph t1) !! v = Some p -> knownType p ->
  (forall u p', (u < v)%nat -> vertices (m_graph t1) !! u = Some p' -> ~ sameDevice p p') ->
  vertices (m_graph t) !! v = Some q -> sameDevice q p ->
  exists j',
    setVertexName f true v name (t, Some (Some j)) = ((renameVertex f name v t, Some (Some j')), Ret tt) /\
    loadStaticTopologyFromFile mode (Some (Some j')) (newTopology ryu) = (renameVertex f name v t1, Ret tt).
Proof.
  intros Hload Hp Hk Hfirst Hq Hqp. cbn in Hload.
  destruct (jindex j "nodes") as [nodes|] eqn:En; [|done].
  destruct (loadNodes mode (jiter nodes) ∅ (newTopology ryu)) as [t0 [dv|]] eqn:El; [|done].
  destruct (jindex j "edges") as [es|] eqn:Ee; [|done].
  apply loadNodes_reads in El as (ps & Hr & Hf).
  assert (Hps : vertices (m_graph t1) = ps).
  { pose proof (loadEdges_vertices dv (jiter es) t0) as E. rewrite Hload in E. cbn in E. rewrite E.
    pose proof (loadSteps_vertices ps ∅ (newTopology ryu)) as E'. by rewrite Hf in E'. }
  rewrite Hps in Hp, Hfirst.
  set (q' := set_name f name q).
  assert (Hsame : sameDevice q' p) by exact Hqp.
  destruct (renameNode_first mode f name q' (jiter nodes) ps v p Hr) as (l & Hl & Hlen & Hr'); [|done..| |].
  { destruct Hqp as [E _]. unfold knownType, q' in *. cbn. by rewrite E. }
  { intros u p' Hu Hp' [E1 E2]. apply (Hfirst u p' Hu Hp'). destruct Hsame as [S1 S2]. split; congruence. }
  assert (Hne : ps <> []) by by destruct ps.
  exists (setSlot "nodes" (withElems nodes l) j). split.
  - unfold setVertexName. cbn [fst snd]. unfold onGraph, set_graph, alterVertex, renameInFile. cbn [m_graph vertices].
    rewrite (alter_here _ _ _ _ Hq). fold q'. rewrite En. cbn [obind]. by rewrite Hl.
  - cbn. rewrite (jindex_set _ _ _ _ En), (jindex_set_other _ _ _ _ _ En) by done.
    rewrite (jiter_withElems mode nodes l ps Hr Hne Hlen).
    assert (loadNodes mode l ∅ (newTopology ryu) = (renameVertex f name v t0, Ret dv)) as ->.
    { apply loadNodes_reads. eexists. split; [done|]. by rewrite (loadSteps_rename _ _ _ _ _ _ _ _ _ Hp Hf). }
    rewrite Ee. by apply loadEdges_rename.
Qed.

(** A rename that cannot be written has already changed the graph when it throws. *)
Lemma failed_rename_applied f v name t file :
  is_Some (vertices (m_graph t) !! v) ->
  setVertexName f false v name (t, file) = ((renameVertex f name v t, file), (setVertexName f false v name (t, file)).2) /\
  is_ret (setVertexName f false v name (t, file)).2 = false.
Proof.
  intros [p Hp]. unfold setVertexName, onGraph, set_graph, alterVertex. cbn [fst snd m_graph vertices].
  rewrite (alter_here _ _ _ _ Hp). cbn. by destruct (renameInFile _ _ _ _).
Qed.

Definition sampleNode (vt id m : Z) (name : string) (ips : list string) : json :=
  JObject [("vertex_type", JUnsigned vt); ("mac", JUnsigned m); ("ip", JArray (JString <$> ips)); ("dpid", JUnsigned id);
           ("device_name", JString name); ("nickname", JString name); ("brand_name", JString "BMv2");
           ("device_layer", JUnsigned 1); ("bridge_name", JString name)].

Definition sampleFile : json :=
  JObject [("nodes", JArray [sampleNode 0 1 0 "s1" ["10.0.0.1"]; sampleNode 0 2 0 "s2" ["10.0.0.2"]; sampleNode 1 0 7 "h1" ["10.0.0.9"]]);
           ("edges", JArray [])].

Lemma rename_survives_reload_witness :
  exists j', (loadStaticTopologyFromFile MININET (Some (Some j')) (newTopology "")).1 =
    renameVertex Nickname "core" 1 (loadStaticTopologyFromFile MININET (Some (Some sampleFile)) (newTopology "")).1.
Proof.
  set (t1 := (loadStaticTopologyFromFile MININET (Some (Some sampleFile)) (newTopology "")).1).
  destruct (vertices (m_graph t1) !! 1%nat) as [p|] eqn:Hp; [|by vm_compute in Hp].
  destruct (rename_survives_reload MININET "" sampleFile t1 Nickname 1 "core" p t1 p) as (j' & _ & E);
    [by vm_compute|done| | |done|done|exists j'; by rewrite E]; vm_compute in Hp; injection Hp as <-; [by left|].
  intros [|u] p' Hu Hp'; [|lia]. vm_compute in Hp'. injection Hp' as <-. intros [_ H]. by vm_compute in H.
Defined.
