(* ===== verification/TopologyReports.v ===== *)
(** The JSON forms of the topology (include/common_types/GraphTypes.hpp, SFlowType.hpp: [to_json] and
    [from_json]; TopologyAndFlowMonitor.cpp: [getStaticTopologyJson], [getAvgLinkUsage]; HttpSession.cpp:
    the graph report and the sums over the links into a switch).

    The sibling applications read the graph report back with [from_json]; the theorem shows what they then
    see of a link or device: an operator's disable reaches them through the folded [is_enabled]. *)

From S2P Require Import Prelude NetUtils Json SFlowTypes GraphTypes Topology.
From Stdlib Require Import SpecFloat.
Local Open Scope string_scope.
Local Open Scope list_scope.
Local Open Scope Z_scope.

(** * Vertices *)

Definition typeInt (t : VertexType) : Z := match t with SWITCH => 0 | HOST => 1 | OtherVertexType n => n end.

Definition memberJson (m : EcmpMember) : json :=
  match m with EcmpPort p => JObject [("type", JString "port"); ("port_id", JInteger (portId p))] end.

Definition groupJson (g : EcmpGroup) : json := JObject [("members", JArray (memberJson <$> members g))].

Definition vertexJson (v : VertexProperties) : json :=
  JObject [("vertex_type", JInteger (typeInt (vertexType v))); ("mac", JUnsigned (mac v));
           ("ip", JArray (JUnsigned <$> ip v)); ("dpid", JUnsigned (v_dpid v)); ("is_up", JBool (v_isUp v));
           ("is_enabled", JBool (v_isEnabled v && negb (v_adminDisabled v)));
           ("admin_disabled", JBool (v_adminDisabled v)); ("device_name", JString (deviceName v));
           ("nickname", JString (nickName v)); ("brand_name", JString (brandName v));
           ("device_layer", JInteger (deviceLayer v)); ("ecmp_groups", JArray (groupJson <$> ecmpGroups v))].

Definition get_bool (j : json) : outcome bool := match j with JBool b => Ret b | _ => Throw JsonTypeError end.

(** Fields the text does not carry keep their defaults. *)
Definition vertexFromJson (j : json) : outcome VertexProperties :=
  let! vt := jfield get_i32 j "vertex_type" in
  let! m := jfield get_u64 j "mac" in
  let! ips := jfield (get_vec get_u32) j "ip" in
  let! d := jfield get_u64 j "dpid" in
  let! up := jfield get_bool j "is_up" in
  let! en := jfield get_bool j "is_enabled" in
  let! adm := jvalue get_bool j "admin_disabled" false in
  let! dev := jfield get_string j "device_name" in
  let! nick := jfield get_string j "nickname" in
  let! brand := jfield get_string j "brand_name" in
  let! layer := jfield get_i32 j "device_layer" in
  let! groups := jfield (get_vec get_group) j "ecmp_groups" in
  Ret {| vertexType := vertexTypeOfInt vt; mac := m; ip := ips; v_dpid := d;
         v_isUp := up; v_isEnabled := en; v_adminDisabled := adm;
         deviceName := dev; nickName := nick; bridgeNameForMininet := ""; brandName := brand;
         switchKind := HARDWARE; deviceLayer := layer; smartPlugIp := ""; smartPlugOutlet := -1;
         bridgeConnectedPortsForMininet := []; ecmpGroups := groups |}.

(** * Edges *)

Definition flowKeyJson (k : FlowKey) : json :=
  JObject [("src_ip", JUnsigned (srcIP k)); ("dst_ip", JUnsigned (dstIP k)); ("src_port", JUnsigned (srcPort k));
           ("dst_port", JUnsigned (dstPort k)); ("protocol_number", JUnsigned (protocol k))].

Definition flowKeyFromJson (j : json) : outcome FlowKey :=
  let! s := jfield get_u32 j "src_ip" in
  let! d := jfield get_u32 j "dst_ip" in
  let! sp := jfield (get_arith u16) j "src_port" in
  let! dp := jfield (get_arith u16) j "dst_port" in
  let! p := jfield (get_arith u8) j "protocol_number" in
  Ret {| srcIP := s; dstIP := d; srcPort := sp; dstPort := dp; protocol := p; icmpType := 0; icmpCode := 0 |}.

(** A [double] as JSON; what is not a number is written as null. *)
Definition floatJson (x : spec_float) : json :=
  match x with
  | S754_zero _ => JFloat 0 0
  | S754_finite s m e => JFloat (if s then Z.neg m else Z.pos m) e
  | S754_infinity _ | S754_nan => JNull
  end.

Definition get_double (j : json) : outcome spec_float :=
  match j with
  | JUnsigned n => Ret (f64_of_Z n)
  | JInteger z => Ret (f64_of_Z z)
  | JFloat m e => Ret (binary_normalize 53 1024 m e false)
  | JBool b => Ret (f64_of_Z (if b then 1 else 0))
  | _ => Throw JsonTypeError
  end.

(** An edge in the graph report of [handleGetGraphData]. *)
Definition edgeJson (mode : DeploymentMode) (e : EdgeProperties) : json :=
  JObject [("is_up", JBool (e_isUp e)); ("link_bandwidth_bps", JUnsigned (linkBandwidth e));
           ("left_link_bandwidth_bps", JUnsigned (match mode with MININET => leftBandwidthFromFlowSample e | TESTBED => leftBandwidth e end));
           ("link_bandwidth_usage_bps", JUnsigned (linkBandwidthUsage e));
           ("link_bandwidth_utilization_percent", floatJson (linkBandwidthUtilization e));
           ("src_ip", JArray (JUnsigned <$> e_srcIp e)); ("src_dpid", JUnsigned (srcDpid e)); ("src_interface", JUnsigned (srcInterface e));
           ("dst_ip", JArray (JUnsigned <$> e_dstIp e)); ("dst_dpid", JUnsigned (dstDpid e)); ("dst_interface", JUnsigned (e_dstInterface e));
           ("flow_set", JArray (flowKeyJson <$> (map_to_list (flowSet e)).*1));
           ("is_enabled", JBool (e_isEnabled e && negb (e_adminDisabled e))); ("admin_disabled", JBool (e_adminDisabled e))].

Definition edgeFromJson (now : Z) (j : json) : outcome EdgeProperties :=
  let! up := jfield get_bool j "is_up" in
  let! en := jfield get_bool j "is_enabled" in
  let! adm := jvalue get_bool j "admin_disabled" false in
  let! leftBw := jfield get_u64 j "left_link_bandwidth_bps" in
  let! bw := jfield get_u64 j "link_bandwidth_bps" in
  let! usage := jfield get_u64 j "link_bandwidth_usage_bps" in
  let! util := jfield get_double j "link_bandwidth_utilization_percent" in
  let! sip := jfield (get_vec get_u32) j "src_ip" in
  let! sd := jfield get_u64 j "src_dpid" in
  let! si := jfield get_u32 j "src_interface" in
  let! dip := jfield (get_vec get_u32) j "dst_ip" in
  let! dd := jfield get_u64 j "dst_dpid" in
  let! di := jfield get_u32 j "dst_interface" in
  let! flows := (if contains j "flow_set" then jfield (get_vec flowKeyFromJson) j "flow_set" else Ret []) in
  Ret {| e_isUp := up; e_isEnabled := en; e_adminDisabled := adm;
         leftBandwidth := leftBw; linkBandwidth := bw; linkBandwidthUsage := usage; linkBandwidthUtilization := util;
         leftBandwidthFromFlowSample := MININET_INTERFACE_SPEED;
         e_srcIp := sip; srcDpid := sd; srcInterface := si; e_dstIp := dip; dstDpid := dd; e_dstInterface := di;
         flowSet := list_to_map ((fun k => (k, now)) <$> flows) |}.

(** * Reports *)

Definition graphDataJson (mode : DeploymentMode) (g : Graph) : json :=
  JObject [("nodes", JArray (vertexJson <$> vertices g)); ("edges", JArray ((fun x => edgeJson mode x.2) <$> edgesInOrder g))].

Definition ipTexts (ips : list Z) : json := JArray ((fun a => JString (ipToString a)) <$> ips).

(** A host is written without plug and bridge; a switch of the testbed without bridge. *)
Definition staticNodeJson (mode : DeploymentMode) (v : VertexProperties) : json :=
  let common := [("ip", ipTexts (ip v)); ("dpid", JUnsigned (v_dpid v)); ("mac", JUnsigned (mac v));
                 ("vertex_type", JInteger (typeInt (vertexType v))); ("device_name", JString (deviceName v))] in
  let model := [("brand_name", JString (brandName v)); ("device_layer", JInteger (deviceLayer v))] in
  let plug := [("smart_plug_ip", JString (smartPlugIp v)); ("smart_plug_outlet", JInteger (smartPlugOutlet v))] in
  if bool_decide (vertexType v = SWITCH) then
    match mode with
    | TESTBED => JObject (common ++ model ++ plug)
    | MININET => JObject (common ++ [("bridge_name", JString (bridgeNameForMininet v))] ++ model ++ plug)
    end
  else JObject (common ++ model).

Definition staticEdgeJson (e : EdgeProperties) : json :=
  JObject [("link_bandwidth_bps", JUnsigned (linkBandwidth e)); ("src_ip", ipTexts (e_srcIp e)); ("src_dpid", JUnsigned (srcDpid e));
           ("src_interface", JUnsigned (srcInterface e)); ("dst_ip", ipTexts (e_dstIp e)); ("dst_dpid", JUnsigned (dstDpid e));
           ("dst_interface", JUnsigned (e_dstInterface e))].

Definition getStaticTopologyJson (mode : DeploymentMode) (t : Topology) : json :=
  JObject [("nodes", JArray (staticNodeJson mode <$> vertices (m_graph t)));
           ("edges", JArray ((fun x => staticEdgeJson x.2) <$> edgesInOrder (m_graph t)))].

(** * Sums over links *)

Definition isHostAt (g : Graph) (v : nat) : bool := from_option (fun p => bool_decide (vertexType p = HOST)) false (vertices g !! v).

(** The edges the average counts. *)
Definition loadedLink (g : Graph) (x : EdgeDesc * EdgeProperties) : bool :=
  isUsableEdge x.2 && negb (bool_decide (linkBandwidthUsage x.2 = 0)) && negb (isHostAt g x.1.1) && negb (isHostAt g x.1.2).

Definition f64_add : spec_float -> spec_float -> spec_float := SFadd 53 1024.

Definition getAvgLinkUsage (g : Graph) : spec_float :=
  let es := filter (fun x => loadedLink g x = true) (edgesInOrder g) in
  match es with
  | [] => f64_of_Z 0
  | _ => f64_div (foldl (fun sum x => f64_add sum (f64_div (f64_of_Z (linkBandwidthUsage x.2)) (f64_of_Z (linkBandwidth x.2)))) (f64_of_Z 0) es)
                 (f64_of_Z (Z.of_nat (length es)))
  end.

Definition edgesInto (dpid : Z) (g : Graph) : list EdgeProperties :=
  filter (fun e => dstDpid e = dpid) (snd <$> edgesInOrder g).

(** [uint64_t totalLoad]. *)
Definition totalInputTrafficLoad (dpid : Z) (g : Graph) : Z :=
  foldl (fun total e => u64 (total + linkBandwidthUsage e)) 0 (edgesInto dpid g).

(** [int numOfFlows += size()]. *)
Definition numOfFlows (dpid : Z) (g : Graph) : Z :=
  foldl (fun n e => i32 (u64 (n + Z.of_nat (base.size (flowSet e))))) 0 (edgesInto dpid g).

(** * What a reader of the graph report sees *)

Definition inI32 (z : Z) : Prop := - 2 ^ 31 <= z < 2 ^ 31.

Record fitsVertex (v : VertexProperties) : Prop := {
  fv_type : inI32 (typeInt (vertexType v)) /\ vertexTypeOfInt (typeInt (vertexType v)) = vertexType v;
  fv_mac : fits 64 (mac v); fv_dpid : fits 64 (v_dpid v); fv_ip : Forall (fits 32) (ip v);
  fv_layer : inI32 (deviceLayer v);
  fv_ecmp : Forall (fun g => Forall (fun m => match m with EcmpPort p => inI32 (portId p) end) (members g)) (ecmpGroups v)
}.

Record fitsEdge (mode : DeploymentMode) (e : EdgeProperties) : Prop := {
  fe_left : fits 64 (match mode with MININET => leftBandwidthFromFlowSample e | TESTBED => leftBandwidth e end);
  fe_bw : fits 64 (linkBandwidth e); fe_usage : fits 64 (linkBandwidthUsage e);
  fe_util : floatJson (linkBandwidthUtilization e) <> JNull;
  fe_sip : Forall (fits 32) (e_srcIp e); fe_dip : Forall (fits 32) (e_dstIp e);
  fe_dpids : fits 64 (srcDpid e) /\ fits 64 (dstDpid e); fe_ifs : fits 32 (srcInterface e) /\ fits 32 (e_dstInterface e);
  fe_flows : forall k, k ∈ dom (flowSet e) ->
    fits 32 (srcIP k) /\ fits 32 (dstIP k) /\ fits 16 (srcPort k) /\ fits 16 (dstPort k) /\ fits 8 (protocol k)
}.

(** What reading gives of a vertex: the disable folded in, and nothing of what is not written. *)
Definition seenVertex (v : VertexProperties) : VertexProperties := {|
  vertexType := vertexType v; mac := mac v; ip := ip v; v_dpid := v_dpid v; v_isUp := v_isUp v;
  v_isEnabled := v_isEnabled v && negb (v_adminDisabled v); v_adminDisabled := v_adminDisabled v;
  deviceName := deviceName v; nickName := nickName v; bridgeNameForMininet := ""; brandName := brandName v;
  switchKind := HARDWARE; deviceLayer := deviceLayer v; smartPlugIp := ""; smartPlugOutlet := -1;
  bridgeConnectedPortsForMininet := []; ecmpGroups := ecmpGroups v |}.

(** A flow without its ICMP fields. *)
Definition plainKey (k : FlowKey) : FlowKey := {|
  srcIP := srcIP k; dstIP := dstIP k; srcPort := srcPort k; dstPort := dstPort k; protocol := protocol k;
  icmpType := 0; icmpCode := 0 |}.

(** What reading gives of an edge, except its utilization. *)
Definition seenEdge (mode : DeploymentMode) (now : Z) (util : spec_float) (e : EdgeProperties) : EdgeProperties := {|
  e_isUp := e_isUp e; e_isEnabled := e_isEnabled e && negb (e_adminDisabled e); e_adminDisabled := e_adminDisabled e;
  leftBandwidth := match mode with MININET => leftBandwidthFromFlowSample e | TESTBED => leftBandwidth e end;
  linkBandwidth := linkBandwidth e; linkBandwidthUsage := linkBandwidthUsage e; linkBandwidthUtilization := util;
  leftBandwidthFromFlowSample := MININET_INTERFACE_SPEED;
  e_srcIp := e_srcIp e; srcDpid := srcDpid e; srcInterface := srcInterface e;
  e_dstIp := e_dstIp e; dstDpid := dstDpid e; e_dstInterface := e_dstInterface e;
  flowSet := list_to_map ((fun k => (plainKey k, now)) <$> (map_to_list (flowSet e)).*1) |}.

Lemma jfield_assoc {A} (get : json -> outcome A) l k v a :
  assoc k l = Some v -> get v = Ret a -> jfield get (JObject l) k = Ret a.
Proof. intros Hv Hg. unfold jfield, jat. by rewrite Hv. Qed.

Lemma get_u64_fits n : fits 64 n -> get_u64 (JUnsigned n) = Ret n.
Proof. intros H. cbn. by rewrite u64_id. Qed.

Lemma get_arith_fits w narrow n : narrow = (fun z => z mod 2 ^ w) -> fits w n -> get_arith narrow (JUnsigned n) = Ret n.
Proof. intros -> H. cbn. by rewrite Z.mod_small. Qed.

Lemma get_u32_fits n : fits 32 n -> get_u32 (JUnsigned n) = Ret n.
Proof. by apply get_arith_fits. Qed.

Lemma get_i32_fits z : inI32 z -> get_i32 (JInteger z) = Ret z.
Proof. intros H. cbn. by rewrite i32_id. Qed.

Lemma get_ips_fits l : Forall (fits 32) l -> get_vec get_u32 (JArray (JUnsigned <$> l)) = Ret l.
Proof. intros H. apply get_all_encode. eapply Forall_impl; [done|]. apply get_u32_fits. Qed.

Lemma get_group_fits g :
  Forall (fun m => match m with EcmpPort p => inI32 (portId p) end) (members g) -> get_group (groupJson g) = Ret g.
Proof.
  intros H. unfold get_group, groupJson. erewrite (jfield_assoc (get_vec get_member) _ _ _ (members g)); [by destruct g|reflexivity|]. apply get_all_encode.
  eapply Forall_impl; [done|]. intros [[p]] Hp. unfold get_member, memberJson. erewrite jfield_assoc; [|reflexivity|done]. cbn [obind].
  rewrite bool_decide_true by done. by erewrite jfield_assoc; [|reflexivity|by apply get_i32_fits].
Qed.

(** Reads the next field of a literal object. *)
Ltac readField_with t := erewrite jfield_assoc; [|reflexivity|solve [t]]; cbn [obind].
Ltac readFields := repeat readField_with ltac:(first [by apply get_u64_fits | by apply get_u32_fits | by apply get_ips_fits | by apply get_i32_fits |
  by apply (get_arith_fits 16) | by apply (get_arith_fits 8) | done]).

Lemma vertex_read v : fitsVertex v -> vertexFromJson (vertexJson v) = Ret (seenVertex v).
Proof.
  intros [[Ht Et] Hm Hd Hip Hl He]. unfold vertexFromJson, vertexJson. readFields.
  change (jvalue get_bool _ _ _) with (Ret (v_adminDisabled v)). cbn [obind]. readFields.
  erewrite (jfield_assoc (get_vec get_group) _ _ _ (ecmpGroups v)); [cbn [obind]; by rewrite Et|reflexivity|].
  apply get_all_encode. eapply Forall_impl; [done|]. apply get_group_fits.
Qed.

Lemma get_flow_fits k :
  fits 32 (srcIP k) -> fits 32 (dstIP k) -> fits 16 (srcPort k) -> fits 16 (dstPort k) -> fits 8 (protocol k) ->
  flowKeyFromJson (flowKeyJson k) = Ret (plainKey k).
Proof.
  intros ? ? ? ? ?. unfold flowKeyFromJson, flowKeyJson. by readFields.
Qed.

(** The utilization read back is the nearest double to the one written. *)
Definition seenUtil (x : spec_float) : spec_float := catch (get_double (floatJson x)) (f64_of_Z 0).

Lemma get_all_map {A B} (enc : A -> json) (dec : json -> outcome B) (g : A -> B) l :
  Forall (fun a => dec (enc a) = Ret (g a)) l -> get_all dec (enc <$> l) = Ret (g <$> l).
Proof. induction 1 as [|a l Ha _ IH]; cbn; [done|]. by rewrite Ha; cbn; rewrite IH. Qed.

Lemma edge_read mode now e :
  fitsEdge mode e -> edgeFromJson now (edgeJson mode e) = Ret (seenEdge mode now (seenUtil (linkBandwidthUtilization e)) e).
Proof.
  intros [Hleft Hbw Hu Hutil Hs Hd [Hsd Hdd] [Hsi Hdi] Hf]. unfold edgeFromJson, edgeJson. readFields.
  change (jvalue get_bool _ _ _) with (Ret (e_adminDisabled e)). cbn [obind]. readFields.
  erewrite (jfield_assoc get_double _ _ _ (seenUtil (linkBandwidthUtilization e))); [|reflexivity|].
  2: { unfold seenUtil. by destruct (linkBandwidthUtilization e) as [| | |[]]. }
  cbn [obind]. readFields. change (contains _ "flow_set") with true. cbn match.
  erewrite (jfield_assoc (get_vec flowKeyFromJson) _ _ _ (plainKey <$> (map_to_list (flowSet e)).*1)); [|reflexivity|].
  2: { apply get_all_map, Forall_forall. intros k Hk. apply list_elem_of_fmap in Hk as ([k' x] & -> & Hx).
       apply elem_of_map_to_list in Hx. destruct (Hf k') as (? & ? & ? & ? & ?); [by apply elem_of_dom_2 in Hx|].
       by apply get_flow_fits. }
  cbn [obind]. unfold seenEdge. by rewrite <- list_fmap_compose.
Qed.

Lemma seen_flows mode now util e k :
  k ∈ dom (flowSet (seenEdge mode now util e)) <-> exists k', k' ∈ dom (flowSet e) /\ k = plainKey k'.
Proof.
  cbn. rewrite dom_list_to_map_L, elem_of_list_to_set, <- list_fmap_compose, list_elem_of_fmap. split.
  - intros (k' & -> & ([k2 x] & -> & Hx)%list_elem_of_fmap). exists k2. split; [|done].
    by apply elem_of_map_to_list, elem_of_dom_2 in Hx.
  - intros (k' & [x Hx]%elem_of_dom & ->). exists k'. split; [done|]. apply list_elem_of_fmap. exists (k', x).
    split; [done|]. by apply elem_of_map_to_list.
Qed.

(** C34: A client that reads the graph report back gets every vertex and every edge, with the flows of each
    edge (without their ICMP fields), and its own test, up and enabled, says exactly whether the kernel
    holds the device or link usable: an administrative disable reaches it although it never looks at it. *)
Theorem graph_report_read mode now g :
  Forall fitsVertex (vertices g) -> (forall d e, edges g !! d = Some e -> fitsEdge mode e) ->
  jfield (get_vec vertexFromJson) (graphDataJson mode g) "nodes" = Ret (seenVertex <$> vertices g) /\
  jfield (get_vec (edgeFromJson now)) (graphDataJson mode g) "edges" =
    Ret ((fun x => seenEdge mode now (seenUtil (linkBandwidthUtilization x.2)) x.2) <$> edgesInOrder g) /\
  (forall v, v_isUp (seenVertex v) && v_isEnabled (seenVertex v) = isUsableVertex v) /\
  (forall util e, e_isUp (seenEdge mode now util e) && e_isEnabled (seenEdge mode now util e) = isUsableEdge e) /\
  (forall util e k, k ∈ dom (flowSet (seenEdge mode now util e)) <-> exists k', k' ∈ dom (flowSet e) /\ k = plainKey k').
Proof.
  intros Hv He. repeat split; try apply seen_flows.
  - eapply jfield_assoc; [reflexivity|]. apply get_all_map. eapply Forall_impl; [done|]. apply vertex_read.
  - eapply jfield_assoc; [reflexivity|]. apply (get_all_map (fun x => edgeJson mode x.2)), Forall_forall. intros [d e] Hx.
    apply edge_read, (He d). by apply elem_of_edgesInOrder.
  - intros v. unfold isUsableVertex. cbn. by rewrite andb_assoc.
  - intros util e. unfold isUsableEdge. cbn. by rewrite andb_assoc.
Qed.

Definition reportedVertex : VertexProperties := {|
  vertexType := SWITCH; mac := 0; ip := [16777226]; v_dpid := 1; v_isUp := true; v_isEnabled := true; v_adminDisabled := true;
  deviceName := "s1"; nickName := "s1"; bridgeNameForMininet := "s1"; brandName := "BMv2"; switchKind := BMV2; deviceLayer := 1;
  smartPlugIp := ""; smartPlugOutlet := -1; bridgeConnectedPortsForMininet := []; ecmpGroups := [{| members := [EcmpPort {| portId := 3 |}] |}] |}.

Definition reportedEdge : EdgeProperties := {|
  e_isUp := true; e_isEnabled := true; e_adminDisabled := false; leftBandwidth := 600; linkBandwidth := 1000; linkBandwidthUsage := 400;
  linkBandwidthUtilization := f64_of_Z 40; leftBandwidthFromFlowSample := 700; e_srcIp := [16777226]; srcDpid := 1; srcInterface := 2;
  e_dstIp := [33554442]; dstDpid := 0; e_dstInterface := 0; flowSet := ∅ |}.

Definition reportedGraph : Graph := {| vertices := [reportedVertex]; edges := {[(0%nat, 0%nat) := reportedEdge]} |}.

Lemma graph_report_read_witness :
  jfield (get_vec vertexFromJson) (graphDataJson MININET reportedGraph) "nodes" = Ret (seenVertex <$> [reportedVertex]).
Proof.
  apply (graph_report_read MININET 7 reportedGraph).
  - constructor; [|constructor]. split; cbn; try (split; [|done]); try (unfold fits, inI32; lia).
    + constructor; [unfold fits; lia|constructor].
    + constructor; [|constructor]. cbn. constructor; [unfold inI32; cbn; lia|constructor].
  - intros d e H. cbn [edges reportedGraph] in H. apply lookup_singleton_Some in H as [_ <-].
    assert (Hip : forall a, fits 32 a -> Forall (fits 32) [a]) by (intros; constructor; [done|constructor]).
    split; [unfold fits; cbn; lia| | | |apply Hip|apply Hip| | |]; try (unfold fits; cbn; lia); [discriminate|].
    intros k Hk. cbn in Hk. set_solver.
Defined.
