(* ===== verification/TopologyInterface.v ===== *)
(** The topology monitor as the implementation of the two interfaces the flow collector uses, and
    what follows for the collector: the path walk yields connected paths of the topology, and
    draining the link credits zeroes what the topology can publish. *)

From S2P Require Import Prelude Bytes CStrings NetUtils Json KeyedFailureLog ClassifierKey ClassifierTables ClassifierProps.
From S2P Require Import SFlowTypes SFlowParser SFlowIngest FlowRates FlowRatesProps PathWalk.
From S2P Require Import GraphTypes Topology TopologyProps TopologyPaths TopologyFlows.
From Stdlib Require Import SpecFloat.
Local Open Scope string_scope.
Local Open Scope list_scope.
Local Open Scope Z_scope.

(** * The collector's view *)

(** The monitor with the number of clock readings it has made. *)
Record MonitorState := { ms_topology : Topology; ms_clock : nat }.

Section Monitor.
Context (steadyNs : nat -> Z) (undefinedCast : spec_float -> Z).

(** [std::chrono::duration<double>] of a number of nanoseconds. *)
Definition elapsedSeconds (ns : Z) : spec_float := f64_div (f64_of_Z ns) (f64_of_Z 1000000000).

Definition topologyMonitor : TopologyMonitor MonitorState := {|
  Edge := EdgeDesc;
  SFlowParser.findReverseEdgeByAgentIpAndPort t key := (Topology.findReverseEdgeByAgentIpAndPort key (ms_topology t)).1;
  SFlowParser.findEdgeToHostByAgentIpAndPort t key := Topology.findEdgeToHostByAgentIpAndPort key (ms_topology t);
  SFlowParser.findEdgeByAgentIpAndPort t key := Topology.findEdgeByAgentIpAndPort key (ms_topology t);
  SFlowParser.getAgentKeyFromTheOtherSide t key := Topology.getAgentKeyFromTheOtherSide key (ms_topology t);
  SFlowParser.touchEdgeFlow d key t :=
    {| ms_topology := (Topology.touchEdgeFlow (steadyNs (ms_clock t)) d key (ms_topology t)).1; ms_clock := S (ms_clock t) |};
  SFlowParser.updateLinkInfo key li lo sp t :=
    {| ms_topology := Topology.updateLinkInfo key li lo sp (ms_topology t); ms_clock := ms_clock t |};
  SFlowParser.updateLinkInfoLeftLinkBandwidth key bytes ns t :=
    {| ms_topology := Topology.updateLinkInfoLeftLinkBandwidth undefinedCast key bytes (elapsedSeconds ns) (ms_topology t);
       ms_clock := ms_clock t |}
|}.

Lemma otherSide_keeps key t t' :
  evolves keepsV keepsE (m_graph t) (m_graph t') ->
  Topology.getAgentKeyFromTheOtherSide key t' = Topology.getAgentKeyFromTheOtherSide key t.
Proof.
  intros H. unfold Topology.getAgentKeyFromTheOtherSide.
  set (p := fun e : EdgeProperties => frontIs key.1 (e_dstIp e) && bool_decide (e_dstInterface e = key.2)).
  rewrite <- (evolves_firstEdge keepsV keepsE p (m_graph t) (m_graph t')); [| |done].
  2:{ intros e e' [[= E1 E2 E3 E4 E5 E6] _]. unfold p. by rewrite E4, E6. }
  destruct (firstEdge p (m_graph t)) as [d|] eqn:Ed; [|done]. apply firstEdge_Some in Ed as [(e & He & _) _].
  destruct (evolves_edge _ _ _ _ _ _ H He) as (e' & -> & [[= E1 E2 E3 E4 E5 E6] _]). rewrite He. by rewrite E1, E3.
Qed.

(** The topology keeps what the collector relies on. *)
Lemma topologyMonitorLaws : @TopologyMonitorLaws MonitorState topologyMonitor.
Proof.
  split. intros k b e t key. cbn. apply otherSide_keeps.
  exact (runOp_keeps (ms_topology t) (OpSampledRate undefinedCast k b (elapsedSeconds e)) eq_refl).
Qed.

End Monitor.

(** * The walk's view *)

Definition walkGraph (t : Topology) : WalkGraph EdgeDesc := {|
  PathWalk.findEdgeByHostIp a := Topology.findEdgeByHostIp a t;
  PathWalk.findEdgeByDpidAndPort key := Topology.findEdgeByDpidAndPort key t;
  dstInterface d := match edges (m_graph t) !! d with Some e => e_dstInterface e | None => 0 end;
  targetDpid d := match vertices (m_graph t) !! d.2 with Some p => v_dpid p | None => 0 end;
  targetIps d := match vertices (m_graph t) !! d.2 with Some p => ip p | None => [] end
|}.

(** Consecutive edges meet at a vertex. *)
Fixpoint contiguous (ds : list EdgeDesc) : Prop :=
  match ds with
  | d :: (d' :: _) as ds' => d.2 = d'.1 /\ contiguous ds'
  | _ => True
  end.

(** Where a chain of edges that starts with [d] ends. *)
Definition lastEdge (d : EdgeDesc) (ds : list EdgeDesc) : EdgeDesc := foldl (fun _ x => x) d ds.

Definition hopOf (t : Topology) (d : EdgeDesc) : Z * Z :=
  match edges (m_graph t) !! d with Some e => (srcDpid e, srcInterface e) | None => (0, 0) end.

(** ** Ends of edges in reachable topologies *)

Definition sameV (p p' : VertexProperties) : Prop := vcore p = vcore p'.
Definition sameE (e e' : EdgeProperties) : Prop := ecore e = ecore e'.
#[export] Instance sameV_refl : Reflexive sameV.
Proof. done. Qed.
#[export] Instance sameE_refl : Reflexive sameE.
Proof. done. Qed.
#[export] Instance sameV_trans : Transitive sameV.
Proof. intros x y z H1 H2. unfold sameV in *. by rewrite H1. Qed.
#[export] Instance sameE_trans : Transitive sameE.
Proof. intros x y z H1 H2. unfold sameE in *. by rewrite H1. Qed.

Lemma runOp_same t op : evolves sameV sameE (m_graph t) (m_graph (runOp t op)).
Proof.
  destruct (isEnableOp op) eqn:E.
  - destruct op; try done. cbn [runOp]. unfold enableSwitchAndEdges.
    destruct (findSwitchByDpid dpid t) as [v|]; cbn; [|done].
    etrans; [by apply (evolves_alterVertex sameV sameE (fun p => vflags (v_isUp p) true false p) v)|].
    apply (evolves_edges sameV sameE (fun d e => if incident v d then eflags (e_isUp e) true false e else e)).
    intros d e. by destruct (incident v d).
  - eapply evolves_impl; [| |apply (runOp_keeps t op E)]; [by intros p p' [H _]|by intros e e' [H _]].
Qed.

Lemma runOps_same t ops : evolves sameV sameE (m_graph t) (m_graph (runOps t ops)).
Proof.
  revert t. induction ops as [|op ops IH]; intros t; [done|]. etrans; [apply (runOp_same t op)|]. apply (IH (runOp t op)).
Qed.

(** An edge that names a dpid leaves a vertex of that dpid. *)
Definition leavesNamed (g : Graph) : Prop :=
  forall u v e, edges g !! (u, v) = Some e -> srcDpid e <> 0 -> exists p, vertices g !! u = Some p /\ v_dpid p = srcDpid e.

Lemma reachable_leavesNamed mode ryu t : reachable mode ryu t -> leavesNamed (m_graph t).
Proof.
  intros (file & ops & ->). destruct (loadStaticTopologyFromFile mode file (newTopology ryu)) as [t r] eqn:E.
  apply load_ok in E as [Hwf _]. cbn [fst]. intros u v e' He' Hd.
  pose proof (runOps_same t ops) as Hs. destruct (evolves_edge_r _ _ _ _ _ _ Hs He') as (e & He & [= E1 E2 E3 E4 E5 E6]).
  destruct (wf_ends t Hwf u v e He) as [(p & Hp & Hok) _]. unfold endpointOk in Hok.
  rewrite bool_decide_true in Hok by congruence. destruct Hok as [_ Hpd].
  destruct (evolves_vertex _ _ _ _ _ _ Hs Hp) as (p' & Hp' & Hvc). exists p'. split; [done|].
  apply (f_equal v_dpid) in Hvc. cbn in Hvc. congruence.
Qed.

Section Walk.
Context (t : Topology) (m_classifier : Impl).
Context (Hleaves : leavesNamed (m_graph t)) (Hunique : uniqueDpids (m_graph t)).

Lemma forwards_chain fk dst n d p :
  @forwards EdgeDesc (walkGraph t) m_classifier fk dst n d p ->
  exists ds, length ds = n /\ contiguous (d :: ds) /\ Forall (fun d => is_Some (edges (m_graph t) !! d)) ds /\
    @targetDpid _ (walkGraph t) (lastEdge d ds) = 0 /\
    p = (hopOf t <$> ds) ++ (if bool_decide (dst ∈ @targetIps _ (walkGraph t) (lastEdge d ds)) then [(dst, 0)] else []).
Proof.
  induction 1 as [d Hd Hin|d Hd Hin|n d d' port p Hd Hport Hfind Hf (ds & Hl & Hc & Hall & Hend & ->)].
  - exists []. split_and!; try done. cbn [fmap list_fmap app lastEdge foldl]. by rewrite bool_decide_true.
  - exists []. split_and!; try done. cbn [fmap list_fmap app lastEdge foldl]. by rewrite bool_decide_false.
  - cbn in Hfind. apply firstEdge_Some in Hfind as [(e & He & Hp) _].
    apply andb_prop in Hp as [Hsd%bool_decide_eq_true Hsi%bool_decide_eq_true]. cbn in Hsd, Hsi, Hd.
    destruct (vertices (m_graph t) !! d.2) as [q|] eqn:Eq; [|done].
    destruct d' as [u' v']. destruct (Hleaves u' v' e He) as (p' & Hp' & Hpd); [congruence|].
    exists ((u', v') :: ds). split_and!; [cbn; by rewrite Hl| | |done|].
    + split; [|done]. cbn. apply (Hunique _ _ q p'); congruence.
    + by constructor.
    + cbn [fmap list_fmap app]. f_equal. unfold hopOf. rewrite He. cbn. rewrite Eq. congruence.
Qed.
End Walk.

(** Traced paths exist in the network.  In every reachable topology with distinct switch dpids, a
    successful walk yields a chain of edges of the topology, each leaving the vertex the previous one
    enters, from the source host's edge to a vertex without dpid; the path lists the source, the dpid
    and port each edge leaves by, and the destination if the last vertex owns its address. *)
Theorem traced_path_connected mode ryu t m_classifier k path fails :
  reachable mode ryu t -> uniqueDpids (m_graph t) ->
  @walkFlow EdgeDesc (walkGraph t) m_classifier k = (true, path, fails) ->
  exists d ds, Topology.findEdgeByHostIp (srcIP k) t = Some d /\ (length ds < 100)%nat /\
    contiguous (d :: ds) /\ Forall (fun d => is_Some (edges (m_graph t) !! d)) (d :: ds) /\
    @targetDpid _ (walkGraph t) (lastEdge d ds) = 0 /\
    path = (srcIP k, @dstInterface _ (walkGraph t) d) :: (hopOf t <$> ds) ++
           (if bool_decide (dstIP k ∈ @targetIps _ (walkGraph t) (lastEdge d ds)) then [(dstIP k, 0)] else []).
Proof.
  intros Hr Hu Hw. unfold walkFlow in Hw. case_match; [done|]. cbn [PathWalk.findEdgeByHostIp walkGraph] in Hw.
  destruct (Topology.findEdgeByHostIp (srcIP k) t) as [d|] eqn:Ed; [|done].
  apply walkHops_forwards in Hw as (-> & m & p & Hm & Hf & ->).
  destruct (forwards_chain t m_classifier (reachable_leavesNamed _ _ _ Hr) Hu _ _ _ _ _ Hf) as (ds & <- & Hc & Hall & Hend & ->).
  exists d, ds. split_and!; try done. constructor; [|done]. apply firstEdge_Some in Ed as [(e & He & _) _]. eauto.
Qed.

(** The drain on the topology.  With the topology monitor behind the collector, one Mininet pass
    over the link credits zeroes the credit of exactly the interfaces some edge of the topology
    enters, keeps the others, and leaves the wiring, the flags and the flows of the topology as they
    were. *)
Theorem topology_drain steadyNs cast elapsed (c : Collector MonitorState) key :
  let c' := @drainCounterReports MonitorState (topologyMonitor steadyNs cast) MININET elapsed c in
  m_counterReports c' !! key =
    (match m_counterReports c !! key with
     | Some v => Some (if bool_decide (Topology.getAgentKeyFromTheOtherSide key (ms_topology (monitor c)) = None)
                       then v else zeroCredit v)
     | None => None
     end) /\
  evolves keepsV keepsE (m_graph (ms_topology (monitor c))) (m_graph (ms_topology (monitor c'))).
Proof.
  cbv zeta. split.
  - rewrite (@drain_zeroes_known_links MonitorState (topologyMonitor steadyNs cast) (topologyMonitorLaws steadyNs cast) elapsed c key).
    cbn. destruct (m_counterReports c !! key); [|done]. by case_bool_decide.
  - unfold drainCounterReports. generalize (reportsInOrder (m_counterReports c)). intros l. revert c.
    induction l as [|[k v] l IH]; intros c; [done|]. cbn [foldl]. etrans; [|apply IH].
    unfold drainOne. cbn [SFlowParser.getAgentKeyFromTheOtherSide topologyMonitor]. case_match; [|done].
    apply (runOp_keeps (ms_topology (monitor c)) (OpSampledRate cast _ _ (elapsedSeconds elapsed)) eq_refl).
Qed.

(** The switch of the sample tables between its two hosts, as a topology file. *)
Definition walkFile : json := JObject [
  ("nodes", JArray [sampleNode 0 1 11 "192.168.1.1" "s1"; sampleNode 1 0 21 "10.0.0.9" "h9"; sampleNode 1 0 22 "10.0.0.1" "h1"]);
  ("edges", JArray [sampleLink "10.0.0.9" 0 0 "192.168.1.1" 1 4; sampleLink "192.168.1.1" 1 4 "10.0.0.9" 0 0;
                    sampleLink "10.0.0.1" 0 0 "192.168.1.1" 1 2; sampleLink "192.168.1.1" 1 2 "10.0.0.1" 0 0])].

Definition walkTopology : Topology :=
  (loadStaticTopologyFromFile TESTBED (Some (Some walkFile)) (newTopology "127.0.0.1:8080")).1.

Lemma walkTopology_unique : uniqueDpids (m_graph walkTopology).
Proof.
  intros v w p q Hv Hw.
  assert (forall i r, vertices (m_graph walkTopology) !! i = Some r -> v_dpid r <> 0 -> i = 0%nat) as H.
  { intros i r Hi Hr. assert ((v_dpid <$> vertices (m_graph walkTopology)) !! i = Some (v_dpid r)) as Hd by (by rewrite list_lookup_fmap, Hi).
    replace (v_dpid <$> vertices (m_graph walkTopology)) with [1; 0; 0] in Hd by (by vm_compute).
    destruct i as [|[|[|i]]]; cbn in Hd; [done|congruence|congruence|by destruct i]. }
  intros Heq Hne. rewrite (H v p Hv Hne). symmetry. by apply (H w q Hw); rewrite <- Heq.
Qed.

Lemma traced_path_connected_witness :
  @walkFlow EdgeDesc (walkGraph walkTopology) sampleImpl sampleFlowKey =
    (true, [(bswap32 0x0A000009, 4); (1, 2); (bswap32 0x0A000001, 0)], []) /\
  exists d ds, Topology.findEdgeByHostIp (bswap32 0x0A000009) walkTopology = Some d /\ contiguous (d :: ds).
Proof.
  assert (@walkFlow EdgeDesc (walkGraph walkTopology) sampleImpl sampleFlowKey =
    (true, [(bswap32 0x0A000009, 4); (1, 2); (bswap32 0x0A000001, 0)], [])) as Hw by (vm_compute; reflexivity).
  split; [exact Hw|].
  destruct (traced_path_connected TESTBED "127.0.0.1:8080" walkTopology sampleImpl sampleFlowKey _ _
              (ex_intro _ (Some (Some walkFile)) (ex_intro _ [] eq_refl)) walkTopology_unique Hw) as (d & ds & Hd & _ & Hc & _).
  exists d, ds. split; [exact Hd|exact Hc].
Defined.
