(* ===== verification/PortMapping.v ===== *)
(** The mapping from interface indexes to switch ports, and the control plane that owns the switches
    (src/ndt_core/collection/FlowLinkUsageCollector.cpp: trim, usesIdentityPortMapping,
    controlPlaneHostAndPort, configurePortMapping, lookupOfport, populateIfIndexToOfportMap).

    The text of `ovs-vsctl list interface` is an argument, read through [fgets] as the code reads it.
    Undefined behaviour (taking the closing quote off a value that is a single quote) is [None].
    Logging and the exit status of the command, which is only logged, are left out. *)

From Stdlib Require Import Ascii.
From S2P Require Import Prelude CStrings NetUtils Commands GraphTypes Topology SFlowTypes SFlowParser.
Local Open Scope string_scope.
Local Open Scope list_scope.
Local Open Scope Z_scope.

(** * Reading the interface list *)

Definition trim (s : string) : string := drop_spaces_end (drop_spaces s).

(** The interface block being read. *)
Record Block := { in_block : bool; temp_name_str : string; temp_ifindex : Z; temp_ofport : Z }.

Definition noBlock : Block := {| in_block := false; temp_name_str := ""; temp_ifindex := 0; temp_ofport := 0 |}.
Definition freshBlock : Block := {| in_block := true; temp_name_str := ""; temp_ifindex := 0; temp_ofport := 0 |}.

Definition LOCAL_PORT : Z := 65534.

(** Names of the form sX-ethY. *)
Definition isSwitchPort (name : string) : bool := String.prefix "s" name && bool_decide (is_Some (afterText "-eth" name)).

(** The end of a block: a port of a switch is entered. *)
Definition closeBlock (b : Block) (m : gmap Z Z) : gmap Z Z :=
  if in_block b && negb (bool_decide (temp_name_str b = "")) && bool_decide (0 < temp_ifindex b) && bool_decide (0 < temp_ofport b) &&
     negb (bool_decide (temp_ofport b = LOCAL_PORT)) && isSwitchPort (temp_name_str b)
  then <[temp_ifindex b := temp_ofport b]> m else m.

Definition isQuote (c : ascii) : bool := bool_decide (c = doubleQuote).

(** The value without its quotes. *)
Definition unquote (value : string) : option string :=
  match value with
  | String c rest =>
      if isQuote c && match rev_string value with String d _ => isQuote d | _ => false end
      then match rest with EmptyString => None | _ => Some (rev_string (match rev_string rest with String _ r => r | r => r end)) end
      else Some value
  | EmptyString => Some value
  end.

(** [temp = std::stoul(value)] into 32 bits; an exception leaves the old value. *)
Definition readNumber (value : string) (old : Z) : Z := match stoull 10 value with Ret v => u32 v | Throw _ => old end.

Definition setField (key value : string) (b : Block) : Block := {|
  in_block := in_block b;
  temp_name_str := if bool_decide (key = "name") then value else temp_name_str b;
  temp_ifindex := if bool_decide (key = "ifindex") then readNumber value (temp_ifindex b) else temp_ifindex b;
  temp_ofport := if bool_decide (key = "ofport") then readNumber value (temp_ofport b) else temp_ofport b |}.

Definition readLine (line : string) (b : Block) (m : gmap Z Z) : option (Block * gmap Z Z) :=
  if bool_decide (is_Some (afterText "_uuid" line)) then Some (freshBlock, closeBlock b m)
  else if negb (in_block b) then Some (b, m)
  else match split_at_char ":" line with
       | None => Some (b, m)
       | Some (key, value) => value ← unquote (trim value); Some (setField (trim key) value b, m)
       end.

Fixpoint readLines (lines : list string) (b : Block) (m : gmap Z Z) : option (gmap Z Z) :=
  match lines with
  | [] => Some (closeBlock b m)
  | line :: lines => '(b, m) ← readLine (c_str line) b m; readLines lines b m
  end.

(** [output]: what the command printed, nothing when it could not be run. *)
Definition populateIfIndexToOfportMap (output : option string) : option (gmap Z Z) :=
  match output with None => Some ∅ | Some text => readLines (fgetsLines 255 text) noBlock ∅ end.

(** * Choosing the mapping *)

Definition usesIdentityPortMapping (groups : list (SwitchKind * list Z)) : bool :=
  match groups with [(BMV2, _)] => true | _ => false end.

Definition controlPlaneHostAndPort (mode : DeploymentMode) (RYU_IP_AND_PORT P4_PROXY_IP_AND_PORT : string) (t : Topology) : string :=
  if bool_decide (mode = MININET) && usesIdentityPortMapping (getSwitchKindGroups t) then P4_PROXY_IP_AND_PORT else RYU_IP_AND_PORT.

Section Once.
Context {T : Type}.

Definition set_portMap (identity : bool) (m : gmap Z Z) (c : Collector T) : Collector T := {|
  m_flowInfoTable := m_flowInfoTable c; m_counterReports := m_counterReports c;
  m_egressCounterReports := m_egressCounterReports c; m_allPathMap := m_allPathMap c;
  m_ifIndexToOfportMap := m; m_identityPortMapping := identity;
  m_malformedDatagrams := m_malformedDatagrams c; addresedSampleNum := addresedSampleNum c;
  monitor := monitor c; clockReads := clockReads c |}.

Definition configurePortMapping (mode : DeploymentMode) (t : Topology) (output : option string) (c : Collector T) : option (Collector T) :=
  match mode with
  | TESTBED => Some c
  | MININET =>
      if usesIdentityPortMapping (getSwitchKindGroups t) then Some (set_portMap true (m_ifIndexToOfportMap c) c)
      else m ← populateIfIndexToOfportMap output; Some (set_portMap (m_identityPortMapping c) m c)
  end.

(** lookupOfport with the [call_once] in front of it; [once] says whether the call has been made. *)
Definition lookupOfportOnce (mode : DeploymentMode) (t : Topology) (output : option string) (ifIndex : Z)
  (once : bool) (c : Collector T) : option (Z * Collector T) :=
  c' ← (if once then Some c else configurePortMapping mode t output c); Some (lookupOfport c' ifIndex, c').

End Once.

(** * Text with spaces around it *)

Definition noEdgeSpace (s : string) : bool :=
  match s with String c _ => negb (is_space c) | _ => true end &&
  match rev_string s with String c _ => negb (is_space c) | _ => true end.

Lemma rev_string_onto_app s acc : rev_string_onto s acc = rev_string s +:+ acc.
Proof.
  unfold rev_string. revert acc. induction s as [|c s IH]; intros acc; cbn; [done|].
  rewrite IH, (IH (String c "")), append_assoc_s. done.
Qed.
Lemma rev_string_app a b : rev_string (a +:+ b) = rev_string b +:+ rev_string a.
Proof.
  induction a as [|c a IH]; [by rewrite append_nil_s|].
  change (rev_string_onto (a +:+ b) (String c "") = rev_string b +:+ rev_string_onto a (String c "")).
  by rewrite !rev_string_onto_app, IH, append_assoc_s.
Qed.
Lemma rev_string_involutive s : rev_string (rev_string s) = s.
Proof.
  induction s as [|c s IH]; [done|]. change (rev_string (rev_string_onto s (String c "")) = String c s).
  by rewrite rev_string_onto_app, rev_string_app, IH.
Qed.
Lemma all_chars_rev p s : all_chars p (rev_string s) = all_chars p s.
Proof.
  induction s as [|c s IH]; [done|]. change (all_chars p (rev_string_onto s (String c "")) = p c && all_chars p s).
  rewrite rev_string_onto_app, all_chars_app, IH. cbn. by rewrite andb_true_r, andb_comm.
Qed.

Lemma drop_spaces_app a s : all_chars is_space a = true -> drop_spaces (a +:+ s) = drop_spaces s.
Proof.
  induction a as [|c a IH]; [done|]. cbn [all_chars]. intros [Hc Ha]%andb_prop.
  change (drop_spaces (String c (a +:+ s)) = drop_spaces s). cbn. rewrite Hc. auto.
Qed.
Lemma drop_spaces_all a : all_chars is_space a = true -> drop_spaces a = "".
Proof. intros H. by rewrite <- (append_nil_s a), drop_spaces_app. Qed.

(** [trim] takes off exactly the spaces around a text that has none at its ends. *)
Lemma trim_between a s b :
  all_chars is_space a = true -> all_chars is_space b = true -> noEdgeSpace s = true -> trim (a +:+ s +:+ b) = s.
Proof.
  intros Ha Hb [H1 H2]%andb_prop. unfold trim. rewrite drop_spaces_app by done.
  destruct s as [|c s]; [change ("" +:+ b) with b; by rewrite drop_spaces_all|].
  change (String c s +:+ b) with (String c (s +:+ b)). cbn [drop_spaces].
  destruct (is_space c) eqn:Hc; [done|]. unfold drop_spaces_end.
  change (String c (s +:+ b)) with (String c s +:+ b). rewrite rev_string_app, drop_spaces_app by (by rewrite all_chars_rev).
  destruct (rev_string (String c s)) as [|d r] eqn:E; cbn [drop_spaces].
  - by rewrite <- (rev_string_involutive (String c s)), E.
  - destruct (is_space d); [done|]. by rewrite <- E, rev_string_involutive.
Qed.

(** * Lines *)

Definition noNewline (s : string) : bool := all_chars (fun c => negb (bool_decide (c = newlineChar))) s.

Lemma fgetsFrom_line size l rest cur room :
  noNewline l = true -> (String.length l < room)%nat ->
  fgetsFrom size (l +:+ String newlineChar rest) cur room = (cur +:+ l +:+ String newlineChar "") :: fgetsFrom size rest "" size.
Proof.
  revert cur room. induction l as [|c l IH]; intros cur room Hl Hr.
  - change ("" +:+ ?x) with x. cbn [fgetsFrom]. by rewrite bool_decide_true.
  - apply andb_prop in Hl as [Hc Hl]. cbn [String.length] in Hr.
    change (String c l +:+ ?x) with (String c (l +:+ x)). cbn [fgetsFrom].
    apply negb_true_iff in Hc. rewrite Hc. rewrite bool_decide_false by lia. cbn [orb]. rewrite IH by (done || lia).
    by rewrite (append_snoc cur c (l +:+ String newlineChar "")).
Qed.

Lemma fgetsLines_lines (lines : list string) :
  Forall (fun l => noNewline l = true /\ (String.length l < 255)%nat) lines ->
  fgetsLines 255 (String.concat "" ((fun l => l +:+ String newlineChar "") <$> lines)) = (fun l => l +:+ String newlineChar "") <$> lines.
Proof.
  assert (forall x l, String.concat "" (x :: l) = x +:+ String.concat "" l) as Hc.
  { intros x [|y l]; [|done]. change (x = x +:+ ""). by rewrite append_nil_s. }
  induction 1 as [|l ls [H1 H2] _ IH]; [done|]. cbn [fmap list_fmap]. rewrite Hc, append_assoc_s.
  unfold fgetsLines. change (String newlineChar "" +:+ ?x) with (String newlineChar x). rewrite fgetsFrom_line by done.
  f_equal. exact IH.
Qed.

(** * Reading back what the command prints *)

(** One line of the output: a column name, padded, and its value. *)
Record Column := { c_key : string; c_pad : nat; c_value : string }.

Definition spaces (n : nat) : string := Nat.iter n (String (ascii_of_nat 32)) "".
Definition columnLine (c : Column) : string := c_key c +:+ spaces (c_pad c) +:+ ": " +:+ c_value c.

Definition line_ok (s : string) : bool := noNewline s && all_chars nonNul s && bool_decide (String.length s < 255)%nat.
Definition key_ok (s : string) : bool := noEdgeSpace s && all_chars (fun c => negb (bool_decide (c = ":"%char))) s.
Definition column_ok (c : Column) : bool :=
  line_ok (columnLine c) && key_ok (c_key c) && noEdgeSpace (c_value c) && 
  negb (bool_decide (is_Some (afterText "_uuid" (columnLine c +:+ String newlineChar "")))).

(** An interface record: the columns in front of, between and behind the three that matter. *)
Record Interface := {
  i_uuid : string; i_before : list Column; i_ifindex : Z; i_between : list Column;
  i_name : string; i_quoted : bool; i_ofport : Z; i_after : list Column; i_pad : nat
}.

Definition named (k : string) (i : Interface) (v : string) : Column := {| c_key := k; c_pad := i_pad i; c_value := v |}.
Definition withQuotes (s : string) : string := String doubleQuote (s +:+ String doubleQuote "").

Definition columnsOf (i : Interface) : list Column :=
  i_before i ++ named "ifindex" i (std_to_string (i_ifindex i)) :: i_between i ++
  named "name" i (if i_quoted i then withQuotes (i_name i) else i_name i) :: named "ofport" i (std_to_string (i_ofport i)) :: i_after i.

Definition interfaceLines (i : Interface) : list string :=
  ("_uuid" +:+ spaces (i_pad i) +:+ ": " +:+ i_uuid i) :: (columnLine <$> columnsOf i).

Definition printInterfaces (is_ : list Interface) : string :=
  String.concat "" ((fun l => l +:+ String newlineChar "") <$> concat (interfaceLines <$> is_)).

(** Any other column may be printed, as long as its value is not a lone quote. *)
Definition other_ok (c : Column) : bool :=
  column_ok c && negb (bool_decide (c_key c ∈ ["name"; "ifindex"; "ofport"])) && bool_decide (is_Some (unquote (c_value c))).

Definition hasNoQuote (s : string) : bool := all_chars (fun c => negb (isQuote c)) s.

Definition interface_ok (i : Interface) : bool :=
  line_ok ("_uuid" +:+ spaces (i_pad i) +:+ ": " +:+ i_uuid i) && forallb other_ok (i_before i ++ i_between i ++ i_after i) &&
  forallb column_ok (columnsOf i) && hasNoQuote (i_name i) && bool_decide (0 <= i_ifindex i < 2 ^ 32) && bool_decide (0 <= i_ofport i < 2 ^ 32).

(** What an interface should contribute. *)
Definition addInterface (m : gmap Z Z) (i : Interface) : gmap Z Z :=
  if bool_decide (0 < i_ifindex i /\ 0 < i_ofport i /\ i_ofport i <> LOCAL_PORT) && isSwitchPort (i_name i)
  then <[i_ifindex i := i_ofport i]> m else m.

Lemma spaces_are n : all_chars is_space (spaces n) = true /\ all_chars (fun c => negb (bool_decide (c = ":"%char))) (spaces n) = true.
Proof. induction n as [|n [IH1 IH2]]; [done|]. by split; cbn. Qed.

Lemma line_ok_c_str l : line_ok l = true -> c_str (l +:+ String newlineChar "") = l +:+ String newlineChar "".
Proof. intros [[_ H]%andb_prop _]%andb_prop. apply c_str_id. by rewrite all_chars_app, H. Qed.

Lemma readLine_column c b m :
  column_ok c = true -> in_block b = true ->
  readLine (c_str (columnLine c +:+ String newlineChar "")) b m = (v ← unquote (c_value c); Some (setField (c_key c) v b, m)).
Proof.
  intros [[[Hl Hk]%andb_prop Hv]%andb_prop Hu]%andb_prop Hb. apply andb_prop in Hk as [Hk1 Hk2]. apply negb_true_iff in Hu.
  destruct (spaces_are (c_pad c)) as [Hs1 Hs2].
  unfold readLine. rewrite line_ok_c_str, Hu, Hb by done. cbn [negb].
  assert (columnLine c +:+ String newlineChar "" = (c_key c +:+ spaces (c_pad c)) +:+ String ":" (" " +:+ c_value c +:+ String newlineChar "")) as ->.
  { unfold columnLine. rewrite !append_assoc_s. done. }
  rewrite split_at_char_app by (by rewrite all_chars_app, Hk2, Hs2).
  rewrite (trim_between " " (c_value c) (String newlineChar "")) by done.
  change (trim (c_key c +:+ spaces (c_pad c))) with (trim ("" +:+ c_key c +:+ spaces (c_pad c))).
  by rewrite (trim_between "" (c_key c) (spaces (c_pad c))) by done.
Qed.

(** The columns of a block in turn. *)
Lemma readLines_column c cs rest b m v :
  column_ok c = true -> in_block b = true -> unquote (c_value c) = Some v ->
  readLines (((fun l => l +:+ String newlineChar "") <$> (columnLine <$> (c :: cs))) ++ rest) b m =
  readLines (((fun l => l +:+ String newlineChar "") <$> (columnLine <$> cs)) ++ rest) (setField (c_key c) v b) m.
Proof. intros Hc Hb Hv. cbn [fmap list_fmap app readLines]. by rewrite readLine_column, Hv. Qed.

Lemma readLines_others cs more rest b m :
  forallb other_ok cs = true -> in_block b = true ->
  readLines (((fun l => l +:+ String newlineChar "") <$> (columnLine <$> (cs ++ more))) ++ rest) b m =
  readLines (((fun l => l +:+ String newlineChar "") <$> (columnLine <$> more)) ++ rest) b m.
Proof.
  intros Hcs Hb. induction cs as [|c cs IH]; [done|]. cbn [forallb] in Hcs. apply andb_prop in Hcs as [Hc Hcs].
  apply andb_prop in Hc as [[Hok Hk]%andb_prop Hu]. apply bool_decide_eq_true in Hu as [v Hv]. apply negb_true_iff, bool_decide_eq_false in Hk.
  rewrite <- app_comm_cons, (readLines_column _ _ _ _ _ v) by done.
  replace (setField (c_key c) v b) with b; [by apply IH|]. destruct b. unfold setField. cbn.
  rewrite !bool_decide_false; [done|intros E; apply Hk; rewrite E; set_solver..].
Qed.

Lemma unquote_digits n : 0 <= n -> unquote (std_to_string n) = Some (std_to_string n).
Proof.
  intros Hn. destruct (to_string_scan n Hn) as (_ & _ & Hd). destruct (std_to_string n) as [|c s]; [done|].
  cbn in Hd. apply andb_prop in Hd as [Hd _]. unfold unquote.
  assert (isQuote c = false) as ->; [|done]. clear -Hd. by destruct c as [[] [] [] [] [] [] [] []]; vm_compute in Hd |- *.
Qed.

Lemma unquote_name (q : bool) s : hasNoQuote s = true -> unquote (if q then withQuotes s else s) = Some s.
Proof.
  intros H. destruct q.
  - unfold withQuotes, unquote.
    assert (rev_string (String doubleQuote (s +:+ String doubleQuote "")) = String doubleQuote (rev_string s +:+ String doubleQuote "")) as ->.
    { change (String doubleQuote ?x) with (String doubleQuote "" +:+ x) at 1. by rewrite !rev_string_app. }
    change (isQuote doubleQuote && isQuote doubleQuote) with true. cbn [andb].
    assert (rev_string (s +:+ String doubleQuote "") = String doubleQuote (rev_string s)) as -> by (by rewrite rev_string_app).
    destruct (s +:+ String doubleQuote "") eqn:E; [by destruct s|]. by rewrite rev_string_involutive.
  - unfold unquote. destruct s as [|c s]; [done|]. cbn in H. apply andb_prop in H as [Hc _]. apply negb_true_iff in Hc. by rewrite Hc.
Qed.

Lemma readNumber_to_string n old : 0 <= n < 2 ^ 32 -> readNumber (std_to_string n) old = n.
Proof.
  intros Hn. unfold readNumber, stoull. rewrite stoull_to_string, bool_decide_true by lia. cbn. apply u32_id. lia.
Qed.

Lemma afterText_prefix pat s : String.prefix pat s = true -> is_Some (afterText pat s).
Proof. intros H. destruct s; cbn [afterText]; rewrite H; eauto. Qed.

Lemma prefix_app p r : String.prefix p (p +:+ r) = true.
Proof.
  induction p as [|c p IH]; [apply prefix_nil|]. change (String c p +:+ r) with (String c (p +:+ r)).
  by rewrite prefix_cons, bool_decide_true, IH.
Qed.

(** A whole interface record closes the block before it and leaves its own. *)
Lemma readLines_interface i rest b m :
  interface_ok i = true ->
  readLines (((fun l => l +:+ String newlineChar "") <$> interfaceLines i) ++ rest) b m =
  readLines rest {| in_block := true; temp_name_str := i_name i; temp_ifindex := i_ifindex i; temp_ofport := i_ofport i |} (closeBlock b m).
Proof.
  intros [[[[[Hu Ho]%andb_prop Hc]%andb_prop Hq]%andb_prop Hi]%andb_prop Hp]%andb_prop.
  apply bool_decide_eq_true in Hi, Hp. rewrite !forallb_app in Ho. apply andb_prop in Ho as [H1 [H2 H3]%andb_prop].
  assert (forall c, c ∈ columnsOf i -> column_ok c = true) as Hcol.
  { intros c Hin. apply (proj1 (forallb_forall _ _) Hc). by apply list_elem_of_In. }
  unfold interfaceLines. cbn [fmap list_fmap app readLines]. rewrite line_ok_c_str by done.
  assert (readLine (("_uuid" +:+ spaces (i_pad i) +:+ ": " +:+ i_uuid i) +:+ String newlineChar "") b m = Some (freshBlock, closeBlock b m)) as ->.
  { unfold readLine. rewrite bool_decide_true; [done|]. apply afterText_prefix. by rewrite append_assoc_s, prefix_app. }
  cbn [mbind option_bind]. unfold columnsOf in *. rewrite readLines_others by done.
  rewrite (readLines_column _ _ _ _ _ (std_to_string (i_ifindex i))); [|apply Hcol; set_solver|done|apply unquote_digits; lia].
  rewrite readLines_others by done.
  rewrite (readLines_column _ _ _ _ _ (i_name i)); [|apply Hcol; set_solver|done|by apply unquote_name].
  rewrite (readLines_column _ _ _ _ _ (std_to_string (i_ofport i))); [|apply Hcol; set_solver|done|apply unquote_digits; lia].
  rewrite <- (app_nil_r (i_after i)), readLines_others by done. cbn [fmap list_fmap app]. f_equal.
  unfold setField. cbn. by rewrite !readNumber_to_string.
Qed.

Lemma closeBlock_interface i m :
  closeBlock {| in_block := true; temp_name_str := i_name i; temp_ifindex := i_ifindex i; temp_ofport := i_ofport i |} m = addInterface m i.
Proof.
  unfold closeBlock, addInterface. cbn. destruct (decide (i_name i = "")) as [-> |Hn].
  - rewrite andb_false_r. cbn. by rewrite andb_false_r.
  - rewrite (bool_decide_false (i_name i = "")) by done. cbn.
    replace (bool_decide (0 < i_ifindex i /\ 0 < i_ofport i /\ i_ofport i <> LOCAL_PORT))
      with (bool_decide (0 < i_ifindex i) && bool_decide (0 < i_ofport i) && negb (bool_decide (i_ofport i = LOCAL_PORT))); [done|].
    repeat case_bool_decide; naive_solver.
Qed.

Lemma readLines_interfaces is_ b m :
  forallb interface_ok is_ = true ->
  readLines ((fun l => l +:+ String newlineChar "") <$> concat (interfaceLines <$> is_)) b m = Some (foldl addInterface (closeBlock b m) is_).
Proof.
  revert b m. induction is_ as [|i is_ IH]; intros b m H; [done|]. cbn [forallb] in H. apply andb_prop in H as [Hi H].
  cbn [fmap list_fmap concat foldl]. rewrite fmap_app, readLines_interface, IH, closeBlock_interface by done. done.
Qed.

Lemma interface_lines_ok i : interface_ok i = true -> Forall (fun l => noNewline l = true /\ (String.length l < 255)%nat) (interfaceLines i).
Proof.
  intros [[[[[Hu _]%andb_prop Hc]%andb_prop _]%andb_prop _]%andb_prop _]%andb_prop.
  assert (forall l, line_ok l = true -> noNewline l = true /\ (String.length l < 255)%nat) as Hl.
  { intros l [[H1 _]%andb_prop H2%bool_decide_eq_true]%andb_prop. done. }
  constructor; [by apply Hl|]. apply Forall_fmap, Forall_forall. intros c Hin. apply Hl.
  apply (proj1 (forallb_forall _ _)) with (x := c) in Hc; [|by apply list_elem_of_In].
  by apply andb_prop in Hc as [[[Hc _]%andb_prop _]%andb_prop _].
Qed.


Definition samplePort (index : Z) (name : string) (q : bool) (port : Z) : Interface := {|
  i_uuid := "3a1b"; i_before := [{| c_key := "admin_state"; c_pad := 9; c_value := "up" |}]; i_ifindex := index;
  i_between := [{| c_key := "mac_in_use"; c_pad := 10; c_value := withQuotes "0a:bb" |}]; i_name := name; i_quoted := q; i_ofport := port;
  i_after := [{| c_key := "type"; c_pad := 16; c_value := withQuotes "" |}]; i_pad := 14 |}.

Definition sampleInterfaces : list Interface :=
  [samplePort 12 "s1-eth1" true 1; samplePort 13 "s1" false 65534; samplePort 14 "s1-eth2" false 2; samplePort 12 "s2-eth7" false 7].


(** * The choice is made once *)

Section Choice.
Context {T : Type}.
Implicit Types c : Collector T.

(** The ports of an all-bmv2 Mininet topology translate to themselves and those of any other Mininet
    topology by the interface list, but this is decided by the topology and the list at the first
    lookup: later ones give the same answers whatever has been loaded since. *)
Theorem port_choice_at_first_lookup mode t output c p0 ifIndex c1 :
  m_identityPortMapping c = false ->
  lookupOfportOnce mode t output ifIndex false c = Some (p0, c1) ->
  p0 = lookupOfport c1 ifIndex /\
  (mode = MININET -> usesIdentityPortMapping (getSwitchKindGroups t) = true -> forall i, lookupOfport c1 i = i) /\
  (mode = MININET -> usesIdentityPortMapping (getSwitchKindGroups t) = false ->
     forall i m, populateIfIndexToOfportMap output = Some m -> lookupOfport c1 i = default 0 (m !! i)) /\
  forall t' output' i, lookupOfportOnce mode t' output' i true c1 = Some (lookupOfport c1 i, c1).
Proof.
  intros Hid H. unfold lookupOfportOnce in H. cbn in H.
  destruct (configurePortMapping mode t output c) as [c'|] eqn:E; simplify_option_eq.
  split; [done|]. split; [|split; [|done]].
  - intros -> Hb i. unfold configurePortMapping in E. rewrite Hb in E. by simplify_eq.
  - intros -> Hb i m Hm. unfold configurePortMapping in E. rewrite Hb, Hm in E. simplify_option_eq. unfold lookupOfport. cbn. by rewrite Hid.
Qed.

End Choice.
