(* ===== verification/RateLoop.v ===== *)
(** The rate loop of the collector (FlowLinkUsageCollector::calAvgFlowSendingRatesPeriodically): the
    measured period and drain interval of each iteration, the summary it logs, and the reports on lost
    samples and on the health of the ingest.  The work of an iteration on the tables is [rateIteration].

    A tick carries the clock readings of one iteration (nanoseconds) and the counters it loads; the
    log lines are the output. *)

From Stdlib Require Import SpecFloat.
From S2P Require Import Prelude SFlowTypes SFlowParser FlowRates NetUtils GraphTypes.
Local Open Scope list_scope.
Local Open Scope Z_scope.

(** * State and output *)

Definition ms_add : spec_float -> spec_float -> spec_float := SFadd 53 1024.
(** [std::min] and [std::max]. *)
Definition ms_min (a b : spec_float) : spec_float := if SFltb b a then b else a.
Definition ms_max (a b : spec_float) : spec_float := if SFltb a b then b else a.
(** [1e30]. *)
Definition f64_1e30 : spec_float := f64_of_Z (10 ^ 30).

(** A duration of clock ticks in milliseconds. *)
Definition millis (ns : Z) : spec_float := f64_div (f64_of_Z ns) (f64_of_Z 1000000).

Definition kNoSampleGrace : Z := 60 * 10 ^ 9.

Record LoopState := {
  lastSockOvfl : Z; lastAppDrop : Z;
  announcedHealthy : bool; warnedNoSamples : bool; rateLoopStartedAt : Z;
  lastIterStart : Z; lastDrainAt : Z; iterCount : Z;
  lastSummaryIter : Z; lastSummarySumMs : spec_float;
  periodSumMs : spec_float; periodMinMs : spec_float; periodMaxMs : spec_float
}.

Record Tick := {
  nowIter : Z; nowDrain : Z; nowHealth : Z;
  sockOvfl : Z; appDrop : Z; rx : Z; addressed : Z
}.

Inductive LogLine :=
  | PeriodSummary (window : Z) (windowMeanMs : spec_float) (iters : Z) (meanMs minMs maxMs : spec_float)
  | DivisorCheck (measured : Z)
  | SamplesLost (sockDelta appDelta received addressed sockTotal appTotal : Z)
  | IngestHealthy (received appTotal addressed sockTotal : Z)
  | NoSampleYet.

Definition startLoop (startedAt iterAt drainAt : Z) : LoopState := {|
  lastSockOvfl := 0; lastAppDrop := 0; announcedHealthy := false; warnedNoSamples := false;
  rateLoopStartedAt := startedAt; lastIterStart := iterAt; lastDrainAt := drainAt; iterCount := 0;
  lastSummaryIter := 1; lastSummarySumMs := f64_of_Z 0;
  periodSumMs := f64_of_Z 0; periodMinMs := f64_1e30; periodMaxMs := f64_of_Z 0 |}.

(** * One iteration *)

(** The period of the loop, and its summary every thirty iterations. *)
Definition measurePeriod (k : Tick) (s : LoopState) : LoopState * list LogLine :=
  let periodMs := millis (nowIter k - lastIterStart s) in
  let n := u64 (iterCount s + 1) in
  let counted := bool_decide (1 < n) in
  let sum := if counted then ms_add (periodSumMs s) periodMs else periodSumMs s in
  let lo := if counted then ms_min (periodMinMs s) periodMs else periodMinMs s in
  let hi := if counted then ms_max (periodMaxMs s) periodMs else periodMaxMs s in
  let summarise := counted && bool_decide (n mod 30 = 0) in
  let window := u64 (n - lastSummaryIter s) in
  let windowMean := if bool_decide (0 < window) then f64_div (f64_sub sum (lastSummarySumMs s)) (f64_of_Z window) else S754_nan in
  ({| lastSockOvfl := lastSockOvfl s; lastAppDrop := lastAppDrop s;
      announcedHealthy := announcedHealthy s; warnedNoSamples := warnedNoSamples s; rateLoopStartedAt := rateLoopStartedAt s;
      lastIterStart := nowIter k; lastDrainAt := lastDrainAt s; iterCount := n;
      lastSummaryIter := if summarise then n else lastSummaryIter s;
      lastSummarySumMs := if summarise then sum else lastSummarySumMs s;
      periodSumMs := sum; periodMinMs := lo; periodMaxMs := hi |},
   if summarise then [PeriodSummary window windowMean (u64 (n - 1)) (f64_div sum (f64_of_Z (u64 (n - 1)))) lo hi] else []).

(** What the counters say: lost samples, the first sign of health, or a long silence. *)
Definition reportIngest (k : Tick) (s : LoopState) : LoopState * list LogLine :=
  let sockDelta := if bool_decide (lastSockOvfl s <= sockOvfl k) then sockOvfl k - lastSockOvfl s else 0 in
  let appDelta := if bool_decide (lastAppDrop s <= appDrop k) then appDrop k - lastAppDrop s else 0 in
  let lost := bool_decide (0 < sockDelta) || bool_decide (0 < appDelta) in
  let announceNow := bool_decide (0 < rx k) && negb (announcedHealthy s) in
  let healthy := announcedHealthy s || announceNow in
  let silent := negb healthy && negb (warnedNoSamples s) && bool_decide (kNoSampleGrace < nowHealth k - rateLoopStartedAt s) in
  ({| lastSockOvfl := sockOvfl k; lastAppDrop := appDrop k;
      announcedHealthy := if lost then announcedHealthy s else healthy;
      warnedNoSamples := if lost then warnedNoSamples s else warnedNoSamples s || silent;
      rateLoopStartedAt := rateLoopStartedAt s; lastIterStart := lastIterStart s; lastDrainAt := lastDrainAt s;
      iterCount := iterCount s; lastSummaryIter := lastSummaryIter s; lastSummarySumMs := lastSummarySumMs s;
      periodSumMs := periodSumMs s; periodMinMs := periodMinMs s; periodMaxMs := periodMaxMs s |},
   if lost then [SamplesLost sockDelta appDelta (rx k) (addressed k) (sockOvfl k) (appDrop k)]
   else (if announceNow then [IngestHealthy (rx k) (appDrop k) (addressed k) (sockOvfl k)] else []) ++
        (if silent then [NoSampleYet] else [])).

Definition markDrain (k : Tick) (s : LoopState) : LoopState := {|
  lastSockOvfl := lastSockOvfl s; lastAppDrop := lastAppDrop s; announcedHealthy := announcedHealthy s; warnedNoSamples := warnedNoSamples s;
  rateLoopStartedAt := rateLoopStartedAt s; lastIterStart := lastIterStart s; lastDrainAt := nowDrain k; iterCount := iterCount s;
  lastSummaryIter := lastSummaryIter s; lastSummarySumMs := lastSummarySumMs s;
  periodSumMs := periodSumMs s; periodMinMs := periodMinMs s; periodMaxMs := periodMaxMs s |}.

Section Loop.
Context {T : Type} `{!TopologyMonitor T} (mode : DeploymentMode).

(** One iteration after its sleep: the state, the collector and the log lines. *)
Definition rateLoopStep (k : Tick) (sc : LoopState * Collector T) : (LoopState * Collector T) * list LogLine :=
  let '(s, c) := sc in
  let '(s1, l1) := measurePeriod k s in
  let elapsed := nowDrain k - lastDrainAt s1 in
  let c' := rateIteration mode elapsed c in
  let l2 := if bool_decide (mode = MININET) && bool_decide (1 < iterCount s1) && bool_decide (iterCount s1 mod 30 = 0)
            then [DivisorCheck elapsed] else [] in
  let '(s3, l3) := reportIngest k (markDrain k s1) in
  ((s3, c'), l1 ++ l2 ++ l3).

(** The iterations made while m_running was true. *)
Fixpoint calAvgFlowSendingRatesPeriodically (ks : list Tick) (sc : LoopState * Collector T) : (LoopState * Collector T) * list (list LogLine) :=
  match ks with
  | [] => (sc, [])
  | k :: ks =>
      let '(sc, l) := rateLoopStep k sc in
      let '(sc, ls) := calAvgFlowSendingRatesPeriodically ks sc in (sc, l :: ls)
  end.

(** The collector alone, given the intervals. *)
Definition drainAll (c : Collector T) (elapsed : list Z) : Collector T := foldl (fun c e => rateIteration mode e c) c elapsed.

End Loop.

(** * The drain intervals tile the time *)

Fixpoint gaps (from : Z) (times : list Z) : list Z :=
  match times with [] => [] | t :: times => (t - from) :: gaps t times end.

Lemma gaps_sum from times : foldr Z.add 0 (gaps from times) = default from (last times) - from.
Proof.
  revert from. induction times as [|t times IH]; intros from; cbn [gaps foldr]; [cbn; lia|].
  rewrite IH. destruct times as [|t1 l]; [cbn; lia|]. change (last (t :: t1 :: l)) with (last (t1 :: l)).
  destruct (last (t1 :: l)) eqn:E; [cbn; lia|]. by apply last_None in E.
Qed.

Lemma rateLoopStep_drain {T} `{!TopologyMonitor T} mode k s (c : Collector T) :
  let r := rateLoopStep mode k (s, c) in
  r.1.2 = rateIteration mode (nowDrain k - lastDrainAt s) c /\ lastDrainAt r.1.1 = nowDrain k.
Proof. done. Qed.

(** Every byte credit is divided by the time it was banked over: the loop hands the tables on with the
    intervals between successive drains, and these add up to the time from the start to the last
    drain, whatever the iterations cost. *)
Theorem drain_intervals_tile {T} `{!TopologyMonitor T} mode ks s (c : Collector T) :
  let elapsed := gaps (lastDrainAt s) (nowDrain <$> ks) in
  (calAvgFlowSendingRatesPeriodically mode ks (s, c)).1.2 = drainAll mode c elapsed /\
  foldr Z.add 0 elapsed = default (lastDrainAt s) (last (nowDrain <$> ks)) - lastDrainAt s.
Proof.
  cbn zeta. split; [|apply gaps_sum]. revert s c. induction ks as [|k ks IH]; intros s c; [done|].
  cbn [calAvgFlowSendingRatesPeriodically fmap list_fmap gaps drainAll foldl].
  destruct (rateLoopStep_drain mode k s c) as [Hc Hd]. destruct (rateLoopStep mode k (s, c)) as [[s1 c1] l]. cbn in Hc, Hd.
  specialize (IH s1 c1). destruct (calAvgFlowSendingRatesPeriodically mode ks (s1, c1)) as [sc ls]. cbn in *. by rewrite IH, Hc, Hd.
Qed.

(** * What is reported about the ingest *)

Definition isHealthy (l : LogLine) : bool := match l with IngestHealthy _ _ _ _ => true | _ => false end.
Definition isSilent (l : LogLine) : bool := match l with NoSampleYet => true | _ => false end.
Definition isLost (l : LogLine) : bool := match l with SamplesLost _ _ _ _ _ _ => true | _ => false end.
Definition countLines (f : LogLine -> bool) (ls : list LogLine) : nat := length (filter (fun l => f l = true) ls).

(** A counter has grown since the last look. *)
Definition lossSeen (k : Tick) (s : LoopState) : bool := bool_decide (lastSockOvfl s < sockOvfl k) || bool_decide (lastAppDrop s < appDrop k).

Lemma reportIngest_lines k s :
  let '(s', ls) := reportIngest k s in
  countLines isLost ls = Nat.b2n (lossSeen k s) /\
  countLines isHealthy ls = Nat.b2n (negb (lossSeen k s) && bool_decide (0 < rx k) && negb (announcedHealthy s)) /\
  countLines isSilent ls = Nat.b2n (warnedNoSamples s' && negb (warnedNoSamples s)) /\
  announcedHealthy s' = announcedHealthy s || (negb (lossSeen k s) && bool_decide (0 < rx k)) /\
  (warnedNoSamples s' = true -> warnedNoSamples s = true \/
     (announcedHealthy s' = false /\ kNoSampleGrace < nowHealth k - rateLoopStartedAt s)) /\
  (warnedNoSamples s = true -> warnedNoSamples s' = true) /\
  rateLoopStartedAt s' = rateLoopStartedAt s /\ lastSockOvfl s' = sockOvfl k /\ lastAppDrop s' = appDrop k.
Proof.
  unfold reportIngest. set (lost := bool_decide (0 < _) || _).
  assert (lost = lossSeen k s) as -> by (unfold lost, lossSeen; repeat case_bool_decide; (done || lia)).
  destruct (lossSeen k s) eqn:El, (announcedHealthy s), (warnedNoSamples s); cbn;
    destruct (bool_decide (0 < rx k)); cbn; try destruct (bool_decide (kNoSampleGrace < _)) eqn:Eg; cbn; split_and!; auto;
    right; by apply bool_decide_eq_true in Eg.
Qed.

Lemma countLines_app f a b : countLines f (a ++ b) = (countLines f a + countLines f b)%nat.
Proof. unfold countLines. by rewrite filter_app, length_app. Qed.

(** The other lines of an iteration say nothing about the ingest. *)
Lemma rateLoopStep_lines {T} `{!TopologyMonitor T} mode k s (c : Collector T) :
  exists s0, lastSockOvfl s0 = lastSockOvfl s /\ lastAppDrop s0 = lastAppDrop s /\ announcedHealthy s0 = announcedHealthy s /\
    warnedNoSamples s0 = warnedNoSamples s /\ rateLoopStartedAt s0 = rateLoopStartedAt s /\
    (rateLoopStep mode k (s, c)).1.1 = (reportIngest k s0).1 /\
    forall f, (f = isHealthy \/ f = isSilent \/ f = isLost) -> countLines f (rateLoopStep mode k (s, c)).2 = countLines f (reportIngest k s0).2.
Proof.
  exists (markDrain k (measurePeriod k s).1). split_and!; try done. unfold rateLoopStep.
  destruct (measurePeriod k s) as [s1 l1] eqn:Em. cbn [fst].
  destruct (reportIngest k (markDrain k s1)) as [s3 l3]. intros f Hf. cbn [snd]. rewrite !countLines_app.
  assert (countLines f l1 = 0%nat) as ->.
  { unfold measurePeriod in Em. injection Em as _ <-. case_match; [|done]. by destruct Hf as [-> | [-> | ->]]. }
  case_match; destruct Hf as [-> | [-> | ->]]; done.
Qed.

(** What each iteration should say, from the counters alone: lost samples exactly when a counter has
    grown, and health at the first sign of it. *)
Fixpoint expectedReports (prevSock prevApp : Z) (announced : bool) (ks : list Tick) : list (bool * bool) :=
  match ks with
  | [] => []
  | k :: ks =>
      let lost := bool_decide (prevSock < sockOvfl k) || bool_decide (prevApp < appDrop k) in
      let sign := negb lost && bool_decide (0 < rx k) in
      (lost, sign && negb announced) :: expectedReports (sockOvfl k) (appDrop k) (announced || sign) ks
  end.

Definition saysLostHealthy (ls : list LogLine) : bool * bool :=
  (bool_decide (countLines isLost ls = 1%nat), bool_decide (countLines isHealthy ls = 1%nat)).

Lemma b2n_1 (b : bool) : bool_decide (Nat.b2n b = 1%nat) = b.
Proof. by destruct b. Qed.

(** In every run of the rate loop, each iteration reports lost samples exactly when the socket's or the
    collector's drop counter has grown since the last one, and health exactly once, in the first
    iteration without loss after a datagram has arrived; the warning that nothing arrives is given at
    most once and never together with or after the report of health. *)
Theorem ingest_reports_exact {T} `{!TopologyMonitor T} mode ks s (c : Collector T) :
  let '((s', _), ls) := calAvgFlowSendingRatesPeriodically mode ks (s, c) in
  saysLostHealthy <$> ls = expectedReports (lastSockOvfl s) (lastAppDrop s) (announcedHealthy s) ks /\
  (countLines isSilent (concat ls) <= 1)%nat /\
  (announcedHealthy s = true \/ warnedNoSamples s = true -> countLines isSilent (concat ls) = 0%nat).
Proof.
  revert s c. induction ks as [|k ks IH]; intros s c; cbn [calAvgFlowSendingRatesPeriodically]; [split_and!; [done|cbn; lia|done]|].
  destruct (rateLoopStep_lines mode k s c) as (s0 & E1 & E2 & E3 & E4 & E5 & Es & El).
  destruct (rateLoopStep mode k (s, c)) as [[s1 c1] l]. cbn [fst snd] in Es, El. specialize (IH s1 c1).
  destruct (calAvgFlowSendingRatesPeriodically mode ks (s1, c1)) as [[s2 c2] ls]. destruct IH as (IH1 & IH2 & IH3).
  pose proof (reportIngest_lines k s0) as Hk. rewrite Es in *. destruct (reportIngest k s0) as [s' lr]. cbn [fst snd] in *.
  destruct Hk as (Hl & Hh & Hsi & Ha & Hw & Hmono & _ & Hso & Hap).
  assert (lossSeen k s0 = bool_decide (lastSockOvfl s < sockOvfl k) || bool_decide (lastAppDrop s < appDrop k)) as Hloss
    by (unfold lossSeen; by rewrite E1, E2).
  split.
  - cbn [fmap list_fmap expectedReports]. rewrite IH1, Hso, Hap, Ha, E3. unfold saysLostHealthy.
    rewrite !El, Hl, Hh, E3, !b2n_1, Hloss by auto. done.
  - cbn [concat]. rewrite countLines_app, (El isSilent), Hsi by auto. rewrite E3, E4 in *.
    assert (announcedHealthy s = true -> announcedHealthy s' = true) as Hkeep by (intros E; by rewrite Ha, E).
    destruct (warnedNoSamples s') eqn:Ew.
    + rewrite IH3 by auto. split; [destruct (warnedNoSamples s); cbn; lia|]. intros [E| ->]; [|done].
      destruct Hw as [-> | [Hf _]]; [done|done|]. rewrite Hkeep in Hf by done. done.
    + split; [cbn; lia|]. intros [E|E]; [|by specialize (Hmono E)]. rewrite IH3 by auto. done.
Qed.
