(* ===== verification/IntentTypes.v ===== *)
(** The replies of the language-model service (include/ndt_core/intent_translator/
    LLMResponseTypes.hpp): the states of a reply, the task types and their names, the parameters of
    every task class, and the JSON forms of tasks, answers, discussions and validations.

    The task classes differ only in their parameters.  A class is described by the list of its
    parameters, each with its key, its C++ type and, where [from_json] reads it with [value], its
    default; [params] is the type of the values of such a list, and [writeParams] and [readParams]
    are what the [to_json] and [from_json] of the class do with them. *)
From S2P Require Import Prelude Json.

Module llmResponse.

Inductive State := DISCUSSION | ANSWER | VALIDATION.

Definition stateToString (s : State) : string :=
  match s with
  | DISCUSSION => "discussion"
  | ANSWER => "answer"
  | VALIDATION => "validation"
  end.

Definition stateFromString (s : string) : outcome State :=
  if bool_decide (s = "discussion") then Ret DISCUSSION
  else if bool_decide (s = "answer") then Ret ANSWER
  else if bool_decide (s = "validation") then Ret VALIDATION
  else Throw RuntimeError.

Inductive TaskType :=
  | DISABLE_SWITCH | ENABLE_SWITCH | POWEROFF_SWITCH
  | POWERON_SWITCH | INSTALL_FLOW_ENTRY | MODIFY_FLOW_ENTRY
  | DELETE_FLOW_ENTRY | GET_TOP_K_FLOWS | GET_SWITCH_CPU_UTILIZATION
  | GET_TOTAL_POWER_CONSUMPTION | GET_A_SWITCH_CPU_UTILIZATION | GET_A_SWITCH_POWER_CONSUMPTION
  | GET_A_LINK_BANDWIDTH_UTILIZATION | GET_TOP_K_CONGESTED_LINKS | GET_TOP_K_BANDWIDTH_USERS
  | GET_PATH | GET_ACTIVE_FLOW_COUNT | GET_FLOW_ENTRY_COUNT
  | GET_FLOW_ENTRIES | GET_NETWORK_TOPOLOGY | GET_ALL_HOSTS
  | BLOCK_HOST | GET_LINK_LATENCY | GET_PACKET_LOSS_RATE
  | GET_SWITCH_PORTS | REROUTE_FLOW | GET_SWITCH_MEMORY_UTILIZATION
  | GET_SWITCH_TEMPERATURE | SET_SWITCH_POWER_STATE | GET_PATH_SWITCH_COUNT
  | SET_DEVICE_NICKNAME | TOGGLE_HISTORICAL_LOGGING | GET_SWITCH_CAPABILITIES
  | INSTALL_GROUP_ENTRY | INSTALL_METER_ENTRY | GET_DEVICE_UPTIME
  | RESTART_DEVICE | BACKUP_CONFIGURATION | RESTORE_CONFIGURATION
  | PING_HOST | TRACEROUTE_HOST | GET_ARP_TABLE
  | GET_MAC_TABLE | SET_PORT_STATUS | GET_PORT_STATISTICS
  | GET_DEVICE_LOGS | CLEAR_DEVICE_LOGS | UPDATE_DEVICE_FIRMWARE
  | GET_DEVICE_HEALTH | MONITOR_REAL_TIME_TRAFFIC | REQUEST_UI_FORM.

#[export] Instance TaskType_eq_dec : EqDecision TaskType.
Proof. solve_decision. Defined.

Definition taskTypeToString (t : TaskType) : string :=
  match t with
  | DISABLE_SWITCH => "DisableSwitch"
  | ENABLE_SWITCH => "EnableSwitch"
  | POWEROFF_SWITCH => "PowerOffSwitch"
  | POWERON_SWITCH => "PowerOnSwitch"
  | INSTALL_FLOW_ENTRY => "InstallFlowEntry"
  | MODIFY_FLOW_ENTRY => "ModifyFlowEntry"
  | DELETE_FLOW_ENTRY => "DeleteFlowEntry"
  | GET_TOP_K_FLOWS => "GetTopKFlows"
  | GET_SWITCH_CPU_UTILIZATION => "GetSwitchCpuUtilization"
  | GET_TOTAL_POWER_CONSUMPTION => "GetTotalPowerConsumption"
  | GET_A_SWITCH_CPU_UTILIZATION => "GetASwitchCpuUtilization"
  | GET_A_SWITCH_POWER_CONSUMPTION => "GetASwitchPowerConsumption"
  | GET_A_LINK_BANDWIDTH_UTILIZATION => "GetALinkBandwidthUtilization"
  | GET_TOP_K_CONGESTED_LINKS => "GetTopKCongestedLinks"
  | GET_TOP_K_BANDWIDTH_USERS => "GetTopKBandwidthUsers"
  | GET_PATH => "GetPath"
  | GET_ACTIVE_FLOW_COUNT => "GetActiveFlowCount"
  | GET_FLOW_ENTRY_COUNT => "GetFlowEntryCount"
  | GET_FLOW_ENTRIES => "GetFlowEntries"
  | GET_NETWORK_TOPOLOGY => "GetNetworkTopology"
  | GET_ALL_HOSTS => "GetAllHosts"
  | BLOCK_HOST => "BlockHost"
  | GET_LINK_LATENCY => "GetLinkLatency"
  | GET_PACKET_LOSS_RATE => "GetPacketLossRate"
  | GET_SWITCH_PORTS => "GetSwitchPorts"
  | REROUTE_FLOW => "RerouteFlow"
  | GET_SWITCH_MEMORY_UTILIZATION => "GetSwitchMemoryUtilization"
  | GET_SWITCH_TEMPERATURE => "GetSwitchTemperature"
  | SET_SWITCH_POWER_STATE => "SetSwitchPowerState"
  | GET_PATH_SWITCH_COUNT => "GetPathSwitchCount"
  | SET_DEVICE_NICKNAME => "SetDeviceNickname"
  | TOGGLE_HISTORICAL_LOGGING => "ToggleHistoricalLogging"
  | GET_SWITCH_CAPABILITIES => "GetSwitchCapabilities"
  | INSTALL_GROUP_ENTRY => "InstallGroupEntry"
  | INSTALL_METER_ENTRY => "InstallMeterEntry"
  | GET_DEVICE_UPTIME => "GetDeviceUptime"
  | RESTART_DEVICE => "RestartDevice"
  | BACKUP_CONFIGURATION => "BackupConfiguration"
  | RESTORE_CONFIGURATION => "RestoreConfiguration"
  | PING_HOST => "PingHost"
  | TRACEROUTE_HOST => "TracerouteHost"
  | GET_ARP_TABLE => "GetArpTable"
  | GET_MAC_TABLE => "GetMacTable"
  | SET_PORT_STATUS => "SetPortStatus"
  | GET_PORT_STATISTICS => "GetPortStatistics"
  | GET_DEVICE_LOGS => "GetDeviceLogs"
  | CLEAR_DEVICE_LOGS => "ClearDeviceLogs"
  | UPDATE_DEVICE_FIRMWARE => "UpdateDeviceFirmware"
  | GET_DEVICE_HEALTH => "GetDeviceHealth"
  | MONITOR_REAL_TIME_TRAFFIC => "MonitorRealTimeTraffic"
  | REQUEST_UI_FORM => "RequestUIForm"
  end.

Definition taskTypeFromString (s : string) : outcome TaskType :=
  if bool_decide (s = "DisableSwitch") then Ret DISABLE_SWITCH
  else if bool_decide (s = "EnableSwitch") then Ret ENABLE_SWITCH
  else if bool_decide (s = "PowerOffSwitch") then Ret POWEROFF_SWITCH
  else if bool_decide (s = "PowerOnSwitch") then Ret POWERON_SWITCH
  else if bool_decide (s = "InstallFlowEntry") then Ret INSTALL_FLOW_ENTRY
  else if bool_decide (s = "ModifyFlowEntry") then Ret MODIFY_FLOW_ENTRY
  else if bool_decide (s = "DeleteFlowEntry") then Ret DELETE_FLOW_ENTRY
  else if bool_decide (s = "GetTopKFlows") then Ret GET_TOP_K_FLOWS
  else if bool_decide (s = "GetSwitchCpuUtilization") then Ret GET_SWITCH_CPU_UTILIZATION
  else if bool_decide (s = "GetTotalPowerConsumption") then Ret GET_TOTAL_POWER_CONSUMPTION
  else if bool_decide (s = "GetASwitchCpuUtilization") then Ret GET_A_SWITCH_CPU_UTILIZATION
  else if bool_decide (s = "GetASwitchPowerConsumption") then Ret GET_A_SWITCH_POWER_CONSUMPTION
  else if bool_decide (s = "GetALinkBandwidthUtilization") then Ret GET_A_LINK_BANDWIDTH_UTILIZATION
  else if bool_decide (s = "GetTopKCongestedLinks") then Ret GET_TOP_K_CONGESTED_LINKS
  else if bool_decide (s = "GetTopKBandwidthUsers") then Ret GET_TOP_K_BANDWIDTH_USERS
  else if bool_decide (s = "GetPath") then Ret GET_PATH
  else if bool_decide (s = "GetActiveFlowCount") then Ret GET_ACTIVE_FLOW_COUNT
  else if bool_decide (s = "GetFlowEntryCount") then Ret GET_FLOW_ENTRY_COUNT
  else if bool_decide (s = "GetFlowEntries") then Ret GET_FLOW_ENTRIES
  else if bool_decide (s = "GetNetworkTopology") then Ret GET_NETWORK_TOPOLOGY
  else if bool_decide (s = "GetAllHosts") then Ret GET_ALL_HOSTS
  else if bool_decide (s = "BlockHost") then Ret BLOCK_HOST
  else if bool_decide (s = "GetLinkLatency") then Ret GET_LINK_LATENCY
  else if bool_decide (s = "GetPacketLossRate") then Ret GET_PACKET_LOSS_RATE
  else if bool_decide (s = "GetSwitchPorts") then Ret GET_SWITCH_PORTS
  else if bool_decide (s = "RerouteFlow") then Ret REROUTE_FLOW
  else if bool_decide (s = "GetSwitchMemoryUtilization") then Ret GET_SWITCH_MEMORY_UTILIZATION
  else if bool_decide (s = "GetSwitchTemperature") then Ret GET_SWITCH_TEMPERATURE
  else if bool_decide (s = "SetSwitchPowerState") then Ret SET_SWITCH_POWER_STATE
  else if bool_decide (s = "GetPathSwitchCount") then Ret GET_PATH_SWITCH_COUNT
  else if bool_decide (s = "SetDeviceNickname") then Ret SET_DEVICE_NICKNAME
  else if bool_decide (s = "ToggleHistoricalLogging") then Ret TOGGLE_HISTORICAL_LOGGING
  else if bool_decide (s = "GetSwitchCapabilities") then Ret GET_SWITCH_CAPABILITIES
  else if bool_decide (s = "InstallGroupEntry") then Ret INSTALL_GROUP_ENTRY
  else if bool_decide (s = "InstallMeterEntry") then Ret INSTALL_METER_ENTRY
  else if bool_decide (s = "GetDeviceUptime") then Ret GET_DEVICE_UPTIME
  else if bool_decide (s = "RestartDevice") then Ret RESTART_DEVICE
  else if bool_decide (s = "BackupConfiguration") then Ret BACKUP_CONFIGURATION
  else if bool_decide (s = "RestoreConfiguration") then Ret RESTORE_CONFIGURATION
  else if bool_decide (s = "PingHost") then Ret PING_HOST
  else if bool_decide (s = "TracerouteHost") then Ret TRACEROUTE_HOST
  else if bool_decide (s = "GetArpTable") then Ret GET_ARP_TABLE
  else if bool_decide (s = "GetMacTable") then Ret GET_MAC_TABLE
  else if bool_decide (s = "SetPortStatus") then Ret SET_PORT_STATUS
  else if bool_decide (s = "GetPortStatistics") then Ret GET_PORT_STATISTICS
  else if bool_decide (s = "GetDeviceLogs") then Ret GET_DEVICE_LOGS
  else if bool_decide (s = "ClearDeviceLogs") then Ret CLEAR_DEVICE_LOGS
  else if bool_decide (s = "UpdateDeviceFirmware") then Ret UPDATE_DEVICE_FIRMWARE
  else if bool_decide (s = "GetDeviceHealth") then Ret GET_DEVICE_HEALTH
  else if bool_decide (s = "MonitorRealTimeTraffic") then Ret MONITOR_REAL_TIME_TRAFFIC
  else if bool_decide (s = "RequestUIForm") then Ret REQUEST_UI_FORM
  else Throw RuntimeError.

(** * Parameters *)

(** The C++ types of the parameters.  [Actions] is the pair of fields [actionType] and
    [actionOutPort] of the flow-entry tasks, which share the key "actions". *)
Inductive Kind := Str | Int | UInt16 | AnyJson | Strings | Actions.

Definition den (k : Kind) : Type :=
  match k with
  | Str => string
  | Int | UInt16 => Z
  | AnyJson => json
  | Strings => list string
  | Actions => string * Z
  end.

Record Param := { key : string; kind : Kind; dflt : option (den kind) }.

(** [at k T]: read with [at("k").get<T>()]; [value k T d]: read with [value("k", d)]. *)
Definition at_ (k : string) (T : Kind) : Param := {| key := k; kind := T; dflt := None |}.
Definition value (k : string) (T : Kind) (d : den T) : Param := {| key := k; kind := T; dflt := Some d |}.

Definition encode (T : Kind) : den T -> json :=
  match T with
  | Str => JString
  | Int => JInteger
  | UInt16 => JUnsigned
  | AnyJson => id
  | Strings => fun l => JArray (JString <$> l)
  | Actions => fun '(actionType, actionOutPort) =>
      if bool_decide (actionType <> "")
      then JArray [JObject [("type", JString actionType); ("port", JInteger actionOutPort)]]
      else JArray []
  end.

Definition decode (T : Kind) : json -> outcome (den T) :=
  match T with
  | Str => get_string
  | Int => get_i32
  | UInt16 => get_arith u16
  | AnyJson => Ret
  | Strings => get_vec get_string
  | Actions => fun j =>
      if negb (jempty j) then
        let! first := jfirst j in
        let! actionType := jfield get_string first "type" in
        let! actionOutPort := jfield get_i32 first "port" in
        Ret (actionType, actionOutPort)
      else Ret ("", -1)
  end.

Fixpoint params (ps : list Param) : Type :=
  match ps with [] => unit | p :: ps => (den (kind p) * params ps)%type end.

Fixpoint writeParams (ps : list Param) : params ps -> list (string * json) :=
  match ps with
  | [] => fun _ => []
  | p :: ps => fun v => (key p, encode (kind p) v.1) :: writeParams ps v.2
  end.

Definition readParam (p : Param) (parameters : json) : outcome (den (kind p)) :=
  match dflt p with
  | Some d => jvalue (decode (kind p)) parameters (key p) d
  | None => jfield (decode (kind p)) parameters (key p)
  end.

(** Every parameter is read through [j.at("parameters")] of its own. *)
Fixpoint readParams (ps : list Param) (j : json) : outcome (params ps) :=
  match ps with
  | [] => Ret tt
  | p :: ps =>
      let! parameters := jat j "parameters" in
      let! v := readParam p parameters in
      let! vs := readParams ps j in
      Ret (v, vs)
  end.

(** The value stored under "parameters"; an empty braced list is null. *)
Definition parametersJson (ps : list Param) (v : params ps) : json :=
  match writeParams ps v with [] => JNull | l => JObject l end.

(** * The task classes *)

Definition DisableSwitchTask : list Param := [at_ "device_name" Str].
Definition EnableSwitchTask : list Param := [at_ "device_name" Str].
Definition PowerOffSwitchTask : list Param := [at_ "device_name" Str].
Definition PowerOnSwitchTask : list Param := [at_ "device_name" Str].
Definition InstallFlowEntryTask : list Param := [at_ "device_name" Str; at_ "priority" UInt16; at_ "match" AnyJson; at_ "actions" Actions].
Definition ModifyFlowEntryTask : list Param := [at_ "device_name" Str; at_ "priority" UInt16; at_ "match" AnyJson; at_ "actions" Actions].
Definition DeleteFlowEntryTask : list Param := [at_ "device_name" Str; at_ "match" AnyJson].
Definition GetTopKFlowsTask : list Param := [at_ "k" Int].
Definition GetSwitchCpuUtilizationTask : list Param := [].
Definition GetTotalPowerConsumptionTask : list Param := [].
Definition GetASwitchCpuUtilizationTask : list Param := [at_ "device_name" Str].
Definition GetASwitchPowerConsumptionTask : list Param := [at_ "device_name" Str].
Definition GetALinkBandwidthUtilizationTask : list Param := [at_ "src" Str; at_ "dst" Str].
Definition GetTopKCongestedLinksTask : list Param := [at_ "k" Int].
Definition GetTopKBandwidthUsersTask : list Param := [at_ "k" Int].
Definition GetPathTask : list Param := [at_ "src" Str; at_ "dst" Str].
Definition GetActiveFlowCountTask : list Param := [].
Definition GetFlowEntryCountTask : list Param := [at_ "device_name" Str].
Definition GetFlowEntriesTask : list Param := [at_ "device_name" Str].
Definition GetNetworkTopologyTask : list Param := [].
Definition GetAllHostsTask : list Param := [].
Definition BlockHostTask : list Param := [at_ "host_id" Str].
Definition GetLinkLatencyTask : list Param := [at_ "src" Str; at_ "dst" Str].
Definition GetPacketLossRateTask : list Param := [at_ "src" Str; at_ "dst" Str].
Definition GetSwitchPortsTask : list Param := [at_ "device_name" Str].
Definition RerouteFlowTask : list Param := [at_ "match" AnyJson; at_ "new_path" Strings].
Definition GetSwitchMemoryUtilizationTask : list Param := [].
Definition GetSwitchTemperatureTask : list Param := [].
Definition SetSwitchPowerStateTask : list Param := [at_ "device_name" Str; at_ "state" Str].
Definition GetPathSwitchCountTask : list Param := [at_ "src" Str; at_ "dst" Str].
Definition SetDeviceNicknameTask : list Param := [at_ "device_name" Str; at_ "nickname" Str].
Definition ToggleHistoricalLoggingTask : list Param := [at_ "state" Str].
Definition GetSwitchCapabilitiesTask : list Param := [].
Definition InstallGroupEntryTask : list Param := [at_ "device_name" Str; at_ "group_type" Str; at_ "group_id" Int; at_ "buckets" AnyJson].
Definition InstallMeterEntryTask : list Param := [at_ "device_name" Str; at_ "meter_id" Int; at_ "flags" Strings; at_ "bands" AnyJson].
Definition GetDeviceUptimeTask : list Param := [at_ "device_name" Str].
Definition RestartDeviceTask : list Param := [at_ "device_name" Str].
Definition BackupConfigurationTask : list Param := [at_ "device_name" Str; at_ "backup_path" Str].
Definition RestoreConfigurationTask : list Param := [at_ "device_name" Str; at_ "restore_path" Str].
Definition PingHostTask : list Param := [at_ "host" Str; value "count" Int 4].
Definition TracerouteHostTask : list Param := [at_ "host" Str].
Definition GetArpTableTask : list Param := [at_ "device_name" Str].
Definition GetMacTableTask : list Param := [at_ "device_name" Str].
Definition SetPortStatusTask : list Param := [at_ "device_name" Str; at_ "port_id" Int; at_ "status" Str].
Definition GetPortStatisticsTask : list Param := [at_ "device_name" Str; at_ "port_id" Int].
Definition GetDeviceLogsTask : list Param := [at_ "device_name" Str; value "line_count" Int 100].
Definition ClearDeviceLogsTask : list Param := [at_ "device_name" Str].
Definition UpdateDeviceFirmwareTask : list Param := [at_ "device_name" Str; at_ "firmware_path" Str].
Definition GetDeviceHealthTask : list Param := [at_ "device_name" Str].
Definition MonitorRealTimeTrafficTask : list Param := [at_ "device_name" Str; at_ "port_id" Int; value "duration_seconds" Int 10].
Definition RequestUIFormTask : list Param := [value "device_name" Str ""; at_ "form_type" Str].

(** The class of a task type: the [case] labels of the serialisers of [std::unique_ptr<Task>]. *)
Definition classOf (t : TaskType) : list Param :=
  match t with
  | DISABLE_SWITCH => DisableSwitchTask
  | ENABLE_SWITCH => EnableSwitchTask
  | POWEROFF_SWITCH => PowerOffSwitchTask
  | POWERON_SWITCH => PowerOnSwitchTask
  | INSTALL_FLOW_ENTRY => InstallFlowEntryTask
  | MODIFY_FLOW_ENTRY => ModifyFlowEntryTask
  | DELETE_FLOW_ENTRY => DeleteFlowEntryTask
  | GET_TOP_K_FLOWS => GetTopKFlowsTask
  | GET_SWITCH_CPU_UTILIZATION => GetSwitchCpuUtilizationTask
  | GET_TOTAL_POWER_CONSUMPTION => GetTotalPowerConsumptionTask
  | GET_A_SWITCH_CPU_UTILIZATION => GetASwitchCpuUtilizationTask
  | GET_A_SWITCH_POWER_CONSUMPTION => GetASwitchPowerConsumptionTask
  | GET_A_LINK_BANDWIDTH_UTILIZATION => GetALinkBandwidthUtilizationTask
  | GET_TOP_K_CONGESTED_LINKS => GetTopKCongestedLinksTask
  | GET_TOP_K_BANDWIDTH_USERS => GetTopKBandwidthUsersTask
  | GET_PATH => GetPathTask
  | GET_ACTIVE_FLOW_COUNT => GetActiveFlowCountTask
  | GET_FLOW_ENTRY_COUNT => GetFlowEntryCountTask
  | GET_FLOW_ENTRIES => GetFlowEntriesTask
  | GET_NETWORK_TOPOLOGY => GetNetworkTopologyTask
  | GET_ALL_HOSTS => GetAllHostsTask
  | BLOCK_HOST => BlockHostTask
  | GET_LINK_LATENCY => GetLinkLatencyTask
  | GET_PACKET_LOSS_RATE => GetPacketLossRateTask
  | GET_SWITCH_PORTS => GetSwitchPortsTask
  | REROUTE_FLOW => RerouteFlowTask
  | GET_SWITCH_MEMORY_UTILIZATION => GetSwitchMemoryUtilizationTask
  | GET_SWITCH_TEMPERATURE => GetSwitchTemperatureTask
  | SET_SWITCH_POWER_STATE => SetSwitchPowerStateTask
  | GET_PATH_SWITCH_COUNT => GetPathSwitchCountTask
  | SET_DEVICE_NICKNAME => SetDeviceNicknameTask
  | TOGGLE_HISTORICAL_LOGGING => ToggleHistoricalLoggingTask
  | GET_SWITCH_CAPABILITIES => GetSwitchCapabilitiesTask
  | INSTALL_GROUP_ENTRY => InstallGroupEntryTask
  | INSTALL_METER_ENTRY => InstallMeterEntryTask
  | GET_DEVICE_UPTIME => GetDeviceUptimeTask
  | RESTART_DEVICE => RestartDeviceTask
  | BACKUP_CONFIGURATION => BackupConfigurationTask
  | RESTORE_CONFIGURATION => RestoreConfigurationTask
  | PING_HOST => PingHostTask
  | TRACEROUTE_HOST => TracerouteHostTask
  | GET_ARP_TABLE => GetArpTableTask
  | GET_MAC_TABLE => GetMacTableTask
  | SET_PORT_STATUS => SetPortStatusTask
  | GET_PORT_STATISTICS => GetPortStatisticsTask
  | GET_DEVICE_LOGS => GetDeviceLogsTask
  | CLEAR_DEVICE_LOGS => ClearDeviceLogsTask
  | UPDATE_DEVICE_FIRMWARE => UpdateDeviceFirmwareTask
  | GET_DEVICE_HEALTH => GetDeviceHealthTask
  | MONITOR_REAL_TIME_TRAFFIC => MonitorRealTimeTrafficTask
  | REQUEST_UI_FORM => RequestUIFormTask
  end.
Record Task := { type : TaskType; order : Z; result : string; parameters : params (classOf type) }.

(** A task object: the parameters, then what [task_to_json] adds. *)
Definition task_to_json (t : Task) : json :=
  JObject [("parameters", parametersJson (classOf (type t)) (parameters t));
           ("type", JString (taskTypeToString (type t)));
           ("order", JUnsigned (order t)); ("result", JString (result t))].

(** [make_from_json<T>]: the parameters of the class, then [task_from_json], which reads the type
    once more and clears the result.  The dispatch has already read that type. *)
Definition make_from_json (ty : TaskType) (j : json) : outcome Task :=
  let! v := readParams (classOf ty) j in
  let! name := jfield get_string j "type" in
  let! _ := taskTypeFromString name in
  let! n := jfield (get_arith u16) j "order" in
  Ret {| type := ty; order := n; result := ""; parameters := v |}.

Definition task_from_json (j : json) : outcome Task :=
  let! name := jfield get_string j "type" in
  let! ty := taskTypeFromString name in
  make_from_json ty j.

(** * Replies *)

Record Answer := { explanation : string; valid : bool; tasks : list Task }.
Record Discussion := { prompt : string }.
Record Validation := { errorMsg : string }.

(** The static type of a reply object always agrees with its [state]. *)
Inductive LLMResponse :=
  | RDiscussion (d : Discussion)
  | RAnswer (a : Answer)
  | RValidation (v : Validation).

Definition state (r : LLMResponse) : State :=
  match r with RDiscussion _ => DISCUSSION | RAnswer _ => ANSWER | RValidation _ => VALIDATION end.

Definition answer_to_json (a : Answer) : json :=
  JObject ([("explanation", JString (explanation a)); ("valid", JBool (valid a))]
           ++ (if valid a then [("tasks", JArray (task_to_json <$> tasks a))] else [])
           ++ [("state", JString (stateToString ANSWER))]).

Definition discussion_to_json (d : Discussion) : json :=
  JObject [("prompt", JString (prompt d)); ("state", JString (stateToString DISCUSSION))].

Definition validation_to_json (v : Validation) : json :=
  JObject [("error", JString (errorMsg v)); ("state", JString (stateToString VALIDATION))].

Definition llmResponse_from_json (j : json) : outcome State :=
  let! s := jfield get_string j "state" in stateFromString s.

Definition answer_from_json (j : json) : outcome Answer :=
  let! e := jfield get_string j "explanation" in
  let! n := jfield get_i32 j "valid" in
  let v := bool_decide (n <> 0) in
  let! ts := (if v then
                let! tasksJson := jat j "tasks" in
                if is_array tasksJson then get_all task_from_json (jelems tasksJson) else Throw JsonTypeError
              else Ret []) in
  let! _ := llmResponse_from_json j in
  Ret {| explanation := e; valid := v; tasks := ts |}.

Definition discussion_from_json (j : json) : outcome Discussion :=
  let! p := jfield get_string j "prompt" in
  let! _ := llmResponse_from_json j in
  Ret {| prompt := p |}.

Definition validation_from_json (j : json) : outcome Validation :=
  let! e := jfield get_string j "error" in
  let! _ := llmResponse_from_json j in
  Ret {| errorMsg := e |}.

(** The serialisers of [std::unique_ptr<LLMResponse>]; a null pointer is written as null. *)
Definition response_to_json (p : option LLMResponse) : json :=
  match p with
  | None => JNull
  | Some (RDiscussion d) => discussion_to_json d
  | Some (RAnswer a) => answer_to_json a
  | Some (RValidation v) => validation_to_json v
  end.

Definition response_from_json (j : json) : outcome LLMResponse :=
  let! s := llmResponse_from_json j in
  match s with
  | DISCUSSION => omap_out RDiscussion (discussion_from_json j)
  | ANSWER => omap_out RAnswer (answer_from_json j)
  | VALIDATION => omap_out RValidation (validation_from_json j)
  end.

(** * Names *)

Lemma stateFromString_spec s t : stateFromString s = Ret t <-> s = stateToString t.
Proof. unfold stateFromString. split; [split_cases; naive_solver|intros ->; by destruct t]. Qed.

Lemma taskTypeFromString_toString t : taskTypeFromString (taskTypeToString t) = Ret t.
Proof. by destruct t. Qed.

Lemma taskTypeFromString_inv s t : taskTypeFromString s = Ret t -> s = taskTypeToString t.
Proof. unfold taskTypeFromString. repeat (case_bool_decide; [by intros [= <-]|]). done. Qed.

Lemma taskTypeFromString_throw s e : taskTypeFromString s = Throw e -> e = RuntimeError.
Proof. unfold taskTypeFromString. repeat (case_bool_decide; [done|]). by intros [= <-]. Qed.

(** The names of the task types are a one-to-one correspondence: a text is read as a task type
    exactly when it is the printed name of that type, and any other text throws. *)
Theorem task_type_names s :
  (forall t, taskTypeFromString s = Ret t <-> s = taskTypeToString t) /\
  ((exists t, s = taskTypeToString t) \/ taskTypeFromString s = Throw RuntimeError).
Proof.
  split; [split; [apply taskTypeFromString_inv|intros ->; apply taskTypeFromString_toString]|].
  destruct (taskTypeFromString s) as [t|e] eqn:E.
  - left. exists t. by apply taskTypeFromString_inv.
  - right. by rewrite (taskTypeFromString_throw _ _ E).
Qed.

(** * Round trips *)

(** Values that the C++ types can hold. *)
Definition denValid (T : Kind) : den T -> Prop :=
  match T with
  | Int => fun z => - 2 ^ 31 <= z < 2 ^ 31
  | UInt16 => fun z => fits 16 z
  | Actions => fun a => - 2 ^ 31 <= a.2 < 2 ^ 31
  | _ => fun _ => True
  end.

Fixpoint paramsValid (ps : list Param) : params ps -> Prop :=
  match ps with [] => fun _ => True | p :: ps => fun v => denValid (kind p) v.1 /\ paramsValid ps v.2 end.

Definition taskValid (t : Task) : Prop := fits 16 (order t) /\ paramsValid (classOf (type t)) (parameters t).

Definition responseValid (r : LLMResponse) : Prop :=
  match r with RAnswer a => Forall taskValid (tasks a) | _ => True end.

(** What a round trip does not keep: the port of an empty action, the results, the tasks of an
    answer that is not valid. *)
Definition denNorm (T : Kind) : den T -> den T :=
  match T with
  | Actions => fun a => if bool_decide (a.1 <> "") then a else ("", -1)
  | _ => id
  end.

Fixpoint paramsNorm (ps : list Param) : params ps -> params ps :=
  match ps with [] => id | p :: ps => fun v => (denNorm (kind p) v.1, paramsNorm ps v.2) end.

Definition taskNorm (t : Task) : Task :=
  {| type := type t; order := order t; result := ""; parameters := paramsNorm _ (parameters t) |}.

Definition responseNorm (r : LLMResponse) : LLMResponse :=
  match r with
  | RAnswer a => RAnswer {| explanation := explanation a; valid := valid a;
                            tasks := if valid a then taskNorm <$> tasks a else [] |}
  | r => r
  end.

Lemma get_i32_encode z : - 2 ^ 31 <= z < 2 ^ 31 -> get_i32 (JInteger z) = Ret z.
Proof. intros. unfold get_i32. cbn. by rewrite i32_id. Qed.

Lemma decode_encode T v : denValid T v -> decode T (encode T v) = Ret (denNorm T v).
Proof.
  destruct T; cbn [decode encode denValid denNorm]; intros H; try done.
  - by apply get_i32_encode.
  - unfold get_arith, u16. by rewrite Z.mod_small.
  - cbn. apply get_all_encode. by apply Forall_true.
  - destruct v as [t p]. cbn in *. case_bool_decide; [|done]. unfold jfield. keys. unfold get_i32. cbn. by rewrite i32_id.
Qed.

Lemma writeParams_keys ps v : (writeParams ps v).*1 = key <$> ps.
Proof. induction ps as [|p ps IH]; cbn; [done|]. by rewrite IH. Qed.

Lemma assoc_in {A} k (v : A) l : NoDup l.*1 -> (k, v) ∈ l -> assoc k l = Some v.
Proof.
  induction l as [|[k' v'] l IH]; cbn; [by intros _ ?%elem_of_nil|].
  intros [Hn Hl]%NoDup_cons [[= -> ->]|Hin]%elem_of_cons; [by rewrite bool_decide_true|].
  rewrite bool_decide_false; [by apply IH|]. intros ->. apply Hn. by apply (list_elem_of_fmap_2 fst l (k', v)).
Qed.

Lemma readParams_of j l ps v :
  jat j "parameters" = Ret (JObject l) ->
  (forall k x, (k, x) ∈ writeParams ps v -> assoc k l = Some x) -> paramsValid ps v ->
  readParams ps j = Ret (paramsNorm ps v).
Proof.
  intros Hj. induction ps as [|p ps IH]; cbn; [by destruct v|]. intros Hl [Hv Hvs]. rewrite Hj. cbn.
  assert (readParam p (JObject l) = Ret (denNorm (kind p) v.1)) as ->.
  { unfold readParam, jvalue, jfield, jat. rewrite (Hl (key p) (encode (kind p) v.1)) by left. cbn.
    by destruct (dflt p); apply decode_encode. }
  cbn. rewrite (IH v.2); [done| |done]. intros. apply Hl. by right.
Qed.

(** No class names a parameter twice. *)
Lemma classOf_keys t : NoDup (key <$> classOf t).
Proof. apply (bool_decide_unpack _). by destruct t; vm_compute. Qed.

Lemma readParams_write t v rest :
  paramsValid (classOf t) v ->
  readParams (classOf t) (JObject (("parameters", parametersJson (classOf t) v) :: rest)) = Ret (paramsNorm _ v).
Proof.
  intros Hv. pose proof (classOf_keys t) as Hk. revert v Hv. generalize dependent (classOf t). intros [|p ps] Hk v Hv.
  - by destruct v.
  - eapply (readParams_of _ (writeParams (p :: ps) v)); [done| |done].
    intros k x. apply assoc_in. by rewrite writeParams_keys.
Qed.

Lemma task_roundtrip t : taskValid t -> task_from_json (task_to_json t) = Ret (taskNorm t).
Proof.
  intros [Ho Hp]. unfold task_from_json, task_to_json, jfield. keys. rewrite taskTypeFromString_toString. cbn.
  unfold make_from_json. rewrite readParams_write by done. unfold jfield. keys. rewrite taskTypeFromString_toString. cbn.
  unfold u16. by rewrite Z.mod_small.
Qed.

Lemma response_to_json_norm r :
  responseValid r -> response_from_json (response_to_json (Some r)) = Ret (responseNorm r).
Proof.
  destruct r as [[p]|[e v ts]|[e]]; intros H; try done.
  destruct v; [|done]. unfold response_from_json, llmResponse_from_json, answer_from_json, jfield. keys.
  assert (get_all task_from_json (task_to_json <$> ts) = Ret (taskNorm <$> ts)) as ->; [|done].
  cbn in H. induction H as [|t ts Ht _ IH]; cbn; [done|]. rewrite task_roundtrip by done. cbn. by rewrite IH.
Qed.

Lemma paramsNorm_idem ps v : paramsNorm ps (paramsNorm ps v) = paramsNorm ps v.
Proof.
  induction ps as [|p ps IH]; [done|]. cbn. rewrite IH. f_equal. destruct p as [k [] d]; try done.
  destruct v as [[t z] w]. cbn in *. destruct (decide (t = "")) as [->|E]; [done|].
  rewrite (bool_decide_true (t <> "")) by done. cbn. by rewrite bool_decide_true.
Qed.

Lemma responseNorm_idem r : responseNorm (responseNorm r) = responseNorm r.
Proof.
  destruct r as [d|[e [] ts]|v]; try done. cbn. do 2 f_equal. rewrite <- list_fmap_compose. apply list_fmap_ext.
  intros i [ty o x p] _. cbn. unfold taskNorm. cbn. by rewrite paramsNorm_idem.
Qed.

(** Every reply whose numbers fit their C++ types is read back from its JSON form, up to what
    the form does not carry: results, the port of an empty action, the tasks of an answer that is
    not valid. *)
Theorem response_roundtrip r :
  responseValid r -> response_from_json (response_to_json (Some r)) = Ret (responseNorm r).
Proof. apply response_to_json_norm. Qed.

Lemma decode_valid T j v : decode T j = Ret v -> denValid T v.
Proof.
  destruct T; cbn [decode denValid]; try done; [apply get_i32_range|apply get_u16_range|].
  case_match; [|intros; simplify_eq; cbn; lia].
  intros (? & _ & (? & _ & (p & (? & _ & Hp%get_i32_range)%obind_ret & E)%obind_ret)%obind_ret)%obind_ret.
  simplify_eq. done.
Qed.

(** Defaults are values of their types as well. *)
Lemma classOf_defaults t :
  Forall (fun p => match dflt p with Some d => denValid (kind p) d | None => True end) (classOf t).
Proof. destruct t; repeat constructor; cbn; lia. Qed.

Lemma readParams_valid ps j v :
  Forall (fun p => match dflt p with Some d => denValid (kind p) d | None => True end) ps ->
  readParams ps j = Ret v -> paramsValid ps v.
Proof.
  intros H. revert v. induction H as [|p ps Hp _ IH]; intros v; cbn; [done|].
  intros (x & _ & (a & Ha & (vs & Hvs & E)%obind_ret)%obind_ret)%obind_ret. simplify_eq. split; [|by apply IH].
  cbn. unfold readParam, jvalue, jfield in Ha. destruct (dflt p) as [d|].
  - destruct x as [| | | | | | |l]; try done. destruct (assoc (key p) l); [by eapply decode_valid|by simplify_eq].
  - apply obind_ret in Ha as (? & _ & ?). by eapply decode_valid.
Qed.

Lemma task_from_json_valid j t : task_from_json j = Ret t -> taskValid t.
Proof.
  unfold task_from_json, make_from_json.
  intros (n & _ & (ty & _ & (v & Hv & (n' & _ & (t' & _ & (o & Ho & E)%obind_ret)%obind_ret)%obind_ret)%obind_ret)%obind_ret)%obind_ret.
  simplify_eq. split; cbn.
  - apply obind_ret in Ho as (? & _ & Ho). by eapply get_u16_range.
  - eapply readParams_valid; [apply classOf_defaults|done].
Qed.

Lemma response_from_json_valid j r :
  response_from_json j = Ret r ->
  responseValid r /\ match r with RAnswer a => valid a = false -> tasks a = [] | _ => True end.
Proof.
  unfold response_from_json. intros (s & _ & H)%obind_ret. destruct s; apply obind_ret in H as (x & Hx & [= <-]); try done.
  unfold answer_from_json in Hx.
  apply obind_ret in Hx as (e & _ & (n & _ & (ts & Hts & (s & _ & [= <-])%obind_ret)%obind_ret)%obind_ret).
  cbn. case_bool_decide; [|by simplify_eq]. split; [|done].
  apply obind_ret in Hts as (tj & _ & Hts). destruct (is_array tj); [|done].
  eapply get_all_forall; [|done]. apply task_from_json_valid.
Qed.

(** C36: whatever JSON value the service sends, a reply that is accepted holds only numbers its C++
    types can hold, an answer that is not valid has no tasks, and writing the reply and reading it
    again gives the same reply up to the port of an empty action. *)
Theorem accepted_response_typed j r :
  response_from_json j = Ret r ->
  responseValid r /\
  match r with RAnswer a => valid a = false -> tasks a = [] | _ => True end /\
  response_from_json (response_to_json (Some r)) = Ret (responseNorm r) /\
  responseNorm (responseNorm r) = responseNorm r.
Proof.
  intros H. pose proof (response_from_json_valid _ _ H) as [Hv Ht]. split_and!; [done|done|by apply response_to_json_norm|].
  apply responseNorm_idem.
Qed.

(** A reply of the service that asks for three tasks. *)
Definition sampleReply : json :=
  JObject [("state", JString "answer"); ("explanation", JString "isolate s1"); ("valid", JBool true);
    ("tasks", JArray
      [JObject [("type", JString "InstallFlowEntry"); ("order", JUnsigned 1);
         ("parameters", JObject [("device_name", JString "s1"); ("priority", JUnsigned 100);
            ("match", JObject [("ipv4_dst", JString "10.0.0.1")]); ("actions", JArray [])])];
       JObject [("type", JString "PingHost"); ("order", JUnsigned 2); ("parameters", JObject [("host", JString "h1")])];
       JObject [("type", JString "GetAllHosts"); ("order", JUnsigned 3)]])].

Definition sampleAnswer : LLMResponse :=
  RAnswer {| explanation := "isolate s1"; valid := true; tasks :=
    [{| type := INSTALL_FLOW_ENTRY; order := 1; result := "";
        parameters := ("s1", (100, (JObject [("ipv4_dst", JString "10.0.0.1")], (("", -1), tt)))) |};
     {| type := PING_HOST; order := 2; result := ""; parameters := ("h1", (4, tt)) |};
     {| type := GET_ALL_HOSTS; order := 3; result := ""; parameters := tt |}] |}.

Lemma response_roundtrip_witness :
  responseValid sampleAnswer /\ response_from_json (response_to_json (Some sampleAnswer)) = Ret (responseNorm sampleAnswer).
Proof.
  assert (responseValid sampleAnswer) as H by (repeat constructor; cbn; lia).
  split; [exact H|exact (response_roundtrip sampleAnswer H)].
Defined.

Lemma accepted_response_typed_witness : response_from_json sampleReply = Ret sampleAnswer /\ responseValid sampleAnswer.
Proof.
  assert (response_from_json sampleReply = Ret sampleAnswer) as H by reflexivity.
  split; [exact H|exact (proj1 (accepted_response_typed sampleReply sampleAnswer H))].
Defined.

End llmResponse.
