(* ===== verification/Routing.v ===== *)
(** Routing of flow, group and meter operations to the control planes (include/ndt_core/
    routing_management/OpResult.hpp, IRoutingStrategy.hpp, OpenFlowRoutingStrategy.hpp,
    P4RoutingStrategy.hpp and src/ndt_core/routing_management/HttpRoutingStrategyBase.cpp,
    P4RoutingStrategy.cpp, FlowRoutingManager.cpp, Controller.cpp).

    Every request is a shell command that runs curl.  The state of the operations is the list of the
    commands run so far; what a command prints is a parameter that may depend on them.  Printing and
    parsing JSON texts are parameters as well, being the work of the JSON library. *)

From Stdlib Require Import Ascii.
From S2P Require Import Prelude CStrings Json GraphTypes Topology FlowDispatch FlowDispatchProps.
Local Open Scope string_scope.
Local Open Scope list_scope.
Local Open Scope Z_scope.

(** * Outcomes of operations *)

Record OpResult := { ok : bool; httpStatus : Z; message : string }.

Definition success (status : Z) : OpResult := {| ok := true; httpStatus := status; message := "" |}.
Definition failure (status : Z) (why : string) : OpResult := {| ok := false; httpStatus := status; message := why |}.
Definition unreachable (why : string) : OpResult := {| ok := false; httpStatus := 0; message := why |}.
Definition unsupported (why : string) : OpResult := {| ok := false; httpStatus := 501; message := why |}.
Definition noResponse (r : OpResult) : bool := bool_decide (httpStatus r = 0).

(** * Texts *)

Definition newline : ascii := ascii_of_nat 10.
Definition carriageReturn : ascii := ascii_of_nat 13.

(** [s] cut at the last [c]. *)
Fixpoint split_last (c : ascii) (s : string) : option (string * string) :=
  match s with
  | EmptyString => None
  | String d s =>
      match split_last c s with
      | Some (l, r) => Some (String d l, r)
      | None => if bool_decide (d = c) then Some (EmptyString, s) else None
      end
  end.

Definition splitBodyAndStatus (output : string) : string * Z :=
  match split_last newline output with
  | None => (output, 0)
  | Some (body, statusText) =>
      match stoi statusText with Ret status => (body, status) | Throw _ => (output, 0) end
  end.

Definition briefly (text : string) (limit : nat) : string :=
  let out := map_string (fun c => if bool_decide (c = newline) || bool_decide (c = carriageReturn)
                                  then ascii_of_nat 32 else c) text in
  if bool_decide (limit < String.length out)%nat then String.substring 0 limit out +:+ "..." else out.

(** * Strategies *)

(** The two subclasses of [HttpRoutingStrategyBase], which carry the address they post to. *)
Inductive IRoutingStrategy :=
  | OpenFlowRoutingStrategy (m_apiUrl : string)
  | P4RoutingStrategy (m_apiUrl : string).

Definition apiUrl (s : IRoutingStrategy) : string :=
  match s with OpenFlowRoutingStrategy u | P4RoutingStrategy u => u end.

Definition describe (s : IRoutingStrategy) : string :=
  match s with OpenFlowRoutingStrategy _ => "Ryu controller" | P4RoutingStrategy _ => "P4 proxy agent" end.

Definition REQUEST_TIMEOUT_SECONDS : Z := 5.

(** [json::dump] and [json::parse]; [JsonHttp] has the instance that the library is. *)
Class JsonText := {
  dump : json -> outcome string;
  parse : string -> outcome json
}.

(** What running a command prints, after the commands already run; [popen] may fail. *)
Class Shell := { execCommand : list string -> string -> outcome string }.

Definition executeCommand `{Shell} (cmd : string) : run (list string) string := fun h =>
  (h ++ [cmd], execCommand h cmd).

Definition curlCommand (s : IRoutingStrategy) (path text : string) : string :=
  "curl -s -w '\n%{http_code}' --max-time " +:+ std_to_string REQUEST_TIMEOUT_SECONDS +:+
  " -X POST http://" +:+ apiUrl s +:+ path +:+ " -H " +:+ quoted "Content-Type: application/json" +:+
  " -d '" +:+ text +:+ "'".

Section WithSurroundings.
Context `{JsonText} `{Shell}.

(** A 2xx reply whose body is a JSON object with the status "error". *)
Definition reportsError (responseBody : string) : bool :=
  negb (bool_decide (responseBody = "")) &&
  match parse responseBody with
  | Ret j => is_object j && contains j "status" &&
             match jfind j "status" with Some (JString s) => bool_decide (s = "error") | _ => false end
  | Throw _ => false
  end.

(** What [post] makes of curl's output. *)
Definition resultOfOutput (s : IRoutingStrategy) (output : string) : OpResult :=
  let '(responseBody, status) := splitBodyAndStatus output in
  if bool_decide (status = 0) then
    unreachable ("no response from " +:+ describe s +:+ " at " +:+ apiUrl s +:+ " within " +:+
                 std_to_string REQUEST_TIMEOUT_SECONDS +:+ "s")
  else if bool_decide (status < 200) || bool_decide (300 <= status) then
    failure status (describe s +:+ " returned HTTP " +:+ std_to_string status +:+
                    (if bool_decide (responseBody = "") then "" else ": " +:+ briefly responseBody 200))
  else if reportsError responseBody then
    failure status (describe s +:+ " reported an error in a " +:+ std_to_string status +:+
                    " response: " +:+ briefly responseBody 200)
  else success status.

Definition post (s : IRoutingStrategy) (path : string) (body : json) : run (list string) OpResult := fun h =>
  match dump body with
  | Throw e => (h, Throw e)
  | Ret text =>
      let '(h, output) := executeCommand (curlCommand s path text) h in
      (h, omap_out (resultOfOutput s) output)
  end.

Definition deleteBody (dpid priority : Z) (match_ : json) : json :=
  JObject ([("dpid", JUnsigned dpid); ("match", match_)] ++
           (if bool_decide (priority = -1) then [] else [("priority", JInteger priority)])).

Definition deleteAnEntry (s : IRoutingStrategy) (dpid : Z) (match_ : json) (priority : Z) : run (list string) OpResult :=
  post s (if bool_decide (priority = -1) then "/stats/flowentry/delete" else "/stats/flowentry/delete_strict")
       (deleteBody dpid priority match_).

Definition entryBody (dpid priority : Z) (match_ action : json) : list (string * json) :=
  [("dpid", JUnsigned dpid); ("priority", JInteger priority); ("match", match_); ("actions", action)].

Definition installBody (dpid priority : Z) (match_ action : json) (idleTimeout : Z) : json :=
  JObject (entryBody dpid priority match_ action ++
           (if bool_decide (idleTimeout <> -1) && bool_decide (idleTimeout <> 0)
            then [("idle_timeout", JInteger idleTimeout)] else [])).

Definition installAnEntry (s : IRoutingStrategy) (dpid priority : Z) (match_ action : json) (idleTimeout : Z)
  : run (list string) OpResult :=
  post s "/stats/flowentry/add" (installBody dpid priority match_ action idleTimeout).

Definition modifyAnEntry (s : IRoutingStrategy) (dpid priority : Z) (match_ action : json) : run (list string) OpResult :=
  post s "/stats/flowentry/modify" (JObject (entryBody dpid priority match_ action)).

(** The six group and meter methods. *)
Inductive EntryOp := InstallGroup | DeleteGroup | ModifyGroup | InstallMeter | DeleteMeter | ModifyMeter.

Definition entryRoute (o : EntryOp) : string :=
  match o with
  | InstallGroup => "/stats/groupentry/add"
  | DeleteGroup => "/stats/groupentry/delete"
  | ModifyGroup => "/stats/groupentry/modify"
  | InstallMeter => "/stats/meterentry/add"
  | DeleteMeter => "/stats/meterentry/delete"
  | ModifyMeter => "/stats/meterentry/modify"
  end.

Definition refusedName (o : EntryOp) : string :=
  match o with
  | InstallGroup => "group entry install"
  | DeleteGroup => "group entry delete"
  | ModifyGroup => "group entry modify"
  | InstallMeter => "meter entry install"
  | DeleteMeter => "meter entry delete"
  | ModifyMeter => "meter entry modify"
  end.

Definition refuse (what : string) : OpResult :=
  unsupported (what +:+ " is not supported on a P4/bmv2 data plane: OpenFlow groups and " +:+
    "meters have no direct equivalent, the P4 proxy agent implements no such route, and " +:+
    "the pipeline has no ActionSelector yet (Phase 4). Previously this was POSTed to a " +:+
    "nonexistent proxy route and the 404 went unnoticed.").

Definition groupOrMeterEntry (o : EntryOp) (s : IRoutingStrategy) (j : json) : run (list string) OpResult := fun h =>
  match s with
  | OpenFlowRoutingStrategy _ => post s (entryRoute o) j h
  | P4RoutingStrategy _ => (h, Ret (refuse (refusedName o)))
  end.

(** * The flow routing manager *)

Record FlowRoutingManager := {
  m_topologyAndFlowMonitor : option Topology;
  m_ovsStrategy : IRoutingStrategy;
  m_p4Strategy : IRoutingStrategy
}.

Definition newFlowRoutingManager (t : option Topology) (RYU_IP_AND_PORT P4_PROXY_IP_AND_PORT : string) : FlowRoutingManager := {|
  m_topologyAndFlowMonitor := t;
  m_ovsStrategy := OpenFlowRoutingStrategy RYU_IP_AND_PORT;
  m_p4Strategy := P4RoutingStrategy P4_PROXY_IP_AND_PORT |}.

Definition getStrategyForDpid (m : FlowRoutingManager) (dpid : Z) : option IRoutingStrategy :=
  match m_topologyAndFlowMonitor m with
  | None => None
  | Some t =>
      match getSwitchKind dpid t with
      | None => None
      | Some BMV2 => Some (m_p4Strategy m)
      | Some OVS | Some HARDWARE => Some (m_ovsStrategy m)
      end
  end.

Definition noStrategy (dpid : Z) : OpResult := failure 404 ("no routing strategy for dpid " +:+ std_to_string dpid).

(** The shape the three flow methods share. *)
Definition withStrategy (m : FlowRoutingManager) (dpid : Z) (call : IRoutingStrategy -> run (list string) OpResult)
  : run (list string) OpResult := fun h =>
  match getStrategyForDpid m dpid with
  | None => (h, Ret (noStrategy dpid))
  | Some s => call s h
  end.

Definition managerDelete (m : FlowRoutingManager) (dpid : Z) (match_ : json) (priority : Z) :=
  withStrategy m dpid (fun s => deleteAnEntry s dpid match_ priority).

Definition managerInstall (m : FlowRoutingManager) (dpid priority : Z) (match_ action : json) (idleTimeout : Z) :=
  withStrategy m dpid (fun s => installAnEntry s dpid priority match_ action idleTimeout).

Definition managerModify (m : FlowRoutingManager) (dpid priority : Z) (match_ action : json) :=
  withStrategy m dpid (fun s => modifyAnEntry s dpid priority match_ action).

Definition operationName (o : EntryOp) : string :=
  match o with
  | InstallGroup => "install group entry"
  | DeleteGroup => "delete group entry"
  | ModifyGroup => "modify group entry"
  | InstallMeter => "install meter entry"
  | DeleteMeter => "delete meter entry"
  | ModifyMeter => "modify meter entry"
  end.

Definition dispatchByPayloadDpid (m : FlowRoutingManager) (o : EntryOp) (j : json) : run (list string) OpResult := fun h =>
  if negb (contains j "dpid") then (h, Ret (failure 400 (operationName o +:+ " requires a dpid")))
  else
    match jfield get_u64 j "dpid" with
    | Throw _ => (h, Ret (failure 400 (operationName o +:+ " has an unreadable dpid")))
    | Ret dpid => withStrategy m dpid (fun s => groupOrMeterEntry o s j) h
    end.

(** * The controller's sender *)

Definition sendJob (m : FlowRoutingManager) (job : FlowJob) : run (list string) OpResult :=
  match op job with
  | Install => managerInstall m (dpid job) (priority job) (match_ job) (actions job) (idleTimeout job)
  | Modify => managerModify m (dpid job) (priority job) (match_ job) (actions job)
  | Delete => managerDelete m (dpid job) (match_ job) (priority job)
  end.

(** The results of a batch; the code logs the ones that are not [ok] with their job.  An exception
    leaves the sender. *)
Fixpoint sendBatch (m : FlowRoutingManager) (batch : list FlowJob) : run (list string) (list (FlowJob * OpResult)) := fun h =>
  match batch with
  | [] => (h, Ret [])
  | job :: batch =>
      match sendJob m job h with
      | (h, Throw e) => (h, Throw e)
      | (h, Ret r) =>
          let '(h, rs) := sendBatch m batch h in
          (h, omap_out (cons (job, r)) rs)
      end
  end.

End WithSurroundings.

(** * Reading curl's output *)

(** The status as [%{http_code}] prints it: three digits. *)
Definition digitChar (d : Z) : ascii := ascii_of_nat (48 + Z.to_nat d).
Definition httpCode (c : Z) : string :=
  String (digitChar (c / 100)) (String (digitChar (c / 10 mod 10)) (String (digitChar (c mod 10)) EmptyString)).

Lemma split_last_app c l r :
  all_chars (fun d => negb (bool_decide (d = c))) r = true -> split_last c (l +:+ String c r) = Some (l, r).
Proof.
  intros Hr. assert (split_last c r = None) as Hn.
  { induction r as [|d r IH]; [done|]. simpl in *. apply andb_prop in Hr as [Hd Hr]. rewrite IH by done.
    by destruct (bool_decide (d = c)). }
  induction l as [|d l IH]; simpl.
  - rewrite Hn. by rewrite bool_decide_true.
  - by rewrite IH.
Qed.

Lemma httpCode_read c :
  0 <= c < 1000 -> stoi (httpCode c) = Ret c /\ all_chars (fun d => negb (bool_decide (d = newline))) (httpCode c) = true.
Proof.
  intros Hc. set (test c := bool_decide (stoi (httpCode c) = Ret c) &&
    all_chars (fun d => negb (bool_decide (d = newline))) (httpCode c)).
  assert (forallb test (seqZ 0 1000) = true) as H by (vm_compute; reflexivity).
  rewrite forallb_forall in H. specialize (H c). rewrite <- list_elem_of_In, elem_of_seqZ in H.
  unfold test in H. specialize (H ltac:(lia)). apply andb_prop in H as [H1%bool_decide_eq_true H2]. done.
Qed.

Lemma split_reply body c :
  0 <= c < 1000 -> splitBodyAndStatus (body +:+ String newline (httpCode c)) = (body, c).
Proof. intros [Hs Hn]%httpCode_read. unfold splitBodyAndStatus. by rewrite split_last_app, Hs. Qed.

Section Outcomes.
Context `{JsonText} `{Shell}.

Lemma resultOfOutput_reply s body c :
  0 <= c < 1000 ->
  let r := resultOfOutput s (body +:+ String newline (httpCode c)) in
  ok r = (bool_decide (200 <= c < 300) && negb (reportsError body)) /\ httpStatus r = c /\
  (ok r = true -> message r = "") /\ (ok r = false -> message r <> "").
Proof.
  intros Hc. unfold resultOfOutput. rewrite split_reply by done. case_bool_decide; [subst; done|].
  destruct (bool_decide (c < 200) || bool_decide (300 <= c)) eqn:E.
  - rewrite (bool_decide_false (200 <= c < 300)); [by destruct s|]. apply orb_prop in E as [E|E]; apply bool_decide_eq_true in E; lia.
  - apply orb_false_elim in E as [E1 E2]. apply bool_decide_eq_false in E1, E2.
    rewrite bool_decide_true by lia. by destruct (reportsError body), s.
Qed.

(** C35: a request that curl could run is one command, and its result is told from curl's output
    whatever the reply is: it succeeded exactly when the status is 2xx and the reply is not a JSON
    object with the status "error"; the status is reported; status 000 is reported as no response;
    a failure carries a message and a success none. *)
Theorem post_classifies s path body h text reply c :
  dump body = Ret text -> 0 <= c < 1000 ->
  execCommand h (curlCommand s path text) = Ret (reply +:+ String newline (httpCode c)) ->
  exists r, post s path body h = (h ++ [curlCommand s path text], Ret r) /\
    ok r = (bool_decide (200 <= c < 300) && negb (reportsError reply)) /\
    httpStatus r = c /\ noResponse r = bool_decide (c = 0) /\ (message r = "" <-> ok r = true).
Proof.
  intros Hd Hc He. unfold post. rewrite Hd. unfold executeCommand. rewrite He. cbn.
  destruct (resultOfOutput_reply s reply c Hc) as (Hok & Hs & Hm1 & Hm2). eexists. split; [done|].
  split_and!; [done|done|by unfold noResponse; rewrite Hs|]. destruct (ok _); naive_solver.
Qed.

End Outcomes.

(** * What the sender does *)

(** The request of a job. *)
Definition jobPath (job : FlowJob) : string :=
  match op job with
  | Install => "/stats/flowentry/add"
  | Modify => "/stats/flowentry/modify"
  | Delete => if bool_decide (priority job = -1) then "/stats/flowentry/delete" else "/stats/flowentry/delete_strict"
  end.

Definition jobBody (job : FlowJob) : json :=
  match op job with
  | Install => installBody (dpid job) (priority job) (match_ job) (actions job) (idleTimeout job)
  | Modify => JObject (entryBody (dpid job) (priority job) (match_ job) (actions job))
  | Delete => deleteBody (dpid job) (priority job) (match_ job)
  end.

Section Sender.
Context `{JsonText} `{Shell} (t : Topology) (ryu p4 : string).

(** The control plane of a kind of switch. *)
Definition planeOf (k : SwitchKind) : IRoutingStrategy :=
  match k with BMV2 => P4RoutingStrategy p4 | OVS | HARDWARE => OpenFlowRoutingStrategy ryu end.

(** The one command a job should cause: a request to the control plane of its switch; none when
    the switch is not in the topology. *)
Definition jobCommand (job : FlowJob) : option string :=
  match getSwitchKind (dpid job) t, dump (jobBody job) with
  | Some k, Ret text => Some (curlCommand (planeOf k) (jobPath job) text)
  | _, _ => None
  end.

Definition manager : FlowRoutingManager := newFlowRoutingManager (Some t) ryu p4.

(** [dump] throws only on strings that are not UTF-8, and [popen] only when no process can be
    started. *)
Definition printable (job : FlowJob) : Prop := is_ret (dump (jobBody job)) = true.
Definition shellWorks : Prop := forall h cmd, is_ret (execCommand h cmd) = true.

Lemma post_runs s path body h :
  shellWorks -> is_ret (dump body) = true ->
  exists text r, dump body = Ret text /\ post s path body h = (h ++ [curlCommand s path text], Ret r).
Proof.
  intros Hs Hd. unfold post, executeCommand. destruct (dump body) as [text|]; [|done].
  specialize (Hs h (curlCommand s path text)). destruct (execCommand _ _); [|done]. eauto.
Qed.

Lemma sendJob_eq job h :
  sendJob manager job h =
    match getSwitchKind (dpid job) t with
    | Some k => post (planeOf k) (jobPath job) (jobBody job) h
    | None => (h, Ret (noStrategy (dpid job)))
    end.
Proof.
  unfold sendJob, jobPath, jobBody. destruct (op job);
    unfold managerInstall, managerModify, managerDelete, withStrategy, getStrategyForDpid; cbn;
    by destruct (getSwitchKind (dpid job) t) as [[]|].
Qed.

Lemma sendJob_effect job h :
  shellWorks -> printable job ->
  exists r, sendJob manager job h = (h ++ option_list (jobCommand job), Ret r).
Proof.
  intros Hs Hp. rewrite sendJob_eq. unfold jobCommand. destruct (getSwitchKind (dpid job) t) as [k|].
  - destruct (post_runs (planeOf k) (jobPath job) (jobBody job) h Hs Hp) as (text & r & -> & ->). eauto.
  - cbn. rewrite app_nil_r. eauto.
Qed.

Lemma sendBatch_effect batch h :
  shellWorks -> Forall printable batch ->
  exists rs, sendBatch manager batch h = (h ++ omap jobCommand batch, Ret rs) /\ rs.*1 = batch.
Proof.
  intros Hs Hp. revert h. induction Hp as [|job batch Hj _ IH]; intros h; cbn [sendBatch omap list_omap].
  - exists []. by rewrite app_nil_r.
  - destruct (sendJob_effect job h Hs Hj) as [r ->]. destruct (IH (h ++ option_list (jobCommand job))) as (rs & -> & Hrs).
    exists ((job, r) :: rs). cbn. rewrite Hrs, <- app_assoc. split; [|done]. f_equal. f_equal. by destruct (jobCommand job).
Qed.

(** The calls of the sender, in the order they were made. *)
Fixpoint sendAll (batches : list (list FlowJob)) : run (list string) (list (FlowJob * OpResult)) := fun h =>
  match batches with
  | [] => (h, Ret [])
  | batch :: batches =>
      match sendBatch manager batch h with
      | (h, Throw e) => (h, Throw e)
      | (h, Ret rs) => let '(h, rest) := sendAll batches h in (h, omap_out (app rs) rest)
      end
  end.

Lemma sendAll_effect batches h :
  shellWorks -> Forall printable (concat batches) ->
  exists rs, sendAll batches h = (h ++ omap jobCommand (concat batches), Ret rs) /\ rs.*1 = concat batches.
Proof.
  intros Hs. revert h. induction batches as [|b batches IH]; intros h Hp; cbn [sendAll concat].
  - exists []. by rewrite app_nil_r.
  - cbn in Hp. apply Forall_app in Hp as [Hb Hr]. destruct (sendBatch_effect b h Hs Hb) as (rs & -> & Hrs).
    destruct (IH (h ++ omap jobCommand b) Hr) as (rest & -> & Hrest). exists (rs ++ rest). cbn.
    by rewrite omap_app, app_assoc, fmap_app, Hrs, Hrest.
Qed.

Definition sentBatches (tr : list Label) : list (list FlowJob) := omap (fun l => match l with Sent b => Some b | _ => None end) tr.

Lemma concat_sentBatches tr : concat (sentBatches tr) = sentJobs tr.
Proof. induction tr as [|[] tr IH]; cbn; [done|try exact IH..]. f_equal. exact IH. Qed.

(** C3: end to end from acceptance to the control planes.  When a stopped dispatcher's workers have
    finished, every accepted job has been sent exactly once and has its result; the jobs of one
    switch were sent in the order they were accepted; and the commands run are, job by job, one
    request each to the control plane of the job's own switch (the P4 proxy for bmv2, Ryu for the
    others), and none for a switch the topology does not have. *)
Theorem accepted_jobs_reach_their_plane n tr d :
  runs n tr d -> allExited d -> shellWorks -> Forall printable (acceptedJobs tr) ->
  exists h rs, sendAll (sentBatches tr) [] = (h, Ret rs) /\
    rs.*1 ≡ₚ acceptedJobs tr /\
    (forall id, forSwitch id rs.*1 = forSwitch id (acceptedJobs tr)) /\
    h = omap jobCommand rs.*1.
Proof.
  intros Hr He Hs Hp.
  assert (forall id, forSwitch id (acceptedJobs tr) = forSwitch id (sentJobs tr)) as Hf.
  { intros id. apply (exited_delivered _ _ d); [by apply (runs_inv n)|done]. }
  pose proof (forSwitch_permutation _ _ Hf) as Hperm.
  destruct (sendAll_effect (sentBatches tr) [] Hs) as (rs & -> & Hrs); rewrite concat_sentBatches in *.
  { by rewrite <- Hperm. }
  exists (omap jobCommand (sentJobs tr)), rs. rewrite Hrs. split_and!; [done|done|by intros; rewrite Hf|done].
Qed.

(** A group or meter operation is refused with 400 when its payload has no readable dpid, with
    404 when the switch is unknown and with 501 on a bmv2 switch, in all these cases without any
    request; otherwise it is exactly one request with the payload to Ryu. *)
Theorem group_meter_dispatch o j h :
  shellWorks -> is_ret (dump j) = true ->
  match jfield get_u64 j "dpid" with
  | Throw _ => exists r, dispatchByPayloadDpid manager o j h = (h, Ret r) /\ httpStatus r = 400 /\ ok r = false
  | Ret id =>
      match getSwitchKind id t with
      | None => exists r, dispatchByPayloadDpid manager o j h = (h, Ret r) /\ httpStatus r = 404 /\ ok r = false
      | Some BMV2 => exists r, dispatchByPayloadDpid manager o j h = (h, Ret r) /\ httpStatus r = 501 /\ ok r = false
      | Some _ => exists text r, dump j = Ret text /\
          dispatchByPayloadDpid manager o j h = (h ++ [curlCommand (OpenFlowRoutingStrategy ryu) (entryRoute o) text], Ret r)
      end
  end.
Proof.
  intros Hs Hd. unfold dispatchByPayloadDpid. destruct (contains j "dpid") eqn:Hc; cbn [negb].
  - destruct (jfield get_u64 j "dpid") as [id|e]; [|eauto]. unfold withStrategy, getStrategyForDpid. cbn.
    destruct (getSwitchKind id t) as [[]|]; cbn; eauto; by apply post_runs.
  - destruct (jfield get_u64 j "dpid") as [id|e] eqn:E; [|eauto]. apply obind_ret in E as (v & Hv & _).
    assert (contains j "dpid" = true); [|congruence]. apply contains_jat. eauto.
Qed.

End Sender.

(** * Samples *)

(** A printer that prints every value alike, and a parser of two texts. *)
Definition sampleText : JsonText := {|
  dump := fun _ => Ret "{}";
  parse := fun s => if bool_decide (s = "refused") then Ret (JObject [("status", JString "error")]) else Throw JsonParseError |}.

(** Every command is answered with 200, the first with an error inside it. *)
Definition sampleShell : Shell := {|
  execCommand := fun h cmd => Ret ((match h with [] => "refused" | _ => "done" end) +:+ String newline (httpCode 200)) |}.

(** Switch 7 is a bmv2 switch and switch 8 an Open vSwitch. *)
Definition sampleKinds : Topology := {|
  m_graph := emptyGraph; m_dpidToSwitchKind := {[7 := BMV2; 8 := OVS]}; m_ryuUrl := [];
  m_dpidToIpStrMap := ∅; m_dpidStrToIpStrMap := ∅; m_ipStrToDpidMap := ∅; m_ipStrToDpidStrMap := ∅;
  m_lastRateDivisorSeconds := f64_of_Z (-1) |}.

(** The first reply is an error inside a 200. *)
Lemma post_classifies_witness :
  exists r, @post sampleText sampleShell (P4RoutingStrategy "p4:1") "/stats/flowentry/add" JNull [] =
    ([curlCommand (P4RoutingStrategy "p4:1") "/stats/flowentry/add" "{}"], Ret r) /\ ok r = false /\ httpStatus r = 200.
Proof.
  destruct (@post_classifies sampleText sampleShell (P4RoutingStrategy "p4:1") "/stats/flowentry/add" JNull [] "{}" "refused" 200
    eq_refl ltac:(lia) eq_refl) as (r & Hp & Hok & Hs & _).
  exists r. split; [exact Hp|]. split; [rewrite Hok; reflexivity|exact Hs].
Defined.

Lemma accepted_jobs_reach_their_plane_witness :
  exists h rs, @sendAll sampleText sampleShell sampleKinds "ryu:1" "p4:1" (sentBatches finishedTrace) [] = (h, Ret rs) /\
    h = [curlCommand (P4RoutingStrategy "p4:1") "/stats/flowentry/add" "{}"].
Proof.
  assert (allExited finishedDispatcher) as He by (repeat constructor).
  assert (@shellWorks sampleShell) as Hs by (intros h cmd; reflexivity).
  assert (Forall (@printable sampleText) (acceptedJobs finishedTrace)) as Hp by (repeat constructor).
  destruct (@accepted_jobs_reach_their_plane sampleText sampleShell sampleKinds "ryu:1" "p4:1" 5 finishedTrace finishedDispatcher
    finishedDispatcher_runs He Hs Hp) as (h & rs & Hsend & _ & _ & _).
  exists h, rs. split; [exact Hsend|]. apply (f_equal fst) in Hsend. cbn [fst] in Hsend. rewrite <- Hsend. vm_compute. reflexivity.
Defined.

Lemma group_meter_dispatch_witness :
  exists text r, @dump sampleText (JObject [("dpid", JUnsigned 8)]) = Ret text /\
    @dispatchByPayloadDpid sampleText sampleShell (manager sampleKinds "ryu:1" "p4:1") InstallGroup (JObject [("dpid", JUnsigned 8)]) [] =
    ([curlCommand (OpenFlowRoutingStrategy "ryu:1") "/stats/groupentry/add" text], Ret r).
Proof.
  exact (@group_meter_dispatch sampleText sampleShell sampleKinds "ryu:1" "p4:1" InstallGroup (JObject [("dpid", JUnsigned 8)]) []
    (fun h cmd => eq_refl) eq_refl).
Defined.
