(* ===== verification/PathFetch.v ===== *)
(** Fetching the destination paths from the control plane (src/ndt_core/collection/
    FlowLinkUsageCollector.cpp: fetchAllDestinationPaths, refreshDestinationPathsPeriodically, getAllPaths,
    getAllHostIps).

    The command and its output go through the [Shell] and [JsonText] interfaces.  The refresh loop is
    modelled over seconds slept: [m_running] turns false after a number of seconds, and the thread
    looks at it wherever the code does. *)

From S2P Require Import Prelude SleepLoop CStrings NetUtils Json SFlowTypes SFlowParser FlowRates FlowRatesProps KeyedFailureLog GraphTypes Topology FlowDispatch Routing PortMapping.
Local Open Scope string_scope.
Local Open Scope list_scope.
Local Open Scope Z_scope.

(** * One fetch *)

(** The known paths, the static failure log of the function, and the commands run. *)
Record PathClient := { pc_paths : Paths; pathFailures : KeyedFailureLog; pc_commands : list string }.

Definition set_pc (ps : Paths) (log : KeyedFailureLog) (s : PathClient) : PathClient :=
  {| pc_paths := ps; pathFailures := log; pc_commands := pc_commands s |}.
Definition ranCommand (cmd : string) (s : PathClient) : PathClient :=
  {| pc_paths := pc_paths s; pathFailures := pathFailures s; pc_commands := pc_commands s ++ [cmd] |}.

Definition pathsCommand (hostAndPort : string) : string :=
  "curl -s --connect-timeout 2 --max-time 10 " +:+ "-H " +:+ quoted "User-Agent: NDT-client/1.1" +:+ " " +:+
  quoted ("http://" +:+ hostAndPort +:+ "/ryu_server/all_destination_paths").

Definition malformedHop : string :=
  "all_destination_paths carried a hop that is not a " +:+ "well-formed [node, interface] pair; that path is " +:+ "skipped, the rest are kept".

(** The loop over the paths of a reply: a path with a malformed hop is recorded and skipped. *)
Fixpoint collectPaths (paths : list json) (log : KeyedFailureLog) : outcome (list Path * KeyedFailureLog) :=
  match paths with
  | [] => Ret ([], log)
  | p :: paths =>
      let! path := parsePath (jiter p) in
      let log := match path with None => record "malformed-hop" malformedHop log | Some _ => log end in
      let! rest := collectPaths paths log in
      Ret (match path with Some ((_ :: _) as p) => p :: rest.1 | _ => rest.1 end, rest.2)
  end.

(** [body["status"] != "success"] of an object that has the key. *)
Definition statusIsSuccess (body : json) : bool :=
  match jfind body "status" with Some (JString s) => bool_decide (s = "success") | _ => false end.

Section Fetch.
Context `{JsonText} `{Shell}.

(** The reply once the command has printed something: the new state, or the exception the function
    catches. *)
Definition acceptReply (output : string) (s : PathClient) : outcome PathClient :=
  let! body := parse output in
  if negb (statusIsSuccess body) then
    (* the warning prints the reply *)
    omap_out (fun _ => s) (dump body)
  else
    let! all := jat body "all_destination_paths" in
    let! got := collectPaths (jiter all) (pathFailures s) in
    Ret (set_pc (setAllPaths got.1 (pc_paths s)) got.2 s).

Definition fetchAllDestinationPaths (hostAndPort : string) (s : PathClient) : PathClient :=
  let cmd := pathsCommand hostAndPort in
  let s' := ranCommand cmd s in
  match execCommand (pc_commands s) cmd with
  | Throw _ => s'
  | Ret output => if bool_decide (output = "") then s' else catch (acceptReply output s') s'
  end.

(** * Properties of one fetch *)

(** The usable paths of a reply, in order. *)
Definition usablePaths (paths : list json) : list Path :=
  omap (fun p => match parsePath (jiter p) with Ret (Some ((_ :: _) as q)) => Some q | _ => None end) paths.

Lemma collectPaths_usable paths log : exists log', collectPaths paths log = Ret (usablePaths paths, log').
Proof.
  revert log. induction paths as [|p paths IH]; intros log; cbn [collectPaths]; [by eexists|].
  destruct (parsePath_total (jiter p)) as [r Hr]. rewrite Hr. cbn [obind].
  destruct (IH (match r with None => record "malformed-hop" malformedHop log | Some _ => log end)) as [log' ->].
  exists log'. cbn. unfold usablePaths. cbn [omap list_omap]. rewrite Hr. by destruct r as [[|]|].
Qed.

(** A fetch runs one request.  When the control plane answers with status success and a list of
    paths of which at least one is usable, the known paths become exactly the usable ones (the last
    between two ends counts, and the switch counts go with them); whatever else it answers, or when
    it does not, the known paths stay. *)
Theorem fetch_replaces_or_keeps host s :
  let s' := fetchAllDestinationPaths host s in
  pc_commands s' = pc_commands s ++ [pathsCommand host] /\
  match (let! output := execCommand (pc_commands s) (pathsCommand host) in
         let! body := parse output in
         if bool_decide (output <> "") && statusIsSuccess body then omap_out (fun l => usablePaths (jiter l)) (jat body "all_destination_paths")
         else Ret []) with
  | Ret ((_ :: _) as ps) => forall pr, allPathMap (pc_paths s') !! pr = latest pr ps None /\
                                       getSwitchCount pr (pc_paths s') = switchesOn <$> latest pr ps None
  | _ => pc_paths s' = pc_paths s
  end.
Proof.
  cbn zeta. unfold fetchAllDestinationPaths. destruct (execCommand (pc_commands s) (pathsCommand host)) as [output|e]; [|done].
  cbn [obind]. destruct (decide (output = "")) as [-> |Hne].
  { split; [done|]. rewrite bool_decide_false by naive_solver. cbn [andb]. rewrite bool_decide_true by done. by destruct (parse _). }
  rewrite (bool_decide_false (output = "")), (bool_decide_true (output <> "")) by done. cbn [andb].
  unfold acceptReply. destruct (parse output) as [body|e]; cbn [obind]; [|done].
  destruct (statusIsSuccess body); cbn [negb]; [|by destruct (dump body)].
  destruct (jat body "all_destination_paths") as [all|e]; cbn [obind]; [|done].
  destruct (collectPaths_usable (jiter all) (pathFailures (ranCommand (pathsCommand host) s))) as [log' ->]. cbn [obind catch fst snd].
  split; [done|]. cbn. pose proof (paths_replaced (usablePaths (jiter all)) (pc_paths s)) as Hr. cbn zeta in Hr.
  destruct (usablePaths (jiter all)); [by apply (Hr (0, 0))|exact Hr].
Qed.

End Fetch.

(** * The refresh loop *)

Definition kWhileEmpty : nat := 5.
Definition kOnceLoaded : nat := 60.

Section Refresh.
(** [stopAt]: the second in which m_running stopAt turns false; [fetch t] is the fetch at second [t]. *)
Context (stopAt : nat) {S : Type} (haveAny : S -> bool) (fetch : nat -> S -> S).

(** The seconds at which fetches were made, and the state the loop ends with. *)
Fixpoint refreshPathsLoop (fuel t : nat) (s : S) : option (list nat * S) :=
  match fuel with
  | O => None
  | Datatypes.S fuel =>
      if running stopAt t then
        let t' := sleepSeconds stopAt (if haveAny s then kOnceLoaded else kWhileEmpty) t in
        if running stopAt t' then r ← refreshPathsLoop fuel t' (fetch t' s); Some (t' :: r.1, r.2)
        else Some ([], s)
      else Some ([], s)
  end.

(** When the fetches are due: after five seconds while nothing is known, after sixty once something is. *)
Fixpoint dueTimes (t : nat) (s : S) (times : list nat) : Prop :=
  match times with
  | [] => (stopAt <= t + if haveAny s then kOnceLoaded else kWhileEmpty)%nat
  | t' :: times => (t' = t + if haveAny s then kOnceLoaded else kWhileEmpty)%nat /\ dueTimes t' (fetch t' s) times
  end.

(** The refresh loop ends once the collector is stopped, and until then makes its fetches exactly when
    they are due: five seconds after the last look while no path is known, sixty seconds after it
    once some are, none at start and none after the stop. *)
Theorem refresh_schedule s : exists times s',
  refreshPathsLoop (Datatypes.S stopAt) 0 s = Some (times, s') /\ dueTimes 0 s times /\ Forall (fun t => t < stopAt)%nat times /\
  s' = foldl (fun s t => fetch t s) s times.
Proof.
  enough (forall fuel t s, (t <= stopAt < fuel + t)%nat -> exists times s',
    refreshPathsLoop fuel t s = Some (times, s') /\ dueTimes t s times /\ Forall (fun t => t < stopAt)%nat times /\
    s' = foldl (fun s t => fetch t s) s times) as H by (apply H; lia).
  clear s. induction fuel as [|fuel IH]; intros t s Hf; [lia|]. cbn [refreshPathsLoop].
  set (n := if haveAny s then kOnceLoaded else kWhileEmpty). assert (5 <= n)%nat by (unfold n; destruct (haveAny s); cbv; lia).
  assert ((stopAt <= t + n)%nat -> dueTimes t s []) as Hend by done.
  destruct (running stopAt t) eqn:Et; [|apply bool_decide_eq_false in Et; exists [], s; split_and!; auto; apply Hend; lia].
  destruct (running stopAt (sleepSeconds stopAt n t)) eqn:Er.
  - apply sleepSeconds_running in Er as [-> Hlt]. destruct (IH (t + n)%nat (fetch (t + n)%nat s)) as (times & s' & -> & Hd & Hall & ->); [lia|].
    exists ((t + n)%nat :: times), (foldl (fun s t => fetch t s) (fetch (t + n)%nat s) times). split_and!; auto.
    split; [done|exact Hd].
  - apply sleepSeconds_stopped in Er. exists [], s. split_and!; auto.
Qed.

End Refresh.

(** * The hosts of the known paths *)

Definition getAllHostIps (ps : Paths) : list Z :=
  merge_sort Z.le (elements (list_to_set (mjoin ((fun e => [e.1.1; e.1.2]) <$> map_to_list (allPathMap ps))) : gset Z)).

Lemma getAllHostIps_spec ps :
  StronglySorted Z.lt (getAllHostIps ps) /\
  forall ip, ip ∈ getAllHostIps ps <-> exists pr, is_Some (allPathMap ps !! pr) /\ (ip = pr.1 \/ ip = pr.2).
Proof.
  unfold getAllHostIps. set (X := list_to_set _ : gset Z). split.
  - assert (StronglySorted Z.le (merge_sort Z.le (elements X))) as Hs by (apply StronglySorted_merge_sort; apply _).
    assert (NoDup (merge_sort Z.le (elements X))) as Hn by (rewrite merge_sort_Permutation; apply NoDup_elements).
    induction Hs as [|x l Hs IH Hx]; [constructor|]. apply NoDup_cons in Hn as [Hn1 Hn2]. constructor; [auto|].
    apply Forall_forall. intros y Hy. eapply Forall_forall in Hx; [|done]. assert (x <> y) by (by intros ->). lia.
  - intros ip. rewrite merge_sort_Permutation, elem_of_elements. unfold X. rewrite elem_of_list_to_set, list_elem_of_join. split.
    + intros (l & Hin & Hl). apply list_elem_of_fmap in Hl as ([pr p] & -> & Hm). apply elem_of_map_to_list in Hm.
      exists pr. split; [by eexists|]. cbn in Hin. set_solver.
    + intros (pr & [p Hp] & Hor). exists [pr.1; pr.2]. split; [set_solver|]. apply list_elem_of_fmap. exists (pr, p).
      split; [done|]. by apply elem_of_map_to_list.
Qed.
