(* ===== verification/TopologyRun.v ===== *)
(** The thread of the topology monitor (src/ndt_core/collection/TopologyAndFlowMonitor.cpp: start, stop,
    pollControlPlaneTopology, run).

    The thread loads the static topology once, aims the poll at the control plane that owns the
    switches, and then polls: three requests, and one update of the graph when all three could be
    run.  Other threads change the topology between polls; such changes are operations of their own
    in the sequence.  A tick of the loop is one poll, with the seconds since the start at its end. *)

From S2P Require Import Prelude NetUtils Json GraphTypes Topology TopologyProps TopologyPaths TopologyInterface FlowDispatch Routing.
Local Open Scope string_scope.
Local Open Scope list_scope.
Local Open Scope Z_scope.

(** The topology and the commands run. *)
Record Monitor := { mo_topology : Topology; mo_commands : list string }.

Definition set_monitored (t : Topology) (m : Monitor) : Monitor := {| mo_topology := t; mo_commands := mo_commands m |}.

Section Poll.
Context `{JsonText} `{Shell}.

Definition getCommand (url : string) : string := "curl -s -X GET " +:+ url.

(** [utils::execCommand]: the output, or nothing when it throws; the command is run either way. *)
Definition request (url : string) (m : Monitor) : Monitor * option string :=
  ({| mo_topology := mo_topology m; mo_commands := mo_commands m ++ [getCommand url] |},
   match execCommand (mo_commands m) (getCommand url) with Ret s => Some s | Throw _ => None end).

Definition parsed (s : string) : option json := match parse s with Ret j => Some j | Throw _ => None end.

Definition pollControlPlaneTopology (m : Monitor) : Monitor :=
  match m_ryuUrl (mo_topology m) with
  | [u0; u1; u2] =>
      let '(m, switchesStr) := request u0 m in
      match switchesStr with
      | None => m
      | Some switchesStr =>
          let '(m, hostsStr) := request u1 m in
          match hostsStr with
          | None => m
          | Some hostsStr =>
              let '(m, linksStr) := request u2 m in
              match linksStr with
              | None => m
              | Some linksStr => set_monitored (updateGraph parsed switchesStr hostsStr linksStr (mo_topology m)) m
              end
          end
      end
  | _ => m
  end.

(** * The loop *)

Definition kWhileConverging : Z := 5.
Definition kOnceConverged : Z := 30.
Definition kConvergingFor : Z := 90.

(** What happens on the way: a poll by this thread, which ends at a second of the monitor's life, or a
    change made by another one. *)
Inductive Happening := PollEnds (elapsed : Z) | Meanwhile (op : TopologyOp).

(** A line is logged when the counts have moved; the sleep that follows. *)
Record Polled := { reported : option (nat * nat * nat); interval : Z }.

Definition pollInterval (elapsed : Z) : Z := if bool_decide (elapsed < kConvergingFor) then kWhileConverging else kOnceConverged.

Fixpoint pollLoop (hs : list Happening) (previous : nat * nat * nat) (first : bool) (m : Monitor) : Monitor * list Polled :=
  match hs with
  | [] => (m, [])
  | Meanwhile op :: hs => pollLoop hs previous first (set_monitored (runOp (mo_topology m) op) m)
  | PollEnds elapsed :: hs =>
      let m := pollControlPlaneTopology m in
      let now := graphLivenessSummary (mo_topology m) in
      let moved := first || negb (bool_decide (now = previous)) in
      let '(m', ps) := pollLoop hs (if moved then now else previous) (if moved then false else first) m in
      (m', {| reported := if moved then Some now else None; interval := pollInterval elapsed |} :: ps)
  end.

(** [run]: an exception of the load leaves the thread. *)
Definition runMonitor (mode : DeploymentMode) (P4_PROXY_IP_AND_PORT : string) (file : option (option json)) (hs : list Happening)
  (m : Monitor) : outcome (Monitor * list Polled) :=
  match loadStaticTopologyFromFile mode file (mo_topology m) with
  | (_, Throw e) => Throw e
  | (t, Ret _) =>
      let t := configureTopologyApiUrls mode P4_PROXY_IP_AND_PORT (initializeMappingsFromGraph t) in
      Ret (pollLoop hs (graphLivenessSummary t) true (set_monitored t m))
  end.

End Poll.

(** * Properties *)

Lemma runOp_urls t op : m_ryuUrl (runOp t op) = m_ryuUrl t.
Proof.
  destruct op; cbn [runOp]; try done.
  - destruct (updateGraph_discovered parse switchesStr hostsStr linksStr t) as [_ <-]. done.
  - unfold disableSwitchAndEdges. by destruct (findSwitchByDpid dpid t).
  - unfold enableSwitchAndEdges. by destruct (findSwitchByDpid dpid t).
  - unfold updateLinkInfo. by repeat case_match.
  - unfold updateLinkInfoLeftLinkBandwidth. by repeat case_match.
Qed.

(** The same network: the same vertices and edges, with the same identities. *)
Definition sameNetwork (t t' : Topology) : Prop := evolves sameV sameE (m_graph t) (m_graph t') /\ m_ryuUrl t = m_ryuUrl t'.

#[export] Instance sameNetwork_refl : Reflexive sameNetwork.
Proof. by split. Qed.
#[export] Instance sameNetwork_trans : Transitive sameNetwork.
Proof. intros t1 t2 t3 [H1 E1] [H2 E2]. split; [by etrans|congruence]. Qed.

Lemma runOp_sameNetwork t op : sameNetwork t (runOp t op).
Proof. split; [apply runOp_same|by rewrite runOp_urls]. Qed.

Section Props.
Context `{JsonText} `{Shell}.

(** A poll runs the three requests in turn, up to the first that cannot be run, and updates the graph
    when there is none. *)
Lemma poll_outcome m u0 u1 u2 :
  m_ryuUrl (mo_topology m) = [u0; u1; u2] ->
  let m' := pollControlPlaneTopology m in
  (exists k, mo_commands m' = mo_commands m ++ take k (getCommand <$> [u0; u1; u2])) /\
  (mo_topology m' = mo_topology m \/ exists op, mo_topology m' = runOp (mo_topology m) op).
Proof.
  intros Hu. cbn zeta. unfold pollControlPlaneTopology, request. rewrite Hu. cbn.
  destruct (execCommand _ (getCommand u0)) as [s|]; cbn; [|split; [by exists 1%nat|by left]].
  destruct (execCommand _ (getCommand u1)) as [h|]; cbn; [|split; [exists 2%nat; by rewrite <- app_assoc|by left]].
  destruct (execCommand _ (getCommand u2)) as [l|]; cbn; (split; [exists 3%nat; by rewrite <- !app_assoc|]); [right|by left].
  by exists (OpPoll parsed s h l).
Qed.

(** What each poll should report: the counts it finds, the first time and whenever they differ from the
    last ones reported. *)
Fixpoint reportsMoves (last : option (nat * nat * nat)) (counts : list (nat * nat * nat)) : list (option (nat * nat * nat)) :=
  match counts with
  | [] => []
  | c :: counts => if bool_decide (last = Some c) then None :: reportsMoves last counts else Some c :: reportsMoves (Some c) counts
  end.

(** The counts each poll of a run finds. *)
Fixpoint pollCounts (hs : list Happening) (m : Monitor) : list (nat * nat * nat) :=
  match hs with
  | [] => []
  | Meanwhile op :: hs => pollCounts hs (set_monitored (runOp (mo_topology m) op) m)
  | PollEnds _ :: hs =>
      let m := pollControlPlaneTopology m in graphLivenessSummary (mo_topology m) :: pollCounts hs m
  end.

Lemma pollLoop_network hs prev first m u0 u1 u2 :
  m_ryuUrl (mo_topology m) = [u0; u1; u2] ->
  let '(m', ps) := pollLoop hs prev first m in
  sameNetwork (mo_topology m) (mo_topology m') /\
  (exists cs, mo_commands m' = mo_commands m ++ cs /\ Forall (fun c => c ∈ getCommand <$> [u0; u1; u2]) cs) /\
  reported <$> ps = reportsMoves (if first then None else Some prev) (pollCounts hs m) /\
  interval <$> ps = omap (fun h => match h with PollEnds e => Some (pollInterval e) | Meanwhile _ => None end) hs.
Proof.
  revert prev first m. induction hs as [|[elapsed|op] hs IH]; intros prev first m Hu; cbn [pollLoop].
  - split; [done|]. split; [exists []; by rewrite app_nil_r|]. done.
  - destruct (poll_outcome m u0 u1 u2 Hu) as [[k Hc] Ht]. set (m1 := pollControlPlaneTopology m) in *.
    assert (sameNetwork (mo_topology m) (mo_topology m1)) as Hn.
    { destruct Ht as [-> | [op ->]]; [done|apply runOp_sameNetwork]. }
    set (now := graphLivenessSummary (mo_topology m1)). set (moved := first || negb (bool_decide (now = prev))).
    specialize (IH (if moved then now else prev) (if moved then false else first) m1). destruct (pollLoop _ _ _ m1) as [m' ps].
    destruct IH as (IH1 & (cs & IH2 & IH3) & IH4 & IH5); [by rewrite <- (proj2 Hn)|].
    split; [by etrans|]. split; [|split].
    + exists (take k (getCommand <$> [u0; u1; u2]) ++ cs). rewrite IH2, Hc, app_assoc. split; [done|].
      apply Forall_app. split; [|done]. apply Forall_forall. intros c Hin.
      by rewrite <- (take_drop k (getCommand <$> _)), elem_of_app; left.
    + cbn [fmap list_fmap reported reportsMoves pollCounts]. fold m1 now.
      rewrite IH4. unfold moved. destruct first; [by rewrite (bool_decide_false (None = Some now))|].
      destruct (decide (now = prev)) as [-> | Hne].
      * by rewrite !bool_decide_true.
      * rewrite (bool_decide_false (now = prev)), (bool_decide_false (Some prev = Some now)) by congruence. done.
    + cbn. by rewrite IH5.
  - specialize (IH prev first (set_monitored (runOp (mo_topology m) op) m)). destruct (pollLoop _ _ _ _) as [m' ps].
    destruct IH as (IH1 & IH2 & IH3 & IH4); [cbn; by rewrite runOp_urls|].
    split; [|done]. etrans; [apply runOp_sameNetwork|exact IH1].
Qed.
End Props.

(** * The load and the choice of the control plane *)

Lemma loadNodes_urls mode nodes dv t : m_ryuUrl (loadNodes mode nodes dv t).1 = m_ryuUrl t.
Proof.
  revert dv t. induction nodes as [|j nodes IH]; intros dv t; cbn [loadNodes]; [done|].
  destruct (parseNode mode j) as [vp|]; [|done]. unfold addNode. case_match; case_match; simplify_eq; by rewrite IH.
Qed.

Lemma loadEdges_urls dv es t : m_ryuUrl (loadEdges dv es t).1 = m_ryuUrl t.
Proof.
  revert t. induction es as [|j es IH]; intros t; cbn [loadEdges]; [done|].
  destruct (parseEdge j) as [ep|]; [|done]. rewrite IH. unfold placeEdge. by repeat case_match.
Qed.

Lemma load_urls mode file t : m_ryuUrl (loadStaticTopologyFromFile mode file t).1 = m_ryuUrl t.
Proof.
  unfold loadStaticTopologyFromFile. destruct (vertices _); [|done]. destruct file as [[j|]|]; [|done|done].
  destruct (jindex j "nodes") as [nodes|]; [|done]. pose proof (loadNodes_urls mode (jiter nodes) ∅ t) as Hn.
  destruct (loadNodes _ _ _ t) as [t1 [dv|]]; [|done]. destruct (jindex j "edges") as [es|]; [|done].
  by rewrite loadEdges_urls.
Qed.

Lemma initializeMappings_keeps t :
  let t' := initializeMappingsFromGraph t in
  m_graph t' = m_graph t /\ m_ryuUrl t' = m_ryuUrl t /\ m_dpidToSwitchKind t' = m_dpidToSwitchKind t.
Proof.
  cbn zeta. unfold initializeMappingsFromGraph. generalize (vertices (m_graph t)) as vs. intros vs. revert t.
  induction vs as [|v vs IH]; intros t; [done|]. cbn [foldl]. destruct (IH (addMapping t v)) as (-> & -> & ->).
  unfold addMapping. by repeat case_match.
Qed.

(** Every switch that was loaded is of the kind, and there is one. *)
Definition allOfKind (kind : SwitchKind) (t : Topology) : Prop :=
  m_dpidToSwitchKind t <> ∅ /\ map_Forall (fun _ k => k = kind) (m_dpidToSwitchKind t).

#[export] Instance allOfKind_dec kind t : Decision (allOfKind kind t).
Proof. apply _. Defined.

Lemma kindGroup_nil kind t : kindGroup kind t = [] <-> forall dpid k, m_dpidToSwitchKind t !! dpid = Some k -> k <> kind.
Proof.
  unfold kindGroup. split.
  - intros Hn dpid k Hk ->. assert (dpid ∈ (filter (fun x => x.2 = kind) (map_to_list (m_dpidToSwitchKind t))).*1) as Hin.
    { apply list_elem_of_fmap. exists (dpid, kind). split; [done|]. apply list_elem_of_filter. split; [done|]. by apply elem_of_map_to_list. }
    rewrite <- (merge_sort_Permutation Z.le), Hn in Hin. by apply elem_of_nil in Hin.
  - intros Hk. assert (filter (fun x => x.2 = kind) (map_to_list (m_dpidToSwitchKind t)) = []) as ->; [|done].
    destruct (filter _ _) as [|[dpid k] l] eqn:E; [done|]. exfalso.
    assert ((dpid, k) ∈ filter (fun x => x.2 = kind) (map_to_list (m_dpidToSwitchKind t))) as Hin by (rewrite E; left).
    apply list_elem_of_filter in Hin as [E1 Hin%elem_of_map_to_list]. by eapply Hk.
Qed.

Lemma bmv2_groups t : (exists dpids, getSwitchKindGroups t = [(BMV2, dpids)]) <-> allOfKind BMV2 t.
Proof.
  pose proof (kindGroup_nil OVS t) as HO. pose proof (kindGroup_nil BMV2 t) as HB. pose proof (kindGroup_nil HARDWARE t) as HH.
  unfold getSwitchKindGroups, allOfKind. cbn [fmap list_fmap]. split.
  - intros [dpids E]. destruct (kindGroup OVS t) as [|o os]; [|done]. destruct (kindGroup BMV2 t) as [|b bs].
    { by destruct (kindGroup HARDWARE t). }
    destruct (kindGroup HARDWARE t) as [|h hs]; [|done]. split.
    + intros Ht. assert (b :: bs = []) as ?; [|done]. apply HB. intros dpid k. by rewrite Ht.
    + intros dpid k Hk. destruct k; [by destruct (proj1 HO eq_refl dpid OVS)|done|by destruct (proj1 HH eq_refl dpid HARDWARE)].
  - intros [Hne Hall]. apply map_choose in Hne as (dpid & k & Hk). pose proof (Hall _ _ Hk) as ->.
    rewrite (proj2 HO), (proj2 HH); [|intros ? ? ->%Hall; done|intros ? ? ->%Hall; done].
    destruct (kindGroup BMV2 t) as [|b bs]; [by destruct (proj1 HB eq_refl dpid BMV2)|]. cbn. eauto.
Qed.

Lemma configure_urls mode p4 t :
  m_ryuUrl (configureTopologyApiUrls mode p4 t) =
    if bool_decide (mode = MININET /\ allOfKind BMV2 t) then m_ryuUrl (setTopologyApiUrls ("http://" +:+ p4 +:+ "/v1.0/topology") t) else m_ryuUrl t.
Proof.
  unfold configureTopologyApiUrls. pose proof (bmv2_groups t) as Hg. case_bool_decide as Hb.
  - destruct Hb as [-> Hb]. by apply Hg in Hb as [dpids ->].
  - destruct mode; [|done]. destruct (getSwitchKindGroups t) as [|[[] ds] [|]] eqn:E; try done. exfalso. apply Hb. split; [done|].
    apply Hg. by exists ds.
Qed.

(** The host of the control plane that owns the switches. *)
Definition owner (mode : DeploymentMode) (ryu p4 : string) (t : Topology) : string :=
  if bool_decide (mode = MININET /\ allOfKind BMV2 t) then p4 else ryu.

Definition topologyRequests (host : string) : list string :=
  let base := "http://" +:+ host +:+ "/v1.0/topology" in getCommand <$> [base +:+ "/switches"; base +:+ "/hosts"; base +:+ "/links"].

Section Run.
Context `{JsonText} `{Shell}.

(** C30: Whatever the control plane answers and whatever the other threads do between the polls, a run of the
    monitor keeps the network of the file: the vertices and edges that the one load gave, with their
    identities.  It asks only the control plane that owns the switches, the P4 proxy exactly for a Mininet
    whose loaded switches are all bmv2.  It reports the counts of the first poll and those that differ from
    the last ones reported, and sleeps 5 s in the first 90 s and 30 s after. *)
Theorem monitor_run mode ryu p4 file hs m ps :
  runMonitor mode p4 file hs {| mo_topology := newTopology ryu; mo_commands := [] |} = Ret (m, ps) ->
  exists t, loadStaticTopologyFromFile mode file (newTopology ryu) = (t, Ret tt) /\
    evolves sameV sameE (m_graph t) (m_graph (mo_topology m)) /\
    Forall (fun c => c ∈ topologyRequests (owner mode ryu p4 t)) (mo_commands m) /\
    reported <$> ps = reportsMoves None
      (pollCounts hs {| mo_topology := configureTopologyApiUrls mode p4 (initializeMappingsFromGraph t); mo_commands := [] |}) /\
    interval <$> ps =
      omap (fun h => match h with PollEnds e => Some (if bool_decide (e < 90) then 5 else 30) | Meanwhile _ => None end) hs.
Proof.
  unfold runMonitor. cbn [mo_topology]. pose proof (load_urls mode file (newTopology ryu)) as Hu.
  destruct (loadStaticTopologyFromFile mode file (newTopology ryu)) as [t [[]|]]; [|done]. cbn [fst] in Hu.
  destruct (initializeMappings_keeps t) as (Hg & Hu' & Hk).
  set (t1 := configureTopologyApiUrls mode p4 (initializeMappingsFromGraph t)). intros E.
  assert (m_graph t1 = m_graph t) as Hg1. { rewrite <- Hg. unfold t1, configureTopologyApiUrls. by repeat case_match. }
  assert (getCommand <$> m_ryuUrl t1 = topologyRequests (owner mode ryu p4 t)) as Hu1.
  { unfold t1, owner, topologyRequests. rewrite configure_urls.
    rewrite (bool_decide_ext _ (mode = MININET /\ allOfKind BMV2 t)) by (unfold allOfKind; by rewrite Hk).
    case_bool_decide; [done|]. by rewrite Hu', Hu. }
  destruct (m_ryuUrl t1) as [|u0 [|u1 [|u2 [|]]]] eqn:Eu; try done.
  pose proof (pollLoop_network hs (graphLivenessSummary t1) true {| mo_topology := t1; mo_commands := [] |} u0 u1 u2 Eu) as Hl.
  unfold set_monitored in E. cbn [mo_commands] in E. fold t1 in E. injection E as E. rewrite E in Hl.
  destruct Hl as ((Hn & _) & (cs & Hc & Hin) & Hr & Hi). exists t. split; [done|]. cbn in Hn, Hc. subst cs.
  split; [by rewrite <- Hg1|]. split; [by rewrite <- Hu1|]. by split.
Qed.
End Run.

(** * Samples *)

(** A Mininet of one bmv2 switch and its host. *)
Definition monitorNode (type dpid m : Z) (addr name : string) : json := JObject [
  ("vertex_type", JUnsigned type); ("mac", JUnsigned m); ("ip", JArray [JString addr]); ("dpid", JUnsigned dpid);
  ("device_name", JString name); ("nickname", JString name); ("brand_name", JString "bmv2"); ("switch_kind", JString "bmv2");
  ("device_layer", JUnsigned 1); ("bridge_name", JString name)].
Definition monitorFile : json :=
  JObject [("nodes", JArray [monitorNode 0 1 11 "192.168.1.1" "s1"; monitorNode 1 0 21 "10.0.0.9" "h9"]); ("edges", JArray [])].

(** The proxy knows the switch, after a first round in which it cannot be asked for its links. *)
Definition monitorText : JsonText := {|
  dump := fun _ => Ret "{}";
  parse := fun s => if bool_decide (s = "switches") then Ret (JArray [JObject [("dpid", JString "0000000000000001")]]) else Ret (JArray []) |}.
Definition monitorShell : Shell := {|
  execCommand := fun h cmd => if bool_decide (length h = 2%nat) then Throw RuntimeError
    else Ret (if bool_decide (cmd = getCommand "http://p4:8081/v1.0/topology/switches") then "switches" else "") |}.

Definition monitorTrace : list Happening :=
  [PollEnds 1; PollEnds 7; Meanwhile (OpDisableSwitch 1); PollEnds 12; Meanwhile (OpVertexDown 0); PollEnds 95].

Definition sampleMonitor : outcome (Monitor * list Polled) :=
  @runMonitor monitorText monitorShell MININET "p4:8081" (Some (Some monitorFile)) monitorTrace
    {| mo_topology := newTopology "ryu:8080"; mo_commands := [] |}.

Definition monitored : Monitor * list Polled :=
  match sampleMonitor with Ret r => r | Throw _ => ({| mo_topology := newTopology ""; mo_commands := [] |}, []) end.

Lemma monitor_run_witness :
  length (mo_commands monitored.1) = 12%nat /\ Forall (fun c => c ∈ topologyRequests "p4:8081") (mo_commands monitored.1) /\
  reported <$> monitored.2 = [Some (0, 0, 0); Some (1, 0, 0); None; None]%nat.
Proof.
  destruct (@monitor_run monitorText monitorShell MININET "ryu:8080" "p4:8081" (Some (Some monitorFile)) monitorTrace monitored.1 monitored.2)
    as (t & Ht & _ & Hf & _ & _); [by vm_compute|].
  split; [by vm_compute|]. split; [|by vm_compute].
  replace (owner MININET "ryu:8080" "p4:8081" t) with "p4:8081" in Hf; [done|].
  unfold owner. rewrite bool_decide_true; [done|]. split; [done|]. vm_compute in Ht. injection Ht as <-.
  apply (bool_decide_unpack _). by vm_compute.
Defined.
