(* ===== verification/FlowTableCache.v ===== *)
(** The cached flow tables of the switches (src/ndt_core/power_management/
    DeviceConfigurationAndPowerManager.cpp: [updateOpenFlowTables], [classifyFlowStatsReply],
    [fetchOpenFlowTablesInternal], [openflowTablesUpdateWorker]).

    The cache is the array that is served to clients: one entry per switch, with the reply of the
    control plane under "flows".  It is replaced by every poll and edited by every flow request in
    between.  An edit that throws leaves what it has changed so far. *)

From Stdlib Require Import Ascii.
From S2P Require Import Prelude CStrings Bytes Json ClassifierKey GraphTypes.
Local Open Scope string_scope.
Local Open Scope list_scope.
Local Open Scope Z_scope.

(** An element of [m_cachedOpenFlowTables]. *)
Record SwitchTable := { t_dpid : Z; t_flows : json }.

(** * Flow identities *)

Definition parseIpv4U32 (v : json) : outcome Z :=
  if is_number_unsigned v || is_number_integer v then get_u32 v
  else
    match v with
    | JString s => match inet_pton s with Some octets => Ret (be_value octets) | None => Throw RuntimeError end
    | _ => Throw RuntimeError
    end.

Definition optionalIp (match_ : json) (k : string) : outcome Z :=
  if contains match_ k then let! v := jat match_ k in parseIpv4U32 v else Ret 0.

Definition extractPorts (proto : Z) (match_ : json) : outcome (Z * Z) :=
  if bool_decide (proto = 6) then
    let! d := jvalue get_i32 match_ "tcp_dst" 0 in
    let! s := jvalue get_i32 match_ "tcp_src" 0 in Ret (u16 d, u16 s)
  else if bool_decide (proto = 17) then
    let! d := jvalue get_i32 match_ "udp_dst" 0 in
    let! s := jvalue get_i32 match_ "udp_src" 0 in Ret (u16 d, u16 s)
  else Ret (0, 0).

Definition extractKey (e : json) : outcome (Z * Z * FlowKey) :=
  let! tableId := jvalue get_i32 e "table_id" 0 in
  let! priority := jvalue get_i32 e "priority" 0 in
  let match_ := default (JObject []) (jfind e "match") in
  let! eth := jvalue get_i32 match_ "eth_type" 0 in
  let! proto := jvalue get_i32 match_ "ip_proto" 0 in
  let! dst := optionalIp match_ "ipv4_dst" in
  let! src := optionalIp match_ "ipv4_src" in
  let! ports := extractPorts (u8 proto) match_ in
  Ret (tableId, priority,
       {| inPort := 0; ethType := u16 eth; ipProto := u8 proto; ipv4Src := src; ipv4Dst := dst;
          tpSrc := ports.2; tpDst := ports.1; vlanTci := 0; metadata := 0 |}).

(** [extractKey(f) == key]. *)
Definition hasKey (key : Z * Z * FlowKey) (f : json) : outcome bool :=
  let! k := extractKey f in Ret (bool_decide (k = key)).

(** * The array of one switch *)

(** [flows[k]] on a mutable value, and writing through the reference it gives. *)
Definition slot (k : string) (flows : json) : outcome json :=
  match flows with
  | JObject l => Ret (default JNull (assoc k l))
  | JNull => Ret JNull
  | _ => Throw JsonTypeError
  end.

(** [getFlowsArrayForDpid] together with what the caller does to the array it points to.
    [isSwitch] is [findSwitchByDpid(dpid).has_value()]. *)
Definition withFlows (isSwitch : Z -> bool) (dpid : Z) (edit : run json unit) : run (list SwitchTable) unit := fun cache =>
  let k := std_to_string dpid in
  match list_find (fun sw => t_dpid sw = dpid) cache with
  | Some (i, sw) =>
      match slot k (t_flows sw) with
      | Throw x => (cache, Throw x)
      | Ret v =>
          let '(v, r) := edit v in
          (<[i := {| t_dpid := t_dpid sw; t_flows := setSlot k v (t_flows sw) |}]> cache, r)
      end
  | None =>
      if isSwitch dpid then
        let '(v, r) := edit (JArray []) in
        (cache ++ [{| t_dpid := dpid; t_flows := JObject [(k, v)] |}], r)
      else (cache, Ret tt)
  end.

(** [push_back]: null becomes an array. *)
Definition pushBack (x : json) : run json unit := fun v =>
  match v with
  | JNull => (JArray [x], Ret tt)
  | JArray l => (JArray (l ++ [x]), Ret tt)
  | _ => (v, Throw JsonTypeError)
  end.

Definition newFlow (e : json) : outcome json :=
  let! p := jvalue get_i32 e "priority" 0 in
  let! m := jvalue Ret e "match" (JObject []) in
  let! a := jvalue Ret e "actions" (JArray []) in
  let! t := jvalue get_i32 e "table_id" 0 in
  Ret (JObject [("priority", JInteger p); ("match", m); ("actions", a); ("table_id", JInteger t)]).

Definition installOne (isSwitch : Z -> bool) (e : json) : run (list SwitchTable) unit := fun cache =>
  match jfield get_u64 e "dpid" with
  | Throw x => (cache, Throw x)
  | Ret dpid =>
      withFlows isSwitch dpid (fun v => match newFlow e with Throw x => (v, Throw x) | Ret f => pushBack f v end) cache
  end.

(** The fields a modification overwrites in the flow it finds. *)
Definition overwrite (e f : json) : outcome json :=
  let! p := jvalue get_i32 e "priority" 0 in
  let! m := jvalue Ret e "match" (JObject []) in
  let! a := jvalue Ret e "actions" (JArray []) in
  match f with
  | JObject l => Ret (JObject (assocSet "actions" a (assocSet "match" m (assocSet "priority" (JInteger p) l))))
  | _ => Throw JsonTypeError
  end.

(** The loop over the flows, up to the first one that has the key. *)
Fixpoint modifyFirst (key : Z * Z * FlowKey) (e : json) (l : list json) : outcome (list json) :=
  match l with
  | [] => Ret []
  | f :: l =>
      let! found := hasKey key f in
      if found then let! f := overwrite e f in Ret (f :: l)
      else let! l := modifyFirst key e l in Ret (f :: l)
  end.

Definition modifyOne (isSwitch : Z -> bool) (e : json) : run (list SwitchTable) unit := fun cache =>
  match (let! dpid := jfield get_u64 e "dpid" in let! key := extractKey e in Ret (dpid, key)) with
  | Throw x => (cache, Throw x)
  | Ret (dpid, key) =>
      withFlows isSwitch dpid (fun v =>
        match modifyFirst key e (jiter v) with
        | Ret l => (withElems v l, Ret tt)
        | Throw x => (v, Throw x)
        end) cache
  end.

(** [std::remove_if] with a predicate that may throw: elements that stay are moved to the front,
    which leaves null where they were.  [i] is the element looked at and [r] the next one to
    overwrite; up to the first removed element they are equal. *)
Fixpoint removeLoop (p : json -> outcome bool) (n : nat) (l : list json) (r i : nat) : list json * outcome nat :=
  match n with
  | O => (l, Ret r)
  | S n =>
      match p (default JNull (l !! i)) with
      | Throw x => (l, Throw x)
      | Ret true => removeLoop p n l r (S i)
      | Ret false =>
          let l := if decide (r = i) then l else <[i := JNull]> (<[r := default JNull (l !! i)]> l) in
          removeLoop p n l (S r) (S i)
      end
  end.

(** [remove_if] and [erase] of what it left behind; [erase] refuses null. *)
Definition removeFlows (key : Z * Z * FlowKey) : run json unit := fun v =>
  let l := jiter v in
  match removeLoop (hasKey key) (length l) l 0 0 with
  | (l, Throw x) => (withElems v l, Throw x)
  | (l, Ret r) =>
      match v with
      | JNull => (v, Throw JsonTypeError)
      | _ => (withElems v (take r l), Ret tt)
      end
  end.

Definition deleteOne (isSwitch : Z -> bool) (e : json) : run (list SwitchTable) unit := fun cache =>
  match (let! dpid := jfield get_u64 e "dpid" in let! key := extractKey e in Ret (dpid, key)) with
  | Throw x => (cache, Throw x)
  | Ret (dpid, key) => withFlows isSwitch dpid (removeFlows key) cache
  end.

(** A loop that stops at the first exception. *)
Fixpoint forEach {S} (f : json -> run S unit) (l : list json) : run S unit := fun s =>
  match l with
  | [] => (s, Ret tt)
  | e :: l => match f e s with (s, Ret _) => forEach f l s | (s, Throw x) => (s, Throw x) end
  end.

Definition andThen {S} (c k : run S unit) : run S unit := fun s =>
  match c s with (s, Ret _) => k s | (s, Throw x) => (s, Throw x) end.

Definition updateOpenFlowTables (isSwitch : Z -> bool) (j : json) : run (list SwitchTable) unit := fun cache =>
  match (let! ins := jvalue Ret j "install_flow_entries" (JArray []) in
         let! mods := jvalue Ret j "modify_flow_entries" (JArray []) in
         let! dels := jvalue Ret j "delete_flow_entries" (JArray []) in Ret (ins, mods, dels)) with
  | Throw x => (cache, Throw x)
  | Ret (ins, mods, dels) =>
      andThen (forEach (installOne isSwitch) (jiter ins))
        (andThen (forEach (modifyOne isSwitch) (jiter mods))
           (forEach (deleteOne isSwitch) (jiter dels))) cache
  end.

(** * What the cache means *)

Definition flowsOf (sw : SwitchTable) : list json :=
  match slot (std_to_string (t_dpid sw)) (t_flows sw) with Ret (JArray l) => l | _ => [] end.

Definition tablesOf (cache : list SwitchTable) : gmap Z (list json) :=
  list_to_map ((fun sw => (t_dpid sw, flowsOf sw)) <$> cache).

(** A flow whose identity can be read. *)
Definition readable (f : json) : Prop := is_ret (extractKey f) = true.

Definition wfTable (sw : SwitchTable) : Prop :=
  exists kv l, t_flows sw = JObject kv /\ assoc (std_to_string (t_dpid sw)) kv = Some (JArray l) /\ Forall readable l.

Definition wfCache (cache : list SwitchTable) : Prop := NoDup (t_dpid <$> cache) /\ Forall wfTable cache.

(** The intended effect of an edit [g] of the flows of one switch: switches of the topology that have
    no table yet start with an empty one, other unknown switches are ignored. *)
Definition touch (isSwitch : Z -> bool) (d : Z) (g : list json -> list json) (m : gmap Z (list json)) : gmap Z (list json) :=
  match m !! d with
  | Some l => <[d := g l]> m
  | None => if isSwitch d then <[d := g []]> m else m
  end.

Definition sameKey (e f : json) : bool := bool_decide (extractKey f = extractKey e).

(** The entry a request describes: its switch, and the flow it would store. *)
Definition entryDpid (e : json) : Z := catch (jfield get_u64 e "dpid") 0.
Definition entryFlow (e : json) : json := catch (newFlow e) JNull.

(** The first flow with the key gets the new fields. *)
Fixpoint modifySpec (e : json) (l : list json) : list json :=
  match l with
  | [] => []
  | f :: l => if sameKey e f then catch (overwrite e f) f :: l else f :: modifySpec e l
  end.

Definition installSpec (isSwitch : Z -> bool) (m : gmap Z (list json)) (e : json) : gmap Z (list json) :=
  touch isSwitch (entryDpid e) (fun l => l ++ [entryFlow e]) m.
Definition modifyTables (isSwitch : Z -> bool) (m : gmap Z (list json)) (e : json) : gmap Z (list json) :=
  touch isSwitch (entryDpid e) (modifySpec e) m.
Definition deleteSpec (isSwitch : Z -> bool) (m : gmap Z (list json)) (e : json) : gmap Z (list json) :=
  touch isSwitch (entryDpid e) (filter (fun f => sameKey e f = false)) m.

(** * Identities survive storing *)

Lemma jvalue_ret {A} (get : json -> outcome A) j k d v :
  jvalue get j k d = Ret v -> exists l, j = JObject l /\ match assoc k l with Some x => get x = Ret v | None => v = d end.
Proof. destruct j as [| | | | | | |l]; cbn; try done. intros E. exists l. split; [done|]. by destruct (assoc k l); simplify_eq. Qed.

Lemma jvalue_i32_range j k v : jvalue get_i32 j k 0 = Ret v -> - 2 ^ 31 <= v < 2 ^ 31.
Proof. intros (l & -> & E)%jvalue_ret. destruct (assoc k l); [by eapply get_i32_range|lia]. Qed.

Lemma extractKey_object f : readable f -> exists l, f = JObject l.
Proof. unfold readable. by destruct f as [| | | | | | |l]; eauto. Qed.

(** The identity depends on the fields a stored flow keeps. *)
Lemma extractKey_fields l t p m :
  assoc "table_id" l = Some (JInteger t) -> assoc "priority" l = Some (JInteger p) -> assoc "match" l = Some m ->
  - 2 ^ 31 <= t < 2 ^ 31 -> - 2 ^ 31 <= p < 2 ^ 31 ->
  extractKey (JObject l) = extractKey (JObject [("table_id", JInteger t); ("priority", JInteger p); ("match", m)]).
Proof. intros Ht Hp Hm ??. unfold extractKey, jvalue, jfind. rewrite Ht, Hp, Hm. keys. done. Qed.

Lemma extractKey_eq e t p m :
  jvalue get_i32 e "table_id" 0 = Ret t -> jvalue get_i32 e "priority" 0 = Ret p -> jvalue Ret e "match" (JObject []) = Ret m ->
  extractKey e = extractKey (JObject [("table_id", JInteger t); ("priority", JInteger p); ("match", m)]).
Proof.
  intros Ht Hp Hm. pose proof (jvalue_i32_range _ _ _ Ht) as Hrt. pose proof (jvalue_i32_range _ _ _ Hp) as Hrp.
  unfold extractKey. rewrite Ht, Hp. keys. unfold get_i32, get_arith. rewrite !i32_id by done. cbn.
  apply jvalue_ret in Hm as (l & -> & Hm). cbn. by destruct (assoc "match" l); simplify_eq/=.
Qed.

(** A readable entry has every field a stored flow needs. *)
Lemma readable_fields e :
  readable e -> exists t p m a, jvalue get_i32 e "table_id" 0 = Ret t /\ jvalue get_i32 e "priority" 0 = Ret p /\
    jvalue Ret e "match" (JObject []) = Ret m /\ jvalue Ret e "actions" (JArray []) = Ret a.
Proof.
  intros Hr. destruct (extractKey_object e Hr) as [l ->]. unfold readable, extractKey in Hr.
  destruct (jvalue get_i32 (JObject l) "table_id" 0) as [t|] eqn:Ht; [|done]. cbn [obind] in Hr.
  destruct (jvalue get_i32 (JObject l) "priority" 0) as [p|] eqn:Hp; [|done].
  cbn [jvalue]. destruct (assoc "match" l), (assoc "actions" l); naive_solver.
Qed.

Lemma newFlow_key e : readable e -> newFlow e = Ret (entryFlow e) /\ extractKey (entryFlow e) = extractKey e.
Proof.
  intros Hr. destruct (readable_fields e Hr) as (t & p & m & a & Ht & Hp & Hm & Ha). unfold entryFlow, newFlow.
  rewrite Ht, Hp, Hm, Ha. cbn [obind catch]. split; [done|]. rewrite (extractKey_eq e t p m) by done.
  apply extractKey_fields; [by keys..| |]; by eapply jvalue_i32_range.
Qed.

Lemma extractKey_table f k : extractKey f = Ret k -> jvalue get_i32 f "table_id" 0 = Ret k.1.1.
Proof.
  unfold extractKey. intros (t & Ht & H)%obind_ret. rewrite Ht. f_equal. symmetry. revert H.
  intros (p & _ & (e & _ & (pr & _ & (d & _ & (s & _ & (ps & _ & [= <-])%obind_ret)%obind_ret)%obind_ret)%obind_ret)%obind_ret)%obind_ret.
  done.
Qed.

Lemma overwrite_key e f :
  readable e -> extractKey f = extractKey e -> overwrite e f = Ret (catch (overwrite e f) f) /\
  extractKey (catch (overwrite e f) f) = extractKey e.
Proof.
  intros Hr Hk. destruct (readable_fields e Hr) as (t & p & m & a & Ht & Hp & Hm & Ha).
  destruct (extractKey_object f) as [l ->]; [unfold readable; by rewrite Hk|].
  unfold overwrite. rewrite Hp, Hm, Ha. cbn [obind catch]. split; [done|].
  unfold readable in Hr. destruct (extractKey e) as [k|] eqn:He; [|done].
  assert (k.1.1 = t) as Hkt by (apply extractKey_table in He; congruence).
  rewrite <- He, (extractKey_eq e t p m) by done. apply extractKey_eq.
  - cbn [jvalue]. rewrite !assocSet_other by done. change (jvalue get_i32 (JObject l) "table_id" 0 = Ret t).
    rewrite <- Hkt. by apply extractKey_table.
  - cbn [jvalue]. rewrite !assocSet_other by done. rewrite assocSet_same. unfold get_i32, get_arith.
    by rewrite i32_id by (by eapply jvalue_i32_range).
  - cbn [jvalue]. rewrite assocSet_other by done. by rewrite assocSet_same.
Qed.

Lemma hasKey_readable e f k : extractKey e = Ret k -> readable f -> hasKey k f = Ret (sameKey e f).
Proof.
  intros He Hf. unfold readable in Hf. unfold hasKey, sameKey. rewrite He. destruct (extractKey f) as [k'|]; [|done]. cbn.
  f_equal. apply bool_decide_ext. split; [by intros ->|by intros [= ->]].
Qed.

Lemma modifyFirst_spec e k l :
  extractKey e = Ret k -> Forall readable l -> modifyFirst k e l = Ret (modifySpec e l) /\ Forall readable (modifySpec e l).
Proof.
  intros He Hl. induction Hl as [|f l Hf Hl [IH1 IH2]]; [done|]. cbn. rewrite (hasKey_readable e) by done. cbn [obind].
  destruct (sameKey e f) eqn:E.
  - unfold sameKey in E. apply bool_decide_eq_true in E.
    destruct (overwrite_key e f) as [Ho Hk]; [by unfold readable; rewrite He|done|].
    rewrite Ho. cbn [obind catch]. split; [done|]. constructor; [|done]. unfold readable. by rewrite Hk, He.
  - rewrite IH1. by split; [|constructor].
Qed.

(** The invariant of [remove_if]: the kept flows are in front, the rest is not touched yet. *)
Lemma removeLoop_inv p b l n cur r i :
  (forall f, f ∈ l -> p f = Ret (b f)) -> (i + n)%nat = length l -> (r <= i)%nat -> length cur = length l ->
  take r cur = filter (fun f => b f = false) (take i l) -> drop i cur = drop i l ->
  exists cur' r', removeLoop p n cur r i = (cur', Ret r') /\ take r' cur' = filter (fun f => b f = false) l.
Proof.
  intros Hp. revert cur r i. induction n as [|n IH]; intros cur r i Hn Hri Hlen Hfront Hback; cbn.
  - exists cur, r. split; [done|]. by rewrite Hfront, take_ge by lia.
  - assert (cur !! i = l !! i) as Hci.
    { rewrite <- (Nat.add_0_r i), <- !lookup_drop. by rewrite Hback. }
    destruct (lookup_lt_is_Some_2 l i) as [f Hf]; [lia|]. rewrite Hci, Hf. cbn [from_option]. change (id f) with f.
    rewrite Hp by (by eapply list_elem_of_lookup_2).
    assert (take (S i) l = take i l ++ [f]) as Htake by (by apply take_S_r).
    assert (drop (S i) cur = drop (S i) l) as Hb'.
    { replace (S i) with (i + 1)%nat by lia. rewrite <- !drop_drop. by rewrite Hback. }
    destruct (b f) eqn:Eb.
    + apply IH; [lia|lia|done| |done]. rewrite Htake, filter_app, filter_cons, decide_False, filter_nil, app_nil_r by congruence. done.
    + apply IH; [lia|lia| | |].
      * case_decide; by rewrite ?length_insert.
      * assert (filter (fun f => b f = false) (take (S i) l) = take r cur ++ [f]) as ->.
        { by rewrite Htake, filter_app, filter_cons, decide_True, filter_nil, Hfront. }
        case_decide as E; [subst; by apply take_S_r; rewrite Hci|].
        rewrite take_insert_ge by lia. rewrite (take_S_r _ _ f); [by rewrite take_insert_ge by lia|].
        apply list_lookup_insert_eq. lia.
      * case_decide; [done|]. by rewrite drop_insert_lt, drop_insert_lt by lia.
Qed.

Lemma removeFlows_spec e k l :
  extractKey e = Ret k -> Forall readable l ->
  removeFlows k (JArray l) = (JArray (filter (fun f => sameKey e f = false) l), Ret tt) /\
  Forall readable (filter (fun f => sameKey e f = false) l).
Proof.
  intros He Hl. split; [|rewrite Forall_forall in Hl |- *; intros f [_ Hf]%list_elem_of_filter; by apply Hl].
  unfold removeFlows. cbn [jiter]. rewrite Forall_forall in Hl.
  destruct (removeLoop_inv (hasKey k) (sameKey e) l (length l) l 0 0) as (cur & r & -> & Ht); try done.
  { intros f Hf. apply hasKey_readable; [done|by apply Hl]. }
  cbn. by rewrite Ht.
Qed.

(** * Edits refine the maps *)

Lemma wfTable_flows sw :
  wfTable sw -> slot (std_to_string (t_dpid sw)) (t_flows sw) = Ret (JArray (flowsOf sw)) /\ Forall readable (flowsOf sw).
Proof. intros (kv & l & Hj & Ha & Hl). unfold flowsOf, slot. rewrite Hj, Ha. done. Qed.

Lemma setSlot_table sw l :
  Forall readable l -> wfTable sw ->
  let sw' := {| t_dpid := t_dpid sw; t_flows := setSlot (std_to_string (t_dpid sw)) (JArray l) (t_flows sw) |} in
  wfTable sw' /\ flowsOf sw' = l.
Proof.
  intros Hl (kv & l0 & Hj & _ & _). cbn. rewrite Hj. split.
  - eexists _, l. cbn. split; [done|]. by rewrite assocSet_same.
  - unfold flowsOf. cbn. by rewrite assocSet_same.
Qed.

Lemma tablesOf_lookup cache sw : NoDup (t_dpid <$> cache) -> sw ∈ cache -> tablesOf cache !! t_dpid sw = Some (flowsOf sw).
Proof.
  intros Hn Hs. apply elem_of_list_to_map_1.
  - by rewrite <- list_fmap_compose.
  - by apply (list_elem_of_fmap_2 (fun sw => (t_dpid sw, flowsOf sw))).
Qed.

Lemma tablesOf_None cache d : d ∉ t_dpid <$> cache -> tablesOf cache !! d = None.
Proof. intros H. apply not_elem_of_list_to_map_1. by rewrite <- list_fmap_compose. Qed.

Lemma tablesOf_insert cache i sw sw' :
  cache !! i = Some sw -> t_dpid sw' = t_dpid sw -> NoDup (t_dpid <$> cache) ->
  tablesOf (<[i := sw']> cache) = <[t_dpid sw := flowsOf sw']> (tablesOf cache).
Proof.
  intros Hi Hd Hn. rewrite (insert_take_drop _ _ _ (lookup_lt_Some _ _ _ Hi)).
  assert (tablesOf cache = tablesOf (take i cache ++ sw :: drop (S i) cache)) as -> by (by rewrite take_drop_middle).
  rewrite <- (take_drop_middle _ _ _ Hi), fmap_app in Hn. apply NoDup_app in Hn as (_ & Hdis & _). unfold tablesOf. rewrite !fmap_app, !list_to_map_app. cbn.
  assert ((list_to_map ((fun x => (t_dpid x, flowsOf x)) <$> take i cache) : gmap Z (list json)) !! t_dpid sw = None) as Hno.
  { apply (tablesOf_None (take i cache)). intros Hx. apply (Hdis _ Hx). cbn. left. }
  rewrite Hd. rewrite <- !insert_union_r by done. by rewrite insert_insert_eq.
Qed.

Lemma tablesOf_app cache sw :
  t_dpid sw ∉ t_dpid <$> cache -> tablesOf (cache ++ [sw]) = <[t_dpid sw := flowsOf sw]> (tablesOf cache).
Proof.
  intros Hn. unfold tablesOf. rewrite fmap_app, list_to_map_app. cbn.
  rewrite <- insert_union_r by (by apply (tablesOf_None cache)). by rewrite map_union_empty.
Qed.

Section Edits.
Context (isSwitch : Z -> bool).

Lemma withFlows_spec d edit g cache :
  wfCache cache ->
  (forall l, Forall readable l -> edit (JArray l) = (JArray (g l), Ret tt) /\ Forall readable (g l)) ->
  exists cache', withFlows isSwitch d edit cache = (cache', Ret tt) /\ wfCache cache' /\
    tablesOf cache' = touch isSwitch d g (tablesOf cache).
Proof.
  intros [Hn Hw] He. unfold withFlows, touch. destruct (list_find _ cache) as [[i sw]|] eqn:Hf.
  - apply list_find_Some in Hf as (Hi & Hd & _). pose proof (list_elem_of_lookup_2 _ _ _ Hi) as Hin.
    rewrite Forall_forall in Hw. pose proof (Hw _ Hin) as Hsw. destruct (wfTable_flows sw Hsw) as [Hs Hr].
    subst d. rewrite Hs. destruct (He _ Hr) as [-> Hr']. destruct (setSlot_table sw (g (flowsOf sw)) Hr' Hsw) as [Hsw' Hfl].
    eexists. split; [done|]. rewrite (tablesOf_lookup cache sw) by done. split; [split|].
    + rewrite list_fmap_insert. cbn. rewrite list_insert_id; [done|]. by rewrite list_lookup_fmap, Hi.
    + apply Forall_insert; [by apply Forall_forall|done].
    + by rewrite (tablesOf_insert cache i sw), Hfl.
  - apply list_find_None in Hf. assert (d ∉ t_dpid <$> cache) as Hno.
    { intros (x & -> & Hx)%list_elem_of_fmap. by rewrite Forall_forall in Hf; apply (Hf x). }
    rewrite tablesOf_None by done. destruct (isSwitch d).
    + destruct (He [] (Forall_nil_2 _)) as [-> Hr]. eexists. split; [done|]. split; [split|].
      * rewrite fmap_app. apply NoDup_app. split_and!; [done| |apply NoDup_singleton]. cbn. set_solver.
      * apply Forall_app. split; [done|]. constructor; [|done]. eexists _, (g []). split; [reflexivity|]. cbn. by rewrite bool_decide_true.
      * rewrite tablesOf_app by done. cbn. unfold flowsOf. cbn. by rewrite bool_decide_true.
    + by exists cache.
Qed.

(** A request entry with a readable switch and a readable identity. *)
Definition wfEntry (e : json) : Prop := is_ret (jfield get_u64 e "dpid") = true /\ readable e.

Lemma entryDpid_ret e : is_ret (jfield get_u64 e "dpid") = true -> jfield get_u64 e "dpid" = Ret (entryDpid e).
Proof. unfold entryDpid. by destruct (jfield get_u64 e "dpid"). Qed.

Definition refines (op : json -> run (list SwitchTable) unit) (spec : gmap Z (list json) -> json -> gmap Z (list json)) : Prop :=
  forall e cache, wfEntry e -> wfCache cache ->
    exists cache', op e cache = (cache', Ret tt) /\ wfCache cache' /\ tablesOf cache' = spec (tablesOf cache) e.

Lemma installOne_refines : refines (installOne isSwitch) (installSpec isSwitch).
Proof.
  intros e cache [Hd%entryDpid_ret Hr] Hc. unfold installOne. rewrite Hd. destruct (newFlow_key e Hr) as [Hf Hk].
  apply withFlows_spec; [done|]. intros l Hl. rewrite Hf. cbn. split; [done|]. apply Forall_app. split; [done|].
  constructor; [|done]. unfold readable. by rewrite Hk.
Qed.

Lemma modifyOne_refines : refines (modifyOne isSwitch) (modifyTables isSwitch).
Proof.
  intros e cache [Hd%entryDpid_ret Hr] Hc. unfold modifyOne. rewrite Hd. unfold readable in Hr.
  destruct (extractKey e) as [k|] eqn:Hk; [|done]. cbn [obind].
  apply withFlows_spec; [done|]. intros l Hl. cbn [jiter]. by destruct (modifyFirst_spec e k l Hk Hl) as [-> ?].
Qed.

Lemma deleteOne_refines : refines (deleteOne isSwitch) (deleteSpec isSwitch).
Proof.
  intros e cache [Hd%entryDpid_ret Hr] Hc. unfold deleteOne. rewrite Hd. unfold readable in Hr.
  destruct (extractKey e) as [k|] eqn:Hk; [|done]. cbn [obind].
  apply withFlows_spec; [done|]. intros l Hl. by apply removeFlows_spec.
Qed.

Lemma forEach_refines op spec l cache :
  refines op spec -> Forall wfEntry l -> wfCache cache ->
  exists cache', forEach op l cache = (cache', Ret tt) /\ wfCache cache' /\ tablesOf cache' = foldl spec (tablesOf cache) l.
Proof.
  intros Hop Hl. revert cache. induction Hl as [|e l He _ IH]; intros cache Hc; cbn; [by exists cache|].
  destruct (Hop e cache He Hc) as (c1 & -> & Hc1 & Ht1). destruct (IH c1 Hc1) as (c2 & -> & Hc2 & Ht2).
  exists c2. by rewrite Ht2, Ht1.
Qed.

(** The entries of a batch under a key. *)
Definition batchEntries (j : json) (k : string) : list json := jiter (catch (jvalue Ret j k (JArray [])) (JArray [])).


End Edits.

(** * Unreadable flows *)

Lemma removeLoop_throws p l n cur r i :
  (i + n)%nat = length l -> (r <= i)%nat -> length cur = length l -> drop i cur = drop i l ->
  Exists (fun f => is_ret (p f) = false) (drop i l) ->
  exists cur' x, removeLoop p n cur r i = (cur', Throw x) /\ length cur' = length l.
Proof.
  revert cur r i. induction n as [|n IH]; intros cur r i Hn Hri Hlen Hback Hx.
  - rewrite drop_ge in Hx by lia. by apply Exists_nil in Hx.
  - cbn. destruct (lookup_lt_is_Some_2 l i) as [f Hf]; [lia|].
    assert (cur !! i = Some f) as -> by (by rewrite <- Hf, <- (Nat.add_0_r i), <- !lookup_drop, Hback).
    cbn [from_option]. change (id f) with f. rewrite (drop_S _ _ _ Hf) in Hx.
    assert (drop (S i) cur = drop (S i) l) as Hb'.
    { replace (S i) with (i + 1)%nat by lia. rewrite <- !drop_drop. by rewrite Hback. }
    destruct (p f) as [[]|x] eqn:E; [| |by eauto]; apply Exists_cons in Hx as [Hx|Hx]; rewrite ?E in Hx; try done.
    + apply IH; auto with lia.
    + apply IH; [lia|lia| | |done].
      * case_decide; by rewrite ?length_insert.
      * case_decide; [done|]. by rewrite drop_insert_lt, drop_insert_lt by lia.
Qed.

(** One stored flow whose identity cannot be read, such as one that was installed with a
    masked address, makes every deletion on its switch throw; the request that caused it
    has then already been enqueued for the switch. *)
Theorem unreadable_flow_blocks_deletes isSwitch e cache i sw kv l f :
  wfEntry e -> list_find (fun sw => t_dpid sw = entryDpid e) cache = Some (i, sw) ->
  t_flows sw = JObject kv -> assoc (std_to_string (entryDpid e)) kv = Some (JArray l) ->
  f ∈ l -> ~ readable f ->
  exists cache' x, deleteOne isSwitch e cache = (cache', Throw x).
Proof.
  intros [Hd%entryDpid_ret Hr] Hfind Hj Ha Hf Hu. unfold deleteOne. rewrite Hd. unfold readable in Hr.
  destruct (extractKey e) as [k|] eqn:Hk; [|done]. cbn [obind]. unfold withFlows. rewrite Hfind, Hj. cbn [slot]. rewrite Ha.
  cbn [from_option]. change (id (JArray l)) with (JArray l). unfold removeFlows. cbn [jiter].
  destruct (removeLoop_throws (hasKey k) l (length l) l 0 0) as (cur & x & -> & _); try done; [|eauto].
  apply Exists_exists. exists f. split; [done|]. unfold hasKey. unfold readable in Hu. by destruct (extractKey f).
Qed.

(** A match that uses none of the names [extractKey] reads, as the matches do that the control planes
    report and the translator builds ("nw_dst", "dl_type", ...). *)
Definition legacyMatch (m : list (string * json)) : Prop :=
  Forall (fun k => assoc k m = None) ["eth_type"; "ip_proto"; "ipv4_dst"; "ipv4_src"].

Lemma legacy_key l t p m :
  jvalue get_i32 (JObject l) "table_id" 0 = Ret t -> jvalue get_i32 (JObject l) "priority" 0 = Ret p ->
  assoc "match" l = Some (JObject m) -> legacyMatch m -> extractKey (JObject l) = Ret (t, p, emptyFlowKey).
Proof.
  intros Ht Hp Hm Hl. unfold extractKey. rewrite Ht, Hp. unfold jfind. rewrite Hm. cbn [obind from_option]. change (id (JObject m)) with (JObject m).
  unfold legacyMatch in Hl. rewrite !Forall_cons in Hl. destruct Hl as (H1 & H2 & H3 & H4 & _).
  unfold jvalue, optionalIp, contains, jfind. rewrite H1, H2, H3, H4. reflexivity.
Qed.

(** Flows that name their match fields the way the control planes report them are told apart by
    table and priority only: a deletion with such a match takes every such flow of that table and
    priority out of the served table, whatever its addresses are. *)
Theorem legacy_names_delete_all isSwitch e cache i sw le t p me :
  wfCache cache -> e = JObject le -> is_ret (jfield get_u64 e "dpid") = true ->
  jvalue get_i32 e "table_id" 0 = Ret t -> jvalue get_i32 e "priority" 0 = Ret p ->
  assoc "match" le = Some (JObject me) -> legacyMatch me ->
  list_find (fun sw => t_dpid sw = entryDpid e) cache = Some (i, sw) ->
  exists cache' l', deleteOne isSwitch e cache = (cache', Ret tt) /\ tablesOf cache' !! entryDpid e = Some l' /\
    forall lf mf, jvalue get_i32 (JObject lf) "table_id" 0 = Ret t -> jvalue get_i32 (JObject lf) "priority" 0 = Ret p ->
      assoc "match" lf = Some (JObject mf) -> legacyMatch mf -> JObject lf ∉ l'.
Proof.
  intros Hc -> Hd Ht Hp Hm Hleg Hfind.
  pose proof (legacy_key le t p me Ht Hp Hm Hleg) as Hk.
  destruct (deleteOne_refines isSwitch (JObject le) cache) as (c & Hdel & _ & Htab); [split; [done|by unfold readable; rewrite Hk]|done|].
  apply list_find_Some in Hfind as (Hi & Hsw & _).
  assert (tablesOf cache !! entryDpid (JObject le) = Some (flowsOf sw)) as Hlook.
  { rewrite <- Hsw. apply tablesOf_lookup; [apply Hc|by eapply list_elem_of_lookup_2]. }
  exists c, (filter (fun f => sameKey (JObject le) f = false) (flowsOf sw)). split; [done|]. split.
  - rewrite Htab. unfold deleteSpec, touch. rewrite Hlook. by rewrite lookup_insert_eq.
  - intros lf mf Htf Hpf Hmf Hlf [Hn _]%list_elem_of_filter.
    pose proof (legacy_key lf t p mf Htf Hpf Hmf Hlf) as Hkf. unfold sameKey in Hn. rewrite Hk, Hkf in Hn.
    by rewrite bool_decide_true in Hn.
Qed.

(** * Samples *)

Definition sampleFlow (dst : string) (prio : Z) : json :=
  JObject [("priority", JInteger prio); ("match", JObject [("ipv4_dst", JString dst)]); ("actions", JArray []);
           ("table_id", JInteger 0)].

Definition sampleEntry (id : Z) (dst : string) (prio : Z) : json :=
  JObject [("dpid", JUnsigned id); ("priority", JUnsigned prio); ("match", JObject [("ipv4_dst", JString dst)])].

Definition sampleCache (l : list json) : list SwitchTable := [{| t_dpid := 1; t_flows := JObject [("1", JArray l)] |}].


(** The deletion has moved the second flow before it met the third. *)
Definition maskedFlows : list json := [sampleFlow "10.0.0.1" 5; sampleFlow "10.0.0.2" 5; sampleFlow "10.0.0.0/255.255.255.0" 5].

Lemma unreadable_flow_blocks_deletes_witness :
  (exists cache' x, deleteOne (fun _ => true) (sampleEntry 1 "10.0.0.1" 5) (sampleCache maskedFlows) = (cache', Throw x)) /\
  tablesOf (deleteOne (fun _ => true) (sampleEntry 1 "10.0.0.1" 5) (sampleCache maskedFlows)).1 !! 1 =
    Some [sampleFlow "10.0.0.2" 5; JNull; sampleFlow "10.0.0.0/255.255.255.0" 5].
Proof.
  split; [|vm_compute; reflexivity].
  apply (unreadable_flow_blocks_deletes (fun _ => true) (sampleEntry 1 "10.0.0.1" 5) (sampleCache maskedFlows) 0
    {| t_dpid := 1; t_flows := JObject [("1", JArray maskedFlows)] |} [("1", JArray maskedFlows)] maskedFlows
    (sampleFlow "10.0.0.0/255.255.255.0" 5)); [split; reflexivity|reflexivity|reflexivity|reflexivity| |].
  - do 2 right. left.
  - intros H. vm_compute in H. discriminate H.
Defined.

Definition polledFlow (dst : string) : json :=
  JObject [("priority", JUnsigned 5); ("table_id", JUnsigned 0); ("match", JObject [("dl_type", JUnsigned 2048); ("nw_dst", JString dst)])].

Definition legacyEntry : list (string * json) :=
  [("dpid", JUnsigned 1); ("priority", JUnsigned 5); ("match", JObject [("nw_dst", JString "10.0.0.1")])].

(** The rule for 10.0.0.2 disappears with the one for 10.0.0.1. *)
Lemma legacy_names_delete_all_witness :
  exists cache', deleteOne (fun _ => true) (JObject legacyEntry) (sampleCache [polledFlow "10.0.0.1"; polledFlow "10.0.0.2"]) = (cache', Ret tt) /\
    tablesOf cache' !! 1 = Some [].
Proof.
  destruct (legacy_names_delete_all (fun _ => true) (JObject legacyEntry) (sampleCache [polledFlow "10.0.0.1"; polledFlow "10.0.0.2"]) 0
    {| t_dpid := 1; t_flows := JObject [("1", JArray [polledFlow "10.0.0.1"; polledFlow "10.0.0.2"])] |}
    legacyEntry 0 5
    [("nw_dst", JString "10.0.0.1")]) as (c & l' & Hdel & _ & _); try reflexivity; try (by repeat constructor).
  - split; [repeat constructor; set_solver|]. constructor; [|constructor]. eexists _, _. split_and!; [reflexivity|reflexivity|].
    repeat constructor.
  - exists c. split; [exact Hdel|]. apply (f_equal fst) in Hdel. cbn [fst] in Hdel. rewrite <- Hdel. vm_compute. reflexivity.
Defined.
