(* ===== verification/DevicePoll.v ===== *)
(** Polling the flow tables of the switches (src/ndt_core/power_management/
    DeviceConfigurationAndPowerManager.cpp: [classifyFlowStatsReply], [fetchOpenFlowTablesInternal],
    [openflowTablesUpdateWorker]; FailureRun of the header).

    A poll asks the control plane of every switch that is up, decides whether the reply is evidence,
    and feeds the accepted tables to the classifier.  What a request answers and how long it took is
    a parameter, as is the JSON parser. *)

From Stdlib Require Import SpecFloat.
From S2P Require Import Prelude CStrings Json ClassifierKey ClassifierParse ClassifierTables GraphTypes FlowTableCache.
Local Open Scope string_scope.
Local Open Scope list_scope.
Local Open Scope Z_scope.

(** * Runs of failures *)

Record FailureRun := { m_consecutive : Z }.

Definition recordFailure (r : FailureRun) : FailureRun * bool :=
  ({| m_consecutive := u32 (m_consecutive r + 1) |}, bool_decide (m_consecutive r = 0)).

Definition recordSuccess (r : FailureRun) : FailureRun * option Z :=
  if bool_decide (m_consecutive r = 0) then (r, None) else ({| m_consecutive := 0 |}, Some (m_consecutive r)).

(** * One reply *)

Inductive FlowStatsVerdict := Usable | SuspectTimedOut | ReportedFailure.

#[export] Instance FlowStatsVerdict_eq_dec : EqDecision FlowStatsVerdict.
Proof. solve_decision. Defined.

Definition kFlowStatsSuspectSeconds : spec_float := f64_div (f64_of_Z 1) (f64_of_Z 2).

Definition nonEmptyArray (j : json) : bool := is_array j && negb (jempty j).

Definition classifyFlowStatsReply (flows : json) (elapsedSeconds : spec_float) : FlowStatsVerdict :=
  if is_object flows && (contains flows "error" || contains flows "detail") then ReportedFailure
  else if is_object flows && existsb nonEmptyArray (jiter flows) then Usable
  else if negb (is_object flows) && nonEmptyArray flows then Usable
  else if SFleb kFlowStatsSuspectSeconds elapsedSeconds then SuspectTimedOut else Usable.

Definition buildFlowStatsCommand (ipAndPort : string) (dpid : Z) : string :=
  "curl -s --max-time 8 -X GET http://" +:+ ipAndPort +:+ "/stats/flow/" +:+ std_to_string dpid.

(** * A poll *)

Record Poll := {
  p_classifier : Impl;
  m_flowStatsFetchFailures : FailureRun;
  m_flowStatsTimeouts : FailureRun
}.

Definition tableJson (t : SwitchTable) : json := JObject [("dpid", JUnsigned (t_dpid t)); ("flows", t_flows t)].

Definition noteEmpty (p : Poll) : Poll :=
  {| p_classifier := p_classifier p; m_flowStatsFetchFailures := (recordFailure (m_flowStatsFetchFailures p)).1;
     m_flowStatsTimeouts := m_flowStatsTimeouts p |}.

Definition noteAnswer (p : Poll) : Poll :=
  {| p_classifier := p_classifier p; m_flowStatsFetchFailures := (recordSuccess (m_flowStatsFetchFailures p)).1;
     m_flowStatsTimeouts := m_flowStatsTimeouts p |}.

Definition noteUnusable (p : Poll) : Poll :=
  {| p_classifier := p_classifier p; m_flowStatsFetchFailures := m_flowStatsFetchFailures p;
     m_flowStatsTimeouts := (recordFailure (m_flowStatsTimeouts p)).1 |}.

Definition noteUsable (im : Impl) (p : Poll) : Poll :=
  {| p_classifier := im; m_flowStatsFetchFailures := m_flowStatsFetchFailures p;
     m_flowStatsTimeouts := (recordSuccess (m_flowStatsTimeouts p)).1 |}.

Section Polling.
Context (ask : string -> outcome (string * spec_float)) (parse : string -> outcome json)
        (RYU_IP_AND_PORT P4_PROXY_IP_AND_PORT : string).

Definition endpointOf (v : VertexProperties) : string :=
  if bool_decide (switchKind v = BMV2) then P4_PROXY_IP_AND_PORT else RYU_IP_AND_PORT.

Definition parseFlowStatsTextToJson (text : string) : option json :=
  match parse text with Ret j => Some j | Throw _ => None end.

(** One switch that is up; [result] is what the poll has accepted so far, all of which is given to
    the classifier again. *)
Definition pollSwitch (v : VertexProperties) (result : list SwitchTable) : run Poll (list SwitchTable) := fun p =>
  match ask (buildFlowStatsCommand (endpointOf v) (v_dpid v)) with
  | Throw x => (p, Throw x)
  | Ret (raw, elapsedSeconds) =>
      if bool_decide (raw = "") then (noteEmpty p, Ret result)
      else
        let p := noteAnswer p in
        match parseFlowStatsTextToJson raw with
        | None => (noteUnusable p, Ret result)
        | Some flows =>
            match classifyFlowStatsReply flows elapsedSeconds with
            | Usable =>
                let result := result ++ [{| t_dpid := v_dpid v; t_flows := flows |}] in
                let '(im, r) := updateFromQueriedTables (JArray (tableJson <$> result)) (p_classifier p) in
                (noteUsable im p, let! _ := r in Ret result)
            | _ => (noteUnusable p, Ret result)
            end
        end
  end.

Definition isPolled (v : VertexProperties) : bool := bool_decide (vertexType v = SWITCH) && v_isUp v.

Fixpoint fetchOpenFlowTablesInternal (vs : list VertexProperties) (result : list SwitchTable) : run Poll (list SwitchTable) := fun p =>
  match vs with
  | [] => (p, Ret result)
  | v :: vs =>
      if isPolled v then
        match pollSwitch v result p with
        | (p, Ret result) => fetchOpenFlowTablesInternal vs result p
        | (p, Throw x) => (p, Throw x)
        end
      else fetchOpenFlowTablesInternal vs result p
  end.

(** One iteration of [openflowTablesUpdateWorker]. *)
Definition openflowTablesUpdate (vs : list VertexProperties) (st : list SwitchTable * Poll) : list SwitchTable * Poll :=
  match fetchOpenFlowTablesInternal vs [] st.2 with
  | (p, Ret newTables) => (newTables, p)
  | (p, Throw _) => (st.1, p)
  end.

(** * What a poll does *)

(** The reply of a switch, when it is evidence. *)
Definition evidence (v : VertexProperties) : option SwitchTable :=
  if isPolled v then
    match ask (buildFlowStatsCommand (endpointOf v) (v_dpid v)) with
    | Ret (raw, elapsedSeconds) =>
        if bool_decide (raw = "") then None
        else
          match parse raw with
          | Ret flows =>
              if decide (classifyFlowStatsReply flows elapsedSeconds = Usable)
              then Some {| t_dpid := v_dpid v; t_flows := flows |} else None
          | Throw _ => None
          end
    | Throw _ => None
    end
  else None.

Lemma updateOneSwitch_frame d flows im d' : d' <> d -> switches (updateOneSwitch d flows im).1 !! d' = switches im !! d'.
Proof.
  intros Hne. unfold updateOneSwitch. destruct (upsertAll _ _ _) as [[mi sw] []]; cbn; by rewrite lookup_insert_ne.
Qed.

Lemma update_frame ts im d :
  Forall (fun t => fits 64 (t_dpid t)) ts -> d ∉ t_dpid <$> ts ->
  switches (updateFromQueriedTables (JArray (tableJson <$> ts)) im).1 !! d = switches im !! d.
Proof.
  intros Hf. cbn [updateFromQueriedTables]. revert im. induction Hf as [|t ts Ht _ IH]; intros im Hd; [done|].
  rewrite fmap_cons, not_elem_of_cons in Hd. destruct Hd as [Hne Hd]. rewrite fmap_cons. cbn [updateSwitchList tableJson].
  keys. rewrite u64_id by done. destruct (extractFlowArray (t_flows t) (t_dpid t)) as [[]|]; try by apply IH.
  pose proof (updateOneSwitch_frame (t_dpid t) l im d Hne) as Hfr.
  destruct (updateOneSwitch (t_dpid t) l im) as [im' [[]|x]]; cbn in Hfr |- *; [by rewrite IH, Hfr|done].
Qed.

Lemma pollSwitch_spec v result p d :
  isPolled v = true -> Forall (fun t => fits 64 (t_dpid t)) result -> fits 64 (v_dpid v) ->
  let '(p', r) := pollSwitch v result p in
  (forall result', r = Ret result' -> result' = result ++ option_list (evidence v)) /\
  (d ∉ t_dpid <$> (result ++ option_list (evidence v)) ->
   switches (p_classifier p') !! d = switches (p_classifier p) !! d).
Proof.
  intros Hv Hf Hd. unfold pollSwitch, evidence, parseFlowStatsTextToJson. rewrite Hv.
  destruct (ask _) as [[raw el]|x]; [|done]. case_bool_decide; [split; [intros ? [= <-]; by rewrite app_nil_r|done]|].
  destruct (parse raw) as [flows|x]; [|split; [intros ? [= <-]; by rewrite app_nil_r|done]].
  destruct (classifyFlowStatsReply flows el);
    [rewrite decide_True by done|split; [intros ? [= <-]; by rewrite app_nil_r|done]..].
  set (ts := result ++ [{| t_dpid := v_dpid v; t_flows := flows |}]).
  destruct (updateFromQueriedTables _ (p_classifier (noteAnswer p))) as [im r] eqn:E. split.
  - destruct r; cbn; naive_solver.
  - intros Hno. cbn [p_classifier noteUsable]. pose proof (update_frame ts (p_classifier (noteAnswer p)) d) as Hfr.
    rewrite E in Hfr. cbn in Hfr. apply Hfr; [|exact Hno]. apply Forall_app. split; [done|]. by apply Forall_singleton.
Qed.

Lemma omap_cons_app {A B} (f : A -> option B) x l : omap f (x :: l) = option_list (f x) ++ omap f l.
Proof. cbn. by destruct (f x). Qed.

Lemma evidence_fits v : fits 64 (v_dpid v) -> Forall (fun t => fits 64 (t_dpid t)) (option_list (evidence v)).
Proof. intros Hv. unfold evidence. repeat case_match; try apply Forall_nil_2. by apply Forall_singleton. Qed.

Lemma fetch_spec vs result p d :
  Forall (fun t => fits 64 (t_dpid t)) result -> Forall (fun v => fits 64 (v_dpid v)) vs ->
  let '(p', r) := fetchOpenFlowTablesInternal vs result p in
  (forall result', r = Ret result' -> result' = result ++ omap evidence vs) /\
  (d ∉ t_dpid <$> (result ++ omap evidence vs) ->
   switches (p_classifier p') !! d = switches (p_classifier p) !! d).
Proof.
  intros Hf Hvs. revert result p Hf. induction Hvs as [|v vs Hv _ IH]; intros result p Hf; cbn [fetchOpenFlowTablesInternal].
  { rewrite app_nil_r. split; [naive_solver|done]. }
  rewrite omap_cons_app. destruct (isPolled v) eqn:Hp.
  - rewrite app_assoc. pose proof (pollSwitch_spec v result p d Hp Hf Hv) as Hs. destruct (pollSwitch v result p) as [p1 [r1|x]].
    + destruct Hs as [Hr Hc]. specialize (Hr r1 eq_refl) as ->.
      specialize (IH _ p1 (Forall_app_2 _ _ _ Hf (evidence_fits v Hv))).
      destruct (fetchOpenFlowTablesInternal vs _ p1) as [p2 r2]. destruct IH as [IH1 IH2].
      split; [done|]. intros Hno. rewrite IH2 by done. apply Hc. rewrite fmap_app in Hno. by apply not_elem_of_app in Hno as [? _].
    + destruct Hs as [_ Hc]. split; [done|]. intros Hno. apply Hc. rewrite fmap_app in Hno. by apply not_elem_of_app in Hno as [? _].
  - specialize (IH result p Hf). assert (evidence v = None) as -> by (unfold evidence; by rewrite Hp). exact IH.
Qed.


(** When no control plane answers, a poll empties the served tables, although the classifier
    keeps every rule: the poll replaces the whole cache by the tables of the switches that answered. *)
Theorem unreachable_plane_empties_cache vs cache p :
  (forall cmd, exists e, ask cmd = Ret ("", e)) ->
  (openflowTablesUpdate vs (cache, p)).1 = [] /\ p_classifier (openflowTablesUpdate vs (cache, p)).2 = p_classifier p.
Proof.
  intros Hask. unfold openflowTablesUpdate. cbn [fst snd].
  assert (forall result p, exists p', fetchOpenFlowTablesInternal vs result p = (p', Ret result) /\ p_classifier p' = p_classifier p) as H.
  { clear cache p. induction vs as [|w ws IH]; intros result p; cbn [fetchOpenFlowTablesInternal]; [by exists p|].
    destruct (isPolled w); [|apply IH]. unfold pollSwitch. destruct (Hask (buildFlowStatsCommand (endpointOf w) (v_dpid w))) as [e ->].
    rewrite bool_decide_true by done. destruct (IH result (noteEmpty p)) as (p' & -> & Hp). by exists p'. }
  by destruct (H [] p) as (p' & -> & Hp).
Qed.

End Polling.

(** * Samples *)

Definition sampleVertex (id : Z) (kind : SwitchKind) : VertexProperties :=
  {| vertexType := SWITCH; mac := 0; ip := [id]; v_dpid := id; v_isUp := true; v_isEnabled := true; v_adminDisabled := false;
     deviceName := ""; nickName := ""; bridgeNameForMininet := ""; brandName := ""; switchKind := kind; deviceLayer := 0;
     smartPlugIp := ""; smartPlugOutlet := 0; bridgeConnectedPortsForMininet := []; ecmpGroups := [] |}.

(** The Open vSwitch answers with a table, the proxy reports that it could not read its switch. *)
Definition sampleAsk (cmd : string) : outcome (string * spec_float) :=
  Ret (if bool_decide (cmd = buildFlowStatsCommand "ryu:1" 1) then "table" else "failed", f64_of_Z 0).

Definition sampleReplies (text : string) : outcome json :=
  if bool_decide (text = "table") then Ret (JObject [("1", JArray [sampleFlow "10.0.0.1" 5])])
  else Ret (JObject [("error", JString "read failed")]).

Definition samplePoll : Poll :=
  {| p_classifier := emptyImpl; m_flowStatsFetchFailures := {| m_consecutive := 0 |}; m_flowStatsTimeouts := {| m_consecutive := 0 |} |}.


Lemma unreachable_plane_empties_cache_witness :
  (openflowTablesUpdate (fun _ => Ret ("", f64_of_Z 0)) sampleReplies "ryu:1" "p4:1" [sampleVertex 1 OVS]
     (sampleCache [sampleFlow "10.0.0.1" 5], samplePoll)).1 = [].
Proof.
  apply (unreachable_plane_empties_cache (fun _ => Ret ("", f64_of_Z 0)) sampleReplies "ryu:1" "p4:1" [sampleVertex 1 OVS]
    (sampleCache [sampleFlow "10.0.0.1" 5]) samplePoll). intros cmd. by eexists.
Defined.
