(* ===== verification/DevicePower.v ===== *)
(** Liveness and power of the switches (src/ndt_core/power_management/
    DeviceConfigurationAndPowerManager.cpp, OVSPowerStrategy.cpp, P4PowerStrategy.cpp).

    Liveness is read off the bridge list, the P4 proxy's evidence or pings, once per tick of
    [pingWorker].  Power is changed by shell commands or by a smart-plug gateway; the state of a
    power operation is the topology together with the commands run so far.  What commands print and
    how they exit are parameters that may depend on the commands already run. *)

From Stdlib Require Import Ascii SpecFloat.
From S2P Require Import Prelude CStrings NetUtils Commands Json GraphTypes Topology TopologyProps FlowDispatch Routing FlowTableCache DevicePoll.
Local Open Scope string_scope.
Local Open Scope list_scope.
Local Open Scope Z_scope.

(** * Output of commands *)

Definition isBlank (c : ascii) : bool :=
  bool_decide (c = ascii_of_nat 32) || bool_decide (c = newline) || bool_decide (c = carriageReturn) ||
  bool_decide (c = ascii_of_nat 9).

Fixpoint dropBlanks (s : string) : string :=
  match s with String c s' => if isBlank c then dropBlanks s' else s | EmptyString => s end.

(** [line.erase(line.find_last_not_of(" \n\r\t") + 1)]. *)
Definition trimEnd (s : string) : string := rev_string (dropBlanks (rev_string s)).

Definition namesOf (output : string) : list string :=
  filter (fun s => s <> "") ((fun l => trimEnd (c_str l)) <$> fgetsLines 127 output).

Class Machine := {
  (** [popen] and [pclose]: nothing when the command cannot be run, else its output and status. *)
  popen : list string -> string -> option (string * Z);
  (** [std::system]. *)
  system : list string -> string -> Z;
  (** [utils::execCommand]. *)
  execute : list string -> string -> outcome string
}.

(** * Liveness *)

Inductive OvsLiveness := Up | Down | Unknown.

#[export] Instance OvsLiveness_eq_dec : EqDecision OvsLiveness.
Proof. solve_decision. Defined.

Definition ovsLivenessFor (bridgeName : string) (bridges : option (list string)) : OvsLiveness :=
  match bridges with
  | None => Unknown
  | Some list => if bool_decide (bridgeName ∈ list) then Up else Down
  end.

Definition kLldpFreshSeconds : spec_float := f64_of_Z 12.
Definition kProbeStaleSeconds : spec_float := f64_of_Z 15.

(** The fields of the proxy's entry. *)
Inductive Field := Value (x : spec_float) | Absent | Malformed.

Definition readField (entry : json) (k : string) : Field :=
  match jfind entry k with
  | None | Some JNull => Absent
  | Some (JUnsigned n) => Value (f64_of_Z n)
  | Some (JInteger z) => Value (f64_of_Z z)
  | Some (JFloat m e) => Value (binary_normalize 53 1024 m e false)
  | Some _ => Malformed
  end.

(** A failed probe against the switch's last beacon. *)
Definition beaconVerdict (entry : json) : OvsLiveness :=
  match readField entry "last_lldp_age_s" with
  | Malformed => Unknown
  | Value age => if SFleb age kLldpFreshSeconds then Unknown else Down
  | Absent => Down
  end.

Definition p4LivenessFor (dpid : Z) (payload : option json) : OvsLiveness :=
  match payload with
  | None => Unknown
  | Some p =>
      match jfind p "switches" with
      | Some (JObject switches) =>
          match assoc (std_to_string dpid) switches with
          | Some (JObject e) =>
              let entry := JObject e in
              match jfind entry "probe_ok" with
              | Some (JBool true) => Up
              | Some (JBool false) =>
                  match readField entry "probe_age_s" with
                  | Malformed => Unknown
                  | Value age => if f64_gt age kProbeStaleSeconds then Unknown else beaconVerdict entry
                  | Absent => beaconVerdict entry
                  end
              | _ => Unknown
              end
          | _ => Unknown
          end
      | _ => Unknown
      end
  end.

(** The bridges that exist, unless the query failed. *)
Definition listBridges `{Machine} (h : list string) : option (list string) :=
  match popen h "sudo ovs-vsctl list-br 2>/dev/null" with
  | Some (output, rc) => if bool_decide (rc = 0) then Some (namesOf output) else None
  | None => None
  end.

Definition buildSwitchStateCommand (proxyIpAndPort : string) : string :=
  "curl -s --max-time 3 -w '\n%{http_code}' http://" +:+ proxyIpAndPort +:+ "/p4/switch_state 2>/dev/null".

(** The proxy's evidence; every failure is no evidence. *)
Definition fetchP4SwitchState `{Machine} (parse : string -> outcome json) (P4_PROXY_IP_AND_PORT : string) (h : list string) : option json :=
  match execute h (buildSwitchStateCommand P4_PROXY_IP_AND_PORT) with
  | Throw _ => None
  | Ret response =>
      match split_last newline response with
      | None => None
      | Some (body, statusText) =>
          if bool_decide (statusText <> "200") then None
          else match parse body with Ret j => Some j | Throw _ => None end
      end
  end.

(** At most three attempts. *)
Definition pingOk (output : string) : bool :=
  bool_decide (is_Some (String.index 0 "1 received" output)) || bool_decide (is_Some (String.index 0 "bytes from" output)).

Definition pingSwitch (output : nat -> string) : bool := pingOk (output 1%nat) || pingOk (output 2%nat) || pingOk (output 3%nat).

Definition applyLiveness (l : OvsLiveness) (v : nat) (t : Topology) : Topology :=
  match l with Up => setVertexUp v t | Down => setVertexDown v t | Unknown => t end.

(** The verdict on a switch of a Mininet network. *)
Definition livenessOf (bridges : option (list string)) (p4State : option json) (p : VertexProperties) : OvsLiveness :=
  if bool_decide (switchKind p = BMV2) then p4LivenessFor (v_dpid p) p4State
  else ovsLivenessFor (bridgeNameForMininet p) bridges.

(** One address of a switch of the testbed. *)
Definition applyPing (alive : Z -> bool) (v : nat) (t : Topology) (a : Z) : Topology :=
  if alive a then setVertexUp v t else setVertexDisable v (setVertexDown v t).

(** One tick of [pingWorker] over the vertices of the copy [graph] it works on. *)
Definition pingVertex (mode : DeploymentMode) (alive : Z -> bool) (bridges : option (list string)) (p4State : option json)
  (v : nat) (p : VertexProperties) (t : Topology) : Topology :=
  if isSwitch p then
    match mode with
    | TESTBED => fold_left (applyPing alive v) (ip p) t
    | MININET => applyLiveness (livenessOf bridges p4State p) v t
    end
  else t.

Fixpoint pingVertices (mode : DeploymentMode) (alive : Z -> bool) (bridges : option (list string)) (p4State : option json)
  (v : nat) (graph : list VertexProperties) (t : Topology) : Topology :=
  match graph with
  | [] => t
  | p :: graph => pingVertices mode alive bridges p4State (S v) graph (pingVertex mode alive bridges p4State v p t)
  end.

(** [m_dataPlaneIsBmv2]. *)
Definition refreshDataPlaneKind (t : Topology) : bool :=
  match getSwitchKindGroups t with [(BMV2, _)] => true | _ => false end.

Definition pingPass `{Machine} (parse : string -> outcome json) (P4_PROXY_IP_AND_PORT : string) (mode : DeploymentMode)
  (dataPlaneIsBmv2 : bool) (alive : Z -> bool) (h : list string) (t : Topology) : Topology :=
  let bridges := if bool_decide (mode = MININET) then listBridges h else None in
  let p4State := if bool_decide (mode = MININET) && dataPlaneIsBmv2 then fetchP4SwitchState parse P4_PROXY_IP_AND_PORT h else None in
  pingVertices mode alive bridges p4State 0 (vertices (m_graph t)) t.

(** * What a tick does *)

(** A verdict on a vertex. *)
Definition afterVerdict (l : OvsLiveness) (p : VertexProperties) : VertexProperties :=
  match l with
  | Up => vflags true (v_isEnabled p) (v_adminDisabled p) p
  | Down => vflags false (v_isEnabled p) (v_adminDisabled p) p
  | Unknown => p
  end.

Definition afterTick (bridges : option (list string)) (p4State : option json) (p : VertexProperties) : VertexProperties :=
  if isSwitch p then afterVerdict (livenessOf bridges p4State p) p else p.

Lemma applyLiveness_lookup l v t w :
  vertices (m_graph (applyLiveness l v t)) !! w =
    (if decide (w = v) then afterVerdict l else id) <$> vertices (m_graph t) !! w /\
  edges (m_graph (applyLiveness l v t)) = edges (m_graph t).
Proof.
  destruct l; cbn; (split; [|done]); case_decide; subst; rewrite ?list_lookup_alter_eq, ?list_lookup_alter_ne by done;
    by destruct (vertices (m_graph t) !! _).
Qed.

Lemma pingVertices_lookup alive bridges p4State graph v t w :
  (forall i p, graph !! i = Some p -> vertices (m_graph t) !! (v + i)%nat = Some p) ->
  vertices (m_graph (pingVertices MININET alive bridges p4State v graph t)) !! w =
    (if decide (v <= w < v + length graph)%nat then afterTick bridges p4State else id) <$> vertices (m_graph t) !! w /\
  edges (m_graph (pingVertices MININET alive bridges p4State v graph t)) = edges (m_graph t).
Proof.
  revert v t. induction graph as [|p graph IH]; intros v t Hg; cbn [pingVertices length].
  { rewrite decide_False by lia. by destruct (vertices (m_graph t) !! w). }
  pose proof (Hg 0%nat p eq_refl) as Hp. rewrite Nat.add_0_r in Hp.
  set (t1 := pingVertex MININET alive bridges p4State v p t).
  assert (forall x, vertices (m_graph t1) !! x = (if decide (x = v) then afterTick bridges p4State else id) <$> vertices (m_graph t) !! x /\
          edges (m_graph t1) = edges (m_graph t)) as H1.
  { intros x. unfold t1, pingVertex. destruct (isSwitch p) eqn:Es.
    - destruct (applyLiveness_lookup (livenessOf bridges p4State p) v t x) as [-> ->]. split; [|done].
      case_decide; [|done]. subst. rewrite Hp. cbn. unfold afterTick. by rewrite Es.
    - split; [|done]. case_decide; [|by destruct (_ !! x)]. subst. rewrite Hp. cbn. unfold afterTick. by rewrite Es. }
  destruct (IH (S v) t1) as [IH1 IH2].
  { intros i q Hi. destruct (H1 (S v + i)%nat) as [-> _]. rewrite decide_False by lia.
    replace (S v + i)%nat with (v + S i)%nat by lia. by rewrite (Hg (S i) q). }
  destruct (H1 w) as [H1w H1e]. split; [|by rewrite IH2]. rewrite IH1, H1w.
  destruct (vertices (m_graph t) !! w); cbn; [f_equal|done].
  repeat case_decide; try lia; done.
Qed.

(** A tick of the liveness loop in a Mininet network changes nothing but [isUp] of switches, and
    sets it exactly by the verdict on that switch: up and down only on evidence, unchanged when the
    bridge list could not be read or the proxy's evidence is missing, stale, malformed or
    contradicted by a fresh beacon.  Links, hosts and administrative flags are untouched. *)
Theorem tick_follows_evidence `{Machine} parse p4 (bmv2 : bool) alive h t w :
  let bridges := listBridges h in
  let p4State := if bmv2 then fetchP4SwitchState parse p4 h else None in
  let t' := pingPass parse p4 MININET bmv2 alive h t in
  vertices (m_graph t') !! w = afterTick bridges p4State <$> vertices (m_graph t) !! w /\
  edges (m_graph t') = edges (m_graph t) /\
  (bridges = None -> p4State = None -> t' = t).
Proof.
  cbn zeta. unfold pingPass. rewrite bool_decide_true by done. cbn [andb].
  destruct (pingVertices_lookup alive (listBridges h) (if bmv2 then fetchP4SwitchState parse p4 h else None)
    (vertices (m_graph t)) 0 t w) as [Hv He]; [done|]. split_and!; [|done|].
  - rewrite Hv. destruct (vertices (m_graph t) !! w) as [q|] eqn:Hq; [|done]. apply lookup_lt_Some in Hq.
    by rewrite decide_True by lia.
  - intros -> ->. clear. generalize 0%nat. generalize (vertices (m_graph t)).
    intros g. induction g as [|p g IH]; intros n; cbn; [done|].
    assert (pingVertex MININET alive None None n p t = t) as ->; [|apply IH].
    unfold pingVertex, livenessOf. destruct (isSwitch p); [|done]. by case_bool_decide.
Qed.

(** * Power *)

Definition getVertexIsUp (v : nat) (t : Topology) : bool := from_option v_isUp false (vertices (m_graph t) !! v).

Definition set_ports (ports : list string) (p : VertexProperties) : VertexProperties := {|
  vertexType := vertexType p; mac := mac p; ip := ip p; v_dpid := v_dpid p;
  v_isUp := v_isUp p; v_isEnabled := v_isEnabled p; v_adminDisabled := v_adminDisabled p;
  deviceName := deviceName p; nickName := nickName p; bridgeNameForMininet := bridgeNameForMininet p;
  brandName := brandName p; switchKind := switchKind p; deviceLayer := deviceLayer p;
  smartPlugIp := smartPlugIp p; smartPlugOutlet := smartPlugOutlet p;
  bridgeConnectedPortsForMininet := ports; ecmpGroups := ecmpGroups p |}.

Definition setMininetBridgePorts (v : nat) (ports : list string) : Topology -> Topology := onGraph (alterVertex (set_ports ports) v).

Definition getMininetBridgePorts (v : nat) (t : Topology) : list string :=
  from_option bridgeConnectedPortsForMininet [] (vertices (m_graph t) !! v).

(** The topology and the commands run so far. *)
Abbreviation World := (Topology * list string)%type.

(** Runs all commands; whether all succeeded. *)
Fixpoint runCommands `{Machine} (cmds : list string) (h : list string) : list string * bool :=
  match cmds with
  | [] => (h, true)
  | cmd :: cmds =>
      let ok := bool_decide (system h cmd = 0) in
      let '(h, rest) := runCommands cmds (h ++ [cmd]) in (h, ok && rest)
  end.

(** [std::hex] with sixteen digits. *)
Definition hexDigit (d : Z) : ascii := ascii_of_nat (Z.to_nat (if bool_decide (d < 10) then 48 + d else 87 + d)).
Fixpoint hexDigits (n : nat) (d : Z) (acc : string) : string :=
  match n with O => acc | S n => hexDigits n (d / 16) (String (hexDigit (d mod 16)) acc) end.
Definition formatDpid (d : Z) : string := hexDigits 16 d "".

Definition portCommands (swName : string) (ports : list string) : list string :=
  concat ((fun port => ["sudo ovs-vsctl add-port " +:+ swName +:+ " " +:+ port; "sudo ifconfig " +:+ port +:+ " up"]) <$> ports).

Definition ovsPowerOnCommands (swName : string) (dpid : Z) (ports : list string) : list string :=
  ["sudo ovs-vsctl add-br " +:+ swName +:+ " && sudo ovs-vsctl set bridge " +:+ swName +:+
   " other-config:datapath-id=" +:+ formatDpid dpid] ++ portCommands swName ports ++
  ["sudo ovs-vsctl set-controller " +:+ swName +:+ " tcp:127.0.0.1:6633"].

Definition ovsPowerOn `{Machine} (node : nat) (swName : string) (dpid : Z) (w : World) : World * OpResult :=
  let '(t, h) := w in
  if getVertexIsUp node t then (w, success 200)
  else
    let '(h, allOk) := runCommands (ovsPowerOnCommands swName dpid (getMininetBridgePorts node t)) h in
    if allOk then ((setVertexUp node t, h), success 200)
    else ((t, h), failure 500 ("one or more ovs-vsctl/ifconfig commands failed while " +:+
                               "bringing up " +:+ swName +:+ "; see the log for which")).

Definition executeListPorts `{Machine} (br : string) (h : list string) : list string * option (list string) :=
  let cmd := "sudo ovs-vsctl list-ports " +:+ br in
  (h ++ [cmd], match popen h cmd with
               | Some (output, rc) => if bool_decide (rc = 0) then Some (namesOf output) else None
               | None => None
               end).

Definition ovsPowerOffCommands (swName : string) (ports : list string) : list string :=
  ((fun port => "sudo ifconfig " +:+ port +:+ " down") <$> ports) ++ ["sudo ovs-vsctl del-br " +:+ swName].

Definition ovsPowerOff `{Machine} (node : nat) (swName : string) (w : World) : World * OpResult :=
  let '(t, h) := w in
  if negb (getVertexIsUp node t) then (w, success 200)
  else
    match executeListPorts swName h with
    | (h, None) => ((t, h), failure 500 ("could not read the ports of " +:+ swName +:+
        ", so it was left running: deleting the bridge would lose the " +:+ "only record of what to reattach on power-on"))
    | (h, Some ports) =>
        let t := setMininetBridgePorts node ports t in
        let '(h, allOk) := runCommands (ovsPowerOffCommands swName ports) h in
        if allOk then ((setVertexDown node t, h), success 200)
        else ((t, h), failure 500 ("one or more ifconfig/ovs-vsctl commands failed while " +:+
                                   "shutting down " +:+ swName +:+ "; see the log for which"))
    end.

Definition kPowerHelper : string := "/usr/local/sbin/ndtwin-p4-power".

(** One command of the P4 strategy. *)
Definition executeSystemCommand `{Machine} (cmd : string) (h : list string) : list string * bool :=
  (h ++ [cmd], bool_decide (system h cmd = 0)).

Definition p4PowerOn `{Machine} (P4_PROXY_IP_AND_PORT : string) (node : nat) (swName : string) (dpid : Z) (w : World) : World * OpResult :=
  let '(t, h) := w in
  if getVertexIsUp node t then (w, success 200)
  else
    match executeSystemCommand ("sudo -n " +:+ kPowerHelper +:+ " on " +:+ swName) h with
    | (h, false) => ((t, h), failure 500 ("ndtwin-p4-power could not start " +:+ swName +:+
        "; the switch was not brought up. See the kernel log for " +:+ "the helper's reason (stale manifest, occupied port, or " +:+
        "the helper is not installed -- the design doc has the " +:+ "install steps)."))
    | (h, true) =>
        match executeSystemCommand ("curl -sS --fail-with-body -X POST --max-time 30 http://" +:+ P4_PROXY_IP_AND_PORT +:+
                                    "/p4/readopt/" +:+ std_to_string dpid) h with
        | (h, false) => ((t, h), failure 502 ("bmv2 for " +:+ swName +:+ " is running again, but the proxy " +:+
            "could not re-adopt it (mastership/pipeline/clone/" +:+ "routes); it cannot forward traffic. The failing step is " +:+
            "in the readopt response body in the kernel log above. " +:+ "Recover by retrying the readopt directly: POST http://" +:+
            P4_PROXY_IP_AND_PORT +:+ "/p4/readopt/" +:+ std_to_string dpid +:+
            " -- it is the only call that re-attempts the adoption, " +:+ "and it may need several tries. Do NOT repeat this " +:+
            "power-on: the process is up, so liveness marks the switch " +:+ "up within a second and the retry returns success without " +:+
            "re-attempting the readopt. Power off then power on does " +:+ "not work either; measured on a live fabric, it returned " +:+
            "500 as well."))
        | (h, true) => ((setVertexUp node t, h), success 200)
        end
    end.

Definition p4PowerOff `{Machine} (node : nat) (swName : string) (w : World) : World * OpResult :=
  let '(t, h) := w in
  if negb (getVertexIsUp node t) then (w, success 200)
  else
    match executeSystemCommand ("sudo -n " +:+ kPowerHelper +:+ " off " +:+ swName) h with
    | (h, false) => ((t, h), failure 500 ("ndtwin-p4-power could not stop " +:+ swName +:+
        "; it was left running and the twin still reports it " +:+ "up. See the kernel log for the helper's reason."))
    | (h, true) => ((setVertexDown node t, h), success 200)
    end.

(** [getPowerStrategyForDpid]: whether the P4 strategy is used. *)
Definition getPowerStrategyForDpid (dpid : Z) (t : Topology) : option bool :=
  match getSwitchKind dpid t with
  | None => None
  | Some BMV2 => Some true
  | Some OVS | Some HARDWARE => Some false
  end.

Definition setPowerStateMininet `{Machine} (P4_PROXY_IP_AND_PORT : string) (ipUint : Z) (action : string) (w : World) : World * bool :=
  match findSwitchByIp ipUint w.1 with
  | None => (w, false)
  | Some node =>
      let swName := from_option bridgeNameForMininet "" (vertices (m_graph w.1) !! node) in
      let dpid := from_option v_dpid 0 (vertices (m_graph w.1) !! node) in
      match getPowerStrategyForDpid dpid w.1 with
      | None => (w, false)
      | Some isP4 =>
          if bool_decide (action = "on") then
            let '(w, r) := (if isP4 then p4PowerOn P4_PROXY_IP_AND_PORT node swName dpid w else ovsPowerOn node swName dpid w) in
            (w, ok r)
          else if bool_decide (action = "off") then
            let '(w, r) := (if isP4 then p4PowerOff node swName w else ovsPowerOff node swName w) in (w, ok r)
          else (w, false)
      end
  end.

(** * The testbed's smart plugs *)

Record SwitchInfo := { switchIp : string; plugIp : string; plugIdx : Z }.

Definition buildRelayPowerCommand (gwUrl : string) (si : SwitchInfo) (action : string) : string :=
  "curl -s --max-time 8 -w '\n%{http_code}' -X POST " +:+
  quoted ("http://" +:+ gwUrl +:+ ":8000/relay" +:+ "?ip=" +:+ plugIp si +:+ "&resource=outlet" +:+
          "&index=" +:+ std_to_string (plugIdx si) +:+ "&method=" +:+ action).

Definition startsWith2 (s : string) : bool := match s with String c _ => bool_decide (c = ascii_of_nat 50) | _ => false end.

(** The verdict of [interpretRelayResponse]; the text it extracts from the page is only logged. *)
Definition interpretRelayResponse (response : string) : bool :=
  if bool_decide (response = "") then false
  else
    match split_last newline response with
    | None => false
    | Some (_, statusCode) =>
        if bool_decide (statusCode = "000") then false
        else negb (bool_decide (String.length statusCode <> 3%nat) || negb (startsWith2 statusCode))
    end.

Definition setPowerStateTestbed `{Machine} (GW_IP : string) (si : SwitchInfo) (action : string) (w : World) : World * bool :=
  let '(t, h) := w in
  if bool_decide (action <> "on") && bool_decide (action <> "off") then (w, false)
  else
    let cmd := buildRelayPowerCommand GW_IP si action in
    let h' := h ++ [cmd] in
    match execute h cmd with
    | Throw _ => ((t, h'), false)
    | Ret response =>
        if negb (interpretRelayResponse response) then ((t, h'), false)
        else
          match ipStringToUint32 (switchIp si) with
          | Throw _ => ((t, h'), false)
          | Ret a =>
              match findSwitchByIp a t with
              | None => ((t, h'), false)
              | Some node => ((if bool_decide (action = "on") then setVertexUp node t else setVertexDown node t, h'), true)
              end
          end
    end.

(** An address that cannot be read throws out of the Mininet branch. *)
Definition setSwitchPowerState `{Machine} (mode : DeploymentMode) (P4_PROXY_IP_AND_PORT GW_IP : string)
  (switchSmartPlugTable : list SwitchInfo) (ip action : string) : run World bool := fun w =>
  match mode with
  | TESTBED =>
      match list_find (fun si => switchIp si = ip) switchSmartPlugTable with
      | None => (w, Ret false)
      | Some (_, si) => let '(w, b) := setPowerStateTestbed GW_IP si action w in (w, Ret b)
      end
  | MININET =>
      match ipStringToUint32 ip with
      | Throw x => (w, Throw x)
      | Ret a => let '(w, b) := setPowerStateMininet P4_PROXY_IP_AND_PORT a action w in (w, Ret b)
      end
  end.

(** * What power operations do to the twin *)

(** Only the vertex [node] changes, and of it only [isUp], which becomes [up] exactly when the operation
    reports success, and the saved port list. *)
Definition powered (node : nat) (up : bool) (b : bool) (t t' : Topology) : Prop :=
  edges (m_graph t') = edges (m_graph t) /\
  (forall v, v <> node -> vertices (m_graph t') !! v = vertices (m_graph t) !! v) /\
  (forall p, vertices (m_graph t) !! node = Some p ->
     exists ports, vertices (m_graph t') !! node =
       Some (vflags (if b then up else v_isUp p) (v_isEnabled p) (v_adminDisabled p) (set_ports ports p))).

Lemma vflags_same p : vflags (v_isUp p) (v_isEnabled p) (v_adminDisabled p) (set_ports (bridgeConnectedPortsForMininet p) p) = p.
Proof. by destruct p. Qed.

Lemma powered_same node up t : powered node up false t t.
Proof.
  split_and!; [done|done|]. intros p Hp. exists (bridgeConnectedPortsForMininet p). by rewrite Hp, vflags_same.
Qed.

Lemma powered_already node up t : getVertexIsUp node t = up -> powered node up true t t.
Proof.
  intros H. split_and!; [done|done|]. intros p Hp. exists (bridgeConnectedPortsForMininet p).
  unfold getVertexIsUp in H. rewrite Hp in H. cbn in H. by rewrite Hp, <- H, vflags_same.
Qed.

Lemma powered_set node (up : bool) t : powered node up true t ((if up then setVertexUp node else setVertexDown node) t).
Proof.
  destruct up; (split_and!; [done|intros v Hv; cbn; by rewrite list_lookup_alter_ne|]);
    intros p Hp; exists (bridgeConnectedPortsForMininet p); cbn; rewrite list_lookup_alter_eq, Hp; by destruct p.
Qed.

Lemma powered_ports node up b ports t t' :
  powered node up b (setMininetBridgePorts node ports t) t' -> powered node up b t t'.
Proof.
  intros (He & Hv & Hn). split_and!; [done| |].
  - intros v Hne. rewrite Hv by done. cbn. by rewrite list_lookup_alter_ne.
  - intros p Hp. destruct (Hn (set_ports ports p)) as [ports' ->]; [cbn; by rewrite list_lookup_alter_eq, Hp|].
    by exists ports'; destruct p.
Qed.

(** A request that was refused before anything was tried. *)
Ltac refused := intros [= <- <-]; split; [done|]; exists 0%nat; apply powered_same.

Section PowerTheorems.
Context `{Machine}.

Lemma ovsPowerOn_powered node sw d w :
  powered node true (ok (ovsPowerOn node sw d w).2) w.1 (ovsPowerOn node sw d w).1.1.
Proof.
  destruct w as [t h]. unfold ovsPowerOn. destruct (getVertexIsUp node t) eqn:E; [by apply powered_already|].
  destruct (runCommands _ h) as [h' []]; [apply (powered_set node true)|apply powered_same].
Qed.

Lemma ovsPowerOff_powered node sw w :
  powered node false (ok (ovsPowerOff node sw w).2) w.1 (ovsPowerOff node sw w).1.1.
Proof.
  destruct w as [t h]. unfold ovsPowerOff. destruct (getVertexIsUp node t) eqn:E; cbn [negb]; [|by apply powered_already].
  destruct (executeListPorts sw h) as [h' [ports|]]; [|apply powered_same].
  destruct (runCommands _ h') as [h2 []]; apply (powered_ports _ _ _ ports); [apply (powered_set node false)|apply powered_same].
Qed.

Lemma p4PowerOn_powered p4 node sw d w :
  powered node true (ok (p4PowerOn p4 node sw d w).2) w.1 (p4PowerOn p4 node sw d w).1.1.
Proof.
  destruct w as [t h]. unfold p4PowerOn. destruct (getVertexIsUp node t) eqn:E; [by apply powered_already|].
  destruct (executeSystemCommand _ h) as [h' []]; [|apply powered_same].
  destruct (executeSystemCommand _ h') as [h2 []]; [apply (powered_set node true)|apply powered_same].
Qed.

Lemma p4PowerOff_powered node sw w :
  powered node false (ok (p4PowerOff node sw w).2) w.1 (p4PowerOff node sw w).1.1.
Proof.
  destruct w as [t h]. unfold p4PowerOff. destruct (getVertexIsUp node t) eqn:E; cbn [negb]; [|by apply powered_already].
  destruct (executeSystemCommand _ h) as [h' []]; [apply (powered_set node false)|apply powered_same].
Qed.

(** C26: the answer to a power request agrees with the twin.  When it reports success, there is a switch
    with that address and it is marked up after "on" and down after "off"; when it reports failure,
    no vertex changed [isUp].  Either way no other vertex, no link and no administrative flag
    changes, whatever the commands, the proxy or the gateway answered. *)
Theorem power_report_matches_twin mode p4 gw plugs ip action w w' b :
  setSwitchPowerState mode p4 gw plugs ip action w = (w', Ret b) ->
  (b = true -> exists a node, ipStringToUint32 ip = Ret a /\ findSwitchByIp a w.1 = Some node /\
     (action = "on" \/ action = "off") /\ powered node (bool_decide (action = "on")) true w.1 w'.1) /\
  (b = false -> exists node, powered node true false w.1 w'.1).
Proof.
  unfold setSwitchPowerState. destruct mode.
  - destruct (ipStringToUint32 ip) as [a|] eqn:Ha; [|done]. unfold setPowerStateMininet.
    destruct (findSwitchByIp a w.1) as [node|] eqn:Hn; [|refused].
    destruct (getPowerStrategyForDpid _ w.1) as [isP4|]; [|refused].
    set (sw := from_option _ _ _). set (d := from_option _ _ _).
    case_bool_decide as Hon; [|case_bool_decide as Hoff].
    + pose proof (p4PowerOn_powered p4 node sw d w) as H1. pose proof (ovsPowerOn_powered node sw d w) as H2.
      destruct isP4; [destruct (p4PowerOn p4 node sw d w) as [w1 r]|destruct (ovsPowerOn node sw d w) as [w1 r]];
        intros [= <- <-]; cbn in *; (split; [intros E; rewrite E in *; exists a, node; auto|intros E; rewrite E in *; by exists node]).
    + pose proof (p4PowerOff_powered node sw w) as H1. pose proof (ovsPowerOff_powered node sw w) as H2.
      destruct isP4; [destruct (p4PowerOff node sw w) as [w1 r]|destruct (ovsPowerOff node sw w) as [w1 r]];
        intros [= <- <-]; cbn in *; (split; [intros E; rewrite E in *; exists a, node; auto|intros E; rewrite E in *; by exists node]).
    + refused.
  - destruct (list_find _ plugs) as [[i si]|] eqn:Hf; [|refused].
    apply list_find_Some in Hf as (_ & Hip & _). unfold setPowerStateTestbed. destruct w as [t h]. rewrite Hip.
    destruct (bool_decide (action <> "on") && bool_decide (action <> "off")) eqn:Hact;
      [refused|].
    destruct (execute h _) as [resp|]; [|refused].
    destruct (interpretRelayResponse resp); cbn [negb]; [|refused].
    destruct (ipStringToUint32 ip) as [a|] eqn:Ha; [|refused].
    destruct (findSwitchByIp a t) as [node|] eqn:Hn; [|refused].
    intros [= <- <-]. split; [|done]. intros _. exists a, node. split_and!; [done|done| |].
    + destruct (decide (action = "on")); [by left|]. rewrite bool_decide_true in Hact by done.
      apply bool_decide_eq_false in Hact. right. by apply dec_stable.
    + pose proof (powered_set node (bool_decide (action = "on")) t). by case_bool_decide.
Qed.

Lemma runCommands_history cmds h : (runCommands cmds h).1 = h ++ cmds.
Proof.
  revert h. induction cmds as [|c cmds IH]; intros h; cbn; [by rewrite app_nil_r|].
  specialize (IH (h ++ [c])). destruct (runCommands cmds (h ++ [c])) as [h' r]. cbn in *. by rewrite IH, <- app_assoc.
Qed.


End PowerTheorems.

(** * Synthetic power *)

(** The finaliser of splitmix64 over the dpid. *)
Definition syntheticPowerMilliwattsFor (dpid : Z) : Z :=
  let mixed := u64 (dpid + 0x9E3779B97F4A7C15) in
  let mixed := u64 (Z.lxor mixed (Z.shiftr mixed 30) * 0xBF58476D1CE4E5B9) in
  let mixed := u64 (Z.lxor mixed (Z.shiftr mixed 27) * 0x94D049BB133111EB) in
  let mixed := Z.lxor mixed (Z.shiftr mixed 31) in
  30000 + mixed mod 120000.

Definition powerEntry (p : VertexProperties) (power_mW : Z) (c : Z -> json) : json :=
  JObject [("dpid", JUnsigned (v_dpid p)); ("power_consumed", c power_mW)].

Lemma synthetic_range d : 30000 <= syntheticPowerMilliwattsFor d < 150000.
Proof.
  unfold syntheticPowerMilliwattsFor. cbn zeta. set (m := Z.lxor _ _). pose proof (Z.mod_pos_bound m 120000). lia.
Qed.

(** * Samples *)

Definition line (s : string) : string := s +:+ String newline EmptyString.

(** One bridge with two ports; every command succeeds. *)
Definition sampleMachine : Machine := {|
  popen := fun _ cmd => Some (if bool_decide (cmd = "sudo ovs-vsctl list-ports s1") then line "s1-eth1" +:+ line "s1-eth2" else line "s1", 0);
  system := fun _ _ => 0;
  execute := fun _ _ => Throw RuntimeError |}.

Lemma tick_follows_evidence_witness :
  getVertexIsUp 0 (@pingPass sampleMachine (fun _ => Throw JsonParseError) "p4:1" MININET false (fun _ => true) [] sampleTopology) = true.
Proof.
  unfold getVertexIsUp.
  rewrite (proj1 (@tick_follows_evidence sampleMachine (fun _ => Throw JsonParseError) "p4:1" false (fun _ => true) [] sampleTopology 0)).
  vm_compute. reflexivity.
Defined.

Definition powered1 : World := (setVertexUp 0 sampleTopology, []).

Lemma power_report_matches_twin_witness :
  exists node, powered node false true sampleTopology
    (@setSwitchPowerState sampleMachine MININET "p4:1" "gw" [] "192.168.1.1" "off" (sampleTopology, [])).1.1.
Proof.
  destruct (@setSwitchPowerState sampleMachine MININET "p4:1" "gw" [] "192.168.1.1" "off" (sampleTopology, [])) as [w' [b|x]] eqn:E;
    [|exfalso; apply (f_equal snd) in E; vm_compute in E; discriminate E].
  destruct (@power_report_matches_twin sampleMachine MININET "p4:1" "gw" [] "192.168.1.1" "off" (sampleTopology, []) w' b E) as [H _].
  assert (b = true) as Hb by (apply (f_equal snd) in E; vm_compute in E; injection E as E; exact (eq_sym E)).
  destruct (H Hb) as (a & node & _ & _ & _ & Hp). exists node. exact Hp.
Defined.

