(* ===== verification/DeviceReports.v ===== *)
(** What the kernel measures of its switches (DeviceConfigurationAndPowerManager.cpp: the power, CPU, memory
    and temperature reports, the single-switch reports, the smart-plug table; include/utils/SSHHelper.hpp).

    A simulated switch has made-up values; a real one is asked with snmpget or over ssh, commands that run
    on the [Machine] and are kept in its history.  [hash] is [std::hash<std::string>], which the language
    leaves open.  The first address of a vertex without addresses, which is undefined, is the empty text. *)

From Stdlib Require Import Ascii.
From S2P Require Import Prelude CStrings NetUtils Commands Json GraphTypes Topology FlowDispatch Routing DevicePower.
Local Open Scope string_scope.
Local Open Scope list_scope.
Local Open Scope Z_scope.

(** * Readings *)

Fixpoint takeDigits (s : string) : string :=
  match s with
  | String c s => if is_digit c then String c (takeDigits s) else EmptyString
  | EmptyString => EmptyString
  end.

(** The digits the pattern "tag\s*(\d+)" captures at the start of a text. *)
Definition digitsAfter (tag s : string) : option string :=
  if String.prefix tag s then
    match takeDigits (drop_spaces (String.substring (String.length tag) (String.length s - String.length tag) s)) with
    | EmptyString => None
    | d => Some d
    end
  else None.

(** [std::regex_search] for that pattern: the leftmost match. *)
Fixpoint regexNumber (tag s : string) : option string :=
  match digitsAfter tag s with
  | Some d => Some d
  | None => match s with EmptyString => None | String _ s => regexNumber tag s end
  end.

(** The lines [std::getline] reads. *)
Definition getLines (s : string) : list string :=
  (fix go (s cur : string) : list string :=
     match s with
     | EmptyString => if bool_decide (cur = "") then [] else [rev_string cur]
     | String c s => if bool_decide (c = newline) then rev_string cur :: go s "" else go s (String c cur)
     end) s "".

Definition powerOfLine (line : string) : option Z :=
  match afterText "1    ICX7250-24 24-p" line with
  | None => None
  | Some sub => match stoull 10 sub with Ret power => Some (power `div` 10000000) | Throw _ => None end
  end.

Definition parsePowerOutput (output : string) : Z := default 0 (head (omap powerOfLine (getLines output))).

Definition sshCommand (ip username : string) : string :=
  "(echo 'terminal length 0'; sleep 1; echo 'show power'; sleep 1; echo 'exit') | ssh -T " +:+
  "-oKexAlgorithms=+diffie-hellman-group1-sha1 -oCiphers=+aes128-cbc -oHostKeyAlgorithms=+ssh-rsa " +:+
  "-oStrictHostKeyChecking=no -oUserKnownHostsFile=/dev/null -oBatchMode=yes -oConnectTimeout=10 " +:+
  username +:+ "@" +:+ ip.

Definition frontText (p : VertexProperties) : string := from_option ipToString "" (head (ip p)).

Inductive Metric := Cpu | Memory.

(** The object identifiers: of an HPE 5520, and of the others. *)
Definition oid (m : Metric) (hpe : bool) : string :=
  match m, hpe with
  | Cpu, true => "1.3.6.1.4.1.25506.2.6.1.1.1.1.6.212"
  | Cpu, false => "1.3.6.1.4.1.1991.1.1.2.1.52.0"
  | Memory, true => "1.3.6.1.4.1.25506.2.6.1.1.1.1.8.212"
  | Memory, false => "1.3.6.1.4.1.1991.1.1.2.1.53.0"
  end.

Definition isHpe (p : VertexProperties) : bool := bool_decide (brandName p = "HPE5520").

Section Reports.
Context `{Machine} (hash : string -> N).

Definition getPowerReportViaSsh (ip username : string) : run (list string) string := fun h =>
  let cmd := sshCommand ip username in
  (h ++ [cmd], match popen h cmd with
               | None => Throw RuntimeError
               | Some (output, _) => Ret (String.concat "" (c_str <$> fgetsLines 255 output))
               end).

(** An SNMP query whose answer may hold a number; without one the value stays [unread]. *)
Definition snmp (cmd tag : string) (unread : Z) : run (list string) Z := fun h =>
  (h ++ [cmd], let! output := execute h cmd in
               match regexNumber tag output with None => Ret unread | Some d => stoi d end).

Definition snmpGet (ip oid : string) : string := "snmpget -v2c -c public " +:+ ip +:+ " " +:+ oid.

Definition simulated (base range : Z) (ip_str : string) : Z := base + Z.of_N (hash ip_str) mod range.

(** * Power *)

Definition measuredPower (p : VertexProperties) : run (list string) Z := fun h =>
  if isHpe p then
    snmp ("snmpwalk -v2c -c public " +:+ frontText p +:+ " 1.3.6.1.4.1.25506.8.35.9.1.1.1.6") "INTEGER:" 0 h
  else let '(h, raw) := getPowerReportViaSsh (frontText p) "admin" h in (h, omap_out parsePowerOutput raw).

Definition powerOf (mode : DeploymentMode) (p : VertexProperties) : run (list string) Z := fun h =>
  match mode with
  | MININET => (h, Ret (syntheticPowerMilliwattsFor (v_dpid p)))
  | TESTBED => measuredPower p h
  end.

Fixpoint fetchPowerReportInternal (mode : DeploymentMode) (vs : list VertexProperties) (result : list json) : run (list string) json := fun h =>
  match vs with
  | [] => (h, Ret (JArray result))
  | p :: vs =>
      if negb (isSwitch p) then fetchPowerReportInternal mode vs result h
      else if negb (v_isUp p) then fetchPowerReportInternal mode vs (result ++ [powerEntry p 0 JInteger]) h
      else
        let '(h, r) := powerOf mode p h in
        match r with
        | Throw e => (h, Throw e)
        | Ret power_mW => fetchPowerReportInternal mode vs (result ++ [powerEntry p power_mW JUnsigned]) h
        end
  end.

Definition getSingleSwitchPowerReport (mode : DeploymentMode) (deviceIdentifier : string) (t : Topology) : run (list string) json := fun h =>
  match ipStringToUint32 deviceIdentifier with
  | Throw e => (h, Throw e)
  | Ret a =>
      match findSwitchByIp a t ≫= (fun v => vertices (m_graph t) !! v) with
      | None => (h, Ret JNull)
      | Some p => let '(h, r) := powerOf mode p h in (h, omap_out (fun power_mW => powerEntry p power_mW JUnsigned) r)
      end
  end.

(** * CPU, memory and temperature *)

Definition utilizationOf (m : Metric) (mode : DeploymentMode) (p : VertexProperties) (ip_str : string) : run (list string) Z := fun h =>
  match mode with
  | MININET => (h, Ret (simulated 10 50 ip_str))
  | TESTBED => snmp (snmpGet ip_str (oid m (isHpe p))) (if isHpe p then "INTEGER:" else "Gauge32:") (-1) h
  end.

(** The entry of one vertex, if it has one. *)
Definition utilizationEntry (m : Metric) (mode : DeploymentMode) (p : VertexProperties) : run (list string) (option json) := fun h =>
  if negb (isSwitch p) then (h, Ret None)
  else if negb (v_isUp p) then (h, Ret (Some (JInteger (-1))))
  else let '(h, r) := utilizationOf m mode p (frontText p) h in (h, omap_out (fun n => Some (JInteger n)) r).

Definition temperatureEntry (mode : DeploymentMode) (p : VertexProperties) : run (list string) (option json) := fun h =>
  if negb (isSwitch p) then (h, Ret None)
  else if negb (v_isUp p) then (h, Ret (Some (JInteger (-1))))
  else if negb (isHpe p) && bool_decide (mode <> MININET) then
    (h, Ret (Some (JString "The temperature function only supports the HPE 5520.")))
  else
    match mode with
    | MININET => (h, Ret (Some (JInteger (simulated 25 25 (frontText p)))))
    | TESTBED =>
        let '(h, r) := snmp (snmpGet (frontText p) "1.3.6.1.4.1.25506.2.6.1.1.1.1.12.212") "INTEGER:" (-1) h in
        (h, omap_out (fun n => Some (JInteger n)) r)
    end.

(** The loop over the vertices; [result] stays null while nothing has been stored. *)
Fixpoint fetchReport (entry : VertexProperties -> run (list string) (option json)) (vs : list VertexProperties) (result : json)
  : run (list string) json := fun h =>
  match vs with
  | [] => (h, Ret result)
  | p :: vs =>
      let '(h, r) := entry p h in
      match r with
      | Throw e => (h, Throw e)
      | Ret None => fetchReport entry vs result h
      | Ret (Some v) => fetchReport entry vs (setSlot (frontText p) v result) h
      end
  end.

Definition fetchCpuReportInternal (mode : DeploymentMode) (vs : list VertexProperties) := fetchReport (utilizationEntry Cpu mode) vs JNull.
Definition fetchMemoryReportInternal (mode : DeploymentMode) (vs : list VertexProperties) := fetchReport (utilizationEntry Memory mode) vs JNull.
Definition fetchTemperatureReportInternal (mode : DeploymentMode) (vs : list VertexProperties) := fetchReport (temperatureEntry mode) vs JNull.

Definition getSingleSwitchCpuReport (mode : DeploymentMode) (deviceIdentifier : string) (t : Topology) : run (list string) json := fun h =>
  match list_find (fun p => (isSwitch p && bool_decide (frontText p = deviceIdentifier)) = true) (vertices (m_graph t)) with
  | None => (h, Ret (JObject [(deviceIdentifier, JString "Switch not found in topology")]))
  | Some (_, p) =>
      if negb (v_isUp p) then (h, Ret (JObject [(deviceIdentifier, JString "Switch is currently down")]))
      else
        let '(h, r) := utilizationOf Cpu mode p deviceIdentifier h in
        (h, omap_out (fun cpu => JObject [("dpid", JUnsigned (v_dpid p)); ("cpu_usage", JInteger cpu)]) r)
  end.

(** * The status worker *)

Record StatusReports := { m_cachedPowerReport : json; m_cachedCpuReport : json; m_cachedMemoryReport : json; m_cachedTemperatureReport : json }.

Definition initialReports : StatusReports := {|
  m_cachedPowerReport := JArray []; m_cachedCpuReport := JObject []; m_cachedMemoryReport := JObject []; m_cachedTemperatureReport := JObject [] |}.

(** One iteration; every fetch copies the graph for itself. *)
Definition statusUpdate (mode : DeploymentMode) (power cpu memory temperature : list VertexProperties) (st : StatusReports * list string)
  : StatusReports * list string :=
  let '(reports, h) := st in
  let '(h, newPower) := fetchPowerReportInternal mode power [] h in
  match newPower with
  | Throw _ => (reports, h)
  | Ret newPower =>
      let '(h, newCpu) := fetchCpuReportInternal mode cpu h in
      match newCpu with
      | Throw _ => (reports, h)
      | Ret newCpu =>
          let '(h, newMemory) := fetchMemoryReportInternal mode memory h in
          match newMemory with
          | Throw _ => (reports, h)
          | Ret newMemory =>
              let '(h, newTemp) := fetchTemperatureReportInternal mode temperature h in
              match newTemp with
              | Throw _ => (reports, h)
              | Ret newTemp =>
                  ({| m_cachedPowerReport := newPower; m_cachedCpuReport := newCpu; m_cachedMemoryReport := newMemory;
                      m_cachedTemperatureReport := newTemp |}, h)
              end
          end
      end
  end.
End Reports.

(** * The smart-plug table *)

Definition plugOfNode (mode : DeploymentMode) (node : json) : outcome (option SwitchInfo) :=
  let! vt := jfield get_i32 node "vertex_type" in
  let! ips := get_ips node "ip" in
  if bool_decide (vertexTypeOfInt vt = SWITCH) && bool_decide (mode = TESTBED) then
    match ips with
    | [] => Ret None
    | a :: _ =>
        let! plug := jfield get_string node "smart_plug_ip" in
        let! outlet := jfield get_i32 node "smart_plug_outlet" in
        Ret (Some {| switchIp := ipToString a; plugIp := plug; plugIdx := outlet |})
    end
  else Ret None.

Fixpoint readPlugs (mode : DeploymentMode) (nodes : list json) : run (list SwitchInfo) unit := fun table =>
  match nodes with
  | [] => (table, Ret tt)
  | node :: nodes =>
      match plugOfNode mode node with
      | Throw e => (table, Throw e)
      | Ret p => readPlugs mode nodes (table ++ option_list p)
      end
  end.

(** [file] is as for [loadStaticTopologyFromFile]: missing, unreadable, or a value. *)
Definition fetchSmartPlugInfoFromFile (mode : DeploymentMode) (file : option (option json)) : run (list SwitchInfo) unit := fun table =>
  match file with
  | None => (table, Ret tt)
  | Some None => (table, Throw JsonParseError)
  | Some (Some j) => match jindex j "nodes" with Throw e => (table, Throw e) | Ret nodes => readPlugs mode (jiter nodes) table end
  end.

(** * Properties *)

Section Simulated.
Context `{Machine} (hash : string -> N).

Lemma simulated_range base range s : 0 < range -> base <= simulated hash base range s < base + range.
Proof. intros Hr. unfold simulated. pose proof (Z.mod_pos_bound (Z.of_N (hash s)) range Hr). lia. Qed.

(** The power report of a simulated network has exactly one entry per switch, in vertex order; a
    switch that is down draws 0 and one that is up between 30 and 150 W, so the two are never
    confused. *)
Theorem power_report_bounds vs result h :
  exists entries, fetchPowerReportInternal MININET vs result h = (h, Ret (JArray (result ++ entries))) /\
    Forall2 (fun p e => exists w c, e = powerEntry p w c /\ (if v_isUp p then 30000 <= w < 150000 else w = 0))
      (filter (fun p => isSwitch p = true) vs) entries.
Proof.
  revert result. induction vs as [|p vs IH]; intros result; cbn [fetchPowerReportInternal].
  { exists []. by rewrite app_nil_r. }
  rewrite filter_cons. destruct (isSwitch p); cbn [negb]; [rewrite decide_True by done|rewrite decide_False by done; apply IH].
  destruct (v_isUp p) eqn:Hup; cbn [negb powerOf].
  - destruct (IH (result ++ [powerEntry p (syntheticPowerMilliwattsFor (v_dpid p)) JUnsigned])) as (es & -> & HF).
    eexists (_ :: es). rewrite <-app_assoc. split; [done|]. constructor; [|done].
    rewrite Hup. eexists _, _; split; [done|apply synthetic_range].
  - destruct (IH (result ++ [powerEntry p 0 JInteger])) as (es & -> & HF).
    eexists (_ :: es). rewrite <-app_assoc. split; [done|]. constructor; [|done]. rewrite Hup. eauto.
Qed.

(** The last switch with this first address. *)
Definition switchAt (a : string) (vs : list VertexProperties) : option VertexProperties :=
  last (filter (fun p => isSwitch p = true /\ frontText p = a) vs).

(** A report names exactly the addresses of the switches: -1 for one that is down, else a value in range. *)
Definition reports (low high : Z) (vs : list VertexProperties) (j : json) : Prop :=
  forall a, match switchAt a vs with
            | None => jfind j a = None
            | Some p => exists n, jfind j a = Some (JInteger n) /\ (if v_isUp p then low <= n < high else n = -1)
            end.

Lemma jfind_setSlot k v j a : jfind (setSlot k v j) a = if bool_decide (a = k) then Some v else jfind j a.
Proof.
  destruct j; cbn; [try (case_bool_decide; done)..|].
  case_bool_decide as E; [subst; apply assocSet_same|by apply assocSet_other].
Qed.

Lemma switchAt_app vs p a :
  switchAt a (vs ++ [p]) = if isSwitch p && bool_decide (frontText p = a) then Some p else switchAt a vs.
Proof.
  unfold switchAt. rewrite filter_app, filter_cons, filter_nil.
  destruct (decide (isSwitch p = true /\ frontText p = a)) as [[-> ->] | Hn]; [by rewrite last_snoc, bool_decide_true|].
  rewrite app_nil_r. destruct (isSwitch p); [|done]. cbn [andb]. rewrite bool_decide_false; naive_solver.
Qed.

(** The loop, for entries that are simulated. *)
Lemma fetchReport_reports entry low high vs h :
  (forall p h, isSwitch p = false -> entry p h = (h, Ret None)) ->
  (forall p h, isSwitch p = true -> exists n, entry p h = (h, Ret (Some (JInteger n))) /\ (if v_isUp p then low <= n < high else n = -1)) ->
  forall seen result, reports low high seen result ->
  exists j, fetchReport entry vs result h = (h, Ret j) /\ reports low high (seen ++ vs) j.
Proof.
  intros Hno Hyes. induction vs as [|p vs IH]; intros seen result Hr; cbn [fetchReport].
  { exists result. by rewrite app_nil_r. }
  destruct (isSwitch p) eqn:Hs.
  - destruct (Hyes p h Hs) as (n & -> & Hn).
    destruct (IH (seen ++ [p]) (setSlot (frontText p) (JInteger n) result)) as (j & -> & Hj).
    { intros a. rewrite switchAt_app, Hs, jfind_setSlot. cbn [andb]. specialize (Hr a).
      destruct (bool_decide (frontText p = a)) eqn:E1, (bool_decide (a = frontText p)) eqn:E2; [by eauto| | |done];
        rewrite ?bool_decide_eq_true, ?bool_decide_eq_false in *; congruence. }
    exists j. by rewrite <-app_assoc in Hj.
  - rewrite Hno by done. destruct (IH (seen ++ [p]) result) as (j & -> & Hj).
    { intros a. rewrite switchAt_app, Hs. apply Hr. }
    exists j. by rewrite <-app_assoc in Hj.
Qed.

Lemma reports_nil low high : reports low high [] JNull.
Proof. done. Qed.

(** In a simulated network an iteration of the status worker never fails, runs no command and replaces
    all four reports: each names exactly the addresses of the switches, with -1 for one that is down and
    otherwise a CPU or memory use of 10 to 59 and a temperature of 25 to 49, and the power report has one
    entry per switch, 0 when it is down and else from 30 W up to 150 W. *)
Theorem simulated_reports_bounds power cpu memory temperature old h :
  exists r, statusUpdate hash MININET power cpu memory temperature (old, h) = (r, h) /\
    reports 10 60 cpu (m_cachedCpuReport r) /\ reports 10 60 memory (m_cachedMemoryReport r) /\
    reports 25 50 temperature (m_cachedTemperatureReport r) /\
    exists entries, m_cachedPowerReport r = JArray entries /\
      Forall2 (fun p e => exists w c, e = powerEntry p w c /\ (if v_isUp p then 30000 <= w < 150000 else w = 0))
        (filter (fun p => isSwitch p = true) power) entries.
Proof.
  unfold statusUpdate.
  destruct (power_report_bounds power [] h) as (es & -> & Hes).
  assert (forall m vs, exists j, fetchReport (utilizationEntry hash m MININET) vs JNull h = (h, Ret j) /\ reports 10 60 vs j) as Hu.
  { intros m vs. apply (fetchReport_reports _ _ _ _ _) with (seen := []); [| |apply reports_nil].
    - intros p h' Hs. unfold utilizationEntry. by rewrite Hs.
    - intros p h' Hs. unfold utilizationEntry, utilizationOf. rewrite Hs. destruct (v_isUp p); cbn; eexists; (split; [done|]); [|done].
      by apply (simulated_range 10 50). }
  assert (exists j, fetchReport (temperatureEntry hash MININET) temperature JNull h = (h, Ret j) /\ reports 25 50 temperature j) as (jt & Ht & Htr).
  { apply (fetchReport_reports _ _ _ _ _) with (seen := []); [| |apply reports_nil].
    - intros p h' Hs. unfold temperatureEntry. by rewrite Hs.
    - intros p h' Hs. unfold temperatureEntry. rewrite Hs, andb_false_r. destruct (v_isUp p); cbn; eexists; (split; [done|]); [|done].
      by apply (simulated_range 25 25). }
  unfold fetchCpuReportInternal, fetchMemoryReportInternal, fetchTemperatureReportInternal.
  destruct (Hu Cpu cpu) as (jc & -> & Hc), (Hu Memory memory) as (jm & -> & Hm). rewrite Ht.
  eexists; split; [done|]; cbn; eauto 6.
Qed.
End Simulated.

(** A reading, a text without one, and a number that does not fit. *)
Example reading_found : regexNumber "INTEGER:" "iso.3.6.1 = INTEGER: 23 percent" = Some "23".
Proof. reflexivity. Qed.

Example reading_absent : regexNumber "Gauge32:" "Timeout: No Response from 10.0.0.1" = None.
Proof. reflexivity. Qed.

Example power_line_read :
  parsePowerOutput ("show power" +:+ String newline ("1    ICX7250-24 24-p   380000000   200" +:+ String newline "")) = 38.
Proof. reflexivity. Qed.
