(* ===== verification/DeviceRun.v ===== *)
(** The threads of the device manager (src/ndt_core/power_management/DeviceConfigurationAndPowerManager.cpp:
    start, pingWorker, reportBridgeQueryFailure, reportBridgeQueryRecovered, describeCommandStatus,
    statusUpdateWorker, openflowTablesUpdateWorker).

    The kind of the data plane is read once, by [start].  The liveness loop is a sequence of ticks, between
    which other threads change the topology; the two other workers repeat an iteration and a sleep that
    ends early when the manager is stopped. *)

From S2P Require Import Prelude CStrings NetUtils Commands Json GraphTypes Topology TopologyProps TopologyInterface FlowDispatch Routing SleepLoop TopologyRun.
From S2P Require Import FlowTableCache DevicePoll DevicePower DeviceReports.
Local Open Scope string_scope.
Local Open Scope list_scope.
Local Open Scope Z_scope.

(** * Reports about the bridge query *)

Inductive BridgeLog := BridgeQueryFailed (reason : string) | BridgeQueryWorks (failures : Z).

Definition reportBridgeQueryFailure (reason : string) (r : FailureRun) : FailureRun * list BridgeLog :=
  let '(r, first) := recordFailure r in (r, if first then [BridgeQueryFailed reason] else []).

Definition reportBridgeQueryRecovered (r : FailureRun) : FailureRun * list BridgeLog :=
  let '(r, ended) := recordSuccess r in (r, match ended with Some failures => [BridgeQueryWorks failures] | None => [] end).

Section Liveness.
Context `{Machine} (strerror : Z -> string) (parse : string -> outcome json) (P4_PROXY_IP_AND_PORT : string) (mode : DeploymentMode).

(** DeviceConfigurationAndPowerManager::describeCommandStatus. *)
Definition describeBridgeStatus (errno_ status : Z) : string := describeCommandStatus strerror errno_ status "sudo ovs-vsctl list-br" (-1).

(** Why the query of a tick failed, if it did. *)
Definition bridgeFailure (errno_ : Z) (h : list string) : option string :=
  match popen h "sudo ovs-vsctl list-br 2>/dev/null" with
  | None => Some "could not run the command at all"
  | Some (_, rc) => if bool_decide (rc = 0) then None else Some (describeBridgeStatus errno_ rc)
  end.

Definition reportBridges (errno_ : Z) (h : list string) (r : FailureRun) : FailureRun * list BridgeLog :=
  match bridgeFailure errno_ h with
  | Some reason => reportBridgeQueryFailure reason r
  | None => reportBridgeQueryRecovered r
  end.

(** * The manager *)

Record Manager := { m_dataPlaneIsBmv2 : bool; m_switchSmartPlugTable : list SwitchInfo; m_bridgeQueryFailures : FailureRun }.

(** [start]: what is read before the threads run; an exception of the plug file leaves it. *)
Definition startManager (file : option (option json)) (t : Topology) : outcome Manager :=
  let bmv2 := refreshDataPlaneKind t in
  match mode with
  | TESTBED =>
      match fetchSmartPlugInfoFromFile mode file [] with
      | (_, Throw e) => Throw e
      | (table, Ret _) => Ret {| m_dataPlaneIsBmv2 := bmv2; m_switchSmartPlugTable := table; m_bridgeQueryFailures := {| m_consecutive := 0 |} |}
      end
  | MININET => Ret {| m_dataPlaneIsBmv2 := bmv2; m_switchSmartPlugTable := []; m_bridgeQueryFailures := {| m_consecutive := 0 |} |}
  end.

(** A tick, with the answers of the machine and of the pings, or a change by another thread. *)
Inductive LivenessEvent := PingTick (h : list string) (alive : Z -> bool) (errno_ : Z) | Otherwise (op : TopologyOp).

Definition pingStep (e : LivenessEvent) (m : Manager) (t : Topology) : Manager * Topology * list BridgeLog :=
  match e with
  | Otherwise op => (m, runOp t op, [])
  | PingTick h alive errno_ =>
      let '(r, logs) := if bool_decide (mode = MININET) then reportBridges errno_ h (m_bridgeQueryFailures m) else (m_bridgeQueryFailures m, []) in
      ({| m_dataPlaneIsBmv2 := m_dataPlaneIsBmv2 m; m_switchSmartPlugTable := m_switchSmartPlugTable m; m_bridgeQueryFailures := r |},
       pingPass parse P4_PROXY_IP_AND_PORT mode (m_dataPlaneIsBmv2 m) alive h t, logs)
  end.

Fixpoint pingWorker (es : list LivenessEvent) (m : Manager) (t : Topology) : Manager * Topology * list BridgeLog :=
  match es with
  | [] => (m, t, [])
  | e :: es =>
      let '(m, t, logs) := pingStep e m t in
      let '(m, t, more) := pingWorker es m t in (m, t, logs ++ more)
  end.
End Liveness.

(** * The workers with a sleep *)

Definition kWorkerSleep : nat := 10.

Section Workers.
Context `{Machine} (hash : string -> N) (ask : nat -> string -> outcome (string * SpecFloat.spec_float)) (parse : string -> outcome json)
  (RYU_IP_AND_PORT P4_PROXY_IP_AND_PORT : string) (mode : DeploymentMode) (stopAt : nat) (duration : nat -> nat).

(** [graphs t i]: the vertices that fetch [i] of the iteration at second [t] copies. *)
Definition statusUpdateWorker (graphs : nat -> nat -> list VertexProperties) (st : StatusReports * list string)
  : option (list nat * nat * (StatusReports * list string)) :=
  sleepingWorker stopAt kWorkerSleep duration (fun t => statusUpdate hash mode (graphs t 0%nat) (graphs t 1%nat) (graphs t 2%nat) (graphs t 3%nat))
    (S stopAt) 0 st.

Definition openflowTablesUpdateWorker (graphs : nat -> list VertexProperties) (st : list SwitchTable * Poll)
  : option (list nat * nat * (list SwitchTable * Poll)) :=
  sleepingWorker stopAt kWorkerSleep duration (fun t => openflowTablesUpdate (ask t) parse RYU_IP_AND_PORT P4_PROXY_IP_AND_PORT (graphs t)) (S stopAt) 0 st.

(** The worker that polls the flow tables ends when the manager is stopped, or with the poll that is under way
    then.  It polls at once, then ten seconds after each poll has ended, never after the stop; what it
    leaves is the result of exactly these polls, one after the other. *)
Theorem tables_worker_schedule graphs st :
  exists times end_,
    openflowTablesUpdateWorker graphs st =
      Some (times, end_, foldl (fun st t => openflowTablesUpdate (ask t) parse RYU_IP_AND_PORT P4_PROXY_IP_AND_PORT (graphs t) st) st times) /\
    scheduled stopAt kWorkerSleep duration 0 times end_.
Proof. apply sleepingWorker_scheduled; [unfold kWorkerSleep; lia|lia]. Qed.

Lemma status_worker_schedule graphs st :
  exists times end_,
    statusUpdateWorker graphs st =
      Some (times, end_, foldl (fun st t => statusUpdate hash mode (graphs t 0%nat) (graphs t 1%nat) (graphs t 2%nat) (graphs t 3%nat) st) st times) /\
    scheduled stopAt kWorkerSleep duration 0 times end_.
Proof. apply sleepingWorker_scheduled; [unfold kWorkerSleep; lia|lia]. Qed.
End Workers.

(** ** The liveness loop *)

Section LivenessProps.
Context `{Machine} (strerror : Z -> string) (parse : string -> outcome json) (P4_PROXY_IP_AND_PORT : string).

Abbreviation pinging := (pingWorker strerror parse P4_PROXY_IP_AND_PORT).

(** The failures of the bridge query of a run, tick by tick. *)
Definition bridgeFailures (es : list LivenessEvent) : list (option string) :=
  omap (fun e => match e with PingTick h _ errno_ => Some (bridgeFailure strerror errno_ h) | Otherwise _ => None end) es.

(** What should be reported, when the last [n] queries failed: the first failure of a run with its reason, and
    the length of the run when a query works again. *)
Fixpoint bridgeReports (n : Z) (fs : list (option string)) : list BridgeLog :=
  match fs with
  | [] => []
  | Some reason :: fs => (if bool_decide (n = 0) then [BridgeQueryFailed reason] else []) ++ bridgeReports (n + 1) fs
  | None :: fs => (if bool_decide (n = 0) then [] else [BridgeQueryWorks n]) ++ bridgeReports 0 fs
  end.

Lemma pingWorker_reports es m t :
  0 <= m_consecutive (m_bridgeQueryFailures m) -> m_consecutive (m_bridgeQueryFailures m) + Z.of_nat (length es) < 2 ^ 32 ->
  let '(m', _, logs) := pinging MININET es m t in
  logs = bridgeReports (m_consecutive (m_bridgeQueryFailures m)) (bridgeFailures es) /\ m_dataPlaneIsBmv2 m' = m_dataPlaneIsBmv2 m.
Proof.
  revert m t. induction es as [|e es IH]; intros m t H0 Hn; cbn [pingWorker]; [done|]. cbn [length] in Hn.
  destruct e as [h alive errno_|op]; cbn [pingStep].
  - rewrite bool_decide_true by done. unfold bridgeFailures. cbn [omap list_omap]. fold (bridgeFailures es). unfold reportBridges.
    destruct (bridgeFailure strerror errno_ h) as [reason|] eqn:Ef.
    + unfold reportBridgeQueryFailure, recordFailure. cbn [bridgeReports].
      match goal with |- context[pingWorker _ _ _ _ es ?m1 ?t1] => specialize (IH m1 t1); destruct (pingWorker _ _ _ _ es m1 t1) as [[m' t'] more] end.
      cbn in IH. rewrite u32_id in IH by lia. destruct IH as [-> ->]; [lia|lia|done].
    + unfold reportBridgeQueryRecovered, recordSuccess. cbn [bridgeReports].
      case_bool_decide as Hz;
        match goal with |- context[pingWorker _ _ _ _ es ?m1 ?t1] => specialize (IH m1 t1); destruct (pingWorker _ _ _ _ es m1 t1) as [[m' t'] more] end;
        cbn in IH; (destruct IH as [-> ->]; [lia|lia|]); by rewrite ?Hz.
  - specialize (IH m (runOp t op)). destruct (pingWorker _ _ _ _ es m (runOp t op)) as [[m' t'] more]. apply IH; lia.
Qed.

(** ** What a run of ticks amounts to *)

(** Every switch judged on the evidence at hand. *)
Definition judgeAll (bridges : option (list string)) (p4State : option json) : Topology -> Topology :=
  onGraph (fun g => {| vertices := afterTick bridges p4State <$> vertices g; edges := edges g |}).

Lemma pingVertices_rest alive bridges p4State v graph t :
  set_graph (m_graph t) (pingVertices MININET alive bridges p4State v graph t) = t.
Proof.
  revert v t. induction graph as [|p graph IH]; intros v t; cbn [pingVertices]; [by destruct t|].
  transitivity (set_graph (m_graph t) (pingVertex MININET alive bridges p4State v p t)).
  - rewrite <- (IH (S v) (pingVertex MININET alive bridges p4State v p t)) at 2. done.
  - unfold pingVertex. destruct (isSwitch p); [|by destruct t]. destruct (livenessOf bridges p4State p); by destruct t.
Qed.

Lemma pingPass_judges (bmv2 : bool) alive h t :
  pingPass parse P4_PROXY_IP_AND_PORT MININET bmv2 alive h t =
    judgeAll (listBridges h) (if bmv2 then fetchP4SwitchState parse P4_PROXY_IP_AND_PORT h else None) t.
Proof.
  unfold pingPass. rewrite bool_decide_true by done. cbn [andb]. set (b := listBridges h).
  set (p4 := if bmv2 then _ else None). set (t' := pingVertices _ _ _ _ _ _ t).
  assert (forall w, vertices (m_graph t') !! w = afterTick b p4 <$> vertices (m_graph t) !! w /\ edges (m_graph t') = edges (m_graph t)) as Hg.
  { intros w. destruct (pingVertices_lookup alive b p4 (vertices (m_graph t)) 0 t w) as [Hv He]; [done|]. split; [|done].
    unfold t'. rewrite Hv. destruct (vertices (m_graph t) !! w) eqn:Hq; [|done]. apply lookup_lt_Some in Hq. by rewrite decide_True by lia. }
  pose proof (pingVertices_rest alive b p4 0 (vertices (m_graph t)) t) as Hr. fold t' in Hr. 
  assert ({| vertices := afterTick b p4 <$> vertices (m_graph t); edges := edges (m_graph t) |} = m_graph t') as Hm.
  { rewrite <- (proj2 (Hg 0%nat)). destruct (m_graph t') as [vs es]; cbn in *. f_equal. apply list_eq. intros w.
    by rewrite list_lookup_fmap, (proj1 (Hg w)). }
  unfold judgeAll, onGraph. rewrite Hm. transitivity (set_graph (m_graph t') (set_graph (m_graph t) t')); [by destruct t'|by rewrite Hr].
Qed.

(** The same run, with every tick judging all switches at once. *)
Definition judged (bmv2 : bool) (t : Topology) (e : LivenessEvent) : Topology :=
  match e with
  | Otherwise op => runOp t op
  | PingTick h _ _ => judgeAll (listBridges h) (if bmv2 then fetchP4SwitchState parse P4_PROXY_IP_AND_PORT h else None) t
  end.

Lemma pingWorker_judges es m t :
  (pinging MININET es m t).1.2 = foldl (judged (m_dataPlaneIsBmv2 m)) t es.
Proof.
  revert m t. induction es as [|e es IH]; intros m t; cbn [pingWorker foldl]; [done|].
  destruct e as [h alive errno_|op]; cbn [pingStep judged].
  - rewrite bool_decide_true by done. destruct (reportBridges _ _ _ _) as [r logs]. rewrite pingPass_judges.
    match goal with |- context[pingWorker _ _ _ _ es ?m1 ?t1] => specialize (IH m1 t1); destruct (pingWorker _ _ _ _ es m1 t1) as [[m' t'] more] end.
    exact IH.
  - specialize (IH m (runOp t op)). destruct (pingWorker _ _ _ _ es m (runOp t op)) as [[m' t'] more]. exact IH.
Qed.

Lemma refreshDataPlaneKind_spec t : refreshDataPlaneKind t = bool_decide (allOfKind BMV2 t).
Proof.
  unfold refreshDataPlaneKind. case_bool_decide as Hb.
  - by apply bmv2_groups in Hb as [dpids ->].
  - destruct (getSwitchKindGroups t) as [|[[] ds] [|]] eqn:E; try done. destruct Hb. apply bmv2_groups. by exists ds.
Qed.


(** When the manager starts before the file has been loaded, which nothing prevents, the proxy is never asked:
    no later tick changes a bmv2 switch, whatever becomes of it. *)
Lemma late_load_blinds_liveness file ryu m hs t w p :
  startManager MININET file (newTopology ryu) = Ret m -> vertices (m_graph t) !! w = Some p -> switchKind p = BMV2 ->
  vertices (m_graph (foldl (judged (m_dataPlaneIsBmv2 m)) t ((fun x => PingTick x.1 x.2 0) <$> hs))) !! w = Some p.
Proof.
  intros Hm Hp Hk. assert (m_dataPlaneIsBmv2 m = false) as -> by (injection Hm as <-; by vm_compute).
  revert t Hp. induction hs as [|[h alive] hs IH]; intros t Hp; cbn [fmap list_fmap foldl]; [done|]. apply IH.
  cbn. rewrite list_lookup_fmap, Hp. cbn. unfold afterTick, livenessOf. rewrite bool_decide_true by done. by destruct (isSwitch p).
Qed.
End LivenessProps.

(** * Sample *)

(** A machine on which the bridges cannot be listed at first, and whose proxy has lost the switch. *)
Definition lossyMachine : Machine := {|
  popen := fun h cmd => if bool_decide (h = []) then None else Some ("", if bool_decide (length h = 1%nat) then 256 else 0);
  system := fun _ _ => 0;
  execute := fun _ _ => Ret ("down" +:+ String newline "200") |}.

Definition lossyState (s : string) : outcome json :=
  if bool_decide (s = "down") then Ret (JObject [("switches", JObject [("1", JObject [("probe_ok", JBool false)])])]) else Throw JsonParseError.

Definition bmv2Topology : Topology := (loadStaticTopologyFromFile MININET (Some (Some monitorFile)) (newTopology "ryu:8080")).1.

Definition livenessTrace : list LivenessEvent :=
  [Otherwise (OpVertexUp 0); PingTick [] (fun _ => true) 0; PingTick ["a"] (fun _ => true) 0; PingTick ["a"; "b"] (fun _ => true) 0].

Definition freshManager : Manager := {|
  m_dataPlaneIsBmv2 := true; m_switchSmartPlugTable := []; m_bridgeQueryFailures := {| m_consecutive := 0 |} |}.

