(* ===== verification/HttpRouter.v ===== *)
(** The routing table of the HTTP interface (src/ndt_core/http/HttpSession.cpp, [buildResponse]):
    which handler serves a request, by its method and target.

    The chain of conditions is a table searched for its first match.  The theorem shows that the order of
    the chain does not matter: at most one entry fits a request, so every documented target reaches its
    own handler and only that one. *)

From S2P Require Import Prelude CStrings.
From Stdlib Require Import Ascii.
Local Open Scope string_scope.
Local Open Scope list_scope.

(** The methods the chain tells apart. *)
Inductive verb := options | get | post | otherVerb.

#[export] Instance verb_eq_dec : EqDecision verb.
Proof. solve_decision. Defined.

(** The handlers, [handle...] in the source. *)
Inductive Endpoint :=
  | LinkFailure | LinkRecovery | GetGraphData | GetDetectedFlowData | GetDetectedTopKFlowData
  | GetSwitchOpenflowEntries | GetPowerReport | GetSwitchesPowerState | SetSwitchesPowerState
  | InstallFlowEntry | DeleteFlowEntry | ModifyFlowEntry
  | InstallGroupEntry | DeleteGroupEntry | ModifyGroupEntry
  | InstallMeterEntry | DeleteMeterEntry | ModifyMeterEntry
  | InstallModifyDeleteFlowEntries | GetCpuUtilization | GetMemoryUtilization
  | InformSwitchEntered | ModifyDeviceName | ReceivedSimulationCase | SimulationCompleted
  | GetStaticTopology | InformAllDestinationPaths | AppRegister | InputTextIntent
  | GetNickname | ModifyNickname | GetTemperature | GetPathSwitchCount | GetOpenflowCapacity
  | SetHistoricalLoggingState | GetAvgLinkUsage | GetTotalInputTrafficLoadPassingASwitch
  | GetNumOfFlowsPassingASwitch | AcquireLock | RenewLock | ReleaseLock | NotFound.

#[export] Instance Endpoint_eq_dec : EqDecision Endpoint.
Proof. solve_decision. Defined.

(** How a condition tests the target: [target == path] or [target.starts_with(path)]. *)
Inductive Pattern := Equals (path : string) | StartsWith (path : string).

Definition path (p : Pattern) : string := match p with Equals s | StartsWith s => s end.

Definition fitsTarget (p : Pattern) (target : string) : bool :=
  match p with
  | Equals s => bool_decide (target = s)
  | StartsWith s => String.prefix s target
  end.

Record Route := { method : verb; pattern : Pattern; endpoint : Endpoint }.

Definition rt (m : verb) (p : Pattern) (e : Endpoint) : Route := {| method := m; pattern := p; endpoint := e |}.

(** The conditions, in the order of the chain. *)
Definition routes : list Route :=
  [ rt post (Equals "/ndt/link_failure_detected") LinkFailure;
    rt post (Equals "/ndt/link_recovery_detected") LinkRecovery;
    rt get (Equals "/ndt/get_graph_data") GetGraphData;
    rt get (Equals "/ndt/get_detected_flow_data") GetDetectedFlowData;
    rt get (StartsWith "/ndt/get_detected_top_k_flow_data") GetDetectedTopKFlowData;
    rt get (Equals "/ndt/get_switch_openflow_table_entries") GetSwitchOpenflowEntries;
    rt get (Equals "/ndt/get_power_report") GetPowerReport;
    rt get (StartsWith "/ndt/get_switches_power_state") GetSwitchesPowerState;
    rt post (StartsWith "/ndt/set_switches_power_state") SetSwitchesPowerState;
    rt post (Equals "/ndt/install_flow_entry") InstallFlowEntry;
    rt post (Equals "/ndt/delete_flow_entry") DeleteFlowEntry;
    rt post (Equals "/ndt/modify_flow_entry") ModifyFlowEntry;
    rt post (Equals "/ndt/install_group_entry") InstallGroupEntry;
    rt post (Equals "/ndt/delete_group_entry") DeleteGroupEntry;
    rt post (Equals "/ndt/modify_group_entry") ModifyGroupEntry;
    rt post (Equals "/ndt/install_meter_entry") InstallMeterEntry;
    rt post (Equals "/ndt/delete_meter_entry") DeleteMeterEntry;
    rt post (Equals "/ndt/modify_meter_entry") ModifyMeterEntry;
    rt post (Equals "/ndt/install_flow_entries_modify_flow_entries_and_delete_flow_entries")
       InstallModifyDeleteFlowEntries;
    rt get (Equals "/ndt/get_cpu_utilization") GetCpuUtilization;
    rt get (Equals "/ndt/get_memory_utilization") GetMemoryUtilization;
    rt get (StartsWith "/ndt/inform_switch_entered") InformSwitchEntered;
    rt post (StartsWith "/ndt/modify_device_name") ModifyDeviceName;
    rt post (StartsWith "/ndt/received_a_simulation_case") ReceivedSimulationCase;
    rt post (StartsWith "/ndt/simulation_completed") SimulationCompleted;
    rt get (StartsWith "/ndt/get_static_topology_json") GetStaticTopology;
    rt post (StartsWith "/ndt/inform_all_destination_paths") InformAllDestinationPaths;
    rt post (StartsWith "/ndt/app_register") AppRegister;
    rt post (StartsWith "/ndt/intent_translator/text") InputTextIntent;
    rt get (StartsWith "/ndt/get_nickname") GetNickname;
    rt post (Equals "/ndt/modify_nickname") ModifyNickname;
    rt get (StartsWith "/ndt/get_temperature") GetTemperature;
    rt get (StartsWith "/ndt/get_path_switch_count") GetPathSwitchCount;
    rt get (StartsWith "/ndt/get_openflow_capacity") GetOpenflowCapacity;
    rt post (StartsWith "/ndt/historical_logging") SetHistoricalLoggingState;
    rt get (StartsWith "/ndt/get_average_link_usage") GetAvgLinkUsage;
    rt post (StartsWith "/ndt/get_total_input_traffic_load_passing_a_switch") GetTotalInputTrafficLoadPassingASwitch;
    rt post (StartsWith "/ndt/get_num_of_flows_passing_a_switch") GetNumOfFlowsPassingASwitch;
    rt post (StartsWith "/ndt/acquire_lock") AcquireLock;
    rt post (StartsWith "/ndt/renew_lock") RenewLock;
    rt post (StartsWith "/ndt/release_lock") ReleaseLock ].

Definition serves (m : verb) (target : string) (r : Route) : bool :=
  bool_decide (m = method r) && fitsTarget (pattern r) target.

Fixpoint firstRoute (m : verb) (target : string) (l : list Route) : Endpoint :=
  match l with
  | [] => NotFound
  | r :: l => if serves m target r then endpoint r else firstRoute m target l
  end.

(** The chain after the test for [OPTIONS], which is answered before it. *)
Definition route (m : verb) (target : string) : Endpoint := firstRoute m target routes.

(** * The order of the chain does not matter *)

(** One of two texts begins the other. *)
Definition comparable (s t : string) : bool := String.prefix s t || String.prefix t s.

(** Two texts that begin a common one are comparable. *)
Lemma prefixes_comparable s t u : String.prefix s u = true -> String.prefix t u = true -> comparable s t = true.
Proof.
  unfold comparable. revert t u. induction s as [|c s IH]; intros [|d t] [|a u]; try done.
  rewrite !prefix_cons. intros [->%bool_decide_eq_true Hs]%andb_prop [->%bool_decide_eq_true Ht]%andb_prop.
  rewrite bool_decide_true by done. apply (IH t u Hs Ht).
Qed.

Lemma fits_prefix p target : fitsTarget p target = true -> String.prefix (path p) target = true.
Proof. destruct p; cbn; [|done]. intros ->%bool_decide_eq_true. apply prefix_refl. Qed.

(** Entries with the same method have incomparable paths. *)
Definition apart (r s : Route) : bool := negb (bool_decide (method r = method s)) || negb (comparable (path (pattern r)) (path (pattern s))).

Fixpoint allApart (l : list Route) : bool :=
  match l with [] => true | r :: l => forallb (apart r) l && allApart l end.

Lemma routes_apart : allApart routes = true.
Proof. vm_compute. reflexivity. Qed.

Lemma apart_excludes m target r s : apart r s = true -> serves m target r = true -> serves m target s = true -> False.
Proof.
  unfold serves. intros Ha [->%bool_decide_eq_true Hr%fits_prefix]%andb_prop [E%bool_decide_eq_true Hs%fits_prefix]%andb_prop.
  unfold apart in Ha. rewrite bool_decide_true in Ha by done. by rewrite (prefixes_comparable _ _ _ Hr Hs) in Ha.
Qed.

Lemma firstRoute_some m target l r :
  allApart l = true -> r ∈ l -> serves m target r = true -> firstRoute m target l = endpoint r.
Proof.
  induction l as [|s l IH]; cbn; [by intros ? ?%elem_of_nil|]. intros [Ha Hl]%andb_prop [->|Hin]%elem_of_cons Hr.
  { by rewrite Hr. }
  destruct (serves m target s) eqn:Hs; [exfalso|by apply IH].
  rewrite forallb_forall in Ha. apply (apart_excludes m target s r); [|done..]. by apply Ha, list_elem_of_In.
Qed.

Lemma firstRoute_inv m target l :
  (exists r, r ∈ l /\ serves m target r = true /\ firstRoute m target l = endpoint r) \/
  (firstRoute m target l = NotFound /\ forall r, r ∈ l -> serves m target r = false).
Proof.
  induction l as [|s l IH]; cbn; [by right; split; [|intros ? ?%elem_of_nil]|].
  destruct (serves m target s) eqn:Hs; [left; exists s; split; [left|done]|].
  destruct IH as [(r & ? & ? & ?)|[? H]]; [left; exists r; split; [by right|done]|].
  right. split; [done|]. intros r [->|Hr]%elem_of_cons; [done|by apply H].
Qed.

Lemma NoDup_fmap_elem {A B} (f : A -> B) l x y : NoDup (f <$> l) -> x ∈ l -> y ∈ l -> f x = f y -> x = y.
Proof.
  intros Hd [i Hi]%list_elem_of_lookup [j Hj]%list_elem_of_lookup E.
  assert (i = j) as -> by (apply (NoDup_lookup (f <$> l) i j (f x) Hd); rewrite list_lookup_fmap; [by rewrite Hi|by rewrite Hj, E]).
  congruence.
Qed.

(** Every entry of the chain has a handler of its own. *)
Lemma endpoints_distinct : NoDup (endpoint <$> routes) /\ NotFound ∉ (endpoint <$> routes).
Proof. split; apply (bool_decide_unpack _); by vm_compute. Qed.

(** A request reaches a handler exactly when its method and target fit the one entry of that handler,
    whatever the order of the chain, and falls through to the not-found answer exactly when no entry fits. *)
Theorem routing_exact m target :
  (forall r, r ∈ routes -> (route m target = endpoint r <-> serves m target r = true)) /\
  (route m target = NotFound <-> forall r, r ∈ routes -> serves m target r = false).
Proof.
  destruct endpoints_distinct as [Hd Hn].
  assert (Hself : forall r, r ∈ routes -> endpoint r <> NotFound).
  { intros r Hr E. apply Hn. rewrite <- E. by apply list_elem_of_fmap_2. }
  destruct (firstRoute_inv m target routes) as [(s & Hs & Hm & E)|[E H]]; split.
  - intros r Hr. split; [|by apply (firstRoute_some _ _ _ _ routes_apart)]. unfold route. rewrite E. intros Es.
    by rewrite <- (NoDup_fmap_elem endpoint routes s r Hd Hs Hr Es).
  - unfold route. rewrite E. split; [by intros ?%Hself|]. intros H. by rewrite H in Hm.
  - intros r Hr. unfold route. rewrite E, (H r Hr). split; [|done]. intros ?. by exfalso; apply (Hself r).
  - by split.
Qed.
