(* ===== verification/Applications.v ===== *)
(** Application registration and simulation requests (src/ndt_core/application_management:
    ApplicationManager.cpp, SimulationRequestManager.cpp).

    An application registers its name and the address that wants simulation results, and gets an id and an
    exported folder.  The host is behind the class [NfsHost]: what the file system and commands answer.
    The state keeps the lines of the exports file, since the manager writes, tests and purges them.  The
    theorems show that ids stay apart and lead to the right address, and that the line written for a folder
    is the one that is found and purged for it. *)

From S2P Require Import Prelude CStrings Json FlowDispatch Routing.
From Stdlib Require Import Ascii.
Local Open Scope string_scope.
Local Open Scope list_scope.
Local Open Scope Z_scope.

(** * The application manager *)

Record RegisteredApp := { appName : string; simulationCompletedUrl : string }.

Record ApplicationManager := {
  m_nextAppId : Z;
  m_registeredApps : gmap Z RegisteredApp;
  m_nfsExportDir : string;
  m_registeredFolders : list string;
  exportsFile : list string;
  nfsCommands : list string
}.

Definition newApplicationManager (nfsExportDir : string) (exports : list string) : ApplicationManager := {|
  m_nextAppId := 1; m_registeredApps := ∅; m_nfsExportDir := nfsExportDir; m_registeredFolders := [];
  exportsFile := exports; nfsCommands := [] |}.

(** What creating a directory finds: an error, a new directory, an old one, or something else in its place. *)
Inductive DirResult := DirError | DirCreated | DirExisted | NotADirectory.

Class NfsHost := {
  createDirectories : string -> DirResult;
  openPermissions : string -> bool;
  exportsWritable : bool;
  systemStatus : list string -> string -> Z
}.

Definition push_folder (f : string) (m : ApplicationManager) : ApplicationManager := {|
  m_nextAppId := m_nextAppId m; m_registeredApps := m_registeredApps m; m_nfsExportDir := m_nfsExportDir m;
  m_registeredFolders := m_registeredFolders m ++ [f]; exportsFile := exportsFile m; nfsCommands := nfsCommands m |}.

Definition append_export (line : string) (m : ApplicationManager) : ApplicationManager := {|
  m_nextAppId := m_nextAppId m; m_registeredApps := m_registeredApps m; m_nfsExportDir := m_nfsExportDir m;
  m_registeredFolders := m_registeredFolders m; exportsFile := exportsFile m ++ [line]; nfsCommands := nfsCommands m |}.

Definition ran (cmd : string) (m : ApplicationManager) : ApplicationManager := {|
  m_nextAppId := m_nextAppId m; m_registeredApps := m_registeredApps m; m_nfsExportDir := m_nfsExportDir m;
  m_registeredFolders := m_registeredFolders m; exportsFile := exportsFile m; nfsCommands := nfsCommands m ++ [cmd] |}.

Definition exportsLineFor (appDir : string) : string := appDir +:+ " *(rw,sync,no_subtree_check,root_squash,all_squash)".

(** The wait status: [WIFSIGNALED], [WIFEXITED], [WTERMSIG] and [WEXITSTATUS] of the C library. *)
Definition wTermSig (status : Z) : Z := Z.land status 127.
Definition wExitStatus (status : Z) : Z := Z.shiftr (Z.land status 65280) 8.
Definition wIfExited (status : Z) : bool := bool_decide (wTermSig status = 0).
Definition wIfSignaled (status : Z) : bool := negb (bool_decide (wTermSig status = 0)) && negb (bool_decide (wTermSig status = 127)).

Definition describeCommandFailure (status : Z) : string :=
  if bool_decide (status = -1) then "the child process could not be created"
  else if wIfSignaled status then "terminated by signal " +:+ std_to_string (wTermSig status)
  else if negb (wIfExited status) then "did not exit normally (raw status " +:+ std_to_string status +:+ ")"
  else if bool_decide (wExitStatus status = 0) then ""
  else if bool_decide (wExitStatus status = 127)
  then "the shell could not execute it (exit 127; command not found, or sudo refused)"
  else "exit status " +:+ std_to_string (wExitStatus status).

Section Host.
Context `{NfsHost}.

(** [std::system] with what the manager makes of its status. *)
Definition runCommand (cmd : string) (m : ApplicationManager) : ApplicationManager * string :=
  (ran cmd m, describeCommandFailure (systemStatus (nfsCommands m) cmd)).

Definition updateNFSConfig (appDir : string) (m : ApplicationManager) : ApplicationManager * bool :=
  if exportsWritable then (append_export (exportsLineFor appDir) m, true) else (m, false).

Definition reloadNFSServer (m : ApplicationManager) : ApplicationManager * bool :=
  let '(m, why) := runCommand "exportfs -ra && systemctl reload nfs-server" m in (m, bool_decide (why = "")).

Definition setupNFSForApp (appId : Z) (m : ApplicationManager) : ApplicationManager * bool :=
  let appDir := m_nfsExportDir m +:+ "/" +:+ std_to_string appId in
  match createDirectories appDir with
  | DirError | NotADirectory => (m, false)
  | DirCreated | DirExisted =>
      let m := push_folder appDir m in
      if negb (openPermissions appDir) then (m, false)
      else
        let '(m, written) := updateNFSConfig appDir m in
        let '(m, _) := if written then reloadNFSServer m else (m, false) in
        (m, true)
  end.

(** [int appId = m_nextAppId++]. *)
Definition registerApplication (name url : string) (m : ApplicationManager) : ApplicationManager * Z :=
  let appId := m_nextAppId m in
  let m := {| m_nextAppId := i32 (appId + 1);
              m_registeredApps := <[appId := {| appName := name; simulationCompletedUrl := url |}]> (m_registeredApps m);
              m_nfsExportDir := m_nfsExportDir m; m_registeredFolders := m_registeredFolders m;
              exportsFile := exportsFile m; nfsCommands := nfsCommands m |} in
  let '(m, _) := setupNFSForApp appId m in (m, appId).
End Host.

Definition getSimulationCompletedUrl (appId : Z) (m : ApplicationManager) : option string :=
  simulationCompletedUrl <$> (m_registeredApps m !! appId).

(** * The exports file *)

(** [exportsFileHasEntry]; [None] is a file that cannot be read. *)
Definition exportsFileHasEntry (folder : string) (lines : option (list string)) : bool :=
  match lines with
  | None => true
  | Some lines => existsb (String.prefix (folder +:+ " ")) lines
  end.

Definition buildUnexportCommand (folder : string) : string := "sudo exportfs -u " +:+ folder.

Definition backslash : ascii := ascii_of_nat 92.

(** [strchr] also finds the terminating zero. *)
Definition needsEscape (c : ascii) : bool :=
  existsb (fun d => bool_decide (c = d)) [ascii_of_nat 46; ascii_of_nat 42; ascii_of_nat 91; ascii_of_nat 93; ascii_of_nat 94; ascii_of_nat 36; backslash; ascii_of_nat 47]
  || bool_decide (code c = 0).

Fixpoint escapeBre (folder : string) : string :=
  match folder with
  | EmptyString => EmptyString
  | String c s => if needsEscape c then String backslash (String c (escapeBre s)) else String c (escapeBre s)
  end.

(** The address of the purge, between its slashes. *)
Definition purgeAddress (folder : string) : string := "^" +:+ escapeBre folder +:+ " ".

Definition buildExportsPurgeCommand (folder exportsFile : string) : string :=
  "sudo sed -i '/" +:+ purgeAddress folder +:+ "/d' " +:+ exportsFile.

(** Cleaning up one folder; [exists_] and [lines] are what the file system shows.  Removing the folder
    may fail without changing the answer, and the edit of the exports file is up to the command. *)
Definition cleanupAppFolder `{NfsHost} (exists_ : bool) (lines : option (list string)) (folder : string) (m : ApplicationManager)
  : ApplicationManager * bool :=
  if negb exists_ then (m, false)
  else if exportsFileHasEntry folder lines then
    let '(m, _) := runCommand (buildUnexportCommand folder) m in
    let '(m, _) := runCommand (buildExportsPurgeCommand folder "/etc/exports") m in (m, true)
  else (m, false).

(** The loop shared by [cleanupNFS] and [cleanupStaleEntries]; [exists_] and [lines] are read anew for
    each folder. *)
Fixpoint cleanupFolders `{NfsHost} (exists_ : string -> bool) (lines : string -> option (list string)) (folders : list string) (m : ApplicationManager)
  : ApplicationManager * bool :=
  match folders with
  | [] => (m, false)
  | f :: folders =>
      let '(m, any) := cleanupAppFolder (exists_ f) (lines f) f m in
      let '(m, rest) := cleanupFolders exists_ lines folders m in (m, any || rest)
  end.

Definition cleanupAll `{NfsHost} (exists_ : string -> bool) (lines : string -> option (list string)) (folders : list string) (m : ApplicationManager)
  : ApplicationManager :=
  let '(m, any) := cleanupFolders exists_ lines folders m in
  if any then (runCommand "sudo exportfs -ra" m).1 else m.

(** What the destructor runs. *)
Definition cleanupNFS `{NfsHost} (exists_ : string -> bool) (lines : string -> option (list string)) (m : ApplicationManager)
  : ApplicationManager := cleanupAll exists_ lines (m_registeredFolders m) m.

(** The names taken for application folders: "^[0-9]+$". *)
Definition isAppFolderName (name : string) : bool := negb (bool_decide (name = "")) && all_chars is_digit name.

Definition endsInSlash (s : string) : bool := bool_decide (String.substring (String.length s - 1) 1 s = "/").
(** [path::operator/] on a relative name. *)
Definition pathJoin (dir name : string) : string :=
  if bool_decide (dir = "") || endsInSlash dir then dir +:+ name else dir +:+ "/" +:+ name.

(** [entries] is the listing of the export directory, each name with whether it is a directory, and
    [None] when the export directory does not exist. *)
Definition cleanupStaleEntries `{NfsHost} (exists_ : string -> bool) (lines : string -> option (list string)) (entries : option (list (string * bool)))
  (m : ApplicationManager) : ApplicationManager :=
  match entries with
  | None => m
  | Some entries =>
      let stale := filter (fun e => (e.2 && isAppFolderName e.1) = true) entries in
      cleanupAll exists_ lines ((fun e => pathJoin (m_nfsExportDir m) e.1) <$> stale) m
  end.

(** The whole constructor. *)
Definition startApplicationManager `{NfsHost} (nfsExportDir : string) (exports : list string) (exists_ : string -> bool)
  (lines : string -> option (list string)) (entries : option (list (string * bool))) : ApplicationManager :=
  cleanupStaleEntries exists_ lines entries (newApplicationManager nfsExportDir exports).

(** * Simulation requests *)

Definition requiredRequestFields : list string := ["simulator"; "version"; "app_id"; "case_id"; "inputfile"].

Definition type_name (j : json) : string :=
  match j with
  | JNull => "null" | JBool _ => "boolean" | JString _ => "string" | JArray _ => "array" | JObject _ => "object"
  | JUnsigned _ | JInteger _ | JFloat _ _ => "number"
  end.

Fixpoint commaFrom (out : string) (items : list string) : string :=
  match items with
  | [] => out
  | item :: items => commaFrom ((if bool_decide (out = "") then out else out +:+ ", ") +:+ item) items
  end.
Definition commaSeparated (items : list string) : string := commaFrom "" items.

(** A field that is absent or null is missing. *)
Definition missingField (parsed : json) (field : string) : bool :=
  match jfind parsed field with None | Some JNull => true | Some _ => false end.

Definition wrongField (parsed : json) (field : string) : option string :=
  match jfind parsed field with
  | None | Some JNull | Some (JString _) => None
  | Some v => Some (field +:+ " (" +:+ type_name v +:+ ", expected string)")
  end.

(** The reason a value is refused. *)
Definition requestProblem (parsed : json) : option string :=
  if negb (is_object parsed) then Some ("body must be a JSON object, got " +:+ type_name parsed)
  else
    let missing := filter (fun f => missingField parsed f = true) requiredRequestFields in
    let wrongType := omap (wrongField parsed) requiredRequestFields in
    match missing, wrongType with
    | [], [] => None
    | _, _ =>
        Some ((if bool_decide (missing = []) then "" else "missing required field(s): " +:+ commaSeparated missing) +:+
              (if bool_decide (wrongType = []) then "" else
                 (if bool_decide (missing = []) then "" else "; ") +:+ "wrong type: " +:+ commaSeparated wrongType))
    end.

(** [explain body] is the message of the parse error.  Only parse errors are caught. *)
Definition validateRequestBody `{JsonText} (explain : string -> string) (body : string) : outcome (option string) :=
  match parse body with
  | Throw JsonParseError => Ret (Some ("body is not valid JSON: " +:+ explain body))
  | Throw e => Throw e
  | Ret parsed => Ret (requestProblem parsed)
  end.

Definition simulationCommand (url body : string) : string :=
  "curl -s -X POST " +:+ quoted url +:+ " -H " +:+ quoted "Content-Type: application/json" +:+ " -d '" +:+ body +:+ "'".

Definition requestSimulation `{Shell} (SIM_SERVER_URL body : string) : run (list string) string :=
  executeCommand (simulationCommand SIM_SERVER_URL body).

(** What the detached thread runs, if the application is known. *)
Definition onSimulationResult (m : ApplicationManager) (appId : Z) (body : string) : option string :=
  (fun url => simulationCommand url body) <$> getSimulationCompletedUrl appId m.

(** * Properties *)

(** Registrations one after the other, with the ids given out. *)
Fixpoint registerAll `{NfsHost} (apps : list RegisteredApp) (m : ApplicationManager) : ApplicationManager * list Z :=
  match apps with
  | [] => (m, [])
  | a :: apps =>
      let '(m, id) := registerApplication (appName a) (simulationCompletedUrl a) m in
      let '(m, ids) := registerAll apps m in (m, id :: ids)
  end.

Section Registration.
Context `{NfsHost}.

Lemma setup_keeps_apps id m :
  m_registeredApps (setupNFSForApp id m).1 = m_registeredApps m /\ m_nextAppId (setupNFSForApp id m).1 = m_nextAppId m.
Proof.
  unfold setupNFSForApp, updateNFSConfig, reloadNFSServer, runCommand.
  destruct (createDirectories _); [done| | |done]; destruct (openPermissions _); cbn; by destruct exportsWritable.
Qed.

Lemma register_spec name url m :
  (registerApplication name url m).2 = m_nextAppId m /\
  m_nextAppId (registerApplication name url m).1 = i32 (m_nextAppId m + 1) /\
  m_registeredApps (registerApplication name url m).1 =
    <[m_nextAppId m := {| appName := name; simulationCompletedUrl := url |}]> (m_registeredApps m).
Proof.
  unfold registerApplication.
  match goal with |- context [setupNFSForApp ?i ?s] => pose proof (setup_keeps_apps i s) as [Ha Hn]; destruct (setupNFSForApp i s) as [m' ?] end.
  cbn in *. by rewrite Ha, Hn.
Qed.

(** A later registration leaves earlier ids alone. *)
Lemma registerAll_spec apps m :
  0 <= m_nextAppId m -> m_nextAppId m + Z.of_nat (length apps) < 2 ^ 31 ->
  (registerAll apps m).2 = (fun i => m_nextAppId m + Z.of_nat i) <$> seq 0 (length apps) /\
  (forall id, id < m_nextAppId m \/ m_nextAppId m + Z.of_nat (length apps) <= id -> m_registeredApps (registerAll apps m).1 !! id = m_registeredApps m !! id) /\
  (forall i a, apps !! i = Some a -> m_registeredApps (registerAll apps m).1 !! (m_nextAppId m + Z.of_nat i) = Some a).
Proof.
  revert m. induction apps as [|a apps IH]; intros m H0 Hb; cbn; [done|].
  destruct (register_spec (appName a) (simulationCompletedUrl a) m) as (Hid & Hn & Ha).
  destruct (registerApplication _ _ m) as [m1 id]. cbn in Hid, Hn, Ha. subst id. cbn in Hb.
  rewrite i32_id in Hn by lia. destruct (IH m1) as (Hids & Hold & Hnew); [lia|lia|].
  destruct (registerAll apps m1) as [m2 ids]. cbn in *. rewrite Hn in *. split; [|split].
  - rewrite Hids, Z.add_0_r. f_equal. rewrite <- (fmap_S_seq 0), <- list_fmap_compose. apply list_fmap_ext.
    intros ? i _. cbn. lia.
  - intros id Hid. rewrite Hold by lia. by rewrite Ha, lookup_insert_ne by lia.
  - intros [|i] b Hi; cbn in Hi; simplify_eq; [|rewrite <- (Hnew i b Hi); f_equal; lia].
    rewrite Hold by lia. rewrite Ha, Z.add_0_r, lookup_insert_eq. by destruct b.
Qed.
End Registration.

(** As long as the counter has not run out, registrations get the ids 1, 2, 3 ... in order, whatever the
    file system and the commands answer, and a simulation result for an id is forwarded to the address
    registered under it; any other id forwards nothing. *)
Theorem registered_app_served `{NfsHost} apps dir exports body :
  Z.of_nat (length apps) < 2 ^ 31 - 1 ->
  let '(m, ids) := registerAll apps (newApplicationManager dir exports) in
  ids = (fun i => Z.of_nat i) <$> seq 1 (length apps) /\
  (forall i a, apps !! i = Some a ->
     onSimulationResult m (1 + Z.of_nat i) body = Some (simulationCommand (simulationCompletedUrl a) body)) /\
  (forall id, id < 1 \/ Z.of_nat (length apps) < id -> onSimulationResult m id body = None).
Proof.
  intros Hn. destruct (registerAll_spec apps (newApplicationManager dir exports)) as (Hids & Hold & Hnew); [done|cbn; lia|].
  destruct (registerAll apps _) as [m ids]. cbn [fst snd newApplicationManager m_nextAppId m_registeredApps] in *. unfold onSimulationResult, getSimulationCompletedUrl.
  split; [|split].
  - rewrite Hids, <- fmap_S_seq, <- list_fmap_compose. apply list_fmap_ext. intros ? i _. cbn. lia.
  - intros i a Hi. by rewrite (Hnew i a Hi).
  - intros id Hid. rewrite Hold; [done|cbn; lia].
Qed.

(** ** The exports file *)

(** Matching of a basic regular expression made of literal characters, as POSIX defines it: a special
    character is literal after a backslash; what else a backslash or a special character means is left out. *)
Definition breSpecial (c : ascii) : bool :=
  existsb (fun d => bool_decide (c = d)) [ascii_of_nat 46; ascii_of_nat 42; ascii_of_nat 91; ascii_of_nat 93; ascii_of_nat 94; ascii_of_nat 36; backslash; ascii_of_nat 47].

Definition breChar (c : ascii) (rest : string -> option bool) (line : string) : option bool :=
  match line with
  | String d line => if bool_decide (c = d) then rest line else (fun _ => false) <$> rest EmptyString
  | EmptyString => (fun _ => false) <$> rest EmptyString
  end.

Fixpoint breLiteral (pat line : string) : option bool :=
  match pat with
  | EmptyString => Some true
  | String c pat =>
      if bool_decide (c = backslash) then
        match pat with
        | String d pat => if breSpecial d then breChar d (breLiteral pat) line else None
        | EmptyString => None
        end
      else if breSpecial c then None else breChar c (breLiteral pat) line
  end.

Definition breMatch (pat line : string) : option bool :=
  match pat with
  | String c pat => if bool_decide (c = ascii_of_nat 94) then breLiteral pat line else None
  | EmptyString => None
  end.

Lemma breLiteral_escaped folder line :
  all_chars (fun c => negb (bool_decide (code c = 0))) folder = true ->
  breLiteral (escapeBre folder +:+ " ") line = Some (String.prefix (folder +:+ " ") line).
Proof.
  revert line. induction folder as [|c folder IH]; intros line Hz.
  - change (breChar " " (breLiteral "") line = Some (String.prefix " " line)). destruct line as [|d line]; [done|]. cbn -[String.prefix].
    rewrite prefix_cons. case_bool_decide; [by rewrite prefix_nil|done].
  - cbn in Hz. apply andb_prop in Hz as [Hc Hz].
    assert (Hchar : breChar c (breLiteral (escapeBre folder +:+ " ")) line = Some (String.prefix (String c folder +:+ " ") line)).
    { change (String c folder +:+ " ") with (String c (folder +:+ " ")). destruct line as [|d line]; cbn -[String.prefix].
      { by rewrite IH. }
      rewrite prefix_cons, !IH by done. cbn. by destruct (bool_decide (c = d)). }
    cbn [escapeBre]. unfold needsEscape. fold (breSpecial c). destruct (bool_decide (code c = 0)) eqn:Ez; [done|].
    rewrite orb_false_r. destruct (breSpecial c) eqn:Es.
    + change ((String backslash (String c (escapeBre folder))) +:+ " ") with (String backslash (String c (escapeBre folder +:+ " "))).
      cbn [breLiteral]. by rewrite bool_decide_true, Es.
    + change (String c (escapeBre folder) +:+ " ") with (String c (escapeBre folder +:+ " ")). cbn [breLiteral].
      by rewrite bool_decide_false, Es by (by intros ->).
Qed.

Definition spaceless (s : string) : bool := all_chars (fun c => negb (bool_decide (c = " "%char))) s.

(** The first space ends the directory of a line. *)
Lemma prefix_field f o r :
  spaceless f = true -> spaceless o = true -> String.prefix (f +:+ " ") (o +:+ String " " r) = bool_decide (o = f).
Proof.
  revert o. induction f as [|c f IH]; intros [|d o] Hf Ho; cbn in Hf, Ho; try (apply andb_prop in Hf as [Hc Hf]); try (apply andb_prop in Ho as [Hd Ho]).
  - change (String.prefix (String " " "") (String " " r) = true). by rewrite prefix_cons, bool_decide_true, prefix_nil.
  - change (String.prefix (String " " "") (String d (o +:+ String " " r)) = false). rewrite prefix_cons.
    rewrite bool_decide_false; [done|]. intros <-. by rewrite bool_decide_true in Hd.
  - change (String.prefix (String c (f +:+ " ")) (String " " r) = false). rewrite prefix_cons.
    rewrite bool_decide_false; [done|]. intros ->. by rewrite bool_decide_true in Hc.
  - change (String.prefix (String c (f +:+ " ")) (String d (o +:+ String " " r)) = bool_decide (String d o = String c f)).
    rewrite prefix_cons, IH by done. destruct (decide (c = d)) as [<-|Hne].
    + rewrite (bool_decide_true (c = c)) by done. cbn. apply bool_decide_ext. naive_solver.
    + rewrite (bool_decide_false (c = d)), (bool_decide_false (String d o = String c f)) by congruence. done.
Qed.

(** The line written for a folder is the one found and purged for it: the address of the purge command
    matches a line exactly when the test for an entry does, and of the lines written for folders that is
    the line of this folder alone, not of one whose name begins with it.  (Paths have no zero byte, and
    the exports file separates fields by spaces.) *)
Theorem purge_matches_entry folder other line :
  all_chars (fun c => negb (bool_decide (code c = 0))) folder = true -> spaceless folder = true -> spaceless other = true ->
  breMatch (purgeAddress folder) line = Some (exportsFileHasEntry folder (Some [line])) /\
  breMatch (purgeAddress folder) (exportsLineFor other) = Some (bool_decide (other = folder)).
Proof.
  intros Hz Hf Ho.
  assert (Hm : forall l, breMatch (purgeAddress folder) l = Some (String.prefix (folder +:+ " ") l)).
  { intros l. rewrite <- breLiteral_escaped by done. done. }
  rewrite !Hm. split; [cbn; by rewrite orb_false_r|]. f_equal. by apply prefix_field.
Qed.

Lemma purge_matches_entry_witness :
  breMatch (purgeAddress "/srv/nfs/1") (exportsLineFor "/srv/nfs/10") = Some false /\
  breMatch (purgeAddress "/srv/nfs/1") (exportsLineFor "/srv/nfs/1") = Some true.
Proof.
  split.
  - apply (purge_matches_entry "/srv/nfs/1" "/srv/nfs/10" ""); by vm_compute.
  - apply (purge_matches_entry "/srv/nfs/1" "/srv/nfs/1" ""); by vm_compute.
Defined.

(** A simulation case is accepted exactly when its body is an object with a text in each required field. *)
Lemma valid_request `{JsonText} explain body :
  validateRequestBody explain body = Ret None <->
  exists l, parse body = Ret (JObject l) /\ forall f, f ∈ requiredRequestFields -> exists s, assoc f l = Some (JString s).
Proof.
  unfold validateRequestBody. destruct (parse body) as [j|[]]; try (split; [done|]; intros (? & ? & _); done).
  split.
  - intros [= E]. unfold requestProblem in E. destruct j as [| | | | | | |l]; try done. exists l. split; [done|].
    cbn [is_object negb] in E.
    destruct (filter _ requiredRequestFields) as [|] eqn:Em in E; [|done].
    destruct (omap _ requiredRequestFields) as [|] eqn:Ew in E; [|done].
    intros f Hf. assert (~ missingField (JObject l) f = true) as H1.
    { intros Hx. assert (f ∈ filter (fun f => missingField (JObject l) f = true) requiredRequestFields) as Hin
        by by apply list_elem_of_filter. rewrite Em in Hin. by apply elem_of_nil in Hin. }
    assert (wrongField (JObject l) f = None) as H2.
    { destruct (wrongField (JObject l) f) eqn:Ex; [|done]. assert (s ∈ omap (wrongField (JObject l)) requiredRequestFields) as Hin
        by (apply list_elem_of_omap; eauto). rewrite Ew in Hin. by apply elem_of_nil in Hin. }
    unfold missingField, wrongField, jfind in H1, H2. destruct (assoc f l) as [[]|]; try done. eauto.
  - intros (l & [= ->] & Hall). f_equal. unfold requestProblem. cbn [is_object negb].
    assert (filter (fun f => missingField (JObject l) f = true) requiredRequestFields = []) as ->.
    { apply elem_of_nil_inv. intros f [Hm Hf]%list_elem_of_filter. destruct (Hall f Hf) as [s Es]. unfold missingField in Hm.
      cbn in Hm. by rewrite Es in Hm. }
    assert (omap (wrongField (JObject l)) requiredRequestFields = []) as ->; [|done].
    apply elem_of_nil_inv. intros x (f & Hf & Hw)%list_elem_of_omap. destruct (Hall f Hf) as [s Es]. unfold wrongField in Hw.
    cbn in Hw. by rewrite Es in Hw.
Qed.

Definition sampleHost : NfsHost := {|
  createDirectories := fun _ => DirCreated; openPermissions := fun _ => true; exportsWritable := true; systemStatus := fun _ _ => 256 |}.

Definition sampleApps : list RegisteredApp :=
  [{| appName := "energy"; simulationCompletedUrl := "http://a/done" |}; {| appName := "te"; simulationCompletedUrl := "http://b/done" |}].

Lemma registered_app_served_witness :
  let '(m, ids) := @registerAll sampleHost sampleApps (newApplicationManager "/srv/nfs" []) in
  ids = [1; 2] /\ onSimulationResult m 2 "x" = Some (simulationCommand "http://b/done" "x").
Proof.
  pose proof (@registered_app_served sampleHost sampleApps "/srv/nfs" [] "x" ltac:(by vm_compute)) as H.
  destruct (registerAll sampleApps _) as [m ids]. destruct H as (-> & H & _). split; [done|]. exact (H 1%nat _ eq_refl).
Defined.
