(* ===== verification/ShellArgs.v ===== *)
(** What the shell makes of the requests the kernel sends with curl: the command lines of
    HttpRoutingStrategyBase::post and SimulationRequestManager are split into words by the POSIX
    quoting rules of [Commands], and the words curl gets are compared with what was meant. *)

From Stdlib Require Import Ascii.
From S2P Require Import Prelude CStrings NetUtils Commands FlowDispatch Routing Applications.
Local Open Scope string_scope.
Local Open Scope list_scope.
Local Open Scope Z_scope.

Definition noSingleQuote (s : string) : bool := all_chars (fun c => negb (bool_decide (c = quoteChar))) s.

(** * Lengths *)

Definition lengthOf (cur : option string) : nat := String.length (default "" cur).
Definition total (ws : list string) : nat := sum_list (String.length <$> ws).

Lemma append_length (a b : string) : String.length (a +:+ b) = (String.length a + String.length b)%nat.
Proof. induction a as [|c a IH]; [done|]. change (S (String.length (a +:+ b)) = S (String.length a) + String.length b)%nat. lia. Qed.

Lemma lengthOf_snoc cur c : lengthOf (snocChar cur c) = S (lengthOf cur).
Proof. change (String.length (default "" cur +:+ String c "") = S (lengthOf cur)). rewrite append_length. unfold lengthOf. cbn. lia. Qed.

Lemma total_option_list cur : total (option_list cur) = lengthOf cur.
Proof. destruct cur; cbn; unfold lengthOf; cbn; lia. Qed.

(** Quoting only removes characters; from here on a final quote is removed as well, or escaped by a
    backslash that is removed. *)
Lemma shWords_shrinks n (r : string) st cur ws :
  (String.length r <= n)%nat -> shWords st cur (r +:+ String quoteChar "") = Some ws -> (total ws < lengthOf cur + String.length r + 1)%nat.
Proof.
  revert r st cur ws. induction n as [|n IH]; intros r st cur ws Hn.
  all: destruct r as [|c r]; [|cbn in Hn; try lia].
  1,2: clear; change ("" +:+ ?t) with t; destruct st; intros H;
       [by vm_compute in H|assert (ws = option_list cur) as -> by (by injection H)|by vm_compute in H];
       rewrite total_option_list; cbn; lia.
  change (String c r +:+ String quoteChar "") with (String c (r +:+ String quoteChar "")).
  assert (String.length r <= n)%nat as Hr by lia. cbn [String.length].
  assert (forall st cur', shWords st cur' (r +:+ String quoteChar "") = Some ws -> (lengthOf cur' <= S (lengthOf cur))%nat ->
            (total ws < lengthOf cur + S (String.length r) + 1)%nat) as Hgo.
  { intros st' cur' H1 H2. specialize (IH r st' cur' ws Hr H1). lia. }
  assert (lengthOf (Some (default "" cur)) = lengthOf cur) as Hd by done.
  assert (lengthOf (snocChar cur c) <= S (lengthOf cur))%nat as Hs by (rewrite lengthOf_snoc; lia).
  intros Hw. destruct st; cbn [shWords] in Hw; repeat case_match; try done; try (eapply Hgo; [exact Hw|lia]).
  - destruct (shWords Unquoted None (r +:+ String quoteChar "")) as [ws'|] eqn:E; [|done]. injection Hw as <-.
    specialize (IH r Unquoted None ws' Hr E). unfold pushWord, total. rewrite fmap_app, sum_list_with_app.
    fold (total (option_list cur)) (total ws'). rewrite total_option_list. unfold lengthOf in IH. cbn in IH. lia.
  - destruct r as [|d' r'].
    + injection H3 as <- <-. assert (ws = option_list (snocChar cur quoteChar)) as -> by (by injection Hw).
      rewrite total_option_list, lengthOf_snoc. cbn. lia.
    + injection H3 as <- <-. cbn [String.length] in *.
      specialize (IH r' Unquoted (snocChar cur d') ws ltac:(lia) Hw). rewrite lengthOf_snoc in IH. lia.
Qed.

(** * Requests *)

Lemma shWords_join (s : string) cur rest :
  all_chars isPlain s = true -> shWords Unquoted (Some cur) (s +:+ rest) = shWords Unquoted (Some (cur +:+ s)) rest.
Proof.
  intros H. destruct (decide (s = "")) as [-> |Hs]; [by rewrite append_nil_s|]. by rewrite shWords_plain.
Qed.

(** A text between single quotes at the end of a command line is one word and the text itself exactly
    when it has no single quote. *)
Lemma quoted_text text :
  shWords InSingle (Some "") (text +:+ "'") = Some [text] <-> noSingleQuote text = true.
Proof.
  change "'" with (String quoteChar ""). split; [|intros H; by rewrite shWords_literal].
  enough (forall pre, shWords InSingle (Some pre) (text +:+ String quoteChar "") = Some [pre +:+ text] -> noSingleQuote text = true) as H
    by (intros E; by apply (H "")).
  induction text as [|c text IH]; [done|]. intros pre E. cbn [noSingleQuote all_chars].
  change (String c text +:+ String quoteChar "") with (String c (text +:+ String quoteChar "")) in E. cbn [shWords] in E.
  case_bool_decide as Hc.
  - apply (shWords_shrinks (String.length text)) in E; [|done]. unfold total, lengthOf in E. cbn in E.
    rewrite append_length in E. cbn in E. lia.
  - apply (IH (pre +:+ String c "")). rewrite <- append_snoc. exact E.
Qed.

(** What curl is meant to be called with. *)
Definition postWords (s : IRoutingStrategy) (path text : string) : list string :=
  ["curl"; "-s"; "-w"; "\n%{http_code}"; "--max-time"; std_to_string REQUEST_TIMEOUT_SECONDS; "-X"; "POST";
   "http://" +:+ apiUrl s +:+ path; "-H"; "Content-Type: application/json"; "-d"; text].
Definition simulationWords (url body : string) : list string :=
  ["curl"; "-s"; "-X"; "POST"; url; "-H"; "Content-Type: application/json"; "-d"; body].

(** Words already complete, in front of those still to come. *)
Definition afterWords (ws : list string) (x : option (list string)) : option (list string) :=
  foldr (fun w x => pushWord (Some w) <$> x) x ws.

Lemma afterWords_app ws x : afterWords ws x = app ws <$> x.
Proof. induction ws as [|w ws IH]; cbn; [by destruct x|]. unfold afterWords in IH. rewrite IH. by destruct x. Qed.

Lemma jsonHeader cur text :
  shWords Unquoted (Some cur) (" -H " +:+ quoted "Content-Type: application/json" +:+ " -d '" +:+ text +:+ "'") =
  afterWords [cur; "-H"; "Content-Type: application/json"; "-d"] (shWords InSingle (Some "") (text +:+ "'")).
Proof. reflexivity. Qed.

Lemma post_prefix s path text :
  all_chars isPlain (apiUrl s) = true -> all_chars isPlain path = true ->
  argv (curlCommand s path text) = app (take 12 (postWords s path text)) <$> shWords InSingle (Some "") (text +:+ "'").
Proof.
  intros Hu Hp.
  transitivity (afterWords (take 8 (postWords s path text)) (shWords Unquoted (Some "http://")
    (apiUrl s +:+ (path +:+ (" -H " +:+ quoted "Content-Type: application/json" +:+ " -d '" +:+ text +:+ "'"))))); [reflexivity|].
  rewrite !shWords_join, jsonHeader, append_assoc_s by done. rewrite !afterWords_app. by destruct (shWords _ _ _).
Qed.

Lemma simulation_prefix url body :
  all_chars isLiteralInDouble url = true ->
  argv (simulationCommand url body) = app (take 8 (simulationWords url body)) <$> shWords InSingle (Some "") (body +:+ "'").
Proof.
  intros Hu.
  assert (forall (u cur rest : string), all_chars isLiteralInDouble u = true ->
            shWords InDouble (Some cur) (u +:+ String doubleQuote rest) = shWords Unquoted (Some (cur +:+ u)) rest) as Hd.
  { induction u as [|c u IH]; intros cur rest H; [by rewrite append_nil_s|]. cbn [all_chars] in H. apply andb_prop in H as [Hc H].
    change (String c u +:+ String doubleQuote rest) with (String c (u +:+ String doubleQuote rest)). cbn [shWords]. rewrite Hc.
    rewrite bool_decide_false by (intros ->; by vm_compute in Hc). rewrite (append_snoc cur c u). by apply IH. }
  transitivity (afterWords ["curl"; "-s"; "-X"; "POST"] (shWords InDouble (Some "") (url +:+ String doubleQuote
    (" -H " +:+ quoted "Content-Type: application/json" +:+ " -d '" +:+ body +:+ "'")))).
  { assert (forall R, quoted url +:+ R = String doubleQuote (url +:+ String doubleQuote R)) as Hq.
    { intros R. change (String doubleQuote ((url +:+ String doubleQuote "") +:+ R) = String doubleQuote (url +:+ String doubleQuote R)).
      by rewrite append_assoc_s. }
    unfold simulationCommand. by rewrite Hq. }
  rewrite Hd, jsonHeader by done. rewrite !afterWords_app. by destruct (shWords _ _ _).
Qed.

(** The command lines built for the flow requests (with a host, port and path that need no quoting)
    and for the simulation requests reach curl as the intended argument vector, with the JSON text as
    its last argument, exactly when that text holds no single quote. *)
Theorem request_argv s path text url :
  all_chars isPlain (apiUrl s) = true -> all_chars isPlain path = true -> all_chars isLiteralInDouble url = true ->
  (argv (curlCommand s path text) = Some (postWords s path text) <-> noSingleQuote text = true) /\
  (argv (simulationCommand url text) = Some (simulationWords url text) <-> noSingleQuote text = true).
Proof.
  intros Hs Hp Hu. rewrite post_prefix, simulation_prefix, <- quoted_text by done.
  destruct (shWords InSingle (Some "") (text +:+ "'")) as [ws|]; [|naive_solver].
  split; split; intros H; [|injection H as ->; done| |injection H as ->; done].
  all: cbn in H; by injection H as ->.
Qed.

(** A request to the Ryu controller, and a text that breaks out of its quotes. *)
Definition hostileText : string := "{'; shutdown -h now; '}".
Lemma request_argv_witness : exists s path url,
  argv (curlCommand s path "{}") = Some (postWords s path "{}") /\
  argv (curlCommand s path hostileText) <> Some (postWords s path hostileText) /\
  argv (simulationCommand url hostileText) <> Some (simulationWords url hostileText).
Proof.
  exists (OpenFlowRoutingStrategy "localhost:8080"), "/stats/flowentry/add", "http://localhost:9000/submit".
  pose proof (fun t => request_argv (OpenFlowRoutingStrategy "localhost:8080") "/stats/flowentry/add" t "http://localhost:9000/submit" ltac:(by vm_compute) ltac:(by vm_compute) ltac:(by vm_compute)) as H.
  split; [exact (proj2 (proj1 (H "{}")) eq_refl)|].
  split; intros E; [apply (proj1 (proj1 (H hostileText))) in E|apply (proj1 (proj2 (H hostileText))) in E]; by vm_compute in E.
Defined.
