(* ===== verification/JsonShell.v ===== *)
(** Requests to the control planes over the modelled JSON library: the value, its text, the shell's
    words and what the receiver parses. *)

From S2P Require Import Prelude NetUtils Commands Routing Applications ShellArgs.
From S2P Require Import Bytes CStrings Json JsonUtf8 JsonDtoa JsonDtoaProps JsonDtoaRound JsonDump JsonDumpProps JsonLexer JsonParser JsonParserProps JsonRoundTrip JsonText.
From Stdlib Require Import Ascii.
Local Open Scope Z_scope.

(** No byte is a single quote. *)
Definition quoteFree (l : list Z) : Prop := Forall (fun b => b <> 39) l.

(** No string and no key has a single quote. *)
Fixpoint quoteFreeValue (j : json) : bool :=
  match j with
  | JString s => noSingleQuote s
  | JArray l => forallb quoteFreeValue l
  | JObject l => forallb (fun kv => noSingleQuote kv.1 && quoteFreeValue kv.2) l
  | _ => true
  end.

Lemma noSingleQuote_bytes s : noSingleQuote s = true <-> quoteFree (bytesOf s).
Proof.
  unfold noSingleQuote, quoteFree. induction s as [|c s IH]; [split; [constructor|done]|]. cbn [all_chars bytesOf]. rewrite andb_true_iff, IH, Forall_cons.
  apply and_iff_compat_r. rewrite negb_true_iff, bool_decide_eq_false. split; intros H C; apply H.
  - rewrite <- (charOf_code c), C. reflexivity.
  - by rewrite C.
Qed.

Lemma quoteFree_app l k : quoteFree (l ++ k) <-> quoteFree l /\ quoteFree k.
Proof. apply Forall_app. Qed.

Lemma quoteFree_digits l : allDigits l -> quoteFree l.
Proof. intros H. eapply Forall_impl; [exact H|]. cbn. lia. Qed.

Lemma quoteFree_decimal ds : ds = [48] \/ decimalDigits ds -> quoteFree ds.
Proof. intros [-> | H]; [by repeat constructor|]. by apply quoteFree_digits, decimalDigits_all. Qed.

Lemma quoteFree_integer z : - 2 ^ 63 <= z < 2 ^ 64 -> quoteFree (dump_integer number_buffer z).
Proof.
  intros Hz. destruct (dump_integer_decimal number_buffer z) as (ds & -> & Hds & _); [done|done|]. unfold integerText.
  apply quoteFree_app. split; [case_bool_decide; by repeat constructor|by apply quoteFree_decimal].
Qed.

Lemma quoteFree_float m e : isDouble m e = true -> quoteFree (to_chars m e).
Proof.
  intros H. destruct (to_chars_text m e H) as (i & fd & ex & -> & [Hi Hf Hx _] & _). unfold numText. rewrite !quoteFree_app.
  split; [destruct (bool_decide _); by repeat constructor|]. split; [by apply quoteFree_decimal|]. split.
  - destruct fd; [constructor|]. constructor; [done|]. by apply quoteFree_digits.
  - destruct ex as [[neg xd]|]; [|constructor]. destruct Hx as [Hx _]. constructor; [done|]. constructor; [by destruct neg|]. by apply quoteFree_digits.
Qed.

(** Escaping neither adds nor removes a single quote. *)
Lemma quoteFree_escaped c : utf8Char c -> quoteFree (escapedChar false c) <-> quoteFree c.
Proof.
  intros Hc. unfold escapedChar. destruct (needsEscape false (charValue c)) eqn:E; [|done].
  destruct (charValue_encode c Hc) as [[Hs _] Ec].
  assert (charValue c <= 0x7F /\ charValue c <> 39) as [Hlt Hne].
  { unfold needsEscape in E. cbn [andb] in E. rewrite orb_false_r in E. apply orb_true_iff in E as [[E|E]%orb_true_iff|E]; apply bool_decide_eq_true in E; lia. }
  assert (c = [charValue c]) as Ec'.
  { rewrite Ec at 1. unfold encodeCodepoint. by rewrite bool_decide_true by lia. }
  split; intros _.
  - rewrite Ec'. constructor; [lia|constructor].
  - unfold escapeCodepoint. do 7 (case_bool_decide; [by repeat constructor|]). cbn [andb]. rewrite orb_false_r. case_bool_decide as C.
    + rewrite bool_decide_true by lia. unfold hexEscape, hexLower. cbn [fst].
      repeat (constructor; [try lia; case_bool_decide; Z.div_mod_to_equations; lia|]). constructor.
    + exfalso. unfold needsEscape in E. by rewrite !bool_decide_false in E.
Qed.

Lemma quoteFree_dump_escaped l t : utf8 l -> dump_escaped eh_strict false l = Ret t -> quoteFree t <-> quoteFree l.
Proof.
  intros (cs & Hcs & ->)%utf8_chars. rewrite dump_escaped_chars by done. intros [= <-].
  induction Hcs as [|c cs Hc _ IH]; cbn; [done|]. rewrite !quoteFree_app. by rewrite quoteFree_escaped, IH.
Qed.

Lemma quoteFree_blanks ws : blanks ws -> quoteFree ws.
Proof. intros H. eapply Forall_impl; [exact H|]. intros c. unfold isBlank. repeat case_bool_decide; try done; lia. Qed.

Lemma quoteFree_separated sep ts : quoteFree sep -> quoteFree (separated sep ts) <-> Forall quoteFree ts.
Proof.
  intros Hs. induction ts as [|t ts IH]; [split; constructor|]. rewrite Forall_cons. destruct ts as [|t' ts].
  - cbn [separated]. split; [by split; [|constructor]|tauto].
  - change (separated sep (t :: t' :: ts)) with (t ++ sep ++ separated sep (t' :: ts)). rewrite !quoteFree_app, IH. tauto.
Qed.

(** The text of a container has a single quote when one of its parts has. *)
Lemma quoteFree_container (pp : bool) op cl cur ts : op <> 39 -> cl <> 39 ->
  quoteFree ([op] ++ (if pp then [10] else []) ++ separated (if pp then [44; 10] else [44]) ts ++ (if pp then [10] ++ spaces cur else []) ++ [cl])
  <-> Forall quoteFree ts.
Proof.
  intros Ho Hc. destruct (layout_blank pp 0 cur) as (_ & L2 & L3 & _ & _). rewrite !quoteFree_app.
  rewrite quoteFree_separated by (destruct pp; by repeat constructor). apply quoteFree_blanks in L2, L3.
  assert (quoteFree [op]) by (by repeat constructor). assert (quoteFree [cl]) by (by repeat constructor). tauto.
Qed.

Lemma dump_quoteFree pp st cur j t : wfJson j = true -> Serializer.dump eh_strict false pp st cur j = Ret t ->
  quoteFree t <-> quoteFreeValue j = true.
Proof.
  assert (forall k tk, utf8 (bytesOf k) -> dump_escaped eh_strict false (bytesOf k) = Ret tk ->
    quoteFree ([34] ++ tk ++ [34]) <-> noSingleQuote k = true) as HK.
  { intros k tk Hk E. rewrite noSingleQuote_bytes, !quoteFree_app, (quoteFree_dump_escaped _ _ Hk E).
    assert (quoteFree [34]) by (by repeat constructor). tauto. }
  revert cur t. induction j as [|b|n|z|m e|s|l IH|l IH] using json_nested_ind; intros cur t H Ht; cbn [wfJson] in H; cbn [Serializer.dump] in Ht; cbn [quoteFreeValue].
  - injection Ht as <-. split; [done|]. by repeat constructor.
  - injection Ht as <-. split; [done|]. destruct b; by repeat constructor.
  - injection Ht as <-. apply bool_decide_eq_true in H. split; [done|]. intros _. apply quoteFree_integer. lia.
  - injection Ht as <-. apply bool_decide_eq_true in H. split; [done|]. intros _. apply quoteFree_integer. lia.
  - injection Ht as <-. split; [done|]. intros _. by apply quoteFree_float.
  - apply bool_decide_eq_true in H. destruct (dump_escaped eh_strict false (bytesOf s)) as [t'|] eqn:E; [|done]. injection Ht as <-. by apply HK.
  - destruct l as [|x l]; [injection Ht as <-; split; [done|by repeat constructor]|].
    destruct (traverse _ (x :: l)) as [ts|] eqn:E; [|done]. apply traverse_Forall2 in E. injection Ht as <-.
    etransitivity; [by apply (quoteFree_container pp 91 93 cur ts)|]. rewrite forallb_Forall in *.
    set (new := if pp then (cur + st)%nat else cur) in *. destruct (layout_blank pp new cur) as (L1%quoteFree_blanks & _).
    induction E as [|v t l' ts Et _ IHE]; [split; constructor|].
    apply Forall_cons in IH as [IHv IH]. apply Forall_cons in H as [Hv H]. rewrite !Forall_cons, (IHE IH H).
    destruct (Serializer.dump _ _ _ _ _ v) as [tv|] eqn:Ev; [|done]. injection Et as <-. rewrite quoteFree_app, (IHv new tv Hv Ev). tauto.
  - apply andb_true_iff in H as [_ H]. destruct l as [|x l]; [injection Ht as <-; split; [done|by repeat constructor]|].
    destruct (traverse _ (x :: l)) as [ts|] eqn:E; [|done]. apply traverse_Forall2 in E. injection Ht as <-.
    etransitivity; [by apply (quoteFree_container pp 123 125 cur ts)|]. rewrite forallb_Forall in *.
    set (new := if pp then (cur + st)%nat else cur) in *. destruct (layout_blank pp new cur) as (L1%quoteFree_blanks & _).
    assert (quoteFree (if pp then [58; 32] else [58])) as L6 by (destruct pp; by repeat constructor).
    induction E as [|[k v] t l' ts Et _ IHE]; [split; constructor|].
    apply Forall_cons in IH as [IHv IH]. apply Forall_cons in H as [[Hk%bool_decide_eq_true Hv]%andb_true_iff H]. rewrite !Forall_cons, (IHE IH H).
    unfold Serializer.dump_key in Et. cbn [fst snd] in *. destruct (dump_escaped eh_strict false (bytesOf k)) as [tk|] eqn:Ek; [|done]. cbn [obind] in Et.
    destruct (Serializer.dump _ _ _ _ _ v) as [tv|] eqn:Ev; [|done].
    assert (t = (if pp then spaces new else []) ++ ([34] ++ tk ++ [34]) ++ (if pp then [58; 32] else [58]) ++ tv) as -> by (by injection Et as <-).
    rewrite (quoteFree_app (if pp then spaces new else [])), (quoteFree_app ([34] ++ tk ++ [34])), (quoteFree_app (if pp then _ else _)).
    rewrite (HK k tk Hk Ek), (IHv new tv Hv Ev), andb_true_iff. tauto.
Qed.

(** C4: A flow request over the real library.  The body of every request whose numbers are in range and whose texts are
    UTF-8 can be dumped; the shell hands curl exactly the intended arguments, the text last, if and only if no string and no
    key of the body has a single quote; and the text parses back to the body. *)
Theorem control_plane_request s path body : all_chars isPlain (apiUrl s) = true -> all_chars isPlain path = true -> wfValue body = true ->
  exists text, json_dump (-1) body = Ret text /\
    (argv (curlCommand s path text) = Some (postWords s path text) <-> quoteFreeValue (asMap body) = true) /\
    json_parse text = Ret (numCanon (asMap body)).
Proof.
  intros Hs Hp Hb. pose proof (asMap_wf body Hb) as Hj. destruct (json_dump_parse (-1) body Hj) as (text & E & Hu & P).
  exists text. split; [done|]. split; [|done]. rewrite post_prefix by done.
  unfold json_dump, dumpIndent in E. rewrite bool_decide_false in E by lia.
  destruct (Serializer.dump eh_strict false false 0 0 (asMap body)) as [t|] eqn:Et; [|done]. injection E as <-.
  rewrite <- (dump_quoteFree _ _ _ _ _ Hj Et). pose proof (utf8_bytes t (dump_utf8 _ _ _ _ _ Hj Et)) as Htb.
  assert (quoteFree t <-> noSingleQuote (stringOf t) = true) as HQ by (by rewrite noSingleQuote_bytes, bytesOf_stringOf).
  rewrite HQ, <- quoted_text.
  destruct (shWords InSingle (Some "") (stringOf t +:+ "'")) as [ws|]; [|naive_solver].
  split; intros H; injection H as ->; done.
Qed.

(** The flow entry of a switch, and one with a name that has a quote. *)
Definition flowBody (name : string) : json :=
  JObject [("dpid", JUnsigned 1); ("priority", JInteger 10); ("match", JObject [("ipv4_dst", JString name); ("eth_type", JUnsigned 2048)])].

Lemma control_plane_request_witness :
  exists text, json_dump (-1) (flowBody "10.0.0.1") = Ret text /\
    argv (curlCommand (OpenFlowRoutingStrategy "localhost:8080") "/stats/flowentry/add" text) =
      Some (postWords (OpenFlowRoutingStrategy "localhost:8080") "/stats/flowentry/add" text).
Proof.
  destruct (control_plane_request (OpenFlowRoutingStrategy "localhost:8080") "/stats/flowentry/add" (flowBody "10.0.0.1"))
    as (text & E & H & _); [by vm_compute..|]. exists text. split; [exact E|]. apply H. by vm_compute.
Defined.
