(* ===== verification/History.v ===== *)
(** Historical link data (src/ndt_core/data_management/HistoricalDataManager.cpp): one row per link and
    interval in a file per link and day.

    The state is the flags of the manager and the files by path.  What appending to a file leaves and
    whether the stream is still good is [append]; the dates come formatted, as [strftime] gives them. *)

From S2P Require Import Prelude SleepLoop CStrings NetUtils Json SFlowTypes GraphTypes Topology.
From Stdlib Require Import Ascii.
Local Open Scope string_scope.
Local Open Scope list_scope.
Local Open Scope Z_scope.

Record HistoricalDataManager := {
  h_mode : DeploymentMode;
  m_running : bool;
  recorder : bool;
  m_loggingEnabled : bool;
  m_writeFailureActive : bool;
  m_writeFailureReports : Z;
  files : gmap string string
}.

Definition newHistory (mode : DeploymentMode) (fs : gmap string string) : HistoricalDataManager := {|
  h_mode := mode; m_running := false; recorder := false; m_loggingEnabled := true; m_writeFailureActive := false;
  m_writeFailureReports := 0; files := fs |}.

(** The recorder thread starts once, and never in Mininet; [exchange] has set the flag all the same. *)
Definition startHistory (m : HistoricalDataManager) : HistoricalDataManager := {|
  h_mode := h_mode m; m_running := true;
  recorder := if m_running m || bool_decide (h_mode m = MININET) then recorder m else true;
  m_loggingEnabled := m_loggingEnabled m; m_writeFailureActive := m_writeFailureActive m;
  m_writeFailureReports := m_writeFailureReports m; files := files m |}.

Definition stopHistory (m : HistoricalDataManager) : HistoricalDataManager := {|
  h_mode := h_mode m; m_running := false; recorder := false;
  m_loggingEnabled := m_loggingEnabled m; m_writeFailureActive := m_writeFailureActive m;
  m_writeFailureReports := m_writeFailureReports m; files := files m |}.

Definition setLoggingState (enable : bool) (m : HistoricalDataManager) : HistoricalDataManager := {|
  h_mode := h_mode m; m_running := m_running m; recorder := recorder m; m_loggingEnabled := enable;
  m_writeFailureActive := m_writeFailureActive m; m_writeFailureReports := m_writeFailureReports m; files := files m |}.

Definition canRecord (m : HistoricalDataManager) : bool := negb (bool_decide (h_mode m = MININET)).

Definition with_files (fs : gmap string string) (m : HistoricalDataManager) : HistoricalDataManager := {|
  h_mode := h_mode m; m_running := m_running m; recorder := recorder m; m_loggingEnabled := m_loggingEnabled m;
  m_writeFailureActive := m_writeFailureActive m; m_writeFailureReports := m_writeFailureReports m; files := fs |}.

(** [unsigned] counter. *)
Definition note_failures (active : bool) (report : bool) (m : HistoricalDataManager) : HistoricalDataManager := {|
  h_mode := h_mode m; m_running := m_running m; recorder := recorder m; m_loggingEnabled := m_loggingEnabled m;
  m_writeFailureActive := active; m_writeFailureReports := if report then u32 (m_writeFailureReports m + 1) else m_writeFailureReports m;
  files := files m |}.

(** * One snapshot *)

Definition typeText (p : VertexProperties) : string := if bool_decide (vertexType p = SWITCH) then "switch" else "host".
Definition idText (p : VertexProperties) : string :=
  if bool_decide (vertexType p = SWITCH) then std_to_string (v_dpid p) else macToString (mac p).

Definition endsWithSlash (s : string) : bool :=
  match rev_string s with String c _ => bool_decide (c = "/"%char) | EmptyString => false end.

Definition directory (outDir : string) : string :=
  if bool_decide (outDir = "") || endsWithSlash outDir then outDir else outDir +:+ "/".

Definition csvPath (dir date : string) (up vp : VertexProperties) : string :=
  dir +:+ date +:+ "_" +:+ idText up +:+ "_" +:+ idText vp +:+ ".csv".

Definition eol : string := String (ascii_of_nat 10) EmptyString.
Definition csvHeader : string := "date-time,srcType,srcId,dstType,dstId,link_bw,link_bw_usage" +:+ eol.

Definition csvRow (dateTime : string) (up vp : VertexProperties) (e : EdgeProperties) : string :=
  dateTime +:+ "," +:+ typeText up +:+ "," +:+ idText up +:+ "," +:+ typeText vp +:+ "," +:+ idText vp +:+ "," +:+
  std_to_string (linkBandwidth e) +:+ "," +:+ std_to_string (linkBandwidthUsage e) +:+ eol.

Section Snapshot.
Context (append : string -> option string -> string -> option string * bool).

(** The row of one edge, with the header when the file is new; whether it was written. *)
Definition writeRow (path row : string) (fs : gmap string string) : gmap string string * bool :=
  let old := fs !! path in
  let text := match old with Some _ => row | None => csvHeader +:+ row end in
  let '(new, good) := append path old text in
  (match new with Some c => <[path := c]> fs | None => fs end, good).

(** The edges as the graph lists them, with their end points. *)
Definition links (g : Graph) : list (VertexProperties * VertexProperties * EdgeProperties) :=
  omap (fun x => match vertices g !! x.1.1, vertices g !! x.1.2 with Some up, Some vp => Some (up, vp, x.2) | _, _ => None end)
       (edgesInOrder g).

Fixpoint writeRows (dir date dateTime : string) (ls : list (VertexProperties * VertexProperties * EdgeProperties))
  (fs : gmap string string) : gmap string string * nat * nat :=
  match ls with
  | [] => (fs, 0%nat, 0%nat)
  | (up, vp, e) :: ls =>
      let '(fs, good) := writeRow (csvPath dir date up vp) (csvRow dateTime up vp e) fs in
      let '(fs, rows, failures) := writeRows dir date dateTime ls fs in
      if good then (fs, S rows, failures) else (fs, rows, S failures)
  end.

Definition writeSnapshot (g : Graph) (outDir date dateTime : string) (m : HistoricalDataManager) : HistoricalDataManager * nat :=
  if negb (m_loggingEnabled m) then (m, 0%nat)
  else
    let '(fs, rows, failures) := writeRows (directory outDir) date dateTime (links g) (files m) in
    let m := with_files fs m in
    (if bool_decide (failures <> 0%nat) then
       (if m_writeFailureActive m then m else note_failures true true m)
     else if bool_decide (rows <> 0%nat) then note_failures false false m else m, rows).

(** [run]: snapshots with a sleep of [m_interval] minutes between them; [enabled t] is the logging switch that
    the HTTP interface has set by second [t]. *)
Definition recordRun (m_interval stopAt : nat) (duration : nat -> nat) (enabled : nat -> bool) (graphs : nat -> Graph)
  (outDir : string) (date dateTime : nat -> string) (m : HistoricalDataManager) : option (list nat * nat * HistoricalDataManager) :=
  sleepingWorker stopAt (m_interval * 60) duration
    (fun t m => (writeSnapshot (graphs t) outDir (date t) (dateTime t) (setLoggingState (enabled t) m)).1) (S stopAt) 0 m.

End Snapshot.

(** * What a snapshot leaves *)

Abbreviation Link := (VertexProperties * VertexProperties * EdgeProperties)%type.

Section Theorems.
Context (append : string -> option string -> string -> option string * bool).

(** A stream that is good after the write has appended the text; one that is not has left the file. *)
Definition appends : Prop := forall path old text,
  append path old text = (Some (default "" old +:+ text), true) \/ append path old text = (old, false).

Definition linkPath (dir date : string) (l : Link) : string := csvPath dir date l.1.1 l.1.2.

(** The text a link adds to a file. *)
Definition linkText (dateTime : string) (old : option string) (l : Link) : string :=
  let row := csvRow dateTime l.1.1 l.1.2 l.2 in match old with Some _ => row | None => csvHeader +:+ row end.

Definition writable (dir date dateTime : string) (fs : gmap string string) (l : Link) : bool :=
  let old := fs !! linkPath dir date l in (append (linkPath dir date l) old (linkText dateTime old l)).2.

Lemma writeRow_spec dir date dateTime l fs :
  appends ->
  writeRow append (linkPath dir date l) (csvRow dateTime l.1.1 l.1.2 l.2) fs =
  (if writable dir date dateTime fs l
   then <[linkPath dir date l := default "" (fs !! linkPath dir date l) +:+ linkText dateTime (fs !! linkPath dir date l) l]> fs
   else fs, writable dir date dateTime fs l).
Proof.
  intros Ha. unfold writeRow, writable. fold (linkText dateTime (fs !! linkPath dir date l) l).
  destruct (Ha (linkPath dir date l) (fs !! linkPath dir date l) (linkText dateTime (fs !! linkPath dir date l) l)) as [E|E]; rewrite E; cbn.
  - done.
  - f_equal. destruct (fs !! linkPath dir date l) eqn:Ef; [|done]. by apply insert_id.
Qed.

Lemma writeRows_spec dir date dateTime ls fs :
  appends -> NoDup (linkPath dir date <$> ls) ->
  let '(fs', rows, failures) := writeRows append dir date dateTime ls fs in
  (forall l, l ∈ ls -> fs' !! linkPath dir date l =
     if writable dir date dateTime fs l
     then Some (default "" (fs !! linkPath dir date l) +:+ linkText dateTime (fs !! linkPath dir date l) l)
     else fs !! linkPath dir date l) /\
  (forall p, p ∉ linkPath dir date <$> ls -> fs' !! p = fs !! p) /\
  rows = length (filter (fun l => writable dir date dateTime fs l = true) ls) /\ (rows + failures)%nat = length ls.
Proof.
  intros Ha. revert fs. induction ls as [|l ls IH]; intros fs Hd; cbn [writeRows]; [by split; [intros ? ?%elem_of_nil|]|].
  destruct l as [[up vp] e]. set (l := (up, vp, e)) in *. apply NoDup_cons in Hd as [Hn Hd].
  change (csvPath dir date up vp) with (linkPath dir date l). pose proof (writeRow_spec dir date dateTime l fs Ha) as Er. cbn in Er.
  rewrite Er. clear Er. set (fs1 := if writable dir date dateTime fs l then _ else fs).
  assert (Hother : forall p, p <> linkPath dir date l -> fs1 !! p = fs !! p).
  { intros p Hp. unfold fs1. destruct (writable _ _ _ _ _); [by rewrite lookup_insert_ne|done]. }
  assert (Hw : forall l', l' ∈ ls -> linkPath dir date l' <> linkPath dir date l).
  { intros l' Hl E. apply Hn. rewrite <- E. by apply list_elem_of_fmap_2. }
  specialize (IH fs1 Hd). destruct (writeRows append dir date dateTime ls fs1) as [[fs' rows] failures].
  destruct IH as (H1 & H2 & H3 & H4).
  assert (Hsame : forall l', l' ∈ ls -> writable dir date dateTime fs1 l' = writable dir date dateTime fs l').
  { intros l' Hl. unfold writable. by rewrite (Hother (linkPath dir date l')) by by apply Hw. }
  assert (Hrows : rows = length (filter (fun l => writable dir date dateTime fs l = true) ls)).
  { rewrite H3. f_equal. clear -Hsame. induction ls as [|x ls IH]; [done|]. rewrite !filter_cons.
    rewrite Hsame by left. rewrite IH by (intros; apply Hsame; by right). done. }
  assert (Hl : fs' !! linkPath dir date l = if writable dir date dateTime fs l
     then Some (default "" (fs !! linkPath dir date l) +:+ linkText dateTime (fs !! linkPath dir date l) l) else fs !! linkPath dir date l).
  { rewrite H2 by done. unfold fs1. destruct (writable _ _ _ _ _); [by rewrite lookup_insert_eq|done]. }
  assert (Hin : forall l', l' ∈ l :: ls -> fs' !! linkPath dir date l' = if writable dir date dateTime fs l'
     then Some (default "" (fs !! linkPath dir date l') +:+ linkText dateTime (fs !! linkPath dir date l') l') else fs !! linkPath dir date l').
  { intros l' [->|Hl']%elem_of_cons; [done|]. by rewrite H1, Hsame, Hother by (done || by apply Hw). }
  assert (Hout : forall p, p ∉ linkPath dir date l :: (linkPath dir date <$> ls) -> fs' !! p = fs !! p).
  { intros p [Hp Hp']%not_elem_of_cons. rewrite H2 by done. by apply Hother. }
  rewrite filter_cons. destruct (writable dir date dateTime fs l) eqn:E; [rewrite decide_True by done|rewrite decide_False by done];
    (split; [done|split; [done|]]); cbn [length]; rewrite <- Hrows; split; lia.
Qed.

(** With logging on, a snapshot appends to the file of every link whose write succeeds exactly its row,
    after the header when the file is new, and touches no other file; it returns the number of rows
    written, and reports a run of failures once.  With logging off it does nothing. *)
Theorem snapshot_appends_rows g outDir date dateTime m :
  appends -> NoDup (linkPath (directory outDir) date <$> links g) ->
  let '(m', rows) := writeSnapshot append g outDir date dateTime m in
  let good := writable (directory outDir) date dateTime (files m) in
  if m_loggingEnabled m then
    (forall l, l ∈ links g -> files m' !! linkPath (directory outDir) date l =
       if good l then Some (default "" (files m !! linkPath (directory outDir) date l) +:+
                            linkText dateTime (files m !! linkPath (directory outDir) date l) l)
       else files m !! linkPath (directory outDir) date l) /\
    (forall p, p ∉ linkPath (directory outDir) date <$> links g -> files m' !! p = files m !! p) /\
    rows = length (filter (fun l => good l = true) (links g)) /\
    let failed := bool_decide (rows <> length (links g)) in
    m_writeFailureActive m' = (failed || (m_writeFailureActive m && bool_decide (rows = 0%nat))) /\
    m_writeFailureReports m' = (if failed && negb (m_writeFailureActive m) then u32 (m_writeFailureReports m + 1) else m_writeFailureReports m)
  else m' = m /\ rows = 0%nat.
Proof.
  intros Ha Hd. unfold writeSnapshot. destruct (m_loggingEnabled m); cbn [negb]; [|done].
  pose proof (writeRows_spec (directory outDir) date dateTime (links g) (files m) Ha Hd) as H.
  destruct (writeRows append (directory outDir) date dateTime (links g) (files m)) as [[fs rows] failures].
  destruct H as (H1 & H2 & H3 & H4).
  destruct (decide (failures = 0%nat)) as [-> | Hf].
  - rewrite (bool_decide_false (0%nat <> 0%nat)) by lia. rewrite (bool_decide_false (rows <> length (links g))) by lia.
    case_bool_decide as Hr; (split; [by destruct m|split; [by destruct m|split; [done|]]]); cbn.
    + by rewrite bool_decide_false, andb_false_r by lia.
    + by rewrite bool_decide_true, andb_true_r by lia.
  - rewrite (bool_decide_true (failures <> 0%nat)) by lia. rewrite (bool_decide_true (rows <> length (links g))) by lia.
    cbn [m_writeFailureActive with_files].
    destruct (m_writeFailureActive m) eqn:Ea; (split; [done|split; [done|split; [done|]]]); cbn; [by rewrite Ea|done].
Qed.

(** The recorder takes its first snapshot at once and each further one an interval after the one before has ended,
    with the logging switch of that moment; none after the stop, and it ends with it or with the snapshot
    that is under way. *)
Lemma recorder_schedule m_interval stopAt duration enabled graphs outDir date dateTime m :
  (0 < m_interval)%nat ->
  exists times end_,
    recordRun append m_interval stopAt duration enabled graphs outDir date dateTime m = Some (times, end_,
      foldl (fun m t => (writeSnapshot append (graphs t) outDir (date t) (dateTime t) (setLoggingState (enabled t) m)).1) m times) /\
    scheduled stopAt (m_interval * 60) duration 0 times end_.
Proof. intros Hi. apply sleepingWorker_scheduled; lia. Qed.
End Theorems.

Definition sampleAppend (path : string) (old : option string) (text : string) : option string * bool :=
  (Some (default "" old +:+ text), true).

Definition historyVertex (id : Z) : VertexProperties := {|
  vertexType := SWITCH; mac := 0; ip := [id]; v_dpid := id; v_isUp := true; v_isEnabled := true; v_adminDisabled := false;
  deviceName := ""; nickName := ""; bridgeNameForMininet := ""; brandName := ""; switchKind := OVS; deviceLayer := 1;
  smartPlugIp := ""; smartPlugOutlet := -1; bridgeConnectedPortsForMininet := []; ecmpGroups := [] |}.

Definition historyEdge : EdgeProperties := {|
  e_isUp := true; e_isEnabled := true; e_adminDisabled := false; leftBandwidth := 6; linkBandwidth := 10; linkBandwidthUsage := 4;
  linkBandwidthUtilization := f64_of_Z 40; leftBandwidthFromFlowSample := 7; e_srcIp := []; srcDpid := 1; srcInterface := 2;
  e_dstIp := []; dstDpid := 2; e_dstInterface := 1; flowSet := ∅ |}.

Definition historyGraph : Graph := {| vertices := [historyVertex 1; historyVertex 2]; edges := {[(0%nat, 1%nat) := historyEdge]} |}.

Lemma snapshot_appends_rows_witness :
  (writeSnapshot sampleAppend historyGraph "/data" "20260101" "2026-01-01 00:00:00" (newHistory TESTBED ∅)).2 = 1%nat.
Proof.
  pose proof (snapshot_appends_rows sampleAppend historyGraph "/data" "20260101" "2026-01-01 00:00:00" (newHistory TESTBED ∅)
    ltac:(left; done) ltac:(apply (bool_decide_unpack _); by vm_compute)) as H.
  destruct (writeSnapshot _ _ _ _ _ _) as [m' rows]. destruct H as (_ & _ & -> & _). by vm_compute.
Defined.
