(* ===== verification/DeviceQuery.v ===== *)
(** Reading the power state of the switches (DeviceConfigurationAndPowerManager.cpp:
    [getSwitchesPowerState], [queryTestbed], [queryMininet]).  A simulated switch is on when the twin holds
    it up; a real one is asked through the relay gateway. *)

From Stdlib Require Import Ascii.
From S2P Require Import Prelude CStrings NetUtils Json GraphTypes Topology FlowDispatch Routing DevicePower.
Local Open Scope string_scope.
Local Open Scope list_scope.
Local Open Scope Z_scope.

Definition parseIpParam (target : string) : string :=
  match afterChar "?" target with
  | None => ""
  | Some query => match afterText "ip=" query with None => "" | Some val => uptoChar "&" val end
  end.

(** What a page without JSON says: the text between its second ">" and the next "<", if there is any. *)
Definition statusOfPage (raw : string) : string :=
  match afterChar ">" raw ≫= afterChar ">" with
  | None => raw
  | Some rest => match split_at_char "<" rest with
                 | Some (String c s, _) => String c s
                 | Some (EmptyString, _) | None => raw
                 end
  end.

Section Query.
Context `{JsonText} `{Machine}.

Definition relayQueryCommand (GW_IP : string) (si : SwitchInfo) : string :=
  "curl -k -s -X GET " +:+ quoted ("http://" +:+ GW_IP +:+ ":8000/relay" +:+ "?ip=" +:+ plugIp si +:+
  "&resource=outlet" +:+ "&index=" +:+ std_to_string (plugIdx si)).

(** Anything but a page that is not JSON ends in "error". *)
Definition relayStatus (output : outcome string) : string :=
  match output with
  | Throw _ => "error"
  | Ret raw =>
      match parse raw with
      | Throw JsonParseError => statusOfPage raw
      | Throw _ => "error"
      | Ret j => catch (jvalue get_string j "status" raw) "error"
      end
  end.

Fixpoint queryPlugs (GW_IP : string) (toQuery : list SwitchInfo) (result : list (string * json)) (h : list string)
  : list string * list (string * json) :=
  match toQuery with
  | [] => (h, result)
  | si :: toQuery =>
      let cmd := relayQueryCommand GW_IP si in
      queryPlugs GW_IP toQuery (assocSet (switchIp si) (JString (relayStatus (execute h cmd))) result) (h ++ [cmd])
  end.

Definition queryTestbed (GW_IP : string) (switchSmartPlugTable : list SwitchInfo) (ipParam : string) : run (list string) json := fun h =>
  if bool_decide (ipParam = "") then
    let '(h, r) := queryPlugs GW_IP switchSmartPlugTable [] h in (h, Ret (JObject r))
  else
    match list_find (fun si => switchIp si = ipParam) switchSmartPlugTable with
    | None => (h, Throw RuntimeError)
    | Some (_, si) => let '(h, r) := queryPlugs GW_IP [si] [] h in (h, Ret (JObject r))
    end.
End Query.

Definition switchAddresses (t : Topology) : list string :=
  omap (fun p => if isSwitch p then ipToString <$> head (ip p) else None) (vertices (m_graph t)).

Fixpoint queryUp (t : Topology) (ips : list string) (result : list (string * json)) : outcome (list (string * json)) :=
  match ips with
  | [] => Ret result
  | sip :: ips =>
      let! a := ipStringToUint32 sip in
      match findSwitchByIp a t with
      | None => Throw RuntimeError
      | Some v => queryUp t ips (assocSet sip (JString (if getVertexIsUp v t then "ON" else "OFF")) result)
      end
  end.

Definition queryMininet (t : Topology) (ipParam : string) : outcome json :=
  omap_out JObject (queryUp t (if bool_decide (ipParam = "") then switchAddresses t else [ipParam]) []).

Definition getSwitchesPowerState `{JsonText} `{Machine} (mode : DeploymentMode) (GW_IP : string)
  (switchSmartPlugTable : list SwitchInfo) (target : string) : run World json := fun w =>
  match mode with
  | TESTBED => let '(h, r) := queryTestbed GW_IP switchSmartPlugTable (parseIpParam target) w.2 in ((w.1, h), r)
  | MININET => (w, queryMininet w.1 (parseIpParam target))
  end.
