(* ===== verification/HttpSession.v ===== *)
(** The HTTP interface (src/ndt_core/http/HttpSession.cpp): every handler, and [buildResponse], which
    routes a request and turns exceptions into error responses.

    A [Kernel] is the state the handlers share.  [Config] is fixed at start; [Env] is what the surroundings
    answer while one request is served.  Texts are made and read by [JsonText], commands run on [Machine]
    and [NfsHost].  A handler is a [run]: what it changed before an exception stays changed.  The kernel here
    is started with --no-ai; [IntentTranslator] adds the endpoint of the intent translator.  Response headers are in [HttpServer]. *)

From Stdlib Require Import Ascii SpecFloat.
From S2P Require Import Prelude CStrings NetUtils Json LockManager EventSystem SFlowTypes FlowRates FlowDispatch.
From S2P Require Import GraphTypes Topology TopologyRename TopologyReports Routing FlowTableCache DevicePoll DevicePower DeviceReports DeviceQuery.
From S2P Require Import HttpRouter Applications History.
Local Open Scope string_scope.
Local Open Scope list_scope.
Local Open Scope Z_scope.

Record Kernel := {
  k_topology : Topology;
  k_file : option (option json);
  k_commands : list string;
  k_flows : gmap FlowKey FlowInfo;
  k_paths : Paths;
  k_dispatcher : FlowDispatcher;
  k_tables : list SwitchTable;
  k_reports : StatusReports;
  k_locks : gmap LockType LockState;
  k_apps : ApplicationManager;
  k_history : option HistoricalDataManager;
  k_events : list (EventType * EdgeDesc)
}.

Definition set_world (w : World) (k : Kernel) : Kernel := {|
  k_topology := w.1; k_file := k_file k; k_commands := w.2; k_flows := k_flows k; k_paths := k_paths k;
  k_dispatcher := k_dispatcher k; k_tables := k_tables k; k_reports := k_reports k; k_locks := k_locks k; k_apps := k_apps k;
  k_history := k_history k; k_events := k_events k |}.

Definition world (k : Kernel) : World := (k_topology k, k_commands k).
Definition set_topology (t : Topology) (k : Kernel) : Kernel := set_world (t, k_commands k) k.
Definition set_commands (h : list string) (k : Kernel) : Kernel := set_world (k_topology k, h) k.

Definition set_named (w : NamedTopology) (k : Kernel) : Kernel := {|
  k_topology := w.1; k_file := w.2; k_commands := k_commands k; k_flows := k_flows k; k_paths := k_paths k;
  k_dispatcher := k_dispatcher k; k_tables := k_tables k; k_reports := k_reports k; k_locks := k_locks k; k_apps := k_apps k;
  k_history := k_history k; k_events := k_events k |}.

Definition set_paths (p : Paths) (k : Kernel) : Kernel := {|
  k_topology := k_topology k; k_file := k_file k; k_commands := k_commands k; k_flows := k_flows k; k_paths := p;
  k_dispatcher := k_dispatcher k; k_tables := k_tables k; k_reports := k_reports k; k_locks := k_locks k; k_apps := k_apps k;
  k_history := k_history k; k_events := k_events k |}.

Definition set_dispatcher (d : FlowDispatcher) (k : Kernel) : Kernel := {|
  k_topology := k_topology k; k_file := k_file k; k_commands := k_commands k; k_flows := k_flows k; k_paths := k_paths k;
  k_dispatcher := d; k_tables := k_tables k; k_reports := k_reports k; k_locks := k_locks k; k_apps := k_apps k;
  k_history := k_history k; k_events := k_events k |}.

Definition set_tables (c : list SwitchTable) (k : Kernel) : Kernel := {|
  k_topology := k_topology k; k_file := k_file k; k_commands := k_commands k; k_flows := k_flows k; k_paths := k_paths k;
  k_dispatcher := k_dispatcher k; k_tables := c; k_reports := k_reports k; k_locks := k_locks k; k_apps := k_apps k;
  k_history := k_history k; k_events := k_events k |}.

Definition set_locks (l : gmap LockType LockState) (k : Kernel) : Kernel := {|
  k_topology := k_topology k; k_file := k_file k; k_commands := k_commands k; k_flows := k_flows k; k_paths := k_paths k;
  k_dispatcher := k_dispatcher k; k_tables := k_tables k; k_reports := k_reports k; k_locks := l; k_apps := k_apps k;
  k_history := k_history k; k_events := k_events k |}.

Definition set_apps (a : ApplicationManager) (k : Kernel) : Kernel := {|
  k_topology := k_topology k; k_file := k_file k; k_commands := k_commands k; k_flows := k_flows k; k_paths := k_paths k;
  k_dispatcher := k_dispatcher k; k_tables := k_tables k; k_reports := k_reports k; k_locks := k_locks k; k_apps := a;
  k_history := k_history k; k_events := k_events k |}.

Definition set_history (h : option HistoricalDataManager) (k : Kernel) : Kernel := {|
  k_topology := k_topology k; k_file := k_file k; k_commands := k_commands k; k_flows := k_flows k; k_paths := k_paths k;
  k_dispatcher := k_dispatcher k; k_tables := k_tables k; k_reports := k_reports k; k_locks := k_locks k; k_apps := k_apps k;
  k_history := h; k_events := k_events k |}.

(** [m_eventBus->emit]; the program registers no handler. *)
Definition emitEvent (t : EventType) (e : EdgeDesc) (k : Kernel) : Kernel := {|
  k_topology := k_topology k; k_file := k_file k; k_commands := k_commands k; k_flows := k_flows k; k_paths := k_paths k;
  k_dispatcher := k_dispatcher k; k_tables := k_tables k; k_reports := k_reports k; k_locks := k_locks k; k_apps := k_apps k;
  k_history := k_history k; k_events := k_events k ++ [(t, e)] |}.

Record Config := {
  mode : DeploymentMode; RYU_IP_AND_PORT : string; P4_PROXY_IP_AND_PORT : string; GW_IP : string; SIM_SERVER_URL : string;
  switchSmartPlugTable : list SwitchInfo
}.

Record Env := {
  now : Z;
  formatTime : Z -> string;
  canWrite : bool;
  capacityFile : option string;
  parseMessage : string -> string;
  what : exn -> string;
  dumpIndented : json -> outcome string
}.

Record Request := { method_ : verb; target : string; req_body : string }.
Record Response := { status : Z; body : string }.

Abbreviation handler := (run Kernel Response).

(** [res.result(st); res.body() = j.dump()]. *)
Definition reply `{JsonText} (st : Z) (j : json) : handler := fun k => (k, omap_out (fun b => {| status := st; body := b |}) (dump j)).
Definition replyText (st : Z) (text : string) : handler := fun k => (k, Ret {| status := st; body := text |}).

(** The raw literals: an object with one text. *)
Definition rawObject (key text : string) : string := "{" +:+ quoted key +:+ ":" +:+ quoted text +:+ "}".
Definition rawError (text : string) : string := rawObject "error" text.

Definition failWith (e : exn) : handler := fun k => (k, Throw e).

(** [json::parse(m_req.body())]. *)
Definition withBody `{JsonText} (r : Request) (cont : json -> handler) : handler := fun k =>
  match parse (req_body r) with Ret j => cont j k | Throw e => (k, Throw e) end.

(** A computation on parts of the kernel that may throw. *)
Definition lifted {A} (c : outcome A) (cont : A -> handler) : handler := fun k =>
  match c with Ret a => cont a k | Throw e => (k, Throw e) end.

Section Handlers.
Context `{JsonText} `{Machine} `{NfsHost} (cfg : Config) (env : Env).

#[local] Instance machineShell : Shell := {| execCommand := execute |}.

(** * Links *)

Definition parseOption (s : string) : option json := match parse s with Ret j => Some j | Throw _ => None end.

(** The two directions of a link, reported or recovered. *)
Definition markLink (set : EdgeDesc -> Topology -> Topology) (note : EdgeDesc -> Kernel -> Kernel) (src dst : Z)
  (halfDone done_ : string) : handler := fun k =>
  match findEdgeBySrcAndDstDpid (src, dst) (k_topology k) with
  | None => replyText 404 (rawError "edge not found in topology") k
  | Some fwd =>
      let k := note fwd (set_topology (set fwd (k_topology k)) k) in
      match findEdgeBySrcAndDstDpid (dst, src) (k_topology k) with
      | None => replyText 500 (rawError halfDone) k
      | Some rev => replyText 200 (rawObject "status" done_) (note rev (set_topology (set rev (k_topology k)) k))
      end
  end.

Definition handleLinkFailure (r : Request) : handler := fun k =>
  match RequestParser.parseLinkFailedEventPayload parseOption (req_body r) with
  | None => replyText 400 (rawError "Invalid link-failure payload") k
  | Some d =>
      markLink setEdgeDown (emitEvent LinkFailureDetected) (RequestParser.srcDpid d) (RequestParser.dstDpid d)
        "reverse edge missing from the topology; the reported direction was marked down, its reverse was not"
        "link failure processed" k
  end.

Definition handleLinkRecovery (r : Request) : handler := withBody r (fun j k =>
  if negb (contains j "src_dpid") || negb (contains j "dst_dpid") || negb (contains j "src_interface") || negb (contains j "dst_interface")
  then replyText 400 (rawError "Missing src_dpid or dst_dpid or src_interface or dst_interface") k
  else
    lifted (let! src := jfield get_u64 j "src_dpid" in
            let! _ := jfield get_u32 j "src_interface" in
            let! dst := jfield get_u64 j "dst_dpid" in
            let! _ := jfield get_u32 j "dst_interface" in Ret (src, dst))
      (fun '(src, dst) => markLink setEdgeUp (fun _ k => k) src dst
        "reverse edge missing from the topology; the reported direction was marked up, its reverse was not"
        "link recovery processed") k).

(** * Reports *)

Definition handleGetGraphData : handler := fun k => reply 200 (graphDataJson (mode cfg) (m_graph (k_topology k))) k.

Definition handleGetDetectedFlowData : handler := fun k =>
  reply 200 (JArray (getFlowInfoJson (formatTime env) (k_flows k))) k.

Definition handleGetDetectedTopKFlowData (r : Request) : handler := fun k =>
  let kStr := queryParam (target r) "k" in
  let n := if bool_decide (kStr = "") then 50 else catch (stoi kStr) 50 in
  let n := if bool_decide (n < 0) then 0 else n in
  reply 200 (JArray (getTopKFlowInfoJson (formatTime env) n (k_flows k))) k.

Definition handleGetSwitchOpenflowEntries : handler := fun k => reply 200 (JArray (tableJson <$> k_tables k)) k.
Definition handleGetPowerReport : handler := fun k => reply 200 (m_cachedPowerReport (k_reports k)) k.
Definition handleGetCpuUtilization : handler := fun k => reply 200 (m_cachedCpuReport (k_reports k)) k.
Definition handleGetMemoryUtilization : handler := fun k => reply 200 (m_cachedMemoryReport (k_reports k)) k.
Definition handleGetTemperature : handler := fun k => reply 200 (m_cachedTemperatureReport (k_reports k)) k.

(** * Power *)

Definition handleGetSwitchesPowerState (r : Request) : handler := fun k =>
  let '(w, res) := getSwitchesPowerState (mode cfg) (GW_IP cfg) (switchSmartPlugTable cfg) (target r) (world k) in
  let k := set_world w k in
  match (let! j := res in dump j) with
  | Ret b => replyText 200 b k
  | Throw RuntimeError => reply 404 (JObject [("error", JString (what env RuntimeError))]) k
  | Throw e => (k, Throw e)
  end.

Definition handleSetSwitchesPowerState (r : Request) : handler := fun k =>
  let ip := queryParam (target r) "ip" in
  let action := queryParam (target r) "action" in
  if bool_decide (ip = "") || (bool_decide (action <> "on") && bool_decide (action <> "off"))
  then replyText 400 (rawError "Missing or invalid ip/action") k
  else
    let '(w, res) := setSwitchPowerState (mode cfg) (P4_PROXY_IP_AND_PORT cfg) (GW_IP cfg) (switchSmartPlugTable cfg) ip action (world k) in
    let k := set_world w k in
    match res with
    | Throw e => (k, Throw e)
    | Ret true => reply 200 (JObject [(ip, JString "Success")]) k
    | Ret false => replyText 500 (rawError "Failed to change switch power state") k
    end.

(** * Group and meter entries *)

Definition respondToOpResult (result : OpResult) (successMessage : string) : handler :=
  if ok result then reply 200 (JObject [("status", JString successMessage)])
  else
    let st := if bool_decide (httpStatus result = 501) then 501
              else if noResponse result then 502
              else if bool_decide (400 <= httpStatus result) && bool_decide (httpStatus result < 600) then httpStatus result
              else 502 in
    reply st (JObject [("status", JString "error"); ("error", JString (message result)); ("controller_status", JInteger (httpStatus result))]).

Definition routingManager (k : Kernel) : FlowRoutingManager :=
  newFlowRoutingManager (Some (k_topology k)) (RYU_IP_AND_PORT cfg) (P4_PROXY_IP_AND_PORT cfg).

Definition entryMessage (o : EntryOp) : string :=
  match o with
  | InstallGroup => "Group entry installed" | DeleteGroup => "Group entry deleted" | ModifyGroup => "Group entry modified"
  | InstallMeter => "Meter entry installed" | DeleteMeter => "Meter entry deleted" | ModifyMeter => "Meter entry modified"
  end.

(** The six handlers of group and meter entries. *)
Definition handleEntry (o : EntryOp) (r : Request) : handler := withBody r (fun j k =>
  let '(h, res) := dispatchByPayloadDpid (routingManager k) o j (k_commands k) in
  let k := set_commands h k in
  match res with
  | Throw e => (k, Throw e)
  | Ret result => respondToOpResult result (entryMessage o) k
  end).

(** * Flow entries *)

Definition makeInstallJob (entry : json) : outcome FlowJob :=
  let! d := jfield get_u64 entry "dpid" in
  let! p := jvalue get_i32 entry "priority" 0 in
  let! m := jvalue Ret entry "match" (JObject []) in
  let! a := jvalue Ret entry "actions" (JArray []) in
  let! i := jvalue get_i32 entry "idle_timeout" 0 in
  Ret {| dpid := d; op := Install; priority := p; match_ := m; actions := a; idleTimeout := i |}.

Definition makeModifyJob (entry : json) : outcome FlowJob :=
  let! d := jfield get_u64 entry "dpid" in
  let! p := jvalue get_i32 entry "priority" 0 in
  let! m := jvalue Ret entry "match" (JObject []) in
  let! a := jvalue Ret entry "actions" (JArray []) in
  Ret {| dpid := d; op := Modify; priority := p; match_ := m; actions := a; idleTimeout := 0 |}.

Definition makeDeleteJob (entry : json) : outcome FlowJob :=
  let! d := jfield get_u64 entry "dpid" in
  let! p := jvalue get_i32 entry "priority" (-1) in
  let! m := jvalue Ret entry "match" (JObject []) in
  Ret {| dpid := d; op := Delete; priority := p; match_ := m; actions := JNull; idleTimeout := 0 |}.

(** The entries that cannot form a rule. *)
Fixpoint collectShapeProblems (op : FlowOp) (field : string) (i : Z) (entries : list json) : list json :=
  match entries with
  | [] => []
  | e :: entries =>
      let why := describeFlowEntryShapeProblem e op in
      let rest := collectShapeProblems op field (i + 1) entries in
      if bool_decide (why = "") then rest
      else JObject [("field", JString field); ("index", JUnsigned i); ("problem", JString why)] :: rest
  end.

Definition batchPart (j : json) (k : string) : outcome json := jvalue Ret j k (JArray []).

Definition shapeProblemsOf (ins mods dels : list json) : list json :=
  collectShapeProblems Install "install_flow_entries" 0 ins ++
  collectShapeProblems Modify "modify_flow_entries" 0 mods ++
  collectShapeProblems Delete "delete_flow_entries" 0 dels.

Definition jobsOf (ins mods dels : list json) : outcome (list FlowJob) :=
  let! a := get_all makeInstallJob ins in
  let! b := get_all makeModifyJob mods in
  let! c := get_all makeDeleteJob dels in Ret (a ++ b ++ c).

Definition isKnown (t : Topology) (d : Z) : bool := bool_decide (is_Some (getSwitchKind d t)).

(** The body of the answer to an accepted batch. *)
Definition queuedBody (p : FlowBatchPartition) : json :=
  if bool_decide (0 < rejectedEntries p) then
    JObject [("status", JString "queued"); ("accepted", JUnsigned (Z.of_nat (length (accepted p))));
             ("detail", JString "some entries were dropped because their dpid is not a switch in the loaded topology; the rest were accepted for programming, and per-entry outcomes are reported in the kernel log, not in this response");
             ("rejected", JUnsigned (rejectedEntries p)); ("rejected_dpids", JArray (JUnsigned <$> unknownDpids p))]
  else
    JObject [("status", JString "queued"); ("accepted", JUnsigned (Z.of_nat (length (accepted p))));
             ("detail", JString "entries accepted for programming; per-entry outcomes are reported in the kernel log, not in this response")].

Definition malformedBody (problems : list json) : json :=
  JObject [("status", JString "error"); ("error", JString "malformed flow entry"); ("entries", JArray problems);
           ("detail", JString "nothing was queued; these entries cannot form a rule whatever the switch answers, so the whole batch is rejected rather than partly applied")].

Definition unknownBody (p : FlowBatchPartition) : json :=
  JObject [("status", JString "error"); ("error", JString "unknown dpid"); ("unknown_dpids", JArray (JUnsigned <$> unknownDpids p));
           ("detail", JString "these dpids are not switches in the loaded topology; check the dpid, or that the topology file matches the running network")].

Definition findsSwitch (t : Topology) (d : Z) : bool := bool_decide (is_Some (findSwitchByDpid d t)).

Definition processFlowBatch (j : json) : handler :=
  lifted (let! ins := batchPart j "install_flow_entries" in
          let! mods := batchPart j "modify_flow_entries" in
          let! dels := batchPart j "delete_flow_entries" in Ret (ins, mods, dels)) (fun '(ins, mods, dels) k =>
  match ins, mods, dels with
  | JArray ins, JArray mods, JArray dels =>
      match shapeProblemsOf ins mods dels with
      | (_ :: _) as problems => reply 400 (malformedBody problems) k
      | [] =>
          match jobsOf ins mods dels with
          | Throw _ => replyText 400 (rawError "Bad entry") k
          | Ret jobs =>
              let p := partitionFlowBatchByKnownDpid jobs (isKnown (k_topology k)) in
              if bool_decide (accepted p = []) && bool_decide (0 < rejectedEntries p) then reply 404 (unknownBody p) k
              else
                let k := set_dispatcher (enqueue (accepted p) (k_dispatcher k)) k in
                let '(c, res) := updateOpenFlowTables (findsSwitch (k_topology k)) j (k_tables k) in
                let k := set_tables c k in
                match res with
                | Throw e => (k, Throw e)
                | Ret _ => reply 200 (queuedBody p) k
                end
          end
      end
  | _, _, _ => replyText 400 (rawError "install_flow_entries/modify_flow_entries/delete_flow_entries must be arrays") k
  end).

(** A batch of one entry. *)
Definition singleBatch (op : FlowOp) (entry : json) : json :=
  JObject [("install_flow_entries", JArray (if bool_decide (op = Install) then [entry] else []));
           ("modify_flow_entries", JArray (if bool_decide (op = Modify) then [entry] else []));
           ("delete_flow_entries", JArray (if bool_decide (op = Delete) then [entry] else []))].

(** [handleInstallFlowEntry], [handleDeleteFlowEntry] and [handleModifyFlowEntry]. *)
Definition handleFlowEntry (op : FlowOp) (r : Request) : handler := withBody r (fun entry => processFlowBatch (singleBatch op entry)).

Definition handleInstallModifyDeleteFlowEntries (r : Request) : handler := withBody r processFlowBatch.

(** * Devices *)

Definition invalidDpid (text : string) : json :=
  JObject [("status", JString "error"); ("error", JString "invalid dpid"); ("dpid", JString text);
           ("detail", JString "dpid must be an unsigned integer")].

Definition invalidMac (text : string) : json :=
  JObject [("status", JString "error"); ("error", JString "invalid mac"); ("mac", JString text);
           ("detail", JString "expected xx:xx:xx:xx:xx:xx")].

Definition handleInformSwitchEntered (r : Request) : handler := fun k =>
  match afterText "?dpid=" (target r) with
  | None | Some EmptyString => replyText 400 (rawError "Missing dpid parameter") k
  | Some dpidStr =>
      match tryParseUint64 dpidStr with
      | None => reply 400 (invalidDpid dpidStr) k
      | Some d =>
          match findSwitchByDpid d (k_topology k) with
          | None => replyText 404 (rawError "Switch not found") k
          | Some v => replyText 200 (rawObject "status" "Switch set to up")
                        (set_topology (setVertexEnable v (setVertexUp v (k_topology k))) k)
          end
      end
  end.

(** A rename of the vertex that was found. *)
Definition renameFound (f : NameField) (v : option nat) (name notFound done_ : string) : handler := fun k =>
  match v with
  | None => replyText 404 notFound k
  | Some v =>
      let '(w, res) := setVertexName f (canWrite env) v name (k_topology k, k_file k) in
      let k := set_named w k in
      match res with Throw e => (k, Throw e) | Ret _ => replyText 200 done_ k end
  end.

Definition handleModifyDeviceName (r : Request) : handler := withBody r (fun b =>
  lifted (let! t := jfield get_i32 b "vertex_type" in let! n := jfield get_string b "new_name" in Ret (t, n)) (fun '(vertexType, newName) k =>
  let found v := renameFound DeviceName v newName (rawError "Device not found.") (rawObject "status" "Device name updated successfully.") in
  if bool_decide (vertexType = 0) then
    lifted (jfield get_u64 b "dpid") (fun d k => found (findSwitchByDpid d (k_topology k)) k) k
  else if bool_decide (vertexType = 1) then
    lifted (jfield get_string b "mac") (fun macText k =>
      match tryMacToUint64 macText with
      | None => reply 400 (invalidMac macText) k
      | Some m => found (findVertexByMac m (k_topology k)) k
      end) k
  else replyText 400 (rawError "Invalid vertex_type. Must be 0 (switch) or 1 (host).") k)).

Definition handleGetNickname (r : Request) : handler := fun k =>
  let dpidStr := queryParam (target r) "dpid" in
  let macStr := queryParam (target r) "mac" in
  let nameStr := queryParam (target r) "name" in
  let t := k_topology k in
  let found v := match v ≫= (fun v => vertices (m_graph t) !! v) with
                 | None => replyText 404 (rawError "Device not found")
                 | Some p => reply 200 (JObject [("nickname", JString (nickName p))])
                 end in
  if bool_decide (dpidStr = "") && bool_decide (macStr = "") && bool_decide (nameStr = "")
  then replyText 400 (rawError "Missing dpid, mac, or name parameter") k
  else if negb (bool_decide (dpidStr = "")) then
    match tryParseUint64 dpidStr with
    | None => reply 400 (invalidDpid dpidStr) k
    | Some d => found (findSwitchByDpid d t) k
    end
  else if negb (bool_decide (macStr = "")) then
    match tryMacToUint64 macStr with
    | None => reply 400 (invalidMac macStr) k
    | Some m => found (findVertexByMac m t) k
    end
  else found (firstVertex (fun p => bool_decide (deviceName p = nameStr)) (m_graph t)) k.

(** Every exception of the block is answered 400. *)
Definition catching (h : handler) (answer : exn -> handler) : handler := fun k =>
  match h k with (k, Throw e) => answer e k | done_ => done_ end.

Definition handleModifyNickname (r : Request) : handler := catching (withBody r (fun b =>
  lifted (let! i := jat b "identifier" in
          let! t := jfield get_string i "type" in
          let! n := jfield get_string b "new_nickname" in Ret (i, t, n)) (fun '(identifier, type_, newNickname) k =>
  let found v := renameFound Nickname v newNickname (rawError "Device not found")
    ("{" +:+ quoted "status" +:+ ": " +:+ quoted "success" +:+ ", " +:+ quoted "message" +:+ ": " +:+ quoted "Nickname updated successfully." +:+ "}") in
  if bool_decide (type_ = "dpid") then
    lifted (jfield get_u64 identifier "value") (fun d k => found (findSwitchByDpid d (k_topology k)) k) k
  else if bool_decide (type_ = "mac") then
    lifted (jfield get_string identifier "value") (fun macText k =>
      match tryMacToUint64 macText with
      | None => reply 400 (invalidMac macText) k
      | Some m => found (findVertexByMac m (k_topology k)) k
      end) k
  else if bool_decide (type_ = "name") then
    lifted (jfield get_string identifier "value") (fun name k =>
      found (firstVertex (fun p => bool_decide (deviceName p = name) || bool_decide (nickName p = name)) (m_graph (k_topology k))) k) k
  else (k, Throw RuntimeError))))
  (fun e => reply 400 (JObject [("error", JString "Failed to modify nickname"); ("details", JString (what env e))])).

(** * Simulations and applications *)

Definition handleReceivedSimulationCase (r : Request) : handler :=
  lifted (validateRequestBody (parseMessage env) (req_body r)) (fun problem k =>
  match problem with
  | Some why => reply 400 (JObject [("error", JString "Invalid simulation case"); ("details", JString why)]) k
  | None =>
      let '(h, res) := requestSimulation (SIM_SERVER_URL cfg) (req_body r) (k_commands k) in
      let k := set_commands h k in
      match res with
      | Throw e => (k, Throw e)
      | Ret resp => replyText 202 ("{" +:+ quoted "status" +:+ ":" +:+ quoted resp +:+ "}") k
      end
  end).

Definition handleSimulationCompleted (r : Request) : handler := withBody r (fun j =>
  lifted (jfield get_string j "app_id") (fun appIdText k =>
  match tryParseUint64 appIdText with
  | Some id =>
      if bool_decide (2 ^ 31 - 1 < id)
      then reply 400 (JObject [("error", JString "Invalid app_id"); ("details", JString appIdText)]) k
      else replyText 200 (rawObject "status" "result forwarded")
             (match onSimulationResult (k_apps k) id (req_body r) with Some cmd => set_commands (k_commands k ++ [cmd]) k | None => k end)
  | None => reply 400 (JObject [("error", JString "Invalid app_id"); ("details", JString appIdText)]) k
  end)).

(** A text field, if there is one. *)
Definition textField (j : json) (k : string) : option string :=
  match jfind j k with Some (JString s) => Some s | _ => None end.

Definition spacedError (text : string) : string := "{" +:+ quoted "error" +:+ ": " +:+ quoted text +:+ "}".

Definition handleAppRegister (r : Request) : handler := withBody r (fun j k =>
  match textField j "app_name" with
  | None => replyText 400 (spacedError "Missing or invalid 'appName'") k
  | Some name =>
      match textField j "simulation_completed_url" with
      | None => replyText 400 (spacedError "Missing or invalid 'simulationCompletedUrl'") k
      | Some url =>
          let '(a, id) := registerApplication name url (k_apps k) in
          reply 200 (JObject [("app_id", JInteger id); ("message", JString "Application registered successfully")]) (set_apps a k)
      end
  end).

(** Without a translator. *)
Definition handleInputTextIntent : handler :=
  replyText 503 (rawError "Intent translator is disabled; the kernel was started with --no-ai.").

(** * Topology and paths *)

Definition handleGetStaticTopology : handler := fun k =>
  match dumpIndented env (getStaticTopologyJson (mode cfg) (k_topology k)) with
  | Ret b => replyText 200 b k
  | Throw e => (k, Throw e)
  end.

(** The hops of one path; [None] is a malformed hop, which ends the request. *)
Fixpoint readPaths (paths : list json) : outcome (option (list Path)) :=
  match paths with
  | [] => Ret (Some [])
  | p :: paths =>
      let! hops := parsePath (jiter p) in
      match hops with
      | None => Ret None
      | Some hops =>
          let! rest := readPaths paths in
          Ret (ps ← rest; Some (match hops with [] => ps | _ => hops :: ps end))
      end
  end.

Definition handleInformAllDestinationPaths (r : Request) : handler := withBody r (fun b =>
  lifted (let! a := jat b "all_destination_paths" in readPaths (jiter a)) (fun ps k =>
  match ps with
  | None => reply 400 (JObject [("status", JString "error"); ("error", JString "malformed path node");
      ("detail", JString "each hop must be [node, interface]; node is a dotted IPv4 address or a numeric id, interface is a number or a numeric string")]) k
  | Some ps => replyText 200 (rawObject "status" "success") (set_paths (setAllPaths ps (k_paths k)) k)
  end)).

(** [std::map] visits its keys in order. *)
Definition countLe (x y : (Z * Z) * Z) : Prop := x.1.1 < y.1.1 \/ (x.1.1 = y.1.1 /\ x.1.2 <= y.1.2).
#[export] Instance countLe_dec : RelDecision countLe.
Proof. intros x y. unfold countLe. apply _. Defined.

Definition getAllSwitchCounts (ps : Paths) : list ((Z * Z) * Z) := merge_sort countLe (map_to_list (m_switchCountMap ps)).

Definition handleGetPathSwitchCount (r : Request) : handler := fun k =>
  let srcIpStr := queryParam (target r) "src_ip" in
  let dstIpStr := queryParam (target r) "dst_ip" in
  if negb (bool_decide (srcIpStr = "")) && negb (bool_decide (dstIpStr = "")) then
    match tryIpStringToUint32 srcIpStr, tryIpStringToUint32 dstIpStr with
    | Some srcIp, Some dstIp =>
        match getSwitchCount (srcIp, dstIp) (k_paths k) with
        | Some n => reply 200 (JObject [("status", JString "success"); ("src_ip", JString srcIpStr); ("dst_ip", JString dstIpStr);
                                        ("switch_count", JUnsigned n)]) k
        | None => reply 404 (JObject [("status", JString "error"); ("message", JString "Path not found for the given IPs.")]) k
        end
    | _, _ => reply 400 (JObject [("status", JString "error"); ("error", JString "invalid IP address"); ("src_ip", JString srcIpStr);
                ("dst_ip", JString dstIpStr); ("detail", JString "src_ip and dst_ip must be dotted IPv4 addresses")]) k
    end
  else
    reply 200 (JObject [("status", JString "success");
      ("data", JArray ((fun c => JObject [("src_ip", JString (ipToString c.1.1)); ("dst_ip", JString (ipToString c.1.2));
                                          ("switch_count", JUnsigned c.2)]) <$> getAllSwitchCounts (k_paths k)))]) k.

(** A file that is not there leaves the response as it was made: 200 and empty. *)
Definition handleGetOpenflowCapacity : handler := fun k =>
  match capacityFile env with
  | None => replyText 200 "" k
  | Some text => lifted (parse text) (fun j => reply 200 j) k
  end.

Definition handleSetHistoricalLoggingState (r : Request) : handler := fun k =>
  let state := queryParam (target r) "state" in
  if bool_decide (state <> "enable") && bool_decide (state <> "disable")
  then replyText 400 (rawError "Invalid or missing 'state' parameter. Use 'enable' or 'disable'.") k
  else
    match k_history k with
    | None => replyText 500 ("{" +:+ quoted "status" +:+ ": " +:+ quoted "error" +:+ ", " +:+ quoted "message" +:+ ": " +:+
                             quoted "Historical data manager not available." +:+ "}") k
    | Some m =>
        let enabled := bool_decide (state = "enable") in
        let k := set_history (Some (setLoggingState enabled m)) k in
        if enabled && negb (canRecord m) then
          reply 200 (JObject [("status", JString "success"); ("recording", JBool false);
            ("message", JString "Historical data logging is enabled, but this deployment does not record: the recorder is only started outside MININET mode, so no rows will be written.")]) k
        else
          reply 200 (JObject [("status", JString "success"); ("recording", JBool enabled);
            ("message", JString ("Historical data logging has been " +:+ (if enabled then "enabled" else "disabled") +:+ "."))]) k
    end.

Definition handleGetAvgLinkUsage : handler := fun k =>
  reply 200 (JObject [("status", JString "success"); ("avg_link_usage", floatJson (getAvgLinkUsage (m_graph (k_topology k))))]) k.

(** The two sums over the links into a switch. *)
Definition sumIntoSwitch (r : Request) (key : string) (value : Z -> Graph -> json) : handler := withBody r (fun j k =>
  if contains j "dpid" then
    lifted (jfield get_u64 j "dpid") (fun d => reply 200 (JObject [("status", JString "success"); (key, value d (m_graph (k_topology k)))])) k
  else reply 400 (JObject [("status", JString "error"); ("message", JString "dpid missing")]) k).

Definition handleGetTotalInputTrafficLoadPassingASwitch (r : Request) : handler :=
  sumIntoSwitch r "total_input_traffic_load_bps" (fun d g => JUnsigned (totalInputTrafficLoad d g)).

Definition handleGetNumOfFlowsPassingASwitch (r : Request) : handler :=
  sumIntoSwitch r "num_of_flows" (fun d g => JInteger (numOfFlows d g)).

Definition handleNotFound : handler := reply 404 (JObject [("error", JString "Not Found")]).

(** * Locks *)

(** The fields of an acquire request: read in order, and whatever is wrong keeps the rest at its default. *)
Definition acquireParams (body : string) : string * Z :=
  match parse body with
  | Throw _ => (DEFAULT_LOCK_TYPE_STR, DEFAULT_TTL_SECONDS)
  | Ret j =>
      match jvalue get_string j "type" DEFAULT_LOCK_TYPE_STR with
      | Throw _ => (DEFAULT_LOCK_TYPE_STR, DEFAULT_TTL_SECONDS)
      | Ret t => (t, catch (jvalue get_i32 j "ttl" DEFAULT_TTL_SECONDS) DEFAULT_TTL_SECONDS)
      end
  end.

(** A renewal reads the ttl first. *)
Definition renewParams (body : string) : string * Z :=
  match parse body with
  | Throw _ => (DEFAULT_LOCK_TYPE_STR, DEFAULT_TTL_SECONDS)
  | Ret j =>
      match (if contains j "ttl" then jvalue get_i32 j "ttl" DEFAULT_TTL_SECONDS else Ret DEFAULT_TTL_SECONDS) with
      | Throw _ => (DEFAULT_LOCK_TYPE_STR, DEFAULT_TTL_SECONDS)
      | Ret ttl =>
          (catch (if contains j "type" then jvalue get_string j "type" DEFAULT_LOCK_TYPE_STR else Ret DEFAULT_LOCK_TYPE_STR)
             DEFAULT_LOCK_TYPE_STR, ttl)
      end
  end.

Definition handleAcquireLock (r : Request) : handler := catching (fun k =>
  let '(lockType, ttl) := acquireParams (req_body r) in
  let '(locks, success) := acquireLock (now env) lockType ttl (k_locks k) in
  let k := set_locks locks k in
  if success then reply 200 (JObject [("status", JString "locked"); ("type", JString lockType); ("ttl", JInteger ttl)]) k
  else reply 423 (JObject [("error", JString "Lock acquisition failed");
                           ("detail", JString ("System busy or invalid lock type: " +:+ lockType))]) k)
  (fun _ => reply 500 (JObject [("error", JString "Internal server error")])).

Definition handleRenewLock (r : Request) : handler := catching (fun k =>
  let '(lockType, ttl) := renewParams (req_body r) in
  let '(locks, success) := renew (now env) lockType ttl (k_locks k) in
  let k := set_locks locks k in
  if success then reply 200 (JObject [("status", JString "renewed"); ("type", JString lockType); ("ttl", JInteger ttl)]) k
  else reply 412 (JObject [("error", JString "Renew failed");
                           ("detail", JString ("Lock '" +:+ lockType +:+ "' is expired, not held, or invalid type"))]) k)
  (fun _ => reply 400 (JObject [("error", JString "Invalid Request")])).

(** The lock a release names, or the answer that refuses it. *)
Definition releaseParams (body : string) : string + json :=
  if bool_decide (body = "") then inl DEFAULT_LOCK_TYPE_STR
  else
    match parse body with
    | Throw _ => inr (JObject [("error", JString "Invalid Request"); ("detail", JString "Request body is not valid JSON")])
    | Ret j =>
        match jfind j "type" with
        | None => inl DEFAULT_LOCK_TYPE_STR
        | Some (JString t) => inl t
        | Some _ => inr (JObject [("error", JString "Invalid Request"); ("detail", JString "'type' must be a string")])
        end
    end.

Definition handleReleaseLock (r : Request) : handler := catching (fun k =>
  match releaseParams (req_body r) with
  | inr refusal => reply 400 refusal k
  | inl lockType =>
      let '(locks, success) := unlock lockType (k_locks k) in
      let k := set_locks locks k in
      if success then reply 200 (JObject [("status", JString "released"); ("type", JString lockType)]) k
      else reply 412 (JObject [("error", JString "Release failed");
                               ("detail", JString ("Lock '" +:+ lockType +:+ "' is not held or is an invalid type"))]) k
  end)
  (fun _ => reply 500 (JObject [("error", JString "Release lock failed")])).

(** * The router *)

Definition handle (e : Endpoint) (r : Request) : handler :=
  match e with
  | LinkFailure => handleLinkFailure r
  | LinkRecovery => handleLinkRecovery r
  | GetGraphData => handleGetGraphData
  | GetDetectedFlowData => handleGetDetectedFlowData
  | GetDetectedTopKFlowData => handleGetDetectedTopKFlowData r
  | GetSwitchOpenflowEntries => handleGetSwitchOpenflowEntries
  | GetPowerReport => handleGetPowerReport
  | GetSwitchesPowerState => handleGetSwitchesPowerState r
  | SetSwitchesPowerState => handleSetSwitchesPowerState r
  | InstallFlowEntry => handleFlowEntry Install r
  | DeleteFlowEntry => handleFlowEntry Delete r
  | ModifyFlowEntry => handleFlowEntry Modify r
  | InstallGroupEntry => handleEntry InstallGroup r
  | DeleteGroupEntry => handleEntry DeleteGroup r
  | ModifyGroupEntry => handleEntry ModifyGroup r
  | InstallMeterEntry => handleEntry InstallMeter r
  | DeleteMeterEntry => handleEntry DeleteMeter r
  | ModifyMeterEntry => handleEntry ModifyMeter r
  | InstallModifyDeleteFlowEntries => handleInstallModifyDeleteFlowEntries r
  | GetCpuUtilization => handleGetCpuUtilization
  | GetMemoryUtilization => handleGetMemoryUtilization
  | InformSwitchEntered => handleInformSwitchEntered r
  | ModifyDeviceName => handleModifyDeviceName r
  | ReceivedSimulationCase => handleReceivedSimulationCase r
  | SimulationCompleted => handleSimulationCompleted r
  | GetStaticTopology => handleGetStaticTopology
  | InformAllDestinationPaths => handleInformAllDestinationPaths r
  | AppRegister => handleAppRegister r
  | InputTextIntent => handleInputTextIntent
  | GetNickname => handleGetNickname r
  | ModifyNickname => handleModifyNickname r
  | GetTemperature => handleGetTemperature
  | GetPathSwitchCount => handleGetPathSwitchCount r
  | GetOpenflowCapacity => handleGetOpenflowCapacity
  | SetHistoricalLoggingState => handleSetHistoricalLoggingState r
  | GetAvgLinkUsage => handleGetAvgLinkUsage
  | GetTotalInputTrafficLoadPassingASwitch => handleGetTotalInputTrafficLoadPassingASwitch r
  | GetNumOfFlowsPassingASwitch => handleGetNumOfFlowsPassingASwitch r
  | AcquireLock => handleAcquireLock r
  | RenewLock => handleRenewLock r
  | ReleaseLock => handleReleaseLock r
  | NotFound => handleNotFound
  end.

(** The [json::exception] clause comes before the [std::exception] one. *)
Definition isJsonException (e : exn) : bool :=
  match e with JsonTypeError | JsonOutOfRange | JsonParseError => true | _ => false end.

(** The catch clauses; an exception thrown by one of them, when its text cannot be dumped, escapes. *)
Definition answerException (e : exn) : handler :=
  if isJsonException e
  then reply 400 (JObject [("error", JString "JSON parsing error"); ("details", JString (what env e))])
  else reply 500 (JObject [("error", JString "Internal server error"); ("details", JString (what env e))]).

Definition buildResponse (r : Request) : handler :=
  match method_ r with
  | options => replyText 204 ""
  | m => catching (handle (route m (target r)) r) answerException
  end.

End Handlers.
