(* ===== verification/HttpProps.v ===== *)
(** Properties of the HTTP interface: every request is answered, reading changes nothing, a batch of flow
    entries is queued as a whole or refused as a whole, link reports mark both directions, and the lock
    endpoints refine the lock table. *)

From Stdlib Require Import Ascii SpecFloat.
From S2P Require Import Prelude CStrings NetUtils Json LockManager EventSystem SFlowTypes FlowRates FlowDispatch FlowDispatchProps.
From S2P Require Import GraphTypes Topology TopologyProps TopologyRename TopologyReports Routing FlowTableCache DevicePoll DevicePower DeviceReports DeviceQuery.
From S2P Require Import HttpRouter Applications History HttpSession.
Local Open Scope string_scope.
Local Open Scope list_scope.
Local Open Scope Z_scope.

Section Http.
Context `{JsonText} `{Machine} `{NfsHost} (cfg : Config) (env : Env).

(** * Every request is answered *)

(** If the handler answers, its status is one of HTTP. *)
Definition statusOk (x : Kernel * outcome Response) : Prop :=
  match x.2 with Ret r => 200 <= status r < 600 | Throw _ => True end.

Lemma reply_ok st j k : 200 <= st < 600 -> statusOk (reply st j k).
Proof. intros Hst. unfold reply, statusOk. cbn. by destruct (dump j). Qed.

Lemma replyText_ok st t k : 200 <= st < 600 -> statusOk (replyText st t k).
Proof. done. Qed.

Lemma failed_ok k e : statusOk (k, Throw e).
Proof. done. Qed.

Lemma lifted_ok {A} (c : outcome A) cont k : (forall a, statusOk (cont a k)) -> statusOk (lifted c cont k).
Proof. intros Hc. unfold lifted. by destruct c. Qed.

Lemma withBody_ok r cont k : (forall j, statusOk (cont j k)) -> statusOk (withBody r cont k).
Proof. intros Hc. unfold withBody. by destruct (parse _). Qed.

Lemma catching_ok h answer k : statusOk (h k) -> (forall e k, statusOk (answer e k)) -> statusOk (catching h answer k).
Proof. intros Hh Ha. unfold catching. by destruct (h k) as [k' [r|e]]. Qed.

Ltac answered1 :=
  first
    [ apply reply_ok; lia | apply replyText_ok; lia | apply failed_ok
    | apply withBody_ok; intros ? | apply lifted_ok; intros ? | apply catching_ok; [|intros ? ?]
    | progress cbn beta iota zeta | case_match ].
Ltac answered := repeat answered1.

Lemma respondToOpResult_ok result msg k : statusOk (respondToOpResult result msg k).
Proof.
  unfold respondToOpResult. destruct (ok result); [answered|]. apply reply_ok.
  repeat case_match; try lia. match goal with E : _ && _ = true |- _ => apply andb_prop in E as [E1%bool_decide_eq_true E2%bool_decide_eq_true] end.
  lia.
Qed.

Lemma markLink_ok set note src dst half done_ k : statusOk (markLink set note src dst half done_ k).
Proof. unfold markLink. answered. Qed.

Lemma renameFound_ok f v name nf done_ k : statusOk (renameFound env f v name nf done_ k).
Proof. unfold renameFound. answered. Qed.

Lemma processFlowBatch_ok j k : statusOk (processFlowBatch j k).
Proof. unfold processFlowBatch. answered. Qed.

Ltac unfoldHandlers :=
  unfold handleLinkFailure, handleLinkRecovery, handleGetGraphData, handleGetDetectedFlowData, handleGetDetectedTopKFlowData,
    handleGetSwitchOpenflowEntries, handleGetPowerReport, handleGetSwitchesPowerState, handleSetSwitchesPowerState, handleFlowEntry,
    handleEntry, handleInstallModifyDeleteFlowEntries, handleGetCpuUtilization, handleGetMemoryUtilization, handleInformSwitchEntered,
    handleModifyDeviceName, handleReceivedSimulationCase, handleSimulationCompleted, handleGetStaticTopology,
    handleInformAllDestinationPaths, handleAppRegister, handleInputTextIntent, handleGetNickname, handleModifyNickname,
    handleGetTemperature, handleGetPathSwitchCount, handleGetOpenflowCapacity, handleSetHistoricalLoggingState, handleGetAvgLinkUsage,
    handleGetTotalInputTrafficLoadPassingASwitch, handleGetNumOfFlowsPassingASwitch, sumIntoSwitch, handleAcquireLock, handleRenewLock,
    handleReleaseLock, handleNotFound in *.

Lemma handle_ok e r k : statusOk (handle cfg env e r k).
Proof.
  destruct e; cbn [handle]; unfoldHandlers;
    repeat first [apply respondToOpResult_ok | apply markLink_ok | apply renameFound_ok | apply processFlowBatch_ok | answered1].
Qed.

Lemma answerException_inv e k :
  exists st details, (st = 400 \/ st = 500) /\
    answerException env e k = (k, omap_out (fun b => {| status := st; body := b |}) (dump (JObject [("error", JString details); ("details", JString (what env e))]))).
Proof. unfold answerException, reply. destruct (isJsonException e); eauto 10. Qed.

(** A request gets exactly one response with an HTTP status, whatever it holds and whatever the components
    below throw, unless a handler threw an exception whose text cannot be written as JSON: then the
    exception of the catch clause leaves [buildResponse]. *)
Lemma buildResponse_answers r k :
  (exists k' resp, buildResponse cfg env r k = (k', Ret resp) /\ 200 <= status resp < 600) \/
  (exists k' e e' error, handle cfg env (route (method_ r) (target r)) r k = (k', Throw e) /\
     dump (JObject [("error", JString error); ("details", JString (what env e))]) = Throw e' /\
     buildResponse cfg env r k = (k', Throw e')).
Proof.
  unfold buildResponse. destruct (bool_decide (method_ r = options)) eqn:Eo.
  { apply bool_decide_eq_true in Eo. rewrite Eo. left. unfold replyText. do 2 eexists. split; [done|]. cbn. lia. }
  assert (Hm : (match method_ r with options => replyText 204 "" | m => catching (handle cfg env (route m (target r)) r) (answerException env) end) k
    = catching (handle cfg env (route (method_ r) (target r)) r) (answerException env) k).
  { apply bool_decide_eq_false in Eo. by destruct (method_ r). }
  rewrite Hm. pose proof (handle_ok (route (method_ r) (target r)) r k) as Hok. unfold catching.
  destruct (handle cfg env (route (method_ r) (target r)) r k) as [k' [resp|e]] eqn:Eh; [left; eauto|].
  destruct (answerException_inv e k') as (st & details & Hst & ->).
  destruct (dump _) as [b|e'] eqn:Ed.
  - left. do 2 eexists. split; [done|]. cbn. lia.
  - right. exists k', e, e', details. eauto.
Qed.

(** * Reading changes nothing *)

Lemma reply_same st j k : (reply st j k).1 = k.
Proof. done. Qed.

Lemma lifted_same {A} (c : outcome A) cont k : (forall a, (cont a k).1 = k) -> (lifted c cont k).1 = k.
Proof. intros Hc. unfold lifted. by destruct c. Qed.

Lemma set_world_id k : set_world (world k) k = k.
Proof. by destruct k. Qed.

Lemma catching_same h answer k k' : (h k).1 = k' -> (forall e k, (answer e k).1 = k) -> (catching h answer k).1 = k'.
Proof. intros <- Ha. unfold catching. destruct (h k) as [k2 [|]]; [done|]. apply Ha. Qed.

Lemma get_route_reads target e :
  route get target = e ->
  e ∈ [GetGraphData; GetDetectedFlowData; GetDetectedTopKFlowData; GetSwitchOpenflowEntries; GetPowerReport; GetSwitchesPowerState;
       GetCpuUtilization; GetMemoryUtilization; InformSwitchEntered; GetStaticTopology; GetNickname; GetTemperature; GetPathSwitchCount;
       GetOpenflowCapacity; GetAvgLinkUsage; NotFound].
Proof.
  intros <-. destruct (firstRoute_inv get target routes) as [(r & Hr & Hs & E)|[E _]]; unfold route; rewrite E; [|set_solver].
  unfold serves in Hs. apply andb_prop in Hs as [Hm%bool_decide_eq_true _]. unfold routes in Hr.
  repeat (apply elem_of_cons in Hr as [->|Hr]; [first [discriminate Hm | cbn [endpoint rt]; set_solver]|]). by apply elem_of_nil in Hr.
Qed.

Lemma getSwitchesPowerState_reads m gw plugs target w :
  exists h, (getSwitchesPowerState m gw plugs target w).1 = (w.1, h) /\ (m = MININET -> h = w.2).
Proof.
  unfold getSwitchesPowerState. destruct m, w as [t h]; cbn; [eauto|].
  destruct (queryTestbed _ _ _ _) as [h' r]. exists h'. done.
Qed.

(** A GET request leaves the kernel as it is, with two exceptions: the report that a switch has entered,
    and the power query of a testbed, which asks the relay gateway but changes nothing of the kernel. *)
Theorem reads_change_nothing r k :
  method_ r = get -> route get (target r) <> InformSwitchEntered ->
  exists h, (buildResponse cfg env r k).1 = set_commands h k /\
    (route get (target r) <> GetSwitchesPowerState \/ mode cfg = MININET -> (buildResponse cfg env r k).1 = k).
Proof.
  intros Hm Hr. unfold buildResponse. rewrite Hm.
  assert (Ha : forall e k, (answerException env e k).1 = k).
  { intros e k2. unfold answerException. by destruct (isJsonException e). }
  assert (Hid : set_commands (k_commands k) k = k) by by destruct k.
  assert (Hread : route get (target r) <> GetSwitchesPowerState ->
    (handle cfg env (route get (target r)) r k).1 = k).
  { intros Hn. pose proof (get_route_reads (target r) _ eq_refl) as Hin. revert Hin Hr Hn. generalize (route get (target r)).
    intros e Hin Hr Hn. repeat (apply elem_of_cons in Hin as [->|Hin]; [try done; cbn [handle]; unfoldHandlers|]);
      [..|by apply elem_of_nil in Hin]; repeat case_match; try done. by apply lifted_same. }
  destruct (decide (route get (target r) = GetSwitchesPowerState)) as [E|Hn].
  - destruct (getSwitchesPowerState_reads (mode cfg) (GW_IP cfg) (switchSmartPlugTable cfg) (target r) (world k)) as (h & Hw & Hh).
    exists h. assert (Hk : (catching (handle cfg env (route get (target r)) r) (answerException env) k).1 = set_commands h k).
    { apply catching_same; [|done]. rewrite E. cbn [handle]. unfoldHandlers.
      destruct (getSwitchesPowerState _ _ _ _ _) as [w res]. cbn in Hw. subst w. by repeat case_match. }
    split; [done|]. intros [Hc|Hmn]; [done|]. rewrite Hk, (Hh Hmn). by destruct k.
  - exists (k_commands k). rewrite Hid. assert (Hk : (catching (handle cfg env (route get (target r)) r) (answerException env) k).1 = k)
      by (apply catching_same; auto). by split.
Qed.

(** * Batches of flow entries *)

(** Every entry can form a rule, and if there are any, one of them is for a known switch. *)
Definition validBatch (t : Topology) (ins mods dels : list json) (jobs : list FlowJob) : Prop :=
  Forall (fun e => describeFlowEntryShapeProblem e Install = "") ins /\
  Forall (fun e => describeFlowEntryShapeProblem e Modify = "") mods /\
  Forall (fun e => describeFlowEntryShapeProblem e Delete = "") dels /\
  jobsOf ins mods dels = Ret jobs /\ (jobs = [] \/ exists job, job ∈ jobs /\ isKnown t (dpid job) = true).

Lemma collect_nil op field i es :
  collectShapeProblems op field i es = [] <-> Forall (fun e => describeFlowEntryShapeProblem e op = "") es.
Proof.
  revert i. induction es as [|e es IH]; intros i; cbn; [by split|]. case_bool_decide as E; rewrite Forall_cons.
  - rewrite IH. naive_solver.
  - split; [done|]. naive_solver.
Qed.

Lemma running_enqueue jobs d : running_ (foldl pushJob d jobs) = running_ d.
Proof. revert d. induction jobs as [|j jobs IH]; intros d; cbn; [done|]. by rewrite IH. Qed.

Lemma queueOf_enqueue jobs d id :
  running_ d = true -> queueOf (enqueue jobs d) id = queueOf d id ++ forSwitch id jobs.
Proof.
  intros Hr. unfold enqueue. rewrite Hr. clear Hr. unfold forSwitch. revert d.
  induction jobs as [|j jobs IH]; intros d; [by rewrite app_nil_r|]. cbn [foldl]. rewrite IH, queueOf_push, filter_cons.
  case_decide as E; [rewrite decide_True by done|rewrite decide_False by done]; [by rewrite <- app_assoc|done].
Qed.

(** The accepted jobs are empty exactly when no job is for a known switch. *)
Lemma partition_refused jobs known :
  let p := partitionFlowBatchByKnownDpid jobs known in
  bool_decide (accepted p = []) && bool_decide (0 < rejectedEntries p) = false <->
  jobs = [] \/ exists job, job ∈ jobs /\ known (dpid job) = true.
Proof.
  cbn zeta. destruct (partition_batch_correct jobs known) as (Ha & Hn & _).
  revert Ha Hn. generalize (partitionFlowBatchByKnownDpid jobs known). intros p Ha Hn.
  destruct (accepted p) as [|a r] eqn:E.
  - rewrite bool_decide_true by done. cbn in Hn. cbn. rewrite bool_decide_eq_false. split.
    + intros Hr. left. destruct jobs; [done|]. cbn in Hn. lia.
    + intros [->|(job & Hj & Hk)]; [cbn in Hn; lia|]. exfalso.
      assert (job ∈ filter (fun j => known (dpid j) = true) jobs) as Hin by by apply list_elem_of_filter.
      rewrite <- Ha in Hin. by apply elem_of_nil in Hin.
  - rewrite bool_decide_false by done. split; [intros _|done]. right. exists a.
    assert (a ∈ filter (fun j => known (dpid j) = true) jobs) as Hin by (rewrite <- Ha; left).
    by apply list_elem_of_filter in Hin as [? ?].
Qed.

Lemma known_switch_jobs (known : Z -> bool) id jobs :
  filter (fun j => dpid j = id) (filter (fun j => known (dpid j) = true) jobs) =
  if known id then filter (fun j => dpid j = id) jobs else [].
Proof.
  induction jobs as [|j jobs IH]; [by destruct (known id)|]. rewrite !filter_cons.
  destruct (decide (known (dpid j) = true)) as [Hk|Hk]; [rewrite filter_cons|]; destruct (decide (dpid j = id)) as [<-|Hne]; rewrite IH.
  - by rewrite Hk.
  - done.
  - apply not_true_is_false in Hk. by rewrite Hk.
  - done.
Qed.


(** * Links *)

(** The report of a link, as the control plane sends it. *)
Definition linkBody (src si dst di : Z) : json :=
  JObject [("src_dpid", JUnsigned src); ("src_interface", JUnsigned si); ("dst_dpid", JUnsigned dst); ("dst_interface", JUnsigned di)].

Definition reports (r : Request) (e : Endpoint) (src dst : Z) : Prop :=
  method_ r = post /\ route post (target r) = e /\ fits 64 src /\ fits 64 dst /\
  exists si di, fits 32 si /\ fits 32 di /\ parse (req_body r) = Ret (linkBody src si dst di).

(** An edge with another state. *)
Definition withUp (up : bool) (e : EdgeProperties) : EdgeProperties := eflags up (e_isEnabled e) (e_adminDisabled e) e.

(** Only the edges [fwd] and [rev] change, and of them only [isUp]. *)
Definition marked (up : bool) (fwd rev : EdgeDesc) (g g' : Graph) : Prop :=
  vertices g' = vertices g /\
  forall d, edges g' !! d = if decide (d = fwd \/ d = rev) then withUp up <$> edges g !! d else edges g !! d.

Lemma alter_marked up fwd rev g : marked up fwd rev g (alterEdge (withUp up) rev (alterEdge (withUp up) fwd g)).
Proof.
  split; [done|]. intros d. cbn. rewrite !lookup_alter. repeat case_decide; subst; try tauto; destruct (edges g !! _); cbn; try done;
    naive_solver.
Qed.

Definition sameEnds (e e' : EdgeProperties) : Prop := srcDpid e' = srcDpid e /\ dstDpid e' = dstDpid e.
#[local] Instance sameEnds_refl : Reflexive sameEnds.
Proof. by intros e. Qed.

Lemma find_alter key f d t :
  (forall e, sameEnds e (f e)) ->
  findEdgeBySrcAndDstDpid key (onGraph (alterEdge f d) t) = findEdgeBySrcAndDstDpid key t.
Proof.
  intros Hf. unfold findEdgeBySrcAndDstDpid. symmetry.
  apply (evolves_firstEdge (=) sameEnds); [by intros e e' [-> ->]|]. by apply evolves_alterEdge; try apply _.
Qed.

Lemma markLink_both up set note src dst half done_ k fwd rev :
  set = (fun d => onGraph (alterEdge (withUp up) d)) -> (forall d k2, k_topology (note d k2) = k_topology k2) ->
  findEdgeBySrcAndDstDpid (src, dst) (k_topology k) = Some fwd -> findEdgeBySrcAndDstDpid (dst, src) (k_topology k) = Some rev ->
  markLink set note src dst half done_ k =
  (note rev (set_topology (set rev (set fwd (k_topology k))) (note fwd (set_topology (set fwd (k_topology k)) k))),
   Ret {| status := 200; body := rawObject "status" done_ |}).
Proof.
  intros -> Hn Hf Hr. unfold markLink. rewrite Hf, Hn. cbn [k_topology set_topology set_world fst].
  rewrite find_alter by done. by rewrite Hr.
Qed.

Lemma linkFailed_read src si dst di b :
  fits 64 src -> fits 64 dst -> fits 32 si -> fits 32 di -> parse b = Ret (linkBody src si dst di) ->
  RequestParser.parseLinkFailedEventPayload parseOption b =
  Some {| RequestParser.srcDpid := src; RequestParser.srcInterface := si; RequestParser.dstDpid := dst; RequestParser.dstInterface := di |}.
Proof.
  intros Hs Hd Hsi Hdi Hb. unfold RequestParser.parseLinkFailedEventPayload, parseOption. rewrite Hb.
  change (forallb (contains (linkBody src si dst di)) RequestParser.linkKeys) with true. cbn match.
  change (RequestParser.readLinkFailed (linkBody src si dst di)) with
    (Ret {| RequestParser.srcDpid := u64 src; RequestParser.srcInterface := u32 si; RequestParser.dstDpid := u64 dst; RequestParser.dstInterface := u32 di |}).
  by rewrite !u64_id, !u32_id by done.
Qed.

Lemma linkRecovered_read src si dst di :
  fits 64 src -> fits 64 dst -> fits 32 si -> fits 32 di ->
  (let! s := jfield get_u64 (linkBody src si dst di) "src_dpid" in let! _ := jfield get_u32 (linkBody src si dst di) "src_interface" in
   let! d := jfield get_u64 (linkBody src si dst di) "dst_dpid" in let! _ := jfield get_u32 (linkBody src si dst di) "dst_interface" in Ret (s, d))
  = Ret (src, dst).
Proof.
  intros Hs Hd Hsi Hdi. match goal with |- ?x = _ => change x with (Ret (u64 src, u64 dst)) end. by rewrite !u64_id by done.
Qed.

(** C22: A reported failure marks both directions of the link down and emits an event for each, and the
    recovery of the same link marks both up again; nothing else of the kernel changes. *)
Theorem link_failure_and_recovery f g k src dst fwd rev :
  reports f LinkFailure src dst -> reports g LinkRecovery src dst ->
  findEdgeBySrcAndDstDpid (src, dst) (k_topology k) = Some fwd -> findEdgeBySrcAndDstDpid (dst, src) (k_topology k) = Some rev ->
  exists k1 k2 b1 b2,
    buildResponse cfg env f k = (k1, Ret {| status := 200; body := b1 |}) /\
    buildResponse cfg env g k1 = (k2, Ret {| status := 200; body := b2 |}) /\
    marked false fwd rev (m_graph (k_topology k)) (m_graph (k_topology k1)) /\
    marked true fwd rev (m_graph (k_topology k)) (m_graph (k_topology k2)) /\
    k_events k1 = k_events k ++ [(LinkFailureDetected, fwd); (LinkFailureDetected, rev)] /\
    k2 = set_topology (k_topology k2) k1 /\ set_topology (k_topology k) k1 = emitEvent LinkFailureDetected rev (emitEvent LinkFailureDetected fwd k).
Proof.
  intros (Fm & Fr & Fs & Fd & fsi & fdi & Fsi & Fdi & Fp) (Gm & Gr & Gs & Gd & gsi & gdi & Gsi & Gdi & Gp) Hf Hr.
  set (down := fun d => onGraph (alterEdge (withUp false) d)). set (up := fun d => onGraph (alterEdge (withUp true) d)).
  pose proof (markLink_both false down (emitEvent LinkFailureDetected) src dst
    "reverse edge missing from the topology; the reported direction was marked down, its reverse was not" "link failure processed"
    k fwd rev eq_refl (fun d k2 => eq_refl) Hf Hr) as E1.
  match type of E1 with _ = (?x, _) => set (k1 := x) in E1 end.
  assert (Hf1 : findEdgeBySrcAndDstDpid (src, dst) (k_topology k1) = Some fwd) by (cbn; unfold down; by rewrite !find_alter).
  assert (Hr1 : findEdgeBySrcAndDstDpid (dst, src) (k_topology k1) = Some rev) by (cbn; unfold down; by rewrite !find_alter).
  pose proof (markLink_both true up (fun _ k => k) src dst
    "reverse edge missing from the topology; the reported direction was marked up, its reverse was not" "link recovery processed"
    k1 fwd rev eq_refl (fun d k2 => eq_refl) Hf1 Hr1) as E2.
  match type of E2 with _ = (?x, _) => set (k2 := x) in E2 end.
  exists k1, k2. do 2 eexists. split; [|split; [|split; [|split; [|split; [|split]]]]].
  - unfold buildResponse. rewrite Fm, Fr. unfold catching. cbn [handle]. unfold handleLinkFailure.
    rewrite (linkFailed_read _ _ _ _ _ Fs Fd Fsi Fdi Fp). cbn [RequestParser.srcDpid RequestParser.dstDpid].
    change setEdgeDown with down. by rewrite E1.
  - unfold buildResponse. rewrite Gm, Gr. unfold catching. cbn [handle]. unfold handleLinkRecovery, withBody. rewrite Gp.
    change (contains (linkBody src gsi dst gdi) _) with true. cbn [negb orb]. unfold lifted.
    rewrite (linkRecovered_read _ _ _ _ Gs Gd Gsi Gdi). change setEdgeUp with up. by rewrite E2.
  - apply alter_marked.
  - split; [done|]. intros d. cbn. rewrite !lookup_alter. repeat case_decide; subst; try tauto; destruct (edges _ !! _); cbn; try done; naive_solver.
  - cbn. by rewrite <- app_assoc.
  - done.
  - by destruct k.
Qed.
End Http.

(** * Locks *)

(** The operation a request of a lock endpoint asks for. *)
Definition lockRequestOp `{JsonText} (e : Endpoint) (b : string) : option LockOp :=
  match e with
  | AcquireLock => Some (OpAcquire (acquireParams b).1 (acquireParams b).2)
  | RenewLock => Some (OpRenew (renewParams b).1 (renewParams b).2)
  | ReleaseLock => match releaseParams b with inl t => Some (OpUnlock t) | inr _ => None end
  | _ => None
  end.

(** A series of requests, each at its own time, with whether it was answered 200. *)
Fixpoint serveAll `{JsonText} `{Machine} `{NfsHost} (cfg : Config) (rs : list (Env * Request)) (k : Kernel) : Kernel * list bool :=
  match rs with
  | [] => (k, [])
  | (env, r) :: rs =>
      let '(k, res) := buildResponse cfg env r k in
      let '(k, bs) := serveAll cfg rs k in
      (k, match res with Ret resp => bool_decide (status resp = 200) | Throw _ => false end :: bs)
  end.

Section Locks.
Context `{JsonText} `{Machine} `{NfsHost} (cfg : Config).

(** Answers can be printed. *)
Context (Hdump : forall j, is_ret (dump j) = true).

Lemma reply_ret st j k : exists b, reply st j k = (k, Ret {| status := st; body := b |}).
Proof. unfold reply. specialize (Hdump j). destruct (dump j) as [b|]; [|done]. by exists b. Qed.

Lemma lock_request env r k op :
  method_ r = post -> lockRequestOp (route post (target r)) (req_body r) = Some op ->
  let '(locks, granted) := stepLock (k_locks k) (now env, op) in
  exists b st, buildResponse cfg env r k = (set_locks locks k, Ret {| status := st; body := b |}) /\ bool_decide (st = 200) = granted.
Proof.
  intros Hm Hop. unfold buildResponse. rewrite Hm. destruct (route post (target r)); try done; cbn [lockRequestOp handle] in *;
    unfold catching, handleAcquireLock, handleRenewLock, handleReleaseLock; unfold catching.
  - injection Hop as <-. cbn [stepLock snd fst]. destruct (acquireParams (req_body r)) as [t ttl]. cbn [fst snd].
    destruct (acquireLock (now env) t ttl (k_locks k)) as [locks []]; edestruct reply_ret as [b Hb]; rewrite Hb; eauto.
  - injection Hop as <-. cbn [stepLock snd fst]. destruct (renewParams (req_body r)) as [t ttl]. cbn [fst snd].
    destruct (renew (now env) t ttl (k_locks k)) as [locks []]; edestruct reply_ret as [b Hb]; rewrite Hb; eauto.
  - destruct (releaseParams (req_body r)) as [t|]; [|done]. injection Hop as <-. cbn [stepLock snd fst].
    destruct (unlock t (k_locks k)) as [locks []]; edestruct reply_ret as [b Hb]; rewrite Hb; eauto.
Qed.

Lemma serve_locks_sim rs ops k L :
  Forall2 (fun er op => method_ er.2 = post /\ lockRequestOp (route post (target er.2)) (req_body er.2) = Some op) rs ops ->
  lock_sim (k_locks k) L -> (serveAll cfg rs k).2 = runSpec L (zip_with (fun er op => (now er.1, op)) rs ops).
Proof.
  intros HF. revert k L. induction HF as [|[env r] op rs ops [Hm Hop] HF IH]; intros k L Hs; [done|].
  cbn. pose proof (lock_request env r k op Hm Hop) as Hr. destruct (stepLock_sim _ _ (now env, op) Hs) as [Hb Hs'].
  destruct (stepLock (k_locks k) (now env, op)) as [locks granted]. destruct Hr as (b & st & -> & Hst).
  destruct (specLock L (now env, op)) as [L' b']. cbn in Hb, Hs'. subst b'.
  specialize (IH (set_locks locks k) L' Hs'). destruct (serveAll cfg rs (set_locks locks k)) as [k2 bs]. cbn in *. by rewrite IH, Hst.
Qed.
End Locks.


(** A ttl that cannot be read makes a renewal prolong the routing lock, whatever lock it names. *)
Lemma bad_ttl_renews_routing_lock `{JsonText} b t ttl :
  parse b = Ret (JObject [("type", JString t); ("ttl", JString ttl)]) -> lockRequestOp RenewLock b = Some (OpRenew "routing_lock" 5).
Proof. intros Hb. unfold lockRequestOp, renewParams. rewrite Hb. done. Qed.

(** A lease that ran out is renewed like one that runs. *)
Lemma expired_lock_renewed t0 t1 ttl ttl' :
  t0 + seconds ttl < t1 -> (runLocks ∅ [(t0, OpAcquire "graph_lock" ttl); (t1, OpRenew "graph_lock" ttl')]).2 = [true; true].
Proof. intros _. reflexivity. Qed.

(** * Sample requests *)

Definition sampleDelete : json :=
  JObject [("dpid", JUnsigned 2); ("match", JObject [("eth_type", JUnsigned 2048); ("ipv4_dst", JString "10.0.0.0/24")])].

(** A library that prints texts of printable characters only, and parses the bodies used here. *)
Definition httpText : JsonText := {|
  dump := fun j => match j with
    | JObject [_; ("details", JString s)] => if all_chars (fun c => bool_decide (code c < 128)) s then Ret "{}" else Throw JsonTypeError
    | _ => Ret "{}" end;
  parse := fun s => if bool_decide (s = "link") then Ret (linkBody 1 1 2 1)
    else if bool_decide (s = "delete") then Ret sampleDelete
    else if bool_decide (s = "lock") then Ret (JObject [("type", JString "power_lock"); ("ttl", JUnsigned 9)])
    else Throw JsonParseError |}.

Definition httpEdge (src dst : Z) : EdgeProperties := {|
  e_isUp := true; e_isEnabled := true; e_adminDisabled := false; leftBandwidth := 6; linkBandwidth := 10; linkBandwidthUsage := 4;
  linkBandwidthUtilization := f64_of_Z 40; leftBandwidthFromFlowSample := 7; e_srcIp := []; srcDpid := src; srcInterface := 1;
  e_dstIp := []; dstDpid := dst; e_dstInterface := 1; flowSet := ∅ |}.

Definition httpTopology : Topology := {|
  m_graph := {| vertices := [historyVertex 1; historyVertex 2]; edges := {[(0%nat, 1%nat) := httpEdge 1 2; (1%nat, 0%nat) := httpEdge 2 1]} |};
  m_dpidToSwitchKind := {[1 := BMV2; 2 := OVS]}; m_ryuUrl := []; m_dpidToIpStrMap := ∅; m_dpidStrToIpStrMap := ∅;
  m_ipStrToDpidMap := ∅; m_ipStrToDpidStrMap := ∅; m_lastRateDivisorSeconds := f64_of_Z (-1) |}.

Definition httpKernel : Kernel := {|
  k_topology := httpTopology; k_file := None; k_commands := []; k_flows := ∅;
  k_paths := {| allPathMap := ∅; m_switchCountMap := ∅ |}; k_dispatcher := start newDispatcher; k_tables := [];
  k_reports := {| m_cachedPowerReport := JNull; m_cachedCpuReport := JNull; m_cachedMemoryReport := JNull; m_cachedTemperatureReport := JNull |};
  k_locks := ∅; k_apps := newApplicationManager "/srv/nfs" []; k_history := None; k_events := [] |}.

Definition httpConfig : Config := {|
  mode := MININET; RYU_IP_AND_PORT := "ryu:8080"; P4_PROXY_IP_AND_PORT := "p4:8081"; GW_IP := "gw"; SIM_SERVER_URL := "sim"; switchSmartPlugTable := [] |}.

Definition httpEnv (t : Z) (message : string) : Env := {|
  now := t; formatTime := fun _ => ""; canWrite := true; capacityFile := None; parseMessage := fun _ => message; what := fun _ => message;
  dumpIndented := fun _ => Ret "{}" |}.

Definition httpPost (target body : string) : Request := {| method_ := post; target := target; req_body := body |}.
Definition httpGet (target : string) : Request := {| method_ := get; target := target; req_body := "" |}.

Definition serve (message : string) (r : Request) (k : Kernel) : Kernel * outcome Response :=
  @buildResponse httpText sampleMachine sampleHost httpConfig (httpEnv 0 message) r k.

Lemma reads_change_nothing_witness : (serve "" (httpGet "/ndt/get_nickname?dpid=2") httpKernel).1 = httpKernel.
Proof.
  destruct (@reads_change_nothing httpText sampleMachine sampleHost httpConfig (httpEnv 0 "") (httpGet "/ndt/get_nickname?dpid=2") httpKernel
    eq_refl ltac:(vm_compute; discriminate)) as (h & _ & E). apply E. by right.
Defined.


Lemma link_failure_and_recovery_witness :
  exists k1 k2 b1 b2, serve "" (httpPost "/ndt/link_failure_detected" "link") httpKernel = (k1, Ret {| status := 200; body := b1 |}) /\
    serve "" (httpPost "/ndt/link_recovery_detected" "link") k1 = (k2, Ret {| status := 200; body := b2 |}).
Proof.
  assert (Hrep : forall path e, route post path = e -> @reports httpText (httpPost path "link") e 1 2).
  { intros path e He. split; [done|]. split; [done|]. split; [unfold fits; lia|]. split; [unfold fits; lia|]. exists 1, 1.
    split; [unfold fits; lia|]. split; [unfold fits; lia|]. by vm_compute. }
  destruct (@link_failure_and_recovery httpText sampleMachine sampleHost httpConfig (httpEnv 0 "")
    (httpPost "/ndt/link_failure_detected" "link") (httpPost "/ndt/link_recovery_detected" "link") httpKernel 1 2 (0%nat, 1%nat) (1%nat, 0%nat)
    (Hrep "/ndt/link_failure_detected" LinkFailure eq_refl) (Hrep "/ndt/link_recovery_detected" LinkRecovery eq_refl) ltac:(by vm_compute) ltac:(by vm_compute))
    as (k1 & k2 & b1 & b2 & E1 & E2 & _). eauto 10.
Defined.

Definition plainText : JsonText := {| dump := fun _ => Ret "{}"; parse := @parse httpText |}.


(** A deletion whose match names a network is queued for its switch and then answered 500: the update of the
    served tables cannot read the address. *)
Lemma deletion_queued_yet_500 :
  let '(k', res) := serve "" (httpPost "/ndt/delete_flow_entry" "delete") httpKernel in
  length (queueOf (k_dispatcher k') 2) = 1%nat /\ status <$> match res with Ret r => Some r | Throw _ => None end = Some 500.
Proof. vm_compute. done. Qed.

(** A message with a byte that JSON text cannot hold, such as the parser quotes from a body, makes the
    exception leave [buildResponse]. *)
Lemma unprintable_message_escapes :
  serve (String (ascii_of_nat 255) "") (httpPost "/ndt/app_register" (String (ascii_of_nat 255) "")) httpKernel = (httpKernel, Throw JsonTypeError).
Proof. vm_compute. done. Qed.

(** An address that cannot be read is answered 500 by both power endpoints. *)
Lemma bad_address_is_500 :
  (status <$> match (serve "" (httpGet "/ndt/get_switches_power_state?ip=abc") httpKernel).2 with Ret r => Some r | Throw _ => None end = Some 500) /\
  (status <$> match (serve "" (httpPost "/ndt/set_switches_power_state?ip=abc&action=on" "") httpKernel).2 with Ret r => Some r | Throw _ => None end = Some 500).
Proof. vm_compute. done. Qed.
