(* ===== verification/HttpServer.v ===== *)
(** The HTTP server (src/ndt_core/event_handling/ControllerAndOtherEventHandler.cpp: start, stop, runServer,
    doAccept, parseFlowStatsText; src/ndt_core/http/HttpSession.cpp: the connection's read and write loop).

    The sockets and the I/O context are libraries: an asynchronous operation is started by the code and
    completes later, with a result that the network chooses.  The model is a machine whose steps are
    these completions, the start of the server thread, and the steps of a thread inside [stop].  A
    completion handler is one step: the components below it lock for themselves.  An exception that
    leaves a handler leaves [io_context::run], which the pool's threads call bare, and ends the
    process. *)

From Stdlib Require Import Ascii.
From S2P Require Import Prelude CStrings NetUtils Json GraphTypes Routing DevicePower Applications HttpRouter HttpSession HttpProps.
Local Open Scope string_scope.
Local Open Scope list_scope.
Local Open Scope Z_scope.

(** * Messages as they travel *)

Record WireRequest := { w_request : Request; w_version : Z; w_keep_alive : bool }.
Record WireResponse := { p_response : Response; p_version : Z; p_keep_alive : bool; p_headers : list (string * string) }.

Definition standardHeaders : list (string * string) := [
  ("Server", "ndt-server"); ("Access-Control-Allow-Origin", "*"); ("Access-Control-Allow-Methods", "GET, POST, PUT, DELETE, OPTIONS");
  ("Access-Control-Allow-Headers", "Content-Type, Authorization, X-Requested-With"); ("Access-Control-Max-Age", "86400");
  ("Content-Type", "application/json")].

(** [prepare_payload] adds the length of the body. *)
Definition preparePayload (r : WireResponse) : WireResponse := {|
  p_response := p_response r; p_version := p_version r; p_keep_alive := p_keep_alive r;
  p_headers := p_headers r ++ [("Content-Length", std_to_string (Z.of_nat (String.length (body (p_response r)))))] |}.

(** * The connection *)

(** The one asynchronous operation of a session that is under way; without one the session is dropped. *)
Inductive Pending := Reading | Writing (m_res : WireResponse) | Ended.

(** [s_handled] and [s_sent] record the requests with their responses, and the responses written. *)
Record Session := {
  s_pending : Pending;
  s_shutdown : bool;
  s_handled : list (WireRequest * WireResponse);
  s_sent : list WireResponse
}.

Inductive ReadResult := ReadOk (env : Env) (r : WireRequest) | EndOfStream | ReadError.
Inductive Completion := ReadDone (r : ReadResult) | WriteDone (ok : bool).

Definition set_pending (p : Pending) (s : Session) : Session :=
  {| s_pending := p; s_shutdown := s_shutdown s; s_handled := s_handled s; s_sent := s_sent s |}.

Definition readRequest (s : Session) : Session := set_pending Reading s.
Definition newSession : Session := {| s_pending := Ended; s_shutdown := false; s_handled := []; s_sent := [] |}.
(** [HttpSession::start]. *)
Definition startSession (s : Session) : Session := readRequest s.

Definition writeResponse (m_res : WireResponse) (s : Session) : Session := set_pending (Writing (preparePayload m_res)) s.

(** [shutdown(shutdown_send)]: [closeSocket] and [doClose]. *)
Definition closeSocket (s : Session) : Session :=
  {| s_pending := Ended; s_shutdown := true; s_handled := s_handled s; s_sent := s_sent s |}.
Definition doClose (s : Session) : Session := closeSocket s.

Definition recordAnswer (r : WireRequest) (p : WireResponse) (s : Session) : Session :=
  {| s_pending := s_pending s; s_shutdown := s_shutdown s; s_handled := s_handled s ++ [(r, p)]; s_sent := s_sent s |}.
Definition recordSent (p : WireResponse) (s : Session) : Session :=
  {| s_pending := s_pending s; s_shutdown := s_shutdown s; s_handled := s_handled s; s_sent := s_sent s ++ [p] |}.

(** [after_write_] is never set, so there is no hook to take. *)
Definition onWrite (m_res : WireResponse) (ok : bool) (s : Session) : Session :=
  if negb ok then set_pending Ended s
  else
    let s := recordSent m_res s in
    if negb (p_keep_alive m_res) then doClose s else readRequest s.

Section Server.
Context `{JsonText} `{Machine} `{NfsHost} (cfg : Config).

(** [buildResponse] with the parts of the message that do not depend on the endpoint. *)
Definition buildWireResponse (env : Env) (r : WireRequest) : run Kernel WireResponse := fun k =>
  match buildResponse cfg env (w_request r) k with
  | (k, Ret resp) =>
      (k, Ret {| p_response := resp; p_version := w_version r; p_keep_alive := w_keep_alive r; p_headers := standardHeaders |})
  | (k, Throw e) => (k, Throw e)
  end.

Definition handleRequest (env : Env) (r : WireRequest) (s : Session) : run Kernel Session := fun k =>
  match buildWireResponse env r k with
  | (k, Ret m_res) => (k, Ret (writeResponse m_res (recordAnswer r (preparePayload m_res) s)))
  | (k, Throw e) => (k, Throw e)
  end.

Definition onRead (res : ReadResult) (s : Session) : run Kernel Session := fun k =>
  match res with
  | EndOfStream => (k, Ret (closeSocket s))
  | ReadError => (k, Ret (set_pending Ended s))
  | ReadOk env r => handleRequest env r s k
  end.

(** The handler a completion runs, when it is the session's operation. *)
Definition sessionStep (c : Completion) (s : Session) (k : Kernel) : option (Kernel * outcome Session) :=
  match s_pending s, c with
  | Reading, ReadDone res => Some (onRead res s k)
  | Writing m_res, WriteDone ok => Some (k, Ret (onWrite m_res ok s))
  | _, _ => None
  end.

(** * The server *)

(** How far a call of [stop] has come, and the server thread. *)
Inductive ServerStopPhase := StopIdle | StopFlagged | StopContext | StopClosed.
Inductive ServerThread := NotStarted | Launched | Serving | Joined.
#[export] Instance ServerThread_dec : EqDecision ServerThread.
Proof. solve_decision. Defined.

Record Server := {
  m_serverRunning : bool;
  m_serverAcceptor : option bool;
  m_acceptPending : bool;
  m_ioStopped : bool;
  m_serverThread : ServerThread;
  stopPhase : ServerStopPhase;
  terminated : bool;
  sessions : list Session;
  kernel : Kernel
}.

Definition newServer (k : Kernel) : Server := {|
  m_serverRunning := false; m_serverAcceptor := None; m_acceptPending := false; m_ioStopped := false; m_serverThread := NotStarted;
  stopPhase := StopIdle; terminated := false; sessions := []; kernel := k |}.

(** [ControllerAndOtherEventHandler::start]: the constructor of the acceptor throws when the port is
    taken. *)
Definition startServer (portFree : bool) (s : Server) : outcome Server :=
  if portFree then Ret {|
    m_serverRunning := true; m_serverAcceptor := Some true; m_acceptPending := m_acceptPending s; m_ioStopped := m_ioStopped s;
    m_serverThread := Launched; stopPhase := stopPhase s; terminated := terminated s; sessions := sessions s; kernel := kernel s |}
  else Throw RuntimeError.

Definition doAccept (s : Server) : Server := {|
  m_serverRunning := m_serverRunning s; m_serverAcceptor := m_serverAcceptor s; m_acceptPending := true; m_ioStopped := m_ioStopped s;
  m_serverThread := m_serverThread s; stopPhase := stopPhase s; terminated := terminated s; sessions := sessions s; kernel := kernel s |}.

Definition set_serverThread (t : ServerThread) (s : Server) : Server := {|
  m_serverRunning := m_serverRunning s; m_serverAcceptor := m_serverAcceptor s; m_acceptPending := m_acceptPending s;
  m_ioStopped := m_ioStopped s; m_serverThread := t; stopPhase := stopPhase s; terminated := terminated s; sessions := sessions s;
  kernel := kernel s |}.

(** The server thread: the first accept, then the pool that runs the context. *)
Definition runServer (s : Server) : Server := set_serverThread Serving (doAccept s).

(** A completion of the accept: a new session when there is no error and the server still runs; the next
    accept when it still runs. *)
Definition onAccept (ok : bool) (s : Server) : Server :=
  let s := {| m_serverRunning := m_serverRunning s; m_serverAcceptor := m_serverAcceptor s; m_acceptPending := false;
              m_ioStopped := m_ioStopped s; m_serverThread := m_serverThread s; stopPhase := stopPhase s; terminated := terminated s;
              sessions := if ok && m_serverRunning s then sessions s ++ [startSession newSession] else sessions s; kernel := kernel s |} in
  if m_serverRunning s then doAccept s else s.

Definition set_session (i : nat) (r : Kernel * outcome Session) (s : Server) : Server := {|
  m_serverRunning := m_serverRunning s; m_serverAcceptor := m_serverAcceptor s; m_acceptPending := m_acceptPending s;
  m_ioStopped := m_ioStopped s; m_serverThread := m_serverThread s; stopPhase := stopPhase s;
  terminated := match r.2 with Ret _ => terminated s | Throw _ => true end;
  sessions := match r.2 with Ret ses => <[i := ses]> (sessions s) | Throw _ => sessions s end;
  kernel := r.1 |}.

(** One step of a thread inside [stop]: the exchange, which returns at once when nothing runs; the context;
    the acceptor (the set of active sockets is empty: nothing is ever put into it); the join of the
    server thread, whose pool ends because the context is stopped. *)
Definition stopServer (s : Server) : Server :=
  let upd running acc io th ph := {|
    m_serverRunning := running; m_serverAcceptor := acc; m_acceptPending := m_acceptPending s; m_ioStopped := io; m_serverThread := th;
    stopPhase := ph; terminated := terminated s; sessions := sessions s; kernel := kernel s |} in
  match stopPhase s with
  | StopIdle => if m_serverRunning s then upd false (m_serverAcceptor s) (m_ioStopped s) (m_serverThread s) StopFlagged else s
  | StopFlagged => upd (m_serverRunning s) (m_serverAcceptor s) true (m_serverThread s) StopContext
  | StopContext => upd (m_serverRunning s) ((fun _ => false) <$> m_serverAcceptor s) (m_ioStopped s) (m_serverThread s) StopClosed
  | StopClosed =>
      upd (m_serverRunning s) (m_serverAcceptor s) (m_ioStopped s)
          (match m_serverThread s with NotStarted => NotStarted | _ => Joined end) StopIdle
  end.

Inductive ServerEvent := RunServer | Accepted (ok : bool) | Completed (i : nat) (c : Completion) | StopStep.

(** A handler runs while the pool serves the context. *)
Definition poolRuns (s : Server) : bool :=
  bool_decide (m_serverThread s = Serving) && negb (m_ioStopped s).

Definition serverStep (s : Server) (e : ServerEvent) : option Server :=
  if terminated s then None
  else
    match e with
    | RunServer => match m_serverThread s with Launched => Some (runServer s) | _ => None end
    | Accepted ok => if poolRuns s && m_acceptPending s then Some (onAccept ok s) else None
    | Completed i c =>
        if poolRuns s then
          ses ← sessions s !! i; r ← sessionStep c ses (kernel s); Some (set_session i r s)
        else None
    | StopStep =>
        (* the join waits for the server thread to have run *)
        match stopPhase s, m_serverThread s with StopClosed, Launched => None | _, _ => Some (stopServer s) end
    end.

Fixpoint serveTrace (tr : list ServerEvent) (s : Server) : option Server :=
  match tr with [] => Some s | e :: tr => s ← serverStep s e; serveTrace tr s end.

Definition parseFlowStatsText (responseText : string) : json :=
  match parse responseText with Ret j => j | Throw _ => JArray [] end.

End Server.

(** * Properties *)

Section Props.
Context `{JsonText} `{Machine} `{NfsHost} (cfg : Config).

(** The response is what [buildResponse] gave for this request, with the request's version and keep-alive. *)
Definition answers (x : WireRequest * WireResponse) : Prop :=
  exists env k k' resp, buildResponse cfg env (w_request x.1) k = (k', Ret resp) /\ 200 <= status resp < 600 /\
    x.2 = preparePayload {| p_response := resp; p_version := w_version x.1; p_keep_alive := w_keep_alive x.1; p_headers := standardHeaders |}.

(** Every answer is an answer to its request, in order; all but possibly the last have been written; only
    the last may close the connection; an open connection waits for a request only when nothing is left
    to write. *)
Record sessionOk (s : Session) : Prop := {
  ok_answers : Forall answers (s_handled s);
  ok_sent : exists rest, (s_handled s).*2 = s_sent s ++ rest /\
    match s_pending s with Reading => rest = [] | Writing p => rest = [p] | Ended => (length rest <= 1)%nat end;
  ok_keep : Forall (fun p => p_keep_alive p = true)
    (match s_pending s with Ended => take (pred (length (s_handled s))) (s_handled s).*2 | _ => s_sent s end)
}.

Lemma startSession_ok : sessionOk (startSession newSession).
Proof. split; cbn; [constructor|by exists []|constructor]. Qed.

Lemma take_pred_snoc {A} (l : list A) x : take (pred (length (l ++ [x]))) (l ++ [x]) = l.
Proof. rewrite length_app. cbn. rewrite Nat.add_1_r. cbn. by rewrite take_app_length. Qed.

(** A connection that ends keeps what it had. *)
Lemma ended_ok s s' : sessionOk s -> s_pending s <> Ended -> s_pending s' = Ended -> s_handled s' = s_handled s -> s_sent s' = s_sent s ->
  sessionOk s'.
Proof.
  intros [Ha (rest & Hs & Hp) Hk] Hne E1 E2 E3. split; rewrite ?E1, ?E2, ?E3; [done| |].
  - exists rest. split; [done|]. destruct (s_pending s); [subst; cbn; lia|subst; cbn; lia|done].
  - destruct (s_pending s) as [|p|]; [| |done].
    + rewrite Hs, Hp, app_nil_r. by apply Forall_take.
    + rewrite <- (length_fmap snd), Hs, Hp. by rewrite take_pred_snoc.
Qed.

Lemma handleRequest_ok env r s k k' s' :
  sessionOk s -> s_pending s = Reading -> handleRequest cfg env r s k = (k', Ret s') -> sessionOk s'.
Proof.
  intros [Ha (rest & Hs & Hp) Hk] E Hh. unfold handleRequest, buildWireResponse in Hh. rewrite E in Hp, Hk. subst rest.
  destruct (buildResponse_answers cfg env (w_request r) k) as [(k1 & resp & Eb & Hst) | (k1 & e & e' & err & _ & _ & Eb)];
    rewrite Eb in Hh; [|done]. injection Hh as <- <-. split; cbn.
  - apply Forall_app. split; [done|]. constructor; [|constructor]. exists env, k, k1, resp. done.
  - eexists [_]. rewrite fmap_app, Hs, app_nil_r. done.
  - done.
Qed.

Lemma onWrite_ok p ok s : sessionOk s -> s_pending s = Writing p -> sessionOk (onWrite p ok s).
Proof.
  intros Hok E. unfold onWrite. destruct ok; cbn [negb].
  2: { apply (ended_ok s); try done. by rewrite E. }
  destruct Hok as [Ha (rest & Hs & Hp) Hk]. rewrite E in Hp, Hk. subst rest. destruct (p_keep_alive p) eqn:Ek; cbn [negb]; split; cbn.
  - done.
  - exists []. by rewrite app_nil_r.
  - apply Forall_app. split; [done|by constructor].
  - done.
  - exists []. rewrite app_nil_r. split; [done|cbn; lia].
  - rewrite <- (length_fmap snd), Hs. by rewrite take_pred_snoc.
Qed.

Lemma sessionStep_ok c s k k' s' : sessionOk s -> sessionStep cfg c s k = Some (k', Ret s') -> sessionOk s'.
Proof.
  intros Hok Hs. unfold sessionStep in Hs. destruct (s_pending s) as [|p|] eqn:E; destruct c as [res|ok]; try done.
  - injection Hs as Hs. destruct res as [env r| |]; cbn in Hs.
    + by eapply handleRequest_ok.
    + injection Hs as <- <-. apply (ended_ok s); try done. by rewrite E.
    + injection Hs as <- <-. apply (ended_ok s); try done. by rewrite E.
  - injection Hs as <- <-. by apply onWrite_ok.
Qed.

(** * The server's invariant *)

(** [stop] has gone as far as its phase says. *)
Definition phaseOk (s : Server) : Prop :=
  match stopPhase s with
  | StopIdle => (m_serverRunning s = true /\ m_ioStopped s = false /\ m_serverThread s ∈ [Launched; Serving]) \/
                (m_serverRunning s = false /\ m_ioStopped s = true /\ m_serverThread s = Joined /\ m_serverAcceptor s = Some false)
  | StopFlagged => m_serverRunning s = false /\ m_ioStopped s = false /\ m_serverThread s ∈ [Launched; Serving]
  | StopContext => m_serverRunning s = false /\ m_ioStopped s = true /\ m_serverThread s ∈ [Launched; Serving]
  | StopClosed => m_serverRunning s = false /\ m_ioStopped s = true /\ m_serverThread s ∈ [Launched; Serving] /\ m_serverAcceptor s = Some false
  end.

Record serverOk (s : Server) : Prop := {
  so_sessions : Forall sessionOk (sessions s);
  so_phase : phaseOk s;
  so_acceptor : is_Some (m_serverAcceptor s);
  so_accepting : m_serverThread s = Serving -> m_serverRunning s = true -> m_acceptPending s = true
}.

Lemma stopServer_ok s : serverOk s -> (stopPhase s = StopClosed -> m_serverThread s <> Launched) -> serverOk (stopServer s).
Proof.
  destruct s as [run acc pend io th ph term ses ker]. intros [Hs Hp [a Ha] Hr] Hl. unfold phaseOk, stopServer in *. cbn in *. subst acc.
  destruct ph; [destruct Hp as [(-> & -> & Hth)|(-> & -> & -> & Hc)]|destruct Hp as (-> & -> & Hth)..|destruct Hp as (-> & -> & Hth & Hc)];
    (split; [exact Hs| |by eexists|done]); unfold phaseOk; cbn; [done| |done|done| ].
  - by right.
  - right. split; [done|]. split; [done|]. split; [|done]. apply elem_of_cons in Hth as [-> | Hth]; [by destruct (Hl eq_refl)|].
    by apply list_elem_of_singleton in Hth as ->.
Qed.

Lemma serverStep_ok s e s' : serverOk s -> serverStep cfg s e = Some s' -> serverOk s'.
Proof.
  intros [Hs Hp Ha Hr] E. unfold serverStep in E. destruct (terminated s); [done|]. unfold phaseOk in Hp.
  destruct e as [|ok|i c|].
  - destruct (m_serverThread s) eqn:Et; try done. injection E as <-. split; [done| |done|done].
    unfold phaseOk. cbn. destruct (stopPhase s); set_solver.
  - destruct (poolRuns s && m_acceptPending s) eqn:Eb; [|done]. injection E as <-. unfold onAccept.
    assert (Forall sessionOk (if ok && m_serverRunning s then sessions s ++ [startSession newSession] else sessions s)) as Hs'.
    { destruct (ok && m_serverRunning s); [|done]. apply Forall_app. split; [done|]. constructor; [apply startSession_ok|constructor]. }
    cbn [m_serverRunning]. destruct (m_serverRunning s) eqn:Er; (split; [done|exact Hp|done|cbn; congruence]).
  - destruct (poolRuns s) eqn:Eb; [|done]. destruct (sessions s !! i) as [ses|] eqn:Ei; [|done]. cbn in E.
    destruct (sessionStep cfg c ses (kernel s)) as [[k' r]|] eqn:Es; [|done]. cbn in E. injection E as <-.
    split; [|done|done|done]. destruct r as [ses'|]; [|done]. cbn. apply Forall_insert; [done|].
    eapply sessionStep_ok; [|exact Es]. by eapply Forall_lookup_1.
  - destruct (stopPhase s) eqn:Eph, (m_serverThread s) eqn:Et; try done; injection E as <-;
      (apply stopServer_ok; [split; [done|unfold phaseOk; by rewrite Eph, ?Et|done|by rewrite ?Et]|congruence]).
Qed.

Lemma serveTrace_app tr1 tr2 s : serveTrace cfg (tr1 ++ tr2) s = (serveTrace cfg tr1 s ≫= serveTrace cfg tr2).
Proof. revert s. induction tr1 as [|e tr1 IH]; intros s; cbn; [done|]. destruct (serverStep cfg s e); cbn; [apply IH|done]. Qed.

Lemma serveTrace_ok tr s s' : serverOk s -> serveTrace cfg tr s = Some s' -> serverOk s'.
Proof.
  revert s. induction tr as [|e tr IH]; intros s Hok E; cbn in E; [by simplify_eq|].
  destruct (serverStep cfg s e) as [s1|] eqn:Es; [|done]. eapply IH; [|exact E]. by eapply serverStep_ok.
Qed.

(** A server on a free port. *)
Definition started (k : Kernel) : Server :=
  match startServer true (newServer k) with Ret s => s | Throw _ => newServer k end.

Lemma started_ok k : serverOk (started k).
Proof. split; cbn; [constructor| |by eexists|done]. left. set_solver. Qed.

(** C10: On every connection the responses are written in the order of the requests, one for each, and each is
    the result of [buildResponse] on its own request, with its HTTP version, its keep-alive, the standard
    headers and the length of its body.  No more than one response waits to be written, no request is
    read before that, and none is read after a response that closes the connection.  This holds for
    every order in which accepts, reads, writes, errors and a shutdown happen on any number of
    connections. *)
Theorem responses_in_order tr k s : serveTrace cfg tr (started k) = Some s -> Forall sessionOk (sessions s).
Proof. intros E. eapply so_sessions, serveTrace_ok; [apply started_ok|exact E]. Qed.

(** [stop] runs through the given steps to a state in which nothing happens any more. *)
Ltac stopsBy steps Hend :=
  exists steps; eexists; split; [cbn; lia|]; split; [repeat (apply Forall_cons_2; [by auto|]); apply Forall_nil_2|]; split; [reflexivity|];
  repeat (split; [done|]); intros e s2; by apply Hend.
Ltac stopsFrom Hth steps Hend :=
  apply elem_of_cons in Hth as [-> | Hth];
    [stopsBy (RunServer :: steps) Hend | apply list_elem_of_singleton in Hth as ->; stopsBy steps Hend].


(** * What ends the process *)

(** The request's handler throws, and the text of its exception cannot be written as JSON. *)
Definition unprintable (env : Env) (r : Request) (k : Kernel) : Prop :=
  exists k' e e' error, handle cfg env (route (method_ r) (target r)) r k = (k', Throw e) /\
    dump (JObject [("error", JString error); ("details", JString (what env e))]) = Throw e'.

Lemma sessionStep_throws c s k k' e :
  sessionStep cfg c s k = Some (k', Throw e) -> exists env r, c = ReadDone (ReadOk env r) /\ unprintable env (w_request r) k.
Proof.
  unfold sessionStep. destruct (s_pending s) as [|p|], c as [[env r| |]|ok]; cbn; try done.
  unfold handleRequest, buildWireResponse. intros E. exists env, r. split; [done|].
  destruct (buildResponse_answers cfg env (w_request r) k) as [(k1 & resp & Eb & _) | (k1 & e1 & e' & err & Eh & Ed & _)].
  - by rewrite Eb in E.
  - by exists k1, e1, e', err.
Qed.

Lemma serverStep_terminates s e s' :
  serverStep cfg s e = Some s' -> terminated s' = true ->
  exists i env r, e = Completed i (ReadDone (ReadOk env r)) /\ unprintable env (w_request r) (kernel s).
Proof.
  intros E Ht. unfold serverStep in E. destruct (terminated s) eqn:Es; [done|]. destruct e as [|ok|i c|].
  - case_match; simplify_eq. cbn in Ht. congruence.
  - case_match; simplify_eq. unfold onAccept in Ht. cbn in Ht. destruct (m_serverRunning s); cbn in Ht; congruence.
  - destruct (poolRuns s); [|done]. destruct (sessions s !! i) as [ses|]; [|done]. cbn in E.
    destruct (sessionStep cfg c ses (kernel s)) as [[k' [ses'|x]]|] eqn:Ec; cbn in E; simplify_eq; cbn in Ht; [congruence|].
    apply sessionStep_throws in Ec as (env & r & -> & Hu). by exists i, env, r.
  - unfold stopServer in E. repeat case_match; simplify_eq; cbn in Ht; congruence.
Qed.


End Props.

(** * Samples *)

Definition onWire (keep : bool) (r : Request) : WireRequest := {| w_request := r; w_version := 11; w_keep_alive := keep |}.
Definition reads (message : string) (keep : bool) (r : Request) : Completion := ReadDone (ReadOk (httpEnv 0 message) (onWire keep r)).

(** Two connections, the first with two requests of which the second closes it; a failed accept; a client that
    goes away; the shutdown. *)
Definition serverTrace : list ServerEvent := [
  RunServer; Accepted true; Completed 0 (reads "" true (httpGet "/ndt/get_nickname?dpid=2")); Accepted false; Accepted true;
  Completed 0 (WriteDone true); Completed 1 (ReadDone EndOfStream); Completed 0 (reads "" false (httpPost "/ndt/app_register" "none"));
  Completed 0 (WriteDone true); StopStep; Accepted true].

Definition afterTrace (tr : list ServerEvent) : option Server :=
  @serveTrace httpText sampleMachine sampleHost httpConfig tr (started httpKernel).
Definition served (tr : list ServerEvent) : Server := default (started httpKernel) (afterTrace tr).

Lemma responses_in_order_witness :
  (fun s => (status ∘ p_response) <$> s_sent s) <$> sessions (served serverTrace) = [[200; 400]; []] /\
  Forall (@sessionOk httpText sampleMachine sampleHost httpConfig) (sessions (served serverTrace)).
Proof.
  split; [by vm_compute|]. apply (@responses_in_order httpText sampleMachine sampleHost httpConfig serverTrace httpKernel). by vm_compute.
Defined.


(** One request, with a byte in its body that is not UTF-8, ends the process. *)
Definition killingTrace : list ServerEvent :=
  [RunServer; Accepted true; Completed 0 (reads (String (ascii_of_nat 255) "") true (httpPost "/ndt/app_register" (String (ascii_of_nat 255) "")))].

