(* ===== verification/JsonHttp.v ===== *)
(** The HTTP session over the modelled JSON library: [JsonText] is implemented by [json_dump] and
    [json_parse], and a request whose body does not parse is followed through the server.

    The catch clause of [HttpSession::buildResponse] writes the message of the parse error into a
    JSON value and dumps it; the message quotes the body. *)

From S2P Require Import Prelude Bytes CStrings Json JsonUtf8 JsonDump JsonDumpProps JsonParser JsonParserProps JsonRoundTrip JsonText JsonErrors.
From S2P Require Import NetUtils GraphTypes Routing DevicePower Applications HttpRouter HttpSession HttpProps HttpServer.
From Stdlib Require Import Ascii.

(** [dump()] and [json::parse]. *)
#[export] Instance nlohmannText : JsonText := {| dump := json_dump (-1); parse := json_parse |}.

(** [e.what()] of the exception that parsing the text throws. *)
Definition parseWhat (t : string) : string :=
  match parseText (bytesOf t) with Some (inl f) => JsonParser.what f | _ => "" end.

(** The endpoints whose handler begins with [json::parse(m_req.body())], outside of any [try]. *)
Definition parsesBody (e : Endpoint) : bool :=
  match e with
  | LinkRecovery | InstallFlowEntry | DeleteFlowEntry | ModifyFlowEntry | InstallGroupEntry | DeleteGroupEntry | ModifyGroupEntry
  | InstallMeterEntry | DeleteMeterEntry | ModifyMeterEntry | InstallModifyDeleteFlowEntries | ModifyDeviceName | SimulationCompleted
  | InformAllDestinationPaths | AppRegister | GetTotalInputTrafficLoadPassingASwitch | GetNumOfFlowsPassingASwitch => true
  | _ => false
  end.

Section Session.
Context `{Machine} `{NfsHost} (cfg : Config) (env : Env).

Lemma handle_unparsed e r k x : parsesBody e = true -> json_parse (req_body r) = Throw x -> handle cfg env e r k = (k, Throw x).
Proof.
  intros He Hx.
  assert (forall cont, withBody r cont k = (k, Throw x)) as HW by (intros; unfold withBody; cbn [parse nlohmannText]; by rewrite Hx).
  destruct e; try done; unfold handle; apply HW.
Qed.

(** The catch clause on a message, by whether it is UTF-8. *)
Lemma answer_parse_error k :
  (utf8 (bytesOf (what env JsonParseError)) -> exists b, answerException env JsonParseError k = (k, Ret {| status := 400; body := b |})) /\
  (~ utf8 (bytesOf (what env JsonParseError)) -> answerException env JsonParseError k = (k, Throw JsonTypeError)).
Proof.
  unfold answerException. cbn [isJsonException]. unfold reply. cbn [dump nlohmannText].
  set (j := JObject _). assert (utf8Value (asMap j) = bool_decide (utf8 (bytesOf (what env JsonParseError)))) as Ej.
  { unfold j. cbn [asMap map foldl fst snd]. unfold emplace. cbn [assoc]. unfold mapInsert.
    replace (keyLt "details" "error") with true by (vm_compute; reflexivity).
    replace (assoc "details" [("error", JString "JSON parsing error")]) with (@None json) by reflexivity.
    cbn [utf8Value forallb fst snd]. rewrite (bool_decide_true (utf8 (bytesOf "details"))), (bool_decide_true (utf8 (bytesOf "error"))),
      (bool_decide_true (utf8 (bytesOf "JSON parsing error"))) by (apply utf8_ascii; apply (bool_decide_unpack _); vm_compute; exact I).
    by rewrite !andb_true_r, andb_true_l. }
  unfold json_dump, dumpIndent. rewrite bool_decide_false by lia. pose proof (dump_throws false false 0 0 (asMap j)) as HD. rewrite Ej in HD.
  split; intros Hu; [rewrite bool_decide_true in HD by done; destruct HD as [t ->]; by eexists|].
  rewrite bool_decide_false in HD by done. by rewrite HD.
Qed.

(** The whole request. *)
Lemma buildResponse_unparsed r k : method_ r <> options -> parsesBody (route (method_ r) (target r)) = true ->
  json_parse (req_body r) = Throw JsonParseError ->
  buildResponse cfg env r k = answerException env JsonParseError k.
Proof.
  intros Hm He Hx. unfold buildResponse.
  assert ((match method_ r with options => replyText 204 "" | m => catching (handle cfg env (route m (target r)) r) (answerException env) end)
    = catching (handle cfg env (route (method_ r) (target r)) r) (answerException env)) as -> by (by destruct (method_ r)).
  unfold catching. by rewrite (handle_unparsed _ r k JsonParseError He Hx).
Qed.

End Session.

Lemma parse_error_thrown t p msg : parseText (bytesOf t) = Some (inl (SyntaxError p msg)) ->
  json_parse t = Throw JsonParseError /\ parseWhat t = JsonParser.what (SyntaxError p msg).
Proof. intros E. unfold json_parse, parseWhat. by rewrite E. Qed.


(** * Samples *)

(** A server with one connection, and a request for an application whose body is the two bytes of one letter. *)
Definition oneConnection : Server :=
  default (started httpKernel) (@serveTrace nlohmannText sampleMachine sampleHost httpConfig [RunServer; Accepted true] (started httpKernel)).

Definition letterBody : string := stringOf [0xC3; 0xA9].

Definition letterEnv (t : string) : Env := httpEnv 0 (parseWhat t).


(** A request over the wire of texts: an application registers and is told its number. *)
Definition registrationBody : string := stringOf (
  bytesOf "{" ++ inQuotes (bytesOf "app_name") ++ bytesOf " : " ++ inQuotes (bytesOf "te") ++ bytesOf " , " ++
  inQuotes (bytesOf "simulation_completed_url") ++ bytesOf ":" ++ inQuotes (bytesOf "http://h") ++ bytesOf "}").

Lemma registration_over_text :
  match @buildResponse nlohmannText sampleMachine sampleHost httpConfig (letterEnv "") (httpPost "/ndt/app_register" registrationBody) httpKernel with
  | (_, Ret r) => status r = 200
  | _ => False
  end.
Proof. vm_compute. reflexivity. Qed.
