(* ===== verification/NetworkQueries.v ===== *)
(** The JSON queries behind the intent translator: link bandwidths and the most utilised links
    (TopologyAndFlowMonitor.cpp), the path between two hosts (FlowLinkUsageCollector.cpp), and the flow
    entries, topology, hosts, ports and loss estimates that [performTask] composes itself
    (IntentTranslator.cpp).

    [std::sort] leaves open the order of links that are equally utilised, and is undefined when a
    utilisation is not a number; the model keeps the order of the edges and puts such links last.  The first
    address of a vertex without addresses, which is undefined, reads as the empty text, or as 0. *)

From Stdlib Require Import SpecFloat.
From S2P Require Import Prelude CStrings NetUtils Json SFlowTypes FlowRates GraphTypes Topology TopologyReports FlowTableCache DevicePower DeviceReports.
Local Open Scope string_scope.
Local Open Scope list_scope.
Local Open Scope Z_scope.

(** * Links *)

Definition linkReport (e : EdgeProperties) : json :=
  JObject [("total_bandwidth_bps", JUnsigned (linkBandwidth e)); ("used_bandwidth_bps", JUnsigned (linkBandwidthUsage e));
           ("utilization", floatJson (linkBandwidthUtilization e)); ("source_port", JUnsigned (srcInterface e));
           ("destination_port", JUnsigned (e_dstInterface e))].

Definition direction (a b : string) : string := a +:+ "_to_" +:+ b.

(** The names that were not found, in order. *)
Definition missingNames (l : list (string * bool)) : json :=
  JArray (omap (fun x : string * bool => if x.2 then None else Some (JString x.1)) l).

Definition getLinkBandwidthBetweenSwitches (ip1 ip2 : string) (t : Topology) : outcome json :=
  let! a1 := ipStringToUint32 ip1 in
  let! a2 := ipStringToUint32 ip2 in
  match findSwitchByIp a1 t, findSwitchByIp a2 t with
  | Some v1, Some v2 =>
      match edge v1 v2 (m_graph t), edge v2 v1 (m_graph t) with
      | None, _ =>
          Ret (JObject [("error", JString "No direct link found between the specified switches."); ("from", JString ip1); ("to", JString ip2)])
      | Some _, None =>
          Ret (JObject [("error", JString "Only one direction of this link exists in the topology."); ("from", JString ip1); ("to", JString ip2);
                        ("missing_direction", JString (direction ip2 ip1))])
      | Some p1, Some p2 =>
          Ret (setSlot (direction ip2 ip1) (linkReport p2) (setSlot (direction ip1 ip2) (linkReport p1)
                (JObject [("link_found", JBool true); ("status", JString (if isUsableEdge p1 then "up" else "down"))])))
      end
  | o1, o2 =>
      Ret (JObject [("error", JString "One or both switches could not be found in the topology.");
                    ("missing_devices", missingNames [(ip1, bool_decide (is_Some o1)); (ip2, bool_decide (is_Some o2))])])
  end.

(** A link with both directions usable, under its lower vertex. *)
Record LinkInfo := { v1 : nat; v2 : nat; max_utilization : spec_float }.

(** [std::max]. *)
Definition f64_max (x y : spec_float) : spec_float := if SFltb x y then y else x.

Definition linkInfo (g : Graph) (x : EdgeDesc * EdgeProperties) : option LinkInfo :=
  let '((src_v, dst_v), props_fwd) := x in
  if bool_decide (src_v < dst_v)%nat then
    match edge dst_v src_v g with
    | None => None
    | Some props_rev =>
        if isUsableEdge props_fwd && isUsableEdge props_rev then
          Some {| v1 := src_v; v2 := dst_v;
                  max_utilization := f64_max (linkBandwidthUtilization props_fwd) (linkBandwidthUtilization props_rev) |}
        else None
    end
  else None.

Definition allLinks (g : Graph) : list LinkInfo := omap (linkInfo g) (edgesInOrder g).

(** Not less utilised. *)
Definition f64_geb (x y : spec_float) : bool :=
  match SFcompare x y with
  | Some Lt => false
  | Some _ => true
  | None => match y with S754_nan => true | _ => false end
  end.

Definition linkGe (a b : LinkInfo) : Prop := f64_geb (max_utilization a) (max_utilization b) = true.
#[export] Instance linkGe_dec : RelDecision linkGe.
Proof. intros a b. unfold linkGe. apply _. Defined.

Definition topLinks (k : Z) (g : Graph) : list LinkInfo := take (Z.to_nat k) (merge_sort linkGe (allLinks g)).

Definition frontTextAt (v : nat) (g : Graph) : string := from_option frontText "" (vertices g !! v).

Definition topLinkJson (g : Graph) (i : nat) (l : LinkInfo) : json :=
  let ip1 := frontTextAt (v1 l) g in
  let ip2 := frontTextAt (v2 l) g in
  let report u v := from_option linkReport JNull (edge u v g) in
  setSlot (direction ip2 ip1) (report (v2 l) (v1 l)) (setSlot (direction ip1 ip2) (report (v1 l) (v2 l))
    (JObject [("rank", JUnsigned (Z.of_nat i + 1)); ("status", JString "up")])).

Definition getTopKCongestedLinksJson (k : Z) (t : Topology) : json :=
  if bool_decide (k <= 0) then JObject [("top_k_links", JArray [])]
  else JObject [("top_k_links", JArray (imap (topLinkJson (m_graph t)) (topLinks k (m_graph t))))].

(** * Paths *)

(** The switches between the two ends. *)
Definition interior (path : Path) : Path := if bool_decide (2 < length path)%nat then removelast (tail path) else [].

Definition switchName (t : Topology) (dpid : Z) : string :=
  match findSwitchByDpid dpid t ≫= (fun v => vertices (m_graph t) !! v) with
  | Some p => deviceName p
  | None => "unknown_switch_dpid_" +:+ std_to_string dpid
  end.

Definition firstAddress (v : nat) (t : Topology) : Z := default 0 (vertices (m_graph t) !! v ≫= (fun p => head (ip p))).

Definition getPathBetweenHostsJson (srcHostName dstHostName : string) (ps : Paths) (t : Topology) : json :=
  match findVertexByDeviceName srcHostName t, findVertexByDeviceName dstHostName t with
  | Some s, Some d =>
      match allPathMap ps !! (firstAddress s t, firstAddress d t) with
      | None => JObject [("error", JString "No active or known path found between the specified hosts.")]
      | Some path =>
          JObject [("source_host", JString srcHostName); ("destination_host", JString dstHostName);
                   ("switch_path", JArray ((fun hop => JString (switchName t hop.1)) <$> interior path))]
      end
  | os, od =>
      JObject [("error", JString "One or both hosts could not be found in the topology.");
               ("missing_hosts", missingNames [(srcHostName, bool_decide (is_Some os)); (dstHostName, bool_decide (is_Some od))])]
  end.

(** * Flow entries *)

(** The table of the first cached switch with this dpid. *)
Definition getFlowEntriesForSwitch (deviceName : string) (cache : list SwitchTable) (t : Topology) : option json :=
  match findVertexByDeviceName deviceName t ≫= (fun v => vertices (m_graph t) !! v) with
  | None => None
  | Some p =>
      match list_find (fun s => t_dpid s = v_dpid p) cache with
      | None => None
      | Some (_, s) => Some (default (JArray []) (jfind (t_flows s) (std_to_string (v_dpid p))))
      end
  end.

(** * Topology *)

Definition upText (b : bool) : string := if b then "UP" else "DOWN".

Definition switchInfo (p : VertexProperties) : json :=
  JObject [("name", JString (deviceName p)); ("dpid", JUnsigned (v_dpid p)); ("ip", JString (frontText p)); ("status", JString (upText (v_isUp p)))].

Definition hostInfo (p : VertexProperties) : json :=
  JObject [("name", JString (deviceName p)); ("ip", JString (frontText p)); ("mac", JUnsigned (mac p))].

Definition isHost (p : VertexProperties) : bool := bool_decide (vertexType p = HOST).
Definition nameAt (v : nat) (g : Graph) : string := from_option deviceName "" (vertices g !! v).

Definition linkInfoJson (g : Graph) (x : EdgeDesc * EdgeProperties) : json :=
  JObject [("src", JString (nameAt x.1.1 g)); ("dst", JString (nameAt x.1.2 g)); ("src_port", JUnsigned (srcInterface x.2));
           ("dst_port", JUnsigned (e_dstInterface x.2)); ("status", JString (upText (e_isUp x.2)))].

Definition allHosts (g : Graph) : list json := hostInfo <$> filter (fun p => isHost p = true) (vertices g).

Definition networkTopology (g : Graph) : json :=
  JObject [("switches", JArray (switchInfo <$> filter (fun p => isSwitch p = true) (vertices g)));
           ("hosts", JArray (allHosts g)); ("links", JArray (linkInfoJson g <$> edgesInOrder g))].

(** The ports of a switch: its outgoing edges. *)
Definition portInfo (g : Graph) (x : EdgeDesc * EdgeProperties) : json :=
  JObject [("port_id", JUnsigned (srcInterface x.2)); ("status", JString (upText (e_isUp x.2)));
           ("connected_to", JString (nameAt x.1.2 g)); ("speed_bps", JUnsigned (linkBandwidth x.2))].

Definition switchPorts (name : string) (v : nat) (g : Graph) : json :=
  let ports := portInfo g <$> out_edges v g in
  JObject ([("device_name", JString name); ("ports", JArray ports)] ++
           match ports with [] => [("message", JString "No active links found on this switch.")] | _ => [] end).

(** The estimated loss of a link. *)
Definition lossRate (e : EdgeProperties) : spec_float :=
  let util := linkBandwidthUtilization e in
  if negb (e_isUp e) then f64_of_Z 100
  else if f64_gt util (f64_of_Z 100) then
    f64_add (f64_of_Z 5) (f64_mul (f64_sub util (f64_of_Z 100)) (f64_div (f64_of_Z 1) (f64_of_Z 2)))
  else if f64_gt util (f64_of_Z 90) then f64_mul (f64_sub util (f64_of_Z 90)) (f64_div (f64_of_Z 1) (f64_of_Z 10))
  else f64_of_Z 0.

Definition lossReport (src dst : string) (e : EdgeProperties) : json :=
  JObject [("src", JString src); ("dst", JString dst); ("packet_loss_rate", floatJson (lossRate e));
           ("utilization", floatJson (linkBandwidthUtilization e)); ("status", JString (upText (e_isUp e)))].

(** * The ranking of links *)

(** A number that orders the floats as [SFcompare] does, within one exponent. *)
Definition signedRank (s : bool) (m : positive) (e : Z) : Z * Z := (if s then - e else e, if s then Z.neg m else Z.pos m).

Lemma SFcompare_finite s m e s' m' e' :
  SFcompare (S754_finite s m e) (S754_finite s' m' e') =
    Some (if Bool.eqb s s' then
            match (signedRank s m e).1 ?= (signedRank s' m' e').1 with Eq => (signedRank s m e).2 ?= (signedRank s' m' e').2 | c => c end
          else if s then Lt else Gt).
Proof.
  destruct s, s'; cbn; try done.
  rewrite Z.compare_opp, (Z.compare_antisym e e'). by destruct (e ?= e').
Qed.

Lemma f64_geb_trans x y z : f64_geb x y = true -> f64_geb y z = true -> f64_geb x z = true.
Proof.
  unfold f64_geb. destruct x as [[]|[]| |s m e], y as [[]|[]| |s' m' e'], z as [[]|[]| |s'' m'' e'']; try done;
    try (destruct s; done); try (destruct s'; done); try (destruct s''; done);
    try (destruct s, s'; done); try (destruct s, s''; done); try (destruct s', s''; done).
  rewrite !SFcompare_finite. unfold signedRank. cbn [fst snd].
  destruct s, s', s''; cbn [Bool.eqb]; try done; repeat case Z.compare_spec; intros; try done; lia.
Qed.

Lemma f64_geb_total x y : f64_geb x y = true \/ f64_geb y x = true.
Proof.
  unfold f64_geb. destruct x as [[]|[]| |s m e], y as [[]|[]| |s' m' e'];
    first [by left | by right | destruct s; first [by left | by right] | destruct s'; first [by left | by right] | idtac].
  rewrite !SFcompare_finite. unfold signedRank. cbn [fst snd].
  destruct s, s'; cbn [Bool.eqb]; first [by left | by right | idtac];
    repeat case Z.compare_spec; intros; first [by left | by right | lia].
Qed.

#[export] Instance linkGe_transitive : Transitive linkGe.
Proof. intros a b c. unfold linkGe. apply f64_geb_trans. Qed.
Lemma linkGe_total : Total linkGe.
Proof. intros a b. apply f64_geb_total. Qed.

(** Both directions of the link exist and are usable. *)
Definition usableLink (g : Graph) (l : LinkInfo) : Prop :=
  (v1 l < v2 l)%nat /\ exists p1 p2, edge (v1 l) (v2 l) g = Some p1 /\ edge (v2 l) (v1 l) g = Some p2 /\
    isUsableEdge p1 = true /\ isUsableEdge p2 = true /\
    max_utilization l = f64_max (linkBandwidthUtilization p1) (linkBandwidthUtilization p2).

Lemma elem_of_allLinks g l : l ∈ allLinks g <-> usableLink g l.
Proof.
  unfold allLinks, usableLink. rewrite list_elem_of_omap. split.
  - intros ([[u v] p1] & Hin & Hl). apply elem_of_edgesInOrder in Hin. cbn in Hl.
    case_bool_decide; [|done]. destruct (edge v u g) as [p2|] eqn:Hr; [|done].
    destruct (isUsableEdge p1) eqn:H1, (isUsableEdge p2) eqn:H2; simplify_eq/=. eauto 10.
  - destruct l as [u v x]; cbn. intros (Hlt & p1 & p2 & He1 & He2 & H1 & H2 & ->).
    exists ((u, v), p1). split; [by apply elem_of_edgesInOrder|]. cbn. rewrite bool_decide_true by done. by rewrite He2, H1, H2.
Qed.

Lemma allLinks_nodup g : NoDup ((fun l => (v1 l, v2 l)) <$> allLinks g).
Proof.
  apply (sublist_NoDup _ _ (edgesInOrder_nodup g)). unfold allLinks. induction (edgesInOrder g) as [|[[u v] e] l IH]; [constructor|].
  cbn. case_bool_decide; [|by constructor]. destruct (edge v u g) as [p|]; [|by constructor].
  by destruct (isUsableEdge e && isUsableEdge p); constructor.
Qed.

(** The report of congested links lists at most [k] links, each with both directions present and usable,
    in descending order of the utilisation of their busier direction, and no usable link left out is more
    utilised than one listed. *)
Theorem congested_links_ranked k t :
  0 < k ->
  let top := topLinks k (m_graph t) in
  getTopKCongestedLinksJson k t = JObject [("top_k_links", JArray (imap (topLinkJson (m_graph t)) top))] /\
  Forall (usableLink (m_graph t)) top /\ StronglySorted linkGe top /\ NoDup ((fun l => (v1 l, v2 l)) <$> top) /\
  (length top <= Z.to_nat k)%nat /\
  forall l, usableLink (m_graph t) l -> l ∈ top \/ (length top = Z.to_nat k /\ forall l', l' ∈ top -> linkGe l' l).
Proof.
  intros Hk top. unfold getTopKCongestedLinksJson. rewrite bool_decide_false by lia.
  destruct (take_sorted_maximal linkGe (Z.to_nat k) (allLinks (m_graph t)) linkGe_total) as (rest & Hp & Hs & Hl & Hmax).
  change (take _ _) with top in Hp, Hs, Hl, Hmax. split_and!; [done| |done| |lia|].
  - apply Forall_forall. intros l Hin. apply elem_of_allLinks. rewrite Hp. set_solver.
  - pose proof (allLinks_nodup (m_graph t)) as Hn. rewrite Hp, fmap_app in Hn. by apply NoDup_app in Hn as [? _].
  - intros l Hu%elem_of_allLinks. rewrite Hp, elem_of_app in Hu. destruct Hu as [|Hr]; [by left|right].
    split; [|intros l' Hl'; by apply Hmax].
    apply Permutation_length in Hp. rewrite length_app in Hp. destruct rest; [by apply elem_of_nil in Hr|]. cbn in Hp. lia.
Qed.

Definition queriedEdge (util : Z) : EdgeProperties := {|
  e_isUp := true; e_isEnabled := true; e_adminDisabled := false; leftBandwidth := 6; linkBandwidth := 10; linkBandwidthUsage := 4;
  linkBandwidthUtilization := f64_of_Z util; leftBandwidthFromFlowSample := 7; e_srcIp := []; srcDpid := 1; srcInterface := 1;
  e_dstIp := []; dstDpid := 2; e_dstInterface := 1; flowSet := ∅ |}.

Lemma congested_links_ranked_witness :
  let t := set_graph {| vertices := []; edges := {[(0%nat, 1%nat) := queriedEdge 40; (1%nat, 0%nat) := queriedEdge 95;
                                                  (1%nat, 2%nat) := queriedEdge 60; (2%nat, 1%nat) := queriedEdge 10]} |} (newTopology "") in
  v1 <$> topLinks 1 (m_graph t) = [0%nat] /\
  getTopKCongestedLinksJson 1 t = JObject [("top_k_links", JArray (imap (topLinkJson (m_graph t)) (topLinks 1 (m_graph t))))].
Proof.
  intros t. split; [by vm_compute|]. apply (congested_links_ranked 1 t). lia.
Defined.
