(* ===== verification/IntentAgent.v ===== *)
(** The client of the language-model service (src/ndt_core/intent_translator/LLMAgent.cpp): the messages and
    token counts of each session, and one exchange with the service.

    [Service] is the remote end: the answer to a request, given the requests sent before, or the exception
    of [utils::httpsPost].  Response times, which are only logged, the pause for rate-limited models and the
    prompt helpers that are not called are left out.  [back()] of an empty array is undefined; the model
    lets it throw. *)

From S2P Require Import Prelude Json IntentTypes FlowDispatch Routing.
Local Open Scope string_scope.
Local Open Scope list_scope.
Local Open Scope Z_scope.

Inductive Role := USER | AGENT.

#[export] Instance Role_eq_dec : EqDecision Role.
Proof. solve_decision. Defined.

Record LLMAgent := {
  m_model : string;
  m_sessionIdToMsgMap : gmap string (list (Role * json));
  m_sessionTokensCount : gmap string (Z * Z);
  sent : list string
}.

Class Service := { httpsPost : list string -> string -> outcome string }.

Definition newAgent (model : string) : LLMAgent := {|
  m_model := model; m_sessionIdToMsgMap := ∅; m_sessionTokensCount := ∅; sent := [] |}.

(** The whole constructor: the prompt file and the key of the service must be there. *)
Definition makeAgent (promptFileExists : bool) (apiKey : option string) (model : string) : outcome LLMAgent :=
  if negb promptFileExists then Throw RuntimeError
  else match apiKey with None => Throw RuntimeError | Some _ => Ret (newAgent model) end.

Definition getSessionMsgs (sessionId : string) (a : LLMAgent) : list (Role * json) := default [] (m_sessionIdToMsgMap a !! sessionId).

(** The id of the last message of the agent. *)
Definition getLastMsgId (sessionId : string) (a : LLMAgent) : outcome string :=
  match head (filter (fun m => m.1 = AGENT) (reverse (getSessionMsgs sessionId a))) with
  | None => Ret ""
  | Some (_, m) => jfield get_string m "id"
  end.

Definition requestPayload (model systemPrompt inputText lastMsgId : string) : json :=
  JObject ([("model", JString model); ("instructions", JString systemPrompt); ("input", JString inputText)] ++
           (if bool_decide (lastMsgId = "") then [] else [("previous_response_id", JString lastMsgId)])).

(** [j.back()]; an object ends with its greatest key. *)
Definition greatest (l : list (string * json)) : option (string * json) :=
  foldr (fun x acc => match acc with Some y => if String.leb x.1 y.1 then Some y else Some x | None => Some x end) None l.

Definition jback (j : json) : outcome json :=
  match j with
  | JNull => Throw JsonTypeError
  | JArray l => match last l with Some x => Ret x | None => Throw JsonTypeError end
  | JObject l => match greatest l with Some x => Ret x.2 | None => Throw JsonTypeError end
  | j => Ret j
  end.

(** The text of the reply inside the service's answer. *)
Definition replyTextOf (responseJson : json) : outcome string :=
  let! output := jindex responseJson "output" in
  let! item := jback output in
  let! content := jindex item "content" in
  let! first := jfirst content in
  let! text := jindex first "text" in
  get_string text.

(** The token counts, and the fields that are only read for the log, which must be there as well. *)
Definition usageOf (responseJson : json) : outcome (Z * Z) :=
  let! usage := jindex responseJson "usage" in
  let! input := (let! j := jindex usage "input_tokens" in get_i32 j) in
  let! output := (let! j := jindex usage "output_tokens" in get_i32 j) in
  let! details := jindex usage "output_tokens_details" in
  let! _ := (let! j := jindex details "reasoning_tokens" in get_i32 j) in
  let! _ := (let! j := jindex responseJson "model" in get_string j) in
  Ret (input, output).

Definition note_sent (data : string) (a : LLMAgent) : LLMAgent := {|
  m_model := m_model a; m_sessionIdToMsgMap := m_sessionIdToMsgMap a; m_sessionTokensCount := m_sessionTokensCount a; sent := sent a ++ [data] |}.

Definition addTokens (tokens : Z * Z) (old : option (Z * Z)) : Z * Z :=
  match old with None => tokens | Some c => (i32 (c.1 + tokens.1), i32 (c.2 + tokens.2)) end.

(** A completed exchange. *)
Definition note_exchange (sessionId inputText : string) (id reply : json) (tokens : Z * Z) (a : LLMAgent) : LLMAgent := {|
  m_model := m_model a;
  m_sessionIdToMsgMap := <[sessionId := getSessionMsgs sessionId a ++
    [(USER, JObject [("msg", JString inputText)]); (AGENT, JObject [("id", id); ("msg", reply)])]]> (m_sessionIdToMsgMap a);
  m_sessionTokensCount := <[sessionId := addTokens tokens (m_sessionTokensCount a !! sessionId)]> (m_sessionTokensCount a);
  sent := sent a |}.

Section Calls.
Context `{JsonText} `{Service} (systemPrompt : string).

(** What the answer of the service amounts to: nothing (with [resultJson] written to the log), or a reply. *)
Definition readAnswer (responseJson : json) : json * option (llmResponse.LLMResponse * (Z * Z)) :=
  match (let! text := replyTextOf responseJson in parse text) with
  | Throw _ => (JNull, None)
  | Ret resultJson =>
      (resultJson, match (let! r := llmResponse.response_from_json resultJson in let! u := usageOf responseJson in Ret (r, u)) with
                   | Throw _ => None
                   | Ret x => Some x
                   end)
  end.

(** A failure that is only logged, with a value that must be written for the log. *)
Definition loggedFailure (logged : json) : run LLMAgent (option llmResponse.LLMResponse) := fun a =>
  (a, match dump logged with Throw e => Throw e | Ret _ => Ret None end).

Definition callOpenAIApi (inputText sessionId : string) : run LLMAgent (option llmResponse.LLMResponse) := fun a =>
  match (let! lastMsgId := getLastMsgId sessionId a in dump (requestPayload (m_model a) systemPrompt inputText lastMsgId)) with
  | Throw e => (a, Throw e)
  | Ret data =>
      let response := httpsPost (sent a) data in
      let a := note_sent data a in
      match response with
      | Throw _ => (a, Ret None)
      | Ret response =>
          match parse response with
          | Throw JsonParseError => (a, Ret None)
          | Throw e => (a, Throw e)
          | Ret responseJson =>
              match jindex responseJson "error" with
              | Throw e => (a, Throw e)
              | Ret JNull =>
                  match readAnswer responseJson with
                  | (resultJson, None) => loggedFailure resultJson a
                  | (resultJson, Some (r, tokens)) =>
                      (note_exchange sessionId inputText (default JNull (jfind responseJson "id")) resultJson tokens a, Ret (Some r))
                  end
              | Ret err => loggedFailure err a
              end
          end
      end
  end.
End Calls.

(** A session without token counts would be undefined here. *)
Definition cleanSession (sessionId : string) (a : LLMAgent) : LLMAgent :=
  match m_sessionIdToMsgMap a !! sessionId with
  | None => a
  | Some _ => {| m_model := m_model a; m_sessionIdToMsgMap := delete sessionId (m_sessionIdToMsgMap a);
                 m_sessionTokensCount := delete sessionId (m_sessionTokensCount a); sent := sent a |}
  end.

(** * Conversations *)

(** The abstract state: the completed exchanges of every session, oldest first. *)
Record Exchange := { x_input : string; x_id : json; x_reply : json; x_tokens : Z * Z }.
Abbreviation Conversations := (gmap string (list Exchange)).

Definition messagesOf (x : Exchange) : list (Role * json) :=
  [(USER, JObject [("msg", JString (x_input x))]); (AGENT, JObject [("id", x_id x); ("msg", x_reply x)])].

Definition tokensOf (l : list Exchange) : Z * Z := default (0, 0) (foldl (fun acc x => Some (addTokens (x_tokens x) acc)) None l).

(** The id a request of this session refers to. *)
Definition lastId (l : list Exchange) : outcome string :=
  match last l with None => Ret "" | Some x => get_string (x_id x) end.

Record holds (a : LLMAgent) (c : Conversations) : Prop := {
  holds_msgs : m_sessionIdToMsgMap a = (fun l => l ≫= messagesOf) <$> c;
  holds_tokens : m_sessionTokensCount a = tokensOf <$> c;
  holds_nonempty : map_Forall (fun _ l => l <> []) c
}.

Definition recordExchange (sessionId : string) (x : Exchange) (c : Conversations) : Conversations :=
  <[sessionId := default [] (c !! sessionId) ++ [x]]> c.

Lemma holds_new model : holds (newAgent model) ∅.
Proof. split; cbn; [by rewrite fmap_empty..|apply map_Forall_empty]. Qed.

Lemma holds_getSessionMsgs a c sid : holds a c -> getSessionMsgs sid a = default [] (c !! sid) ≫= messagesOf.
Proof. intros [Hm _ _]. unfold getSessionMsgs. rewrite Hm, lookup_fmap. by destruct (c !! sid). Qed.

Lemma holds_lastId a c sid : holds a c -> getLastMsgId sid a = lastId (default [] (c !! sid)).
Proof.
  intros Hh. unfold getLastMsgId, lastId. rewrite (holds_getSessionMsgs _ _ _ Hh).
  destruct (default [] (c !! sid)) as [|x l _] using rev_ind; [done|].
  rewrite bind_app, last_snoc, reverse_app. cbn. done.
Qed.

Definition addExchange (acc : option (Z * Z)) (x : Exchange) : option (Z * Z) := Some (addTokens (x_tokens x) acc).

Lemma addExchange_some l : l <> [] -> is_Some (foldl addExchange None l).
Proof. destruct l as [|x l _] using rev_ind; [done|]. intros _. rewrite foldl_app. cbn. unfold addExchange. eauto. Qed.

Lemma tokensOf_snoc l x :
  tokensOf (l ++ [x]) = addTokens (x_tokens x) (if bool_decide (l = []) then None else Some (tokensOf l)).
Proof.
  unfold tokensOf. rewrite foldl_app. cbn. destruct (decide (l = [])) as [-> | Hl]; [done|].
  rewrite bool_decide_false by done. destruct (addExchange_some l Hl) as [t Ht].
  change (fun acc x => Some (addTokens (x_tokens x) acc)) with addExchange. by rewrite Ht.
Qed.

Lemma holds_record a c sid x :
  holds a c -> holds (note_exchange sid (x_input x) (x_id x) (x_reply x) (x_tokens x) a) (recordExchange sid x c).
Proof.
  intros Hh. pose proof (holds_getSessionMsgs a c sid Hh) as Hg. destruct Hh as [Hm Ht Hn]. unfold recordExchange. split; cbn.
  - rewrite fmap_insert, <- Hm, Hg, bind_app. done.
  - rewrite fmap_insert, Ht, tokensOf_snoc, lookup_fmap. f_equal. destruct (c !! sid) as [l|] eqn:E; cbn; [|done].
    by rewrite bool_decide_false by (by eapply Hn).
  - apply map_Forall_insert_2; [by destruct (default [] (c !! sid))|done].
Qed.

Lemma holds_note_sent a c data : holds (note_sent data a) c <-> holds a c.
Proof. split; intros [? ? ?]; by split. Qed.

Lemma holds_clean a c sid : holds a c -> holds (cleanSession sid a) (delete sid c).
Proof.
  intros [Hm Ht Hn]. unfold cleanSession. rewrite Hm, lookup_fmap. destruct (c !! sid) as [l|] eqn:E; cbn.
  - split; cbn; [by rewrite fmap_delete|by rewrite fmap_delete, Ht|by apply map_Forall_delete].
  - rewrite delete_id by done. done.
Qed.

Section Refinement.
Context `{JsonText} `{Service} (systemPrompt : string).

End Refinement.

(** * Sample *)

Definition agentAnswer : json := JObject [("id", JString "r1"); ("model", JString "m");
  ("output", JArray [JNull; JObject [("content", JArray [JObject [("text", JString "t")]])]]);
  ("usage", JObject [("input_tokens", JUnsigned 10); ("output_tokens", JUnsigned 20); ("output_tokens_details", JObject [("reasoning_tokens", JUnsigned 5)])])].

(** The service's first reply is a question back; texts are written as the last id they refer to. *)
Definition agentText : JsonText := {|
  dump := fun j => Ret (match jfind j "previous_response_id" with Some (JString s) => s | _ => "none" end);
  parse := fun s => if bool_decide (s = "answer") then Ret agentAnswer
                    else if bool_decide (s = "t") then Ret (llmResponse.discussion_to_json {| llmResponse.prompt := "which switch?" |})
                    else Throw JsonParseError |}.

Definition agentService : Service := {| httpsPost := fun _ _ => Ret "answer" |}.

