(* ===== verification/IntentTranslator.v ===== *)
(** The intent translator (src/ndt_core/intent_translator/IntentTranslator.cpp) and the endpoint that reaches
    it: the tasks a reply of the language-model service asks for, each of them performed on the kernel, and
    the exchange that leads to them.

    [performTask] works on the [Kernel] of [HttpSession] and calls the same components as the HTTP handlers.
    The negotiation with the validation agent is not called by the program and is left out. *)

From Stdlib Require Import Ascii SpecFloat.
From S2P Require Import Prelude CStrings NetUtils Json SFlowTypes FlowRates FlowDispatch GraphTypes Topology TopologyReports IntentTypes Routing.
From S2P Require Import FlowTableCache DevicePoll DevicePower DeviceReports HttpRouter Applications HttpSession NetworkQueries IntentAgent.
Import llmResponse.
Local Open Scope string_scope.
Local Open Scope list_scope.
Local Open Scope Z_scope.

(** * Names *)

Definition getSwitchIpByName (switchName : string) (t : Topology) : option string :=
  match findVertexByMininetBridgeName switchName t ≫= (fun v => vertices (m_graph t) !! v) with
  | None => None
  | Some p => if isSwitch p then Some (frontText p) else None
  end.

Definition dpidForSwitchIp (switchIp : string) (t : Topology) : option Z := m_ipStrToDpidMap t !! switchIp.

(** * Replies *)

(** The replies that are concatenated: a list of keys and texts. *)
Fixpoint joinFields (l : list (string * string)) : string :=
  match l with
  | [] => ""
  | [(k, v)] => quoted k +:+ ": " +:+ quoted v
  | (k, v) :: l => quoted k +:+ ": " +:+ quoted v +:+ ", " +:+ joinFields l
  end.
Definition rawFields (l : list (string * string)) : string := "{" +:+ joinFields l +:+ "}".

Definition rawRefusal (error device : string) : string := rawFields [("error", error); ("device", device)].

(** * Match fields *)

Definition eraseKey (k : string) (j : json) : json :=
  match j with JObject l => JObject (filter (fun x => x.1 <> k) l) | j => j end.

(** [match[to] = match[from]; match.erase(from)]. *)
Definition renameField (from to : string) (j : json) : outcome json :=
  let! v := jindex j from in Ret (eraseKey from (setSlot to v j)).

Definition renameMatch (match_ : json) : outcome json :=
  let! m := renameField "eth_type" "dl_type" match_ in renameField "ipv4_dst" "nw_dst" m.

Section Tasks.
Context `{JsonText} `{Machine} (cfg : Config) (env : Env) (hash : string -> N).

#[local] Instance taskShell : Shell := {| execCommand := execute |}.

Abbreviation action := (run Kernel string).

Definition answer (text : string) : action := fun k => (k, Ret text).
Definition answerJson (j : json) : action := fun k => (k, dump j).

Definition switchNotFoundReply (device : string) : action :=
  answerJson (JObject [("error", JString "Switch not found"); ("device", JString device)]).

Definition powerReply (ok : bool) (act device : string) : action :=
  if negb ok then answerJson (JObject [("error", JString ("Power " +:+ act +:+ " failed")); ("device", JString device)])
  else answerJson (JObject [("status", JString (if bool_decide (act = "off") then "powered_off" else "powered_on")); ("device", JString device)]).

Definition flowReply (r : OpResult) (operation device : string) : action :=
  if negb (ok r) then
    answerJson (JObject [("error", JString ("Flow entry " +:+ operation +:+ " failed")); ("device", JString device);
                         ("http_status", JInteger (httpStatus r)); ("detail", JString (message r))])
  else answerJson (JObject [("status", JString (operation +:+ "ed")); ("device", JString device)]).

(** ** Switches *)

(** [disableSwitchAndEdges] or [enableSwitchAndEdges] on the named switch. *)
Definition adminTask (change : Z -> Topology -> Topology * bool) (done_ device : string) : action := fun k =>
  match getSwitchIpByName device (k_topology k) with
  | None => answer (rawRefusal "Switch not found" device) k
  | Some a =>
      match dpidForSwitchIp a (k_topology k) with
      | None => answer (rawRefusal "Switch has no dpid" device) k
      | Some d =>
          let '(t, found) := change d (k_topology k) in
          let k := set_topology t k in
          if negb found then answer (rawRefusal "Switch not present in the topology graph" device) k
          else answer (rawFields [("status", done_); ("device", device)]) k
      end
  end.

Definition powerTask (act device : string) : action := fun k =>
  match getSwitchIpByName device (k_topology k) with
  | None => switchNotFoundReply device k
  | Some a =>
      let '(w, res) := setSwitchPowerState (mode cfg) (P4_PROXY_IP_AND_PORT cfg) (GW_IP cfg) (switchSmartPlugTable cfg) a act (world k) in
      let k := set_world w k in
      match res with Throw e => (k, Throw e) | Ret b => powerReply b act device k end
  end.

(** ** Flow entries *)

Definition onSwitch (device : string) (cont : Z -> action) : action := fun k =>
  match getSwitchIpByName device (k_topology k) with
  | None => switchNotFoundReply device k
  | Some a =>
      match dpidForSwitchIp a (k_topology k) with
      | None => answer (rawRefusal "Switch has no dpid" device) k
      | Some d => cont d k
      end
  end.

(** A call of the routing manager, and what is made of its result. *)
Definition routed (call : FlowRoutingManager -> run (list string) OpResult) (cont : outcome OpResult -> action) : action := fun k =>
  let '(h, res) := call (routingManager cfg k) (k_commands k) in cont res (set_commands h k).

Definition replied (operation device : string) (res : outcome OpResult) : action := fun k =>
  match res with Throw e => (k, Throw e) | Ret r => flowReply r operation device k end.

Definition flowTask (operation device : string) (call : FlowRoutingManager -> Z -> json -> run (list string) OpResult) (match_ : outcome json) : action :=
  onSwitch device (fun d k =>
    match match_ with
    | Throw e => (k, Throw e)
    | Ret m => routed (fun r => call r d m) (replied operation device) k
    end).

(** ** Blocking a host *)

Definition blockMatch (hostIp : string) : json := JObject [("eth_type", JInteger 2048); ("ipv4_src", JString hostIp)].

Definition blockHost (host : string) : action := fun k =>
  let g := m_graph (k_topology k) in
  match findVertexByDeviceName host (k_topology k) with
  | None => answer (rawFields [("error", "Host not found in topology"); ("host", host)]) k
  | Some v =>
      match vertices g !! v with
      | None => answer (rawFields [("error", "Host not found in topology"); ("host", host)]) k
      | Some p =>
          if negb (isHost p) then answer (rawRefusal "Device is not a host" host) k
          else
            match ip p, head (out_edges v g) with
            | [], _ => answer (rawRefusal "Host has no IP address assigned" host) k
            | _ :: _, None => answer (rawFields [("error", "Host is not connected to any switch")]) k
            | a :: _, Some ((_, u), _) =>
                match vertices g !! u with
                | Some s =>
                    if negb (isSwitch s) then answer (rawFields [("error", "Connected neighbor is not a switch")]) k
                    else
                      routed (fun r => managerInstall r (v_dpid s) 50000 (blockMatch (ipToString a)) (JArray []) 0)
                        (fun res => match res with
                                    | Throw _ => answer (rawFields [("error", "Internal error installing flow rule")])
                                    | Ret _ => answer (rawFields [("status", "success"); ("message", "Host " +:+ host +:+ " blocked."); ("target_switch", deviceName s)])
                                    end) k
                | None => answer (rawFields [("error", "Connected neighbor is not a switch")]) k
                end
            end
      end
  end.

(** ** Queries *)

(** A query that may run commands on the machine. *)
Definition measured (query : Topology -> run (list string) json) : action := fun k =>
  let '(h, res) := query (k_topology k) (k_commands k) in
  let k := set_commands h k in
  match res with Throw e => (k, Throw e) | Ret j => answerJson j k end.

Definition singleReport (device : string) (query : string -> Topology -> run (list string) json) : action := fun k =>
  match getSwitchIpByName device (k_topology k) with
  | None => answerJson JNull k
  | Some a => measured (query a) k
  end.

Definition linkBandwidth_ (src dst : string) : action := fun k =>
  match getSwitchIpByName src (k_topology k), getSwitchIpByName dst (k_topology k) with
  | Some a, Some b =>
      match getLinkBandwidthBetweenSwitches a b (k_topology k) with Throw e => (k, Throw e) | Ret j => answerJson j k end
  | _, _ => answerJson JNull k
  end.

Definition flowEntries (device : string) (result : json -> json) : action := fun k =>
  match getFlowEntriesForSwitch device (k_tables k) (k_topology k) with
  | None => answer (rawFields [("error", "Could not retrieve flow information for switch."); ("device_name", device)]) k
  | Some entries => answerJson (result entries) k
  end.

Definition packetLoss (src dst : string) : action := fun k =>
  let t := k_topology k in
  match getSwitchIpByName src t, getSwitchIpByName dst t with
  | Some a, Some b =>
      match dpidForSwitchIp a t, dpidForSwitchIp b t with
      | Some s, Some d =>
          match findEdgeBySrcAndDstDpid (s, d) t ≫= (fun e => edges (m_graph t) !! e) with
          | Some e => answerJson (lossReport src dst e) k
          | None => answer (rawFields [("error", "No direct link found between " +:+ src +:+ " and " +:+ dst)]) k
          end
      | _, _ => answer (rawFields [("error", "Switch has no dpid"); ("src", src); ("dst", dst)]) k
      end
  | _, _ => answer (rawFields [("error", "One or both switches not found")]) k
  end.

Definition switchPortsTask (device : string) : action := fun k =>
  let g := m_graph (k_topology k) in
  match findVertexByDeviceName device (k_topology k) with
  | None => answer (rawRefusal "Switch not found" device) k
  | Some v =>
      if negb (from_option isSwitch false (vertices g !! v)) then answer (rawRefusal "Device is not a switch" device) k
      else answerJson (switchPorts device v g) k
  end.

(** The tasks whose cases only break out of the [switch]; re-routing falls through to one of them. *)
Definition unhandledTask : action := answer "ok".

(** ** All tasks *)

Definition performTask (task : Task) : action := fun k =>
  match type task as ty return params (classOf ty) -> Kernel * outcome string with
  | DISABLE_SWITCH => fun p => adminTask disableSwitchAndEdges "disabled" p.1 k
  | ENABLE_SWITCH => fun p => adminTask enableSwitchAndEdges "enabled" p.1 k
  | POWEROFF_SWITCH => fun p => powerTask "off" p.1 k
  | POWERON_SWITCH => fun p => powerTask "on" p.1 k
  | INSTALL_FLOW_ENTRY => fun '(device, (priority, (match_, (acts, _)))) =>
      flowTask "install" device (fun r d m => managerInstall r d (i32 priority) m (encode Actions acts) 0) (renameMatch match_) k
  | MODIFY_FLOW_ENTRY => fun '(device, (priority, (match_, (acts, _)))) =>
      flowTask "modify" device (fun r d m => managerModify r d (i32 priority) m (encode Actions acts)) (renameMatch match_) k
  | DELETE_FLOW_ENTRY => fun '(device, (match_, _)) =>
      flowTask "delete" device (fun r d m => managerDelete r d m (-1)) (Ret match_) k
  | GET_TOP_K_FLOWS => fun p => answerJson (JArray (getTopKFlowInfoJson (formatTime env) p.1 (k_flows k))) k
  | GET_SWITCH_CPU_UTILIZATION => fun _ => answerJson (m_cachedCpuReport (k_reports k)) k
  | GET_TOTAL_POWER_CONSUMPTION => fun _ => answerJson (m_cachedPowerReport (k_reports k)) k
  | GET_A_SWITCH_CPU_UTILIZATION => fun p => singleReport p.1 (getSingleSwitchCpuReport hash (mode cfg)) k
  | GET_A_SWITCH_POWER_CONSUMPTION => fun p => singleReport p.1 (getSingleSwitchPowerReport (mode cfg)) k
  | GET_A_LINK_BANDWIDTH_UTILIZATION => fun '(src, (dst, _)) => linkBandwidth_ src dst k
  | GET_TOP_K_CONGESTED_LINKS => fun p => answerJson (getTopKCongestedLinksJson p.1 (k_topology k)) k
  | GET_TOP_K_BANDWIDTH_USERS => fun p => answerJson (JArray (getTopKFlowInfoJson (formatTime env) p.1 (k_flows k))) k
  | GET_PATH => fun '(src, (dst, _)) => answerJson (getPathBetweenHostsJson src dst (k_paths k) (k_topology k)) k
  | GET_ACTIVE_FLOW_COUNT => fun _ => answerJson (JObject [("active_flow_count", JUnsigned (Z.of_nat (size (k_flows k))))]) k
  | GET_FLOW_ENTRY_COUNT => fun p =>
      flowEntries p.1 (fun es => JObject [("switch_name", JString p.1); ("flow_entry_count", JUnsigned (Z.of_nat (jsize es)))]) k
  | GET_FLOW_ENTRIES => fun p => flowEntries p.1 (fun es => JObject [("switch_name", JString p.1); ("flow_entries", es)]) k
  | GET_NETWORK_TOPOLOGY => fun _ => answerJson (networkTopology (m_graph (k_topology k))) k
  | GET_ALL_HOSTS => fun _ => answerJson (JArray (allHosts (m_graph (k_topology k)))) k
  | BLOCK_HOST => fun p => blockHost p.1 k
  | GET_PACKET_LOSS_RATE => fun '(src, (dst, _)) => packetLoss src dst k
  | GET_SWITCH_PORTS => fun p => switchPortsTask p.1 k
  | REQUEST_UI_FORM => fun '(_, (formType, _)) => answer (rawFields [("status", "ui_triggered"); ("form", formType)]) k
  | GET_LINK_LATENCY | REROUTE_FLOW | GET_SWITCH_MEMORY_UTILIZATION | GET_SWITCH_TEMPERATURE | SET_SWITCH_POWER_STATE
  | GET_PATH_SWITCH_COUNT | SET_DEVICE_NICKNAME | TOGGLE_HISTORICAL_LOGGING | GET_SWITCH_CAPABILITIES | INSTALL_GROUP_ENTRY
  | INSTALL_METER_ENTRY | GET_DEVICE_UPTIME | RESTART_DEVICE | BACKUP_CONFIGURATION | RESTORE_CONFIGURATION | PING_HOST
  | TRACEROUTE_HOST | GET_ARP_TABLE | GET_MAC_TABLE | SET_PORT_STATUS | GET_PORT_STATISTICS | GET_DEVICE_LOGS | CLEAR_DEVICE_LOGS
  | UPDATE_DEVICE_FIRMWARE | GET_DEVICE_HEALTH | MONITOR_REAL_TIME_TRAFFIC => fun _ => unhandledTask k
  end (parameters task).
End Tasks.

(** * Intents *)

Section Intents.
Context `{JsonText} `{Machine} `{Service} (cfg : Config) (env : Env) (hash : string -> N) (systemPrompt : string).

Definition set_result (text : string) (t : Task) : Task := {|
  type := type t; order := order t; result := text; parameters := parameters t |}.

(** The tasks of an answer, in the order of the reply; an exception leaves the rest undone. *)
Fixpoint performTasks (ts : list Task) : run Kernel (list Task) := fun k =>
  match ts with
  | [] => (k, Ret [])
  | t :: ts =>
      match performTask cfg env hash t k with
      | (k, Throw e) => (k, Throw e)
      | (k, Ret text) => let '(k, rest) := performTasks ts k in (k, omap_out (cons (set_result text t)) rest)
      end
  end.

Abbreviation Translator := (Kernel * LLMAgent)%type.

(** The calls of the answer agent, until one gives a reply or the tries are used up. *)
Fixpoint askAgent (tries : nat) (inputText sessionId : string) : run LLMAgent (option LLMResponse) := fun a =>
  match tries with
  | O => (a, Ret None)
  | S tries =>
      match callOpenAIApi systemPrompt inputText sessionId a with
      | (a, Ret None) => askAgent tries inputText sessionId a
      | r => r
      end
  end.

Definition maxRetryCount : nat := 5.

Definition inputTextIntent (inputText sessionId : string) : run Translator LLMResponse := fun '(k, a) =>
  let '(a, res) := askAgent maxRetryCount inputText sessionId a in
  match res with
  | Throw e => ((k, a), Throw e)
  | Ret (Some (RDiscussion d)) => ((k, a), Ret (RDiscussion d))
  | Ret (Some (RAnswer ans)) =>
      let '(k, ts) := performTasks (tasks ans) k in
      ((k, a), omap_out (fun ts => RAnswer {| explanation := explanation ans; valid := valid ans; tasks := ts |}) ts)
  | Ret (Some (RValidation _)) | Ret None => ((k, a), Throw RuntimeError)
  end.

(** [HttpSession::handleInputTextIntent] of a kernel with a translator; every exception is answered 400. *)
Definition handleTextIntent (r : Request) : run Translator Response := fun s =>
  let invalid := Ret {| status := 400; body := rawError "Invalid request format." |} in
  match (let! b := parse (req_body r) in
         let! prompt := (let! j := jindex b "prompt" in get_string j) in
         let! session := (let! j := jindex b "session" in get_string j) in Ret (prompt, session)) with
  | Throw _ => (s, invalid)
  | Ret (prompt, session) =>
      let '(s, res) := inputTextIntent prompt session s in
      match (let! reply := res in dump (response_to_json (Some reply))) with
      | Throw _ => (s, invalid)
      | Ret text => (s, Ret {| status := 200; body := text |})
      end
  end.

(** [buildResponse] of such a kernel. *)
Definition buildResponseWithTranslator `{NfsHost} (r : Request) : run Translator Response := fun '(k, a) =>
  match route (method_ r) (target r) with
  | InputTextIntent => handleTextIntent r (k, a)
  | _ => let '(k, res) := buildResponse cfg env r k in ((k, a), res)
  end.
End Intents.
