(* ===== verification/IntentProps.v ===== *)
(** Properties of the intent translator: what the tasks of a reply do to the kernel, and what one intent
    does as a whole. *)

From Stdlib Require Import Ascii SpecFloat.
From S2P Require Import Prelude CStrings NetUtils Json SFlowTypes FlowRates FlowDispatch GraphTypes Topology TopologyProps IntentTypes Routing.
From S2P Require Import DevicePoll DevicePower DeviceReports HttpRouter Applications HttpSession NetworkQueries IntentAgent IntentTranslator.
Import llmResponse.
Local Open Scope string_scope.
Local Open Scope list_scope.
Local Open Scope Z_scope.

(** * Queries *)

(** The tasks that are meant to change the network. *)
Definition changesNetwork (ty : TaskType) : bool :=
  match ty with
  | DISABLE_SWITCH | ENABLE_SWITCH | POWEROFF_SWITCH | POWERON_SWITCH
  | INSTALL_FLOW_ENTRY | MODIFY_FLOW_ENTRY | DELETE_FLOW_ENTRY | BLOCK_HOST => true
  | _ => false
  end.

Lemma set_commands_same k : set_commands (k_commands k) k = k.
Proof. by destruct k. Qed.

Section Tasks.
Context `{JsonText} `{Machine} (cfg : Config) (env : Env) (hash : string -> N).

(** At most commands have been run, and none in a simulated network. *)
Definition onlyReads (k k' : Kernel) : Prop := exists h, k' = set_commands h k /\ (mode cfg = MININET -> k' = k).

Lemma onlyReads_same k : onlyReads k k.
Proof. exists (k_commands k). by rewrite set_commands_same. Qed.

(** A query that runs no command in a simulated network. *)
Definition quiet (query : Topology -> run (list string) json) : Prop := forall t h, mode cfg = MININET -> (query t h).1 = h.

Lemma measured_reads query k : quiet query -> onlyReads k (measured query k).1.
Proof.
  intros Hq. unfold measured. specialize (Hq (k_topology k) (k_commands k)).
  destruct (query (k_topology k) (k_commands k)) as [h res]. cbn in Hq.
  exists h. split; [by destruct res|]. intros Hm. rewrite (Hq Hm). destruct res; cbn; apply set_commands_same.
Qed.

Lemma singleReport_reads device query k : (forall a, quiet (query a)) -> onlyReads k (singleReport device query k).1.
Proof. intros Hq. unfold singleReport. destruct (getSwitchIpByName _ _); [by apply measured_reads|apply onlyReads_same]. Qed.

Lemma cpu_quiet a : quiet (getSingleSwitchCpuReport hash (mode cfg) a).
Proof.
  intros t h ->. unfold getSingleSwitchCpuReport. destruct (list_find _ _) as [[? p]|]; [|done]. by destruct (v_isUp p).
Qed.

Lemma power_quiet a : quiet (getSingleSwitchPowerReport (mode cfg) a).
Proof.
  intros t h ->. unfold getSingleSwitchPowerReport. destruct (ipStringToUint32 a); [|done]. by destruct (_ ≫= _).
Qed.

(** Every task that is not meant to change the network leaves the kernel as it is; only the commands of a
    measurement on the testbed are run. *)
Theorem query_tasks_change_nothing task k :
  changesNetwork (type task) = false ->
  exists h, (performTask cfg env hash task k).1 = set_commands h k /\
    (mode cfg = MININET -> (performTask cfg env hash task k).1 = k).
Proof.
  change (changesNetwork (type task) = false -> onlyReads k (performTask cfg env hash task k).1).
  destruct task as [ty ord res ps]. unfold performTask. cbn [type parameters]. intros Hty.
  destruct ty; try done; cbn in ps; try apply onlyReads_same.
  - apply singleReport_reads, cpu_quiet.
  - apply singleReport_reads, power_quiet.
  - destruct ps as (src & dst & []). unfold linkBandwidth_. repeat case_match; apply onlyReads_same.
  - destruct ps as (src & dst & []). apply onlyReads_same.
  - unfold flowEntries. case_match; apply onlyReads_same.
  - unfold flowEntries. case_match; apply onlyReads_same.
  - destruct ps as (src & dst & []). unfold packetLoss. repeat case_match; apply onlyReads_same.
  - unfold switchPortsTask. repeat case_match; apply onlyReads_same.
  - destruct ps as (d & f & []). apply onlyReads_same.
Qed.
(** * Flow entries *)

(** The name is that of a switch with a known dpid. *)
Definition resolves (device : string) (t : Topology) (d : Z) : Prop :=
  exists a, getSwitchIpByName device t = Some a /\ dpidForSwitchIp a t = Some d.

(** What a flow task asks for: the name of the operation, the device, and the job once its dpid is known. *)
Definition flowRequest (task : Task) : option (string * string * (Z -> outcome FlowJob)) :=
  match type task as ty return params (classOf ty) -> option (string * string * (Z -> outcome FlowJob)) with
  | INSTALL_FLOW_ENTRY => fun '(device, (p, (m, (acts, _)))) =>
      Some ("install", device, fun d => let! m := renameMatch m in
        Ret {| dpid := d; op := Install; priority := i32 p; match_ := m; actions := encode Actions acts; idleTimeout := 0 |})
  | MODIFY_FLOW_ENTRY => fun '(device, (p, (m, (acts, _)))) =>
      Some ("modify", device, fun d => let! m := renameMatch m in
        Ret {| dpid := d; op := Modify; priority := i32 p; match_ := m; actions := encode Actions acts; idleTimeout := 0 |})
  | DELETE_FLOW_ENTRY => fun '(device, (m, _)) =>
      Some ("delete", device, fun d => Ret {| dpid := d; op := Delete; priority := -1; match_ := m; actions := JNull; idleTimeout := 0 |})
  | _ => fun _ => None
  end (parameters task).

#[local] Existing Instance taskShell.

Lemma onSwitch_resolved device cont k d : resolves device (k_topology k) d -> onSwitch device cont k = cont d k.
Proof. intros (a & Ha & Hd). unfold onSwitch. by rewrite Ha, Hd. Qed.

Lemma onSwitch_unresolved device cont k : ~ (exists d, resolves device (k_topology k) d) -> (onSwitch device cont k).1 = k.
Proof.
  intros Hn. unfold onSwitch. destruct (getSwitchIpByName _ _) as [a|] eqn:Ha; [|done].
  destruct (dpidForSwitchIp _ _) as [d|] eqn:Hd; [|done]. destruct Hn. exists d, a. done.
Qed.

(** A flow task is the job it describes, sent through the routing manager. *)
Lemma performTask_flow task operation device job k :
  flowRequest task = Some (operation, device, job) ->
  performTask cfg env hash task k =
    onSwitch device (fun d k => match job d with
      | Throw e => (k, Throw e)
      | Ret j => routed cfg (fun r => sendJob r j) (replied operation device) k
      end) k.
Proof.
  destruct task as [ty ord res ps]. unfold flowRequest, performTask. cbn [type parameters].
  destruct ty; try done; cbn in ps.
  1, 2: destruct ps as (dev & p & m & acts & []); intros [= <- <- <-]; unfold flowTask, onSwitch;
    destruct (getSwitchIpByName _ _); [|done]; destruct (dpidForSwitchIp _ _); [|done]; by destruct (renameMatch m).
  destruct ps as (dev & m & []). intros [= <- <- <-]. done.
Qed.

Definition flowReplyJson (r : OpResult) (operation device : string) : json :=
  if ok r then JObject [("status", JString (operation +:+ "ed")); ("device", JString device)]
  else JObject [("error", JString ("Flow entry " +:+ operation +:+ " failed")); ("device", JString device);
                ("http_status", JInteger (httpStatus r)); ("detail", JString (message r))].

End Tasks.

(** * One intent *)

Section Intent.
Context `{JsonText} `{Machine} `{Service} (cfg : Config) (env : Env) (hash : string -> N) (systemPrompt : string).

(** All these tasks were performed, one after the other, and came back with their results. *)
Inductive performed : list Task -> list Task -> Kernel -> Kernel -> Prop :=
  | performed_nil k : performed [] [] k k
  | performed_cons t ts ts' text k k1 k2 :
      performTask cfg env hash t k = (k1, Ret text) -> performed ts ts' k1 k2 ->
      performed (t :: ts) (set_result text t :: ts') k k2.

Lemma performTasks_spec ts k :
  match performTasks cfg env hash ts k with
  | (k', Ret ts') => performed ts ts' k k'
  | (k', Throw e) => exists before t rest ts' k1,
      ts = before ++ t :: rest /\ performed before ts' k k1 /\ performTask cfg env hash t k1 = (k', Throw e)
  end.
Proof.
  revert k. induction ts as [|t ts IH]; intros k; cbn [performTasks]; [constructor|].
  destruct (performTask cfg env hash t k) as [k1 [text|e]] eqn:E.
  - specialize (IH k1). destruct (performTasks cfg env hash ts k1) as [k2 [ts'|e]]; cbn.
    + by econstructor.
    + destruct IH as (before & u & rest & ts' & k3 & -> & Hp & Hu).
      exists (t :: before), u, rest, (set_result text t :: ts'), k3. split; [done|]. split; [by econstructor|done].
  - exists [], t, ts, [], k. split; [done|]. split; [constructor|done].
Qed.

Lemma callOpenAIApi_sends inputText sessionId a :
  (length (sent (callOpenAIApi systemPrompt inputText sessionId a).1) <= S (length (sent a)))%nat.
Proof.
  unfold callOpenAIApi, loggedFailure. repeat case_match; cbn [fst sent note_exchange note_sent]; rewrite ?length_app; simplify_eq/=; lia.
Qed.

Lemma askAgent_sends n inputText sessionId a :
  (length (sent (askAgent systemPrompt n inputText sessionId a).1) <= n + length (sent a))%nat.
Proof.
  revert a. induction n as [|n IH]; intros a; cbn [askAgent]; [done|].
  pose proof (callOpenAIApi_sends inputText sessionId a) as Hc.
  destruct (callOpenAIApi systemPrompt inputText sessionId a) as [a' [[r|]|e]]; cbn [fst] in *; [lia| |lia].
  specialize (IH a'). lia.
Qed.

End Intent.

(** * Named switches *)

(** The first address of a switch. *)
Definition switchAddress (p : VertexProperties) : option Z := if isSwitch p then head (ip p) else None.

(** The address table knows every switch. *)
Definition mapped (t : Topology) : Prop :=
  forall p a, p ∈ vertices (m_graph t) -> switchAddress p = Some a -> dpidForSwitchIp (ipToString a) t = Some (v_dpid p).

Lemma ipToString_inj a b : fits 32 a -> fits 32 b -> ipToString a = ipToString b -> a = b.
Proof. intros Ha Hb E. apply (f_equal inet_aton) in E. rewrite !inet_aton_ipToString in E by done. congruence. Qed.

Lemma addMapping_graph t p : m_graph (addMapping t p) = m_graph t.
Proof. unfold addMapping. by destruct (isSwitch p), (ip p). Qed.

Lemma foldl_addMapping_graph ps t : m_graph (foldl addMapping t ps) = m_graph t.
Proof. revert t. induction ps as [|p ps IH]; intros t; [done|]. cbn. by rewrite IH, addMapping_graph. Qed.

Lemma addMapping_lookup t p s :
  dpidForSwitchIp s (addMapping t p) =
    match switchAddress p with
    | Some a => if bool_decide (s = ipToString a) then Some (v_dpid p) else dpidForSwitchIp s t
    | None => dpidForSwitchIp s t
    end.
Proof.
  unfold addMapping, switchAddress, dpidForSwitchIp. destruct (isSwitch p); [|done]. destruct (ip p) as [|a l]; [done|]. cbn.
  case_bool_decide; [subst; apply lookup_insert_eq|by apply lookup_insert_ne].
Qed.

Lemma foldl_addMapping_mapped ps t :
  NoDup (omap switchAddress ps) -> Forall (fun p => Forall (fits 32) (ip p)) ps ->
  forall p a, p ∈ ps -> switchAddress p = Some a -> dpidForSwitchIp (ipToString a) (foldl addMapping t ps) = Some (v_dpid p).
Proof.
  induction ps as [|q ps IH] using rev_ind; intros Hn Hf p a Hp Ha; [by apply elem_of_nil in Hp|].
  assert (Hfit : forall r b, r ∈ ps ++ [q] -> switchAddress r = Some b -> fits 32 b).
  { intros r b Hr Hb. rewrite Forall_forall in Hf. specialize (Hf _ Hr). unfold switchAddress in Hb. destruct (isSwitch r); [|done].
    destruct (ip r); [done|]. simplify_eq/=. by inversion Hf. }
  rewrite foldl_app, omap_app in *. cbn [foldl]. rewrite addMapping_lookup.
  apply Forall_app in Hf as [Hf _]. apply NoDup_app in Hn as (Hn & Hd & _).
  apply elem_of_app in Hp as [Hp|Hp%list_elem_of_singleton].
  - destruct (switchAddress q) as [b|] eqn:Hb; [|by apply IH].
    rewrite bool_decide_false; [by apply IH|]. intros E. apply ipToString_inj in E; [|by eapply Hfit; set_solver..]. subst b.
    apply (Hd a); [apply list_elem_of_omap; eauto|]. cbn. rewrite Hb. set_solver.
  - subst q. rewrite Ha. by rewrite bool_decide_true.
Qed.

(** The tables made at start-up know every switch, when no two switches share their first address. *)
Lemma mappings_mapped t :
  NoDup (omap switchAddress (vertices (m_graph t))) -> Forall (fun p => Forall (fits 32) (ip p)) (vertices (m_graph t)) ->
  mapped (initializeMappingsFromGraph t).
Proof.
  intros Hn Hf p a. unfold initializeMappingsFromGraph. rewrite foldl_addMapping_graph. by apply foldl_addMapping_mapped.
Qed.

(** [v] is the switch of this name, and the only one with its dpid. *)
Record namedSwitch (device : string) (t : Topology) (v : nat) (p : VertexProperties) : Prop := {
  ns_name : findVertexByMininetBridgeName device t = Some v;
  ns_vertex : vertices (m_graph t) !! v = Some p;
  ns_switch : isSwitch p = true;
  ns_address : ip p <> [];
  ns_dpid : findSwitchByDpid (v_dpid p) t = Some v
}.

Lemma named_resolves device t v p : mapped t -> namedSwitch device t v p -> resolves device t (v_dpid p).
Proof.
  intros Hm [Hn Hv Hs Ha _]. destruct (ip p) as [|a l] eqn:Hip; [done|]. exists (ipToString a). split.
  - unfold getSwitchIpByName. rewrite Hn. cbn. rewrite Hv, Hs. unfold frontText. by rewrite Hip.
  - apply Hm; [by eapply list_elem_of_lookup_2|]. unfold switchAddress. by rewrite Hs, Hip.
Qed.

Section Named.
Context `{JsonText} `{Machine} (cfg : Config) (env : Env) (hash : string -> N).

Definition adminTaskOf (disable : bool) (device : string) (n : Z) : Task :=
  if disable then {| type := DISABLE_SWITCH; order := n; result := ""; parameters := (device, tt) |}
  else {| type := ENABLE_SWITCH; order := n; result := ""; parameters := (device, tt) |}.

Definition adminChange (disable : bool) : Z -> Topology -> Topology * bool :=
  if disable then disableSwitchAndEdges else enableSwitchAndEdges.

(** In a network whose address table knows every switch, a disable or enable task for a name does to
    exactly the switch of that name what the administrative operation does: it sets or clears the
    administrative flag of the switch and of every link at it, leaves every other vertex and link, and says
    so; nothing else of the kernel changes. *)
Theorem admin_task_reaches_named_switch disable device n k v p :
  let t := k_topology k in
  mapped t -> namedSwitch device t v p ->
  exists t', performTask cfg env hash (adminTaskOf disable device n) k =
      (set_topology t' k, Ret (rawFields [("status", if disable then "disabled" else "enabled"); ("device", device)])) /\
    t' = set_graph (m_graph t') t /\
    vertices (m_graph t') !! v = Some (vflags (v_isUp p) (negb disable) disable p) /\
    (forall u, u <> v -> vertices (m_graph t') !! u = vertices (m_graph t) !! u) /\
    (forall d, edges (m_graph t') !! d =
       (fun e => if incident v d then eflags (e_isUp e) (negb disable) disable e else e) <$> edges (m_graph t) !! d).
Proof.
  intros t Hm Hns. destruct (named_resolves _ _ _ _ Hm Hns) as (a & Ha & Hd). destruct Hns as [_ Hv _ _ Hf].
  exists (adminChange disable (v_dpid p) t).1. split.
  { unfold performTask, adminTaskOf, adminChange. destruct disable; cbn [type parameters fst]; unfold adminTask; fold t; rewrite Ha, Hd;
      [unfold disableSwitchAndEdges|unfold enableSwitchAndEdges]; rewrite Hf; done. }
  unfold adminChange. destruct disable; [unfold disableSwitchAndEdges|unfold enableSwitchAndEdges]; rewrite Hf; cbn;
    (split; [done|]; split; [by rewrite list_lookup_alter_eq, Hv|]; split; [intros u Hu; by rewrite list_lookup_alter_ne|]);
    intros d; rewrite map_lookup_imap; by destruct (edges (m_graph t) !! d).
Qed.
End Named.

(** * Samples *)

Definition taskTopology : Topology := initializeMappingsFromGraph sampleTopology.

Definition taskKernel : Kernel := {|
  k_topology := taskTopology; k_file := None; k_commands := []; k_flows := ∅;
  k_paths := {| allPathMap := ∅; m_switchCountMap := ∅ |}; k_dispatcher := newDispatcher; k_tables := [];
  k_reports := initialReports; k_locks := ∅; k_apps := newApplicationManager "/srv/nfs" []; k_history := None; k_events := [] |}.

Definition taskConfig (m : DeploymentMode) : Config := {|
  mode := m; RYU_IP_AND_PORT := "ryu:8080"; P4_PROXY_IP_AND_PORT := "p4:8081"; GW_IP := "gw"; SIM_SERVER_URL := "sim"; switchSmartPlugTable := [] |}.

Definition taskEnv : Env := {|
  now := 0; formatTime := fun _ => ""; canWrite := true; capacityFile := None; parseMessage := fun _ => ""; what := fun _ => "";
  dumpIndented := fun _ => Ret "{}" |}.

(** A control plane that refuses every request. *)
Definition refusing : Machine := {|
  popen := fun _ _ => None; system := fun _ _ => 1; execute := fun _ _ => Ret ("no such switch" +:+ String newline "404") |}.

Definition asTask (ty : TaskType) (p : params (classOf ty)) : Task := {| type := ty; order := 0; result := ""; parameters := p |}.

Definition firstSwitch : VertexProperties := default (sampleVertex 0 OVS) (vertices (m_graph taskTopology) !! 0%nat).

Lemma taskTopology_mapped : mapped taskTopology.
Proof.
  apply mappings_mapped.
  - apply (bool_decide_unpack _). by vm_compute.
  - apply Forall_forall. intros p Hp. apply Forall_forall. intros a Ha. assert (a ∈ vertices (m_graph sampleTopology) ≫= ip) as Hin.
    { apply list_elem_of_bind. eauto. }
    vm_compute in Hin. unfold fits. repeat (apply elem_of_cons in Hin as [-> | Hin]; [lia|]). by apply elem_of_nil in Hin.
Qed.

Lemma s1_named : namedSwitch "s1" taskTopology 0 firstSwitch.
Proof. split; by vm_compute. Qed.

Lemma query_tasks_change_nothing_witness :
  (@performTask agentText refusing (taskConfig MININET) taskEnv (fun _ => 7%N) (asTask GET_A_SWITCH_CPU_UTILIZATION ("s1", tt)) taskKernel).1 = taskKernel.
Proof.
  destruct (@query_tasks_change_nothing agentText refusing (taskConfig MININET) taskEnv (fun _ => 7%N)
    (asTask GET_A_SWITCH_CPU_UTILIZATION ("s1", tt)) taskKernel eq_refl) as (h & _ & E). exact (E eq_refl).
Defined.

Definition deleteTask : Task := asTask DELETE_FLOW_ENTRY ("s1", (JObject [("ipv4_dst", JString "10.0.0.2")], tt)).


Lemma admin_task_reaches_named_switch_witness :
  exists t', @performTask agentText refusing (taskConfig MININET) taskEnv (fun _ => 7%N) (adminTaskOf true "s1" 0) taskKernel =
      (set_topology t' taskKernel, Ret (rawFields [("status", "disabled"); ("device", "s1")])) /\
    from_option v_adminDisabled false (vertices (m_graph t') !! 0%nat) = true.
Proof.
  destruct (@admin_task_reaches_named_switch agentText refusing (taskConfig MININET) taskEnv (fun _ => 7%N) true "s1" 0 taskKernel 0 firstSwitch
    taskTopology_mapped s1_named) as (t' & E & _ & Hv & _). exists t'. split; [exact E|]. rewrite Hv. reflexivity.
Defined.

(** * What modelling showed *)

(** The tasks that are answered "ok" although nothing is done for them. *)
Lemma unimplemented_tasks_report_ok `{JsonText} `{Machine} cfg env hash k host path name nick state :
  performTask cfg env hash (asTask REROUTE_FLOW (host, (path, tt))) k = (k, Ret "ok") /\
  performTask cfg env hash (asTask SET_DEVICE_NICKNAME (name, (nick, tt))) k = (k, Ret "ok") /\
  performTask cfg env hash (asTask SET_SWITCH_POWER_STATE (name, (state, tt))) k = (k, Ret "ok").
Proof. done. Qed.

(** Blocking a host is reported as a success although the control plane refused the rule. *)
Lemma refused_block_reported_success :
  (@performTask agentText refusing (taskConfig MININET) taskEnv (fun _ => 7%N) (asTask BLOCK_HOST ("h1", tt)) taskKernel).2 =
    Ret (rawFields [("status", "success"); ("message", "Host h1 blocked."); ("target_switch", "s1")]) /\
  exists r, (@managerInstall agentText (@taskShell refusing) (routingManager (taskConfig MININET) taskKernel) 1 50000 (blockMatch "10.0.0.1") (JArray []) 0 []).2 = Ret r /\
    ok r = false.
Proof. split; [by vm_compute|]. eexists. split; by vm_compute. Qed.

(** An intent that fails at its second task is answered 400, "Invalid request format.", although its first
    task has taken effect. *)
Definition twoTasks : Answer := {| explanation := ""; valid := true;
  tasks := [adminTaskOf true "s1" 0; asTask INSTALL_FLOW_ENTRY ("s1", (10, (JString "any", (("OUTPUT", 1), tt))))] |}.

Definition intentText : JsonText := {|
  dump := fun _ => Ret "{}";
  parse := fun s => if bool_decide (s = "answer") then Ret agentAnswer
                    else if bool_decide (s = "t") then Ret (answer_to_json twoTasks)
                    else Ret (JObject [("prompt", JString "p"); ("session", JString "s")]) |}.

Lemma failed_intent_keeps_tasks :
  let '((k, _), res) := @handleTextIntent intentText refusing agentService (taskConfig MININET) taskEnv (fun _ => 7%N) "system"
                          {| method_ := post; target := "/ndt/intent_translator/text"; req_body := "" |} (taskKernel, newAgent "m") in
  res = Ret {| status := 400; body := rawError "Invalid request format." |} /\
  from_option v_adminDisabled false (vertices (m_graph (k_topology k)) !! 0%nat) = true.
Proof. vm_compute. done. Qed.

(** On the testbed no bridge names are loaded, so no task finds its switch by name. *)
Lemma testbed_names_not_found :
  let t := initializeMappingsFromGraph (loadStaticTopologyFromFile TESTBED (Some (Some sampleFile)) (newTopology "127.0.0.1:8080")).1 in
  findVertexByDeviceName "s1" t = Some 0%nat /\ getSwitchIpByName "s1" t = None.
Proof. by vm_compute. Qed.
