(* ===== verification/ProcessStart.v ===== *)
(** Starting and stopping the kernel (src/main.cpp, src/utils/Logger.cpp, include/utils/Logger.hpp, and
    TopologyAndFlowMonitor::activeTopologyPath, which reads what the start has decided).

    Command-line arguments, the environment variable NDTWIN_TOPO_FILE and what is typed at the prompts
    are arguments; [std::exit] is a result of its own.  The second part follows the std::thread
    members of the components from start to destruction. *)

From S2P Require Import Prelude NetUtils.
Local Open Scope string_scope.
Local Open Scope list_scope.
Local Open Scope Z_scope.

(** * Command line *)

(** A value, or [std::exit] with a code. *)
Inductive exits (A : Type) := Goes (a : A) | Exit (code : Z).
Arguments Goes {A} a.
Arguments Exit {A} code.

Definition ebind {A B} (x : exits A) (f : A -> exits B) : exits B := match x with Goes a => f a | Exit c => Exit c end.
Notation "'do!' x := c 'in' k" := (ebind c (fun x => k)) (at level 10, x pattern, c at level 100, k at level 200) : ndt_scope.

Lemma ebind_goes {A B} (x : exits A) (f : A -> exits B) b : ebind x f = Goes b -> exists a, x = Goes a /\ f a = Goes b.
Proof. destruct x; cbn; naive_solver. Qed.

Module cli.

Record Options := { mode : option Z; topology : option string; useAi : option bool; showHelp : bool }.

Definition noOptions : Options := {| mode := None; topology := None; useAi := None; showHelp := false |}.

Definition modeOf (value : string) : option Z :=
  if bool_decide (value ∈ ["mininet"; "1"]) then Some 1
  else if bool_decide (value ∈ ["testbed"; "2"]) then Some 2 else None.

(** The loop of [parse] over the arguments after the program name. *)
Fixpoint parse (args : list string) (o : Options) : exits Options :=
  match args with
  | [] => Goes o
  | arg :: args =>
      if bool_decide (arg ∈ ["-h"; "--help"]) then
        parse args {| mode := mode o; topology := topology o; useAi := useAi o; showHelp := true |}
      else if bool_decide (arg = "--mode") then
        match args with
        | [] => Exit 2
        | value :: args =>
            match modeOf value with
            | Some m => parse args {| mode := Some m; topology := topology o; useAi := useAi o; showHelp := showHelp o |}
            | None => Exit 2
            end
        end
      else if bool_decide (arg = "--topology") then
        match args with
        | [] => Exit 2
        | value :: args => parse args {| mode := mode o; topology := Some value; useAi := useAi o; showHelp := showHelp o |}
        end
      else if bool_decide (arg = "--ai") then
        parse args {| mode := mode o; topology := topology o; useAi := Some true; showHelp := showHelp o |}
      else if bool_decide (arg = "--no-ai") then
        parse args {| mode := mode o; topology := topology o; useAi := Some false; showHelp := showHelp o |}
      else parse args o
  end.

End cli.

(** * Logging options *)

Inductive level_enum := trace | debug | info | warn | err | critical | off.

#[export] Instance level_enum_eq_dec : EqDecision level_enum.
Proof. solve_decision. Defined.

(** spdlog's [from_str], which never throws. *)
Definition from_str (name : string) : level_enum :=
  if bool_decide (name = "trace") then trace else if bool_decide (name = "debug") then debug
  else if bool_decide (name = "info") then info else if bool_decide (name = "warning") then warn
  else if bool_decide (name = "error") then err else if bool_decide (name = "critical") then critical
  else if bool_decide (name = "off") then off else if bool_decide (name = "warn") then warn
  else if bool_decide (name = "err") then err else off.

(** The handler for an exception of [from_str] is never reached. *)
Definition parse_level (name : string) : level_enum := from_str name.

Record LogConfig := { enableFile : bool; level : level_enum }.

Definition defaultLog : LogConfig := {| enableFile := false; level := info |}.

Fixpoint parse_cli_args (args : list string) (cfg : LogConfig) : exits LogConfig :=
  match args with
  | [] => Goes cfg
  | arg :: rest =>
      if bool_decide (arg ∈ ["--logfile"; "-f"]) then parse_cli_args rest {| enableFile := true; level := level cfg |}
      else
        match bool_decide (arg ∈ ["--loglevel"; "-l"]), rest with
        | true, value :: rest' => parse_cli_args rest' {| enableFile := enableFile cfg; level := parse_level value |}
        | _, _ => if bool_decide (arg ∈ ["--help"; "-h"]) then Exit 0 else parse_cli_args rest cfg
        end
  end.

(** * The deployment *)

Record DeploymentConfig := { config_mode : Z; useToken : bool }.

(** What [std::cin >> choice] finds at a prompt: a number (perhaps the last thing in the input),
    something else, or the end of the input. *)
Inductive Typed := Number (n : Z) (atEnd : bool) | NotANumber | InputClosed.

Fixpoint askChoice (input : list Typed) : exits (Z * list Typed) :=
  match input with
  | [] | InputClosed :: _ => Exit 2
  | NotANumber :: input => askChoice input
  | Number n atEnd :: input => if bool_decide (n = 1 \/ n = 2) then Goes (n, input) else if atEnd then Exit 2 else askChoice input
  end.

(** [setenv] without overwriting. *)
Definition setenvKeep (value : string) (env : option string) : option string := Some (default value env).

Section Resolve.
Context (TOPOLOGY_FILE_MININET TOPOLOGY_FILE_MININET_P4 TOPOLOGY_FILE : string) (interactive : bool).

(** A setting that was not given on the command line: asked for, or missing. *)
Definition orAsk {A} (given : option A) (read : Z -> A) (input : list Typed) : exits (A * list Typed) :=
  match given with
  | Some a => Goes (a, input)
  | None => if interactive then do! r := askChoice input in Goes (read r.1, r.2) else Exit 2
  end.

(** The configuration, the environment variable afterwards and the input left. *)
Definition resolveDeploymentConfig (opts : cli.Options) (input : list Typed) (env : option string) : exits (DeploymentConfig * option string) :=
  do! (mode, input) := orAsk (cli.mode opts) id input in
  do! (env, input) :=
    match cli.topology opts with
    | Some t => Goes (setenvKeep t env, input)
    | None =>
        if bool_decide (mode = 1) then
          if interactive then
            do! (choice, input) := askChoice input in
            Goes (setenvKeep (if bool_decide (choice = 2) then TOPOLOGY_FILE_MININET_P4 else TOPOLOGY_FILE_MININET) env, input)
          else Exit 2
        else Goes (env, input)
    end in
  do! (ai, input) := orAsk (cli.useAi opts) (fun n => bool_decide (n = 1)) input in
  Goes ({| config_mode := mode; useToken := ai |}, env).

(** [static_cast<utils::DeploymentMode>]. *)
Definition deploymentModeOf (mode : Z) : DeploymentMode := if bool_decide (mode = 1) then MININET else TESTBED.

Definition activeTopologyPath (mode : DeploymentMode) (env : option string) : string :=
  match env with
  | Some custom => if bool_decide (custom <> "") then custom else match mode with TESTBED => TOPOLOGY_FILE | MININET => TOPOLOGY_FILE_MININET end
  | None => match mode with TESTBED => TOPOLOGY_FILE | MININET => TOPOLOGY_FILE_MININET end
  end.

(** What main has decided when it starts the components; [None] is the help text and exit code 0. *)
Definition startup (args : list string) (input : list Typed) (env : option string) : exits (option (LogConfig * DeploymentConfig * option string)) :=
  do! opts := cli.parse args cli.noOptions in
  if cli.showHelp opts then Goes None
  else
    do! cfg := parse_cli_args args defaultLog in
    do! (d, env) := resolveDeploymentConfig opts input env in
    Goes (Some (cfg, d, env)).

(** * Properties of the start *)

Lemma askChoice_range input n rest : askChoice input = Goes (n, rest) -> n = 1 \/ n = 2.
Proof.
  induction input as [|[m e| |] input IH]; cbn; try done. case_bool_decide as Hm; [by intros [= -> ->]|]. by destruct e.
Qed.

Definition modeGiven (o : cli.Options) : Prop := forall m, cli.mode o = Some m -> m = 1 \/ m = 2.

Lemma parse_mode args o o' : modeGiven o -> cli.parse args o = Goes o' -> modeGiven o'.
Proof.
  remember (length args) as n eqn:Hn. revert args Hn o. induction n as [n IH] using lt_wf_ind. intros args Hn o Ho.
  destruct args as [|arg args]; cbn [cli.parse]; [by intros [= <-]|]. cbn in Hn.
  repeat case_bool_decide; try (apply (IH (length args)); [lia|done|exact Ho]).
  - destruct args as [|value args]; [done|]. destruct (cli.modeOf value) as [m|] eqn:Em; [|done].
    apply (IH (length args)); [cbn in Hn; lia|done|]. intros m' [= <-]. unfold cli.modeOf in Em. repeat case_bool_decide; naive_solver.
  - destruct args as [|value args]; [done|]. apply (IH (length args)); [cbn in Hn; lia|done|exact Ho].
Qed.

(** The topology file a given start loads. *)
Definition chosenTopology (opts : cli.Options) (mode : Z) (choice : option Z) (env : option string) : string :=
  let byMode := if bool_decide (mode = 1) then TOPOLOGY_FILE_MININET else TOPOLOGY_FILE in
  let orMode := fun s => if bool_decide (s = "") then byMode else s in
  match env, cli.topology opts, choice with
  | Some f, _, _ => orMode f
  | None, Some t, _ => orMode t
  | None, None, Some n => orMode (if bool_decide (n = 2) then TOPOLOGY_FILE_MININET_P4 else TOPOLOGY_FILE_MININET)
  | None, None, None => byMode
  end.

Lemma activeTopologyPath_by mode env :
  activeTopologyPath (deploymentModeOf mode) env =
  match env with Some s => if bool_decide (s = "") then (if bool_decide (mode = 1) then TOPOLOGY_FILE_MININET else TOPOLOGY_FILE) else s
  | None => if bool_decide (mode = 1) then TOPOLOGY_FILE_MININET else TOPOLOGY_FILE end.
Proof. unfold activeTopologyPath, deploymentModeOf. destruct env; repeat case_bool_decide; naive_solver. Qed.

(** A start that goes on has a valid mode and honours every flag given: the mode, the use of the intent
    translator, and a topology file taken from the environment first, then from the command line, then
    from the prompt, else from the mode's default (a prompt decides only when nothing was given).
    Without a terminal it goes on exactly when mode and translator are given, and a topology file
    unless the mode is testbed; otherwise it exits with code 2, and never reads input. *)
Theorem startup_honours_flags opts input env :
  modeGiven opts ->
  (forall d env', resolveDeploymentConfig opts input env = Goes (d, env') ->
     (config_mode d = 1 \/ config_mode d = 2) /\
     (forall m, cli.mode opts = Some m -> config_mode d = m) /\ (forall a, cli.useAi opts = Some a -> useToken d = a) /\
     exists choice, (choice <> None -> interactive = true /\ cli.topology opts = None /\ config_mode d = 1) /\
       activeTopologyPath (deploymentModeOf (config_mode d)) env' = chosenTopology opts (config_mode d) choice env) /\
  (interactive = false ->
     match cli.mode opts, cli.useAi opts with
     | Some m, Some a => resolveDeploymentConfig opts input env =
         match cli.topology opts with
         | Some t => Goes ({| config_mode := m; useToken := a |}, setenvKeep t env)
         | None => if bool_decide (m = 1) then Exit 2 else Goes ({| config_mode := m; useToken := a |}, env)
         end
     | _, _ => resolveDeploymentConfig opts input env = Exit 2
     end).
Proof.
  intros Hm. unfold resolveDeploymentConfig. split.
  - intros d env' H. apply ebind_goes in H as ([mode input1] & E1 & H).
    assert ((mode = 1 \/ mode = 2) /\ forall m, cli.mode opts = Some m -> mode = m) as [Hr Hmode].
    { unfold orAsk in E1. destruct (cli.mode opts) as [m|] eqn:Eo; [injection E1 as -> ->; split; [by apply Hm|naive_solver]|].
      destruct interactive; [|done]. destruct (askChoice input) as [[n i]|] eqn:Ea; cbn in E1; simplify_eq. split; [by eapply askChoice_range|done]. }
    apply ebind_goes in H as ([env1 input2] & E2 & H). apply ebind_goes in H as ([ai input3] & E3 & H).
    injection H as <- <-. cbn [config_mode useToken].
    split_and!; [done|done| |].
    + intros a Ha. unfold orAsk in E3. rewrite Ha in E3. by injection E3.
    + setoid_rewrite activeTopologyPath_by. unfold chosenTopology. destruct (cli.topology opts) as [t|].
      * injection E2 as <- <-. exists None. split; [done|]. by destruct env.
      * case_bool_decide; [|injection E2 as <- <-; exists None; split; [done|by destruct env]].
        destruct interactive; [|done]. destruct (askChoice input1) as [[n i]|]; cbn in E2; [|done]. injection E2 as <- <-.
        exists (Some n). split; [done|]. by destruct env.
  - intros Hi. unfold orAsk. rewrite Hi. destruct (cli.mode opts) as [m|], (cli.useAi opts) as [a|]; cbn [ebind]; try done;
      destruct (cli.topology opts) as [t|]; cbn [ebind]; try done; case_bool_decide; done.
Qed.

End Resolve.

Definition sampleArgs : list string := ["--mode"; "mininet"; "--no-ai"; "--topology"; "p4.json"].

Lemma startup_honours_flags_witness : exists opts,
  cli.parse sampleArgs cli.noOptions = Goes opts /\
  resolveDeploymentConfig "ovs.json" "bmv2.json" false opts [] None = Goes ({| config_mode := 1; useToken := false |}, Some "p4.json") /\
  activeTopologyPath "ovs.json" "hw.json" MININET (Some "p4.json") = "p4.json".
Proof.
  exists {| cli.mode := Some 1; cli.topology := Some "p4.json"; cli.useAi := Some false; cli.showHelp := false |}. split; [by vm_compute|].
  pose proof (startup_honours_flags "ovs.json" "bmv2.json" "hw.json" false
    {| cli.mode := Some 1; cli.topology := Some "p4.json"; cli.useAi := Some false; cli.showHelp := false |} [] None) as [_ Hh].
  { intros m [= <-]. by left. }
  split; [exact (Hh eq_refl)|by vm_compute].
Defined.

(** The usage text says that the topology defaults to the mode's file, and shows this command. *)
Lemma usage_example_refused ovs bmv2 : startup ovs bmv2 false ["--mode"; "mininet"; "--no-ai"] [] None = Exit 2.
Proof. by vm_compute. Qed.

(** An environment variable that is set but empty hides the topology of the command line, and counts as
    unset when the file is loaded. *)
Lemma empty_variable_hides_topology ovs bmv2 hw t env' d :
  resolveDeploymentConfig ovs bmv2 false {| cli.mode := Some 1; cli.topology := Some t; cli.useAi := Some false; cli.showHelp := false |} [] (Some "") = Goes (d, env') ->
  activeTopologyPath ovs hw MININET env' = ovs.
Proof. cbn. by intros [= _ <-]. Qed.

(** An unknown log level is not refused: it turns logging off. *)
Lemma unknown_level_silences : startup "ovs" "bmv2" false (sampleArgs ++ ["--loglevel"; "verbose"]) [] None =
  Goes (Some ({| enableFile := false; level := off |}, {| config_mode := 1; useToken := false |}, Some "p4.json")).
Proof. by vm_compute. Qed.

(** * Threads of the components *)

(** The std::thread members; those of the worker pool are joined by its own run. *)
Inductive ThreadMember :=
  | topology_thread | topology_flushEdgeFlowLoop
  | collector_pktRcvThread | collector_calAvgThread | collector_testThread | collector_purgeThread
  | collector_calFlowPath | collector_destinationPathRefresh
  | history_thread | handler_serverThread
  | device_pingThread | device_statusUpdateThread | device_openflowTablesUpdateThread.

#[export] Instance ThreadMember_eq_dec : EqDecision ThreadMember.
Proof. solve_decision. Defined.

Inductive Component := TopologyMonitor_ | Collector_ | History_ | Handler_ | DeviceManager_.

(** The members each [start] assigns a running thread to, and those each [stop] joins. *)
Definition startedBy (mode : DeploymentMode) (c : Component) : list ThreadMember :=
  match c with
  | TopologyMonitor_ => [topology_thread; topology_flushEdgeFlowLoop]
  | Collector_ => [collector_pktRcvThread; collector_calAvgThread; collector_testThread; collector_purgeThread;
                   collector_calFlowPath; collector_destinationPathRefresh]
  | History_ => match mode with MININET => [] | TESTBED => [history_thread] end
  | Handler_ => [handler_serverThread]
  | DeviceManager_ => [device_pingThread; device_statusUpdateThread; device_openflowTablesUpdateThread]
  end.

Definition joinedBy (c : Component) : list ThreadMember :=
  match c with
  | TopologyMonitor_ => [topology_thread; topology_flushEdgeFlowLoop]
  | Collector_ => [collector_pktRcvThread; collector_calAvgThread; collector_testThread; collector_purgeThread;
                   collector_destinationPathRefresh; collector_calFlowPath]
  | History_ => [history_thread]
  | Handler_ => [handler_serverThread]
  | DeviceManager_ => [device_pingThread; device_statusUpdateThread]
  end.

(** Destructors that call [stop] again; the device manager has none of its own. *)
Definition destructorStops (c : Component) : bool := match c with DeviceManager_ => false | _ => true end.

Definition members (c : Component) : list ThreadMember := startedBy TESTBED c.

(** The joinable threads after a step. *)
Definition startComponent (mode : DeploymentMode) (joinable : list ThreadMember) (c : Component) : list ThreadMember :=
  joinable ++ startedBy mode c.
Definition stopComponent (joinable : list ThreadMember) (c : Component) : list ThreadMember :=
  filter (fun t => t ∉ joinedBy c) joinable.

(** How the process ends: with an exit code, or by [std::terminate] when a joinable thread is destroyed. *)
Inductive Ending := ExitCode (code : Z) | TerminateCalled.

Definition destroy (joinable : list ThreadMember) (c : Component) : list ThreadMember :=
  if destructorStops c then stopComponent joinable c else joinable.

Fixpoint destroyAll (code : Z) (joinable : list ThreadMember) (cs : list Component) : Ending :=
  match cs with
  | [] => ExitCode code
  | c :: cs =>
      let joinable := destroy joinable c in
      if bool_decide (Forall (fun t => t ∉ members c) joinable) then destroyAll code joinable cs else TerminateCalled
  end.

(** main after the components have been built; [collectorStarts] and [handlerStarts] say whether the sFlow
    port and the HTTP port could be bound; the exception of the second is not caught.  The objects are
    destroyed in reverse order of construction. *)
Definition kernelMain (mode : DeploymentMode) (collectorStarts handlerStarts : bool) : Ending :=
  let constructed := [Handler_; History_; Collector_; DeviceManager_; TopologyMonitor_] in
  let j := startComponent mode [] TopologyMonitor_ in
  if collectorStarts then
    if negb handlerStarts then TerminateCalled else
    let j := startComponent mode j Collector_ in
    let j := startComponent mode j History_ in
    let j := startComponent mode j Handler_ in
    let j := startComponent mode j DeviceManager_ in
    (* until SIGINT *)
    let j := foldl stopComponent j [TopologyMonitor_; Collector_; History_; Handler_; DeviceManager_] in
    destroyAll 0 j constructed
  else destroyAll 1 (stopComponent j TopologyMonitor_) constructed.

(** A start without the telemetry port fails cleanly, one without the HTTP port does not; and the orderly shutdown
    of a running kernel ends in [std::terminate]: the thread that polls the flow tables is never joined. *)
Lemma shutdown_terminates mode handlerStarts :
  kernelMain mode false handlerStarts = ExitCode 1 /\ kernelMain mode true false = TerminateCalled /\ kernelMain mode true true = TerminateCalled.
Proof. by destruct mode; vm_compute. Qed.
